(* ===== verification/_CoqProject ===== *)
-Q . S2P
Prelude.v
Threads.v
MrpWindow.v
MrpMerge.v
MrpStream.v
MrpProtocol.v
MrpFragments.v
States.v
Signaling.v
ConnectionTypes.v
Connection.v
ConnectionStart.v
ConnectionFsm.v
ConnectionSystem.v
ConnectionLive.v
ConnectionStatus.v
Call.v
CallConnections.v
CallFsm.v
CallSystem.v
CallDiagram.v
CallLive.v
CallDevices.v
CallHangup.v
CallNotify.v
CallComposition.v
CallExamples.v
CallManager.v
CallManagerSystem.v
CallManagerGroups.v
CallManagerTasks.v
CallManagerOneCall.v
CallManagerOffers.v
CallManagerStuck.v
CallManagerCalls.v
CallManagerExamples.v
FrameCrypto.v
FrameFormat.v
FrameDelivery.v
FrameContext.v
FrameExamples.v
Actor.v
Endorsements.v
GroupTypes.v
GroupCall.v
GroupSystem.v
GroupQuiet.v
GroupStates.v
GroupDiagram.v
GroupKeys.v
GroupDevices.v
GroupExamples.v
Base16.v
RootKey.v
CallLinkKeys.v
Http.v
CallLinks.v
SfuClient.v
CallLinkExamples.v
StatsObserver.v
CallSummary.v
SummaryLimits.v
Welford.v
StatsReports.v
SummaryExamples.v
AudioDevices.v
AudioNames.v
AudioStreams.v
AudioWorker.v
AudioRequests.v
AudioModule.v
AudioSystem.v
AudioExamples.v
Simnet.v
SimnetPackets.v
SimnetExamples.v
Native.v
