(* ===== verification/Prelude.v ===== *)
(** * RingRTC: a verification library (root file)

    RingRTC is the library behind Signal's voice and video calls.  This
    development models the core of its one-to-one ("direct") calls, from the call
    manager down to the connections, and of its group calls: the client, the
    end-to-end encryption of media and the reliable transport of messages to the
    server, and proves what makes them correct.  Source paths below are relative to [src/]; the core is
    under [src/rust/src/].

    ** The program

    - [mrp/src/] is the Modest Reliable Protocol: a sliding window
      ([window.rs]), reassembly of fragmented messages ([merge_buffer.rs]) and a
      two-sided stream that sends, resends, acknowledges and delivers packets in
      order ([stream.rs]).
    - [core/connection.rs] is one peer connection of a call: it owns WebRTC's
      peer connection, sends and receives signaling inside RTP data, measures
      bandwidth, and is used by the call, by WebRTC's callback threads and by its
      own state machine at the same time.  [core/connection_fsm.rs] is that state
      machine: a thread that takes events off a queue, and two threads it hands
      work to.  [webrtc/sdp_observer.rs] holds the session descriptions and the
      SRTP keys in them.
    - [core/call.rs] is a call: it holds a connection per device of the remote
      user (an outgoing call rings on all of them at once: a parent connection is
      forked into one child per device that answers), decides which device is the
      active one and reports to the call manager and through it to the
      application.  [core/call_fsm.rs] is its state machine, again one thread with
      a queue and two helper threads.
    - [core/call_manager.rs] owns the calls: it makes them and ends them, knows
      which one is active, resolves collisions of calls, sends the signaling
      messages one at a time, passes messages of the application on to the calls,
      keeps those that come before their offer, and has the table of group call
      clients and of the rings of groups.
    - [core/crypto.rs] encrypts the media frames of a group call: each device has a
      secret that it sends to the others and ratchets forward; receivers follow the
      ratchet of each sender and keep an older secret for late frames.  The bytes of
      a frame are put together in [core/group_call.rs].
    - [core/group_call.rs] is the client of a group call: an actor
      ([common/actor.rs]) that joins the call at a server (the SFU), follows the
      devices in it, gives them its secret and replaces it when a user leaves,
      and exchanges messages with the SFU and with the other devices.
      [core/endorsements.rs] keeps the endorsements that messages to users of a
      call link need; [lite/sfu.rs] has the lists of devices of the SFU.
    - [lite/] talks to servers over HTTP, through the application ([lite/http.rs]): it
      joins and peeks group calls ([lite/sfu.rs], for [HttpSfuClient] of
      [core/group_call.rs]) and makes, reads and changes call links
      ([lite/call_links.rs]), whose root keys are in [call_links/root_key.rs].
    - [webrtc/stats_observer.rs] turns the counters that WebRTC reports into snapshots of what
      happened since the last report; [core/call_summary.rs] collects these and the events of
      a call; at its end they become a summary for the application and telemetry of a limited size.
    - [webrtc/audio_device_module.rs] plays and records the sound of desktop clients with the
      library cubeb: WebRTC calls the module, which sends events to a thread of its own, and
      cubeb calls back for samples and when devices come or go.
      [webrtc/audio_device_module_utils.rs] lists and names the devices.
    - [native.rs] is the platform of desktop applications: it turns what the call manager asks of
      its platform into calls of the handlers of the application.  [simnet/router.rs] is a
      simulated network of links that lose, delay and queue packets.
    - [common/], [error/] and [core/signaling.rs] have the enumerations, units,
      errors and messages shared by all of these.

    Components interact by calls and by events: a call calls its connections
    (start, accept, hang up, terminate); a connection reports to its call with
    observer events, which the call queues for its own state machine; both state
    machines do their lengthy work on helper threads, so that all of this
    interleaves.  The call manager calls its calls ([Api] of [CallSystem.v]) and
    they call it ([ManagerCall] of [Call.v]), from their own threads, while the
    application does; requests of the application run on the manager's worker.

    ** The files

    - [Prelude.v] (this file): results and panics of Rust, machine integers, the
      state-and-error monad [ST] in which operations are written, its Hoare
      triples ([yields]) and frame lemmas ([respects], [never_fails]), tactics
      and hints, list lemmas.
    - [Threads.v]: [prog], code that other threads can interrupt between the
      scopes of its locks, with its steps, its runs alone ([runs], [exec]) and four
      ways to reason about it: what every step keeps ([every_step]), that it ends
      ([ends], [total]), what holds if it ends ([after]), what it keeps as a whole
      ([keeps]).
    - [MrpWindow.v] ([BufferWindow]), [MrpMerge.v] ([MergeBuffer]), [MrpStream.v]
      ([Stream]) translate [window.rs], [merge_buffer.rs], [stream.rs].
      [MrpProtocol.v] puts two streams on a network that loses, duplicates and
      reorders; [MrpFragments.v] follows fragmented messages through them.
    - [States.v]: [common/mod.rs], [common/units.rs], [error/mod.rs].
      [Signaling.v]: [core/signaling.rs] and the protobuf messages it converts to.
    - [ConnectionTypes.v], [Connection.v] (state [Connection], one definition per
      method), [ConnectionStart.v] (the three [start_*] methods, key negotiation,
      session descriptions): [core/connection.rs] and [webrtc/sdp_observer.rs].
      [ConnectionFsm.v]: every handler of [core/connection_fsm.rs] and every
      closure it sends to a thread.
    - [ConnectionSystem.v]: the state machine, its threads and all callers of a
      connection as one transition system ([Sys], [act]); its runs in which no thread comes
      between taking and handling an event ([reachable]) and all others ([interleaved]).
      [ConnectionLive.v], [ConnectionStatus.v]: theorems about it.
    - [Call.v] (state [Call], one definition per method, over the interface
      [ConnectionApi] of connections with the laws [ConnectionLaws]) and
      [CallFsm.v]: [core/call.rs], [core/call_fsm.rs].  [CallSystem.v]: the
      transition system of a call, likewise with [reachable] and [interleaved].  [CallDiagram.v], [CallLive.v],
      [CallDevices.v], [CallHangup.v], [CallNotify.v]: theorems about it for every
      implementation of the interface.
    - [CallConnections.v] implements the interface with the connections of
      [ConnectionSystem.v] and proves the laws; [CallComposition.v] concludes what
      holds of the composition; [CallExamples.v] runs it on concrete calls.
    - [CallManager.v]: [core/call_manager.rs], over the interface [CallApi] of
      calls with the laws [CallLaws].  [CallManagerSystem.v] (all threads
      interleaved, and the message queue), [CallManagerGroups.v],
      [CallManagerTasks.v], [CallManagerOneCall.v], [CallManagerOffers.v],
      [CallManagerStuck.v]: theorems for every implementation of the interface.
      [CallManagerCalls.v] implements it with the calls of [CallSystem.v] and
      proves the laws; [CallManagerExamples.v] runs it on concrete inputs.
    - [FrameCrypto.v]: [core/crypto.rs], over the interface [FrameCipher] of ciphers
      with the laws [FrameCipherLaws].  [FrameFormat.v]: [encrypt_media],
      [decrypt_media] and their like, [Writer] and [Reader] of [core/group_call.rs].
      [FrameDelivery.v]: the chain of secrets, and a receiver that follows it.
      [FrameContext.v]: any sequence of operations of a context, and the theorems.
      [FrameExamples.v]: a concrete cipher and concrete frames.
    - [Actor.v]: [common/actor.rs], for any type of closures.  [Endorsements.v]:
      [core/endorsements.rs].  [GroupTypes.v] (data and messages) and [GroupCall.v]
      (state [State], closures [Task], one definition per operation):
      [core/group_call.rs] and what it uses of [lite/sfu.rs], [protobuf.rs] and
      [webrtc/rtp.rs].  [GroupSystem.v]: the actor and the other threads as a
      transition system ([Sys], [act], [outside], [reset], [reachable]), and the [Core] of
      the state that the theorems speak of.  [GroupQuiet.v]: the operations that
      leave the core alone, and a weakest precondition for the others.
      [GroupStates.v], [GroupDiagram.v] (connection and join states, [busy]),
      [GroupKeys.v] (who has the secret), [GroupDevices.v] (transceivers, reliable
      messages): theorems.  [GroupExamples.v]: concrete calls.
    - [Base16.v]: bytes and UTF-8 of strings ([Text]), [call_links/base16.rs] and its
      grammar ([Written]).  [RootKey.v]: [call_links/root_key.rs], over [RootKeyCrypto]
      and [RngCore].  [CallLinkKeys.v]: theorems about keys.  [Http.v]: [lite/http.rs].
      [CallLinks.v]: [lite/call_links.rs] and [call_links/member_resolver.rs], with their
      theorems.  [SfuClient.v]: the requests of [lite/sfu.rs] and [HttpSfuClient]; it takes
      the [SfuCall]s that [GroupCall.v] makes.  [CallLinkExamples.v]: concrete instances,
      keys and requests.
    - [StatsObserver.v]: [webrtc/stats_observer.rs], over [Floats] (floating point numbers and
      sketches).  [CallSummary.v]: [core/call_summary.rs] ([Distribution], and the summaries
      of direct and group calls).
      [SummaryLimits.v]: theorems about any use of a summary.  [Welford.v]: the running mean
      and variance over exact numbers.  [StatsReports.v]: observer and summary together.  [SummaryExamples.v]: concrete summaries.
    - [AudioDevices.v] and [AudioNames.v]: [webrtc/audio_device_module_utils.rs] and theorems
      about it.  Of [webrtc/audio_device_module.rs], [AudioStreams.v] has the data callbacks of the
      streams, with their theorems; [AudioWorker.v] the thread ([Worker], [handle], [work]);
      [AudioModule.v] what WebRTC and the application call, and both together ([Sys]).
      [AudioRequests.v], [AudioSystem.v]: theorems about them.  [AudioExamples.v]: concrete runs.
    - [Simnet.v]: [simnet/router.rs], each router, link and bucket with an actor of [Actor.v];
      [SimnetPackets.v]: theorems for every order of the actors; [SimnetExamples.v]: a concrete network.
    - [Native.v]: the platform of [native.rs] over the calls that [CallManager.v] and [GroupCall.v]
      make, and the part of [core/call_manager.rs] that passes on what group calls report.

    ** How code becomes definitions

    A method that changes [self] is a function in the monad [ST S E]: it takes the
    state, returns the new state and a [result].  An error keeps the changes made
    before it, as in Rust.  Fields behind a mutex are fields of the record; a
    method is atomic on what it locks.  Calls that leave the modelled component
    (to WebRTC, to the call manager) are appended to a list of outputs and
    answered by an environment that the theorems quantify over, so every answer
    and every failure is covered.  Closures sent to a thread are values of an
    inductive type kept in a list, run by a step of their own.  [mpsc] channels
    are lists that can be closed; [sync_channel(256)] refuses the 257th event
    ([FSM_CHANNEL_SIZE]).  Integers are [Z], with wrap-around and saturation
    written out where the source can reach it.  Iteration over a [HashMap], whose
    order Rust leaves open, goes in an order the environment chooses.

    X25519, HKDF, protobuf encoding and the C++ session descriptions are type
    classes ([SrtpCrypto], [Codec], [SdpFfi]); [SrtpCryptoLaws] (Diffie-Hellman
    commutes, HKDF returns what it was asked for) and [CodecLaws] (decoding
    inverts encoding) are their documented behaviour, and [ConnectionStart.Toy]
    has concrete instances.  AES, HMAC and HKDF of the frames are [FrameCipher];
    [FrameCipherLaws] says that a key stream is applied by exclusive or and that a
    MAC has 32 bytes.  That another key does not give the same MAC is a hypothesis
    where a theorem needs it, for the keys in question.  Hashes and zkgroup in group
    calls are [GroupHash], [ZkEndorsement] and [ZkResponse], without laws.  That
    random secrets never meet on the chains of the ratchet is part of [fresh_run].
    HKDF and AES-GCM-SIV of root keys are [RootKeyCrypto] ([RootKeyCryptoLaws]:
    decryption inverts encryption, lengths), base64 and JSON [CallLinkCodec] and
    [SfuCodec]; a function that takes an HTTP client and a callback returns an [Exchange]:
    a result, or a request with what is done with its response.
    Floating point numbers have no laws ([Floats]); only [Welford.v] takes exact numbers for
    them.  The size of encoded telemetry is any function.
    cubeb is a record of answers ([Cubeb]), one for each event; WebRTC's samples and results are
    functions; regular expressions are functions that find ranges ([regex_ok]: of characters).
    A group call reads the clock once per closure, the observer of statistics once per report.  The other holders of [busy] are
    taken to release only what they took ([outside]), except that a reset of the call
    manager releases it in any case ([reset]; [handle_reset] itself is in [CallManager.v]).

    ** What is proved

    - MRP: delivery in order without loss or duplication, and what is not delivered is in the
      send buffer ([mrp_delivers_a_prefix]); recovery from any loss ([mrp_recovers_from_loss]);
      no [expect] fires ([mrp_never_panics]); reassembly gives back the messages
      ([fragmented_messages_roundtrip], [merge_buffer_roundtrip]); the window
      refines a finite map ([put_refines_insert], [drain_front_takes_longest_run],
      [drop_front_forgets_prefix]).
    - Connections: both ends derive the same keys ([srtp_keys_agree]); a started
      connection has a running state machine whatever fails
      ([start_leaves_a_running_fsm]); the states walk the diagram, the documented one with five
      arrows more, and in all interleavings with the exception of events that were
      overtaken by [terminate] ([connection_states_follow_diagram]); [terminate] returns
      ([terminate_is_answered]); the application sees the newest remote status
      ([remote_status_is_current]); the send rate keeps its limits
      ([max_send_rate_within_limits]).
    - Calls: states follow the diagram, in all interleavings with the same exception
      ([call_states_follow_diagram]); one device
      is chosen, once, and the others are ended
      ([acceptance_picks_one_device], [active_device_is_chosen_once],
      [declined_call_ends_on_all_devices], [inactive_device_is_ignored]); the
      application is told once ([application_is_notified_once]); [terminate]
      returns, releases everything and is followed by silence
      ([call_terminate_completes], [terminated_call_is_silent]).
    - Composition: the connections of a call do whatever the call asks, at any time.  A call
      asks only what the protocol of the interface allows
      ([connections_are_used_by_protocol]), so the theorems on connections hold
      for the connections of calls ([connections_of_calls_follow_diagram]).
    - Call manager: the device is in one call at most and [busy] says so
      ([one_call_at_a_time]), unless the manager is reset during a group call
      ([reset_allows_two_calls]); messages go out one at a time and in order, whatever
      the threads do ([messages_are_sent_one_at_a_time]); two devices that call
      each other settle on one call ([glare_is_resolved]); every task of the worker
      ends ([worker_tasks_end]); messages that come before their offer are not lost
      ([early_messages_are_delivered]); a group has one active client
      ([one_active_client_per_group]); the stateless check of a ring agrees with
      the handler ([ring_validation_agrees]).
    - Frames: what is sent can be decrypted, with losses and ratchets in between
      ([frames_are_decrypted]), also when it comes late ([late_frame_is_decrypted]);
      no counter block of the cipher is used twice ([key_stream_is_used_once]); few
      old keys are kept ([retained_keys_are_bounded]).  But one late frame makes the
      receiver lose the next ([second_late_frame_is_lost]).
    - Group calls: a user who is not in the call loses the secret of the others after one
      rotation, or the next if somebody else leaves meanwhile
      ([former_members_lose_the_key]), but not if he leaves while the device is out of
      the call for a moment ([rejoining_keeps_the_key_of_former_members]); the states
      that the application is told follow the diagrams of the source and the end is
      the last callback ([told_states_follow_the_diagrams]); [busy] is held while the
      device is in the call ([busy_held_while_in_call]), and until a reset if it joins again
      while it ends ([busy_is_lost_with_a_stopped_client]); after every step of every run each
      device has one transceiver and keeps it, as long as the peer connection accepts the
      changes ([transceivers_follow_the_devices]); messages of the
      SFU can get lost behind one with content ([messages_behind_content_are_lost]).
    - Call links: root keys are well-formed ([root_keys_are_well_formed]) and read back
      from their text ([root_key_text_roundtrip]), which the parser recognizes by its
      grammar ([parse_accepts_the_grammar]), with one surprise
      ([text_behind_a_key_is_ignored]); a link is created once and keeps its secret
      ([call_link_lifecycle], [creation_keeps_the_secret]); names come back unchanged
      ([call_link_name_roundtrip]), but the time that the server sends can cause a panic
      ([far_expiration_panics]); the caches of the resolver do not change its answers
      ([resolver_caches_are_transparent]).
    - HTTP: responses reach the callbacks of their requests
      ([responses_reach_their_requests]); joins wait for the proof of membership
      ([joins_wait_for_the_proof]).
    - Call summaries: collecting never panics and keeps the newest data within its limits
      ([collecting_is_safe], [group_collecting_is_safe]); telemetry is pruned to its limit and
      no further ([pruning_keeps_the_limit]), but without stats sets the summary goes
      ([summary_without_sets_is_dropped]); the running values are exact
      ([running_values_are_exact]); relayed time is counted when a period ends
      ([relayed_time_is_counted_at_the_end_of_a_period]), so a call that is relayed to its
      end is not reported as such ([relay_until_the_end_is_not_reported]).  A report of
      WebRTC becomes one stats set ([report_fills_one_set]), and the totals of a stream are
      WebRTC's ([totals_reach_the_summary]).
    - Audio: the microphone is heard when it should be ([microphone_obeys_requests]), but not after
      a warm-up that failed ([failed_warmup_blocks_recording]); what is played is what WebRTC gave
      and what is recorded reaches it, sample by sample ([played_samples_are_webrtcs],
      [recorded_samples_reach_webrtc]); the device that is shown is the one that is selected, if the list
      does not change before the thread looks
      ([shown_device_is_selected], [indices_select_what_is_shown]), by index; by id not always
      ([made_up_ids_select_nothing]); the sound goes on at another device
      ([output_device_change]); [playing] tells the truth ([playing_is_what_the_thread_does]);
      names are copied within their bounds ([names_are_copied_within_bounds]) and hidden in logs
      ([redaction_hides_names]).
    - Simulated network: packets are lost only where the source drops them or a thread panics, and are
      not changed ([packets_are_conserved]); the queue of a link keeps its size ([buckets_keep_their_size]).
    - Native platform: the states of a group call that the application's handler gets are those
      the client told, in order ([group_updates_follow_the_diagrams]).
    - Two races the threads allow: [terminated_state_can_be_overwritten],
      [ringing_can_follow_acceptance].  Two ways to get the call manager stuck:
      [repeated_offer_wedges_manager], [busy_reply_can_deadlock].

    ** Bounds

    Loops over lists and maps are folds or structural recursion.  These loops have
    fuel: [BufferWindow.push_none_until] pads a buffer up to a position and gets
    that position plus one, one round per element; [CallConnections.await_terminate]
    and [CallManagerCalls.await_terminate] wait for a state machine and get the
    length of its queue, which is enough by the lemmas behind
    [terminate_is_answered] and [call_terminate_completes];
    [FrameCrypto.ratchet_until] and [FrameCrypto.limit_until] count a byte up to a
    goal and get 256 rounds, enough by [ratchet_until_steps] and
    [limit_until_steps].  [RootKey.generate] draws random bytes until they have no
    repeated digits; fuel for the first such draw is enough ([generate_ends]).
    [AudioStreams.request_more] writes a frame per round and gets the length of the output, enough by
    [request_more_spec]; [AudioStreams.chunks_of] gets the length of the list.  The loop of
    [send_next_message] has no fuel ([Loop] of [Threads.v]); that it ends is part of
    [worker_tasks_end].  [exec] has fuel, for examples only.  The liveness theorems give the number of steps: the length
    of the queue.  Sequence numbers of MRP are below [2^64 - 2] ([MAX_SENT]);
    beyond it the [+ 1] of [next_seqnum] would overflow.

    ** Not modelled, and what comes next

    The rounding of floating point numbers, log lines and JSON texts, reference
    counts and raw pointers (and the notification made when the last reference to a
    call goes), bindings to C++, Java, Swift and Node, asset files, tests and
    command-line tools are left out; of the native platform, the creation of connections;
    of group calls, the statistics, the state of the summary (the calls of it are outputs)
    and the cache of frame heights on the thread of WebRTC (its closure is
    modelled); of the simulated network, that it is stopped; of the state of a call link in messages
    over RTP, only whether it can be
    converted.  The platforms of Android, iOS and Electron and the one of the tests are left out:
    they convert values for another language, or record what they are asked, and have no logic
    of their own. *)

From stdpp Require Export functions base tactics option list numbers gmap strings.
From stdpp Require Export list_numbers.
From Stdlib Require Export ZArith Lia.

#[global] Set Default Goal Selector "!".

Declare Scope ringrtc_scope.
Delimit Scope ringrtc_scope with rtc.

(** ** Rust's [Result] and panics *)

(** [std::result::Result<A, E>]. *)
Inductive result (A E : Type) : Type :=
| Ok (a : A)
| Err (e : E).
Arguments Ok {A E} _.
Arguments Err {A E} _.

(** The outcome of running a Rust function that may panic ([assert!],
    [expect], [unwrap]). *)
Inductive outcome (A : Type) : Type :=
| Val (a : A)
| Panic.
Arguments Val {A} _.
Arguments Panic {A}.

#[export] Instance outcome_ret : MRet outcome := fun A a => Val a.
#[export] Instance outcome_bind : MBind outcome := fun A B f m =>
  match m with Val a => f a | Panic => Panic end.

#[export] Instance result_eq_dec {A E} `{EqDecision A, EqDecision E} :
  EqDecision (result A E).
Proof. solve_decision. Defined.

#[export] Instance outcome_eq_dec {A} `{EqDecision A} : EqDecision (outcome A).
Proof. solve_decision. Defined.

(** [Option::unwrap] and [Option::expect]. *)
Definition unwrap {A} (o : option A) : outcome A :=
  match o with Some a => Val a | None => Panic end.

(** [Result::expect]. *)
Definition expect_ok {A E} (r : result A E) : outcome A :=
  match r with Ok a => Val a | Err _ => Panic end.

(** [assert!] on a boolean condition. *)
Definition assert (b : bool) : outcome unit :=
  if b then Val tt else Panic.

Definition is_ok {A E} (r : result A E) : bool :=
  match r with Ok _ => true | Err _ => false end.

(** ** Stateful fallible code

    [ST S E A] is code that reads and writes a state [S] and returns a Rust
    [Result<A, E>].  As with the [?] operator, an error stops the code but the
    changes made before it stay. *)

Definition ST (S E A : Type) : Type := S -> S * result A E.

#[export] Instance ST_ret {S E} : MRet (ST S E) := fun A a s => (s, Ok a).
#[export] Instance ST_bind {S E} : MBind (ST S E) := fun A B f m s =>
  match m s with
  | (s', Ok a) => f a s'
  | (s', Err e) => (s', Err e)
  end.

Definition get {S E} : ST S E S := fun s => (s, Ok s).
Definition gets {S E A} (f : S -> A) : ST S E A := fun s => (s, Ok (f s)).
Definition modify {S E} (f : S -> S) : ST S E unit := fun s => (f s, Ok tt).
Definition fail {S E A} (e : E) : ST S E A := fun s => (s, Err e).
Definition ret_ok {S E} : ST S E unit := fun s => (s, Ok tt).

(** The result of a call as a value: what [if let Err(e) = ...] and [let _ = ...]
    match on. *)
Definition attempt {S E A} (m : ST S E A) : ST S E (result A E) := fun s =>
  let '(s', r) := m s in (s', Ok r).

(** Use a result obtained elsewhere. *)
Definition of_result {S E A} (r : result A E) : ST S E A := fun s => (s, r).

(** A [for] loop whose body uses [?]. *)
Fixpoint for_each {S E A} (l : list A) (body : A -> ST S E unit) : ST S E unit :=
  match l with
  | [] => ret_ok
  | x :: l => body x ;; for_each l body
  end.

(** Whatever the result, [m] relates the state before to the state after by the
    preorder [R].  With [R s s' := f s' = f s] this says that [m] keeps [f]. *)
Definition respects {S E A} (R : relation S) (m : ST S E A) : Prop :=
  forall s, R s (m s).1.

Definition same {S B} (f : S -> B) : relation S := fun s s' => f s' = f s.

#[export] Instance same_preorder {S B} (f : S -> B) : PreOrder (same f).
Proof. split; unfold same; [done|]. intros s1 s2 s3. congruence. Qed.

Create HintDb respects.

Section Respects.
Context {S E : Type} (R : relation S) `{!PreOrder R}.
Implicit Types A B : Type.

Lemma respects_bind {A B} (m : ST S E A) (k : A -> ST S E B) :
  respects R m -> (forall a, respects R (k a)) -> respects R (m ≫= k).
Proof.
  intros Hm Hk s. unfold mbind, ST_bind. specialize (Hm s).
  destruct (m s) as [s' [a|e]]; cbn in *; [|done].
  etrans; [done|]. apply Hk.
Qed.

Lemma respects_pure {A} (m : ST S E A) : (forall s, (m s).1 = s) -> respects R m.
Proof. intros Hm s. by rewrite Hm. Qed.

Lemma respects_ret {A} (a : A) : respects R (mret a : ST S E A).
Proof. by apply respects_pure. Qed.

Lemma respects_ret_ok : respects R (ret_ok : ST S E unit).
Proof. by apply respects_pure. Qed.

Lemma respects_get : respects R (get : ST S E S).
Proof. by apply respects_pure. Qed.

Lemma respects_gets {A} (f : S -> A) : respects R (gets f : ST S E A).
Proof. by apply respects_pure. Qed.

Lemma respects_fail {A} (e : E) : respects R (fail e : ST S E A).
Proof. by apply respects_pure. Qed.

Lemma respects_of_result {A} (r : result A E) : respects R (of_result r : ST S E A).
Proof. by apply respects_pure. Qed.

Lemma respects_modify (f : S -> S) :
  (forall s, R s (f s)) -> respects R (modify f : ST S E unit).
Proof. intros Hf s. apply Hf. Qed.

Lemma respects_attempt {A} (m : ST S E A) : respects R m -> respects R (attempt m).
Proof. intros Hm s. specialize (Hm s). unfold attempt. by destruct (m s). Qed.

Lemma respects_for_each {A} (l : list A) (body : A -> ST S E unit) :
  (forall x, respects R (body x)) -> respects R (for_each l body).
Proof.
  intros Hb. induction l as [|x l IH]; cbn; [apply respects_ret_ok|].
  by apply respects_bind.
Qed.

End Respects.

#[export] Hint Resolve respects_ret respects_ret_ok respects_get respects_gets respects_fail
  respects_of_result respects_attempt respects_for_each : respects.

(** Take code apart along binds and branches, and close the leaves with the hints
    of [respects]. *)
Ltac respects_step :=
  lazymatch goal with
  | |- respects _ (mbind _ _) => apply respects_bind; [typeclasses eauto| |intros ?]
  | |- respects _ (match ?x with _ => _ end) => destruct x
  | |- respects _ (let '(_, _) := ?x in _) => destruct x
  | |- respects _ (attempt _) => apply respects_attempt
  | |- respects _ (for_each _ _) => apply respects_for_each; [typeclasses eauto|intros ?]
  | |- respects _ _ => solve [eauto with respects typeclass_instances]
  end.
Ltac solve_respects := intros; repeat respects_step.

(** [m] keeps the invariant [I], whatever its result, and a value it returns
    satisfies [Q]. *)
Definition yields {S E A} (I : S -> Prop) (m : ST S E A) (Q : A -> Prop) : Prop :=
  forall s, I s -> I (m s).1 /\ forall a, (m s).2 = Ok a -> Q a.

Section Yields.
Context {S E : Type} (I : S -> Prop).
Implicit Types A B : Type.

Lemma yields_bind {A B} (m : ST S E A) (k : A -> ST S E B) Q Q' :
  yields I m Q -> (forall a, Q a -> yields I (k a) Q') -> yields I (m ≫= k) Q'.
Proof.
  intros Hm Hk s Hs. destruct (Hm s Hs) as [HI HQ]. unfold mbind, ST_bind.
  destruct (m s) as [s' [a|e]]; cbn in *; [by apply Hk; [apply HQ|]|done].
Qed.

Lemma yields_weaken {A} (m : ST S E A) (Q Q' : A -> Prop) :
  yields I m Q -> (forall a, Q a -> Q' a) -> yields I m Q'.
Proof. intros Hm HQ s Hs. destruct (Hm s Hs). split; auto. Qed.

Lemma yields_gets {A} (f : S -> A) (Q : A -> Prop) :
  (forall s, I s -> Q (f s)) -> yields I (gets f : ST S E A) Q.
Proof. intros Hf s Hs. split; [done|]. intros a [= <-]. auto. Qed.

Lemma yields_get : yields I (get : ST S E S) I.
Proof. intros s Hs. split; [done|]. by intros a [= <-]. Qed.

Lemma yields_modify (f : S -> S) (Q : unit -> Prop) :
  (forall s, I s -> I (f s)) -> Q tt -> yields I (modify f : ST S E unit) Q.
Proof. intros Hf HQ s Hs. split; [by apply Hf|]. by intros [] _. Qed.

Lemma yields_ret {A} (a : A) (Q : A -> Prop) : Q a -> yields I (mret a : ST S E A) Q.
Proof. intros HQ s Hs. split; [done|]. by intros a' [= <-]. Qed.

Lemma yields_ret_ok (Q : unit -> Prop) : Q tt -> yields I (ret_ok : ST S E unit) Q.
Proof. by apply yields_ret. Qed.

Lemma yields_fail {A} (e : E) (Q : A -> Prop) : yields I (fail e : ST S E A) Q.
Proof. by intros s Hs. Qed.

Lemma yields_of_result {A} (r : result A E) (Q : A -> Prop) :
  (forall a, r = Ok a -> Q a) -> yields I (of_result r : ST S E A) Q.
Proof. by intros HQ s Hs. Qed.

Lemma yields_attempt {A} (m : ST S E A) Q :
  yields I m Q -> yields I (attempt m) (fun r => forall a, r = Ok a -> Q a).
Proof.
  intros Hm s Hs. destruct (Hm s Hs) as [HI HQ]. unfold attempt.
  destruct (m s) as [s' r]; cbn in *. split; [done|]. by intros r' [= <-].
Qed.

Lemma yields_for_each {A} (l : list A) (body : A -> ST S E unit) :
  (forall x, yields I (body x) (fun _ => True)) -> yields I (for_each l body) (fun _ => True).
Proof.
  intros Hb. induction l as [|x l IH]; cbn; [by apply yields_ret_ok|].
  eapply yields_bind; [apply Hb|done].
Qed.

End Yields.

(** Code that never returns an error. *)
Definition never_fails {S E A} (m : ST S E A) : Prop := forall s, is_ok (m s).2 = true.

Lemma never_fails_bind {S E A B} (m : ST S E A) (k : A -> ST S E B) :
  never_fails m -> (forall a, never_fails (k a)) -> never_fails (m ≫= k).
Proof.
  intros Hm Hk s. unfold mbind, ST_bind. specialize (Hm s).
  destruct (m s) as [s' [a|e]]; [apply Hk|done].
Qed.

Lemma never_fails_attempt {S E A} (m : ST S E A) : never_fails (attempt m).
Proof. intros s. unfold attempt. by destruct (m s). Qed.

Lemma never_fails_for_each {S E A} (l : list A) (body : A -> ST S E unit) :
  (forall x, never_fails (body x)) -> never_fails (for_each l body).
Proof. intros Hb. induction l as [|x l IH]; cbn; [done|]. by apply never_fails_bind. Qed.

(** What a successful bind ran through. *)
Lemma ST_bind_ok {S E A B} (m : ST S E A) (k : A -> ST S E B) s s' b :
  (m ≫= k) s = (s', Ok b) <-> exists s1 a, m s = (s1, Ok a) /\ k a s1 = (s', Ok b).
Proof.
  unfold mbind, ST_bind. destruct (m s) as [s1 [a|e]]; split.
  - by exists s1, a.
  - intros (s2 & a' & Heq & Hk). by simplify_eq.
  - by intros [=].
  - intros (s2 & a' & Heq & _). by simplify_eq.
Qed.

Lemma ST_bind_run {S E A B} (m : ST S E A) (k : A -> ST S E B) s s1 a :
  m s = (s1, Ok a) -> (m ≫= k) s = k a s1.
Proof. unfold mbind, ST_bind. by intros ->. Qed.

Lemma ST_bind_err {S E A B} (m : ST S E A) (k : A -> ST S E B) s s1 e :
  m s = (s1, Err e) -> (m ≫= k) s = (s1, Err e).
Proof. unfold mbind, ST_bind. by intros ->. Qed.

Lemma ST_gets_bind {S E A B} (f : S -> A) (k : A -> ST S E B) s : (gets f ≫= k) s = k (f s) s.
Proof. done. Qed.

(** ** Record update

    [r <| field := v |>] is the record [r] with one field changed.  A record type
    declares its eta expansion; the setter of a field is computed from it. *)

Class Eta (R : Type) : Type := eta_of : R -> R.
Class Setter {R A : Type} (proj : R -> A) : Type := set_field : (A -> A) -> R -> R.

Ltac solve_setter proj :=
  match type of proj with
  | ?R -> ?A =>
    let e := constr:(_ : Eta R) in
    let e' := eval hnf in e in
    let f := fresh "f" in
    let r := fresh "r" in
    unfold Setter; intros f r;
    let b := eval cbv beta in (e' r) in
    let b' := eval pattern (proj r) in b in
    match b' with
    | ?g _ => let s := eval cbv beta in (g (f (proj r))) in exact s
    end
  end.

#[global] Hint Extern 1 (Setter ?proj) => solve_setter proj : typeclass_instances.

Notation "r <| proj := v |>" := (set_field (proj := proj) (fun _ => v) r)
  (at level 12, left associativity) : ringrtc_scope.

(** ** Machine integers

    A [w]-bit unsigned integer is a [Z] in [0, 2^w).  [+], [-] wrap around, as
    in a release build; [usize] has 64 bits. *)

Definition wrap (w z : Z) : Z := (z `mod` 2 ^ w)%Z.
Definition U64_MAX : Z := (2 ^ 64 - 1)%Z.
Definition USIZE_MAX : Z := U64_MAX.
Definition U32_MAX : Z := (2 ^ 32 - 1)%Z.
Definition u64_add (a b : Z) : Z := wrap 64 (a + b).
Definition u64_sub (a b : Z) : Z := wrap 64 (a - b).
Definition u16_add (a b : Z) : Z := wrap 16 (a + b).
Definition u64_saturating_add (a b : Z) : Z := Z.min U64_MAX (a + b).
Definition as_u32 (a : Z) : Z := wrap 32 a.

Notation "a +64 b" := (u64_add a b) (at level 50, left associativity) : ringrtc_scope.
Notation "a -64 b" := (u64_sub a b) (at level 50, left associativity) : ringrtc_scope.

(** The length of a Rust collection, as a [usize]. *)
Definition zlen {A} (l : list A) : Z := Z.of_nat (length l).

Definition in_u64 (z : Z) : Prop := (0 <= z < 2 ^ 64)%Z.

Create HintDb ringrtc.
Create Rewrite HintDb ringrtc_len.

Section WordLemmas.
Local Open Scope Z_scope.

Lemma wrap_small w z : 0 <= z < 2 ^ w -> wrap w z = z.
Proof. intros H. unfold wrap. by apply Z.mod_small. Qed.

Lemma u64_add_small a b : 0 <= a + b < 2 ^ 64 -> u64_add a b = a + b.
Proof. apply wrap_small. Qed.

Lemma u64_sub_small a b : 0 <= a - b < 2 ^ 64 -> u64_sub a b = a - b.
Proof. apply wrap_small. Qed.

(** A [+] and a [-] in sequence only wrap when the final value is out of range. *)
Lemma u64_add_sub_small a b c :
  0 <= a + b - c < 2 ^ 64 -> u64_sub (u64_add a b) c = a + b - c.
Proof.
  intros H. unfold u64_sub, u64_add, wrap.
  rewrite Zminus_mod_idemp_l. by apply Z.mod_small.
Qed.

Lemma zlen_nonneg {A} (l : list A) : 0 <= zlen l.
Proof. unfold zlen. lia. Qed.

Lemma zlen_app {A} (l k : list A) : zlen (l ++ k) = zlen l + zlen k.
Proof. unfold zlen. rewrite length_app. lia. Qed.

Lemma zlen_cons {A} (x : A) (l : list A) : zlen (x :: l) = zlen l + 1.
Proof. unfold zlen. simpl. lia. Qed.

Lemma zlen_nil {A} : zlen (@nil A) = 0.
Proof. done. Qed.

Lemma zlen_insert {A} (l : list A) i x : zlen (<[i:=x]> l) = zlen l.
Proof. unfold zlen. by rewrite length_insert. Qed.

Lemma zlen_drop {A} (l : list A) n : zlen (drop n l) = Z.max 0 (zlen l - Z.of_nat n).
Proof. unfold zlen. rewrite length_drop. lia. Qed.

End WordLemmas.

#[export] Hint Rewrite @zlen_app @zlen_cons @zlen_nil @zlen_insert @zlen_drop : ringrtc_len.

(** Split every [if]/[match] on a comparison of integers in the context. *)
Ltac zcases :=
  repeat match goal with
  | |- context [if (?a <? ?b)%Z then _ else _] => destruct (Z.ltb_spec a b)
  | |- context [if (?a <=? ?b)%Z then _ else _] => destruct (Z.leb_spec a b)
  | |- context [if (?a =? ?b)%Z then _ else _] => destruct (Z.eqb_spec a b)
  end.

Ltac len_simpl := autorewrite with ringrtc_len in *.
