(* ===== verification/Threads.v ===== *)
(** * Code that runs on several threads

    [prog S E A] is code over a shared state [S] in which other threads can
    interfere: an [Atom] is one critical section, everything the code does while
    it holds a lock; an atom that answers [None] has to wait, because a lock it
    needs is held.  What follows depends on the state the atom found.  Between atoms
    other threads run.  [Loop] is Rust's [loop]: its
    body runs again until it breaks ([Some]) or fails; [round] is the part of
    the current round still to run.  As for [ST], an error ends the code and keeps
    what was done before. *)

From S2P Require Import Prelude.

Inductive prog (S E A : Type) : Type :=
| Done (r : result A E)
| Atom (m : S -> option S) (k : S -> prog S E A)
| Loop (body round : prog S E (option unit)) (k : result unit E -> prog S E A).
Arguments Done {S E A} _.
Arguments Atom {S E A} _ _.
Arguments Loop {S E A} _ _ _.

Section Prog.
Context {S E : Type}.
Implicit Types A B : Type.

(** Continue with the result of [p], also with an error. *)
Fixpoint then_result {A B} (p : prog S E A) (k : result A E -> prog S E B) : prog S E B :=
  match p with
  | Done r => k r
  | Atom m k' => Atom m (fun b => then_result (k' b) k)
  | Loop body round k' => Loop body round (fun b => then_result (k' b) k)
  end.

#[global] Instance prog_ret : MRet (prog S E) := fun A a => Done (Ok a).
#[global] Instance prog_bind : MBind (prog S E) := fun A B f p =>
  then_result p (fun r => match r with Ok a => f a | Err e => Done (Err e) end).

(** A critical section. *)
Definition atom {A} (m : ST S E A) : prog S E A := 
  Atom (fun s => Some (m s).1) (fun s => Done (m s).2).
(** A critical section that waits while [blocked]. *)
Definition atom_unless {A} (blocked : S -> bool) (m : ST S E A) : prog S E A :=
  
  Atom (fun s => if blocked s then None else Some (m s).1) (fun s => Done (m s).2).

Definition throw {A} (e : E) : prog S E A := Done (Err e).
Definition done_ok : prog S E unit := Done (Ok tt).
Definition of_res {A} (r : result A E) : prog S E A := Done r.
Definition try {A} (p : prog S E A) : prog S E (result A E) := then_result p (fun r => Done (Ok r)).
Definition loop (body : prog S E (option unit)) : prog S E unit := Loop body body Done.

Fixpoint each {A} (l : list A) (body : A -> prog S E unit) : prog S E unit :=
  match l with
  | [] => done_ok
  | x :: l => body x ;; each l body
  end.

(** ** Steps *)

(** One step: an atom, or the decision at the end of a round. *)
Fixpoint step_prog {A} (p : prog S E A) (s : S) : option (S * prog S E A) :=
  match p with
  | Done _ => None
  | Atom m k => match m s with Some s' => Some (s', k s) | None => None end
  | Loop body round k =>
    match round with
    | Done (Ok None) => Some (s, Loop body body k)
    | Done (Ok (Some b)) => Some (s, k (Ok b))
    | Done (Err e) => Some (s, k (Err e))
    | _ => match step_prog round s with
           | Some (s', round') => Some (s', Loop body round' k)
           | None => None
           end
    end
  end.

Definition result_of {A} (p : prog S E A) : option (result A E) :=
  match p with Done r => Some r | _ => None end.

Lemma step_then_result {A B} (p p' : prog S E A) (k : result A E -> prog S E B) s s' :
  step_prog p s = Some (s', p') ->
  step_prog (then_result p k) s = Some (s', then_result p' k).
Proof.
  destruct p as [r|m k'|body round k']; cbn [step_prog then_result]; [done|..].
  - destruct (m s) as [s1|]; [|done]. by intros [= <- <-].
  - destruct round as [[[b|]|e]|m k''|body' round' k''].
    1-3: by intros [= <- <-].
    all: destruct (step_prog _ s) as [[s1 q]|]; [|done]; by intros [= <- <-].
Qed.

Lemma result_of_Some {A} (p : prog S E A) r : result_of p = Some r -> p = Done r.
Proof. destruct p; [|done..]. by intros [= ->]. Qed.

Lemma step_round {A} (body round : prog S E (option unit)) (k : result unit E -> prog S E A) s :
  result_of round = None ->
  step_prog (Loop body round k) s =
    match step_prog round s with
    | Some (s', round') => Some (s', Loop body round' k)
    | None => None
    end.
Proof. by destruct round. Qed.

(** ** Running alone

    [runs p s s' r]: alone, [p] goes from [s] to [s'] and ends with [r]. *)
Inductive runs {A} : prog S E A -> S -> S -> result A E -> Prop :=
| runs_done r s : runs (Done r) s s r
| runs_step p p' s s1 s' r : step_prog p s = Some (s1, p') -> runs p' s1 s' r -> runs p s s' r.

(** The same, executable. *)
Fixpoint exec {A} (n : nat) (p : prog S E A) (s : S) : option (S * result A E) :=
  match result_of p with
  | Some r => Some (s, r)
  | None =>
    match n with
    | O => None
    | Datatypes.S n => match step_prog p s with Some (s', p') => exec n p' s' | None => None end
    end
  end.

(** [n] steps alone. *)
Fixpoint steps {A} (n : nat) (p : prog S E A) (s : S) : option (S * prog S E A) :=
  match n with
  | O => Some (s, p)
  | Datatypes.S n => match step_prog p s with Some (s', p') => steps n p' s' | None => None end
  end.

(** A program that waits for a lock nobody else holds never ends. *)
Lemma waiting_never_ends {A} n (p p' : prog S E A) s s' :
  steps n p s = Some (s', p') -> result_of p' = None -> step_prog p' s' = None ->
  forall s'' r, ~ runs p s s'' r.
Proof.
  revert p s. induction n as [|n IH]; intros p s; cbn [steps].
  - intros [= -> ->] Hr Hs s'' r Hrun. inversion Hrun; subst; [done|congruence].
  - destruct (step_prog p s) as [[s1 p1]|] eqn:Hp; [|done]. intros Hn Hr Hs s'' r Hrun.
    inversion Hrun; subst; [done|]. eapply (IH p1 s1); [done..|]. by simplify_eq.
Qed.

(** Alone, [p] comes to an end, and what it leaves satisfies [Q]. *)
Definition ends {A} (p : prog S E A) (s : S) (Q : S -> result A E -> Prop) : Prop :=
  exists s' r, runs p s s' r /\ Q s' r.

Lemma exec_runs {A} n (p : prog S E A) s s' r : exec n p s = Some (s', r) -> runs p s s' r.
Proof.
  revert p s. induction n as [|n IH]; intros p s; cbn [exec];
    destruct (result_of p) as [r0|] eqn:Hr; try done.
  - apply result_of_Some in Hr as ->. intros [= <- <-]. constructor.
  - apply result_of_Some in Hr as ->. intros [= <- <-]. constructor.
  - destruct (step_prog p s) as [[s1 p']|] eqn:Hs; [|done]. intros He.
    econstructor; [done|]. by apply IH.
Qed.

(** What a program that ends alone can end with is determined. *)
Lemma runs_exec {A} (p : prog S E A) s s' r : runs p s s' r -> exists n, exec n p s = Some (s', r).
Proof.
  induction 1 as [r s|p p' s s1 s' r Hs _ [n Hn]]; [by exists O|].
  exists (Datatypes.S n). cbn [exec]. destruct (result_of p) as [r0|] eqn:Hr; [|by rewrite Hs].
  apply result_of_Some in Hr as ->. done.
Qed.

Lemma runs_fun {A} (p : prog S E A) s s1 r1 s2 r2 :
  runs p s s1 r1 -> runs p s s2 r2 -> s1 = s2 /\ r1 = r2.
Proof.
  induction 1 as [r s|p p' s s' s1 r1 Hs _ IH]; intros H2.
  - apply runs_exec in H2 as [n Hn]. destruct n; cbn in Hn; by injection Hn as <- <-.
  - apply IH. destruct H2 as [r s|p q s s3 s2 r2 Hs' H2]; [done|].
    rewrite Hs in Hs'. by injection Hs' as <- <-.
Qed.

Lemma runs_then {A B} (p : prog S E A) (k : result A E -> prog S E B) s s1 r1 s' r :
  runs p s s1 r1 -> runs (k r1) s1 s' r -> runs (then_result p k) s s' r.
Proof.
  induction 1 as [r0 s|p p' s s2 s1 r1 Hs _ IH]; [done|]. intros Hk.
  eapply runs_step; [by apply step_then_result|]. by apply IH.
Qed.

Lemma ends_done {A} (r : result A E) s (Q : S -> result A E -> Prop) : Q s r -> ends (Done r) s Q.
Proof. intros HQ. exists s, r. split; [constructor|done]. Qed.

Lemma ends_weaken {A} (p : prog S E A) s (Q Q' : S -> result A E -> Prop) :
  ends p s Q -> (forall s' r, Q s' r -> Q' s' r) -> ends p s Q'.
Proof. intros (s' & r & Hr & HQ) HQ'. exists s', r. auto. Qed.

Lemma ends_then {A B} (p : prog S E A) (k : result A E -> prog S E B) s Q :
  ends p s (fun s' r => ends (k r) s' Q) -> ends (then_result p k) s Q.
Proof.
  intros (s1 & r1 & H1 & s2 & r2 & H2 & HQ). exists s2, r2. split; [|done].
  by eapply runs_then.
Qed.

Lemma ends_bind {A B} (p : prog S E A) (f : A -> prog S E B) s Q :
  ends p s (fun s' r => match r with Ok a => ends (f a) s' Q | Err e => Q s' (Err e) end) ->
  ends (p ≫= f) s Q.
Proof.
  intros Hp. apply ends_then. eapply ends_weaken; [done|]. intros s' [a|e] HQ; [done|].
  by apply ends_done.
Qed.

Lemma ends_try {A} (p : prog S E A) s (Q : S -> result (result A E) E -> Prop) :
  ends p s (fun s' r => Q s' (Ok r)) -> ends (try p) s Q.
Proof.
  intros Hp. apply ends_then. eapply ends_weaken; [done|]. intros s' r HQ. by apply ends_done.
Qed.

Lemma ends_atom {A} (m : ST S E A) s (Q : S -> result A E -> Prop) :
  Q (m s).1 (m s).2 -> ends (atom m) s Q.
Proof.
  intros HQ. destruct (m s) as [s' r] eqn:Hm. exists s', r. split; [|done].
  eapply runs_step; [done|]. rewrite Hm. constructor.
Qed.

Lemma ends_atom_unless {A} (blocked : S -> bool) (m : ST S E A) s (Q : S -> result A E -> Prop) :
  blocked s = false -> Q (m s).1 (m s).2 -> ends (atom_unless blocked m) s Q.
Proof.
  intros Hb HQ. destruct (m s) as [s' r] eqn:Hm. exists s', r. split; [|done].
  eapply runs_step; [cbn; by rewrite Hb|]. rewrite Hm. constructor.
Qed.

Lemma runs_round {A} (body round : prog S E (option unit)) (k : result unit E -> prog S E A)
    s s1 o s' r :
  runs round s s1 o -> runs (Loop body (Done o) k) s1 s' r -> runs (Loop body round k) s s' r.
Proof.
  induction 1 as [r0 s|p p' s s2 s1 r1 Hs _ IH]; [done|]. intros Hk.
  eapply runs_step; [|by apply IH]. cbn [step_prog].
  destruct p; [done|..]; by rewrite Hs.
Qed.

(** One round of a loop, then what is left. *)
Lemma ends_loop (body : prog S E (option unit)) s (Q : S -> result unit E -> Prop) :
  ends body s (fun s' r =>
    match r with
    | Ok (Some b) => Q s' (Ok b)
    | Ok None => ends (loop body) s' Q
    | Err e => Q s' (Err e)
    end) -> ends (loop body) s Q.
Proof.
  intros (s1 & o & Hb & HQ). destruct o as [[b|]|e].
  - exists s1, (Ok b). split; [|done]. eapply runs_round; [done|].
    eapply runs_step; [done|]. constructor.
  - destruct HQ as (s2 & r2 & H2 & HQ). exists s2, r2. split; [|done].
    eapply runs_round; [done|]. by eapply runs_step.
  - exists s1, (Err e). split; [|done]. eapply runs_round; [done|].
    eapply runs_step; [done|]. constructor.
Qed.

(** ** What every step keeps *)

(** Every atom of [p] relates the state before to the state after by [R]. *)
Fixpoint every_step {A} (R : relation S) (p : prog S E A) : Prop :=
  match p with
  | Done _ => True
  | Atom m k => (forall s s', m s = Some s' -> R s s') /\ forall s, every_step R (k s)
  | Loop body round k => every_step R body /\ every_step R round /\ forall b, every_step R (k b)
  end.

Lemma every_step_step {A} R `{!Reflexive R} (p p' : prog S E A) s s' :
  every_step R p -> step_prog p s = Some (s', p') -> R s s' /\ every_step R p'.
Proof.
  revert s s' p'. induction p as [A r|A m k IH|A body IHb round IHr k IHk]; cbn [every_step];
    intros s s' p'; [done|..].
  - intros [Hm Hk]. cbn. destruct (m s) as [s1|] eqn:Hms; [|done]. intros [= <- <-]. eauto.
  - intros (Hbody & Hround & Hk).
    destruct (result_of round) as [o|] eqn:Ho.
    + apply result_of_Some in Ho as ->. destruct o as [[b|]|e]; intros [= <- <-]; cbn; auto.
    + rewrite (step_round _ _ _ _ Ho). destruct (step_prog round s) as [[s1 q]|] eqn:Hq; [|done].
      intros [= <- <-]. destruct (IHr s s1 q Hround Hq); cbn; auto.
Qed.

Lemma every_step_then {A B} R (p : prog S E A) (k : result A E -> prog S E B) :
  every_step R p -> (forall r, every_step R (k r)) -> every_step R (then_result p k).
Proof.
  intros Hp Hk. induction p as [A r|A m k' IH|A body _ round _ k' IH]; cbn in *; [done|..].
  - destruct Hp; split; auto.
  - destruct Hp as (? & ? & ?); split_and!; auto.
Qed.

Lemma every_step_bind {A B} R (p : prog S E A) (f : A -> prog S E B) :
  every_step R p -> (forall a, every_step R (f a)) -> every_step R (p ≫= f).
Proof. intros Hp Hf. apply every_step_then; [done|]. by intros []. Qed.

Lemma every_step_try {A} R (p : prog S E A) : every_step R p -> every_step R (try p).
Proof. intros Hp. by apply every_step_then. Qed.

Lemma every_step_atom {A} R (m : ST S E A) : respects R m -> every_step R (atom m).
Proof. intros Hm. split; [|done]. intros s s' [= <-]. apply Hm. Qed.

Lemma every_step_atom_unless {A} R blocked (m : ST S E A) :
  respects R m -> every_step R (atom_unless blocked m).
Proof.
  intros Hm. split; [|done]. intros s s'. destruct (blocked s); [done|].
  intros [= <-]. apply Hm.
Qed.

Lemma every_step_loop R (body : prog S E (option unit)) :
  every_step R body -> every_step R (loop body).
Proof. done. Qed.

Lemma every_step_each {A} R (l : list A) (body : A -> prog S E unit) :
  (forall x, every_step R (body x)) -> every_step R (each l body).
Proof. intros Hb. induction l as [|x l IH]; cbn; [done|]. by apply every_step_bind. Qed.

End Prog.

#[global] Arguments then_result {S E A B} _ _ : simpl never.
#[global] Arguments prog_bind {S E} A B _ _ : simpl never.
#[global] Arguments atom {S E A} _ : simpl never.
#[global] Arguments atom_unless {S E A} _ _ : simpl never.
#[global] Arguments try {S E A} _ : simpl never.
#[global] Arguments loop {S E} _ : simpl never.

(** ** Programs that come to an end

    From states in [I], which [R] keeps, [p] ends alone and relates the first and
    the last state by [R]. *)

Definition total {S E A} (I : S -> Prop) (R : relation S) (p : prog S E A) : Prop :=
  forall s, I s -> ends p s (fun s' _ => R s s').

Section Total.
Context {S E : Type} (I : S -> Prop) (R : relation S) `{!PreOrder R}.
Context (Hkeep : forall s s', R s s' -> I s -> I s').
Implicit Types A B : Type.

Lemma total_done {A} (r : result A E) : total I R (Done r : prog S E A).
Proof. intros s Hs. by apply ends_done. Qed.

Lemma total_then {A B} (p : prog S E A) (k : result A E -> prog S E B) :
  total I R p -> (forall r, total I R (k r)) -> total I R (then_result p k).
Proof.
  intros Hp Hk s Hs. apply ends_then. eapply ends_weaken; [by apply Hp|]. cbv beta.
  intros s1 r H1. eapply ends_weaken; [by eapply Hk, Hkeep|]. cbv beta. intros s2 _ H2. by etrans.
Qed.

Lemma total_bind {A B} (p : prog S E A) (f : A -> prog S E B) :
  total I R p -> (forall a, total I R (f a)) -> total I R (p ≫= f).
Proof. intros Hp Hf. apply total_then; [done|]. intros [a|e]; [done|apply total_done]. Qed.

Lemma total_try {A} (p : prog S E A) : total I R p -> total I R (try p).
Proof. intros Hp. apply total_then; [done|]. intros r. apply total_done. Qed.

Lemma total_atom {A} (m : ST S E A) : respects R m -> total I R (atom m).
Proof. intros Hm s Hs. apply ends_atom, Hm. Qed.

Lemma total_atom_unless {A} blocked (m : ST S E A) :
  (forall s, I s -> blocked s = false) -> respects R m -> total I R (atom_unless blocked m).
Proof. intros Hb Hm s Hs. apply ends_atom_unless; [auto|]. apply Hm. Qed.

Lemma total_each {A} (l : list A) (body : A -> prog S E unit) :
  (forall x, total I R (body x)) -> total I R (each l body).
Proof.
  intros Hb. induction l as [|x l IH]; cbn; [apply total_done|]. by apply total_bind.
Qed.

(** A loop each of whose rounds ends, and makes [f] smaller when it goes on. *)
Lemma total_loop (f : S -> nat) (body : prog S E (option unit)) :
  (forall s, I s -> ends body s (fun s' r => R s s' /\ (r = Ok None -> (f s' < f s)%nat))) ->
  total I R (loop body).
Proof.
  intros Hb s Hs. remember (f s) as n eqn:Hn. revert s Hs Hn.
  induction (lt_wf n) as [n _ IH]. intros s Hs ->.
  apply ends_loop. eapply ends_weaken; [by apply Hb|]. cbv beta.
  intros s1 [[[]|]|e] [H1 Hlt]; [done| |done].
  eapply ends_weaken; [eapply IH; [by apply Hlt|by eapply Hkeep|done]|].
  cbv beta. intros s2 _ H2. by etrans.
Qed.

End Total.

(** ** If a program ends

    Whenever [p], run alone, ends, what it leaves satisfies [Q]. *)

Definition after {S E A} (p : prog S E A) (s : S) (Q : S -> result A E -> Prop) : Prop :=
  forall s' r, runs p s s' r -> Q s' r.

Section After.
Context {S E : Type}.
Implicit Types A B : Type.

Lemma after_done {A} (r : result A E) s (Q : S -> result A E -> Prop) : Q s r -> after (Done r) s Q.
Proof. intros HQ s' r' Hr. by destruct (runs_fun _ _ _ _ _ _ (runs_done r s) Hr) as [<- <-]. Qed.

Lemma after_ends {A} (p : prog S E A) s Q : ends p s Q -> after p s Q.
Proof.
  intros (s1 & r1 & H1 & HQ) s2 r2 H2. by destruct (runs_fun _ _ _ _ _ _ H1 H2) as [<- <-].
Qed.

Lemma ends_after {A} (p : prog S E A) s Q Q' : ends p s Q' -> after p s Q -> ends p s Q.
Proof. intros (s' & r & Hr & _) HQ. exists s', r. auto. Qed.

Lemma after_weaken {A} (p : prog S E A) s (Q Q' : S -> result A E -> Prop) :
  after p s Q -> (forall s' r, Q s' r -> Q' s' r) -> after p s Q'.
Proof. intros Hp HQ s' r Hr. auto. Qed.

Lemma after_and {A} (p : prog S E A) s (Q Q' : S -> result A E -> Prop) :
  after p s Q -> after p s Q' -> after p s (fun s' r => Q s' r /\ Q' s' r).
Proof. intros H1 H2 s' r Hr. auto. Qed.

Lemma runs_then_inv {A B} (p : prog S E A) (k : result A E -> prog S E B) s s' r :
  runs (then_result p k) s s' r ->
  exists s1 r1, runs p s s1 r1 /\ runs (k r1) s1 s' r.
Proof.
  intros Hr. remember (then_result p k) as q eqn:Hq. revert p Hq.
  induction Hr as [r0 s|q q' s s1 s' r Hs Hr IH]; intros p Hq; [|subst q].
  - destruct p as [r1|m k'|body round k']; [|done..]. exists s, r1. split; [constructor|].
    change (then_result (Done r1) k) with (k r1) in Hq. rewrite <- Hq. constructor.
  - destruct p as [r1|m k'|body round k'].
    + exists s, r1. split; [constructor|]. by eapply runs_step.
    + change (step_prog (Atom m (fun b => then_result (k' b) k)) s = Some (s1, q')) in Hs.
      cbn [step_prog] in Hs. destruct (m s) as [s2|] eqn:Hm; [|done]. injection Hs as <- <-.
      destruct (IH (k' s) eq_refl) as (s3 & r3 & H3 & Hk). exists s3, r3. split; [|done].
      eapply runs_step; [cbn; by rewrite Hm|done].
    + destruct (step_prog (Loop body round k') s) as [[s2 p']|] eqn:Hp.
      * pose proof (step_then_result _ _ k _ _ Hp) as Hp'. rewrite Hp' in Hs. injection Hs as <- <-.
        destruct (IH p' eq_refl) as (s3 & r3 & H3 & Hk). exists s3, r3. split; [|done].
        by eapply runs_step.
      * exfalso. change (step_prog (Loop body round (fun b => then_result (k' b) k)) s = Some (s1, q')) in Hs.
        destruct (result_of round) as [o|] eqn:Ho.
        { apply result_of_Some in Ho as ->. destruct o as [[|]|]; discriminate. }
        rewrite (step_round _ _ _ _ Ho) in Hp. rewrite (step_round _ _ _ _ Ho) in Hs. by destruct (step_prog round s) as [[]|].
Qed.

(** A list of rounds, in two parts. *)
Lemma ends_each_app {A} (l1 l2 : list A) (body : A -> prog S E unit) s Q :
  ends (each l1 body) s (fun s' r =>
    match r with Ok _ => ends (each l2 body) s' Q | Err e => Q s' (Err e) end) ->
  ends (each (l1 ++ l2) body) s Q.
Proof.
  revert s. induction l1 as [|x l1 IH]; intros s (s2 & r & Hr & HQ); cbn [app each].
  - destruct (runs_fun _ _ _ _ _ _ Hr (runs_done _ _)) as [-> ->]. done.
  - apply runs_then_inv in Hr as (s1 & r1 & H1 & H2). apply ends_bind. exists s1, r1.
    split; [done|]. destruct r1 as [[]|e].
    + apply IH. by exists s2, r.
    + by destruct (runs_fun _ _ _ _ _ _ H2 (runs_done _ _)) as [-> ->].
Qed.

Lemma after_then {A B} (p : prog S E A) (k : result A E -> prog S E B) s Q :
  after p s (fun s' r => after (k r) s' Q) -> after (then_result p k) s Q.
Proof. intros Hp s' r (s1 & r1 & H1 & H2)%runs_then_inv. by eapply Hp. Qed.

Lemma after_bind {A B} (p : prog S E A) (f : A -> prog S E B) s Q :
  after p s (fun s' r => match r with Ok a => after (f a) s' Q | Err e => Q s' (Err e) end) ->
  after (p ≫= f) s Q.
Proof.
  intros Hp. apply after_then. eapply after_weaken; [done|]. intros s' [a|e] HQ; [done|].
  by apply after_done.
Qed.

Lemma after_try {A} (p : prog S E A) s (Q : S -> result (result A E) E -> Prop) :
  after p s (fun s' r => Q s' (Ok r)) -> after (try p) s Q.
Proof.
  intros Hp. apply after_then. eapply after_weaken; [done|]. intros s' r HQ. by apply after_done.
Qed.

(** A round whose failure is caught does not end a loop over a list. *)
Lemma after_each_try {A B} (l : list A) (body : A -> prog S E B) s :
  after (each l (fun x => _ ← try (body x); done_ok)) s (fun _ r => r = Ok tt).
Proof.
  revert s. induction l as [|x l IH]; intros s; cbn [each]; [by apply after_done|].
  apply after_bind, after_bind, after_try. intros s' r _. apply after_done. apply IH.
Qed.

Lemma after_atom {A} (m : ST S E A) s (Q : S -> result A E -> Prop) :
  Q (m s).1 (m s).2 -> after (atom m) s Q.
Proof. intros HQ. by apply after_ends, ends_atom. Qed.

Lemma after_atom_unless {A} blocked (m : ST S E A) s (Q : S -> result A E -> Prop) :
  (blocked s = false -> Q (m s).1 (m s).2) -> after (atom_unless blocked m) s Q.
Proof.
  intros HQ. destruct (blocked s) eqn:Hb; [|by apply after_ends, ends_atom_unless; auto].
  intros s' r Hr. apply runs_exec in Hr as [n Hn]. unfold atom_unless in Hn.
  destruct n; cbn in Hn; [done|]. by rewrite Hb in Hn.
Qed.

Lemma runs_round_inv {A} (body round : prog S E (option unit)) (k : result unit E -> prog S E A) s s' r n :
  exec n (Loop body round k) s = Some (s', r) ->
  exists s1 o m, runs round s s1 o /\ (m <= n)%nat /\ exec m (Loop body (Done o) k) s1 = Some (s', r).
Proof.
  revert round s. induction n as [|n IH]; intros round s Hx; [done|].
  destruct (result_of round) as [o|] eqn:Ho.
  - apply result_of_Some in Ho as ->. exists s, o, (Datatypes.S n). split; [constructor|done].
  - cbn [exec result_of] in Hx. rewrite (step_round _ _ _ _ Ho) in Hx.
    destruct (step_prog round s) as [[s1 round']|] eqn:Hs; [|done].
    destruct (IH _ _ Hx) as (s2 & o & m & H2 & Hle & Hm). exists s2, o, m.
    split; [by eapply runs_step|]. split; [lia|done].
Qed.

(** Every round keeps [I]. *)
Lemma after_loop (I : S -> Prop) (body : prog S E (option unit)) s (Q : S -> result unit E -> Prop) :
  I s ->
  (forall s, I s -> after body s (fun s' r =>
    match r with Ok (Some b) => Q s' (Ok b) | Ok None => I s' | Err e => Q s' (Err e) end)) ->
  after (loop body) s Q.
Proof.
  intros HI Hb s' r Hr. apply runs_exec in Hr as [n Hn]. revert s HI Hn.
  induction (lt_wf n) as [n _ IH]. intros s HI Hn.
  apply runs_round_inv in Hn as (s1 & o & m & H1 & Hle & Hm).
  pose proof (Hb s HI s1 o H1) as Ho. destruct m as [|m]; [done|]. cbn [exec result_of step_prog] in Hm.
  destruct o as [[b|]|e].
  - destruct m; cbn in Hm; injection Hm as <- <-; done.
  - apply (IH m) with s1; [lia|done|done].
  - destruct m; cbn in Hm; injection Hm as <- <-; done.
Qed.

(** What every step does, the whole does. *)
Lemma every_step_after {A} (R : relation S) `{!PreOrder R} (p : prog S E A) s :
  every_step R p -> after p s (fun s' _ => R s s').
Proof.
  intros Hp s' r Hr. revert Hp. induction Hr as [r s|p p' s s1 s' r Hs _ IH]; intros Hp; [done|].
  destruct (every_step_step R _ _ _ _ Hp Hs) as [H1 Hp']. etrans; [done|]. by apply IH.
Qed.

End After.

(** ** Invariants of whole programs

    Run alone from states in [I], [p] ends in states in [I] related by [R]. *)

Definition keeps {S E A} (I : S -> Prop) (R : relation S) (p : prog S E A) : Prop :=
  forall s, I s -> after p s (fun s' _ => I s' /\ R s s').

Section Keeps.
Context {S E : Type} (I : S -> Prop) (R : relation S) `{!PreOrder R}.
Implicit Types A B : Type.

Lemma keeps_done {A} (r : result A E) : keeps I R (Done r : prog S E A).
Proof. intros s Hs. by apply after_done. Qed.

Lemma keeps_then {A B} (p : prog S E A) (k : result A E -> prog S E B) :
  keeps I R p -> (forall r, keeps I R (k r)) -> keeps I R (then_result p k).
Proof.
  intros Hp Hk s Hs. apply after_then. eapply after_weaken; [by apply Hp|]. cbv beta.
  intros s1 r [H1 HR]. eapply after_weaken; [by apply Hk|]. cbv beta. intros s2 _ [H2 HR'].
  split; [done|]. by etrans.
Qed.

Lemma keeps_bind {A B} (p : prog S E A) (f : A -> prog S E B) :
  keeps I R p -> (forall a, keeps I R (f a)) -> keeps I R (p ≫= f).
Proof. intros Hp Hf. apply keeps_then; [done|]. intros [a|e]; [done|apply keeps_done]. Qed.

Lemma keeps_try {A} (p : prog S E A) : keeps I R p -> keeps I R (try p).
Proof. intros Hp. apply keeps_then; [done|]. intros r. apply keeps_done. Qed.

Lemma keeps_every_step {A} (R' : relation S) `{!PreOrder R'} (p : prog S E A) :
  (forall s s', I s -> R' s s' -> I s' /\ R s s') -> every_step R' p -> keeps I R p.
Proof.
  intros HI Hp s Hs. eapply after_weaken; [by apply every_step_after|]. cbv beta. auto.
Qed.

Lemma keeps_loop (body : prog S E (option unit)) : keeps I R body -> keeps I R (loop body).
Proof.
  intros Hb s Hs. apply (after_loop (fun s' => I s' /\ R s s')); [done|].
  intros s1 [H1 HR]. eapply after_weaken; [by apply Hb|]. cbv beta.
  intros s2 [[b|]|e] [H2 HR']; (split; [done|]); by etrans.
Qed.

Lemma keeps_each {A} (l : list A) (body : A -> prog S E unit) :
  (forall x, keeps I R (body x)) -> keeps I R (each l body).
Proof.
  intros Hb. induction l as [|x l IH]; cbn; [apply keeps_done|]. by apply keeps_bind.
Qed.

End Keeps.

(** Take a program apart; the atoms are left to [solve_respects]. *)
Ltac every_step_step :=
  lazymatch goal with
  | |- every_step _ (Done _) => exact I
  | |- every_step _ (mret _) => exact I
  | |- every_step _ (mbind _ _) => apply every_step_bind; [|intros ?]
  | |- every_step _ (then_result _ _) => apply every_step_then; [|intros ?]
  | |- every_step _ (try _) => apply every_step_try
  | |- every_step _ (loop _) => apply every_step_loop
  | |- every_step _ (each _ _) => apply every_step_each; intros ?
  | |- every_step _ (match ?x with _ => _ end) => destruct x
  | |- every_step _ (atom _) => apply every_step_atom
  | |- every_step _ (atom_unless _ _) => apply every_step_atom_unless
  | |- every_step _ ?p =>
    first [exact I | solve [eauto with respects] | let h := get_head p in progress unfold h]
  end.

(** Run a program symbolically. *)
Ltac ends_step :=
  lazymatch goal with
  | |- ends (mbind _ _) _ _ => apply ends_bind
  | |- ends (try _) _ _ => apply ends_try
  | |- ends (then_result _ _) _ _ => apply ends_then
  | |- ends (atom _) _ _ => apply ends_atom
  | |- ends (atom_unless _ _) _ _ => apply ends_atom_unless; [done|]
  | |- ends (Done _) _ _ => apply ends_done
  | |- ends (mret _) _ _ => apply ends_done
  | |- ends done_ok _ _ => apply ends_done
  | |- ends (throw _) _ _ => apply ends_done
  | |- ends (of_res _) _ _ => apply ends_done
  | |- ends (let '(_, _) := ?x in _) _ _ => destruct x
  | |- ends ?p _ _ => let h := get_head p in progress unfold h
  end; cbv beta iota.

(** Take apart a program that should come to an end; loops and programs with
    lemmas of their own are left. *)
Ltac total_step :=
  lazymatch goal with
  | |- total _ _ (Done _) => apply total_done; typeclasses eauto
  | |- total _ _ (mret _) => apply total_done; typeclasses eauto
  | |- total _ _ (mbind _ _) => apply total_bind; [typeclasses eauto|assumption| |intros ?]
  | |- total _ _ (then_result _ _) => apply total_then; [typeclasses eauto|assumption| |intros ?]
  | |- total _ _ (try _) => apply total_try; [typeclasses eauto|assumption|]
  | |- total _ _ (each _ _) => apply total_each; [typeclasses eauto|assumption|intros ?]
  | |- total _ _ (match ?x with _ => _ end) => destruct x
  | |- total _ _ (atom _) => apply total_atom
  | |- total _ _ (atom_unless _ _) => apply total_atom_unless
  | |- total _ _ ?p =>
    first [solve [eauto with respects] | let h := get_head p in progress unfold h]
  end.

(** Take apart a program that should keep an invariant; [leaf] is for the parts
    that have no structure of their own. *)
Ltac keeps_step leaf :=
  lazymatch goal with
  | |- keeps _ _ (Done _) => apply keeps_done; typeclasses eauto
  | |- keeps _ _ (mret _) => apply keeps_done; typeclasses eauto
  | |- keeps _ _ done_ok => apply keeps_done; typeclasses eauto
  | |- keeps _ _ (mbind _ _) => apply keeps_bind; [typeclasses eauto| |intros ?]
  | |- keeps _ _ (then_result _ _) => apply keeps_then; [typeclasses eauto| |intros ?]
  | |- keeps _ _ (try _) => apply keeps_try; [typeclasses eauto|]
  | |- keeps _ _ (each _ _) => apply keeps_each; [typeclasses eauto|intros ?]
  | |- keeps _ _ (loop _) => apply keeps_loop; [typeclasses eauto|]
  | |- keeps _ _ (match ?x with _ => _ end) => destruct x
  | |- keeps _ _ (atom _) => leaf
  | |- keeps _ _ (atom_unless _ _) => leaf
  | |- keeps _ _ ?p =>
    first [solve [eauto with respects] | let h := get_head p in progress unfold h]
  end.
