(* ===== verification/MrpWindow.v ===== *)
(** * The sliding window of the Modest Reliable Protocol (mrp/src/window.rs)

    [BufferWindow] buffers elements indexed by sequence numbers between two
    bounds.  The file models every operation of the source, states the
    well-formedness invariant [wf], and relates the ring buffer to the finite
    map from sequence numbers to elements that it stands for ([contents]). *)

From S2P Require Import Prelude.
Local Open Scope Z_scope.
Local Open Scope ringrtc_scope.

Module BufferWindow.

Inductive WindowError : Type :=
| BeforeWindow
| AfterWindow.

#[export] Instance WindowError_eq_dec : EqDecision WindowError.
Proof. solve_decision. Defined.

Section Window.
Context {T : Type}.

(** [pub struct BufferWindow<T>]; [VecDeque<Option<T>>] is a list whose head is
    the front of the deque. *)
Record BufferWindow : Type := mkBufferWindow {
  win_left : Z;
  win_data : list (option T);
  win_capacity_limit : Z;
}.

Definition DEFAULT_SIZE : Z := 16.

(** The initial capacity only reserves memory: the deque starts empty. *)
Definition with_capacity_limit (capacity_limit left_bounds : Z) : outcome BufferWindow :=
  _ ← assert (negb (left_bounds =? 0));
  _ ← assert (negb (capacity_limit =? 0));
  Val (mkBufferWindow left_bounds [] capacity_limit).

Definition new (left_bounds : Z) : outcome BufferWindow :=
  _ ← assert (negb (left_bounds =? 0));
  with_capacity_limit USIZE_MAX left_bounds.

Definition capacity_limit (w : BufferWindow) : Z := win_capacity_limit w.

Definition len (w : BufferWindow) : Z := zlen (win_data w).

Definition is_full (w : BufferWindow) : bool := zlen (win_data w) =? capacity_limit w.

Definition max_seen_seqnum (w : BufferWindow) : Z :=
  (win_left w +64 zlen (win_data w)) -64 1.

Definition left_bounds (w : BufferWindow) : Z := win_left w.

Definition right_bounds (w : BufferWindow) : Z :=
  u64_saturating_add (win_left w) (capacity_limit w -64 1).

Definition get_pos (w : BufferWindow) (seqnum : Z) : result Z WindowError :=
  if seqnum <? left_bounds w then Err BeforeWindow
  else if right_bounds w <? seqnum then Err AfterWindow
  else Ok (seqnum -64 win_left w).

Definition get (w : BufferWindow) (seqnum : Z) : option T :=
  match get_pos w seqnum with
  | Ok pos => e ← win_data w !! Z.to_nat pos; e
  | Err _ => None
  end.

(** [get_mut]: the reference it returns is used to overwrite the element, so
    the model takes the overwriting function. *)
Definition get_mut (w : BufferWindow) (seqnum : Z) (f : T -> T) : BufferWindow :=
  match get_pos w seqnum with
  | Ok pos =>
      mkBufferWindow (win_left w) (alter (fmap f) (Z.to_nat pos) (win_data w))
        (win_capacity_limit w)
  | Err _ => w
  end.

(** [while self.data.len() <= pos { self.data.push_back(None) }] *)
Fixpoint push_none_until (fuel : nat) (d : list (option T)) (pos : Z) : list (option T) :=
  match fuel with
  | O => d
  | S fuel => if zlen d <=? pos then push_none_until fuel (d ++ [None]) pos else d
  end.

Definition put (w : BufferWindow) (seqnum : Z) (element : T)
  : BufferWindow * result unit WindowError :=
  match get_pos w seqnum with
  | Err e => (w, Err e)
  | Ok pos =>
      let d := push_none_until (Z.to_nat (pos + 1)) (win_data w) pos in
      let d' := match d !! Z.to_nat pos with
                | Some _ => <[Z.to_nat pos := Some element]> d
                | None => d
                end in
      (mkBufferWindow (win_left w) d' (win_capacity_limit w), Ok tt)
  end.

(** [iter().position(|e| e.is_none())] *)
Fixpoint position_is_none (d : list (option T)) : option nat :=
  match d with
  | [] => None
  | None :: _ => Some 0%nat
  | Some _ :: d => S <$> position_is_none d
  end.

Definition drain_front (w : BufferWindow) : outcome (BufferWindow * option (Z * list T)) :=
  match head (win_data w) with
  | None | Some None => Val (w, None)
  | Some (Some _) =>
      let index := default (length (win_data w)) (position_is_none (win_data w)) in
      elements ← mapM unwrap (take index (win_data w));
      let left' := win_left w +64 Z.of_nat index in
      Val (mkBufferWindow left' (drop index (win_data w)) (win_capacity_limit w),
            Some (left', elements))
  end.

Definition drop_front (w : BufferWindow) (num_to_drop : Z) : BufferWindow * Z :=
  let num_to_drain := Z.min (zlen (win_data w)) num_to_drop in
  let left' := win_left w +64 num_to_drop in
  (mkBufferWindow left' (drop (Z.to_nat num_to_drain) (win_data w)) (win_capacity_limit w),
   left').

Definition clear (w : BufferWindow) (left_bounds : Z) : outcome BufferWindow :=
  _ ← assert (negb (left_bounds =? 0));
  Val (mkBufferWindow left_bounds [] (win_capacity_limit w)).

(** ** Well-formedness and the finite map a window stands for *)

(** The elements fit in the capacity, and the sequence number after the last
    buffered element is still a [u64]. *)
Definition wf (w : BufferWindow) : Prop :=
  1 <= win_left w /\
  1 <= win_capacity_limit w <= USIZE_MAX /\
  zlen (win_data w) <= win_capacity_limit w /\
  win_left w + zlen (win_data w) < 2 ^ 64.

(** The element stored under a sequence number. *)
Definition contents (w : BufferWindow) : gmap Z T :=
  omap (M := gmap Z) id (map_seqZ (win_left w) (win_data w)).

End Window.
Arguments BufferWindow : clear implicits.
Arguments mkBufferWindow {T} _ _ _.

Section Lemmas.
Context {T : Type}.
Implicit Types (w : BufferWindow T) (d : list (option T)).

Lemma window_eta w : mkBufferWindow (win_left w) (win_data w) (win_capacity_limit w) = w.
Proof. by destruct w. Qed.

Lemma lookup_contents w n :
  contents w !! n = (if win_left w <=? n then win_data w !! Z.to_nat (n - win_left w) else None) ≫= id.
Proof.
  unfold contents. rewrite lookup_omap.
  destruct (Z.leb_spec (win_left w) n) as [Hn|Hn].
  - pose proof (lookup_map_seqZ (M := gmap Z) (win_left w) (win_data w) n) as E.
    rewrite E. rewrite option_guard_True by done. done.
  - pose proof (lookup_map_seqZ (M := gmap Z) (win_left w) (win_data w) n) as E.
    rewrite E. rewrite option_guard_False by lia. done.
Qed.

Lemma contents_bounds w n x :
  contents w !! n = Some x -> win_left w <= n < win_left w + zlen (win_data w).
Proof.
  rewrite lookup_contents. destruct (Z.leb_spec (win_left w) n); [|done].
  destruct (win_data w !! Z.to_nat (n - win_left w)) eqn:E; [|done].
  apply lookup_lt_Some in E. unfold zlen. lia.
Qed.

Lemma right_bounds_wf w :
  wf w -> right_bounds w = Z.min U64_MAX (win_left w + win_capacity_limit w - 1).
Proof.
  intros (? & ? & ? & ?). unfold right_bounds, u64_saturating_add, capacity_limit.
  rewrite u64_sub_small; unfold USIZE_MAX, U64_MAX in *; lia.
Qed.

Lemma max_seen_seqnum_wf w :
  wf w -> max_seen_seqnum w = win_left w + zlen (win_data w) - 1.
Proof.
  intros (? & ? & ? & ?). unfold max_seen_seqnum.
  pose proof (zlen_nonneg (win_data w)). apply u64_add_sub_small. lia.
Qed.

(** The three answers of the bounds check. *)
Lemma get_pos_spec w n :
  wf w -> 0 <= n <= U64_MAX ->
  get_pos w n =
    if n <? win_left w then Err BeforeWindow
    else if win_left w + win_capacity_limit w - 1 <? n then Err AfterWindow
    else Ok (n - win_left w).
Proof.
  intros Hwf Hn. unfold get_pos, left_bounds. rewrite right_bounds_wf by done.
  destruct Hwf as (? & ? & ? & ?).
  destruct (Z.ltb_spec n (win_left w)); [done|].
  destruct (Z.ltb_spec (Z.min U64_MAX (win_left w + win_capacity_limit w - 1)) n);
    destruct (Z.ltb_spec (win_left w + win_capacity_limit w - 1) n); try lia; [done|].
  f_equal. apply u64_sub_small. unfold U64_MAX in *. lia.
Qed.

(** The growing loop pads with [None] and stops, given fuel for every push. *)
Lemma push_none_until_spec fuel d pos :
  pos + 1 - zlen d <= Z.of_nat fuel ->
  push_none_until fuel d pos = d ++ replicate (Z.to_nat (pos + 1 - zlen d)) None.
Proof.
  revert d. induction fuel as [|fuel IH]; intros d Hfuel; simpl.
  - replace (Z.to_nat (pos + 1 - zlen d)) with 0%nat by lia. by rewrite app_nil_r.
  - destruct (Z.leb_spec (zlen d) pos).
    + rewrite IH by (len_simpl; lia). len_simpl. rewrite <- app_assoc. f_equal.
      replace (Z.to_nat (pos + 1 - zlen d)) with (S (Z.to_nat (pos + 1 - (zlen d + (0 + 1))))) by lia.
      done.
    + replace (Z.to_nat (pos + 1 - zlen d)) with 0%nat by lia. by rewrite app_nil_r.
Qed.

(** What [put] does to a slot inside the window, as one list equation. *)
Lemma put_in_window w n x :
  wf w -> win_left w <= n < win_left w + win_capacity_limit w -> n <= U64_MAX ->
  put w n x =
    (mkBufferWindow (win_left w)
       (<[Z.to_nat (n - win_left w) := Some x]>
          (win_data w ++
             replicate (Z.to_nat (n - win_left w + 1 - zlen (win_data w))) None))
       (win_capacity_limit w), Ok tt).
Proof.
  intros Hwf Hn Hmax. unfold put. rewrite get_pos_spec by (done || destruct Hwf; lia).
  zcases; try lia.
  rewrite push_none_until_spec by (unfold zlen; lia).
  set (d := win_data w ++ _).
  destruct (d !! Z.to_nat (n - win_left w)) eqn:E; [done|].
  exfalso. apply lookup_ge_None in E. subst d.
  rewrite length_app, length_replicate in E. unfold zlen in E. lia.
Qed.

Lemma position_is_none_spec d :
  let index := default (length d) (position_is_none d) in
  exists els : list T,
    take index d = Some <$> els /\ length els = index /\
    (drop index d = [] \/ exists d', drop index d = None :: d').
Proof.
  induction d as [|[x|] d IH]; simpl.
  - exists []. auto.
  - destruct IH as (els & Ht & Hl & Hd).
    exists (x :: els). destruct (position_is_none d); simpl in *; rewrite Ht, Hl; auto.
  - exists []. simpl. eauto.
Qed.

Lemma mapM_unwrap_Some (els : list T) : mapM unwrap (Some <$> els) = Val els.
Proof.
  induction els as [|x els IH]; [done|].
  change (mapM unwrap (Some <$> (x :: els))) with
    (y ← unwrap (Some x); k ← mapM unwrap (Some <$> els); mret (M := outcome) (y :: k)).
  by rewrite IH.
Qed.

(** [drain_front], solved: it never panics, and it splits the deque at the
    first empty slot. *)
Lemma drain_front_eq w :
  wf w ->
  exists els rest,
    win_data w = (Some <$> els) ++ rest /\
    (rest = [] \/ exists rest', rest = None :: rest') /\
    drain_front w =
      Val (mkBufferWindow (win_left w + zlen els) rest (win_capacity_limit w),
           if decide (els = []) then None else Some (win_left w + zlen els, els)).
Proof.
  intros (? & ? & ? & Hmax). unfold drain_front.
  destruct (position_is_none_spec (win_data w)) as (els & Ht & Hl & Hd).
  set (index := default (length (win_data w)) (position_is_none (win_data w))) in *.
  exists els, (drop index (win_data w)).
  assert (Hsplit : win_data w = (Some <$> els) ++ drop index (win_data w)).
  { rewrite <- Ht. by rewrite take_drop. }
  split; [done|]. split; [done|].
  assert (Hlen : Z.of_nat index = zlen els) by (unfold zlen; lia).
  assert (Hadd : u64_add (win_left w) (Z.of_nat index) = win_left w + zlen els).
  { rewrite Hlen. apply u64_add_small.
    assert (zlen els <= zlen (win_data w)).
    { rewrite Hsplit, zlen_app. unfold zlen. rewrite length_fmap. lia. }
    pose proof (zlen_nonneg els). lia. }
  destruct els as [|x els].
  - rewrite decide_True by done. simpl in Hl.
    assert (E : drop index (win_data w) = win_data w) by (by rewrite <- Hl).
    rewrite E in Hd. rewrite E, zlen_nil, Z.add_0_r, window_eta.
    destruct Hd as [->|[d' ->]]; done.
  - rewrite decide_False by done.
    assert (Hhead : head (win_data w) = Some (Some x)) by (rewrite Hsplit; done).
    rewrite Hhead, Ht, mapM_unwrap_Some.
    change (Val (mkBufferWindow (u64_add (win_left w) (Z.of_nat index))
      (drop index (win_data w)) (win_capacity_limit w),
      Some (u64_add (win_left w) (Z.of_nat index), x :: els)) = 
      Val (mkBufferWindow (win_left w + zlen (x :: els)) (drop index (win_data w)) (win_capacity_limit w),
        Some (win_left w + zlen (x :: els), x :: els))).
    by rewrite Hadd.
Qed.

(** Lemmas on the shape of a well-formed window that the stream relies on. *)
Lemma put_wf w n x :
  wf w -> win_left w <= n < win_left w + win_capacity_limit w -> n < U64_MAX ->
  wf (fst (put w n x)).
Proof.
  intros Hwf Hn Hmax. rewrite put_in_window by (done || lia).
  destruct Hwf as (? & ? & ? & ?). unfold wf; simpl. len_simpl.
  unfold U64_MAX in *. unfold zlen in *. rewrite length_replicate. lia.
Qed.

Lemma contents_put w n x :
  wf w -> win_left w <= n < win_left w + win_capacity_limit w -> n <= U64_MAX ->
  contents (fst (put w n x)) = <[n:=x]> (contents w).
Proof.
  intros Hwf Hn Hmax. apply map_eq. intros k. rewrite put_in_window by done.
  rewrite lookup_contents. simpl.
  destruct (decide (n = k)) as [->|Hne].
  - rewrite lookup_insert_eq. destruct (Z.leb_spec (win_left w) k); [|lia].
    rewrite list_lookup_insert_eq; [done|].
    rewrite length_app, length_replicate. unfold zlen. lia.
  - rewrite lookup_insert_ne by done. rewrite lookup_contents.
    destruct (Z.leb_spec (win_left w) k); [|done].
    rewrite list_lookup_insert_ne by lia.
    destruct (decide (Z.to_nat (k - win_left w) < length (win_data w))%nat).
    + by rewrite lookup_app_l by done.
    + rewrite lookup_app_r by lia. rewrite (lookup_ge_None_2 (win_data w)) by lia.
      destruct (replicate _ None !! _) eqn:E; [|done].
      by apply lookup_replicate in E as [-> _].
Qed.

Lemma bind_None_guard {A B} (o : option A) (P : A -> Prop) `{forall a, Decision (P a)} (f : A -> option B) :
  (forall a, ~ P a) -> (o ≫= fun a => guard (P a);; f a) = None.
Proof. intros HP. destruct o; simpl; [|done]. by rewrite option_guard_False. Qed.

Lemma contents_nil (l c : Z) : contents (mkBufferWindow l (@nil (option T)) c) = ∅.
Proof.
  apply map_eq. intros n. rewrite lookup_contents, lookup_empty. simpl. by zcases.
Qed.

(** Dropping [k] leading slots keeps exactly the entries from the new left bound on. *)
Lemma contents_slide w k rest :
  drop k (win_data w) = rest -> (k <= length (win_data w))%nat ->
  contents (mkBufferWindow (win_left w + Z.of_nat k) rest (win_capacity_limit w)) =
    filter (fun kv => win_left w + Z.of_nat k <= kv.1) (contents w).
Proof.
  intros <- Hk. apply map_eq. intros n.
  rewrite map_lookup_filter, !lookup_contents. simpl.
  destruct (Z.leb_spec (win_left w + Z.of_nat k) n).
  - destruct (Z.leb_spec (win_left w) n); [|lia].
    rewrite lookup_drop. replace (k + Z.to_nat (n - (win_left w + Z.of_nat k)))%nat
      with (Z.to_nat (n - win_left w)) by lia.
    destruct (win_data w !! Z.to_nat (n - win_left w)) as [[x|]|]; simpl; try done.
    rewrite option_guard_True by (simpl; lia). done.
  - simpl. symmetry. apply bind_None_guard. simpl. lia.
Qed.

(** Everything past the deque is absent. *)
Lemma contents_past w n : win_left w + zlen (win_data w) <= n -> contents w !! n = None.
Proof.
  intros Hn. destruct (contents w !! n) eqn:E; [|done].
  apply contents_bounds in E. lia.
Qed.

(** Writing right after the last element appends one slot. *)
Lemma put_at_end w x :
  wf w -> zlen (win_data w) < win_capacity_limit w ->
  win_left w + zlen (win_data w) < U64_MAX ->
  put w (win_left w + zlen (win_data w)) x =
    (mkBufferWindow (win_left w) (win_data w ++ [Some x]) (win_capacity_limit w), Ok tt).
Proof.
  intros Hwf Hcap Hmax. pose proof (zlen_nonneg (win_data w)).
  rewrite put_in_window by (done || lia).
  replace (Z.to_nat (win_left w + zlen (win_data w) - win_left w)) with (length (win_data w))
    by (unfold zlen; lia).
  replace (Z.to_nat _) with 1%nat by lia. simpl.
  rewrite insert_app_r_alt by lia. by rewrite Nat.sub_diag.
Qed.

(** Reading a slot of the deque through its sequence number. *)
Lemma get_lookup w i :
  wf w -> (i < length (win_data w))%nat ->
  get w (win_left w + Z.of_nat i) = win_data w !! i ≫= id.
Proof.
  intros Hwf Hi. unfold get.
  destruct Hwf as (? & ? & ? & ?) eqn:E. clear E.
  rewrite get_pos_spec by (done || unfold zlen, U64_MAX in *; lia).
  zcases; try (unfold zlen in *; lia).
  replace (Z.to_nat (win_left w + Z.of_nat i - win_left w)) with i by lia.
  by destruct (win_data w !! i) as [[]|].
Qed.

Lemma get_Some_elem w n x : get w n = Some x -> Some x ∈ win_data w.
Proof.
  unfold get. destruct (get_pos w n) as [pos|]; [|done].
  destruct (win_data w !! Z.to_nat pos) as [y|] eqn:E; simpl; [|done].
  intros ->. by apply list_elem_of_lookup_2 in E.
Qed.

(** [put] refines insertion into a finite map: outside the bounds it reports
    which side was missed and changes nothing; inside, it succeeds, the abstract
    map gains exactly the binding [seqnum -> element], the bounds do not move
    and the window stays well formed. *)
Theorem put_refines_insert w n x :
  wf w -> 0 <= n < U64_MAX ->
  (n < left_bounds w -> put w n x = (w, Err BeforeWindow)) /\
  (left_bounds w + capacity_limit w - 1 < n -> put w n x = (w, Err AfterWindow)) /\
  (left_bounds w <= n <= left_bounds w + capacity_limit w - 1 ->
   exists w', put w n x = (w', Ok tt) /\ wf w' /\
     contents w' = <[n:=x]> (contents w) /\
     left_bounds w' = left_bounds w /\ capacity_limit w' = capacity_limit w).
Proof.
  intros Hwf Hn. unfold left_bounds, capacity_limit. split; [|split]; intros Hc.
  - unfold put. rewrite get_pos_spec by (done || lia). by zcases; try lia.
  - unfold put. rewrite get_pos_spec by (done || lia).
    destruct Hwf as (? & ? & ? & ?). by zcases; try lia.
  - exists (fst (put w n x)). split.
    { rewrite put_in_window by (done || lia). done. }
    split; [by apply put_wf; try lia|]. split; [by apply contents_put; try lia|].
    rewrite put_in_window by (done || lia). done.
Qed.

(** [drain_front] against the abstract map: the run it returns, what it keeps
    and where the bounds end up. *)
Lemma drain_front_spec w :
  wf w ->
  exists w' els,
    drain_front w = Val (w', if decide (els = []) then None else Some (win_left w', els)) /\
    wf w' /\ win_left w' = win_left w + zlen els /\
    win_capacity_limit w' = win_capacity_limit w /\
    (forall i x, els !! i = Some x <->
       (win_left w + Z.of_nat i < win_left w' /\ contents w !! (win_left w + Z.of_nat i) = Some x)) /\
    contents w' = filter (fun kv => win_left w' <= kv.1) (contents w) /\
    contents w' !! win_left w' = None /\
    win_left w' + zlen (win_data w') = win_left w + zlen (win_data w) /\
    (els = [] -> w' = w).
Proof.
  intros Hwf. destruct (drain_front_eq w Hwf) as (els & rest & Hsplit & Hrest & Hdrain).
  eexists _, els. split; [exact Hdrain|]. clear Hdrain.
  assert (Hlen : length (win_data w) = (length els + length rest)%nat).
  { by rewrite Hsplit, length_app, length_fmap. }
  assert (Hdrop : drop (length els) (win_data w) = rest).
  { rewrite Hsplit. apply drop_app_length'. by rewrite length_fmap. }
  split_and!; simpl; try done.
  - destruct Hwf as (? & ? & Hcap & ?). unfold wf, zlen in *; simpl. lia.
  - intros i x. rewrite lookup_contents.
    destruct (Z.leb_spec (win_left w) (win_left w + Z.of_nat i)); [|lia].
    replace (Z.to_nat _) with i by lia. rewrite Hsplit. unfold zlen. split.
    + intros Hi. pose proof (lookup_lt_Some _ _ _ Hi).
      rewrite lookup_app_l by (rewrite length_fmap; lia).
      rewrite list_lookup_fmap, Hi. simpl. split; [lia|done].
    + intros [Hi Hc]. rewrite lookup_app_l in Hc by (rewrite length_fmap; lia).
      rewrite list_lookup_fmap in Hc. by destruct (els !! i).
  - unfold zlen. apply contents_slide; [done|lia].
  - rewrite lookup_contents. simpl. rewrite Z.leb_refl, Z.sub_diag.
    destruct Hrest as [->|[? ->]]; done.
  - unfold zlen in *. lia.
  - intros ->. simpl in *. rewrite zlen_nil, Z.add_0_r, <- Hsplit. apply window_eta.
Qed.

(** [drain_front] never panics; it returns the longest run of buffered
    elements that starts at the left bound, in order of sequence number, moves the
    left bound past that run and keeps every other element; the slot at the new
    left bound is empty, so nothing deliverable stays behind. *)
Theorem drain_front_takes_longest_run w :
  wf w ->
  exists w' r, drain_front w = Val (w', r) /\ wf w' /\
    (forall i x, default [] (snd <$> r) !! i = Some x <->
       (left_bounds w + Z.of_nat i < left_bounds w' /\
        contents w !! (left_bounds w + Z.of_nat i) = Some x)) /\
    (r = None -> w' = w) /\
    (forall l els, r = Some (l, els) -> l = left_bounds w' /\ left_bounds w' = left_bounds w + zlen els) /\
    contents w' = filter (fun kv => left_bounds w' <= kv.1) (contents w) /\
    contents w' !! left_bounds w' = None /\ capacity_limit w' = capacity_limit w.
Proof.
  intros Hwf.
  destruct (drain_front_spec w Hwf) as (w' & els & Hd & Hwf' & Hl & Hc & Hels & Hm & Hhd & _ & Hnil).
  eexists _, _. split; [exact Hd|]. unfold left_bounds.
  split_and!; try done.
  - intros i x. case_decide; [subst els|]; apply Hels.
  - case_decide; [by intros; apply Hnil|done].
  - intros l els'. case_decide; naive_solver.
Qed.

(** [drop_front] moves the left bound by exactly the requested amount and
    forgets exactly the elements below it, even past the buffered elements. *)
Theorem drop_front_forgets_prefix w k :
  wf w -> 0 <= k -> win_left w + Z.max k (zlen (win_data w)) < 2 ^ 64 ->
  exists w', drop_front w k = (w', win_left w + k) /\ wf w' /\
    left_bounds w' = left_bounds w + k /\ capacity_limit w' = capacity_limit w /\
    len w' = Z.max 0 (len w - k) /\
    contents w' = filter (fun kv => left_bounds w + k <= kv.1) (contents w).
Proof.
  intros Hwf Hk Hmax. pose proof (zlen_nonneg (win_data w)).
  destruct Hwf as (? & ? & ? & ?).
  unfold drop_front, left_bounds, len. rewrite u64_add_small by lia.
  eexists. split; [done|]. split_and!; try done.
  - unfold wf; simpl. len_simpl. lia.
  - simpl. len_simpl. lia.
  - destruct (Z.le_gt_cases k (zlen (win_data w))) as [Hle|Hgt].
    + pose proof (contents_slide w (Z.to_nat k) _ eq_refl) as E.
      rewrite Z2Nat.id in E by lia. rewrite <- E by (unfold zlen in *; lia).
      by rewrite Z.min_r by lia.
    + rewrite Z.min_l by lia. rewrite drop_ge by (unfold zlen; lia).
      rewrite contents_nil. symmetry. apply map_empty. intros n.
      rewrite map_lookup_filter. destruct (contents w !! n) eqn:En; [|done].
      apply contents_bounds in En. simpl. by rewrite option_guard_False by (simpl; lia).
Qed.

End Lemmas.

(** A window holding seqnum 4, with its left bound at 3 and room for 3..6. *)
Definition sample_window : BufferWindow nat := mkBufferWindow 3 [None; Some 40%nat] 4.

Lemma put_refines_insert_witness :
  exists w', put sample_window 3 30%nat = (w', Ok tt) /\ wf w' /\
    contents w' = <[3:=30%nat]> (contents sample_window).
Proof.
  destruct (put_refines_insert sample_window 3 30%nat) as (_ & _ & H).
  - unfold wf, sample_window, USIZE_MAX, U64_MAX, zlen; simpl; lia.
  - unfold U64_MAX; lia.
  - destruct H as (w' & H1 & H2 & H3 & _); [unfold sample_window, left_bounds, capacity_limit; simpl; lia|].
    exists w'. auto.
Defined.

Lemma drain_front_takes_longest_run_witness :
  exists w' r, drain_front (mkBufferWindow 3 [Some 30%nat; Some 40%nat; None; Some 60%nat] 4) = Val (w', r)
    /\ wf w' /\ contents w' !! win_left w' = None.
Proof.
  destruct (drain_front_takes_longest_run
              (mkBufferWindow 3 [Some 30%nat; Some 40%nat; None; Some 60%nat] 4))
    as (w' & r & H1 & H2 & _ & _ & _ & _ & H3 & _).
  - unfold wf, USIZE_MAX, U64_MAX, zlen; simpl; lia.
  - exists w', r. auto.
Defined.

Lemma drop_front_forgets_prefix_witness :
  exists w', drop_front sample_window 1 = (w', 4) /\ wf w' /\ left_bounds w' = 4.
Proof.
  destruct (drop_front_forgets_prefix sample_window 1) as (w' & H1 & H2 & H3 & _).
  - unfold wf, sample_window, USIZE_MAX, U64_MAX, zlen; simpl; lia.
  - lia.
  - unfold sample_window, zlen; simpl; lia.
  - exists w'. auto.
Defined.

End BufferWindow.
