(* ===== verification/MrpMerge.v ===== *)
(** * Reassembly of fragments (mrp/src/merge_buffer.rs)

    [MergeBuffer] collects a fixed number of fragments and joins them.  The
    Rust bound [T: Extend<T>] is the class [Extend]. *)

From S2P Require Import Prelude.
Local Open Scope Z_scope.

(** Rust's [T: Extend<T>]: append further values to one value. *)
Class Extend (R : Type) : Type := extend : R -> list R -> R.

Module MergeBuffer.

Inductive AssemblyError : Type :=
| ContentLengthExceeded.

Section Merge.
Context {R : Type} `{Extend R}.

Record MergeBuffer : Type := mkMergeBuffer {
  mb_data : list R;
  mb_content_length : Z;
}.

Definition new (content_length : Z) : option MergeBuffer :=
  if content_length =? 0 then None else Some (mkMergeBuffer [] content_length).

Definition merge (b : MergeBuffer) : outcome R :=
  _ ← assert (zlen (mb_data b) =? mb_content_length b);
  match mb_data b with
  | first :: iter => Val (extend first iter)
  | [] => Panic
  end.

Definition push (b : MergeBuffer) (data : R) : MergeBuffer * result bool AssemblyError :=
  if zlen (mb_data b) =? mb_content_length b then (b, Err ContentLengthExceeded)
  else
    let b' := mkMergeBuffer (mb_data b ++ [data]) (mb_content_length b) in
    (b', Ok (zlen (mb_data b') =? mb_content_length b')).

(** Push a list of fragments, ignoring the replies. *)
Fixpoint push_all (b : MergeBuffer) (ds : list R) : MergeBuffer :=
  match ds with
  | [] => b
  | d :: ds => push_all (fst (push b d)) ds
  end.

End Merge.
Arguments MergeBuffer : clear implicits.

Section Lemmas.
Context {R : Type} `{Extend R}.

Lemma push_room (b : MergeBuffer R) d :
  zlen (mb_data b) < mb_content_length b ->
  push b d = (mkMergeBuffer (mb_data b ++ [d]) (mb_content_length b),
              Ok (zlen (mb_data b) + 1 =? mb_content_length b)).
Proof.
  intros Hr. unfold push. simpl. len_simpl. zcases; [lia|done].
Qed.

Lemma push_all_room (ds : list R) : forall (b : MergeBuffer R),
  zlen (mb_data b) + zlen ds <= mb_content_length b ->
  push_all b ds = mkMergeBuffer (mb_data b ++ ds) (mb_content_length b).
Proof.
  induction ds as [|d ds IH]; intros b Hr; simpl.
  - rewrite app_nil_r. by destruct b.
  - rewrite zlen_cons in Hr. pose proof (zlen_nonneg ds).
    rewrite push_room by lia. simpl. rewrite IH by (simpl; len_simpl; lia).
    simpl. by rewrite <- app_assoc.
Qed.

Lemma merge_complete (d : R) (ds : list R) n :
  n = zlen (d :: ds) -> merge (mkMergeBuffer (d :: ds) n) = Val (extend d ds).
Proof. intros ->. unfold merge. cbn [mb_data mb_content_length]. by rewrite Z.eqb_refl. Qed.

(** A buffer made for [n] fragments and fed exactly [n] of them merges,
    without panicking, to the first extended by the others in order; it reports
    ready on the last push and not before, refuses a further push, and
    panics when merged early. *)
Theorem merge_buffer_roundtrip (d : R) (ds : list R) :
  zlen (d :: ds) <= U32_MAX ->
  exists b, new (zlen (d :: ds)) = Some b /\
    merge (push_all b (d :: ds)) = Val (extend d ds) /\
    (forall pre x post, d :: ds = pre ++ x :: post ->
       snd (push (push_all b pre) x) = Ok (bool_decide (post = [])) /\
       merge (push_all b pre) = Panic) /\
    (forall x, push (push_all b (d :: ds)) x = (push_all b (d :: ds), Err ContentLengthExceeded)).
Proof.
  intros _. set (n := zlen (d :: ds)).
  assert (Hn : 1 <= n) by (unfold n; rewrite zlen_cons; pose proof (zlen_nonneg ds); lia).
  exists (mkMergeBuffer [] n). split_and!.
  - unfold new. by zcases; [lia|].
  - rewrite push_all_room by (simpl; unfold n; len_simpl; lia). by apply merge_complete.
  - intros pre x post E.
    assert (El : n = zlen pre + zlen post + 1) by (unfold n; rewrite E; len_simpl; lia).
    pose proof (zlen_nonneg pre). pose proof (zlen_nonneg post).
    rewrite push_all_room by (simpl; len_simpl; lia). simpl. split.
    + rewrite push_room by (simpl; lia). cbn [snd]. f_equal. cbn [mb_data mb_content_length].
      destruct post.
      * rewrite bool_decide_true by done. apply Z.eqb_eq. rewrite El, zlen_nil. lia.
      * rewrite bool_decide_false by done. apply Z.eqb_neq. rewrite El, zlen_cons.
        pose proof (zlen_nonneg post). lia.
    + unfold merge. simpl. destruct (Z.eqb_spec (zlen pre) n); [lia|done].
  - intros x. rewrite push_all_room by (simpl; unfold n; len_simpl; lia).
    unfold push. cbn [mb_data mb_content_length app]. unfold n. by rewrite Z.eqb_refl.
Qed.

End Lemmas.

(** Fragments of bytes joined by concatenation. *)
#[local] Instance list_extend {A} : Extend (list A) := fun x xs => x ++ concat xs.

Lemma merge_buffer_roundtrip_witness :
  exists b, new (R := list nat) 3 = Some b /\
    merge (push_all b [[1%nat]; [2; 3]%nat; [4%nat]]) = Val [1; 2; 3; 4]%nat.
Proof.
  destruct (merge_buffer_roundtrip (R := list nat) [1%nat] [[2; 3]%nat; [4%nat]]) as (b & H1 & H2 & _).
  - unfold zlen, U32_MAX; simpl; lia.
  - exists b. split; [exact H1 | exact H2].
Defined.

End MergeBuffer.
