(* ===== verification/MrpStream.v ===== *)
(** * The sender and receiver state machine of MRP (mrp/src/stream.rs)

    One [MrpStream] buffers both directions of a connection.  The closures the
    Rust methods take ([send_data], [send_ack]) perform the actual sending: they
    are functions over an environment [W] that they update, and may fail with an
    error of type [E] ([anyhow::Error]). *)

From S2P Require Import Prelude MrpWindow MrpMerge.
Local Open Scope Z_scope.
Local Open Scope ringrtc_scope.

Record MrpHeader : Type := mkMrpHeader {
  hdr_seqnum : option Z;
  hdr_ack_num : option Z;
  hdr_num_packets : option Z;
}.

#[export] Instance MrpHeader_eq_dec : EqDecision MrpHeader.
Proof. solve_decision. Defined.

(** [MrpHeader::default()], [MrpHeader::new], [MrpHeader::new_with_length] *)
Definition default_header : MrpHeader := mkMrpHeader None None None.
Definition new_header (seqnum ack_num : option Z) : MrpHeader := mkMrpHeader seqnum ack_num None.
Definition new_with_length (seqnum ack_num num_packets : option Z) : MrpHeader :=
  mkMrpHeader seqnum ack_num num_packets.

(** [struct PacketWrapper<Data>(pub MrpHeader, pub Data)] *)
Record PacketWrapper (Data : Type) : Type := mkPacket {
  pw_header : MrpHeader;
  pw_data : Data;
}.
Arguments mkPacket {Data} _ _.
Arguments pw_header {Data} _.
Arguments pw_data {Data} _.

(** [Data: Extend<T> + IntoIterator<Item = T>] and the [Extend] implementation of
    [PacketWrapper] it gives: the first header is kept, the payloads are joined. *)
Class ExtendIter (Data T : Type) : Type := {
  extend_with : Data -> list T -> Data;
  into_iter : Data -> list T;
}.

#[export] Instance PacketWrapper_extend {Data T} `{ExtendIter Data T} : Extend (PacketWrapper Data) :=
  fun self iter =>
    mkPacket (pw_header self)
      (fold_left (fun d v => extend_with d (into_iter (pw_data v))) iter (pw_data self)).

Record PendingPacket (Data : Type) : Type := mkPending {
  pp_packet : Data;
  pp_next_send_at : Z;
  pp_try_count : Z;
  pp_transmit : bool;
}.
Arguments mkPending {Data} _ _ _ _.
Arguments pp_packet {Data} _.
Arguments pp_next_send_at {Data} _.
Arguments pp_try_count {Data} _.
Arguments pp_transmit {Data} _.

Definition should_transmit {Data} (p : PendingPacket Data) (now : Z) : bool :=
  pp_transmit p || (pp_next_send_at p <=? now).

Inductive MrpReceiveError : Type :=
| ReceiveWindowFull (seqnum : Z)
| PacketMergeConflict
| InvalidNumPackets (num_packets : Z)
| InvalidMergeState.

Inductive MrpSendError (E : Type) : Type :=
| SendWindowFull
| InnerSendFailed (e : E).
Arguments SendWindowFull {E}.
Arguments InnerSendFailed {E} _.

Module Stream.

Section Stream.
Context {W E SendData ReceiveData : Type}.

Record MrpStream : Type := mkStream {
  should_ack : bool;
  send_buffer : BufferWindow.BufferWindow (PendingPacket SendData);
  receive_buffer : BufferWindow.BufferWindow (PacketWrapper ReceiveData);
  merge_buffer : option (MergeBuffer.MergeBuffer ReceiveData);
  merge_end_seqnum : option Z;
}.

Definition set_should_ack (b : bool) (s : MrpStream) : MrpStream :=
  mkStream b (send_buffer s) (receive_buffer s) (merge_buffer s) (merge_end_seqnum s).
Definition set_send_buffer w (s : MrpStream) : MrpStream :=
  mkStream (should_ack s) w (receive_buffer s) (merge_buffer s) (merge_end_seqnum s).
Definition set_receive_buffer w (s : MrpStream) : MrpStream :=
  mkStream (should_ack s) (send_buffer s) w (merge_buffer s) (merge_end_seqnum s).
Definition set_merge_buffer m (s : MrpStream) : MrpStream :=
  mkStream (should_ack s) (send_buffer s) (receive_buffer s) m (merge_end_seqnum s).
Definition set_merge_end_seqnum m (s : MrpStream) : MrpStream :=
  mkStream (should_ack s) (send_buffer s) (receive_buffer s) (merge_buffer s) m.

Definition INITIAL_SEQNUM : Z := 1.
Definition INITIAL_ACKNUM : Z := 1.

(** [impl Default for MrpStream] *)
Definition default : outcome MrpStream :=
  sb ← BufferWindow.new INITIAL_SEQNUM;
  rb ← BufferWindow.new INITIAL_ACKNUM;
  Val (mkStream false sb rb None None).

Definition with_capacity_limit (max_window_size : Z) : outcome MrpStream :=
  sb ← BufferWindow.with_capacity_limit max_window_size INITIAL_SEQNUM;
  rb ← BufferWindow.with_capacity_limit max_window_size INITIAL_ACKNUM;
  Val (mkStream false sb rb None None).

Definition ack_seqnum (s : MrpStream) : Z := BufferWindow.left_bounds (receive_buffer s).

Definition next_seqnum (s : MrpStream) : Z :=
  BufferWindow.max_seen_seqnum (send_buffer s) +64 1.

Definition send_len (s : MrpStream) : Z := BufferWindow.len (send_buffer s).
Definition receive_len (s : MrpStream) : Z := BufferWindow.len (receive_buffer s).

(** ** Sending *)

Definition try_send (send_data : W -> MrpHeader -> W * result (SendData * Z) E)
  (w : W) (s : MrpStream) : outcome (W * MrpStream * result unit (MrpSendError E)) :=
  if BufferWindow.is_full (send_buffer s) then Val (w, s, Err SendWindowFull)
  else
    let header := mkMrpHeader (Some (next_seqnum s)) None None in
    match send_data w header with
    | (w', Ok (packet, timeout)) =>
        let '(sb, r) := BufferWindow.put (send_buffer s) (next_seqnum s)
                          (mkPending packet timeout 1 false) in
        _ ← expect_ok r;
        Val (w', set_send_buffer sb s, Ok tt)
    | (w', Err e) => Val (w', s, Err (InnerSendFailed e))
    end.

(** The [for (idx, fragment) in fragments.into_iter().enumerate()] loop. *)
Fixpoint send_fragments (num_packets : Z)
  (send_data : W -> nat -> MrpHeader -> SendData -> W * (SendData * Z))
  (idx : nat) (fragments : list SendData) (w : W) (s : MrpStream) : outcome (W * MrpStream) :=
  match fragments with
  | [] => Val (w, s)
  | fragment :: fragments =>
      ws ← try_send (fun w header =>
             let header := if bool_decide (idx = 0%nat)
                           then mkMrpHeader (hdr_seqnum header) (hdr_ack_num header) (Some num_packets)
                           else header in
             let '(w, r) := send_data w idx header fragment in (w, Ok r)) w s;
      let '(w, s, r) := ws in
      _ ← expect_ok r;
      send_fragments num_packets send_data (S idx) fragments w s
  end.

Definition try_send_fragmented (fragments : list SendData)
  (send_data : W -> nat -> MrpHeader -> SendData -> W * (SendData * Z))
  (w : W) (s : MrpStream) : outcome (W * MrpStream * result unit (MrpSendError E)) :=
  if BufferWindow.capacity_limit (send_buffer s) <=?
       BufferWindow.len (send_buffer s) +64 zlen fragments
  then Val (w, s, Err SendWindowFull)
  else
    ws ← send_fragments (as_u32 (zlen fragments)) send_data 0 fragments w s;
    let '(w, s) := ws in
    Val (w, s, Ok tt).

Definition try_send_ack (send_ack : W -> MrpHeader -> W * result unit E)
  (w : W) (s : MrpStream) : W * MrpStream * result (option Z) (MrpSendError E) :=
  if should_ack s then
    match send_ack w (mkMrpHeader None (Some (ack_seqnum s)) None) with
    | (w', Ok _) => (w', set_should_ack false s, Ok (Some (ack_seqnum s)))
    | (w', Err e) => (w', s, Err (InnerSendFailed e))
    end
  else (w, s, Ok None).

(** The body of [try_resend] over the sequence numbers still to visit. *)
Fixpoint resend_loop (now : Z) (send_data : W -> SendData -> W * result Z E)
  (seqnums : list Z) (w : W) (b : BufferWindow.BufferWindow (PendingPacket SendData))
  : W * BufferWindow.BufferWindow (PendingPacket SendData) * result unit (MrpSendError E) :=
  match seqnums with
  | [] => (w, b, Ok tt)
  | seqnum :: seqnums =>
      match BufferWindow.get b seqnum with
      | Some ppkt =>
          if should_transmit ppkt now then
            match send_data w (pp_packet ppkt) with
            | (w', Ok next_send_at) =>
                resend_loop now send_data seqnums w'
                  (BufferWindow.get_mut b seqnum (fun p =>
                     mkPending (pp_packet p) next_send_at (u16_add (pp_try_count p) 1) (pp_transmit p)))
            | (w', Err e) => (w', b, Err (InnerSendFailed e))
            end
          else resend_loop now send_data seqnums w b
      | None => resend_loop now send_data seqnums w b
      end
  end.

Definition try_resend (now : Z) (send_data : W -> SendData -> W * result Z E)
  (w : W) (s : MrpStream) : W * MrpStream * result unit (MrpSendError E) :=
  let lo := BufferWindow.left_bounds (send_buffer s) in
  let hi := BufferWindow.max_seen_seqnum (send_buffer s) in
  let '(w', b, r) := resend_loop now send_data (seqZ lo (hi - lo + 1)) w (send_buffer s) in
  (w', set_send_buffer b s, r).

(** ** Receiving *)

Definition update_send_window (s : MrpStream) (received_ack_num : Z) : MrpStream :=
  if next_seqnum s <? received_ack_num then s
  else if received_ack_num <? BufferWindow.left_bounds (send_buffer s) then s
  else
    let old := received_ack_num -64 BufferWindow.left_bounds (send_buffer s) in
    set_send_buffer (fst (BufferWindow.drop_front (send_buffer s) old)) s.

Definition update_receiver_window (s : MrpStream) (header : MrpHeader) (packet : ReceiveData)
  : outcome (MrpStream * result (list (PacketWrapper ReceiveData)) MrpReceiveError) :=
  match hdr_seqnum header with
  | Some seqnum =>
      match BufferWindow.put (receive_buffer s) seqnum (mkPacket header packet) with
      | (_, Err BufferWindow.BeforeWindow) => Val (set_should_ack true s, Ok [])
      | (_, Err BufferWindow.AfterWindow) => Val (s, Err (ReceiveWindowFull seqnum))
      | (rb, Ok _) =>
          drained ← BufferWindow.drain_front rb;
          let '(rb', ready) := drained in
          match ready with
          | Some (_, ready_packets) =>
              Val (set_should_ack true (set_receive_buffer rb' s), Ok ready_packets)
          | None => Val (set_receive_buffer rb' s, Ok [])
          end
      end
  | None => Val (s, Ok [])
  end.

Definition receive (s : MrpStream) (header : MrpHeader) (packet : ReceiveData)
  : outcome (MrpStream * result (list ReceiveData) MrpReceiveError) :=
  match hdr_ack_num header with
  | Some ack_num => Val (update_send_window s ack_num, Ok [])
  | None =>
    if bool_decide (is_Some (hdr_seqnum header)) then
      sr ← update_receiver_window s header packet;
      let '(s', r) := sr in
      match r with
      | Ok ready => Val (s', Ok (map pw_data ready))
      | Err e => Val (s', Err e)
      end
    else Val (s, Ok [packet])
  end.

Definition fail_merge {A} (s : MrpStream) (reason : MrpReceiveError)
  : MrpStream * result A MrpReceiveError :=
  (set_merge_buffer None s, Err reason).

Context `{Extend ReceiveData}.

(** The loop of [merge_packets]; [acc] is the vector [result] of the source. *)
Fixpoint merge_loop (s : MrpStream) (packets : list (PacketWrapper ReceiveData))
  (acc : list ReceiveData) : outcome (MrpStream * result (list ReceiveData) MrpReceiveError) :=
  match packets with
  | [] => Val (s, Ok acc)
  | mkPacket header data :: packets =>
      match hdr_seqnum header with
      | None => merge_loop s packets acc
      | Some seqnum =>
          if match merge_end_seqnum s, merge_buffer s with
             | Some e, None => negb (e <? seqnum)
             | _, _ => false
             end
          then merge_loop s packets acc
          else
            match merge_buffer s with
            | Some buffer =>
                if match hdr_num_packets header with Some n => negb (n =? 0) | None => false end
                then Val (fail_merge s PacketMergeConflict)
                else
                  let '(buffer, r) := MergeBuffer.push buffer data in
                  match r with
                  | Ok true =>
                      merged ← MergeBuffer.merge buffer;
                      merge_loop (set_merge_buffer None s) packets (acc ++ [merged])
                  | Ok false => merge_loop (set_merge_buffer (Some buffer) s) packets acc
                  | Err _ => Val (fail_merge s InvalidMergeState)
                  end
            | None =>
                match hdr_num_packets header with
                | Some num_packets =>
                    if num_packets <=? 1 then merge_loop s packets (acc ++ [data])
                    else if BufferWindow.capacity_limit (receive_buffer s) <? num_packets
                    then Val (s, Err (InvalidNumPackets num_packets))
                    else
                      buffer ← unwrap (MergeBuffer.new num_packets);
                      let '(buffer, _) := MergeBuffer.push buffer data in
                      merge_loop
                        (set_merge_end_seqnum (Some ((seqnum +64 num_packets) -64 1))
                           (set_merge_buffer (Some buffer) s))
                        packets acc
                | None => merge_loop s packets (acc ++ [data])
                end
            end
      end
  end.

Definition merge_packets (s : MrpStream) (packets : list (PacketWrapper ReceiveData)) :=
  merge_loop s packets [].

Definition receive_and_merge (s : MrpStream) (header : MrpHeader) (packet : ReceiveData)
  : outcome (MrpStream * result (list ReceiveData) MrpReceiveError) :=
  match hdr_ack_num header with
  | Some ack_num => Val (update_send_window s ack_num, Ok [])
  | None =>
    if bool_decide (is_Some (hdr_seqnum header)) then
      sr ← update_receiver_window s header packet;
      let '(s', r) := sr in
      match r with
      | Ok ready => merge_packets s' ready
      | Err e => Val (s', Err e)
      end
    else Val (s, Ok [packet])
  end.

End Stream.
Arguments MrpStream : clear implicits.

(** ** Lemmas on the sending half *)

Section SendLemmas.
Context {W E SendData ReceiveData : Type}.
Implicit Types (s : MrpStream SendData ReceiveData).

(** The payloads of a send buffer, forgetting deadlines and counters. *)
Definition payloads (b : BufferWindow.BufferWindow (PendingPacket SendData)) : list (option SendData) :=
  fmap (M := list) (fmap (M := option) pp_packet) (BufferWindow.win_data b).

(** Two send buffers that differ only in deadlines and counters. *)
Definition same_payloads (b b' : BufferWindow.BufferWindow (PendingPacket SendData)) : Prop :=
  BufferWindow.win_left b' = BufferWindow.win_left b /\
  BufferWindow.win_capacity_limit b' = BufferWindow.win_capacity_limit b /\
  payloads b' = payloads b.

#[export] Instance same_payloads_equiv : Equivalence same_payloads.
Proof.
  split; unfold same_payloads.
  - done.
  - intros b b' (? & ? & ?). done.
  - intros b b' b'' (? & ? & ?) (? & ? & ?). split_and!; congruence.
Qed.

Lemma same_payloads_len b b' :
  same_payloads b b' -> length (BufferWindow.win_data b') = length (BufferWindow.win_data b).
Proof.
  intros (_ & _ & Hp). apply (f_equal length) in Hp. unfold payloads in Hp.
  by rewrite !length_fmap in Hp.
Qed.

Lemma same_payloads_wf b b' : same_payloads b b' -> BufferWindow.wf b -> BufferWindow.wf b'.
Proof.
  intros H. pose proof (same_payloads_len _ _ H) as Hl. destruct H as (El & Ec & _).
  unfold BufferWindow.wf, zlen. by rewrite El, Ec, Hl.
Qed.

Lemma get_mut_same_payloads b n f :
  (forall p, pp_packet (f p) = pp_packet p) -> same_payloads b (BufferWindow.get_mut b n f).
Proof.
  intros Hf. unfold BufferWindow.get_mut. destruct (BufferWindow.get_pos b n) as [pos|]; [|done].
  split_and!; [done..|]. unfold payloads. simpl.
  apply list_eq. intros i. rewrite !list_lookup_fmap.
  destruct (decide (Z.to_nat pos = i)) as [->|Hne].
  - rewrite list_lookup_alter_eq. destruct (BufferWindow.win_data b !! i) as [[x|]|]; simpl; try done.
    by rewrite Hf.
  - by rewrite list_lookup_alter_ne.
Qed.

Lemma next_seqnum_wf s :
  BufferWindow.wf (send_buffer s) ->
  next_seqnum s = BufferWindow.win_left (send_buffer s) + zlen (BufferWindow.win_data (send_buffer s)).
Proof.
  intros Hwf. unfold next_seqnum. rewrite BufferWindow.max_seen_seqnum_wf by done.
  pose proof (zlen_nonneg (BufferWindow.win_data (send_buffer s))).
  destruct Hwf as (? & ? & ? & ?). rewrite u64_add_small; lia.
Qed.

(** [try_send] on every branch: a full window, a failing closure, a success. *)
Lemma try_send_spec (send : W -> MrpHeader -> W * result (SendData * Z) E) w s :
  BufferWindow.wf (send_buffer s) ->
  next_seqnum s < U64_MAX ->
  try_send send w s =
    if BufferWindow.is_full (send_buffer s) then Val (w, s, Err SendWindowFull)
    else match send w (mkMrpHeader (Some (next_seqnum s)) None None) with
         | (w', Ok (packet, timeout)) =>
             Val (w', set_send_buffer
                    (BufferWindow.mkBufferWindow (BufferWindow.win_left (send_buffer s))
                       (BufferWindow.win_data (send_buffer s) ++ [Some (mkPending packet timeout 1 false)])
                       (BufferWindow.win_capacity_limit (send_buffer s))) s, Ok tt)
         | (w', Err e) => Val (w', s, Err (InnerSendFailed e))
         end.
Proof.
  intros Hwf Hn. unfold try_send.
  destruct (BufferWindow.is_full (send_buffer s)) eqn:Hfull; [done|].
  destruct (send w _) as [w' [[packet timeout]|e]]; [|done].
  rewrite next_seqnum_wf in * by done.
  unfold BufferWindow.is_full, BufferWindow.capacity_limit in Hfull. apply Z.eqb_neq in Hfull.
  rewrite BufferWindow.put_at_end; try done.
  destruct Hwf as (? & ? & ? & ?). lia.
Qed.

(** A property of the environment that every single transmission of a buffered
    packet preserves survives [try_resend], and the buffered packets do not change. *)
Lemma resend_loop_inv (P : W -> Prop) now (send : W -> SendData -> W * result Z E) ns :
  forall w b,
  (forall w p, P w -> Some p ∈ payloads b -> P (fst (send w p))) -> P w ->
  let '(w', b', _) := resend_loop now send ns w b in P w' /\ same_payloads b b'.
Proof.
  induction ns as [|n ns IH]; intros w b Hsend HP; simpl; [done|].
  destruct (BufferWindow.get b n) as [q|] eqn:Hget; [|by apply IH].
  destruct (should_transmit q now); [|by apply IH].
  assert (Hq : Some (pp_packet q) ∈ payloads b).
  { apply list_elem_of_fmap. exists (Some q). split; [done|].
    by apply BufferWindow.get_Some_elem in Hget. }
  pose proof (Hsend w _ HP Hq) as HP'.
  destruct (send w (pp_packet q)) as [w' [t|e]]; simpl in HP'; [|done].
  set (b1 := BufferWindow.get_mut b n _).
  assert (Hb1 : same_payloads b b1) by (by apply get_mut_same_payloads).
  specialize (IH w' b1). destruct (resend_loop now send ns w' b1) as [[w'' b''] r].
  destruct IH as [? ?].
  - intros w0 p HP0 Hp. apply Hsend; [done|]. destruct Hb1 as (_ & _ & <-). done.
  - done.
  - split; [done|]. by etrans.
Qed.

Lemma same_payloads_get b b' n :
  same_payloads b b' ->
  pp_packet <$> BufferWindow.get b' n = pp_packet <$> BufferWindow.get b n.
Proof.
  intros (El & Ec & Ep). unfold BufferWindow.get.
  assert (Epos : BufferWindow.get_pos b' n = BufferWindow.get_pos b n).
  { unfold BufferWindow.get_pos, BufferWindow.right_bounds, BufferWindow.left_bounds,
      BufferWindow.capacity_limit. by rewrite El, Ec. }
  rewrite Epos. destruct (BufferWindow.get_pos b n) as [pos|]; [|done].
  apply (f_equal (.!! Z.to_nat pos)) in Ep. unfold payloads in Ep. rewrite !list_lookup_fmap in Ep.
  destruct (BufferWindow.win_data b' !! _) as [[]|], (BufferWindow.win_data b !! _) as [[]|];
    simpl in *; congruence.
Qed.

Lemma elem_of_get_mut b n f (o : option (PendingPacket SendData)) :
  o ∈ BufferWindow.win_data (BufferWindow.get_mut b n f) ->
  o ∈ BufferWindow.win_data b \/ exists q, o = Some (f q).
Proof.
  unfold BufferWindow.get_mut. destruct (BufferWindow.get_pos b n) as [pos|]; [|by left].
  simpl. intros [i Hi]%list_elem_of_lookup.
  destruct (decide (Z.to_nat pos = i)) as [<-|Hne].
  - rewrite list_lookup_alter_eq in Hi.
    destruct (BufferWindow.win_data b !! Z.to_nat pos) as [[q|]|] eqn:Hb; simpl in Hi; simplify_eq; [eauto|].
    left. by apply list_elem_of_lookup_2 in Hb.
  - rewrite list_lookup_alter_ne in Hi by done. left. by apply list_elem_of_lookup_2 in Hi.
Qed.

(** Once every deadline has passed, a resend whose transmissions succeed hands
    every buffered packet of the visited range to the environment. *)
Lemma resend_loop_all now ns : forall (w : list SendData) b,
  (forall q, Some q ∈ BufferWindow.win_data b -> should_transmit q now = true) ->
  let '(w', _, _) := resend_loop (E := E) now (fun w p => (p :: w, Ok now)) ns w b in
  w ⊆ w' /\
  forall n p, n ∈ ns -> pp_packet <$> BufferWindow.get b n = Some p -> p ∈ w'.
Proof.
  induction ns as [|n ns IH]; intros w b Hall; simpl.
  { split; [done|]. intros n p Hn. by apply elem_of_nil in Hn. }
  destruct (BufferWindow.get b n) as [q|] eqn:Hget.
  - rewrite Hall by (by apply BufferWindow.get_Some_elem in Hget).
    set (b1 := BufferWindow.get_mut b n _).
    assert (Hb1 : same_payloads b b1) by (by apply get_mut_same_payloads).
    specialize (IH (pp_packet q :: w) b1). destruct (resend_loop _ _ _ _ _) as [[w' b'] r].
    destruct IH as [Hsub Hin].
    { intros q' [Hq'|[q0 [= ->]]]%elem_of_get_mut; [by apply Hall|].
      unfold should_transmit. simpl. rewrite Z.leb_refl. apply orb_true_r. }
    split; [set_solver|]. intros m p [->|Hm]%elem_of_cons Hp.
    + rewrite Hget in Hp. injection Hp as <-. set_solver.
    + apply (Hin m p Hm). by rewrite (same_payloads_get _ _ _ Hb1).
  - specialize (IH w b Hall). destruct (resend_loop _ _ _ _ _) as [[w' b'] r].
    destruct IH as [Hsub Hin]. split; [done|]. intros m p [->|Hm]%elem_of_cons Hp.
    + by rewrite Hget in Hp.
    + eauto.
Qed.

Lemma update_send_window_spec s ack :
  BufferWindow.wf (send_buffer s) ->
  let l := BufferWindow.win_left (send_buffer s) in
  let d := BufferWindow.win_data (send_buffer s) in
  update_send_window s ack =
    if (l + zlen d <? ack) || (ack <? l) then s
    else set_send_buffer
           (BufferWindow.mkBufferWindow ack (drop (Z.to_nat (ack - l)) d)
              (BufferWindow.win_capacity_limit (send_buffer s))) s.
Proof.
  intros Hwf l d. unfold update_send_window. rewrite next_seqnum_wf by done.
  assert (Hb : 1 <= l /\ l + zlen d < 2 ^ 64) by (destruct Hwf as (? & ? & ? & ?); subst l d; lia).
  fold l d. unfold BufferWindow.left_bounds. fold l. pose proof (zlen_nonneg d).
  destruct (Z.ltb_spec (l + zlen d) ack); [done|].
  destruct (Z.ltb_spec ack l); simpl; [done|].
  rewrite u64_sub_small by lia. unfold BufferWindow.drop_front. fold l d.
  rewrite Z.min_r by lia. rewrite u64_add_small by lia. simpl.
  by replace (l + (ack - l)) with ack by lia.
Qed.

End SendLemmas.

(** ** Lemmas on the receiving half *)

Section ReceiveLemmas.
Context {SendData ReceiveData : Type}.
Implicit Types (s : MrpStream SendData ReceiveData).

Definition data_header (n : Z) : MrpHeader := mkMrpHeader (Some n) None None.

(** The sequence number just past the last slot of the receive buffer. *)
Definition receive_end s : Z :=
  BufferWindow.win_left (receive_buffer s) + zlen (BufferWindow.win_data (receive_buffer s)).

(** A data packet inside the receive window: it is stored, and the longest run
    from the left bound is released. *)
Lemma update_receiver_window_in s hdr n d :
  hdr_seqnum hdr = Some n -> BufferWindow.wf (receive_buffer s) -> 1 <= n < U64_MAX ->
  let rb := receive_buffer s in
  let m := <[n := mkPacket hdr d]> (BufferWindow.contents rb) in
  BufferWindow.win_left rb <= n < BufferWindow.win_left rb + BufferWindow.win_capacity_limit rb ->
  exists rb' els,
    update_receiver_window s hdr d =
      Val (set_should_ack (should_ack s || bool_decide (els <> [])) (set_receive_buffer rb' s), Ok els) /\
    BufferWindow.wf rb' /\
    BufferWindow.win_capacity_limit rb' = BufferWindow.win_capacity_limit rb /\
    BufferWindow.win_left rb' = BufferWindow.win_left rb + zlen els /\
    (forall i x, els !! i = Some x -> m !! (BufferWindow.win_left rb + Z.of_nat i) = Some x) /\
    BufferWindow.contents rb' ⊆ m /\
    BufferWindow.contents rb' !! BufferWindow.win_left rb' = None /\
    (forall k, is_Some (m !! k) -> BufferWindow.win_left rb' <= k -> is_Some (BufferWindow.contents rb' !! k)) /\
    BufferWindow.win_left rb' + zlen (BufferWindow.win_data rb') = Z.max (receive_end s) (n + 1).
Proof.
  intros Hseq Hwf Hn rb m Hin. unfold update_receiver_window. rewrite Hseq.
  pose proof (BufferWindow.put_wf rb n (mkPacket hdr d) Hwf Hin ltac:(lia)) as Hwf'.
  pose proof (BufferWindow.contents_put rb n (mkPacket hdr d) Hwf Hin ltac:(lia)) as Hc.
  pose proof (BufferWindow.put_in_window rb n (mkPacket hdr d) Hwf Hin ltac:(lia)) as Hput.
  destruct (BufferWindow.put rb n (mkPacket hdr d)) as [w1 r1] eqn:Eput. simpl in Hwf', Hc.
  fold m in Hc. injection Hput as Hw1 ->.
  assert (Hend : BufferWindow.win_left w1 + zlen (BufferWindow.win_data w1) = Z.max (receive_end s) (n + 1)).
  { rewrite Hw1. unfold receive_end. fold rb. simpl. len_simpl. unfold zlen.
    rewrite length_replicate. lia. }
  assert (Hl1 : BufferWindow.win_left w1 = BufferWindow.win_left rb) by (by rewrite Hw1).
  assert (Hc1 : BufferWindow.win_capacity_limit w1 = BufferWindow.win_capacity_limit rb) by (by rewrite Hw1).
  clear Hw1. unfold rb in Eput. rewrite Eput.
  destruct (BufferWindow.drain_front_spec w1 Hwf') as (rb' & els & -> & Hwf2 & Hl2 & Hc2 & Hels & Hm & Hhd & Hlen & _).
  rewrite Hl1 in *. rewrite Hc1 in *. rewrite Hc in *.
  exists rb', els. split_and!; try done.
  - simpl. case_decide as He.
    + subst els. rewrite bool_decide_false by (by intros Hf). rewrite orb_false_r. by destruct s.
    + rewrite bool_decide_true by done. by rewrite orb_true_r.
  - intros i x Hi. by apply Hels in Hi as [_ ?].
  - rewrite Hm. apply map_filter_subseteq.
  - intros k [x Hx] Hk. exists x. rewrite Hm. by apply map_lookup_filter_Some.
  - lia.
Qed.

(** A data packet outside the window is answered without touching the buffers. *)
Lemma update_receiver_window_out s hdr n d :
  hdr_seqnum hdr = Some n -> BufferWindow.wf (receive_buffer s) -> 1 <= n < U64_MAX ->
  let rb := receive_buffer s in
  (n < BufferWindow.win_left rb ->
   update_receiver_window s hdr d = Val (set_should_ack true s, Ok [])) /\
  (BufferWindow.win_left rb + BufferWindow.win_capacity_limit rb <= n ->
   update_receiver_window s hdr d = Val (s, Err (ReceiveWindowFull n))).
Proof.
  intros Hseq Hwf Hn rb. unfold update_receiver_window, BufferWindow.put. rewrite Hseq.
  rewrite BufferWindow.get_pos_spec by (done || lia).
  destruct Hwf as (? & ? & ? & ?). split; intros Hc; by zcases; try (subst rb; lia).
Qed.

End ReceiveLemmas.

End Stream.
