(* ===== verification/MrpProtocol.v ===== *)
(** * Two MRP endpoints over an unreliable network

    The contract of MRP is reliable, ordered delivery "on top of unreliable
    connections" (mrp/src/stream.rs, module documentation).  Two endpoints run the
    stream of [MrpStream]; everything an endpoint transmits goes to a network
    that may lose, duplicate and reorder packets.  The file defines the step
    relation, an inductive invariant, and proves that deliveries are a prefix of
    what was sent and that loss can always be recovered from. *)

From S2P Require Import Prelude MrpWindow MrpMerge MrpStream.
Local Open Scope Z_scope.
Local Open Scope ringrtc_scope.

Module Protocol.
Import Stream.

Section Protocol.
Context {D E : Type}.

Abbreviation packet := (PacketWrapper D).
Abbreviation stream := (MrpStream packet D).

(** An endpoint: its stream, the payloads its application sent successfully, the
    payloads delivered to its application, and the packets of its own that are in
    the network. *)
Record endpoint : Type := mkEndpoint {
  ep_stream : stream;
  ep_sent : list D;
  ep_delivered : list D;
  ep_out : list packet;
}.

(** Sequence numbers do not wrap around: at most [2^64 - 3] payloads are sent. *)
Definition MAX_SENT : Z := 2 ^ 64 - 3.

(** The contract of the closures: on success the packet handed to the network is
    the header and the payload, on failure nothing is handed over. *)
Definition honest_send (d : D) (send : list packet -> MrpHeader -> list packet * result (packet * Z) E) : Prop :=
  forall w h, match send w h with
              | (w', Ok (p, _)) => p = mkPacket h d /\ w' ⊆ mkPacket h d :: w
              | (w', Err _) => w' ⊆ w
              end.
Definition honest_resend (send : list packet -> packet -> list packet * result Z E) : Prop :=
  forall w p, fst (send w p) ⊆ p :: w.
Definition honest_ack (send_ack : list packet -> MrpHeader -> list packet * result unit E) : Prop :=
  forall w h, exists d, fst (send_ack w h) ⊆ mkPacket h d :: w.

(** One step of an endpoint whose peer has the packets [inbox] in the network. *)
Inductive act (inbox : list packet) : endpoint -> endpoint -> Prop :=
| act_send e d send w' s' r :
    honest_send d send ->
    zlen (ep_sent e) < MAX_SENT ->
    try_send send (ep_out e) (ep_stream e) = Val (w', s', r) ->
    act inbox e (mkEndpoint s' (if is_ok r then ep_sent e ++ [d] else ep_sent e) (ep_delivered e) w')
| act_resend e now send w' s' r :
    honest_resend send ->
    try_resend now send (ep_out e) (ep_stream e) = (w', s', r) ->
    act inbox e (mkEndpoint s' (ep_sent e) (ep_delivered e) w')
| act_ack e send_ack w' s' r :
    honest_ack send_ack ->
    try_send_ack send_ack (ep_out e) (ep_stream e) = (w', s', r) ->
    act inbox e (mkEndpoint s' (ep_sent e) (ep_delivered e) w')
| act_receive e p s' r :
    p ∈ inbox ->
    receive (ep_stream e) (pw_header p) (pw_data p) = Val (s', r) ->
    act inbox e (mkEndpoint s' (ep_sent e)
                   (ep_delivered e ++ match r with Ok ds => ds | Err _ => [] end) (ep_out e))
| act_lose e out' :
    out' ⊆ ep_out e ->
    act inbox e (mkEndpoint (ep_stream e) (ep_sent e) (ep_delivered e) out').

Inductive step : endpoint * endpoint -> endpoint * endpoint -> Prop :=
| step_left a a' b : act (ep_out b) a a' -> step (a, b) (a', b)
| step_right a b b' : act (ep_out a) b b' -> step (a, b) (a, b').

Definition initial (cap : Z) (ab : endpoint * endpoint) : Prop :=
  exists s, with_capacity_limit cap = Val s /\
    ab = (mkEndpoint s [] [] [], mkEndpoint s [] [] []).

Definition reachable (cap : Z) (ab : endpoint * endpoint) : Prop :=
  exists ab0, initial cap ab0 /\ rtc step ab0 ab.

(** ** The invariant of one direction, from [a] to [b] *)

Definition sent_at (l : list D) (n : Z) : option D :=
  if 1 <=? n then l !! Z.to_nat (n - 1) else None.

Definition data_packet (sent : list D) (p : packet) : Prop :=
  exists n, pw_header p = data_header n /\ sent_at sent n = Some (pw_data p).
Definition ack_packet (bound : Z) (p : packet) : Prop :=
  exists k, pw_header p = mkMrpHeader None (Some k) None /\ 1 <= k <= bound.

Abbreviation sb e := (send_buffer (ep_stream e)).
Abbreviation rb e := (receive_buffer (ep_stream e)).
Abbreviation snd_left e := (BufferWindow.win_left (sb e)).
Abbreviation rcv_left e := (BufferWindow.win_left (rb e)).

(** What the sender knows: its buffer holds exactly the unacknowledged suffix of
    what was sent, and its packets in the network are genuine. *)
Record sender_ok (e : endpoint) : Prop := {
  so_wf : BufferWindow.wf (sb e);
  so_end : snd_left e + zlen (BufferWindow.win_data (sb e)) = 1 + zlen (ep_sent e);
  so_data : forall i o, payloads (sb e) !! i = Some o ->
     exists p, o = Some p /\ pw_header p = data_header (snd_left e + Z.of_nat i) /\
       data_packet (ep_sent e) p;
  so_out : forall p, p ∈ ep_out e -> data_packet (ep_sent e) p \/ ack_packet (rcv_left e) p;
  so_bound : zlen (ep_sent e) <= MAX_SENT;
}.

(** What the receiver holds of the payloads [sent] by its peer. *)
Record receiver_ok (sent : list D) (e : endpoint) : Prop := {
  ro_wf : BufferWindow.wf (rb e);
  ro_left : rcv_left e = 1 + zlen (ep_delivered e);
  ro_prefix : ep_delivered e `prefix_of` sent;
  ro_contents : forall n p, BufferWindow.contents (rb e) !! n = Some p -> sent_at sent n = Some (pw_data p);
  ro_end : receive_end (ep_stream e) <= 1 + zlen sent;
  ro_head : BufferWindow.contents (rb e) !! rcv_left e = None;
}.

Definition half (a b : endpoint) : Prop :=
  sender_ok a /\ receiver_ok (ep_sent a) b /\ snd_left a <= rcv_left b.

Definition inv (ab : endpoint * endpoint) : Prop :=
  half ab.1 ab.2 /\ half ab.2 ab.1.

(** ** Preservation *)

Lemma sent_at_bounds l n d : sent_at l n = Some d -> 1 <= n <= zlen l.
Proof.
  unfold sent_at. zcases; [|done]. intros Hl%lookup_lt_Some. unfold zlen. lia.
Qed.

Lemma sent_at_app l k n d : sent_at l n = Some d -> sent_at (l ++ k) n = Some d.
Proof. unfold sent_at. zcases; [|done]. apply lookup_app_l_Some. Qed.

Lemma sent_at_end l d : sent_at (l ++ [d]) (1 + zlen l) = Some d.
Proof.
  unfold sent_at. pose proof (zlen_nonneg l). zcases; [|lia].
  replace (Z.to_nat (1 + zlen l - 1)) with (length l) by (unfold zlen; lia).
  by rewrite list_lookup_middle.
Qed.

Lemma data_packet_app l k p : data_packet l p -> data_packet (l ++ k) p.
Proof. intros (n & Hh & Hn). exists n. eauto using sent_at_app. Qed.

(** A receiver stays correct when its peer sends more. *)
Lemma receiver_ok_app l k e : receiver_ok l e -> receiver_ok (l ++ k) e.
Proof.
  intros [Hwf Hl Hp Hc He Hh]. split; try done.
  - by apply prefix_app_r.
  - eauto using sent_at_app.
  - rewrite zlen_app. pose proof (zlen_nonneg k). lia.
Qed.

(** A receiver only depends on its receive buffer and deliveries. *)
Lemma receiver_ok_ext l e e' :
  rb e' = rb e -> ep_delivered e' = ep_delivered e -> receiver_ok l e -> receiver_ok l e'.
Proof.
  intros Er Ed [Hwf Hl Hp Hc He Hh]. split; unfold receive_end in *; by rewrite ?Er, ?Ed.
Qed.

Lemma sender_send e d send w' s' r :
  sender_ok e -> honest_send d send -> zlen (ep_sent e) < MAX_SENT ->
  try_send send (ep_out e) (ep_stream e) = Val (w', s', r) ->
  sender_ok (mkEndpoint s' (if is_ok r then ep_sent e ++ [d] else ep_sent e) (ep_delivered e) w') /\
  receive_buffer s' = rb e /\ BufferWindow.win_left (send_buffer s') = snd_left e.
Proof.
  intros [Hwf Hend Hdata Hout Hb] Hh Hmax. unfold MAX_SENT in *.
  pose proof (next_seqnum_wf _ Hwf) as Hnext. rewrite Hend in Hnext.
  rewrite try_send_spec by (done || unfold U64_MAX in *; lia).
  destruct (BufferWindow.is_full (sb e)) eqn:Hfull.
  { intros [= <- <- <-]. split; [|done]. by split. }
  specialize (Hh (ep_out e) (mkMrpHeader (Some (next_seqnum (ep_stream e))) None None)).
  destruct (send _ _) as [w1 [[p t]|err]]; intros [= <- <- <-]; simpl.
  2: { split; [|done]. split; simpl; try done. intros q Hq. by apply Hout, Hh. }
  destruct Hh as [-> Hsub]. split; [|done].
  assert (Hp : data_packet (ep_sent e ++ [d])
     (mkPacket (mkMrpHeader (Some (next_seqnum (ep_stream e))) None None) d)).
  { eexists. split; [done|]. simpl. rewrite Hnext. apply sent_at_end. }
  apply Z.eqb_neq in Hfull. unfold BufferWindow.capacity_limit in Hfull.
  split; simpl.
  - destruct Hwf as (? & ? & ? & ?). unfold BufferWindow.wf; simpl. len_simpl. lia.
  - len_simpl. lia.
  - intros i o. unfold payloads. simpl. rewrite fmap_app. intros Hi.
    apply lookup_app_Some in Hi as [Hi|[Hge Hi]].
    + destruct (Hdata i o Hi) as (p & -> & Hp1 & Hp2). eauto using data_packet_app.
    + rewrite length_fmap in Hge, Hi.
      simpl in Hi. destruct (i - _)%nat eqn:Hi0; simpl in Hi; [|done].
      injection Hi as <-. eexists. split; [done|]. split; [|done]. simpl.
      unfold data_header. do 2 f_equal. rewrite Hnext. unfold zlen in *. lia.
  - intros q Hq. apply Hsub in Hq. apply elem_of_cons in Hq as [->|Hq]; [by left|].
    destruct (Hout q Hq); eauto using data_packet_app.
  - rewrite zlen_app, zlen_cons, zlen_nil. unfold MAX_SENT. lia.
Qed.

Lemma sender_resend e now send w' s' r :
  sender_ok e -> honest_resend send ->
  try_resend now send (ep_out e) (ep_stream e) = (w', s', r) ->
  sender_ok (mkEndpoint s' (ep_sent e) (ep_delivered e) w') /\
  receive_buffer s' = rb e /\ BufferWindow.win_left (send_buffer s') = snd_left e.
Proof.
  intros [Hwf Hend Hdata Hout Hb] Hh. unfold try_resend.
  set (P := fun w : list packet => forall p, p ∈ w ->
              data_packet (ep_sent e) p \/ ack_packet (rcv_left e) p).
  pose proof (resend_loop_inv P now send
    (seqZ (BufferWindow.left_bounds (sb e))
       (BufferWindow.max_seen_seqnum (sb e) - BufferWindow.left_bounds (sb e) + 1))
    (ep_out e) (sb e)) as Hinv.
  destruct (resend_loop _ _ _ _ _) as [[w1 b1] r1]. intros [= <- <- <-].
  destruct Hinv as [HP Hsame]; [|done|].
  { intros w p HPw Hp q Hq. apply Hh in Hq. apply elem_of_cons in Hq as [->|Hq]; [|by apply HPw].
    apply list_elem_of_lookup in Hp as [i Hi]. destruct (Hdata _ _ Hi) as (p' & [= <-] & _ & ?). by left. }
  pose proof (same_payloads_len _ _ Hsame) as Hlen. pose proof (same_payloads_wf _ _ Hsame Hwf).
  destruct Hsame as (El & Ec & Ep). split; [|done].
  split; simpl; try done.
  - unfold zlen in *. by rewrite Hlen, El.
  - rewrite Ep, El. done.
Qed.

Lemma sender_ack e send_ack w' s' r :
  sender_ok e -> 1 <= rcv_left e -> honest_ack send_ack ->
  try_send_ack send_ack (ep_out e) (ep_stream e) = (w', s', r) ->
  sender_ok (mkEndpoint s' (ep_sent e) (ep_delivered e) w') /\
  receive_buffer s' = rb e /\ send_buffer s' = sb e.
Proof.
  intros [Hwf Hend Hdata Hout Hb] Hl Hh. unfold try_send_ack.
  destruct (should_ack (ep_stream e)).
  2: { intros [= <- <- <-]. split; [|done]. by split. }
  set (h := mkMrpHeader None _ None).
  destruct (Hh (ep_out e) h) as [d Hsub].
  assert (Hnew : forall q, q ∈ fst (send_ack (ep_out e) h) ->
     data_packet (ep_sent e) q \/ ack_packet (rcv_left e) q).
  { intros q Hq. apply Hsub in Hq. apply elem_of_cons in Hq as [->|Hq]; [|by apply Hout].
    right. eexists. split; [done|]. unfold ack_seqnum, BufferWindow.left_bounds. lia. }
  destruct (send_ack (ep_out e) h) as [w1 [u|err]]; intros [= <- <- <-]; simpl in Hnew;
    (split; [|done]); split; done.
Qed.

(** Receiving an acknowledgement that the peer really sent drops the acknowledged
    prefix of the send buffer. *)
Lemma receive_ack e s' r p bound :
  sender_ok e -> ack_packet bound p -> snd_left e <= bound -> bound <= 1 + zlen (ep_sent e) ->
  receive (ep_stream e) (pw_header p) (pw_data p) = Val (s', r) ->
  sender_ok (mkEndpoint s' (ep_sent e) (ep_delivered e ++ match r with Ok ds => ds | Err _ => [] end) (ep_out e)) /\
  r = Ok [] /\ receive_buffer s' = rb e /\ snd_left e <= BufferWindow.win_left (send_buffer s') <= bound.
Proof.
  intros [Hwf Hend Hdata Hout Hb] (k & Hh & Hk) Hle Hbound. unfold receive. rewrite Hh. simpl.
  rewrite update_send_window_spec by done. intros [= <- <-].
  pose proof (zlen_nonneg (BufferWindow.win_data (sb e))).
  destruct (Z.ltb_spec (snd_left e + zlen (BufferWindow.win_data (sb e))) k); [lia|].
  destruct (Z.ltb_spec k (snd_left e)); simpl.
  { split; [by split|]. split; [done|]. split; [done|lia]. }
  split; [|split_and!; done || lia].
  split; simpl; try done.
  - destruct Hwf as (? & ? & ? & ?). unfold BufferWindow.wf; simpl. len_simpl. lia.
  - len_simpl. lia.
  - intros i o. unfold payloads. simpl. rewrite list_lookup_fmap, lookup_drop.
    intros Hi. destruct (Hdata (Z.to_nat (k - snd_left e) + i)%nat o) as (q & -> & Hq1 & Hq2).
    { unfold payloads. by rewrite list_lookup_fmap. }
    exists q. split; [done|]. split; [|done]. rewrite Hq1. unfold data_header. do 2 f_equal. lia.
Qed.

Lemma prefix_extend (k l sent : list D) :
  l `prefix_of` sent ->
  (forall i x, k !! i = Some x -> sent !! (length l + i)%nat = Some x) ->
  l ++ k `prefix_of` sent.
Proof.
  revert l. induction k as [|x k IH]; intros l [rest ->] Hk; [rewrite app_nil_r; by exists rest|].
  assert (Hx : rest !! 0%nat = Some x).
  { specialize (Hk 0%nat x eq_refl). by rewrite lookup_app_r, Nat.add_0_r, Nat.sub_diag in Hk by lia. }
  destruct rest as [|y rest]; [done|]. injection Hx as ->.
  change (x :: k) with ([x] ++ k). rewrite app_assoc. apply IH.
  - exists rest. by rewrite <- app_assoc.
  - intros i z Hz. rewrite length_app. simpl.
    replace (length l + 1 + i)%nat with (length l + S i)%nat by lia. by apply Hk.
Qed.

(** Receiving a genuine data packet: it never panics, deliveries stay a prefix of
    what was sent, and a packet at or before the left bound is acknowledged and
    moves the bound past its sequence number. *)
Lemma receive_data sent e p n :
  receiver_ok sent e -> zlen sent <= MAX_SENT ->
  pw_header p = data_header n -> sent_at sent n = Some (pw_data p) ->
  exists s' r, receive (ep_stream e) (pw_header p) (pw_data p) = Val (s', r) /\
    receiver_ok sent (mkEndpoint s' (ep_sent e)
      (ep_delivered e ++ match r with Ok ds => ds | Err _ => [] end) (ep_out e)) /\
    send_buffer s' = sb e /\ rcv_left e <= BufferWindow.win_left (receive_buffer s') /\
    (n <= rcv_left e -> n < BufferWindow.win_left (receive_buffer s') /\ should_ack s' = true).
Proof.
  intros Hro Hmax Hh Hn. pose proof Hro as [Hwf Hl Hp Hc He Hhd].
  pose proof (sent_at_bounds _ _ _ Hn) as Hb. unfold MAX_SENT in Hmax.
  assert (Hseq : hdr_seqnum (pw_header p) = Some n) by (by rewrite Hh).
  assert (Hack : hdr_ack_num (pw_header p) = None) by (by rewrite Hh).
  unfold receive. rewrite Hack.
  rewrite bool_decide_true by (by exists n; rewrite Hseq).
  destruct (update_receiver_window_out (ep_stream e) (pw_header p) n (pw_data p) Hseq Hwf) as [Hbefore Hafter];
    [unfold U64_MAX; lia|].
  destruct (Z.lt_ge_cases n (rcv_left e)) as [Hlt|Hge].
  { rewrite Hbefore by done. simpl. eexists _, _. split; [done|].
    split; [apply (receiver_ok_ext _ e); simpl; [done|by rewrite app_nil_r|done]|]. simpl.
    split_and!; done || lia || (split; done || lia). }
  destruct (Z.le_gt_cases (rcv_left e + BufferWindow.win_capacity_limit (rb e)) n) as [Hcap|Hcap].
  { rewrite Hafter by done. simpl. eexists _, _. split; [done|].
    split; [apply (receiver_ok_ext _ e); simpl; [done|by rewrite app_nil_r|done]|]. simpl.
    destruct Hwf as (? & ? & ? & ?). split_and!; done || lia. }
  destruct (update_receiver_window_in (ep_stream e) (pw_header p) n (pw_data p) Hseq Hwf)
    as (rb' & els & -> & Hwf' & Hc' & Hl' & Hels & Hsub & Hhd' & Hkeep & Hend'); [unfold U64_MAX; lia|lia|].
  assert (Hm : forall k q, <[n:=mkPacket (pw_header p) (pw_data p)]> (BufferWindow.contents (rb e)) !! k = Some q ->
     sent_at sent k = Some (pw_data q)).
  { intros k q. destruct (decide (n = k)) as [<-|Hne].
    - rewrite lookup_insert_eq. intros [= <-]. done.
    - rewrite lookup_insert_ne by done. apply Hc. }
  simpl. eexists _, _. split; [done|]. split_and!; simpl.
  - split; simpl; try done.
    + rewrite Hl', zlen_app, Hl. unfold zlen. rewrite length_map. lia.
    + apply prefix_extend; [done|]. intros i x Hi.
      apply list_lookup_fmap_Some in Hi as (q & -> & Hi).
      apply Hels, Hm in Hi. unfold sent_at in Hi. rewrite Hl in Hi. unfold zlen in Hi.
      destruct (Z.leb_spec 1 (1 + Z.of_nat (length (ep_delivered e)) + Z.of_nat i)); [|done].
      by replace (Z.to_nat _) with (length (ep_delivered e) + i)%nat in Hi by lia.
    + intros k q Hk. eapply Hm, lookup_weaken; done.
    + unfold receive_end in *. simpl. lia.
  - done.
  - rewrite Hl'. pose proof (zlen_nonneg els). lia.
  - intros Hle. assert (n = rcv_left e) as Hn0 by lia.
    assert (Hnil : els <> []).
    { intros ->. rewrite zlen_nil, Z.add_0_r in Hl'. rewrite Hl' in *.
      destruct (Hkeep n) as [x Hx]; [rewrite lookup_insert_eq; eauto | lia |]. congruence. }
    rewrite bool_decide_true, orb_true_r by done. split; [|done].
    destruct els; [done|]. rewrite Hl', zlen_cons. pose proof (zlen_nonneg els). lia.
Qed.

(** Every step of one endpoint preserves the invariant of both directions. *)
Lemma act_preserves a a' b :
  half a b -> half b a -> act (ep_out b) a a' -> half a' b /\ half b a'.
Proof.
  intros (Hsa & Hrb & Hab) (Hsb & Hra & Hba) Hact.
  destruct Hact as [e d send w' s' r Hh Hm Ht | e now send w' s' r Hh Ht | e sa w' s' r Hh Ht
                   | e p s' r Hp Ht | e out' Hsub].
  - destruct (sender_send _ _ _ _ _ _ Hsa Hh Hm Ht) as (Hs' & Er & El). split; split_and!; try done.
    + simpl. destruct (is_ok r); [by apply receiver_ok_app|done].
    + simpl. by rewrite El.
    + by apply (receiver_ok_ext _ e).
    + simpl. by rewrite Er.
  - destruct (sender_resend _ _ _ _ _ _ Hsa Hh Ht) as (Hs' & Er & El). split; split_and!; try done.
    + simpl. by rewrite El.
    + by apply (receiver_ok_ext _ e).
    + simpl. by rewrite Er.
  - assert (Hge : 1 <= rcv_left e) by (by destruct (ro_wf _ _ Hra)).
    destruct (sender_ack _ _ _ _ _ Hsa Hge Hh Ht) as (Hs' & Er & El).
    split; split_and!; try done.
    + simpl. by rewrite El.
    + by apply (receiver_ok_ext _ e).
    + simpl. by rewrite Er.
  - destruct (so_out _ Hsb p Hp) as [(n & Hn & Hd)|Hack].
    + destruct (receive_data _ e p n Hra (so_bound _ Hsb) Hn Hd) as (s1 & r1 & Ht1 & Hro & Es & Hl & _).
      rewrite Ht1 in Ht. injection Ht as -> ->.
      split; split_and!; try done; simpl; rewrite ?Es; try done; [|lia].
      destruct Hsa as [? ? ? Hout ?]. split; simpl; rewrite ?Es; try done.
      intros q Hq. destruct (Hout q Hq) as [?|(k & ? & ?)]; [by left|]. right. exists k. split; [done|]. lia.
    + assert (Hbd : rcv_left b <= 1 + zlen (ep_sent e)).
      { pose proof (ro_end _ _ Hrb). unfold receive_end in *.
        pose proof (zlen_nonneg (BufferWindow.win_data (rb b))). lia. }
      destruct (receive_ack e s' r p (rcv_left b) Hsa Hack Hab Hbd Ht) as (Hs' & -> & Er & Hl).
      split; split_and!; try done; simpl; try lia.
      * apply (receiver_ok_ext _ e); simpl; [done|by rewrite app_nil_r|done].
      * by rewrite Er.
  - split; split_and!; try done.
    + destruct Hsa as [? ? ? Hout ?]. split; simpl; try done. intros q Hq. by apply Hout, Hsub.
    + by apply (receiver_ok_ext _ e).
Qed.

Lemma initial_inv cap ab : 1 <= cap <= USIZE_MAX -> initial cap ab -> inv ab.
Proof.
  intros Hcap (s & Hs & ->). unfold with_capacity_limit, BufferWindow.with_capacity_limit in Hs.
  simpl in Hs. destruct (Z.eqb_spec cap 0); [lia|]. simpl in Hs. injection Hs as <-.
  assert (Hhalf : half (mkEndpoint (mkStream false (BufferWindow.mkBufferWindow 1 [] cap)
       (BufferWindow.mkBufferWindow 1 [] cap) None None) [] [] [])
      (mkEndpoint (mkStream false (BufferWindow.mkBufferWindow 1 [] cap)
       (BufferWindow.mkBufferWindow 1 [] cap) None None) [] [] [])).
  { split_and!; simpl; [split|split|lia]; simpl; unfold BufferWindow.wf, receive_end, MAX_SENT; simpl;
      rewrite ?BufferWindow.contents_nil, ?zlen_nil; try done; try lia.
    intros p Hp. by apply elem_of_nil in Hp. }
  by split.
Qed.

Lemma step_inv ab ab' : inv ab -> step ab ab' -> inv ab'.
Proof.
  intros [H1 H2] Hs. destruct Hs as [a a' b Ha|a b b' Hb]; simpl in *.
  - by apply (act_preserves a a' b).
  - destruct (act_preserves b b' a H2 H1 Hb). by split.
Qed.

Lemma steps_inv ab ab' : inv ab -> rtc step ab ab' -> inv ab'.
Proof. intros Hi Hs. induction Hs; eauto using step_inv. Qed.

Lemma reachable_inv cap ab : 1 <= cap <= USIZE_MAX -> reachable cap ab -> inv ab.
Proof.
  intros Hcap (ab0 & Hi & Hsteps). eauto using initial_inv, steps_inv.
Qed.

(** The system is symmetric in its two endpoints. *)
Lemma steps_swap ab ab' : rtc step ab ab' -> rtc step (ab.2, ab.1) (ab'.2, ab'.1).
Proof.
  induction 1 as [x|x y z Hs _ IH]; [done|]. eapply rtc_l; [|done].
  destruct Hs; simpl; by constructor.
Qed.

(** [receive] only fails on a full window. *)
Lemma receive_errors (s : stream) h d s' r :
  receive s h d = Val (s', r) ->
  match r with Ok _ => True | Err e => exists n, e = ReceiveWindowFull n end.
Proof.
  unfold receive, update_receiver_window.
  destruct (hdr_ack_num h); [by intros [= <- <-]|].
  case_bool_decide; [|by intros [= <- <-]].
  destruct (hdr_seqnum h) as [n|]; [|by intros [= <- <-]].
  destruct (BufferWindow.put _ _ _) as [rb' [u|[]]]; simpl; try (by intros [= <- <-]); [|intros [= <- <-]; eauto].
  destruct (BufferWindow.drain_front rb') as [[rb'' [[]|]]|]; simpl; by intros [= <- <-].
Qed.

(** ** Recovery from loss *)

Lemma deadline_exists (l : list (option (PendingPacket packet))) :
  exists now, forall q, Some q ∈ l -> should_transmit q now = true.
Proof.
  induction l as [|[q0|] l [now IH]].
  - exists 0. intros q Hq. by apply elem_of_nil in Hq.
  - exists (Z.max now (pp_next_send_at q0)). intros q [[= ->]|Hq]%elem_of_cons;
      unfold should_transmit; apply orb_true_iff.
    + right. apply Z.leb_le. lia.
    + specialize (IH q Hq). unfold should_transmit in IH. apply orb_true_iff in IH as [?|?%Z.leb_le]; [by left|].
      right. apply Z.leb_le. lia.
  - exists now. intros q [?|Hq]%elem_of_cons; [done|by apply IH].
Qed.

(** After one resend past every deadline, the whole send buffer is in the network. *)
Lemma resend_everything inbox a :
  sender_ok a ->
  exists a', act inbox a a' /\ ep_sent a' = ep_sent a /\ snd_left a' = snd_left a /\
    rb a' = rb a /\ ep_delivered a' = ep_delivered a /\
    zlen (BufferWindow.win_data (sb a')) = zlen (BufferWindow.win_data (sb a)) /\
    forall i p, payloads (sb a') !! i = Some (Some p) -> p ∈ ep_out a'.
Proof.
  intros Hs. destruct (deadline_exists (BufferWindow.win_data (sb a))) as [now Hnow].
  set (send := fun (w : list packet) (p : packet) => (p :: w, @Ok Z E now)).
  destruct (try_resend now send (ep_out a) (ep_stream a)) as [[w' s'] r] eqn:Ht.
  exists (mkEndpoint s' (ep_sent a) (ep_delivered a) w').
  assert (Hh : honest_resend send) by (by intros w p).
  destruct (sender_resend _ _ _ _ _ _ Hs Hh Ht) as (_ & Er & El).
  split; [by eapply act_resend|]. simpl. rewrite El.
  pose proof (so_wf _ Hs) as Hwf. unfold try_resend in Ht.
  pose proof (resend_loop_inv (fun _ => True) now send
    (seqZ (BufferWindow.left_bounds (sb a))
       (BufferWindow.max_seen_seqnum (sb a) - BufferWindow.left_bounds (sb a) + 1)) (ep_out a) (sb a)) as Hshape.
  pose proof (resend_loop_all (E := E) now
    (seqZ (BufferWindow.left_bounds (sb a))
       (BufferWindow.max_seen_seqnum (sb a) - BufferWindow.left_bounds (sb a) + 1)) (ep_out a) (sb a) Hnow) as Hall.
  fold send in Hall. destruct (resend_loop _ _ _ _ _) as [[w1 b1] r1]. injection Ht as <- <- <-.
  destruct Hshape as [_ Hsame]; [done|done|]. destruct Hall as [_ Hall].
  split_and!; try done; simpl.
  - unfold zlen. by rewrite (same_payloads_len _ _ Hsame).
  - intros i p. destruct Hsame as (_ & _ & ->). unfold payloads. rewrite list_lookup_fmap. intros Hi.
    destruct (BufferWindow.win_data (sb a) !! i) as [[q|]|] eqn:Hq; simplify_eq/=.
    pose proof (lookup_lt_Some _ _ _ Hq).
    apply (Hall (snd_left a + Z.of_nat i)).
    + rewrite BufferWindow.max_seen_seqnum_wf by done. unfold BufferWindow.left_bounds, zlen.
      apply elem_of_seqZ. lia.
    + rewrite BufferWindow.get_lookup by done. by rewrite Hq.
Qed.

(** The receiver takes a run of packets that starts at or before its left bound. *)
Lemma receive_run ps : forall a b n,
  inv (a, b) -> n <= rcv_left b ->
  (forall i p, ps !! i = Some p -> p ∈ ep_out a /\ pw_header p = data_header (n + Z.of_nat i)) ->
  exists b', rtc step (a, b) (a, b') /\ ep_sent b' = ep_sent b /\
    n + zlen ps <= rcv_left b' /\
    (ps <> [] \/ should_ack (ep_stream b) = true -> should_ack (ep_stream b') = true).
Proof.
  induction ps as [|p ps IH]; intros a b n Hinv Hn Hps.
  { exists b. rewrite zlen_nil. split_and!; [done|done|lia|]. by intros [?|?]. }
  destruct (Hps 0%nat p eq_refl) as [Hp Hh]. rewrite Z.add_0_r in Hh.
  destruct Hinv as [Hab Hba]. pose proof Hab as (Hsa & Hrb & Hle). simpl in *.
  assert (Hd : sent_at (ep_sent a) n = Some (pw_data p)).
  { destruct (so_out _ Hsa p Hp) as [(n' & Hh' & Hd)|(k & Hh' & _)]; rewrite Hh in Hh'; by simplify_eq. }
  destruct (receive_data _ b p n Hrb (so_bound _ Hsa) Hh Hd) as (s' & r & Hr & _ & _ & _ & Hlt).
  destruct (Hlt Hn) as [Hlt1 Hack].
  set (b1 := mkEndpoint s' (ep_sent b) (ep_delivered b ++ match r with Ok ds => ds | Err _ => [] end) (ep_out b)).
  assert (Hstep : step (a, b) (a, b1)) by (apply step_right; by eapply act_receive).
  assert (Hinv1 : inv (a, b1)) by (by apply (step_inv (a, b))).
  destruct (IH a b1 (n + 1) Hinv1) as (b' & Hsteps & Es & Hl & Hack'); [simpl; lia| |].
  { intros i q Hi. destruct (Hps (S i) q Hi) as [? ->]. split; [done|]. f_equal. lia. }
  exists b'. split_and!; [by eapply rtc_l | by rewrite Es | rewrite zlen_cons; lia |].
  intros _. apply Hack'. by right.
Qed.

Lemma omap_id_total {A} (l : list (option A)) :
  (forall o, o ∈ l -> is_Some o) -> l = Some <$> omap id l.
Proof.
  induction l as [|[x|] l IH]; intros Hall; csimpl; [done|..].
  - f_equal. apply IH. intros o Ho. apply Hall. by right.
  - destruct (Hall None) as [? ?]; [by left|done].
Qed.

(** Delivering everything that was sent, from any state of the invariant. *)
Lemma recovery a b :
  inv (a, b) ->
  exists a' b', rtc step (a, b) (a', b') /\ ep_sent a' = ep_sent a /\ ep_sent b' = ep_sent b /\
    ep_delivered b' = ep_sent a /\ send_len (ep_stream a') = 0.
Proof.
  intros Hinv. pose proof Hinv as [(Hsa & _ & Hle) _]. simpl in *.
  destruct (resend_everything (ep_out b) a Hsa) as (a1 & Hact & Es1 & El1 & _ & _ & Elen1 & Hout1).
  assert (Hstep1 : step (a, b) (a1, b)) by (by apply step_left).
  pose proof (step_inv _ _ Hinv Hstep1) as Hinv1.
  pose proof Hinv1 as [(Hsa1 & Hrb1 & Hle1) _]. simpl in *.
  set (ps := omap id (payloads (sb a1))).
  assert (Hps : payloads (sb a1) = Some <$> ps).
  { subst ps. apply omap_id_total. intros o [i Hi]%list_elem_of_lookup.
    destruct (so_data _ Hsa1 i o Hi) as (p & -> & _). eauto. }
  destruct (receive_run ps a1 b (snd_left a1) Hinv1 Hle1) as (b2 & Hsteps2 & Es2 & Hl2 & Hack2).
  { intros i p Hi. assert (Hi' : payloads (sb a1) !! i = Some (Some p)).
    { by rewrite Hps, list_lookup_fmap, Hi. }
    split; [by eapply Hout1|]. by destruct (so_data _ Hsa1 _ _ Hi') as (? & [= <-] & ? & _). }
  pose proof (steps_inv _ _ Hinv1 Hsteps2) as Hinv2.
  pose proof Hinv2 as [(_ & Hrb2 & _) (_ & _ & _)]. simpl in *.
  assert (Hlen : zlen ps = zlen (BufferWindow.win_data (sb a1))).
  { apply (f_equal length) in Hps. unfold payloads in Hps. rewrite !length_fmap in Hps.
    unfold zlen. by rewrite Hps. }
  pose proof (so_end _ Hsa1) as Hend. pose proof (ro_end _ _ Hrb2) as Hend2.
  pose proof (ro_left _ _ Hrb2) as Hleft2. unfold receive_end in Hend2.
  pose proof (zlen_nonneg (BufferWindow.win_data (rb b2))).
  assert (Hdel : ep_delivered b2 = ep_sent a1).
  { apply prefix_length_eq; [apply (ro_prefix _ _ Hrb2)|]. unfold zlen in *. lia. }
  destruct ps as [|p ps'] eqn:Eps.
  { exists a1, b2. rewrite <- Es1. split; [by eapply rtc_l|]. split; [done|]. split; [done|]. split; [done|].
    unfold send_len, BufferWindow.len. by rewrite <- Hlen. }
  set (send_ack := fun (w : list packet) h => (mkPacket h (pw_data p) :: w, @Ok unit E tt)).
  destruct (try_send_ack send_ack (ep_out b2) (ep_stream b2)) as [[w3 s3] r3] eqn:Ht.
  set (b3 := mkEndpoint s3 (ep_sent b2) (ep_delivered b2) w3).
  assert (Hstep3 : step (a1, b2) (a1, b3)).
  { apply step_right. eapply (act_ack _ _ send_ack); [|done]. intros w h. by exists (pw_data p). }
  pose proof (step_inv _ _ Hinv2 Hstep3) as Hinv3.
  unfold try_send_ack in Ht. rewrite Hack2 in Ht by (by left). simpl in Ht. injection Ht as <- <- <-.
  set (ack := mkPacket (mkMrpHeader None (Some (ack_seqnum (ep_stream b2))) None) (pw_data p)).
  assert (Hr : receive (ep_stream a1) (pw_header ack) (pw_data ack) =
    Val (update_send_window (ep_stream a1) (rcv_left b2), Ok [])) by done.
  eexists (mkEndpoint _ (ep_sent a1) _ (ep_out a1)), b3. split_and!.
  - eapply rtc_l; [done|]. etrans; [done|]. eapply rtc_l; [done|].
    apply rtc_once, step_left. eapply (act_receive _ _ ack); [|done]. simpl. by left.
  - done.
  - done.
  - simpl. by rewrite Hdel.
  - simpl. rewrite update_send_window_spec by apply (so_wf _ Hsa1).
    replace (rcv_left b2) with (snd_left a1 + zlen (BufferWindow.win_data (sb a1))) by lia.
    rewrite Z.ltb_irrefl. simpl. pose proof (zlen_nonneg (BufferWindow.win_data (sb a1))).
    destruct (Z.ltb_spec (snd_left a1 + zlen (BufferWindow.win_data (sb a1))) (snd_left a1)); [lia|].
    unfold send_len, BufferWindow.len. simpl. len_simpl. lia.
Qed.

(** The payloads in the send buffer, in the order of their sequence numbers. *)
Definition buffered (e : endpoint) : list D := pw_data <$> omap id (payloads (sb e)).

Lemma buffered_lookup e i d :
  sender_ok e -> buffered e !! i = Some d -> sent_at (ep_sent e) (snd_left e + Z.of_nat i) = Some d.
Proof.
  intros Hs. unfold buffered. rewrite list_lookup_fmap. intros Hi.
  assert (payloads (sb e) = Some <$> omap id (payloads (sb e))) as Hps.
  { apply omap_id_total. intros o [j Hj]%list_elem_of_lookup. destruct (so_data _ Hs j o Hj) as (p & -> & _). eauto. }
  destruct (omap id (payloads (sb e)) !! i) as [p|] eqn:Hp; [|done]. injection Hi as <-.
  destruct (so_data _ Hs i (Some p)) as (p' & [= <-] & Hh & n & Hh' & Hn); [by rewrite Hps, list_lookup_fmap, Hp|].
  rewrite Hh in Hh'. unfold data_header in Hh'. by injection Hh' as <-.
Qed.

Lemma buffered_length e : sender_ok e -> zlen (buffered e) = zlen (BufferWindow.win_data (sb e)).
Proof.
  intros Hs. assert (payloads (sb e) = Some <$> omap id (payloads (sb e))) as Hps.
  { apply omap_id_total. intros o [j Hj]%list_elem_of_lookup. destruct (so_data _ Hs j o Hj) as (p & -> & _). eauto. }
  apply (f_equal length) in Hps. unfold payloads in Hps at 1. rewrite !length_fmap in Hps.
  unfold buffered, zlen. by rewrite length_fmap, Hps.
Qed.

(** The buffer is what was sent without what was acknowledged. *)
Lemma buffered_suffix e :
  sender_ok e -> ep_sent e = take (Z.to_nat (snd_left e - 1)) (ep_sent e) ++ buffered e.
Proof.
  intros Hs. rewrite <- (take_drop (Z.to_nat (snd_left e - 1)) (ep_sent e)) at 1. f_equal. symmetry.
  pose proof (buffered_length e Hs) as Hlen. pose proof (so_end _ Hs) as Hend. pose proof (so_wf _ Hs) as (Hleft & _).
  apply list_eq_same_length with (n := length (buffered e)).
  - rewrite length_drop. unfold zlen in *. lia.
  - done.
  - intros i x y Hi Hx Hy. apply (buffered_lookup e i x Hs) in Hx. rewrite lookup_drop in Hy.
    unfold sent_at in Hx. destruct (Z.leb_spec 1 (snd_left e + Z.of_nat i)); [|done].
    replace (Z.to_nat (snd_left e + Z.of_nat i - 1)) with (Z.to_nat (snd_left e - 1) + i)%nat in Hx by lia. congruence.
Qed.

(** One direction: what [b] delivered is a prefix of what [a] sent, and what [a] sent is
    what was acknowledged, all of which [b] delivered, and then the buffer. *)
Lemma half_delivery a b :
  half a b ->
  ep_delivered b `prefix_of` ep_sent a /\
  exists acknowledged, ep_sent a = acknowledged ++ buffered a /\ acknowledged `prefix_of` ep_delivered b.
Proof.
  intros (Hs & Hb & Hle). split; [apply (ro_prefix _ _ Hb)|].
  exists (take (Z.to_nat (snd_left a - 1)) (ep_sent a)). split; [by apply buffered_suffix|].
  destruct (ro_prefix _ _ Hb) as [rest Hrest]. pose proof (ro_left _ _ Hb) as Hleft.
  rewrite Hrest, take_app_le by (unfold zlen in *; lia). apply prefix_take.
Qed.

(** C1. Reliable, ordered, exactly-once delivery: whatever the network loses,
    duplicates or reorders, the payloads an endpoint has received so far are
    exactly the first payloads its peer sent, in order and without repetition; and
    what was sent is a list of payloads that were all delivered, followed by exactly
    the payloads in the send buffer, so that nothing undelivered is ever dropped.  Both hold
    in both directions. *)
Theorem mrp_delivers_a_prefix cap (a b : endpoint) :
  1 <= cap <= USIZE_MAX -> reachable cap (a, b) ->
  (ep_delivered b `prefix_of` ep_sent a /\
   exists acknowledged, ep_sent a = acknowledged ++ buffered a /\ acknowledged `prefix_of` ep_delivered b) /\
  (ep_delivered a `prefix_of` ep_sent b /\
   exists acknowledged, ep_sent b = acknowledged ++ buffered b /\ acknowledged `prefix_of` ep_delivered a).
Proof. intros Hcap [Hab Hba]%reachable_inv; [|done]. split; by apply half_delivery. Qed.

(** C2. Loss is always recoverable: from any reachable state, without the
    application sending anything more, the retransmission and acknowledgement
    machinery can bring the system to a state where the peer has received
    everything that was sent and the send buffer is empty. *)
Theorem mrp_recovers_from_loss cap (a b : endpoint) :
  1 <= cap <= USIZE_MAX -> reachable cap (a, b) ->
  exists a' b', rtc step (a, b) (a', b') /\ ep_sent a' = ep_sent a /\ ep_sent b' = ep_sent b /\
    ep_delivered b' = ep_sent a /\ send_len (ep_stream a') = 0.
Proof. intros Hcap Hr. by eapply recovery, reachable_inv. Qed.

(** C37. No operation of a reachable endpoint panics: sending below the sequence
    number limit, whatever the closure does, and receiving any packet of the peer;
    and receiving only fails because the receive window is full. *)
Theorem mrp_never_panics cap (a b : endpoint) :
  1 <= cap <= USIZE_MAX -> reachable cap (a, b) ->
  (zlen (ep_sent a) < MAX_SENT ->
   forall send, exists x, try_send (E := E) send (ep_out a) (ep_stream a) = Val x) /\
  (forall p, p ∈ ep_out b -> exists s' r,
     receive (ep_stream a) (pw_header p) (pw_data p) = Val (s', r) /\
     match r with Ok _ => True | Err e => exists n, e = ReceiveWindowFull n end).
Proof.
  intros Hcap Hr. destruct (reachable_inv _ _ Hcap Hr) as [(Hs & _ & _) (Hsb & Ha & _)]. simpl in *.
  split.
  - intros Hmax send. rewrite try_send_spec; [|apply (so_wf _ Hs)|].
    + repeat case_match; eauto.
    + rewrite next_seqnum_wf by apply (so_wf _ Hs). pose proof (so_end _ Hs).
      unfold MAX_SENT, U64_MAX in *. lia.
  - intros p Hp. destruct (so_out _ Hsb p Hp) as [(n & Hh & Hd)|(k & Hh & _)].
    + destruct (receive_data _ a p n Ha (so_bound _ Hsb) Hh Hd) as (s' & r & Hrcv & _).
      exists s', r. split; [done|]. revert Hrcv. apply receive_errors.
    + unfold receive. rewrite Hh. simpl. eexists _, _. done.
Qed.

End Protocol.
Arguments endpoint : clear implicits.

(** ** A concrete run: two payloads, the second delivered first *)

Section Sample.

Definition sample_send (d : nat) (w : list (PacketWrapper nat)) (h : MrpHeader)
  : list (PacketWrapper nat) * result (PacketWrapper nat * Z) unit :=
  (mkPacket h d :: w, Ok (mkPacket h d, 1000)).

Lemma sample_send_honest d : honest_send d (sample_send d).
Proof. intros w h. split; done. Qed.

Lemma sample_run :
  exists a b : endpoint nat, reachable (E := unit) 4 (a, b) /\
    ep_sent a = [10; 20]%nat /\ ep_delivered b = [10; 20]%nat /\ ep_out a <> [] /\
    send_len (ep_stream a) = 2.
Proof.
  eexists _, _. split; [eexists; split; [eexists; split; reflexivity|]|].
  - eapply rtc_l; [apply step_left, (act_send _ _ 10%nat (sample_send 10)); [apply sample_send_honest|by vm_compute|reflexivity]|].
    eapply rtc_l; [apply step_left, (act_send _ _ 20%nat (sample_send 20)); [apply sample_send_honest|by vm_compute|reflexivity]|].
    eapply rtc_l; [apply step_right, (act_receive _ _ (mkPacket (data_header 2) 20%nat)); [by left|reflexivity]|].
    eapply rtc_l; [apply step_right, (act_receive _ _ (mkPacket (data_header 1) 10%nat)); [by right; left|reflexivity]|].
    apply rtc_refl.
  - done.
Qed.

End Sample.

Lemma mrp_delivers_a_prefix_witness :
  exists a b : endpoint nat, ep_delivered b <> [] /\ ep_delivered b `prefix_of` ep_sent a /\
    exists acknowledged, ep_sent a = acknowledged ++ buffered a.
Proof.
  destruct sample_run as (a & b & Hr & _ & Hd & _ & _). exists a, b. split; [by rewrite Hd|].
  destruct (mrp_delivers_a_prefix (E := unit) 4 a b) as [[Hp (acknowledged & Hs & _)] _];
    [vm_compute; split; discriminate | exact Hr |].
  split; [exact Hp|]. by exists acknowledged.
Defined.

Lemma mrp_recovers_from_loss_witness :
  exists a b a' b' : endpoint nat, reachable (E := unit) 4 (a, b) /\ send_len (ep_stream a) = 2 /\
    rtc (step (E := unit)) (a, b) (a', b') /\ send_len (ep_stream a') = 0.
Proof.
  destruct sample_run as (a & b & Hr & _ & _ & _ & Hlen).
  destruct (mrp_recovers_from_loss (E := unit) 4 a b) as (a' & b' & Hs & _ & _ & _ & H0);
    [vm_compute; split; discriminate | exact Hr |].
  exists a, b, a', b'. auto.
Defined.

Lemma mrp_never_panics_witness :
  exists (a b : endpoint nat) p s' r, p ∈ ep_out a /\
    receive (ep_stream b) (pw_header p) (pw_data p) = Val (s', r).
Proof.
  destruct sample_run as (a & b & Hr & _ & _ & Hout & _).
  destruct (ep_out a) as [|p out] eqn:Eout; [done|].
  destruct (mrp_never_panics (E := unit) 4 b a) as [_ H]; [vm_compute; split; discriminate | |].
  - destruct Hr as (ab0 & (s & Hs & ->) & Hsteps).
    exists (mkEndpoint s [] [] [], mkEndpoint s [] [] []). split; [by exists s|].
    by apply steps_swap in Hsteps.
  - destruct (H p) as (s' & r & Hrcv & _); [rewrite Eout; by left|].
    exists a, b, p, s', r. rewrite Eout. split; [by left|done].
Defined.

End Protocol.
