(* ===== verification/MrpFragments.v ===== *)
(** * Fragmented messages over MRP

    [try_send_fragmented] numbers the fragments of a message and announces their
    count in the first header; [receive_and_merge] reassembles them.  The file
    relates both to an explicit encoding of messages as packets: what the sender
    emits, and what the receiver makes of it however the packets become ready. *)

From S2P Require Import Prelude MrpWindow MrpMerge MrpStream.
Local Open Scope Z_scope.
Local Open Scope ringrtc_scope.

Module Fragments.
Import Stream.

(** The packets of one message whose first fragment has sequence number [n]. *)
Fixpoint encode_tail {D} (n : Z) (ds : list D) : list (PacketWrapper D) :=
  match ds with
  | [] => []
  | d :: ds => mkPacket (mkMrpHeader (Some n) None None) d :: encode_tail (n + 1) ds
  end.

Definition encode_message {D} (n : Z) (fragments : list D) : list (PacketWrapper D) :=
  match fragments with
  | [] => []
  | d :: ds =>
      mkPacket (mkMrpHeader (Some n) None (Some (zlen fragments))) d :: encode_tail (n + 1) ds
  end.

(** A sequence of messages, numbered consecutively. *)
Fixpoint encode {D} (n : Z) (msgs : list (list D)) : list (PacketWrapper D) :=
  match msgs with
  | [] => []
  | m :: msgs => encode_message n m ++ encode (n + zlen m) msgs
  end.

Section Sender.
Context {E SendData ReceiveData : Type}.
Abbreviation stream := (MrpStream SendData ReceiveData).

(** A transport that records the header and fragment of each transmission and
    buffers [pack idx header fragment] for retransmission until [deadline idx]. *)
Definition recording_send (pack : nat -> MrpHeader -> SendData -> SendData) (deadline : nat -> Z)
  (w : list (PacketWrapper SendData)) (idx : nat) (h : MrpHeader) (f : SendData)
  : list (PacketWrapper SendData) * (SendData * Z) :=
  (w ++ [mkPacket h f], (pack idx h f, deadline idx)).

Lemma send_fragments_tail pack deadline num : forall fragments idx w (s : stream),
  BufferWindow.wf (send_buffer s) ->
  send_len s + zlen fragments <= BufferWindow.capacity_limit (send_buffer s) ->
  next_seqnum s + zlen fragments < U64_MAX -> (0 < idx)%nat ->
  exists s', send_fragments (E := E) num (recording_send pack deadline) idx fragments w s =
      Val (w ++ encode_tail (next_seqnum s) fragments, s') /\
    BufferWindow.wf (send_buffer s') /\ send_len s' = send_len s + zlen fragments /\
    next_seqnum s' = next_seqnum s + zlen fragments /\
    BufferWindow.capacity_limit (send_buffer s') = BufferWindow.capacity_limit (send_buffer s).
Proof.
  induction fragments as [|f fs IH]; intros idx w s Hwf Hcap Hmax Hidx.
  { exists s. simpl. rewrite app_nil_r, zlen_nil. split_and!; done || lia. }
  rewrite zlen_cons in *. pose proof (zlen_nonneg fs). simpl.
  rewrite try_send_spec by (done || lia).
  unfold send_len, BufferWindow.len, BufferWindow.capacity_limit in *.
  unfold BufferWindow.is_full. destruct (Z.eqb_spec (zlen (BufferWindow.win_data (send_buffer s)))
    (BufferWindow.capacity_limit (send_buffer s))) as [Hf|_];
    [unfold BufferWindow.capacity_limit in Hf; lia|].
  rewrite bool_decide_false by lia. simpl.
  set (s1 := set_send_buffer _ s).
  assert (Hwf1 : BufferWindow.wf (send_buffer s1)).
  { rewrite next_seqnum_wf in Hmax by done. destruct Hwf as (? & ? & ? & ?).
    unfold BufferWindow.wf, s1, U64_MAX in *; simpl. len_simpl. lia. }
  assert (Hn1 : next_seqnum s1 = next_seqnum s + 1).
  { rewrite !next_seqnum_wf by done. unfold s1; simpl. len_simpl. lia. }
  destruct (IH (S idx) (w ++ [mkPacket (mkMrpHeader (Some (next_seqnum s)) None None) f]) s1 Hwf1)
    as (s' & Hs' & Hwf' & Hl' & Hn' & Hc').
  - unfold s1; simpl. len_simpl. lia.
  - lia.
  - lia.
  - exists s'. rewrite Hn1, <- app_assoc in Hs'. simpl in Hs'.
    split; [exact Hs'|]. split; [done|].
    unfold s1 in Hl', Hc'; simpl in Hl', Hc'. len_simpl. split_and!; [lia|lia|done].
Qed.

(** Sending one message, when the window has room for all its fragments. *)
Lemma send_message pack deadline f fs w (s : stream) :
  BufferWindow.wf (send_buffer s) ->
  send_len s + zlen (f :: fs) < BufferWindow.capacity_limit (send_buffer s) ->
  next_seqnum s + zlen (f :: fs) < U64_MAX -> zlen (f :: fs) <= U32_MAX ->
  exists s', try_send_fragmented (E := E) (f :: fs) (recording_send pack deadline) w s =
      Val (w ++ encode_message (next_seqnum s) (f :: fs), s', Ok tt) /\
    BufferWindow.wf (send_buffer s') /\ send_len s' = send_len s + zlen (f :: fs) /\
    next_seqnum s' = next_seqnum s + zlen (f :: fs) /\
    BufferWindow.capacity_limit (send_buffer s') = BufferWindow.capacity_limit (send_buffer s).
Proof.
  intros Hwf Hcap Hmax Hu32. unfold try_send_fragmented.
  pose proof (zlen_nonneg fs). pose proof (zlen_nonneg (BufferWindow.win_data (send_buffer s))) as Hnn.
  unfold send_len in *. rewrite u64_add_small.
  2: { destruct Hwf as (? & ? & ? & ?). unfold BufferWindow.capacity_limit, BufferWindow.len, USIZE_MAX, U64_MAX in *.
       rewrite zlen_cons in *. lia. }
  destruct (Z.leb_spec (BufferWindow.capacity_limit (send_buffer s))
    (BufferWindow.len (send_buffer s) + zlen (f :: fs))); [lia|].
  assert (Hnum : as_u32 (zlen (f :: fs)) = zlen (f :: fs)).
  { apply wrap_small. unfold U32_MAX in *. rewrite zlen_cons in *. lia. }
  rewrite Hnum. rewrite zlen_cons in Hcap, Hmax. simpl.
  rewrite try_send_spec by (done || lia).
  unfold BufferWindow.len, BufferWindow.capacity_limit, BufferWindow.is_full in *.
  destruct (Z.eqb_spec (zlen (BufferWindow.win_data (send_buffer s)))
    (BufferWindow.capacity_limit (send_buffer s))) as [Hf|_];
    [unfold BufferWindow.capacity_limit in Hf; lia|]. simpl.
  set (s1 := set_send_buffer _ s).
  assert (Hwf1 : BufferWindow.wf (send_buffer s1)).
  { rewrite next_seqnum_wf in Hmax by done. destruct Hwf as (? & ? & ? & ?).
    unfold BufferWindow.wf, s1, U64_MAX in *; simpl. len_simpl. lia. }
  assert (Hn1 : next_seqnum s1 = next_seqnum s + 1).
  { rewrite !next_seqnum_wf by done. unfold s1; simpl. len_simpl. lia. }
  destruct (send_fragments_tail pack deadline (zlen (f :: fs)) fs 1
     (w ++ [mkPacket (mkMrpHeader (Some (next_seqnum s)) None (Some (zlen (f :: fs)))) f]) s1 Hwf1)
    as (s' & Hs' & Hwf' & Hl' & Hn' & Hc').
  - unfold send_len, BufferWindow.len, BufferWindow.capacity_limit, s1; simpl. len_simpl. lia.
  - lia.
  - lia.
  - exists s'. rewrite Hs'. simpl. rewrite Hn1, <- app_assoc. split; [done|]. split; [done|].
    unfold send_len, BufferWindow.len, s1 in *; simpl in *. len_simpl. split_and!; [lia|lia|done].
Qed.

(** Send a list of messages in order, stopping at the first refusal. *)
Fixpoint send_messages (send : list (PacketWrapper SendData) -> nat -> MrpHeader -> SendData ->
                               list (PacketWrapper SendData) * (SendData * Z))
  (msgs : list (list SendData)) (w : list (PacketWrapper SendData)) (s : stream)
  : outcome (list (PacketWrapper SendData) * stream * result unit (MrpSendError E)) :=
  match msgs with
  | [] => Val (w, s, Ok tt)
  | m :: msgs =>
      wsr ← try_send_fragmented (E := E) m send w s;
      let '(w, s, r) := wsr in
      match r with
      | Ok _ => send_messages send msgs w s
      | Err e => Val (w, s, Err e)
      end
  end.

Lemma send_messages_encode pack deadline : forall msgs w (s : stream),
  BufferWindow.wf (send_buffer s) -> Forall (fun m => m <> []) msgs ->
  Forall (fun m => zlen m <= U32_MAX) msgs ->
  send_len s + zlen (concat msgs) < BufferWindow.capacity_limit (send_buffer s) ->
  next_seqnum s + zlen (concat msgs) < U64_MAX ->
  exists s', send_messages (recording_send pack deadline) msgs w s =
    Val (w ++ encode (next_seqnum s) msgs, s', Ok tt).
Proof.
  induction msgs as [|[|f fs] msgs IH]; intros w s Hwf Hne Hu32 Hcap Hmax.
  - exists s. simpl. by rewrite app_nil_r.
  - by inversion Hne.
  - apply Forall_cons in Hne as [_ Hne]. apply Forall_cons in Hu32 as [Hu Hu32].
    change (concat ((f :: fs) :: msgs)) with ((f :: fs) ++ concat msgs) in *.
    rewrite zlen_app in Hcap, Hmax. pose proof (zlen_nonneg (concat msgs)).
    destruct (send_message pack deadline f fs w s Hwf) as (s1 & Hs1 & Hwf1 & Hl1 & Hn1 & Hc1); [lia..|done|].
    destruct (IH (w ++ encode_message (next_seqnum s) (f :: fs)) s1) as (s' & Hs'); try done.
    + rewrite Hl1, Hc1. lia.
    + lia.
    + exists s'. cbn [send_messages encode]. rewrite Hs1. unfold mbind, outcome_bind.
      rewrite Hs', Hn1. by rewrite <- app_assoc.
Qed.

End Sender.

(** ** The receiver *)

Section Receiver.
Context {SendData R : Type} `{Extend R}.
Abbreviation stream := (MrpStream SendData R).
Implicit Types (s : stream).

(** The value of a message: its first fragment extended by the others. *)
Definition assembled (m : list R) : option R :=
  match m with
  | [] => None
  | [d] => Some d
  | d :: ds => Some (extend d ds)
  end.

(** No message is being reassembled, and none that was abandoned extends to [n]. *)
Definition idle s (n : Z) : Prop :=
  merge_buffer s = None /\ match merge_end_seqnum s with Some e => e < n | None => True end.

(** Case analysis on one iteration of the loop. *)
Ltac merge_cases :=
  match goal with
  | |- context [MergeBuffer.merge ?b] => destruct (MergeBuffer.merge b); simpl; try done
  | |- context [unwrap ?o] => destruct (unwrap o); simpl; try done
  | _ => case_match; simpl; try done
  end.

(** The loop only appends to its result. *)
Lemma merge_loop_acc ps : forall s acc,
  merge_loop s ps acc =
    (sr ← merge_loop s ps [];
     let '(s', r) := sr in
     Val (s', match r with Ok out => Ok (acc ++ out) | Err e => Err e end)).
Proof.
  induction ps as [|[h d] ps IH]; intros s acc; simpl; [by rewrite app_nil_r|].
  repeat merge_cases; try (by apply IH).
  all: rewrite (IH _ (acc ++ _)), (IH _ [_]); destruct (merge_loop _ ps []) as [[s' [out|e]]|];
    simpl; by rewrite <- ?app_assoc.
Qed.

Lemma merge_loop_app qs : forall ps s acc s1 out,
  merge_loop s ps acc = Val (s1, Ok out) ->
  merge_loop s (ps ++ qs) acc = merge_loop s1 qs out.
Proof.
  induction ps as [|[h d] ps IH]; intros s acc s1 out; simpl; [by intros [= <- <-]|].
  repeat merge_cases; by apply IH.
Qed.

(** The fragments after the first, once the merge buffer is open. *)
Lemma merge_tail rest : forall ds n s d0 pre acc,
  merge_buffer s = Some (MergeBuffer.mkMergeBuffer (d0 :: pre) (zlen (d0 :: pre) + zlen ds)) ->
  ds <> [] ->
  merge_loop s (encode_tail n ds ++ rest) acc =
    merge_loop (set_merge_buffer None s) rest (acc ++ [extend d0 (pre ++ ds)]).
Proof.
  induction ds as [|d ds IH]; intros n s d0 pre acc Hb Hne; [done|]. clear Hne.
  rewrite (zlen_cons d ds) in Hb. pose proof (zlen_nonneg ds). simpl. rewrite Hb.
  replace (match merge_end_seqnum s with Some _ | _ => false end) with false by (by case_match).
  rewrite MergeBuffer.push_room by (cbn [MergeBuffer.mb_data MergeBuffer.mb_content_length]; lia).
  cbn [MergeBuffer.mb_data MergeBuffer.mb_content_length].
  destruct ds as [|d' ds].
  - replace (zlen (d0 :: pre) + 1 =? _) with true by (symmetry; apply Z.eqb_eq; rewrite zlen_nil; lia).
    change ((d0 :: pre) ++ [d]) with (d0 :: (pre ++ [d])).
    rewrite MergeBuffer.merge_complete by (rewrite !zlen_cons, zlen_app, zlen_cons, zlen_nil; lia).
    done.
  - replace (zlen (d0 :: pre) + 1 =? _) with false
      by (symmetry; apply Z.eqb_neq; rewrite !zlen_cons; pose proof (zlen_nonneg ds); lia).
    rewrite (IH (n + 1) _ d0 (pre ++ [d])); [|simpl|done].
    + by rewrite <- app_assoc.
    + do 2 f_equal. rewrite !zlen_cons, zlen_app, zlen_cons, zlen_nil. lia.
Qed.

(** One whole message in front of other packets. *)
Lemma merge_message s n m v rest acc :
  idle s n -> assembled m = Some v -> 0 <= n -> n + zlen m < U64_MAX ->
  zlen m <= BufferWindow.capacity_limit (receive_buffer s) ->
  exists s', merge_loop s (encode_message n m ++ rest) acc = merge_loop s' rest (acc ++ [v]) /\
    idle s' (n + zlen m) /\ receive_buffer s' = receive_buffer s.
Proof.
  intros [Hb He] Hv Hn Hmax Hcap. destruct m as [|d ds]; [done|].
  pose proof (zlen_nonneg ds). rewrite zlen_cons in Hmax, Hcap.
  cbn [encode_message app merge_loop hdr_seqnum hdr_num_packets]. rewrite Hb.
  replace (match merge_end_seqnum s with Some e => negb (e <? n) | None => false end) with false.
  2: { destruct (merge_end_seqnum s); [|done]. symmetry. apply negb_false_iff, Z.ltb_lt. done. }
  destruct ds as [|d1 ds].
  - injection Hv as <-. exists s. split; [done|]. split; [|done]. split; [done|].
    destruct (merge_end_seqnum s); [|done]. rewrite zlen_cons, zlen_nil. lia.
  - injection Hv as <-. rewrite (zlen_cons d), (zlen_cons d1) in *. pose proof (zlen_nonneg ds).
    destruct (Z.leb_spec (zlen ds + 1 + 1) 1); [lia|].
    destruct (Z.ltb_spec (BufferWindow.capacity_limit (receive_buffer s)) (zlen ds + 1 + 1)); [lia|].
    unfold MergeBuffer.new. destruct (Z.eqb_spec (zlen ds + 1 + 1) 0); [lia|].
    cbn [unwrap mbind outcome_bind]. unfold mbind, outcome_bind.
    rewrite MergeBuffer.push_room by (cbn [MergeBuffer.mb_data MergeBuffer.mb_content_length]; rewrite zlen_nil; lia).
    cbn [MergeBuffer.mb_data MergeBuffer.mb_content_length app].
    unfold U64_MAX in *. rewrite u64_add_sub_small by lia.
    rewrite (merge_tail rest (d1 :: ds) (n + 1) _ d []); [|simpl|done].
    + eexists. split; [done|]. split; [|done]. split; [done|]. simpl. lia.
    + do 2 f_equal. rewrite !zlen_cons, zlen_nil. lia.
Qed.

Lemma merge_encode : forall msgs vs s n,
  idle s n -> assembled <$> msgs = Some <$> vs -> 0 <= n -> n + zlen (concat msgs) < U64_MAX ->
  Forall (fun m => zlen m <= BufferWindow.capacity_limit (receive_buffer s)) msgs ->
  exists s', merge_loop s (encode n msgs) [] = Val (s', Ok vs) /\
    idle s' (n + zlen (concat msgs)) /\ receive_buffer s' = receive_buffer s.
Proof.
  induction msgs as [|m msgs IH]; intros [|v vs] s n Hi Hv Hn Hmax Hcap; try done.
  { exists s. simpl. rewrite zlen_nil, Z.add_0_r. done. }
  change (concat (m :: msgs)) with (m ++ concat msgs) in *. rewrite zlen_app in *.
  apply Forall_cons in Hcap as [Hc1 Hcap]. injection Hv as Hv1 Hv.
  pose proof (zlen_nonneg m). pose proof (zlen_nonneg (concat msgs)).
  destruct (merge_message s n m v (encode (n + zlen m) msgs) [] Hi Hv1) as (s1 & E1 & Hi1 & Er1); [lia..|done|].
  destruct (IH vs s1 (n + zlen m) Hi1 Hv) as (s2 & E2 & Hi2 & Er2); [lia|lia|by rewrite Er1|].
  exists s2. cbn [encode]. rewrite E1, merge_loop_acc, E2. simpl.
  split; [done|]. split; [by rewrite Z.add_assoc|congruence].
Qed.

(** Feed the packets batch by batch, as they become ready, and collect what the
    application gets. *)
Fixpoint merge_batches s (batches : list (list (PacketWrapper R)))
  : outcome (stream * result (list R) MrpReceiveError) :=
  match batches with
  | [] => Val (s, Ok [])
  | b :: batches =>
      sr ← merge_packets s b;
      let '(s', r) := sr in
      match r with
      | Err e => Val (s', Err e)
      | Ok out =>
          sr' ← merge_batches s' batches;
          let '(s'', r') := sr' in
          Val (s'', match r' with Ok out' => Ok (out ++ out') | Err e => Err e end)
      end
  end.

Lemma merge_loop_prefix qs : forall ps s acc s' out,
  merge_loop s (ps ++ qs) acc = Val (s', Ok out) ->
  exists s1 out1, merge_loop s ps acc = Val (s1, Ok out1).
Proof.
  induction ps as [|[h d] ps IH]; intros s acc s' out; simpl; [eauto|].
  repeat merge_cases; by apply IH.
Qed.

Lemma merge_batches_concat : forall batches s s' out,
  merge_loop s (concat batches) [] = Val (s', Ok out) -> merge_batches s batches = Val (s', Ok out).
Proof.
  induction batches as [|b batches IH]; intros s s' out; [done|].
  change (concat (b :: batches)) with (b ++ concat batches). intros Hm.
  destruct (merge_loop_prefix _ _ _ _ _ _ Hm) as (s1 & out1 & H1).
  rewrite (merge_loop_app _ _ _ _ _ _ H1), merge_loop_acc in Hm.
  destruct (merge_loop s1 (concat batches) []) as [[s2 [out2|e]]|] eqn:H2; try done.
  simpl in Hm. injection Hm as <- <-.
  cbn [merge_batches]. unfold merge_packets. rewrite H1. unfold mbind, outcome_bind.
  by rewrite (IH _ _ _ H2).
Qed.

End Receiver.

(** C38. Fragmented messages survive the trip: a sender that pushes messages through
    [try_send_fragmented] emits packets which the receiver turns back into exactly
    those messages, in order and without error, however the packets are grouped
    when they become ready (as long as they become ready in sequence order, which
    the window guarantees). *)
Theorem fragmented_messages_roundtrip {E R : Type} `{Extend R}
    (pack : nat -> MrpHeader -> R -> R) (deadline : nat -> Z)
    (snd rcv : MrpStream R R) (msgs : list (list R)) (vs : list R) :
  BufferWindow.wf (send_buffer snd) ->
  idle rcv (next_seqnum snd) ->
  assembled <$> msgs = Some <$> vs ->
  Forall (fun m => zlen m <= U32_MAX) msgs ->
  Forall (fun m => zlen m <= BufferWindow.capacity_limit (receive_buffer rcv)) msgs ->
  send_len snd + zlen (concat msgs) < BufferWindow.capacity_limit (send_buffer snd) ->
  next_seqnum snd + zlen (concat msgs) < U64_MAX ->
  exists packets snd',
    send_messages (E := E) (recording_send pack deadline) msgs [] snd = Val (packets, snd', Ok tt) /\
    forall batches, concat batches = packets ->
      exists rcv', merge_batches rcv batches = Val (rcv', Ok vs).
Proof.
  intros Hwf Hi Hv Hu Hc Hcap Hmax.
  assert (Hne : Forall (fun m => m <> []) msgs).
  { apply Forall_forall. intros m Hm ->. apply (list_elem_of_fmap_2 assembled) in Hm.
    rewrite Hv in Hm. by apply list_elem_of_fmap in Hm as (? & ? & _). }
  destruct (send_messages_encode (E := E) pack deadline msgs [] snd) as (snd' & Hs); try done.
  exists (encode (next_seqnum snd) msgs), snd'. split; [done|]. intros batches Hb.
  assert (Hn0 : 0 <= next_seqnum snd).
  { rewrite next_seqnum_wf by done. destruct Hwf as (? & _).
    pose proof (zlen_nonneg (BufferWindow.win_data (send_buffer snd))). lia. }
  destruct (merge_encode msgs vs rcv _ Hi Hv Hn0 Hmax Hc) as (rcv' & Hm & _).
  exists rcv'. apply merge_batches_concat. by rewrite Hb.
Qed.

#[local] Instance bytes_extend : Extend (list nat) := fun x xs => x ++ concat xs.

Definition sample_stream : MrpStream (list nat) (list nat) :=
  mkStream false (BufferWindow.mkBufferWindow 1 [] 16) (BufferWindow.mkBufferWindow 1 [] 16) None None.

Lemma fragmented_messages_roundtrip_witness :
  exists packets snd',
    send_messages (E := unit) (recording_send (fun _ _ f => f) (fun _ => 0))
      [[[1; 2]; [3]]; [[4]]]%nat [] sample_stream = Val (packets, snd', Ok tt) /\
    forall batches, concat batches = packets ->
      exists rcv', merge_batches sample_stream batches = Val (rcv', Ok [[1; 2; 3]; [4]]%nat).
Proof.
  apply (fragmented_messages_roundtrip (E := unit) (fun _ _ f => f) (fun _ => 0)
           sample_stream sample_stream [[[1; 2]; [3]]; [[4]]]%nat [[1; 2; 3]; [4]]%nat).
  - unfold BufferWindow.wf, USIZE_MAX, U64_MAX; simpl; rewrite zlen_nil; lia.
  - split; reflexivity.
  - reflexivity.
  - repeat constructor; vm_compute; discriminate.
  - repeat constructor; vm_compute; discriminate.
  - vm_compute. reflexivity.
  - vm_compute. reflexivity.
Defined.

End Fragments.
