(* ===== verification/States.v ===== *)
(** * Shared data of direct calls (src/rust/src/common/mod.rs, common/units.rs)

    The states of calls and connections with the predicates the state machines
    branch on, the reasons and events reported to the application, data rates
    and the data mode.  The predicates are written state by state, as in the
    source. *)

From S2P Require Import Prelude.
Local Open Scope Z_scope.

(** [CallId] is a [u64], [DeviceId] a [u32]. *)
Definition CallId : Type := Z.
Definition DeviceId : Type := Z.
#[global] Instance CallId_eq_dec : EqDecision CallId := Z.eq_dec.
#[global] Instance DeviceId_eq_dec : EqDecision DeviceId := Z.eq_dec.
#[global] Instance DeviceId_countable : Countable DeviceId := Z_countable.

(** ** Errors (error/mod.rs)

    The crate's own errors, and any other error as [Anyhow]. *)

Module RingRtcError.

Inductive RingRtcError : Type :=
| MutexPoisoned (_ : string)
| RwLockPoisoned (_ : string)
| NullPointer (_ : string) (_ : string)
| OptionValueNotSet (_ : string) (_ : string)
| RegisterActor
| CallAlreadyInProgress (_ : CallId)
| CallManagerIsBusy
| NoActiveCall
| CallIdNotFound (_ : CallId)
| ConnectionNotFound (_ : DeviceId)
| ActiveDeviceIdAlreadySet (_ : DeviceId)
| ActiveMediaStreamAlreadySet (_ : DeviceId)
| PendingCallAlreadySet (_ : DeviceId)
| AppConnectionAlreadySet (_ : DeviceId)
| AppCallContextAlreadySet (_ : CallId)
| ClientAlreadyExistsForCall
| CreatePeerConnectionObserver
| CreateRtpObserver
| CreatePeerConnectionFactory
| CreatePeerConnection
| UpdateTransceivers
| CreateVideoSource
| CreateVideoTrack
| CreateAudioTrack
| QueryAudioDevices
| SetAudioDevice
| CreateSessionDescriptionObserver (_ : string) (_ : Z)
| CreateSessionDescriptionObserverResult (_ : string)
| SetSessionDescriptionObserver (_ : string) (_ : Z)
| SetSessionDescriptionObserverResult (_ : string)
| AddIceCandidate
| ToSdp
| MungeSdp
| UnknownSignaledProtocolVersion
| RtpDataProtocol (_ : string)
| SendRtp
| ReceiveRtp
| UseIceGatherer
| CreateIceGatherer
| UnexpectedResponseCodeFromSFu (_ : Z)
| SfuClientRequestFailed
| GroupCallFull
| FrameCounterTooBig
| FailedToEncrypt
| FailedToDecrypt
| SrtpKeyNegotiationFailure
| InvalidRemoteSrtpKey
| BufferTooSmall
| Anyhow (_ : string).

#[global] Instance RingRtcError_eq_dec : EqDecision RingRtcError.
Proof. solve_decision. Defined.

End RingRtcError.

Notation Error := RingRtcError.RingRtcError.

(** ** [CallState] *)

Module CallState.

Inductive CallState : Type :=
| NotYetStarted
| WaitingToProceed
| ConnectingBeforeAccepted
| ConnectingAfterAccepted
| ConnectedBeforeAccepted
| ConnectedAndAccepted
| ReconnectingAfterAccepted
| Terminating
| Terminated.

#[global] Instance CallState_eq_dec : EqDecision CallState.
Proof. solve_decision. Defined.

(** [#[derive(PartialOrd)]]: the order of the declaration. *)
Definition discriminant (self : CallState) : Z :=
  match self with
  | NotYetStarted => 0
  | WaitingToProceed => 1
  | ConnectingBeforeAccepted => 2
  | ConnectingAfterAccepted => 3
  | ConnectedBeforeAccepted => 4
  | ConnectedAndAccepted => 5
  | ReconnectingAfterAccepted => 6
  | Terminating => 7
  | Terminated => 8
  end.
Definition at_least (self other : CallState) : bool := (discriminant other <=? discriminant self)%Z.

Definition can_receive_ice_candidates (self : CallState) : bool :=
  match self with
  | NotYetStarted => false
  | WaitingToProceed => true
  | ConnectingBeforeAccepted => true
  | ConnectingAfterAccepted => true
  | ConnectedBeforeAccepted => true
  | ConnectedAndAccepted => true
  | ReconnectingAfterAccepted => true
  | Terminating => false
  | Terminated => false
  end.

Definition connected_or_reconnecting (self : CallState) : bool :=
  match self with
  | NotYetStarted => false
  | WaitingToProceed => false
  | ConnectingBeforeAccepted => false
  | ConnectingAfterAccepted => false
  | ConnectedBeforeAccepted => true
  | ConnectedAndAccepted => true
  | ReconnectingAfterAccepted => true
  | Terminating => false
  | Terminated => false
  end.

Definition can_be_accepted_locally (self : CallState) : bool :=
  match self with
  | NotYetStarted => false
  | WaitingToProceed => false
  | ConnectingBeforeAccepted => false
  | ConnectingAfterAccepted => false
  | ConnectedBeforeAccepted => true
  | ConnectedAndAccepted => false
  | ReconnectingAfterAccepted => false
  | Terminating => false
  | Terminated => false
  end.

Definition active (self : CallState) : bool :=
  match self with
  | NotYetStarted => false
  | WaitingToProceed => false
  | ConnectingBeforeAccepted => false
  | ConnectingAfterAccepted => false
  | ConnectedBeforeAccepted => false
  | ConnectedAndAccepted => true
  | ReconnectingAfterAccepted => true
  | Terminating => false
  | Terminated => false
  end.

Definition accepted (self : CallState) : bool :=
  match self with
  | NotYetStarted => false
  | WaitingToProceed => false
  | ConnectingBeforeAccepted => false
  | ConnectedBeforeAccepted => false
  | ConnectingAfterAccepted => true
  | ConnectedAndAccepted => true
  | ReconnectingAfterAccepted => true
  | Terminating => false
  | Terminated => false
  end.

Definition can_send_hangup_via_rtp (self : CallState) : bool :=
  match self with
  | NotYetStarted => false
  | WaitingToProceed => true
  | ConnectingBeforeAccepted => true
  | ConnectingAfterAccepted => true
  | ConnectedBeforeAccepted => true
  | ConnectedAndAccepted => true
  | ReconnectingAfterAccepted => true
  | Terminating => true
  | Terminated => true
  end.

Definition should_propagate_hangup (self : CallState) : bool :=
  match self with
  | NotYetStarted => false
  | WaitingToProceed => true
  | ConnectingBeforeAccepted => true
  | ConnectedBeforeAccepted => true
  | ConnectingAfterAccepted => false
  | ConnectedAndAccepted => false
  | ReconnectingAfterAccepted => false
  | Terminating => false
  | Terminated => false
  end.

Definition can_be_terminated_remotely (self : CallState) : bool :=
  match self with
  | NotYetStarted => false
  | WaitingToProceed => true
  | ConnectingBeforeAccepted => true
  | ConnectingAfterAccepted => true
  | ConnectedBeforeAccepted => true
  | ConnectedAndAccepted => true
  | ReconnectingAfterAccepted => true
  | Terminating => false
  | Terminated => false
  end.

Definition terminating_or_terminated (self : CallState) : bool :=
  match self with
  | NotYetStarted => false
  | WaitingToProceed => false
  | ConnectingBeforeAccepted => false
  | ConnectingAfterAccepted => false
  | ConnectedBeforeAccepted => false
  | ConnectedAndAccepted => false
  | ReconnectingAfterAccepted => false
  | Terminating => true
  | Terminated => true
  end.

End CallState.

(** ** [ConnectionState] *)

Module ConnectionState.

Inductive ConnectionState : Type :=
| NotYetStarted
| Starting
| IceGathering
| ConnectingBeforeAccepted
| ConnectingAfterAccepted
| ConnectedBeforeAccepted
| IceFailed
| ConnectedAndAccepted
| ReconnectingAfterAccepted
| Terminating
| Terminated.

#[global] Instance ConnectionState_eq_dec : EqDecision ConnectionState.
Proof. solve_decision. Defined.

Definition can_send_ice_candidates (self : ConnectionState) : bool :=
  match self with
  | NotYetStarted => false
  | Starting => true
  | IceGathering => true
  | ConnectingBeforeAccepted => true
  | ConnectingAfterAccepted => true
  | ConnectedBeforeAccepted => true
  | ConnectedAndAccepted => true
  | ReconnectingAfterAccepted => true
  | IceFailed => true
  | Terminating => false
  | Terminated => false
  end.

Definition can_receive_ice_candidates (self : ConnectionState) : bool :=
  match self with
  | NotYetStarted => false
  | Starting => false
  | IceGathering => false
  | ConnectingBeforeAccepted => true
  | ConnectingAfterAccepted => true
  | ConnectedBeforeAccepted => true
  | ConnectedAndAccepted => true
  | ReconnectingAfterAccepted => true
  | IceFailed => false
  | Terminating => false
  | Terminated => false
  end.

Definition connecting_or_connected (self : ConnectionState) : bool :=
  match self with
  | NotYetStarted => false
  | Starting => false
  | IceGathering => false
  | ConnectingBeforeAccepted => true
  | ConnectingAfterAccepted => true
  | ConnectedBeforeAccepted => true
  | ConnectedAndAccepted => true
  | ReconnectingAfterAccepted => true
  | IceFailed => false
  | Terminating => false
  | Terminated => false
  end.

Definition connected_or_reconnecting (self : ConnectionState) : bool :=
  match self with
  | NotYetStarted => false
  | Starting => false
  | IceGathering => false
  | ConnectingBeforeAccepted => false
  | ConnectingAfterAccepted => false
  | ConnectedBeforeAccepted => true
  | ConnectedAndAccepted => true
  | ReconnectingAfterAccepted => true
  | IceFailed => false
  | Terminating => false
  | Terminated => false
  end.

Definition can_be_accepted_locally (self : ConnectionState) : bool :=
  match self with
  | NotYetStarted => false
  | Starting => false
  | IceGathering => false
  | ConnectingBeforeAccepted => true
  | ConnectingAfterAccepted => false
  | ConnectedBeforeAccepted => true
  | ConnectedAndAccepted => false
  | ReconnectingAfterAccepted => true
  | IceFailed => false
  | Terminating => false
  | Terminated => false
  end.

Definition active (self : ConnectionState) : bool :=
  match self with
  | NotYetStarted => false
  | Starting => false
  | IceGathering => false
  | ConnectingBeforeAccepted => false
  | ConnectingAfterAccepted => false
  | ConnectedBeforeAccepted => false
  | ConnectedAndAccepted => true
  | ReconnectingAfterAccepted => true
  | IceFailed => false
  | Terminating => false
  | Terminated => false
  end.

Definition can_send_hangup_via_rtp (self : ConnectionState) : bool :=
  match self with
  | NotYetStarted => false
  | Starting => true
  | IceGathering => true
  | ConnectingBeforeAccepted => true
  | ConnectingAfterAccepted => true
  | ConnectedBeforeAccepted => true
  | ConnectedAndAccepted => true
  | ReconnectingAfterAccepted => true
  | IceFailed => true
  | Terminating => true
  | Terminated => true
  end.

Definition terminating_or_terminated (self : ConnectionState) : bool :=
  match self with
  | NotYetStarted => false
  | Starting => false
  | IceGathering => false
  | ConnectingBeforeAccepted => false
  | ConnectingAfterAccepted => false
  | ConnectedBeforeAccepted => false
  | ConnectedAndAccepted => false
  | ReconnectingAfterAccepted => false
  | IceFailed => false
  | Terminating => true
  | Terminated => true
  end.

End ConnectionState.

(** ** Reasons and events for the application *)

Module CallEndReason.

Inductive CallEndReason : Type :=
| LocalHangup
| RemoteHangup
| RemoteHangupNeedPermission
| RemoteHangupAccepted
| RemoteHangupDeclined
| RemoteHangupBusy
| RemoteBusy
| RemoteGlare
| RemoteReCall
| Timeout
| InternalFailure
| SignalingFailure
| ConnectionFailure
| AppDroppedCall
| DeviceExplicitlyDisconnected
| ServerExplicitlyDisconnected
| DeniedRequestToJoinCall
| RemovedFromCall
| CallManagerIsBusy
| SfuClientFailedToJoin
| FailedToCreatePeerConnectionFactory
| FailedToNegotiatedSrtpKeys
| FailedToCreatePeerConnection
| FailedToStartPeerConnection
| FailedToUpdatePeerConnection
| FailedToSetMaxSendBitrate
| IceFailedWhileConnecting
| IceFailedAfterConnected
| ServerChangedDemuxId
| HasMaxDevices.

#[global] Instance CallEndReason_eq_dec : EqDecision CallEndReason.
Proof. solve_decision. Defined.

End CallEndReason.

Module ApplicationEvent.

Inductive ApplicationEvent : Type :=
| LocalRinging
| RemoteRinging
| LocalAccepted
| RemoteAccepted
| RemoteAudioEnable
| RemoteAudioDisable
| RemoteVideoEnable
| RemoteVideoDisable
| RemoteSharingScreenEnable
| RemoteSharingScreenDisable
| Reconnecting
| Reconnected
| GlareHandlingFailure
| ReceivedOfferExpired
| ReceivedOfferWhileActive
| ReceivedOfferWithGlare.

#[global] Instance ApplicationEvent_eq_dec : EqDecision ApplicationEvent.
Proof. solve_decision. Defined.

End ApplicationEvent.

Inductive CallDirection : Type := Incoming | Outgoing.
#[global] Instance CallDirection_eq_dec : EqDecision CallDirection.
Proof. solve_decision. Defined.

(** [CallDirection::from_i32]: panics on an unknown value. *)
Definition CallDirection_from_i32 (value : Z) : outcome CallDirection :=
  if value =? 0 then Val Incoming
  else if value =? 1 then Val Outgoing
  else Panic.

Inductive CallMediaType : Type := Audio | Video.
#[global] Instance CallMediaType_eq_dec : EqDecision CallMediaType.
Proof. solve_decision. Defined.

Definition CallMediaType_from_i32 (value : Z) : outcome CallMediaType :=
  if value =? 0 then Val Audio
  else if value =? 1 then Val Video
  else Panic.

(** ** Data rates (common/units.rs)

    A rate is its number of bits per second, a [u64]. *)

Module DataRate.

Record DataRate : Type := per_second { size_per_second : Z }.

#[global] Instance DataRate_eq_dec : EqDecision DataRate.
Proof. solve_decision. Defined.

Definition from_bps (bps : Z) : DataRate := per_second bps.
Definition as_bps (r : DataRate) : Z := size_per_second r.
Definition from_kbps (kbps : Z) : DataRate := per_second (wrap 64 (kbps * 1000)).
Definition as_kbps (r : DataRate) : Z := size_per_second r / 1000.
Definition from_mbps (mbps : Z) : DataRate :=
  per_second (wrap 64 (wrap 64 (mbps * 1000) * 1000)).
Definition as_mbps (r : DataRate) : Z := size_per_second r / 1000 / 1000.

(** [Ord::min], [Ord::max] and the comparisons derived for the struct. *)
Definition ltb (a b : DataRate) : bool := size_per_second a <? size_per_second b.
Definition min (a b : DataRate) : DataRate := if ltb b a then b else a.
Definition max (a b : DataRate) : DataRate := if ltb b a then a else b.

Definition min_opt (self : DataRate) (other : option DataRate) : DataRate :=
  match other with
  | Some other => min self other
  | None => self
  end.

Lemma as_bps_min a b : as_bps (min a b) = Z.min (as_bps a) (as_bps b).
Proof. unfold min, ltb, as_bps. zcases; lia. Qed.

Lemma as_bps_max a b : as_bps (max a b) = Z.max (as_bps a) (as_bps b).
Proof. unfold max, ltb, as_bps. zcases; lia. Qed.

End DataRate.

(** ** The data mode *)

Module DataMode.

Inductive DataMode : Type :=
| Low
| Normal
| Custom (max_bitrate max_group_call_receive_rate : DataRate.DataRate).

#[global] Instance DataMode_eq_dec : EqDecision DataMode.
Proof. solve_decision. Defined.

Definition from_i32 (value : Z) : DataMode :=
  if value =? 0 then Low else if value =? 1 then Normal else Normal.

Definition max_bitrate (self : DataMode) : DataRate.DataRate :=
  match self with
  | Low => DataRate.from_kbps 300
  | Normal => DataRate.from_kbps 2000
  | Custom max_bitrate _ => max_bitrate
  end.

End DataMode.

(** [CallConfig]; the audio codec configurations inside it are WebRTC's and pass
    through unchanged. *)
Record CallConfig : Type := mkCallConfig {
  data_mode : DataMode.DataMode;
  stats_interval_secs : Z;
  stats_initial_offset_secs : Z;
  call_summary_time_limit_secs : Z;
  enable_tcc_audio : bool;
  audio_rtcp_report_interval_ms : Z;
  enable_vp9_encode : bool;
  enable_vp9_decode : bool;
}.

Definition default_call_config : CallConfig :=
  mkCallConfig DataMode.Normal 10 2 300 false 5000 true true.
