(* ===== verification/Signaling.v ===== *)
(** * Signaling messages (src/rust/src/core/signaling.rs)

    Messages exchanged over the signaling channel and in RTP data.  Protobuf
    encoding is generated code: a [Codec] is what the source uses of it, with the
    round trip law prost documents.  A byte is a [Z] in [0, 256). *)

From S2P Require Import Prelude States.
Local Open Scope Z_scope.

(** [prost::Message::encode] and [decode] for one message type. *)
Class Codec (M : Type) : Type := {
  pb_encode : M -> list Z;
  pb_decode : list Z -> option M;
}.

(** What prost documents of them: decoding an encoded message gives it back. *)
Class CodecLaws (M : Type) `{Codec M} : Prop :=
  pb_decode_encode : forall m : M, pb_decode (pb_encode m) = Some m.

(** A concrete codec for any countable type of messages, one byte per bit; it
    shows that the laws can be met. *)
Fixpoint pos_to_bits (p : positive) : list Z :=
  match p with
  | xH => []
  | xO p => 0 :: pos_to_bits p
  | xI p => 1 :: pos_to_bits p
  end.

Fixpoint pos_of_bits (l : list Z) : positive :=
  match l with
  | [] => xH
  | b :: l => if b =? 0 then xO (pos_of_bits l) else xI (pos_of_bits l)
  end.

Lemma pos_of_to_bits p : pos_of_bits (pos_to_bits p) = p.
Proof. induction p; cbn; congruence. Qed.

Definition countable_codec (M : Type) `{Countable M} : Codec M := {|
  pb_encode m := pos_to_bits (countable.encode m);
  pb_decode l := countable.decode (pos_of_bits l);
|}.

Lemma countable_codec_laws (M : Type) `{Countable M} : @CodecLaws M (countable_codec M).
Proof. intros m. cbn. by rewrite pos_of_to_bits, countable.decode_encode. Qed.

(** ** Hangups *)

Module HangupType.

Inductive HangupType : Type :=
| Normal
| AcceptedOnAnotherDevice
| DeclinedOnAnotherDevice
| BusyOnAnotherDevice
| NeedPermission.

#[global] Instance HangupType_eq_dec : EqDecision HangupType.
Proof. solve_decision. Defined.

(** The cast [hangup_type as i32]. *)
Definition as_i32 (t : HangupType) : Z :=
  match t with
  | Normal => 0
  | AcceptedOnAnotherDevice => 1
  | DeclinedOnAnotherDevice => 2
  | BusyOnAnotherDevice => 3
  | NeedPermission => 4
  end.

Definition from_i32 (value : Z) : option HangupType :=
  if value =? 0 then Some Normal
  else if value =? 1 then Some AcceptedOnAnotherDevice
  else if value =? 2 then Some DeclinedOnAnotherDevice
  else if value =? 3 then Some BusyOnAnotherDevice
  else if value =? 4 then Some NeedPermission
  else None.

Lemma from_as_i32 t : from_i32 (as_i32 t) = Some t.
Proof. by destruct t. Qed.

End HangupType.

Module Hangup.

Inductive Hangup : Type :=
| Normal
| AcceptedOnAnotherDevice (device_id : DeviceId)
| DeclinedOnAnotherDevice (device_id : DeviceId)
| BusyOnAnotherDevice (device_id : DeviceId)
| NeedPermission (device_id : option DeviceId).

#[global] Instance Hangup_eq_dec : EqDecision Hangup.
Proof. solve_decision. Defined.

Definition to_type_and_device_id (self : Hangup) : HangupType.HangupType * option DeviceId :=
  match self with
  | Normal => (HangupType.Normal, None)
  | AcceptedOnAnotherDevice other => (HangupType.AcceptedOnAnotherDevice, Some other)
  | DeclinedOnAnotherDevice other => (HangupType.DeclinedOnAnotherDevice, Some other)
  | BusyOnAnotherDevice other => (HangupType.BusyOnAnotherDevice, Some other)
  | NeedPermission other => (HangupType.NeedPermission, other)
  end.

Definition from_type_and_device_id (typ : HangupType.HangupType) (device_id : DeviceId) : Hangup :=
  match typ with
  | HangupType.Normal => Normal
  | HangupType.AcceptedOnAnotherDevice => AcceptedOnAnotherDevice device_id
  | HangupType.DeclinedOnAnotherDevice => DeclinedOnAnotherDevice device_id
  | HangupType.BusyOnAnotherDevice => BusyOnAnotherDevice device_id
  | HangupType.NeedPermission => NeedPermission (Some device_id)
  end.

(** What arrives at the other end of a hangup: an unset device id becomes 0. *)
Definition normalize (h : Hangup) : Hangup :=
  match h with
  | NeedPermission None => NeedPermission (Some 0)
  | h => h
  end.

Lemma from_to_type_and_device_id h :
  from_type_and_device_id (to_type_and_device_id h).1
    (default 0 (to_type_and_device_id h).2) = normalize h.
Proof. by destruct h as [| | | |[]]. Qed.

End Hangup.

(** ** Sender status *)

Record SenderStatus : Type := mkSenderStatus {
  video_enabled : option bool;
  sharing_screen : option bool;
  audio_enabled : option bool;
}.

#[global] Instance SenderStatus_eq_dec : EqDecision SenderStatus.
Proof. solve_decision. Defined.

(** ** ICE candidates

    [std::net::SocketAddr], the protobuf messages that carry it, and the
    conversions. *)

Inductive IpAddr : Type :=
| V4 (octets : list Z)
| V6 (octets : list Z).

Record SocketAddr : Type := mkSocketAddr { sa_ip : IpAddr; sa_port : Z }.

(** [Ipv4Addr] has four octets, [Ipv6Addr] sixteen, a port 16 bits. *)
Definition socket_addr_wf (a : SocketAddr) : Prop :=
  match sa_ip a with
  | V4 o => length o = 4%nat
  | V6 o => length o = 16%nat
  end /\ 0 <= sa_port a < 2 ^ 16.

Record SocketAddrProto : Type := mkSocketAddrProto {
  sap_ip : option (list Z);
  sap_port : option Z;
}.

Record IceCandidateV3Proto : Type := mkIceCandidateV3Proto { v3_sdp_field : option string }.

Record IceCandidateProto : Type := mkIceCandidateProto {
  icp_added_v3 : option IceCandidateV3Proto;
  icp_removed : option SocketAddrProto;
}.

(** [impl From<SocketAddr> for protobuf::signaling::SocketAddr] *)
Definition socket_addr_to_proto (addr : SocketAddr) : SocketAddrProto :=
  mkSocketAddrProto
    (Some match sa_ip addr with V4 o => o | V6 o => o end)
    (Some (sa_port addr)).

(** [protobuf::signaling::SocketAddr::to_std] *)
Definition to_std (self : SocketAddrProto) : option SocketAddr :=
  octets ← sap_ip self;
  ip ← (if zlen octets =? 4 then Some (V4 octets)
        else if zlen octets =? 16 then Some (V6 octets)
        else None);
  port ← sap_port self;
  if port >? 2 ^ 16 - 1 then None
  else Some (mkSocketAddr ip (wrap 16 port)).

Lemma to_std_to_proto a : socket_addr_wf a -> to_std (socket_addr_to_proto a) = Some a.
Proof.
  destruct a as [[o|o] p]; intros [Hl Hp]; cbn in Hl, Hp; unfold to_std; cbn;
    unfold zlen; rewrite Hl; cbn; destruct (Z.gtb_spec p (2 ^ 16 - 1)); try lia;
    unfold wrap; rewrite Z.mod_small by lia; done.
Qed.

Module IceCandidate.

Record IceCandidate : Type := new { opaque : list Z }.

#[global] Instance IceCandidate_eq_dec : EqDecision IceCandidate.
Proof. solve_decision. Defined.

Section Proto.
Context `{Codec IceCandidateProto}.

Definition from_v3_sdp (sdp : string) : IceCandidate :=
  new (pb_encode (mkIceCandidateProto (Some (mkIceCandidateV3Proto (Some sdp))) None)).

Definition FAKE_SDP : string := "candidate:FAKE 1 tcp 0 127.0.0.1 0 typ host".

Definition from_removed_address (removed_address : SocketAddr) : IceCandidate :=
  new (pb_encode (mkIceCandidateProto
    (Some (mkIceCandidateV3Proto (Some FAKE_SDP)))
    (Some (socket_addr_to_proto removed_address)))).

Definition v3_sdp (self : IceCandidate) : option string :=
  p ← pb_decode (opaque self);
  match icp_added_v3 p with
  | Some (mkIceCandidateV3Proto (Some v3_sdp)) => Some v3_sdp
  | _ => None
  end.

Definition removed_address (self : IceCandidate) : option SocketAddr :=
  p ← pb_decode (opaque self);
  match icp_removed p with
  | Some removed_address => to_std removed_address
  | None => None
  end.

End Proto.
End IceCandidate.

(** ** Offers, answers and the messages around them *)

Inductive Version : Type := V3Version | V4Version.

(** [protobuf::signaling::ConnectionParametersV4]; a codec is its type number. *)
Record ConnectionParametersV4 : Type := mkV4 {
  v4_public_key : option (list Z);
  v4_ice_ufrag : option string;
  v4_ice_pwd : option string;
  v4_receive_video_codecs : list (option Z);
  v4_max_bitrate_bps : option Z;
  v4_encode_only_video_codecs : list (option Z);
  v4_decode_only_video_codecs : list (option Z);
}.

Record OfferProto : Type := mkOfferProto { op_v4 : option ConnectionParametersV4 }.
Record AnswerProto : Type := mkAnswerProto { ap_v4 : option ConnectionParametersV4 }.

Record Offer : Type := mkOffer {
  offer_call_media_type : CallMediaType;
  offer_opaque : list Z;
  offer_proto : OfferProto;
}.

Record Answer : Type := mkAnswer {
  answer_opaque : list Z;
  answer_proto : AnswerProto;
}.

Section OfferAnswer.
Context `{Codec OfferProto} `{Codec AnswerProto}.

Definition decode_error : Error := RingRtcError.Anyhow "failed to decode Protobuf message".

Definition Offer_new (call_media_type : CallMediaType) (opaque : list Z) : result Offer Error :=
  match pb_decode opaque with
  | Some proto => Ok (mkOffer call_media_type opaque proto)
  | None => Err decode_error
  end.

Definition Offer_from_v4 (call_media_type : CallMediaType) (v4 : ConnectionParametersV4)
  : result Offer Error :=
  Offer_new call_media_type (pb_encode (mkOfferProto (Some v4))).

Definition Offer_to_v4 (self : Offer) : option ConnectionParametersV4 := op_v4 (offer_proto self).

Definition Offer_latest_version (self : Offer) : Version := V4Version.

Definition Answer_new (opaque : list Z) : result Answer Error :=
  match pb_decode opaque with
  | Some proto => Ok (mkAnswer opaque proto)
  | None => Err decode_error
  end.

Definition Answer_from_v4 (v4 : ConnectionParametersV4) : result Answer Error :=
  Answer_new (pb_encode (mkAnswerProto (Some v4))).

Definition Answer_to_v4 (self : Answer) : option ConnectionParametersV4 :=
  ap_v4 (answer_proto self).

Definition Answer_latest_version (self : Answer) : Version := V4Version.

(** What the other side decodes is what was encoded. *)
Lemma Offer_roundtrip `{!CodecLaws OfferProto} mt v4 :
  exists o, Offer_from_v4 mt v4 = Ok o /\ Offer_to_v4 o = Some v4 /\
    Offer_new mt (offer_opaque o) = Ok o.
Proof.
  unfold Offer_from_v4, Offer_new. rewrite pb_decode_encode.
  eexists. split_and!; [done| done|]. cbn. by rewrite pb_decode_encode.
Qed.

Lemma Answer_roundtrip `{!CodecLaws AnswerProto} v4 :
  exists a, Answer_from_v4 v4 = Ok a /\ Answer_to_v4 a = Some v4 /\
    Answer_new (answer_opaque a) = Ok a.
Proof.
  unfold Answer_from_v4, Answer_new. rewrite pb_decode_encode.
  eexists. split_and!; [done| done|]. cbn. by rewrite pb_decode_encode.
Qed.

End OfferAnswer.

Record Ice : Type := mkIce { candidates : list IceCandidate.IceCandidate }.

Inductive Message : Type :=
| MOffer (offer : Offer)
| MAnswer (answer : Answer)
| MIce (ice : Ice)
| MHangup (hangup : Hangup.Hangup)
| MBusy.

Inductive MessageType : Type := TOffer | TAnswer | TIce | THangup | TBusy.

#[global] Instance MessageType_eq_dec : EqDecision MessageType.
Proof. solve_decision. Defined.

Definition typ (self : Message) : MessageType :=
  match self with
  | MOffer _ => TOffer
  | MAnswer _ => TAnswer
  | MIce _ => TIce
  | MHangup _ => THangup
  | MBusy => TBusy
  end.

Record SendAnswer : Type := mkSendAnswer { sa_answer : Answer; sa_receiver_device_id : DeviceId }.
Record SendIce : Type := mkSendIce { si_ice : Ice; si_receiver_device_id : option DeviceId }.
Record SendHangup : Type := mkSendHangup { sh_hangup : Hangup.Hangup }.

Record ReceivedOffer : Type := mkReceivedOffer {
  ro_offer : Offer;
  ro_age : Z;
  ro_sender_device_id : DeviceId;
  ro_receiver_device_id : DeviceId;
  ro_sender_identity_key : list Z;
  ro_receiver_identity_key : list Z;
}.

Record ReceivedAnswer : Type := mkReceivedAnswer {
  ra_answer : Answer;
  ra_sender_device_id : DeviceId;
  ra_sender_identity_key : list Z;
  ra_receiver_identity_key : list Z;
}.

Record ReceivedIce : Type := mkReceivedIce { ri_ice : Ice; ri_sender_device_id : DeviceId }.
Record ReceivedHangup : Type := mkReceivedHangup {
  rh_hangup : Hangup.Hangup;
  rh_sender_device_id : DeviceId;
}.
Record ReceivedBusy : Type := mkReceivedBusy { rb_sender_device_id : DeviceId }.
