(* ===== verification/ConnectionTypes.v ===== *)
(** * Data of a connection (src/rust/src/core/connection.rs, connection_fsm.rs)

    The network route, the bandwidth controller, the statistics timer, the
    protobuf messages carried in RTP data, and the events that flow between the
    call, the connection and its state machine. *)

From S2P Require Import Prelude States Signaling.
Local Open Scope Z_scope.

(** ** Network routes (webrtc/peer_connection_observer.rs) *)

Inductive NetworkAdapterType : Type :=
| AdapterUnknown | Ethernet | Wifi | Cellular | Vpn | Loopback | AdapterDefault
| Cellular2G | Cellular3G | Cellular4G | Cellular5G.

#[global] Instance NetworkAdapterType_eq_dec : EqDecision NetworkAdapterType.
Proof. solve_decision. Defined.

Inductive TransportProtocol : Type := Udp | Tcp | Tls | ProtocolUnknown.

#[global] Instance TransportProtocol_eq_dec : EqDecision TransportProtocol.
Proof. solve_decision. Defined.

Record NetworkRoute : Type := mkNetworkRoute {
  local_adapter_type : NetworkAdapterType;
  local_adapter_type_under_vpn : NetworkAdapterType;
  local_relayed : bool;
  local_relay_protocol : TransportProtocol;
  remote_relayed : bool;
}.

#[global] Instance NetworkRoute_eq_dec : EqDecision NetworkRoute.
Proof. solve_decision. Defined.

Inductive IceConnectionState : Type :=
| IceNew | IceChecking | IceStateConnected | IceCompleted | IceStateFailed
| IceStateDisconnected | IceClosed | IceMax.

(** ** The bandwidth controller *)

Module BandwidthController.

Definition MIN_SEND_RATE : DataRate.DataRate := DataRate.from_kbps 30.
Definition RELAYED_MAX_SEND_RATE : DataRate.DataRate := DataRate.from_mbps 1.

Record BandwidthController : Type := mkBandwidthController {
  local_mode : DataMode.DataMode;
  remote_max : option DataRate.DataRate;
  network_route : NetworkRoute;
}.

Definition local_max (self : BandwidthController) : DataRate.DataRate :=
  DataMode.max_bitrate (local_mode self).

Definition relay_max (self : BandwidthController) : option DataRate.DataRate :=
  if local_relayed (network_route self) || remote_relayed (network_route self)
  then Some RELAYED_MAX_SEND_RATE
  else None.

Definition max_send_rate (self : BandwidthController) : DataRate.DataRate :=
  DataRate.max
    (DataRate.min_opt (DataRate.min_opt (local_max self) (remote_max self)) (relay_max self))
    MIN_SEND_RATE.

(** The limits that apply, in bits per second. *)
Definition limits (self : BandwidthController) : list Z :=
  DataRate.as_bps (local_max self) ::
  option_list (DataRate.as_bps <$> remote_max self) ++
  (if local_relayed (network_route self) || remote_relayed (network_route self)
   then [1000000] else []).

Lemma as_bps_min_opt a o :
  DataRate.as_bps (DataRate.min_opt a o) =
  foldr Z.min (DataRate.as_bps a) (option_list (DataRate.as_bps <$> o)).
Proof. destruct o; cbn; [|done]. rewrite DataRate.as_bps_min. lia. Qed.

Lemma max_send_rate_spec self :
  DataRate.as_bps (max_send_rate self) =
  Z.max 30000 (foldr Z.min (DataRate.as_bps (local_max self)) (tail (limits self))).
Proof.
  unfold max_send_rate, limits, relay_max. rewrite DataRate.as_bps_max, !as_bps_min_opt.
  assert (DataRate.as_bps MIN_SEND_RATE = 30000) as -> by reflexivity.
  assert (DataRate.as_bps RELAYED_MAX_SEND_RATE = 1000000) as Hr by reflexivity.
  destruct (local_relayed _ || remote_relayed _), (remote_max self) as [m|];
    cbn -[Z.min Z.max DataRate.as_bps RELAYED_MAX_SEND_RATE]; rewrite ?Hr; lia.
Qed.

(** The rate a connection is told to send at is the smallest of the local
    limit, the remote limit if there is one and, when either side is relayed, one
    megabit per second; but never below 30 kilobits per second. *)
Theorem max_send_rate_within_limits self :
  let rate := DataRate.as_bps (max_send_rate self) in
  30000 <= rate /\
  (forall limit, limit ∈ limits self -> rate <= Z.max 30000 limit) /\
  (rate = 30000 \/ rate ∈ limits self).
Proof.
  cbn zeta. rewrite max_send_rate_spec. unfold limits. cbn [tail].
  generalize (DataRate.as_bps (local_max self)). intros local.
  generalize (option_list (DataRate.as_bps <$> remote_max self) ++
    (if local_relayed (network_route self) || remote_relayed (network_route self)
     then [1000000] else [])). intros l.
  assert (foldr Z.min local l ∈ local :: l /\
          forall x, x ∈ local :: l -> foldr Z.min local l <= x) as [Hin Hle].
  { induction l as [|y l [IHin IHle]]; cbn; [set_solver by lia|]. split.
    - destruct (Z.min_spec y (foldr Z.min local l)) as [[_ ->]|[_ ->]]; set_solver.
    - intros x Hx. apply elem_of_cons in Hx as [->|[->|Hx]%elem_of_cons]; [|lia|].
      + specialize (IHle local). rewrite elem_of_cons in IHle. lia.
      + specialize (IHle x). rewrite elem_of_cons in IHle. specialize (IHle (or_intror Hx)). lia. }
  split; [lia|]. split.
  - intros limit Hl. apply Hle in Hl. lia.
  - destruct (Z.max_spec 30000 (foldr Z.min local l)) as [[_ ->]|[_ ->]]; [by right|by left].
Qed.

End BandwidthController.

(** ** The timer of statistics and callbacks *)

Definition TICK_INTERVAL_MILLIS : Z := 200.
Definition SEND_RTP_DATA_MESSAGE_INTERVAL_MILLIS : Z := 1000.
Definition SEND_RTP_DATA_MESSAGE_INTERVAL_TICKS : Z :=
  SEND_RTP_DATA_MESSAGE_INTERVAL_MILLIS / TICK_INTERVAL_MILLIS.
Definition CHECK_BWE_INTERVAL_MILLIS : Z := 1000.
Definition CHECK_BWE_INTERVAL_TICKS : Z := CHECK_BWE_INTERVAL_MILLIS / TICK_INTERVAL_MILLIS.
Definition DELAYED_BWE_CHECK_INTERVAL_MILLIS : Z := 10000.
Definition DELAYED_BWE_CHECK_INTERVAL_TICKS : Z :=
  DELAYED_BWE_CHECK_INTERVAL_MILLIS / TICK_INTERVAL_MILLIS.
Definition BWE_THRESHOLD_FOR_LOW_NOTIFICATION : DataRate.DataRate := DataRate.from_kbps 60.
Definition BWE_THRESHOLD_FOR_RECOVERED_NOTIFICATION : DataRate.DataRate := DataRate.from_kbps 70.
Definition DELAY_FOR_RECOVERED_BWE_CALLBACK_MILLIS : Z := 6000.
Definition DELAY_FOR_RECOVERED_BWE_CALLBACK_TICKS : Z :=
  DELAY_FOR_RECOVERED_BWE_CALLBACK_MILLIS / TICK_INTERVAL_MILLIS.

(** [u64::is_multiple_of] *)
Definition is_multiple_of (n k : Z) : bool :=
  if k =? 0 then n =? 0 else n `mod` k =? 0.

(** Durations in milliseconds. *)
Record PollStatsConfig : Type := mkPollStatsConfig {
  poll_stats_interval : Z;
  poll_stats_initial_offset : Z;
  poll_stats_interval_ticks : Z;
  poll_stats_initial_offset_ticks : Z;
}.

Definition PollStatsConfig_new (interval_secs initial_offset_secs : Z) : PollStatsConfig :=
  let interval := interval_secs * 1000 in
  let offset := initial_offset_secs * 1000 in
  mkPollStatsConfig interval offset
    (interval / TICK_INTERVAL_MILLIS) (offset / TICK_INTERVAL_MILLIS).

Definition get_initial_offset (self : PollStatsConfig) : Z :=
  if poll_stats_initial_offset self =? 0
  then poll_stats_interval self
  else poll_stats_initial_offset self.

Inductive BweCallbackState : Type :=
| CheckIfLow (delayed_check_tick : Z)
| CheckIfRecovered (last_callback_tick : Z)
| Done.

#[global] Instance BweCallbackState_eq_dec : EqDecision BweCallbackState.
Proof. solve_decision. Defined.

(** ** Protobuf messages carried in RTP data (protobuf/protobuf/rtp_data.proto) *)

Record AcceptedProto : Type := mkAcceptedProto { accepted_id : option Z }.
Record HangupProto : Type := mkHangupProto {
  hangup_id : option Z;
  hangup_type : option Z;
  hangup_device_id : option Z;
}.
Record SenderStatusProto : Type := mkSenderStatusProto {
  ss_id : option Z;
  ss_video_enabled : option bool;
  ss_sharing_screen : option bool;
  ss_audio_enabled : option bool;
}.
Record ReceiverStatusProto : Type := mkReceiverStatusProto {
  rs_id : option Z;
  rs_max_bitrate_bps : option Z;
}.

Record RtpMessage : Type := mkRtpMessage {
  msg_accepted : option AcceptedProto;
  msg_hangup : option HangupProto;
  msg_sender_status : option SenderStatusProto;
  msg_seqnum : option Z;
  msg_receiver_status : option ReceiverStatusProto;
}.

#[global] Instance AcceptedProto_eq_dec : EqDecision AcceptedProto.
Proof. solve_decision. Defined.
#[global] Instance HangupProto_eq_dec : EqDecision HangupProto.
Proof. solve_decision. Defined.
#[global] Instance SenderStatusProto_eq_dec : EqDecision SenderStatusProto.
Proof. solve_decision. Defined.
#[global] Instance ReceiverStatusProto_eq_dec : EqDecision ReceiverStatusProto.
Proof. solve_decision. Defined.
#[global] Instance RtpMessage_eq_dec : EqDecision RtpMessage.
Proof. solve_decision. Defined.

Definition default_rtp_message : RtpMessage := mkRtpMessage None None None None None.

(** The accessor [hangup.r#type()] prost generates for an enum field: the
    default variant when the field is unset or its value is unknown. *)
Definition hangup_type_or_default (h : HangupProto) : Z :=
  match hangup_type h with
  | Some t => if (0 <=? t) && (t <=? 4) then t else 0
  | None => 0
  end.

(** [rtp::Header] *)
Record RtpHeader : Type := mkRtpHeader {
  rtp_pt : Z;
  rtp_seqnum : Z;
  rtp_timestamp : Z;
  rtp_ssrc : Z;
}.

#[global] Instance RtpHeader_eq_dec : EqDecision RtpHeader.
Proof. solve_decision. Defined.

Definition RTP_DATA_PAYLOAD_TYPE : Z := 101.
Definition RTP_DATA_SSRC : Z := 13.

(** ** Events *)

Inductive ConnectionType : Type := OutgoingParent | OutgoingChild | IncomingConnection.

#[global] Instance ConnectionType_eq_dec : EqDecision ConnectionType.
Proof. solve_decision. Defined.

(** A WebRTC media stream, known by a handle. *)
Definition MediaStream : Type := Z.
#[global] Instance MediaStream_eq_dec : EqDecision MediaStream := Z.eq_dec.

Module ConnectionObserverEvent.

Inductive ConnectionObserverEvent : Type :=
| StateChanged (state : ConnectionState.ConnectionState)
| RemoteSenderStatusChanged (status : SenderStatus)
| ReceivedHangup (hangup : Hangup.Hangup)
| IceNetworkRouteChanged (route : NetworkRoute)
| IceConnected
| IceDisconnected
| AudioLevels (captured_level received_level : Z)
| LowBandwidthForVideo (recovered : bool).

#[global] Instance ConnectionObserverEvent_eq_dec : EqDecision ConnectionObserverEvent.
Proof. solve_decision. Defined.

Definition is_frequent (self : ConnectionObserverEvent) : bool :=
  match self with
  | AudioLevels _ _ => true
  | _ => false
  end.

End ConnectionObserverEvent.

Notation ObserverEvent := ConnectionObserverEvent.ConnectionObserverEvent.

Module ConnectionEvent.

Inductive ConnectionEvent : Type :=
| ReceivedIce (ice : Ice)
| ReceivedHangup (call_id : CallId) (hangup : Hangup.Hangup)
| SendHangupViaRtpData (hangup : Hangup.Hangup)
| Accept
| ReceivedAcceptedViaRtpData (call_id : CallId)
| ReceivedSenderStatusViaRtpData (call_id : CallId) (status : SenderStatus) (seqnum : Z)
| ReceivedReceiverStatusViaRtpData (call_id : CallId) (max_bitrate : DataRate.DataRate) (seqnum : Z)
| UpdateSenderStatus (status : SenderStatus)
| UpdateDataMode (mode : DataMode.DataMode)
| LocalIceCandidates (candidates : list IceCandidate.IceCandidate)
| IceConnected
| IceFailed
| IceDisconnected
| IceNetworkRouteChanged (route : NetworkRoute)
| InternalError (error : Error)
| ReceivedIncomingMedia (stream : MediaStream)
| Synchronize
| Terminate.

End ConnectionEvent.
