(* ===== verification/Connection.v ===== *)
(** * The connection object (src/rust/src/core/connection.rs)

    A [Connection] is shared by the call, WebRTC's callback threads and its own
    state machine.  Its fields are behind locks, so every operation below is
    atomic on the fields it locks; the locks are never poisoned.  Calls that leave
    the connection (to the parent call, to WebRTC's peer connection) are recorded
    in [outputs] in the order they are made, and what they answer is given by an
    environment [Env], so that every answer is covered. *)

From S2P Require Import Prelude States Signaling ConnectionTypes.
Local Open Scope Z_scope.
Local Open Scope ringrtc_scope.

(** ** SRTP keys and session descriptions (webrtc/sdp_observer.rs)

    The C++ session description is known by a handle and by the SRTP key last set
    in it. *)

Inductive SrtpCryptoSuite : Type := Aes128CmSha1 | AeadAes128Gcm | AeadAes256Gcm.

Definition key_size (s : SrtpCryptoSuite) : Z :=
  match s with Aes128CmSha1 => 16 | AeadAes128Gcm => 16 | AeadAes256Gcm => 32 end.
Definition salt_size (s : SrtpCryptoSuite) : Z :=
  match s with Aes128CmSha1 => 14 | AeadAes128Gcm => 12 | AeadAes256Gcm => 12 end.

Record SrtpKey : Type := mkSrtpKey {
  srtp_suite : SrtpCryptoSuite;
  srtp_key : list Z;
  srtp_salt : list Z;
}.

Record SessionDescription : Type := mkSessionDescription {
  sd_rffi : Z;
  sd_srtp_key : option SrtpKey;
  sd_supports_asymmetric : option bool;
}.

(** Calls on the WebRTC peer connection and its statistics observer. *)
Inductive PeerCall : Type :=
| SetSendRates (max : DataRate.DataRate)
| SendRtp (header : RtpHeader) (payload : list Z)
| AddIceCandidateFromSdp (sdp : string)
| RemoveIceCandidates (addresses : list SocketAddr)
| StatsSetNetworkRoute (route : NetworkRoute)
| StatsSetSnapshotConsumer
| GetStats
| GetAudioLevels
| GetLastBandwidthEstimate
| SetAudioPlayoutEnabled (b : bool)
| SetIncomingMediaEnabled (b : bool)
| SetOutgoingMediaEnabled (b : bool)
| SetAudioRecordingEnabled (b : bool)
| RegatherOnAllNetworks
| CreateSharedIceGatherer
| UseSharedIceGatherer
| CreateSendOnlyTransceiver
| CreateOffer
| CreateAnswer
| SetLocalDescription (description : SessionDescription)
| SetRemoteDescription (description : SessionDescription)
| ReceiveRtp (pt : Z) (enable_incoming : bool)
| ConfigureAudioEncoders
| ConfigureAudioDecoders
| ClosePeerConnection.

(** Calls that leave the connection. *)
Inductive Output : Type :=
| ToObserver (event : ObserverEvent)
| ToObserverError (error : Error)
| SendBufferedLocalIce (broadcast : bool)
| CreateIncomingMedia (stream : MediaStream)
| ConnectIncomingMedia (media : MediaStream)
| ToPeer (call : PeerCall).

(** The answers of the outside during one operation. *)
Record Env : Type := mkEnv {
  env_observer : ObserverEvent -> result unit Error;
  env_observer_error : result unit Error;
  env_send_ice : result unit Error;
  env_create_media : MediaStream -> result MediaStream Error;
  env_connect_media : result unit Error;
  env_set_send_rates : result unit Error;
  env_bandwidth_estimate : DataRate.DataRate;
  env_audio_levels : Z * list Z;
}.

(** Nothing fails. *)
Definition ok_env : Env :=
  mkEnv (fun _ => Ok tt) (Ok tt) (Ok tt) Ok (Ok tt) (Ok tt)
    (DataRate.from_kbps 1000) (0, []).

Record WebRtcData : Type := mkWebRtcData {
  wd_peer_connection : bool;
  wd_last_sent_rtp_data_timestamp : Z;
  wd_incoming_media : option MediaStream;
  wd_app_connection : bool;
  wd_stats_observer : bool;
  wd_connection_ptr : bool;
}.

#[global] Instance WebRtcData_eta : Eta WebRtcData := fun r =>
  mkWebRtcData (wd_peer_connection r) (wd_last_sent_rtp_data_timestamp r)
    (wd_incoming_media r) (wd_app_connection r) (wd_stats_observer r) (wd_connection_ptr r).

Module Connection.

(** [fsm_queue] is the content of the channel to the state machine,
    [fsm_connected] whether its receiver still exists, [fsm_started] whether
    [fsm_receiver] was taken; [terminate_complete] is the flag behind
    [terminate_condvar]; [ticking] tells whether the timer of [start_tick] runs. *)
Record Connection : Type := mkConnection {
  call_id : CallId;
  remote_device_id : DeviceId;
  direction : CallDirection;
  connection_type : ConnectionType;
  call_config : CallConfig;
  audio_levels_interval : option Z;
  poll_stats_config : PollStatsConfig;
  state : ConnectionState.ConnectionState;
  webrtc : WebRtcData;
  bandwidth_controller : BandwidthController.BandwidthController;
  buffered_local_ice_candidates : list IceCandidate.IceCandidate;
  terminate_complete : bool;
  ticking : bool;
  accumulated_rtp_data_message : RtpMessage;
  last_received_rtp_data_timestamp : Z;
  bwe_callback_state : BweCallbackState;
  fsm_queue : list ConnectionEvent.ConnectionEvent;
  fsm_connected : bool;
  fsm_started : bool;
  outputs : list Output;
}.

#[global] Instance Connection_eta : Eta Connection := fun r =>
  mkConnection (call_id r) (remote_device_id r) (direction r) (connection_type r) (call_config r)
    (audio_levels_interval r) (poll_stats_config r) (state r) (webrtc r)
    (bandwidth_controller r) (buffered_local_ice_candidates r) (terminate_complete r)
    (ticking r) (accumulated_rtp_data_message r) (last_received_rtp_data_timestamp r)
    (bwe_callback_state r) (fsm_queue r) (fsm_connected r) (fsm_started r) (outputs r).

(** Code that works on a connection. *)
Notation CM := (ST Connection Error).

Definition emit (o : Output) : CM unit := modify (fun c => c <| outputs := outputs c ++ [o] |>).

Definition unknown_route : NetworkRoute :=
  mkNetworkRoute AdapterUnknown AdapterUnknown false ProtocolUnknown false.

(** [Connection::new], with the fields of the call and the configuration it
    copies, up to [init_connection_ptr]. *)
Definition new (call_id : CallId) (direction : CallDirection) (remote_device : DeviceId)
    (connection_type : ConnectionType) (call_config : CallConfig)
    (audio_levels_interval : option Z) : Connection :=
  {| call_id := call_id;
     remote_device_id := remote_device;
     direction := direction;
     connection_type := connection_type;
     call_config := call_config;
     audio_levels_interval := audio_levels_interval;
     poll_stats_config := 
       PollStatsConfig_new (stats_interval_secs call_config)
         (stats_initial_offset_secs call_config);
     state := ConnectionState.NotYetStarted;
     webrtc := mkWebRtcData false 0 None false false true;
     bandwidth_controller :=
       BandwidthController.mkBandwidthController (data_mode call_config) None unknown_route;
     buffered_local_ice_candidates := [];
     terminate_complete := false;
     ticking := false;
     accumulated_rtp_data_message := default_rtp_message;
     last_received_rtp_data_timestamp := 0;
     bwe_callback_state := CheckIfLow 0;
     fsm_queue := [];
     fsm_connected := true;
     fsm_started := false;
     outputs := [] |}.

(** [start_fsm]: the receiver can be taken once. *)
Definition start_fsm : CM unit := modify (fun c => c <| fsm_started := true |>).

Section Ops.
Context (env : Env).

(** ** Basic operations *)

Definition notify_observer (event : ObserverEvent) : CM unit :=
  emit (ToObserver event) ;; of_result (env_observer env event).

Definition internal_error (error : Error) : CM unit :=
  emit (ToObserverError error) ;; of_result (env_observer_error env).

Definition set_state (new_state : ConnectionState.ConnectionState) : CM unit :=
  st ← gets state;
  if bool_decide (st = new_state) then ret_ok
  else
    modify (fun c => c <| state := new_state |>) ;;
    notify_observer (ConnectionObserverEvent.StateChanged new_state).

(** [terminating]: only the state [Terminating], not [Terminated]. *)
Definition terminating : CM bool :=
  gets (fun c => bool_decide (state c = ConnectionState.Terminating)).

Definition can_send_messages (c : Connection) : bool :=
  negb (bool_decide (state c = ConnectionState.Terminating) ||
        bool_decide (state c = ConnectionState.Terminated)).

(** [webrtc.peer_connection()?] *)
Definition peer_connection : CM unit :=
  b ← gets (fun c => wd_peer_connection (webrtc c));
  if b : bool then ret_ok
  else fail (RingRtcError.OptionValueNotSet "peer_connection" "peer_connection").

Definition FSM_CHANNEL_SIZE : Z := 256.

Definition inject_event (event : ConnectionEvent.ConnectionEvent) : CM unit :=
  c ← get;
  if negb (fsm_connected c) then ret_ok
  else if zlen (fsm_queue c) <? FSM_CHANNEL_SIZE
  then modify (fun c => c <| fsm_queue := fsm_queue c ++ [event] |>)
  else fail (RingRtcError.Anyhow "sending on a full channel").

Definition inject_internal_error (error : Error) : CM unit :=
  _ ← attempt (inject_event (ConnectionEvent.InternalError error)); ret_ok.

(** [if let Err(err) = result { connection.inject_internal_error(err, ..) }] *)
Definition or_inject_internal_error (m : CM unit) : CM unit :=
  r ← attempt m;
  match r with
  | Ok _ => ret_ok
  | Err err => inject_internal_error err
  end.

(** ** Bandwidth *)

Definition apply_bandwidth_controller : CM unit :=
  max_send_rate ← gets (fun c => BandwidthController.max_send_rate (bandwidth_controller c));
  peer_connection ;;
  emit (ToPeer (SetSendRates max_send_rate)) ;;
  of_result (env_set_send_rates env).

(** [update] returns [None] when nothing changed. *)
Definition update_bandwidth_controller
    (update : BandwidthController.BandwidthController ->
              option BandwidthController.BandwidthController) : CM bool :=
  bc ← gets bandwidth_controller;
  match update bc with
  | None => mret false
  | Some bc' =>
    modify (fun c => c <| bandwidth_controller := bc' |>) ;;
    apply_bandwidth_controller ;;
    mret true
  end.

Definition set_remote_max_bitrate (remote_max : DataRate.DataRate) : CM unit :=
  _ ← update_bandwidth_controller (fun bc =>
    if bool_decide (BandwidthController.remote_max bc = Some remote_max) then None
    else Some (BandwidthController.mkBandwidthController
                 (BandwidthController.local_mode bc) (Some remote_max)
                 (BandwidthController.network_route bc)));
  ret_ok.

Definition set_network_route (route : NetworkRoute) : CM unit :=
  c ← get;
  let old := BandwidthController.network_route (bandwidth_controller c) in
  (if negb (bool_decide (local_relayed old = local_relayed route)) ||
      negb (bool_decide (remote_relayed old = remote_relayed route)) ||
      negb (bool_decide (local_relay_protocol old = local_relay_protocol route))
   then
     if wd_stats_observer (webrtc c) then
       emit (ToPeer (StatsSetNetworkRoute route)) ;;
       (if wd_peer_connection (webrtc c) then emit (ToPeer GetStats) else ret_ok)
     else ret_ok
   else ret_ok) ;;
  _ ← update_bandwidth_controller (fun bc =>
    if bool_decide (BandwidthController.network_route bc = route) then None
    else Some (BandwidthController.mkBandwidthController
                 (BandwidthController.local_mode bc)
                 (BandwidthController.remote_max bc) route));
  ret_ok.

Definition set_stats_snapshot_consumer : CM unit :=
  b ← gets (fun c => wd_stats_observer (webrtc c));
  if b : bool then emit (ToPeer StatsSetSnapshotConsumer) else ret_ok.

(** ** Messages in RTP data *)

Section RtpData.
Context `{Codec RtpMessage}.

Definition send_via_rtp_data (data : RtpMessage) : CM unit :=
  let bytes := pb_encode data in
  modify (fun c => c <| webrtc := (webrtc c) <| wd_last_sent_rtp_data_timestamp :=
    wrap 32 (wd_last_sent_rtp_data_timestamp (webrtc c) + 1) |> |>) ;;
  timestamp ← gets (fun c => wd_last_sent_rtp_data_timestamp (webrtc c));
  peer_connection ;;
  (* A failure of send_rtp is only logged. *)
  emit (ToPeer (SendRtp
    {| rtp_pt := RTP_DATA_PAYLOAD_TYPE; rtp_seqnum := wrap 16 timestamp;
       rtp_timestamp := timestamp; rtp_ssrc := RTP_DATA_SSRC |} bytes)).

Definition update_and_send_rtp_data_message (populate : RtpMessage -> RtpMessage) : CM unit :=
  modify (fun c =>
    let m := populate (accumulated_rtp_data_message c) in
    c <| accumulated_rtp_data_message :=
      mkRtpMessage (msg_accepted m) (msg_hangup m) (msg_sender_status m)
        (Some (u64_add (default 0 (msg_seqnum m)) 1)) (msg_receiver_status m) |>) ;;
  message ← gets accumulated_rtp_data_message;
  send_via_rtp_data message.

Definition send_latest_rtp_data_message : CM unit :=
  data ← gets accumulated_rtp_data_message;
  if negb (bool_decide (data = default_rtp_message))
  then send_via_rtp_data data
  else ret_ok.

Definition send_hangup_via_rtp_data (hangup : Hangup.Hangup) : CM unit :=
  id ← gets call_id;
  let '(hangup_type, hangup_device_id) := Hangup.to_type_and_device_id hangup in
  update_and_send_rtp_data_message (fun data =>
    mkRtpMessage (msg_accepted data)
      (Some (mkHangupProto (Some id) (Some (HangupType.as_i32 hangup_type)) hangup_device_id))
      (msg_sender_status data) (msg_seqnum data) (msg_receiver_status data)).

Definition send_accepted_via_rtp_data : CM unit :=
  id ← gets call_id;
  update_and_send_rtp_data_message (fun data =>
    mkRtpMessage (Some (mkAcceptedProto (Some id))) (msg_hangup data)
      (msg_sender_status data) (msg_seqnum data) (msg_receiver_status data)).

(** [Option::or] *)
Definition or_else {A} (o o' : option A) : option A :=
  match o with Some _ => o | None => o' end.

Definition update_sender_status_from_fsm (updated : SenderStatus) : CM unit :=
  id ← gets call_id;
  update_and_send_rtp_data_message (fun data =>
    let previous := msg_sender_status data in
    mkRtpMessage (msg_accepted data) (msg_hangup data)
      (Some (mkSenderStatusProto (Some id)
        (or_else (video_enabled updated) (previous ≫= ss_video_enabled))
        (or_else (sharing_screen updated) (previous ≫= ss_sharing_screen))
        (or_else (audio_enabled updated) (previous ≫= ss_audio_enabled))))
      (msg_seqnum data) (msg_receiver_status data)).

Definition update_data_mode (local_mode : DataMode.DataMode) : CM unit :=
  changed ← update_bandwidth_controller (fun bc =>
    if bool_decide (BandwidthController.local_mode bc = local_mode) then None
    else Some (BandwidthController.mkBandwidthController local_mode
                 (BandwidthController.remote_max bc) (BandwidthController.network_route bc)));
  if changed : bool then
    id ← gets call_id;
    update_and_send_rtp_data_message (fun data =>
      mkRtpMessage (msg_accepted data) (msg_hangup data) (msg_sender_status data)
        (msg_seqnum data)
        (Some (mkReceiverStatusProto (Some id)
          (Some (DataRate.as_bps (DataMode.max_bitrate local_mode))))))
  else ret_ok.

(** ** Receiving RTP data *)

(** [x.unwrap_or_else(|e| warn!(..))] *)
Definition or_warn (m : CM unit) : CM unit := _ ← attempt m; ret_ok.

(** [size_of::<protobuf::rtp_data::Message>()], fixed by the generated code. *)
Context (message_size : Z).

Definition inject_received_via_rtp_data (bytes : list Z) : CM unit :=
  if zlen bytes >? message_size * 2 then ret_ok
  else match bytes with
  | [] => ret_ok
  | _ =>
    match pb_decode bytes with
    | None => ret_ok
    | Some message =>
      dir ← gets direction;
      match msg_accepted message with
      | Some accepted =>
        match dir with
        | Outgoing =>
          or_warn (inject_event
            (ConnectionEvent.ReceivedAcceptedViaRtpData (default 0 (accepted_id accepted))))
        | Incoming =>
          inject_internal_error
            (RingRtcError.RtpDataProtocol "Received 'accepted' for inbound call")
        end
      | None => ret_ok
      end ;;
      match msg_hangup message with
      | Some hangup =>
        or_warn (inject_event (ConnectionEvent.ReceivedHangup (default 0 (hangup_id hangup))
          (Hangup.from_type_and_device_id
             (default HangupType.Normal
                (HangupType.from_i32 (hangup_type_or_default hangup)))
             (default 0 (hangup_device_id hangup)))))
      | None => ret_ok
      end ;;
      match msg_sender_status message, msg_seqnum message with
      | Some ss, Some seqnum =>
        or_warn (inject_event (ConnectionEvent.ReceivedSenderStatusViaRtpData
          (default 0 (ss_id ss))
          (mkSenderStatus (ss_video_enabled ss) (ss_sharing_screen ss) (ss_audio_enabled ss))
          seqnum))
      | _, _ => ret_ok
      end ;;
      match msg_receiver_status message, msg_seqnum message with
      | Some rs, Some seqnum =>
        or_warn (inject_event (ConnectionEvent.ReceivedReceiverStatusViaRtpData
          (default 0 (rs_id rs)) (DataRate.from_bps (default 0 (rs_max_bitrate_bps rs))) seqnum))
      | _, _ => ret_ok
      end
    end
  end.

Definition handle_rtp_received (header : RtpHeader) (payload : list Z) : CM unit :=
  if negb ((rtp_pt header =? RTP_DATA_PAYLOAD_TYPE) && (rtp_ssrc header =? RTP_DATA_SSRC))
  then ret_ok
  else
    last ← gets last_received_rtp_data_timestamp;
    if last <=? rtp_timestamp header then
      modify (fun c => c <| last_received_rtp_data_timestamp := rtp_timestamp header |>) ;;
      inject_received_via_rtp_data payload
    else ret_ok.

(** ** The timer *)

Definition check_bwe (ticks_elapsed : Z) : CM unit :=
  c ← get;
  match bwe_callback_state c with
  | CheckIfLow delayed_check_tick =>
    let is_video_enabled :=
      match msg_sender_status (accumulated_rtp_data_message c) with
      | Some status => default false (ss_video_enabled status)
      | None => false
      end in
    if is_video_enabled then
      if bool_decide (state c = ConnectionState.ConnectedAndAccepted) then
        if ticks_elapsed >? delayed_check_tick then
          peer_connection ;;
          emit (ToPeer GetLastBandwidthEstimate) ;;
          if DataRate.ltb (env_bandwidth_estimate env) BWE_THRESHOLD_FOR_LOW_NOTIFICATION then
            or_warn (notify_observer (ConnectionObserverEvent.LowBandwidthForVideo false)) ;;
            modify (fun c => c <| bwe_callback_state := CheckIfRecovered ticks_elapsed |>)
          else ret_ok
        else ret_ok
      else
        modify (fun c => c <| bwe_callback_state :=
          CheckIfLow (u64_add ticks_elapsed DELAYED_BWE_CHECK_INTERVAL_TICKS) |>)
    else ret_ok
  | CheckIfRecovered last_callback_tick =>
    if u64_add last_callback_tick DELAY_FOR_RECOVERED_BWE_CALLBACK_TICKS <=? ticks_elapsed then
      peer_connection ;;
      emit (ToPeer GetLastBandwidthEstimate) ;;
      if DataRate.ltb BWE_THRESHOLD_FOR_RECOVERED_NOTIFICATION (env_bandwidth_estimate env) then
        or_warn (notify_observer (ConnectionObserverEvent.LowBandwidthForVideo true)) ;;
        modify (fun c => c <| bwe_callback_state := Done |>)
      else ret_ok
    else ret_ok
  | Done => ret_ok
  end.

(** The part of [tick] after the statistics interval was computed. *)
Definition tick_rest (ticks_elapsed : Z) : CM unit :=
  c ← get;
  (if ticks_elapsed `mod` poll_stats_interval_ticks (poll_stats_config c)
      =? poll_stats_initial_offset_ticks (poll_stats_config c)
   then
     if wd_stats_observer (webrtc c)
     then peer_connection ;; emit (ToPeer GetStats)
     else ret_ok
   else ret_ok) ;;
  match audio_levels_interval c with
  | Some interval =>
    if is_multiple_of ticks_elapsed (interval / TICK_INTERVAL_MILLIS) then
      peer_connection ;;
      emit (ToPeer GetAudioLevels) ;;
      let '(captured, received) := env_audio_levels env in
      or_warn (notify_observer
        (ConnectionObserverEvent.AudioLevels captured (default 0 (head received))))
    else ret_ok
  | None => ret_ok
  end ;;
  if is_multiple_of ticks_elapsed CHECK_BWE_INTERVAL_TICKS
  then check_bwe ticks_elapsed
  else ret_ok.

(** [tick]: the remainder by an interval of no ticks panics. *)
Definition tick (ticks_elapsed : Z) (c : Connection) : outcome (Connection * result unit Error) :=
  match (if is_multiple_of ticks_elapsed SEND_RTP_DATA_MESSAGE_INTERVAL_TICKS
         then send_latest_rtp_data_message else ret_ok) c with
  | (c', Err e) => Val (c', Err e)
  | (c', Ok _) =>
    if poll_stats_interval_ticks (poll_stats_config c') =? 0 then Panic
    else Val (tick_rest ticks_elapsed c')
  end.

End RtpData.

(** ** ICE candidates *)

Definition buffer_local_ice_candidates (candidates : list IceCandidate.IceCandidate) : CM unit :=
  c ← get;
  let count_before := zlen (buffered_local_ice_candidates c) in
  modify (fun c => c <| buffered_local_ice_candidates :=
    buffered_local_ice_candidates c ++ candidates |>) ;;
  count_after ← gets (fun c => zlen (buffered_local_ice_candidates c));
  if (count_before =? 0) && (count_after >? 0) then
    emit (SendBufferedLocalIce (bool_decide (connection_type c = OutgoingParent))) ;;
    of_result (env_send_ice env)
  else ret_ok.

Definition take_buffered_local_ice_candidates : CM (list IceCandidate.IceCandidate) :=
  l ← gets buffered_local_ice_candidates;
  modify (fun c => c <| buffered_local_ice_candidates := [] |>) ;;
  mret l.

Section RemoteIce.
Context `{Codec IceCandidateProto}.

(** The loop that separates removals from additions. *)
Fixpoint split_candidates (l : list IceCandidate.IceCandidate)
  : list string * list SocketAddr :=
  match l with
  | [] => ([], [])
  | candidate :: l =>
    let '(added, removed) := split_candidates l in
    match IceCandidate.removed_address candidate with
    | Some removed_address => (added, removed_address :: removed)
    | None =>
      match IceCandidate.v3_sdp candidate with
      | Some sdp => (sdp :: added, removed)
      | None => (added, removed)
      end
    end
  end.

Definition add_and_remove_remote_ice_candidates
    (remote_ice_candidates : list IceCandidate.IceCandidate) : CM unit :=
  let '(added_sdps, removed_addresses) := split_candidates remote_ice_candidates in
  for_each added_sdps (fun sdp => emit (ToPeer (AddIceCandidateFromSdp sdp))) ;;
  match removed_addresses with
  | [] => ret_ok
  | _ => emit (ToPeer (RemoveIceCandidates removed_addresses))
  end.

Definition handle_received_ice (ice : Ice) : CM unit :=
  peer_connection ;;
  add_and_remove_remote_ice_candidates (candidates ice).

Definition inject_local_ice_candidate (candidate : IceCandidate.IceCandidate)
    (force_send : bool) : CM unit :=
  ct ← gets connection_type;
  if negb force_send && bool_decide (ct = OutgoingChild) then ret_ok
  else inject_event (ConnectionEvent.LocalIceCandidates [candidate]).

Definition inject_local_ice_candidate_removed (removed_address : SocketAddr)
    (force_send : bool) : CM unit :=
  ct ← gets connection_type;
  if negb force_send && bool_decide (ct = OutgoingChild) then ret_ok
  else inject_event (ConnectionEvent.LocalIceCandidates
         [IceCandidate.from_removed_address removed_address]).

End RemoteIce.

(** ** Media *)

Definition set_incoming_media (incoming_media : MediaStream) : CM unit :=
  c ← get;
  match wd_incoming_media (webrtc c) with
  | Some _ => fail (RingRtcError.ActiveMediaStreamAlreadySet (remote_device_id c))
  | None =>
    modify (fun c => c <| webrtc := (webrtc c) <| wd_incoming_media := Some incoming_media |> |>)
  end.

Definition handle_received_incoming_media (stream : MediaStream) : CM unit :=
  emit (CreateIncomingMedia stream) ;;
  incoming_media ← of_result (env_create_media env stream);
  set_incoming_media incoming_media.

Definition enable_media : CM unit :=
  peer_connection ;;
  emit (ToPeer (SetAudioPlayoutEnabled true)) ;;
  emit (ToPeer (SetIncomingMediaEnabled true)) ;;
  emit (ToPeer (SetOutgoingMediaEnabled true)) ;;
  emit (ToPeer (SetAudioRecordingEnabled true)) ;;
  media ← gets (fun c => wd_incoming_media (webrtc c));
  match media with
  | None => fail (RingRtcError.OptionValueNotSet "enable_media()" "webrtc.incoming_media")
  | Some media => emit (ConnectIncomingMedia media) ;; of_result (env_connect_media env)
  end.

Definition regather_on_all_networks : CM unit :=
  peer_connection ;; emit (ToPeer RegatherOnAllNetworks).

Definition start_tick : CM unit := modify (fun c => c <| ticking := true |>).

(** ** Injections and callbacks *)

Definition inject_send_hangup_via_rtp_data (hangup : Hangup.Hangup) : CM unit :=
  set_state ConnectionState.Terminating ;;
  inject_event (ConnectionEvent.SendHangupViaRtpData hangup).

Definition inject_accept : CM unit := inject_event ConnectionEvent.Accept.

Definition update_sender_status (status : SenderStatus) : CM unit :=
  inject_event (ConnectionEvent.UpdateSenderStatus status).

Definition send_is_screenshare_update (is_screenshare : bool) : CM unit :=
  update_sender_status (mkSenderStatus None (Some is_screenshare) None).

Definition inject_update_data_mode (mode : DataMode.DataMode) : CM unit :=
  inject_event (ConnectionEvent.UpdateDataMode mode).

Definition inject_received_ice (ice : Ice) : CM unit :=
  inject_event (ConnectionEvent.ReceivedIce ice).

Definition inject_received_incoming_media (stream : MediaStream) : CM unit :=
  inject_event (ConnectionEvent.ReceivedIncomingMedia stream).

Definition handle_ice_connection_state_changed (new_state : IceConnectionState) : CM unit :=
  match new_state with
  | IceCompleted | IceStateConnected => inject_event ConnectionEvent.IceConnected
  | IceStateFailed => inject_event ConnectionEvent.IceFailed
  | IceStateDisconnected => inject_event ConnectionEvent.IceDisconnected
  | _ => ret_ok
  end.

Definition inject_ice_network_route_changed (route : NetworkRoute) : CM unit :=
  inject_event (ConnectionEvent.IceNetworkRouteChanged route).

(** ** Termination

    [terminate] blocks until the state machine has set the flag: it is the code
    before and the code after the wait. *)

Definition terminate_begin : CM unit :=
  set_state ConnectionState.Terminating ;;
  inject_event ConnectionEvent.Terminate.

(** The resources freed once the state machine is done. *)
Definition terminate_cleanup : CM unit :=
  modify (fun c => c <| ticking := false |>) ;;
  c ← get;
  (if wd_peer_connection (webrtc c) then emit (ToPeer ClosePeerConnection) else ret_ok) ;;
  modify (fun c => c <| webrtc := (webrtc c) <| wd_incoming_media := None |>
                       <| wd_stats_observer := false |> <| wd_app_connection := false |> |>) ;;
  if wd_connection_ptr (webrtc c) then
    modify (fun c => c <| webrtc := (webrtc c) <| wd_connection_ptr := false |> |>)
  else fail (RingRtcError.OptionValueNotSet "close()" "connection_ptr").

Definition terminate_end : CM unit :=
  set_state ConnectionState.Terminated ;;
  terminate_cleanup.

Definition notify_terminate_complete : CM unit :=
  modify (fun c => c <| terminate_complete := true |>).

End Ops.

(** ** Automation

    An operation is unfolded down to its updates; one that does not touch a field
    keeps it. *)
Create HintDb conn_ops.
#[global] Hint Unfold start_fsm notify_observer internal_error set_state terminating
  peer_connection inject_event inject_internal_error or_inject_internal_error
  apply_bandwidth_controller update_bandwidth_controller set_remote_max_bitrate
  set_network_route set_stats_snapshot_consumer send_via_rtp_data update_and_send_rtp_data_message
  send_latest_rtp_data_message send_hangup_via_rtp_data send_accepted_via_rtp_data
  update_sender_status_from_fsm update_data_mode or_warn inject_received_via_rtp_data
  handle_rtp_received check_bwe tick_rest buffer_local_ice_candidates
  take_buffered_local_ice_candidates add_and_remove_remote_ice_candidates handle_received_ice
  inject_local_ice_candidate inject_local_ice_candidate_removed set_incoming_media
  handle_received_incoming_media enable_media regather_on_all_networks start_tick
  inject_send_hangup_via_rtp_data inject_accept update_sender_status
  send_is_screenshare_update inject_update_data_mode inject_received_ice
  inject_received_incoming_media handle_ice_connection_state_changed
  inject_ice_network_route_changed terminate_begin terminate_end terminate_cleanup
  notify_terminate_complete : conn_ops.

#[global] Hint Extern 2 (respects (same _) (modify _)) =>
  apply respects_modify; intros; reflexivity : respects.
#[global] Hint Extern 2 (respects (same _) (emit _)) =>
  apply respects_modify; intros; reflexivity : respects.

(** [set_state] changes the state even when the observer refuses the event. *)
Lemma set_state_state env st c : state (set_state env st c).1 = st.
Proof.
  unfold set_state, gets, mbind, ST_bind; cbn. case_bool_decide as Heq; [done|].
  done.
Qed.

Lemma tick_rel `{Codec RtpMessage} (R : relation Connection) `{!PreOrder R} env n c c' r :
  respects R send_latest_rtp_data_message -> respects R (tick_rest env n) ->
  tick env n c = Val (c', r) -> R c c'.
Proof.
  intros Hl Hr. unfold tick.
  set (m := if is_multiple_of _ _ then _ else _).
  assert (respects R m) as Hi.
  { subst m. case_match; [done|]. by apply respects_ret_ok. }
  specialize (Hi c). destruct (m c) as [c1 [u|e]]; cbn in *.
  - case_match; [done|]. intros [= Hc]. specialize (Hr c1). rewrite Hc in Hr. by etrans.
  - by intros [= <- <-].
Qed.

Ltac conn_respects := intros; autounfold with conn_ops; solve_respects.

End Connection.
