(* ===== verification/ConnectionStart.v ===== *)
(** * Starting a connection (src/rust/src/core/connection.rs, webrtc/sdp_observer.rs)

    The three ways a connection starts: the caller's parent connection makes the
    offer, the callee's connection answers it, and the caller's child connection
    combines both.  Each derives SRTP keys from a Diffie-Hellman exchange carried
    in the offer and the answer.

    X25519, HKDF and the C++ session descriptions are parameters: [SrtpCrypto]
    and [SdpFfi] are what the source uses of them; [SrtpCryptoLaws] states the
    documented facts the key agreement rests on. *)

From S2P Require Import Prelude States Signaling ConnectionTypes Connection.
Local Open Scope Z_scope.
Local Open Scope ringrtc_scope.

(** ** Parameters *)

Class SrtpCrypto : Type := {
  StaticSecret : Type;
  public_key_of : StaticSecret -> list Z;
  diffie_hellman : StaticSecret -> list Z -> list Z;
  was_contributory : list Z -> bool;
  (** [Hkdf::<Sha256>::new(Some(salt), ikm).expand(info, okm)], with the length of
      the output buffer. *)
  hkdf_expand : list Z -> list Z -> list Z -> Z -> option (list Z);
}.

Class SrtpCryptoLaws `{SrtpCrypto} : Prop := {
  dh_comm : forall a b, diffie_hellman a (public_key_of b) = diffie_hellman b (public_key_of a);
  public_key_length : forall a, length (public_key_of a) = 32%nat;
  hkdf_length : forall salt ikm info n okm,
    hkdf_expand salt ikm info n = Some okm -> zlen okm = n;
}.

Inductive RffiVideoCodecType : Type := Vp8 | Vp9.

Record RffiConnectionParametersV4 : Type := mkRffiV4 {
  rffi_ice_ufrag : string;
  rffi_ice_pwd : string;
  rffi_bidirectional : list RffiVideoCodecType;
  rffi_encode_only : list RffiVideoCodecType;
  rffi_decode_only : list RffiVideoCodecType;
}.

(** The C++ functions on session descriptions. *)
Class SdpFfi : Type := {
  ffi_to_v4 : Z -> bool -> bool -> option RffiConnectionParametersV4;
  ffi_to_v4_legacy : Z -> bool -> option RffiConnectionParametersV4;
  ffi_from_v4 : bool -> RffiConnectionParametersV4 -> bool -> bool -> bool -> bool -> option Z;
  ffi_from_v4_legacy : bool -> RffiConnectionParametersV4 -> bool -> bool -> option Z;
  ffi_disable_dtls_and_set_srtp_key : Z -> SrtpKey -> bool;
}.

Module ConnectionStart.
Import Connection.

(** ** Session descriptions *)

Section Sdp.
Context `{SdpFfi}.

Definition disable_dtls_and_set_srtp_key (self : SessionDescription) (key : SrtpKey)
  : result SessionDescription Error :=
  if ffi_disable_dtls_and_set_srtp_key (sd_rffi self) key
  then Ok (mkSessionDescription (sd_rffi self) (Some key) (sd_supports_asymmetric self))
  else Err RingRtcError.MungeSdp.

Definition rffi_codecs_to_proto (l : list RffiVideoCodecType) : list (option Z) :=
  map (fun c => Some match c with Vp8 => 8 | Vp9 => 9 end) l.

Definition to_v4 (self : SessionDescription) (public_key : list Z) (cfg : CallConfig)
    (mode : DataMode.DataMode) : result ConnectionParametersV4 Error :=
  match sd_supports_asymmetric self with
  | None => Err (RingRtcError.Anyhow
      "Unexpectedly called SessionDescription::to_v4 in a group call context")
  | Some supports_asymmetric =>
    match (if supports_asymmetric
           then ffi_to_v4 (sd_rffi self) (enable_vp9_encode cfg) (enable_vp9_decode cfg)
           else ffi_to_v4_legacy (sd_rffi self) (enable_vp9_encode cfg && enable_vp9_decode cfg))
    with
    | None => Err RingRtcError.MungeSdp
    | Some rffi_v4 =>
      Ok {| v4_public_key := Some public_key;
            v4_ice_ufrag := Some (rffi_ice_ufrag rffi_v4);
            v4_ice_pwd := Some (rffi_ice_pwd rffi_v4);
            v4_receive_video_codecs := rffi_codecs_to_proto (rffi_bidirectional rffi_v4);
            v4_max_bitrate_bps := Some (DataRate.as_bps (DataMode.max_bitrate mode));
            v4_encode_only_video_codecs := rffi_codecs_to_proto (rffi_encode_only rffi_v4);
            v4_decode_only_video_codecs := rffi_codecs_to_proto (rffi_decode_only rffi_v4) |}
    end
  end.

(** [CString::new] refuses a string with a NUL byte. *)
Fixpoint contains_nul (s : string) : bool :=
  match s with
  | EmptyString => false
  | String a s => bool_decide (a = Ascii.zero) || contains_nul s
  end.

Definition to_cstring (s : option string) : result string Error :=
  match s with
  | Some s => if contains_nul s
              then Err (RingRtcError.Anyhow "nul byte found in provided data")
              else Ok s
  | None => Ok ""%string
  end.

Definition proto_to_rffi (codec : option Z) : option RffiVideoCodecType :=
  match codec with
  | None => None
  | Some t => if t =? 8 then Some Vp8 else if t =? 9 then Some Vp9 else None
  end.

Definition is_empty {A} (l : list A) : bool := match l with [] => true | _ => false end.

Definition from_v4 (offer : bool) (v4 : ConnectionParametersV4) (cfg : CallConfig)
    (is_v4_local : bool) : result SessionDescription Error :=
  match to_cstring (v4_ice_ufrag v4), to_cstring (v4_ice_pwd v4) with
  | Err e, _ => Err e
  | Ok _, Err e => Err e
  | Ok ufrag, Ok pwd =>
    let supports_asymmetric :=
      negb (is_empty (v4_encode_only_video_codecs v4)) &&
      negb (is_empty (v4_decode_only_video_codecs v4)) in
    let rffi_v4 := mkRffiV4 ufrag pwd
      (omap proto_to_rffi (v4_receive_video_codecs v4))
      (if supports_asymmetric then omap proto_to_rffi (v4_encode_only_video_codecs v4) else [])
      (if supports_asymmetric then omap proto_to_rffi (v4_decode_only_video_codecs v4) else []) in
    match (if supports_asymmetric
           then ffi_from_v4 offer rffi_v4 (enable_tcc_audio cfg) (enable_vp9_encode cfg)
                  (enable_vp9_decode cfg) is_v4_local
           else ffi_from_v4_legacy offer rffi_v4 (enable_tcc_audio cfg)
                  (enable_vp9_encode cfg && enable_vp9_decode cfg))
    with
    | None => Err RingRtcError.MungeSdp
    | Some rffi => Ok (mkSessionDescription rffi None (Some supports_asymmetric))
    end
  end.

Definition offer_from_v4 := from_v4 true.
Definition answer_from_v4 := from_v4 false.

End Sdp.

(** ** Key negotiation *)

Record NegotiatedSrtpKeys : Type := mkNegotiatedSrtpKeys {
  offer_key : SrtpKey;
  answer_key : SrtpKey;
}.

(** The bytes of an ASCII string. *)
Fixpoint bytes_of_string (s : string) : list Z :=
  match s with
  | EmptyString => []
  | String a s => Z.of_N (Ascii.N_of_ascii a) :: bytes_of_string s
  end.

Definition SUITE : SrtpCryptoSuite := AeadAes256Gcm.
Definition KEY_SIZE : nat := Z.to_nat (key_size SUITE).
Definition SALT_SIZE : nat := Z.to_nat (salt_size SUITE).
Definition hkdf_info_prefix : string := "Signal_Calling_20200807_SignallingDH_SRTPKey_KDF".

Section Keys.
Context `{SrtpCrypto}.

Definition negotiate_srtp_keys (local_secret : StaticSecret)
    (remote_public_key caller_identity_key callee_identity_key : list Z)
  : result NegotiatedSrtpKeys Error :=
  (* safe_copy_from_slice into a [u8; 32] *)
  if negb (zlen remote_public_key =? 32) then Err RingRtcError.InvalidRemoteSrtpKey
  else
    let shared_secret := diffie_hellman local_secret remote_public_key in
    if negb (was_contributory shared_secret) then Err RingRtcError.InvalidRemoteSrtpKey
    else
      let hkdf_salt := replicate 32 0 in
      let hkdf_info :=
        bytes_of_string hkdf_info_prefix ++ caller_identity_key ++ callee_identity_key in
      match hkdf_expand hkdf_salt shared_secret hkdf_info
              (Z.of_nat (KEY_SIZE + SALT_SIZE + KEY_SIZE + SALT_SIZE)) with
      | None => Err RingRtcError.SrtpKeyNegotiationFailure
      | Some okm =>
        let offer_key := take KEY_SIZE okm in
        let okm := drop KEY_SIZE okm in
        let offer_salt := take SALT_SIZE okm in
        let okm := drop SALT_SIZE okm in
        let answer_key := take KEY_SIZE okm in
        let okm := drop KEY_SIZE okm in
        let answer_salt := take SALT_SIZE okm in
        Ok (mkNegotiatedSrtpKeys (mkSrtpKey SUITE offer_key offer_salt)
              (mkSrtpKey SUITE answer_key answer_salt))
      end.

End Keys.

(** ** Starting *)

(** The answers of WebRTC while a connection is configured, and the fresh secret
    drawn there. *)
Record SetupEnv `{SrtpCrypto} : Type := mkSetupEnv {
  su_secret : StaticSecret;
  su_create_gatherer : result unit Error;
  su_use_gatherer : result unit Error;
  su_send_only_transceiver : bool;
  su_create_description : result Z Error;
  su_set_local : result unit Error;
  su_set_remote : result unit Error;
  su_receive_rtp : result unit Error;
}.

Section Start.
Context `{SrtpCrypto} `{SdpFfi}.
Context `{Codec OfferProto} `{Codec AnswerProto} `{Codec IceCandidateProto}.
Context (env : Env) (su : SetupEnv).

Definition peer (call : PeerCall) (answer : result unit Error) : CM unit :=
  emit (ToPeer call) ;; of_result answer.

(** The body of [start_outgoing_parent] before [start_fsm]. *)
Definition outgoing_parent_body (call_media_type : CallMediaType) : CM (StaticSecret * Offer) :=
  set_state env ConnectionState.Starting ;;
  peer_connection ;;
  peer CreateSharedIceGatherer (su_create_gatherer su) ;;
  peer UseSharedIceGatherer (su_use_gatherer su) ;;
  emit (ToPeer CreateOffer) ;;
  rffi ← of_result (su_create_description su);
  let offer := mkSessionDescription rffi None (Some true) in
  let local_secret := su_secret su in
  cfg ← gets call_config;
  v4_offer ← of_result (to_v4 offer (public_key_of local_secret) cfg (data_mode cfg));
  peer (SetLocalDescription offer) (su_set_local su) ;;
  offer ← of_result (Offer_from_v4 call_media_type v4_offer);
  set_state env ConnectionState.IceGathering ;;
  mret (local_secret, offer).

(** The body of [start_outgoing_child] before [start_fsm]. *)
Definition outgoing_child_body (local_secret : StaticSecret) (offer : Offer)
    (received : ReceivedAnswer) : CM unit :=
  set_state env ConnectionState.Starting ;;
  modify (fun c => c <| webrtc := (webrtc c) <| wd_stats_observer := true |> |>) ;;
  peer_connection ;;
  peer UseSharedIceGatherer (su_use_gatherer su) ;;
  emit (ToPeer CreateSendOnlyTransceiver) ;;
  if negb (su_send_only_transceiver su)
  then fail (RingRtcError.Anyhow "Couldn't create send-only transceiver for video")
  else
  emit (ToPeer CreateOffer) ;;
  _ ← of_result (su_create_description su);
  match Offer_to_v4 offer, Answer_to_v4 (ra_answer received) with
  | Some v4_offer, Some v4_answer =>
    let v4_offer :=
      if is_empty (v4_encode_only_video_codecs v4_answer) ||
         is_empty (v4_decode_only_video_codecs v4_answer)
      then mkV4 (v4_public_key v4_offer) (v4_ice_ufrag v4_offer) (v4_ice_pwd v4_offer)
             (v4_receive_video_codecs v4_offer) (v4_max_bitrate_bps v4_offer) [] []
      else v4_offer in
    modify (fun c => c <| bandwidth_controller :=
      BandwidthController.mkBandwidthController
        (BandwidthController.local_mode (bandwidth_controller c))
        (DataRate.from_bps <$> v4_max_bitrate_bps v4_answer)
        (BandwidthController.network_route (bandwidth_controller c)) |>) ;;
    cfg ← gets call_config;
    offer ← of_result (offer_from_v4 v4_offer cfg true);
    answer ← of_result (answer_from_v4 v4_answer cfg false);
    descriptions ← match v4_public_key v4_answer with
      | Some remote_public_key =>
        let callee_identity_key := ra_sender_identity_key received in
        let caller_identity_key := ra_receiver_identity_key received in
        keys ← of_result (negotiate_srtp_keys local_secret remote_public_key
                            caller_identity_key callee_identity_key);
        offer ← of_result (disable_dtls_and_set_srtp_key offer (offer_key keys));
        answer ← of_result (disable_dtls_and_set_srtp_key answer (answer_key keys));
        mret (offer, answer)
      | None => mret (offer, answer)
      end;
    peer (SetLocalDescription descriptions.1) (su_set_local su) ;;
    peer (ReceiveRtp RTP_DATA_PAYLOAD_TYPE true) (su_receive_rtp su) ;;
    peer (SetRemoteDescription descriptions.2) (su_set_remote su) ;;
    emit (ToPeer ConfigureAudioEncoders) ;;
    emit (ToPeer ConfigureAudioDecoders) ;;
    apply_bandwidth_controller env ;;
    set_state env ConnectionState.ConnectingBeforeAccepted
  | _, _ => fail RingRtcError.UnknownSignaledProtocolVersion
  end.

(** The body of [start_incoming] before [start_fsm]. *)
Definition incoming_body (received : ReceivedOffer)
    (remote_ice_candidates : list IceCandidate.IceCandidate) : CM Answer :=
  set_state env ConnectionState.Starting ;;
  modify (fun c => c <| webrtc := (webrtc c) <| wd_stats_observer := true |> |>) ;;
  peer_connection ;;
  match Offer_to_v4 (ro_offer received) with
  | None => fail RingRtcError.UnknownSignaledProtocolVersion
  | Some v4_offer =>
    modify (fun c => c <| bandwidth_controller :=
      BandwidthController.mkBandwidthController
        (BandwidthController.local_mode (bandwidth_controller c))
        (DataRate.from_bps <$> v4_max_bitrate_bps v4_offer)
        (BandwidthController.network_route (bandwidth_controller c)) |>) ;;
    cfg ← gets call_config;
    offer ← of_result (offer_from_v4 v4_offer cfg false);
    let local_secret := su_secret su in
    offer_and_key ← match v4_public_key v4_offer with
      | None => mret (offer, None)
      | Some remote_public_key =>
        let caller_identity_key := ro_sender_identity_key received in
        let callee_identity_key := ro_receiver_identity_key received in
        keys ← of_result (negotiate_srtp_keys local_secret remote_public_key
                            caller_identity_key callee_identity_key);
        offer ← of_result (disable_dtls_and_set_srtp_key offer (offer_key keys));
        mret (offer, Some (answer_key keys))
      end;
    let set_answer_key (answer : SessionDescription) :=
      match offer_and_key.2 with
      | Some key => disable_dtls_and_set_srtp_key answer key
      | None => Ok answer
      end in
    peer (SetRemoteDescription offer_and_key.1) (su_set_remote su) ;;
    emit (ToPeer CreateAnswer) ;;
    rffi ← of_result (su_create_description su);
    answer ← of_result (set_answer_key
      (mkSessionDescription rffi None (sd_supports_asymmetric offer_and_key.1)));
    local_mode ← gets (fun c => BandwidthController.local_mode (bandwidth_controller c));
    v4_answer ← of_result (to_v4 answer (public_key_of local_secret) cfg local_mode);
    answer ← of_result (answer_from_v4 v4_answer cfg true);
    answer ← of_result (set_answer_key answer);
    answer_to_send ← of_result (Answer_from_v4 v4_answer);
    peer (ReceiveRtp RTP_DATA_PAYLOAD_TYPE false) (su_receive_rtp su) ;;
    peer (SetLocalDescription answer) (su_set_local su) ;;
    emit (ToPeer ConfigureAudioEncoders) ;;
    emit (ToPeer ConfigureAudioDecoders) ;;
    apply_bandwidth_controller env ;;
    peer_connection ;;
    add_and_remove_remote_ice_candidates remote_ice_candidates ;;
    set_state env ConnectionState.ConnectingBeforeAccepted ;;
    mret answer_to_send
  end.

(** The state machine is started whatever the result of the body. *)
Definition then_start_fsm {A} (body : CM A) : CM A :=
  result ← attempt body;
  start_fsm ;;
  of_result result.

Definition start_outgoing_parent (call_media_type : CallMediaType) : CM (StaticSecret * Offer) :=
  then_start_fsm (outgoing_parent_body call_media_type).

Definition start_outgoing_child (local_secret : StaticSecret) (offer : Offer)
    (received : ReceivedAnswer) : CM unit :=
  then_start_fsm (outgoing_child_body local_secret offer received).

Definition start_incoming (received : ReceivedOffer)
    (remote_ice_candidates : list IceCandidate.IceCandidate) : CM Answer :=
  then_start_fsm (incoming_body received remote_ice_candidates).

End Start.

(** ** Theorems *)

(** The keys of the descriptions given to WebRTC, in order. *)
Inductive Side : Type := Local | Remote.

Definition described (o : Output) : option (Side * option SrtpKey) :=
  match o with
  | ToPeer (SetLocalDescription d) => Some (Local, sd_srtp_key d)
  | ToPeer (SetRemoteDescription d) => Some (Remote, sd_srtp_key d)
  | _ => None
  end.

Definition described_keys (c : Connection) : list (Side * option SrtpKey) :=
  omap described (outputs c).

Definition quiet {A} (m : CM A) : Prop := respects (same described_keys) m.

Lemma quiet_run {A} (m : CM A) c c' r :
  quiet m -> m c = (c', r) -> described_keys c' = described_keys c.
Proof. intros Hq Hm. specialize (Hq c). by rewrite Hm in Hq. Qed.

Lemma described_emit o c :
  described_keys (c <| outputs := outputs c ++ [o] |>) =
  described_keys c ++ option_list (described o).
Proof. unfold described_keys. cbn. rewrite omap_app. cbn. by destruct (described o). Qed.

Lemma quiet_emit o : described o = None -> quiet (emit o).
Proof.
  intros Ho. apply respects_modify. intros c. unfold same.
  rewrite described_emit, Ho. apply app_nil_r.
Qed.

#[local] Hint Extern 1 (respects (same described_keys) (emit _)) =>
  apply quiet_emit; reflexivity : respects.

Section QuietOps.
Context `{Codec IceCandidateProto} (env : Env).

Lemma quiet_set_state st : quiet (set_state env st).
Proof. unfold quiet, set_state, Connection.notify_observer. solve_respects. Qed.

Lemma quiet_peer_connection : quiet peer_connection.
Proof. unfold quiet, peer_connection. solve_respects. Qed.

Lemma quiet_apply_bandwidth_controller : quiet (apply_bandwidth_controller env).
Proof. unfold quiet, apply_bandwidth_controller, peer_connection. solve_respects. Qed.

Lemma quiet_add_and_remove l : quiet (add_and_remove_remote_ice_candidates l).
Proof. unfold quiet, add_and_remove_remote_ice_candidates. solve_respects. Qed.

End QuietOps.

#[local] Hint Resolve quiet_set_state quiet_peer_connection quiet_apply_bandwidth_controller
  quiet_add_and_remove : respects.

(** Invert a successful run: take the binds apart, solve each step that gives no
    description to WebRTC, compute the others. *)
Ltac run_step :=
  match goal with
  | H : (_ ≫= _) _ = (_, Ok _) |- _ =>
    apply ST_bind_ok in H as (? & ? & ? & H)
  | H : emit _ _ = (_, Ok _) |- _ => injection H as <-; try subst
  | H : peer _ _ _ = (_, Ok _) |- _ => unfold peer in H
  | H : of_result _ _ = (_, Ok _) |- _ => injection H as <- H; try subst
  | H : gets _ _ = (_, Ok _) |- _ => injection H as <- H; try subst
  | H : mret _ _ = (_, Ok _) |- _ => injection H as <- H; try subst
  | H : modify _ _ = (_, Ok _) |- _ => injection H as <-; try subst
  | H : fail _ _ = (_, Ok _) |- _ => discriminate H
  | H : set_state _ _ _ = (_, Ok _) |- _ => apply quiet_run in H; [|apply quiet_set_state]
  | H : peer_connection _ = (_, Ok _) |- _ => apply quiet_run in H; [|apply quiet_peer_connection]
  | H : apply_bandwidth_controller _ _ = (_, Ok _) |- _ =>
    apply quiet_run in H; [|apply quiet_apply_bandwidth_controller]
  | H : add_and_remove_remote_ice_candidates _ _ = (_, Ok _) |- _ =>
    apply quiet_run in H; [|apply quiet_add_and_remove]
  end.

(** Follow [described_keys] back through the states of a run. *)
Ltac chain_described :=
  unfold described_keys in *; cbn in *;
  repeat (rewrite ?omap_app in *; cbn in *;
          match goal with
          | H : omap described (outputs ?c) = _ |- context [omap described (outputs ?c)] =>
            rewrite H; clear H
          end);
  rewrite ?omap_app, ?app_nil_r; cbn.

Section Agreement.
Context `{SrtpCrypto} `{SdpFfi}.
Context `{Codec OfferProto} `{Codec AnswerProto} `{Codec IceCandidateProto}.

Lemma disable_dtls_key d k d' :
  disable_dtls_and_set_srtp_key d k = Ok d' -> sd_srtp_key d' = Some k.
Proof. unfold disable_dtls_and_set_srtp_key. case_match; intros; by simplify_eq. Qed.

Lemma to_v4_public_key d pk cfg mode v4 :
  to_v4 d pk cfg mode = Ok v4 -> v4_public_key v4 = Some pk.
Proof. unfold to_v4. repeat case_match; intros; by simplify_eq/=. Qed.

(** A child connection that started uses the negotiated keys. *)
Lemma outgoing_child_keys env su secret offer received c c' :
  outgoing_child_body env su secret offer received c = (c', Ok tt) ->
  exists v4_answer, Answer_to_v4 (ra_answer received) = Some v4_answer /\
    forall pk, v4_public_key v4_answer = Some pk ->
    exists keys,
      negotiate_srtp_keys secret pk (ra_receiver_identity_key received)
        (ra_sender_identity_key received) = Ok keys /\
      described_keys c' = described_keys c ++
        [(Local, Some (offer_key keys)); (Remote, Some (answer_key keys))].
Proof.
  unfold outgoing_child_body. intros Hrun.
  repeat run_step.
  destruct (su_send_only_transceiver su); cbn in Hrun; [|discriminate].
  repeat run_step.
  destruct (Offer_to_v4 offer) as [v4o|]; [|discriminate].
  destruct (Answer_to_v4 (ra_answer received)) as [v4a|]; [|discriminate].
  exists v4a. split; [done|]. intros pk Hpk. rewrite Hpk in Hrun.
  repeat run_step.
  eexists. split; [done|]. chain_described.
  erewrite !disable_dtls_key by done. by rewrite <- app_assoc.
Qed.

(** A parent connection that started made an offer with its own public key, and
    the other side decodes that key. *)
Lemma outgoing_parent_offer `{!CodecLaws OfferProto} env su mt c c' secret offer :
  outgoing_parent_body env su mt c = (c', Ok (secret, offer)) ->
  secret = su_secret su /\ Offer_new mt (offer_opaque offer) = Ok offer /\
  exists v4, Offer_to_v4 offer = Some v4 /\ v4_public_key v4 = Some (public_key_of secret).
Proof.
  unfold outgoing_parent_body. intros Hrun. repeat run_step.
  match goal with Hv : to_v4 _ _ _ _ = Ok ?v, Ho : Offer_from_v4 _ ?v = Ok _ |- _ =>
    apply to_v4_public_key in Hv; destruct (Offer_roundtrip mt v) as (o & Heq & Hto & Hnew);
    rewrite Ho in Heq; injection Heq as ->
  end. eauto.
Qed.

(** An incoming connection that started uses the negotiated keys and answers with
    its own public key. *)
Lemma incoming_keys `{!CodecLaws AnswerProto} env su received cands c c' answer :
  incoming_body env su received cands c = (c', Ok answer) ->
  (Answer_new (answer_opaque answer) = Ok answer /\
   exists v4, Answer_to_v4 answer = Some v4 /\
     v4_public_key v4 = Some (public_key_of (su_secret su))) /\
  exists v4_offer, Offer_to_v4 (ro_offer received) = Some v4_offer /\
    forall pk, v4_public_key v4_offer = Some pk ->
    exists keys,
      negotiate_srtp_keys (su_secret su) pk (ro_sender_identity_key received)
        (ro_receiver_identity_key received) = Ok keys /\
      described_keys c' = described_keys c ++
        [(Remote, Some (offer_key keys)); (Local, Some (answer_key keys))].
Proof.
  unfold incoming_body. intros Hrun. repeat run_step.
  destruct (Offer_to_v4 (ro_offer received)) as [v4o|]; [|discriminate].
  repeat run_step. split.
  - match goal with Hv : to_v4 _ _ _ _ = Ok ?v, Ho : Answer_from_v4 ?v = Ok _ |- _ =>
      apply to_v4_public_key in Hv; destruct (Answer_roundtrip v) as (o & Heq & Hto & Hnew);
      rewrite Ho in Heq; injection Heq as ->
    end. eauto.
  - exists v4o. split; [done|]. intros pk Hpk. rewrite Hpk in *. repeat run_step.
    cbn in *. eexists. split; [done|]. chain_described.
    erewrite !disable_dtls_key by done. by rewrite <- app_assoc.
Qed.

(** Both ends of the exchange compute the same keys. *)
Lemma negotiate_agree `{!SrtpCryptoLaws} a b caller callee :
  negotiate_srtp_keys a (public_key_of b) caller callee =
  negotiate_srtp_keys b (public_key_of a) caller callee.
Proof. unfold negotiate_srtp_keys, zlen. by rewrite dh_comm, !public_key_length. Qed.

(** The key material has the sizes of the cipher suite. *)
Lemma negotiate_sizes `{!SrtpCryptoLaws} a pk caller callee keys :
  negotiate_srtp_keys a pk caller callee = Ok keys ->
  Forall (fun k => srtp_suite k = AeadAes256Gcm /\
                   length (srtp_key k) = 32%nat /\ length (srtp_salt k) = 12%nat)
    [offer_key keys; answer_key keys].
Proof.
  unfold negotiate_srtp_keys. repeat case_match; intros; simplify_eq/=.
  match goal with Hk : hkdf_expand _ _ _ _ = Some _ |- _ => apply hkdf_length in Hk end.
  unfold zlen, KEY_SIZE, SALT_SIZE in *. cbn in *.
  repeat constructor; cbn; rewrite ?length_take, ?length_drop; lia.
Qed.

Lemma then_start_fsm_run {A} (body : CM A) c c' r :
  then_start_fsm body c = (c', r) ->
  exists c1, body c = (c1, r) /\ c' = c1 <| fsm_started := true |>.
Proof.
  unfold then_start_fsm, attempt, mbind, ST_bind. destruct (body c) as [c1 r1] eqn:Hb.
  cbn. intros [= <- <-]. eauto.
Qed.

(** C3. The caller and the callee of a call set up the same SRTP keys.  A parent
    connection makes the offer; the callee's connection, given what it decodes of
    that offer, answers; the caller's child connection, given what it decodes of
    the answer, starts.  If all three succeed and each side was told the identity
    keys of both, the caller encrypts with the key the callee decrypts with, and
    conversely, and the keys and salts have the sizes of AES-256-GCM. *)
Theorem srtp_keys_agree `{!SrtpCryptoLaws} `{!CodecLaws OfferProto} `{!CodecLaws AnswerProto}
    env1 su1 env2 su2 env3 su3 mt parent parent' secret offer received_offer cands
    callee callee' answer received_answer child child' :
  start_outgoing_parent env1 su1 mt parent = (parent', Ok (secret, offer)) ->
  Offer_new mt (offer_opaque offer) = Ok (ro_offer received_offer) ->
  start_incoming env2 su2 received_offer cands callee = (callee', Ok answer) ->
  Answer_new (answer_opaque answer) = Ok (ra_answer received_answer) ->
  ra_sender_identity_key received_answer = ro_receiver_identity_key received_offer ->
  ra_receiver_identity_key received_answer = ro_sender_identity_key received_offer ->
  start_outgoing_child env3 su3 secret offer received_answer child = (child', Ok tt) ->
  exists offer_key answer_key,
    described_keys callee' =
      described_keys callee ++ [(Remote, Some offer_key); (Local, Some answer_key)] /\
    described_keys child' =
      described_keys child ++ [(Local, Some offer_key); (Remote, Some answer_key)] /\
    Forall (fun k => srtp_suite k = AeadAes256Gcm /\
                     length (srtp_key k) = 32%nat /\ length (srtp_salt k) = 12%nat)
      [offer_key; answer_key].
Proof.
  intros Hp Ho Hi Ha Hsid Hrid Hc.
  apply then_start_fsm_run in Hp as (p1 & Hp & ->), Hi as (i1 & Hi & ->), Hc as (d1 & Hc & ->).
  apply outgoing_parent_offer in Hp as (_ & Hnew & v4o & Hv4o & Hpko).
  rewrite Hnew in Ho. injection Ho as Ho.
  apply incoming_keys in Hi as ((Hnewa & v4a & Hv4a & Hpka) & v4o' & Hv4o' & Hkeys).
  rewrite <- Ho, Hv4o in Hv4o'. injection Hv4o' as <-.
  destruct (Hkeys _ Hpko) as (keys & Hneg & Hdi).
  rewrite Hnewa in Ha. injection Ha as Ha.
  apply outgoing_child_keys in Hc as (v4a' & Hv4a' & Hkeysc).
  rewrite <- Ha, Hv4a in Hv4a'. injection Hv4a' as <-.
  destruct (Hkeysc _ Hpka) as (keys' & Hneg' & Hdc).
  rewrite Hsid, Hrid, negotiate_agree, Hneg in Hneg'. injection Hneg' as <-.
  exists (offer_key keys), (answer_key keys).
  split_and!; [done|done|]. by eapply negotiate_sizes.
Qed.

End Agreement.

(** ** The state after starting *)

(** The state is unchanged or [target]. *)
Definition to_state (target : ConnectionState.ConnectionState) : relation Connection :=
  fun c c' => state c' = state c \/ state c' = target.

#[local] Instance to_state_preorder target : PreOrder (to_state target).
Proof. split; unfold to_state; [by left|]. intros c1 c2 c3 H12 [H23|H23]; rewrite H23; auto. Qed.

Lemma to_state_set_state env st : respects (to_state st) (set_state env st).
Proof. intros c. right. apply set_state_state. Qed.

#[local] Hint Resolve to_state_set_state : respects.
#[local] Hint Extern 3 (respects (to_state _) (modify _)) =>
  apply respects_modify; intros; left; reflexivity : respects.

(** A body that first enters [Starting], then only moves to [target], and ends
    there when it succeeds. *)
Lemma started_state {A} env target (rest : CM A) c :
  respects (to_state target) rest ->
  (forall c c' a, rest c = (c', Ok a) -> state c' = target) ->
  let run := then_start_fsm (set_state env ConnectionState.Starting ;; rest) c in
  fsm_started run.1 = true /\ (is_ok run.2 = true -> state run.1 = target) /\
  (state run.1 = ConnectionState.Starting \/ state run.1 = target).
Proof.
  intros Hresp Hok. cbn zeta. unfold then_start_fsm, attempt, mbind, ST_bind.
  pose proof (set_state_state env ConnectionState.Starting c) as Hst.
  destruct (set_state env ConnectionState.Starting c) as [c1 [u|e]]; cbn in *; [|naive_solver].
  specialize (Hresp c1). unfold to_state in Hresp. rewrite Hst in Hresp.
  destruct (rest c1) as [c2 [a|e]] eqn:Hrun; cbn in *; [|naive_solver].
  apply Hok in Hrun. naive_solver.
Qed.

Lemma set_state_run env target c c' r :
  set_state env target c = (c', r) -> state c' = target.
Proof. intros Hs. by rewrite <- (set_state_state env target c), Hs. Qed.

Ltac start_respects :=
  unfold apply_bandwidth_controller, add_and_remove_remote_ice_candidates, peer,
    peer_connection, emit; solve_respects.

(** Invert a run down to its last [set_state]. *)
Ltac run_to_set_state H :=
  cbv zeta in H;
  repeat match type of H with
  | (_ ≫= _) _ = (_, Ok _) => apply ST_bind_ok in H as (? & ? & ? & H); cbv zeta in H
  | (match ?x with _ => _ end) _ = (_, Ok _) => destruct x; try discriminate H
  end.

Section StartState.
Context `{SrtpCrypto} `{SdpFfi}.
Context `{Codec OfferProto} `{Codec AnswerProto} `{Codec IceCandidateProto}.
Context (env : Env) (su : SetupEnv).

(** However a connection is started and whatever fails on the way, its state
    machine runs afterwards, so that it can be terminated.  If starting succeeds
    the connection gathers candidates (an outgoing parent) or connects (an
    outgoing child, an incoming connection); if it fails the state is one of
    these or still [Starting]. *)
Theorem start_leaves_a_running_fsm mt secret offer received_answer received_offer cands c :
  let outgoing_parent := start_outgoing_parent env su mt c in
  let outgoing_child := start_outgoing_child env su secret offer received_answer c in
  let incoming := start_incoming env su received_offer cands c in
  (fsm_started outgoing_parent.1 = true /\
   (is_ok outgoing_parent.2 = true -> state outgoing_parent.1 = ConnectionState.IceGathering) /\
   (state outgoing_parent.1 = ConnectionState.Starting \/
    state outgoing_parent.1 = ConnectionState.IceGathering)) /\
  (fsm_started outgoing_child.1 = true /\
   (is_ok outgoing_child.2 = true ->
    state outgoing_child.1 = ConnectionState.ConnectingBeforeAccepted) /\
   (state outgoing_child.1 = ConnectionState.Starting \/
    state outgoing_child.1 = ConnectionState.ConnectingBeforeAccepted)) /\
  (fsm_started incoming.1 = true /\
   (is_ok incoming.2 = true -> state incoming.1 = ConnectionState.ConnectingBeforeAccepted) /\
   (state incoming.1 = ConnectionState.Starting \/
    state incoming.1 = ConnectionState.ConnectingBeforeAccepted)).
Proof.
  cbn zeta. split; [|split]; apply started_state.
  all: try solve [start_respects].
  all: intros c1 c2 a Hrun; run_to_set_state Hrun.
  all: try injection Hrun as -> _.
  all: by eauto using set_state_run.
Qed.

End StartState.

(** ** A concrete instance of the parameters *)

Module Toy.

#[export] Instance toy_crypto : SrtpCrypto := {|
  StaticSecret := Z;
  public_key_of s := replicate 32 s;
  diffie_hellman s pk := [s * default 0 (head pk)];
  was_contributory k := negb (bool_decide (k = [0]));
  hkdf_expand salt ikm info n :=
    if n <? 0 then None
    else Some (take (Z.to_nat n) (ikm ++ info ++ replicate (Z.to_nat n) 0));
|}.

#[export] Instance toy_crypto_laws : SrtpCryptoLaws.
Proof.
  split.
  - intros a b. cbn. f_equal. lia.
  - done.
  - intros salt ikm info n okm. cbn. destruct (Z.ltb_spec n 0); [done|].
    intros [= <-]. unfold zlen. rewrite length_take, !length_app, length_replicate. lia.
Qed.

#[export] Instance toy_ffi : SdpFfi := {|
  ffi_to_v4 _ _ _ := Some (mkRffiV4 "u" "" [Vp8] [Vp8; Vp9] [Vp8]);
  ffi_to_v4_legacy _ _ := Some (mkRffiV4 "u" "" [Vp8] [] []);
  ffi_from_v4 _ _ _ _ _ _ := Some 2;
  ffi_from_v4_legacy _ _ _ _ := Some 3;
  ffi_disable_dtls_and_set_srtp_key _ _ := true;
|}.

#[export] Instance V4_eq_dec : EqDecision ConnectionParametersV4.
Proof. solve_decision. Defined.
#[export] Instance V4_countable : Countable ConnectionParametersV4.
Proof.
  refine (inj_countable'
    (fun v => (v4_ice_pwd v, v4_receive_video_codecs v, v4_max_bitrate_bps v,
               v4_encode_only_video_codecs v, v4_decode_only_video_codecs v,
               v4_ice_ufrag v, v4_public_key v))
    (fun '(c, d, e, f, g, b, a) => mkV4 a b c d e f g) _).
  by intros [].
Defined.

#[export] Instance OfferProto_eq_dec : EqDecision OfferProto.
Proof. solve_decision. Defined.
#[export] Instance OfferProto_countable : Countable OfferProto.
Proof. refine (inj_countable' op_v4 mkOfferProto _). by intros []. Defined.
#[export] Instance AnswerProto_eq_dec : EqDecision AnswerProto.
Proof. solve_decision. Defined.
#[export] Instance AnswerProto_countable : Countable AnswerProto.
Proof. refine (inj_countable' ap_v4 mkAnswerProto _). by intros []. Defined.

#[export] Instance offer_codec : Codec OfferProto := countable_codec OfferProto.
#[export] Instance offer_codec_laws : CodecLaws OfferProto := countable_codec_laws OfferProto.
#[export] Instance answer_codec : Codec AnswerProto := countable_codec AnswerProto.
#[export] Instance answer_codec_laws : CodecLaws AnswerProto := countable_codec_laws AnswerProto.
#[export] Instance ice_codec : Codec IceCandidateProto :=
  {| pb_encode _ := []; pb_decode _ := None |}.

Definition setup (secret : Z) : SetupEnv :=
  mkSetupEnv _ secret (Ok tt) (Ok tt) true (Ok 1) (Ok tt) (Ok tt) (Ok tt).

(** A new connection whose peer connection was created. *)
Definition fresh (dir : CallDirection) (device : DeviceId) (ct : ConnectionType) : Connection :=
  let c := new 7 dir device ct default_call_config None in
  c <| webrtc := (webrtc c) <| wd_peer_connection := true |> |>.

End Toy.

Section Witness.
Import Toy.

Lemma srtp_keys_agree_witness :
  exists callee' child' offer_key answer_key,
    described_keys callee' = [(Remote, Some offer_key); (Local, Some answer_key)] /\
    described_keys child' = [(Local, Some offer_key); (Remote, Some answer_key)] /\
    Forall (fun k => srtp_suite k = AeadAes256Gcm /\
                     length (srtp_key k) = 32%nat /\ length (srtp_salt k) = 12%nat)
      [offer_key; answer_key].
Proof.
  do 2 eexists.
  eapply (srtp_keys_agree ok_env (setup 5) ok_env (setup 11) ok_env (setup 0) Audio
    (fresh Outgoing 0 OutgoingParent) _ _ _ (mkReceivedOffer _ 0 1 2 [1; 2] [3; 4]) []
    (fresh Incoming 1 IncomingConnection) _ _ (mkReceivedAnswer _ 2 [3; 4] [1; 2])
    (fresh Outgoing 2 OutgoingChild));
    vm_compute; reflexivity.
Defined.

End Witness.

End ConnectionStart.
