(* ===== verification/ConnectionFsm.v ===== *)
(** * The connection state machine (src/rust/src/core/connection_fsm.rs)

    The state machine takes events from its queue one by one.  Lengthy work goes
    to a worker thread and notifications to a notify thread: a closure sent to one
    of them is a value of [WorkerTask] or [NotifyTask], run later.  [step] is the
    interleaving of the three threads with the threads that use the connection
    from outside; the state an event is handled with is read in a step of its own,
    as in [run], so another thread may change the state in between. *)

From S2P Require Import Prelude States Signaling ConnectionTypes Connection.
Local Open Scope Z_scope.
Local Open Scope ringrtc_scope.

Module ConnectionFsm.

Import Connection.

Inductive WorkerTask : Type :=
| SendAcceptedTask
| SendHangupTask (hangup : Hangup.Hangup)
| UpdateSenderStatusTask (status : SenderStatus)
| UpdateDataModeTask (mode : DataMode.DataMode)
| BufferLocalIceTask (candidates : list IceCandidate.IceCandidate)
| IncomingMediaTask (stream : MediaStream).

Inductive NotifyTask : Type :=
| NotifyObserverTask (event : ObserverEvent)
| NotifyErrorTask (error : Error).

(** [ConnectionStateMachine], with the connection it is given with every event
    and the queues of its two threads. *)
Record Fsm : Type := mkFsm {
  conn : Connection;
  worker : list WorkerTask;
  worker_stopped : bool;
  notify : list NotifyTask;
  notify_stopped : bool;
  last_remote_sender_status : option (Z * SenderStatus);
  last_remote_receiver_status : option (Z * DataRate.DataRate);
}.

#[global] Instance Fsm_eta : Eta Fsm := fun r =>
  mkFsm (conn r) (worker r) (worker_stopped r) (notify r) (notify_stopped r)
    (last_remote_sender_status r) (last_remote_receiver_status r).

Notation FM := (ST Fsm Error).

Definition new (c : Connection) : Fsm := mkFsm c [] false [] false None None.

(** Run code of the connection. *)
Definition on_conn {A} (m : CM A) : FM A := fun s =>
  let '(c, r) := m (conn s) in (s <| conn := c |>, r).

Definition worker_spawn (t : WorkerTask) : FM unit := modify (fun s =>
  if worker_stopped s then s else s <| worker := worker s ++ [t] |>).

Definition notify_spawn (t : NotifyTask) : FM unit := modify (fun s =>
  if notify_stopped s then s else s <| notify := notify s ++ [t] |>).

(** [stop_all_and_join]: what was not started is dropped. *)
Definition drain_worker_thread : FM unit :=
  modify (fun s => s <| worker := [] |> <| worker_stopped := true |>).
Definition drain_notify_thread : FM unit :=
  modify (fun s => s <| notify := [] |> <| notify_stopped := true |>).

(** [unexpected_state] only logs. *)
Definition unexpected_state : FM unit := ret_ok.

Definition notify_observer (event : ObserverEvent) : FM unit :=
  notify_spawn (NotifyObserverTask event).

Definition send_accepted_via_rtp_data : FM unit := worker_spawn SendAcceptedTask.

Section Handlers.
Context `{Codec RtpMessage} `{Codec IceCandidateProto}.
Context (env : Env).

(** ** The closures *)

(** [if connection.terminating()? { return Ok(()) }] before the work. *)
Definition unless_terminating (m : CM unit) : CM unit :=
  b ← terminating; if b : bool then ret_ok else m.

Definition run_worker_task (t : WorkerTask) : CM unit :=
  match t with
  | SendAcceptedTask =>
    or_inject_internal_error (unless_terminating Connection.send_accepted_via_rtp_data)
  | SendHangupTask hangup =>
    or_inject_internal_error (send_hangup_via_rtp_data hangup)
  | UpdateSenderStatusTask status =>
    or_inject_internal_error (unless_terminating (update_sender_status_from_fsm status))
  | UpdateDataModeTask mode =>
    or_inject_internal_error (unless_terminating (update_data_mode env mode))
  | BufferLocalIceTask candidates =>
    or_inject_internal_error (unless_terminating (buffer_local_ice_candidates env candidates))
  | IncomingMediaTask stream =>
    or_inject_internal_error (unless_terminating (handle_received_incoming_media env stream))
  end.

Definition run_notify_task (t : NotifyTask) : CM unit :=
  match t with
  | NotifyObserverTask event =>
    or_inject_internal_error (unless_terminating (Connection.notify_observer env event))
  | NotifyErrorTask error =>
    or_warn (unless_terminating (internal_error env error))
  end.

(** ** Handlers *)

Definition handle_remote_receiver_status_changed (max_bitrate : DataRate.DataRate) : FM unit :=
  on_conn (set_remote_max_bitrate env max_bitrate).

Definition handle_remote_sender_status_changed (status : SenderStatus) : FM unit :=
  on_conn (Connection.notify_observer env
    (ConnectionObserverEvent.RemoteSenderStatusChanged status)).

Definition handle_connected_and_accepted_for_the_first_time : FM unit :=
  on_conn (set_state env ConnectionState.ConnectedAndAccepted) ;;
  rs ← gets last_remote_receiver_status;
  match rs with
  | Some (_, max_bitrate) => handle_remote_receiver_status_changed max_bitrate
  | None => ret_ok
  end ;;
  ss ← gets last_remote_sender_status;
  match ss with
  | Some (_, status) => handle_remote_sender_status_changed status
  | None => ret_ok
  end ;;
  dir ← gets (fun s => direction (conn s));
  if bool_decide (dir = Incoming) then send_accepted_via_rtp_data else ret_ok.

Definition handle_received_hangup (state : ConnectionState.ConnectionState)
    (call_id : CallId) (hangup : Hangup.Hangup) : FM unit :=
  id ← gets (fun s => Connection.call_id (conn s));
  if negb (bool_decide (id = call_id)) then ret_ok
  else if ConnectionState.connecting_or_connected state then
    notify_observer (ConnectionObserverEvent.ReceivedHangup hangup)
  else unexpected_state.

Definition handle_received_accepted_via_rtp_data (state : ConnectionState.ConnectionState)
    (call_id : CallId) : FM unit :=
  id ← gets (fun s => Connection.call_id (conn s));
  if negb (bool_decide (id = call_id)) then ret_ok
  else match state with
  | ConnectionState.NotYetStarted
  | ConnectionState.Starting
  | ConnectionState.IceGathering => unexpected_state
  | ConnectionState.ConnectingBeforeAccepted =>
    on_conn (set_state env ConnectionState.ConnectingAfterAccepted)
  | ConnectionState.ConnectedBeforeAccepted =>
    handle_connected_and_accepted_for_the_first_time
  | ConnectionState.ConnectingAfterAccepted
  | ConnectionState.ConnectedAndAccepted
  | ConnectionState.ReconnectingAfterAccepted => ret_ok
  | ConnectionState.IceFailed
  | ConnectionState.Terminating
  | ConnectionState.Terminated => unexpected_state
  end.

(** Is a status with this sequence number new, and does its value change the
    last one?  [None]: out of order or a retransmission. *)
Definition status_changed {A} `{EqDecision A} (last : option (Z * A)) (status : A) (seqnum : Z)
  : option bool :=
  match last with
  | None => Some true
  | Some (last_seqnum, last_status) =>
    if seqnum <=? last_seqnum then None
    else Some (negb (bool_decide (last_status = status)))
  end.

Definition handle_received_sender_status_via_rtp_data (state : ConnectionState.ConnectionState)
    (call_id : CallId) (status : SenderStatus) (seqnum : Z) : FM unit :=
  id ← gets (fun s => Connection.call_id (conn s));
  if negb (bool_decide (id = call_id)) then ret_ok
  else
    last ← gets last_remote_sender_status;
    match status_changed last status seqnum with
    | None => ret_ok
    | Some changed =>
      modify (fun s => s <| last_remote_sender_status := Some (seqnum, status) |>) ;;
      match state with
      | ConnectionState.ConnectedAndAccepted
      | ConnectionState.ReconnectingAfterAccepted =>
        if changed then handle_remote_sender_status_changed status else ret_ok
      | ConnectionState.ConnectingBeforeAccepted
      | ConnectionState.ConnectingAfterAccepted
      | ConnectionState.ConnectedBeforeAccepted => ret_ok
      | ConnectionState.NotYetStarted
      | ConnectionState.Starting
      | ConnectionState.IceGathering
      | ConnectionState.IceFailed
      | ConnectionState.Terminating
      | ConnectionState.Terminated => unexpected_state
      end
    end.

Definition handle_received_receiver_status_via_rtp_data (state : ConnectionState.ConnectionState)
    (call_id : CallId) (max_bitrate : DataRate.DataRate) (seqnum : Z) : FM unit :=
  id ← gets (fun s => Connection.call_id (conn s));
  if negb (bool_decide (id = call_id)) then ret_ok
  else
    last ← gets last_remote_receiver_status;
    match status_changed last max_bitrate seqnum with
    | None => ret_ok
    | Some changed =>
      modify (fun s => s <| last_remote_receiver_status := Some (seqnum, max_bitrate) |>) ;;
      match state with
      | ConnectionState.ConnectedAndAccepted
      | ConnectionState.ReconnectingAfterAccepted =>
        if changed then handle_remote_receiver_status_changed max_bitrate else ret_ok
      | ConnectionState.ConnectingBeforeAccepted
      | ConnectionState.ConnectingAfterAccepted
      | ConnectionState.ConnectedBeforeAccepted => ret_ok
      | ConnectionState.NotYetStarted
      | ConnectionState.Starting
      | ConnectionState.IceGathering
      | ConnectionState.IceFailed
      | ConnectionState.Terminating
      | ConnectionState.Terminated => unexpected_state
      end
    end.

Definition handle_received_ice (state : ConnectionState.ConnectionState) (ice : Ice) : FM unit :=
  if bool_decide (state = ConnectionState.NotYetStarted) then ret_ok
  else if ConnectionState.can_receive_ice_candidates state
  then on_conn (Connection.handle_received_ice ice)
  else unexpected_state.

Definition handle_accept (state : ConnectionState.ConnectionState) : FM unit :=
  if ConnectionState.can_be_accepted_locally state
  then handle_connected_and_accepted_for_the_first_time
  else unexpected_state.

Definition handle_send_hangup_via_rtp_data (state : ConnectionState.ConnectionState)
    (hangup : Hangup.Hangup) : FM unit :=
  if ConnectionState.can_send_hangup_via_rtp state
  then worker_spawn (SendHangupTask hangup)
  else unexpected_state.

Definition handle_update_sender_status (state : ConnectionState.ConnectionState)
    (sender_status : SenderStatus) : FM unit :=
  if ConnectionState.connected_or_reconnecting state
  then worker_spawn (UpdateSenderStatusTask sender_status)
  else unexpected_state.

Definition handle_update_data_mode (state : ConnectionState.ConnectionState)
    (data_mode : DataMode.DataMode) : FM unit :=
  if ConnectionState.connecting_or_connected state
  then worker_spawn (UpdateDataModeTask data_mode)
  else ret_ok.

Definition handle_local_ice_candidates (state : ConnectionState.ConnectionState)
    (candidates : list IceCandidate.IceCandidate) : FM unit :=
  if ConnectionState.can_send_ice_candidates state
  then worker_spawn (BufferLocalIceTask candidates)
  else unexpected_state.

Definition handle_ice_connected (state : ConnectionState.ConnectionState) : FM unit :=
  notify_observer ConnectionObserverEvent.IceConnected ;;
  match state with
  | ConnectionState.NotYetStarted
  | ConnectionState.Starting
  | ConnectionState.IceGathering => unexpected_state
  | ConnectionState.ConnectingBeforeAccepted =>
    on_conn (set_state env ConnectionState.ConnectedBeforeAccepted)
  | ConnectionState.ConnectingAfterAccepted =>
    handle_connected_and_accepted_for_the_first_time
  | ConnectionState.ConnectedBeforeAccepted
  | ConnectionState.ConnectedAndAccepted => unexpected_state
  | ConnectionState.ReconnectingAfterAccepted =>
    on_conn (set_state env ConnectionState.ConnectedAndAccepted)
  | ConnectionState.IceFailed
  | ConnectionState.Terminating
  | ConnectionState.Terminated => unexpected_state
  end.

Definition handle_ice_failed (state : ConnectionState.ConnectionState) : FM unit :=
  if ConnectionState.connecting_or_connected state
  then on_conn (set_state env ConnectionState.IceFailed)
  else unexpected_state.

Definition handle_ice_disconnected (state : ConnectionState.ConnectionState) : FM unit :=
  notify_observer ConnectionObserverEvent.IceDisconnected ;;
  match state with
  | ConnectionState.NotYetStarted
  | ConnectionState.Starting
  | ConnectionState.IceGathering
  | ConnectionState.ConnectingBeforeAccepted
  | ConnectionState.ConnectingAfterAccepted => unexpected_state
  | ConnectionState.ConnectedBeforeAccepted =>
    on_conn (set_state env ConnectionState.ConnectingBeforeAccepted)
  | ConnectionState.ConnectedAndAccepted =>
    on_conn (set_state env ConnectionState.ReconnectingAfterAccepted)
  | ConnectionState.ReconnectingAfterAccepted
  | ConnectionState.IceFailed
  | ConnectionState.Terminating
  | ConnectionState.Terminated => unexpected_state
  end.

Definition handle_ice_network_route_changed (network_route : NetworkRoute) : FM unit :=
  on_conn (set_network_route env network_route) ;;
  notify_observer (ConnectionObserverEvent.IceNetworkRouteChanged network_route).

Definition handle_internal_error (error : Error) : FM unit :=
  notify_spawn (NotifyErrorTask error).

Definition handle_received_incoming_media (state : ConnectionState.ConnectionState)
    (stream : MediaStream) : FM unit :=
  if ConnectionState.connecting_or_connected state
  then worker_spawn (IncomingMediaTask stream)
  else unexpected_state.

(** [handle_synchronize] waits (two seconds at most) until each thread has run
    what was queued for it; a stopped thread does not answer. *)
Definition handle_synchronize : FM unit :=
  s ← get;
  match worker s, notify s with
  | [], [] =>
    if worker_stopped s || notify_stopped s
    then fail (RingRtcError.Anyhow "channel is empty and sending half is closed")
    else ret_ok
  | _, _ => fail (RingRtcError.Anyhow "timed out waiting on channel")
  end.

Definition handle_terminate : FM unit :=
  (* event_stream.close() *)
  on_conn (modify (fun c => c <| fsm_connected := false |>)) ;;
  drain_worker_thread ;;
  drain_notify_thread ;;
  on_conn notify_terminate_complete.

Definition handle_event (state : ConnectionState.ConnectionState)
    (event : ConnectionEvent.ConnectionEvent) : FM unit :=
  match event with
  | ConnectionEvent.SendHangupViaRtpData hangup => handle_send_hangup_via_rtp_data state hangup
  | ConnectionEvent.Terminate => handle_terminate
  | ConnectionEvent.Synchronize => handle_synchronize
  | _ =>
    if ConnectionState.terminating_or_terminated state then ret_ok
    else match event with
    | ConnectionEvent.ReceivedHangup call_id hangup => handle_received_hangup state call_id hangup
    | ConnectionEvent.Accept => handle_accept state
    | ConnectionEvent.ReceivedAcceptedViaRtpData id =>
      handle_received_accepted_via_rtp_data state id
    | ConnectionEvent.ReceivedSenderStatusViaRtpData id status seqnum =>
      handle_received_sender_status_via_rtp_data state id status seqnum
    | ConnectionEvent.ReceivedReceiverStatusViaRtpData id max_bitrate seqnum =>
      handle_received_receiver_status_via_rtp_data state id max_bitrate seqnum
    | ConnectionEvent.ReceivedIce ice => handle_received_ice state ice
    | ConnectionEvent.UpdateSenderStatus status => handle_update_sender_status state status
    | ConnectionEvent.UpdateDataMode mode => handle_update_data_mode state mode
    | ConnectionEvent.LocalIceCandidates candidates => handle_local_ice_candidates state candidates
    | ConnectionEvent.IceConnected => handle_ice_connected state
    | ConnectionEvent.IceFailed => handle_ice_failed state
    | ConnectionEvent.IceDisconnected => handle_ice_disconnected state
    | ConnectionEvent.IceNetworkRouteChanged route => handle_ice_network_route_changed route
    | ConnectionEvent.InternalError error => handle_internal_error error
    | ConnectionEvent.ReceivedIncomingMedia stream => handle_received_incoming_media state stream
    | ConnectionEvent.SendHangupViaRtpData _ => ret_ok
    | ConnectionEvent.Synchronize => ret_ok
    | ConnectionEvent.Terminate => ret_ok
    end
  end.

End Handlers.
End ConnectionFsm.
