(* ===== verification/ConnectionSystem.v ===== *)
(** * A connection and its threads

    The connection, its state machine and the threads that use them, as a
    transition system.  [act] runs one step of one thread:
    - the state machine's thread takes an event and the current state ([ARecv])
      and handles the event with it ([AHandle]), as in [run]; [AEvent] is both
      without another thread in between;
    - the worker and the notify thread run their next closure;
    - any other thread calls an operation of the connection ([AApi]);
    - [terminate] is called, and returns when the state machine is done. *)

From S2P Require Import Prelude States Signaling ConnectionTypes.
From S2P Require Import Connection ConnectionStart ConnectionFsm.
Local Open Scope Z_scope.
Local Open Scope ringrtc_scope.

Module ConnectionSystem.
Import Connection ConnectionStart ConnectionFsm.

(** Operations other threads call: the call, the application, and the callbacks of
    WebRTC. *)
Inductive Api `{SrtpCrypto} : Type :=
| ApiSetPeerConnection
| ApiSetStatsConsumer
| ApiStartOutgoingParent (su : SetupEnv) (mt : CallMediaType)
| ApiStartOutgoingChild (su : SetupEnv) (secret : StaticSecret) (offer : Offer) (a : ReceivedAnswer)
| ApiStartIncoming (su : SetupEnv) (o : ReceivedOffer) (cands : list IceCandidate.IceCandidate)
| ApiRtpReceived (header : RtpHeader) (payload : list Z)
| ApiIceConnectionState (st : IceConnectionState)
| ApiIceNetworkRoute (route : NetworkRoute)
| ApiIncomingMedia (stream : MediaStream)
| ApiLocalIce (candidate : IceCandidate.IceCandidate) (force_send : bool)
| ApiLocalIceRemoved (address : SocketAddr) (force_send : bool)
| ApiTakeLocalIce
| ApiReceivedIce (ice : Ice)
| ApiAccept
| ApiSendHangup (hangup : Hangup.Hangup)
| ApiUpdateSenderStatus (status : SenderStatus)
| ApiUpdateDataMode (mode : DataMode.DataMode)
| ApiEnableMedia
| ApiStartTick
| ApiRegather.

Section System.
Context `{SrtpCrypto} `{SdpFfi}.
Context `{Codec OfferProto} `{Codec AnswerProto} `{Codec IceCandidateProto} `{Codec RtpMessage}.
Context (message_size : Z).

(** [set_peer_connection]: the observer pointer is WebRTC's affair. *)
Definition set_peer_connection : CM unit :=
  modify (fun c => c <| webrtc := (webrtc c) <| wd_peer_connection := true |> |>).

Definition run_api (env : Env) (a : Api) : CM unit :=
  match a with
  | ApiSetPeerConnection => set_peer_connection
  | ApiSetStatsConsumer => set_stats_snapshot_consumer
  | ApiStartOutgoingParent su mt => _ ← start_outgoing_parent env su mt; ret_ok
  | ApiStartOutgoingChild su secret offer a => start_outgoing_child env su secret offer a
  | ApiStartIncoming su o cands => _ ← start_incoming env su o cands; ret_ok
  | ApiRtpReceived header payload => handle_rtp_received message_size header payload
  | ApiIceConnectionState st => handle_ice_connection_state_changed st
  | ApiIceNetworkRoute route => inject_ice_network_route_changed route
  | ApiIncomingMedia stream => inject_received_incoming_media stream
  | ApiLocalIce candidate force => inject_local_ice_candidate candidate force
  | ApiLocalIceRemoved address force => inject_local_ice_candidate_removed address force
  | ApiTakeLocalIce => _ ← take_buffered_local_ice_candidates; ret_ok
  | ApiReceivedIce ice => inject_received_ice ice
  | ApiAccept => inject_accept
  | ApiSendHangup hangup => inject_send_hangup_via_rtp_data env hangup
  | ApiUpdateSenderStatus status => update_sender_status status
  | ApiUpdateDataMode mode => inject_update_data_mode mode
  | ApiEnableMedia => enable_media env
  | ApiStartTick => start_tick
  | ApiRegather => regather_on_all_networks
  end.

(** How far the call of [terminate] is. *)
Inductive Phase : Type := NotCalled | Waiting | Returned | Failed.

#[global] Instance Phase_eq_dec : EqDecision Phase.
Proof. solve_decision. Defined.

(** How the call uses its connections (call.rs).  A connection is started once, by
    [proceed] or [received_answer], which created it.  It is in the connection map
    only after it was started; hangups go to the connections in the map, and one
    that is terminated is removed from it, all under the lock of the map. *)
Definition api_allowed (phase : Phase) (a : Api) (c : Connection) : bool :=
  match a with
  | ApiStartOutgoingParent _ _ =>
    bool_decide (connection_type c = OutgoingParent) && negb (fsm_started c)
  | ApiStartOutgoingChild _ _ _ _ =>
    bool_decide (connection_type c = OutgoingChild) && negb (fsm_started c)
  | ApiStartIncoming _ _ _ =>
    bool_decide (connection_type c = IncomingConnection) && negb (fsm_started c)
  | ApiSendHangup _ => fsm_started c && bool_decide (phase = NotCalled)
  | _ => true
  end.

Record Sys : Type := mkSys {
  fsm : Fsm;
  taken : option (ConnectionState.ConnectionState * ConnectionEvent.ConnectionEvent);
  phase : Phase;
}.

#[global] Instance Sys_eta : Eta Sys := fun s => mkSys (fsm s) (taken s) (phase s).

Inductive action : Type :=
| ARecv
| AHandle (env : Env)
| AEvent (env : Env)
| AWorker (env : Env)
| ANotify (env : Env)
| ATick (env : Env) (ticks_elapsed : Z)
| AApi (env : Env) (a : Api)
| ATerminateBegin (env : Env)
| ATerminateEnd (env : Env).

Definition with_conn (s : Sys) (c : Connection) : Sys :=
  s <| fsm := (fsm s) <| conn := c |> |>.

(** Take the next event off the queue, with the state at that moment. *)
Definition recv (f : Fsm)
  : option (Fsm * (ConnectionState.ConnectionState * ConnectionEvent.ConnectionEvent)) :=
  if fsm_started (conn f) then
    match fsm_queue (conn f) with
    | [] => None
    | ev :: q => Some (f <| conn := (conn f) <| fsm_queue := q |> |>, (state (conn f), ev))
    end
  else None.

Definition act (a : action) (s : Sys) : option Sys :=
  let c := conn (fsm s) in
  match a with
  | ARecv =>
    match taken s, recv (fsm s) with
    | None, Some (f, t) => Some (s <| fsm := f |> <| taken := Some t |>)
    | _, _ => None
    end
  | AHandle env =>
    match taken s with
    | Some (st, ev) =>
      Some (s <| fsm := (handle_event env st ev (fsm s)).1 |> <| taken := None |>)
    | None => None
    end
  | AEvent env =>
    match taken s, recv (fsm s) with
    | None, Some (f, (st, ev)) => Some (s <| fsm := (handle_event env st ev f).1 |>)
    | _, _ => None
    end
  | AWorker env =>
    match worker (fsm s) with
    | [] => None
    | t :: w =>
      Some (s <| fsm := (fsm s) <| worker := w |> <| conn := (run_worker_task env t c).1 |> |>)
    end
  | ANotify env =>
    match notify (fsm s) with
    | [] => None
    | t :: w =>
      Some (s <| fsm := (fsm s) <| notify := w |> <| conn := (run_notify_task env t c).1 |> |>)
    end
  | ATick env ticks_elapsed =>
    if ticking c then
      match tick env ticks_elapsed c with
      | Val (c', _) => Some (with_conn s c')
      | Panic => None
      end
    else None
  | AApi env a =>
    if api_allowed (phase s) a c then Some (with_conn s (run_api env a c).1) else None
  | ATerminateBegin env =>
    if fsm_started c && bool_decide (phase s = NotCalled)
    then
      let '(c', r) := terminate_begin env c in
      Some ((with_conn s c') <| phase := if is_ok r then Waiting else Failed |>)
    else None
  | ATerminateEnd env =>
    if bool_decide (phase s = Waiting) && terminate_complete c
    then Some ((with_conn s (terminate_end env c).1) <| phase := Returned |>)
    else None
  end.

Definition init (c : Connection) : Sys := mkSys (ConnectionFsm.new c) None NotCalled.

(** Steps in which an event is handled with the state it was taken with. *)
Definition atomic (a : action) : bool :=
  match a with ARecv | AHandle _ => false | _ => true end.

Inductive reachable (c : Connection) : Sys -> Prop :=
| reachable_init : reachable c (init c)
| reachable_step s a s' :
    reachable c s -> atomic a = true -> act a s = Some s' -> reachable c s'.

(** All steps, in any order, also between taking and handling an event. *)
Inductive interleaved (c : Connection) : Sys -> Prop :=
| interleaved_init : interleaved c (init c)
| interleaved_step s a s' : interleaved c s -> act a s = Some s' -> interleaved c s'.

(** An event that is handled at once is one that is taken and then handled. *)
Lemma taken_event_split env s s' :
  act (AEvent env) s = Some s' ->
  exists s1, act ARecv s = Some s1 /\ act (AHandle env) s1 = Some s'.
Proof.
  unfold act. destruct s as [f [t|] p]; [done|]. cbn. destruct (recv f) as [[f' [st ev]]|]; [|done].
  intros [= <-]. by eexists.
Qed.

Fixpoint run (l : list action) (s : Sys) : option Sys :=
  match l with
  | [] => Some s
  | a :: l => s' ← act a s; run l s'
  end.

(** ** The diagram of states *)

(** The diagram of common/mod.rs.  Not drawn there, but taken by the handlers: a call is accepted
    locally before the connection is up ([edge_accepted_locally_early]), a connection is lost
    while the call rings ([edge_lost_while_ringing]), and ICE fails in any state in which it is connecting or
    connected ([edge_ice_failed]), not only while it is connecting. *)
Inductive edge : ConnectionState.ConnectionState -> ConnectionState.ConnectionState -> Prop :=
| edge_start : edge ConnectionState.NotYetStarted ConnectionState.Starting
| edge_gather : edge ConnectionState.Starting ConnectionState.IceGathering
| edge_connecting : edge ConnectionState.Starting ConnectionState.ConnectingBeforeAccepted
| edge_connected :
    edge ConnectionState.ConnectingBeforeAccepted ConnectionState.ConnectedBeforeAccepted
| edge_accepted_early :
    edge ConnectionState.ConnectingBeforeAccepted ConnectionState.ConnectingAfterAccepted
| edge_accepted_locally_early :
    edge ConnectionState.ConnectingBeforeAccepted ConnectionState.ConnectedAndAccepted
| edge_lost_while_ringing :
    edge ConnectionState.ConnectedBeforeAccepted ConnectionState.ConnectingBeforeAccepted
| edge_accepted :
    edge ConnectionState.ConnectedBeforeAccepted ConnectionState.ConnectedAndAccepted
| edge_connected_late :
    edge ConnectionState.ConnectingAfterAccepted ConnectionState.ConnectedAndAccepted
| edge_reconnecting :
    edge ConnectionState.ConnectedAndAccepted ConnectionState.ReconnectingAfterAccepted
| edge_reconnected :
    edge ConnectionState.ReconnectingAfterAccepted ConnectionState.ConnectedAndAccepted
| edge_ice_failed st :
    ConnectionState.connecting_or_connected st = true -> edge st ConnectionState.IceFailed
| edge_terminating st :
    st <> ConnectionState.NotYetStarted ->
    ConnectionState.terminating_or_terminated st = false -> edge st ConnectionState.Terminating
| edge_terminated : edge ConnectionState.Terminating ConnectionState.Terminated.

(** The changes of state reported to the call, in order. *)
Definition state_change (o : Output) : option ConnectionState.ConnectionState :=
  match o with
  | ToObserver (ConnectionObserverEvent.StateChanged st) => Some st
  | _ => None
  end.

Definition state_changes (c : Connection) : list ConnectionState.ConnectionState :=
  omap state_change (outputs c).

(** [walk st l st']: the states of [l], one edge each, lead from [st] to [st']. *)
Inductive walk : ConnectionState.ConnectionState -> list ConnectionState.ConnectionState ->
    ConnectionState.ConnectionState -> Prop :=
| walk_nil st : walk st [] st
| walk_snoc st l st' st'' : walk st l st' -> edge st' st'' -> walk st (l ++ [st'']) st''.

End System.

(** ** Operations that leave the state alone *)

(** Neither the state nor the reported changes move. *)
Definition still : relation Connection := same (fun c => (state c, state_changes c)).

Lemma still_emit o : state_change o = None -> respects still (emit o).
Proof.
  intros Ho. apply respects_modify. intros c. unfold still, same, state_changes. cbn.
  rewrite omap_app. cbn. by rewrite Ho, app_nil_r.
Qed.

#[global] Instance still_preorder : PreOrder still := same_preorder _.
#[export] Hint Extern 1 (respects still (emit _)) =>
  apply still_emit; first [reflexivity | assumption] : respects.
#[export] Hint Extern 2 (respects still (modify _)) =>
  apply respects_modify; intros; reflexivity : respects.

Section Still.
Context `{SrtpCrypto} `{SdpFfi}.
Context `{Codec OfferProto} `{Codec AnswerProto} `{Codec IceCandidateProto} `{Codec RtpMessage}.
Context (message_size : Z) (env : Env).

Lemma still_worker_task t : respects still (run_worker_task env t).
Proof.
  destruct t; unfold run_worker_task, unless_terminating; conn_respects.
Qed.

(** The output of a notification. *)
Definition notification (t : NotifyTask) : Output :=
  match t with
  | NotifyObserverTask event => ToObserver event
  | NotifyErrorTask error => ToObserverError error
  end.

Lemma still_notify_task t :
  state_change (notification t) = None -> respects still (run_notify_task env t).
Proof.
  destruct t; intros Hn; unfold run_notify_task, unless_terminating; conn_respects.
Qed.

Lemma still_tick n c c' r : tick env n c = Val (c', r) -> still c c'.
Proof. apply (tick_rel still); conn_respects. Qed.

(** The calls that change the state by themselves. *)
Definition changes_state (a : Api) : bool :=
  match a with
  | ApiStartOutgoingParent _ _ | ApiStartOutgoingChild _ _ _ _ | ApiStartIncoming _ _ _
  | ApiSendHangup _ => true
  | _ => false
  end.

Lemma still_api a : changes_state a = false -> respects still (run_api message_size env a).
Proof.
  destruct a; intros Ha; try discriminate Ha; unfold run_api, set_peer_connection; conn_respects.
Qed.

End Still.

(** ** Handlers move along at most one edge *)

Definition one_move (c c' : Connection) : Prop :=
  still c c' \/
  (edge (state c) (state c') /\ state_changes c' = state_changes c ++ [state c']).

(** Likewise, with an edge from the state that was read with the event. *)
Definition one_move_from (st : ConnectionState.ConnectionState) (c c' : Connection) : Prop :=
  still c c' \/ (edge st (state c') /\ state_changes c' = state_changes c ++ [state c']).

(** A relation of connections, on state machines. *)
Definition onc (R : relation Connection) : relation Fsm := fun s s' => R (conn s) (conn s').

#[global] Instance onc_preorder R `{!PreOrder R} : PreOrder (onc R).
Proof. split; unfold onc; [intros s; reflexivity|]. intros s1 s2 s3. by etrans. Qed.

Lemma onc_on_conn {A} R (m : CM A) : respects R m -> respects (onc R) (on_conn m).
Proof.
  intros Hm s. unfold onc, on_conn. specialize (Hm (conn s)).
  destruct (m (conn s)). exact Hm.
Qed.

#[export] Hint Resolve onc_on_conn : respects.
#[export] Hint Extern 2 (respects (onc _) (modify _)) =>
  apply respects_modify; intros; unfold onc; cbn; repeat case_match; reflexivity : respects.

Lemma still_one_move c c' c'' : still c c' -> one_move c' c'' -> one_move c c''.
Proof.
  unfold one_move, still, same. intros [= Hs Hc] [[= -> ->]|[He ->]]; [left; congruence|].
  right. split; congruence.
Qed.

Lemma one_move_still c c' c'' : one_move c c' -> still c' c'' -> one_move c c''.
Proof.
  unfold one_move, still, same. intros [[= Hs Hc]|[He Hc]] [= Hs' Hc'].
  - left. congruence.
  - right. rewrite Hs'. split; congruence.
Qed.

(** [set_state] reports a change and nothing else. *)
Lemma set_state_changes env st c :
  still c (set_state env st c).1 \/
  state_changes (set_state env st c).1 = state_changes c ++ [st].
Proof.
  unfold set_state, gets, mbind, ST_bind. cbn. case_bool_decide as Heq; [by left|].
  right. unfold Connection.notify_observer, emit, modify, mbind, ST_bind, state_changes; cbn.
  by rewrite omap_app.
Qed.

Lemma set_state_one_move_from env from st c :
  edge from st -> one_move_from from c (set_state env st c).1.
Proof.
  intros He. destruct (set_state_changes env st c) as [?|Hc]; [by left|].
  right. by rewrite set_state_state.
Qed.

Lemma set_state_one_move env st c :
  edge (state c) st -> one_move c (set_state env st c).1.
Proof. apply set_state_one_move_from. Qed.

Lemma one_move_from_still st c c' c'' : one_move_from st c c' -> still c' c'' -> one_move_from st c c''.
Proof.
  unfold one_move_from, still, same. intros [[= Hs Hc]|[He Hc]] [= Hs' Hc'].
  - left. congruence.
  - right. rewrite Hs'. split; congruence.
Qed.

Lemma still_one_move_from st c c' c'' : still c c' -> one_move_from st c' c'' -> one_move_from st c c''.
Proof.
  unfold one_move_from, still, same. intros [= Hs Hc] [[= -> ->]|[He ->]]; [left; congruence|].
  right. split; congruence.
Qed.

Lemma bind_one_move {A B} st (m : FM A) (k : A -> FM B) s :
  one_move_from st (conn s) (conn (m s).1) -> (forall a, respects (onc still) (k a)) ->
  one_move_from st (conn s) (conn ((m ≫= k) s).1).
Proof.
  intros Hm Hk. unfold mbind, ST_bind. destruct (m s) as [s1 [a|e]]; cbn in *; [|done].
  eapply one_move_from_still; [done|]. apply Hk.
Qed.

Lemma still_bind_one_move {A B} st (m : FM A) (k : A -> FM B) s :
  respects (onc still) m ->
  (forall a s', one_move_from st (conn s') (conn (k a s').1)) ->
  one_move_from st (conn s) (conn ((m ≫= k) s).1).
Proof.
  intros Hm Hk. specialize (Hm s). unfold mbind, ST_bind.
  destruct (m s) as [s1 [a|e]]; cbn in *; [|by left].
  eapply still_one_move_from; [done|]. apply Hk.
Qed.

Lemma on_conn_set_state_move env from st s :
  edge from st -> one_move_from from (conn s) (conn (on_conn (set_state env st) s).1).
Proof.
  intros He. apply (set_state_one_move_from env from st (conn s)) in He. unfold on_conn.
  by destruct (set_state env st (conn s)).
Qed.

Create HintDb fsm_ops.
#[global] Hint Unfold ConnectionFsm.notify_observer ConnectionFsm.send_accepted_via_rtp_data
  worker_spawn notify_spawn unexpected_state drain_worker_thread drain_notify_thread
  handle_remote_receiver_status_changed handle_remote_sender_status_changed
  ConnectionFsm.handle_received_hangup handle_received_sender_status_via_rtp_data
  handle_received_receiver_status_via_rtp_data ConnectionFsm.handle_received_ice
  handle_send_hangup_via_rtp_data handle_update_sender_status handle_update_data_mode
  handle_local_ice_candidates handle_ice_network_route_changed
  ConnectionFsm.handle_internal_error ConnectionFsm.handle_received_incoming_media
  handle_synchronize handle_terminate : fsm_ops.

Ltac fsm_respects :=
  intros; autounfold with fsm_ops; solve_respects.

Section Moves.
Context `{SrtpCrypto} `{SdpFfi}.
Context `{Codec OfferProto} `{Codec AnswerProto} `{Codec IceCandidateProto} `{Codec RtpMessage}.
Context (message_size : Z) (env : Env).

Lemma still_conn_notify_observer ev :
  state_change (ToObserver ev) = None -> respects still (Connection.notify_observer env ev).
Proof. intros Hn. conn_respects. Qed.

Lemma still_set_remote_max_bitrate r : respects still (set_remote_max_bitrate env r).
Proof. conn_respects. Qed.

Lemma still_set_network_route r : respects still (set_network_route env r).
Proof. conn_respects. Qed.

Lemma still_handle_received_ice ice : respects still (Connection.handle_received_ice ice).
Proof. conn_respects. Qed.

#[local] Hint Resolve still_set_remote_max_bitrate still_set_network_route
  still_handle_received_ice : respects.
#[local] Hint Extern 1 (respects still (Connection.notify_observer _ _)) =>
  apply still_conn_notify_observer; reflexivity : respects.
#[local] Hint Extern 1 (respects still notify_terminate_complete) =>
  unfold notify_terminate_complete : respects.

Lemma first_time_one_move st s :
  edge st ConnectionState.ConnectedAndAccepted ->
  one_move_from st (conn s) (conn (handle_connected_and_accepted_for_the_first_time env s).1).
Proof.
  intros Hs. unfold handle_connected_and_accepted_for_the_first_time.
  apply bind_one_move; [by apply on_conn_set_state_move|fsm_respects].
Qed.

(** A handler that depends on the state: split on it, then either nothing moves,
    or the single change is an edge. *)
Ltac move_tac :=
  first
    [ solve [left; match goal with |- still _ (conn (?m ?s).1) =>
               cut (respects (onc still) m); [intros Hr; exact (Hr s)|fsm_respects] end]
    | solve [apply first_time_one_move; constructor]
    | solve [apply on_conn_set_state_move; by constructor] ].

Lemma handle_accept_one_move st s : one_move_from st (conn s) (conn (handle_accept env st s).1).
Proof.
  unfold handle_accept. destruct st; cbn [ConnectionState.can_be_accepted_locally]; move_tac.
Qed.

Lemma handle_ice_failed_one_move st s : one_move_from st (conn s) (conn (handle_ice_failed env st s).1).
Proof.
  unfold handle_ice_failed. destruct st; cbn [ConnectionState.connecting_or_connected]; move_tac.
Qed.

Lemma handle_received_accepted_one_move st id s :
  one_move_from st (conn s) (conn (handle_received_accepted_via_rtp_data env st id s).1).
Proof.
  apply still_bind_one_move; [fsm_respects|]. intros a s'. case_match; [left; reflexivity|]. destruct st; move_tac.
Qed.

Lemma handle_ice_connected_one_move st s : one_move_from st (conn s) (conn (handle_ice_connected env st s).1).
Proof. apply still_bind_one_move; [fsm_respects|]. intros a s'. destruct st; move_tac. Qed.

Lemma handle_ice_disconnected_one_move st s :
  one_move_from st (conn s) (conn (handle_ice_disconnected env st s).1).
Proof. apply still_bind_one_move; [fsm_respects|]. intros a s'. destruct st; move_tac. Qed.

Lemma handle_event_one_move st ev s : one_move_from st (conn s) (conn (handle_event env st ev s).1).
Proof.
  unfold handle_event.
  destruct ev; try (case_match; [left; reflexivity|]);
    eauto using handle_accept_one_move, handle_ice_failed_one_move,
      handle_received_accepted_one_move, handle_ice_connected_one_move,
      handle_ice_disconnected_one_move; move_tac.
Qed.

End Moves.

(** ** Starting follows the diagram too *)

Definition forward (c c' : Connection) : Prop :=
  exists l, walk (state c) l (state c') /\ state_changes c' = state_changes c ++ l.

Lemma one_move_forward c c' : one_move c c' -> forward c c'.
Proof.
  intros [[= Hs Hc]|[He Hc]].
  - exists []. rewrite Hs, Hc, app_nil_r. split; [constructor|done].
  - exists [state c']. split; [|done]. apply (walk_snoc _ [] (state c)); [constructor|done].
Qed.

Lemma forward_one_move c c' c'' : forward c c' -> one_move c' c'' -> forward c c''.
Proof.
  intros (l & Hl & Hc) [[= Hs' Hc']|[He Hc']].
  - exists l. rewrite Hs'. split; [done|]. congruence.
  - exists (l ++ [state c'']). split; [by econstructor|]. by rewrite Hc', Hc, app_assoc.
Qed.

(** In [Starting] or [target], the only change is from the one to the other. *)
Definition start_rel (target : ConnectionState.ConnectionState) (c c' : Connection) : Prop :=
  state c = ConnectionState.Starting \/ state c = target ->
  (state c' = ConnectionState.Starting \/ state c' = target) /\
  (still c c' \/
   (state c = ConnectionState.Starting /\ state c' = target /\
    state_changes c' = state_changes c ++ [target])).

Definition start_state (st : ConnectionState.ConnectionState) : bool :=
  match st with
  | ConnectionState.Starting | ConnectionState.IceGathering
  | ConnectionState.ConnectingBeforeAccepted => true
  | _ => false
  end.

Section Starting.
Context (target : ConnectionState.ConnectionState) (Ht : target <> ConnectionState.Starting).

#[local] Instance start_rel_preorder : PreOrder (start_rel target).
Proof.
  split.
  - intros c Hc. split; [done|]. by left.
  - intros c1 c2 c3 H12 H23 H1. destruct (H12 H1) as [H2 Hm12]. destruct (H23 H2) as [H3 Hm23].
    split; [done|]. unfold still, same in *.
    destruct Hm12 as [[= Hs Hc]|(Hs & Ht2 & Hc)], Hm23 as [[= Hs' Hc']|(Hs' & Ht3 & Hc')].
    + left. congruence.
    + right. split_and!; congruence.
    + right. split_and!; congruence.
    + congruence.
Qed.

Lemma still_start_rel {A} (m : CM A) : respects still m -> respects (start_rel target) m.
Proof.
  intros Hm c Hc. specialize (Hm c). split; [|by left].
  unfold still, same in Hm. injection Hm as -> _. done.
Qed.

Lemma start_rel_set_state env : respects (start_rel target) (set_state env target).
Proof.
  intros c Hc. split; [right; apply set_state_state|].
  destruct (decide (state c = target)) as [Heq|Hne].
  - left. unfold still, same, set_state, gets, mbind, ST_bind. cbn. by rewrite bool_decide_true.
  - destruct (set_state_changes env target c) as [?|Hch]; [by left|].
    right. split_and!; [by destruct Hc|apply set_state_state|done].
Qed.

(** A connection that starts goes to [Starting] and perhaps to [target]. *)
Lemma start_forward {A} env (rest : CM A) c :
  edge ConnectionState.Starting target -> start_state target = true ->
  state c = ConnectionState.NotYetStarted ->
  respects (start_rel target) rest ->
  let c' := (then_start_fsm (set_state env ConnectionState.Starting ;; rest) c).1 in
  forward c c' /\ fsm_started c' = true /\ start_state (state c') = true.
Proof.
  intros He Ht1 Hst Hrest.
  unfold then_start_fsm, attempt, start_fsm, modify, of_result, mbind, ST_bind.
  pose proof (set_state_one_move env ConnectionState.Starting c) as Hm.
  pose proof (set_state_state env ConnectionState.Starting c) as Hs.
  rewrite Hst in Hm. specialize (Hm edge_start).
  destruct (set_state env ConnectionState.Starting c) as [c1 [u|e]]; cbn in *;
    [|rewrite Hs; split_and!; [by apply one_move_forward|done..]].
  specialize (Hrest c1 (or_introl Hs)) as [Hst2 Hr].
  destruct (rest c1) as [c2 r]; cbn in *.
  split; [|split; [done|by destruct Hst2 as [->| ->]]].
  cut (forward c c2); [by intros (l & Hl & Hc); exists l|].
  eapply forward_one_move; [by apply one_move_forward|].
  destruct Hr as [Hr|(Hs1 & Hs2 & Hc)]; [by left|]. right. by rewrite Hs, Hs2.
Qed.

End Starting.

(** ** Fields a step keeps *)

Create HintDb all_ops.
#[global] Hint Unfold handle_connected_and_accepted_for_the_first_time
  handle_received_accepted_via_rtp_data handle_accept handle_ice_connected handle_ice_failed
  handle_ice_disconnected handle_event unless_terminating run_worker_task run_notify_task
  run_api set_peer_connection : all_ops.

Ltac all_respects :=
  intros; autounfold with all_ops; autounfold with fsm_ops; autounfold with conn_ops;
  repeat lazymatch goal with
  | |- respects (onc _) (on_conn _) => apply onc_on_conn
  | _ => respects_step
  end.

Section Keeps.
Context `{SrtpCrypto} `{SdpFfi}.
Context `{Codec OfferProto} `{Codec AnswerProto} `{Codec IceCandidateProto} `{Codec RtpMessage}.
Context (message_size : Z) (env : Env).

Lemma started_handle_event st ev :
  respects (onc (same fsm_started)) (handle_event env st ev).
Proof. all_respects. Qed.

Lemma started_worker_task t : respects (same fsm_started) (run_worker_task env t).
Proof. destruct t; all_respects. Qed.

Lemma started_notify_task t : respects (same fsm_started) (run_notify_task env t).
Proof. destruct t; all_respects. Qed.

Lemma started_tick n c c' r : tick env n c = Val (c', r) -> fsm_started c' = fsm_started c.
Proof. apply (tick_rel (same fsm_started)); all_respects. Qed.

Definition is_start (a : Api) : bool :=
  match a with
  | ApiStartOutgoingParent _ _ | ApiStartOutgoingChild _ _ _ _ | ApiStartIncoming _ _ _ => true
  | _ => false
  end.

Lemma started_api a :
  is_start a = false -> respects (same fsm_started) (run_api message_size env a).
Proof. destruct a; intros Ha; try discriminate Ha; all_respects. Qed.

Lemma started_terminate :
  respects (same fsm_started) (terminate_begin env) /\
  respects (same fsm_started) (terminate_end env).
Proof. split; all_respects. Qed.

(** Nothing moves when an event is handled in a final state. *)
Lemma handle_event_terminating st ev :
  ConnectionState.terminating_or_terminated st = true ->
  respects (onc still) (handle_event env st ev).
Proof.
  intros Hst. unfold handle_event. rewrite Hst.
  destruct ev; all_respects.
Qed.

(** The notify thread never reports a change of state. *)
Definition plain (t : NotifyTask) : Prop := state_change (notification t) = None.
Definition keeps_plain : relation Fsm :=
  fun s s' => Forall plain (notify s) -> Forall plain (notify s').

#[local] Instance keeps_plain_preorder : PreOrder keeps_plain.
Proof. split; unfold keeps_plain; [by intros s|]. intros s1 s2 s3. auto. Qed.

Lemma keeps_plain_on_conn {A} (m : CM A) : respects keeps_plain (on_conn m).
Proof. intros s. unfold on_conn, keeps_plain. by destruct (m (conn s)). Qed.

#[local] Hint Resolve keeps_plain_on_conn : respects.
#[local] Hint Extern 2 (respects keeps_plain (modify _)) =>
  apply respects_modify; intros s; unfold keeps_plain; cbn; intros Hp; repeat case_match;
    cbn; repeat (apply Forall_app_2 || constructor || assumption) : respects.

Lemma plain_handle_event st ev : respects keeps_plain (handle_event env st ev).
Proof.
  intros. autounfold with all_ops. autounfold with fsm_ops. solve_respects.
Qed.

End Keeps.

(** ** The invariant of atomic steps *)

Record Inv (s : Sys) : Prop := mkInv {
  inv_walk : walk ConnectionState.NotYetStarted (state_changes (conn (fsm s))) (state (conn (fsm s)));
  inv_plain : Forall plain (notify (fsm s));
  inv_taken : taken s = None;
  inv_unstarted : fsm_started (conn (fsm s)) = false ->
    state (conn (fsm s)) = ConnectionState.NotYetStarted /\ phase s = NotCalled;
  inv_started : fsm_started (conn (fsm s)) = true ->
    state (conn (fsm s)) <> ConnectionState.NotYetStarted;
  inv_phase :
    match phase s with
    | NotCalled => state (conn (fsm s)) <> ConnectionState.Terminated
    | Waiting | Failed => state (conn (fsm s)) = ConnectionState.Terminating
    | Returned => state (conn (fsm s)) = ConnectionState.Terminated
    end;
}.

Lemma walk_forward st c c' :
  walk st (state_changes c) (state c) -> forward c c' -> walk st (state_changes c') (state c').
Proof.
  intros Hw (l & Hl & ->). revert Hl. generalize (state c'). intros st' Hl.
  induction Hl as [st1|st1 l st2 st3 Hl IH He]; [by rewrite app_nil_r|].
  rewrite app_assoc. econstructor; [by apply IH|done].
Qed.

(** A step that changes only the connection, without touching its state. *)
Lemma Inv_still s s' :
  Inv s -> still (conn (fsm s)) (conn (fsm s')) ->
  fsm_started (conn (fsm s')) = fsm_started (conn (fsm s)) ->
  Forall plain (notify (fsm s')) -> taken s' = None -> phase s' = phase s -> Inv s'.
Proof.
  intros [Hw Hp Ht Hu Hn Hph] [= Hs Hc] Hst Hp' Ht' Hph'.
  by split; rewrite ?Hph', ?Hst, ?Hs, ?Hc.
Qed.

Lemma bind_ret_ok_fst {S E A} (m : ST S E A) s : ((m ≫= fun _ => ret_ok) s).1 = (m s).1.
Proof. unfold mbind, ST_bind. by destruct (m s) as [? []]. Qed.

Lemma then_start_fsm_started {A} (body : CM A) c : fsm_started (then_start_fsm body c).1 = true.
Proof. unfold then_start_fsm, attempt, mbind, ST_bind. by destruct (body c). Qed.

Ltac start_rel_respects :=
  unfold apply_bandwidth_controller, add_and_remove_remote_ice_candidates, peer, peer_connection;
  repeat lazymatch goal with
  | |- respects (start_rel _) (emit _) => apply still_start_rel; apply still_emit; reflexivity
  | |- respects (start_rel _) (modify _) =>
    apply still_start_rel; apply respects_modify; intros; reflexivity
  | |- respects (start_rel _) (set_state _ _) => by apply start_rel_set_state
  | |- respects (start_rel ?t) (mbind _ _) =>
    apply respects_bind; [by apply (start_rel_preorder t)| |intros ?]
  | |- respects (start_rel ?t) (for_each _ _) =>
    apply respects_for_each; [by apply (start_rel_preorder t)|intros ?]
  | |- respects (start_rel ?t) (match ?x with _ => _ end) => destruct x
  | |- respects (start_rel ?t) _ => by apply respects_pure; [apply (start_rel_preorder t)|]
  end.

Section Invariant.
Context `{SrtpCrypto} `{SdpFfi}.
Context `{Codec OfferProto} `{Codec AnswerProto} `{Codec IceCandidateProto} `{Codec RtpMessage}.
Context (message_size : Z).

(** What [recv] takes and what it leaves. *)
Lemma recv_spec f f' st ev :
  recv f = Some (f', (st, ev)) ->
  st = state (conn f) /\ fsm_started (conn f) = true /\
  exists q, fsm_queue (conn f) = ev :: q /\
    f' = f <| conn := (conn f) <| fsm_queue := q |> |>.
Proof.
  unfold recv. destruct (fsm_started (conn f)); [|done].
  destruct (fsm_queue (conn f)) as [|ev' q]; [done|]. intros [= <- <- <-]. eauto.
Qed.

Lemma Inv_event env s f st ev :
  Inv s -> recv (fsm s) = Some (f, (st, ev)) ->
  Inv (s <| fsm := (handle_event env st ev f).1 |>).
Proof.
  intros HI (-> & Hst & q & Hq & Hf)%recv_spec.
  assert (still (conn (fsm s)) (conn f) /\ fsm_started (conn f) = true /\
          state (conn (fsm s)) = state (conn f) /\ notify f = notify (fsm s))
    as (Hstill & Hst' & Heq & Hnot) by (subst f; done).
  clear Hf Hq q. rewrite Heq.
  pose proof (handle_event_one_move env (state (conn f)) ev f) as Hmove.
  pose proof (started_handle_event env (state (conn f)) ev f) as Hstarted.
  unfold onc, same in Hstarted.
  split; cbn [fsm taken phase set_field].
  - eapply walk_forward; [apply HI|]. apply one_move_forward. by eapply still_one_move.
  - apply plain_handle_event. rewrite Hnot. apply HI.
  - apply HI.
  - intros Hf. congruence.
  - intros _ Hn. destruct Hmove as [[= Hs _]|[He _]].
    + apply (inv_started _ HI); congruence.
    + rewrite Hn in He. inversion He.
  - assert (ConnectionState.terminating_or_terminated (state (conn f)) = true ->
            state (conn (handle_event env (state (conn f)) ev f).1) = state (conn f)) as Hstay.
    { intros Hterm. by pose proof (handle_event_terminating env _ ev Hterm f) as [= Hs _]. }
    pose proof (inv_phase _ HI) as Hph. rewrite Heq in Hph.
    destruct (phase s); [|rewrite Hstay, Hph by (by rewrite Hph); done..].
    intros Hn. destruct Hmove as [[= Hs _]|[He _]]; [congruence|].
    rewrite Hn in He. assert (state (conn f) = ConnectionState.Terminating) as Hs by (by inversion He).
    rewrite Hstay in Hn by (by rewrite Hs). congruence.
Qed.

(** Starting walks along the diagram. *)
Lemma start_api_forward env a c :
  is_start a = true -> state c = ConnectionState.NotYetStarted ->
  let c' := (run_api message_size env a c).1 in
  forward c c' /\ fsm_started c' = true /\ start_state (state c') = true.
Proof.
  intros Ha Hst. cbn zeta.
  destruct a; try discriminate Ha; cbn [run_api]; rewrite ?bind_ret_ok_fst.
  - apply (start_forward ConnectionState.IceGathering); [constructor|done|done|].
    start_rel_respects.
  - apply (start_forward ConnectionState.ConnectingBeforeAccepted); [constructor|done|done|].
    start_rel_respects.
  - apply (start_forward ConnectionState.ConnectingBeforeAccepted); [constructor|done|done|].
    start_rel_respects.
Qed.

Lemma Inv_start env a s :
  Inv s -> is_start a = true -> api_allowed (phase s) a (conn (fsm s)) = true ->
  Inv (with_conn s (run_api message_size env a (conn (fsm s))).1).
Proof.
  intros HI Ha Hallowed.
  assert (fsm_started (conn (fsm s)) = false) as Hus.
  { destruct a; try done; cbn in Hallowed; apply andb_true_iff in Hallowed as [_ Hn];
      by apply negb_true_iff. }
  destruct (inv_unstarted _ HI Hus) as [Hst Hph].
  destruct (start_api_forward env a (conn (fsm s)) Ha Hst) as (Hf & Hs & Hin).
  split; cbn.
  - eapply walk_forward; [apply HI|done].
  - apply HI.
  - apply HI.
  - congruence.
  - intros _ Hn. by rewrite Hn in Hin.
  - rewrite Hph. intros Hn. by rewrite Hn in Hin.
Qed.

(** [Terminating] is entered by a hangup or by [terminate]. *)
Lemma set_terminating_one_move env c :
  state c <> ConnectionState.NotYetStarted -> state c <> ConnectionState.Terminated ->
  one_move c (set_state env ConnectionState.Terminating c).1.
Proof.
  intros Hn1 Hn2. destruct (decide (state c = ConnectionState.Terminating)) as [Heq|Hne].
  - left. unfold still, same, set_state, gets, mbind, ST_bind. cbn. by rewrite bool_decide_true.
  - apply set_state_one_move, edge_terminating; [done|]. by destruct (state c).
Qed.

(** [set_state] followed by code that leaves the state alone. *)
Lemma set_state_then_still env st (k : CM unit) c :
  respects still k ->
  state ((set_state env st ;; k) c).1 = st /\
  still (set_state env st c).1 ((set_state env st ;; k) c).1.
Proof.
  intros Hk. pose proof (set_state_state env st c) as Hs. unfold mbind, ST_bind.
  destruct (set_state env st c) as [c1 [u|e]]; cbn in *; [|done].
  specialize (Hk c1). split; [|done]. by injection Hk as -> _.
Qed.

Lemma Inv_terminating env (k : CM unit) s phase' :
  Inv s -> fsm_started (conn (fsm s)) = true -> phase s = NotCalled ->
  respects still k ->
  fsm_started ((set_state env ConnectionState.Terminating ;; k) (conn (fsm s))).1 = true ->
  phase' <> Returned ->
  Inv ((with_conn s ((set_state env ConnectionState.Terminating ;; k) (conn (fsm s))).1)
         <| phase := phase' |>).
Proof.
  intros HI Hst Hph Hk Hst' Hp.
  destruct (set_state_then_still env ConnectionState.Terminating k (conn (fsm s)) Hk) as [Hs Hstill].
  pose proof (inv_phase _ HI) as Hn. rewrite Hph in Hn.
  pose proof (set_terminating_one_move env (conn (fsm s)) (inv_started _ HI Hst) Hn) as Hm.
  split; cbn [fsm taken phase set_field conn notify with_conn]; rewrite ?Hs.
  - rewrite <- Hs at 2. eapply walk_forward; [apply HI|]. apply one_move_forward.
    by eapply one_move_still.
  - apply HI.
  - apply HI.
  - congruence.
  - done.
  - by destruct phase'.
Qed.

Lemma Inv_terminated env s :
  Inv s -> phase s = Waiting ->
  Inv ((with_conn s (terminate_end env (conn (fsm s))).1) <| phase := Returned |>).
Proof.
  intros HI Hph. pose proof (inv_phase _ HI) as Hs. rewrite Hph in Hs.
  pose proof (proj2 (started_terminate env) (conn (fsm s))) as Hst. unfold same in Hst.
  destruct (set_state_then_still env ConnectionState.Terminated terminate_cleanup (conn (fsm s)))
    as [Hs' Hstill]; [unfold terminate_cleanup; solve_respects|].
  assert (one_move (conn (fsm s)) (set_state env ConnectionState.Terminated (conn (fsm s))).1) as Hm.
  { apply set_state_one_move. rewrite Hs. constructor. }
  unfold terminate_end in *.
  split; cbn [fsm taken phase set_field conn notify with_conn]; rewrite ?Hs', ?Hst.
  - rewrite <- Hs' at 2. eapply walk_forward; [apply HI|]. apply one_move_forward.
    by eapply one_move_still.
  - apply HI.
  - apply HI.
  - intros Hf. destruct (inv_unstarted _ HI Hf). congruence.
  - done.
  - done.
Qed.

Lemma Inv_api env a s :
  Inv s -> api_allowed (phase s) a (conn (fsm s)) = true ->
  Inv (with_conn s (run_api message_size env a (conn (fsm s))).1).
Proof.
  intros HI Ha. destruct (is_start a) eqn:His; [by apply Inv_start|].
  pose proof (started_api message_size env a His (conn (fsm s))) as Hst.
  destruct (changes_state a) eqn:Hch.
  - destruct a; try discriminate; cbn in Ha.
    apply andb_true_iff in Ha as [Hs Hph%bool_decide_eq_true].
    replace (with_conn s _) with ((with_conn s
      (inject_send_hangup_via_rtp_data env hangup (conn (fsm s))).1) <| phase := NotCalled |>)
      by (rewrite <- Hph; by destruct s).
    apply Inv_terminating; [done..| |by rewrite <- Hs|done]. conn_respects.
  - pose proof (still_api message_size env a Hch (conn (fsm s))) as Hstill.
    eapply Inv_still; [done|done|done|apply HI..|done].
Qed.

Lemma Inv_step a s s' :
  Inv s -> atomic a = true -> act message_size a s = Some s' -> Inv s'.
Proof.
  intros HI Hat. unfold act. destruct a as [| |env|env|env|env n|env a|env|env]; try discriminate Hat.
  - rewrite (inv_taken _ HI). destruct (recv (fsm s)) as [[f [st ev]]|] eqn:Hr; [|done].
    intros [= <-]. by apply Inv_event.
  - destruct (worker (fsm s)) as [|t w]; [done|]. intros [= <-].
    eapply Inv_still; [done|apply still_worker_task|apply started_worker_task|apply HI..|done].
  - pose proof (inv_plain _ HI) as Hp. destruct (notify (fsm s)) as [|t w]; [done|]. intros [= <-].
    apply Forall_cons in Hp as [Hpt Hpw].
    eapply Inv_still; [done|by apply still_notify_task|apply started_notify_task|done|apply HI|done].
  - destruct (ticking _); [|done]. destruct (tick env n _) as [[c' r]|] eqn:Ht; [|done].
    intros [= <-].
    eapply Inv_still; [done|by eapply still_tick|by eapply started_tick|apply HI..|done].
  - destruct (api_allowed _ _ _) eqn:Ha; [|done]. intros [= <-]. by apply Inv_api.
  - destruct (_ && _) eqn:Hb; [|done]. apply andb_true_iff in Hb as [Hs Hph%bool_decide_eq_true].
    destruct (terminate_begin env (conn (fsm s))) as [c' r] eqn:Htb. intros [= <-].
    assert (c' = (terminate_begin env (conn (fsm s))).1) as -> by (by rewrite Htb).
    apply Inv_terminating; [done..|conn_respects| |by destruct r].
    exact (eq_trans (proj1 (started_terminate env) (conn (fsm s))) Hs).
  - destruct (_ && _) eqn:Hb; [|done]. apply andb_true_iff in Hb as [Hph%bool_decide_eq_true _].
    intros [= <-]. by apply Inv_terminated.
Qed.

Lemma Inv_reachable c s :
  state c = ConnectionState.NotYetStarted -> outputs c = [] -> fsm_started c = false ->
  reachable message_size c s -> Inv s.
Proof.
  intros Hst Hout Hf. induction 1 as [|s a s' Hr IH Hat Hact]; [|by eapply Inv_step].
  split; cbn; try done; try congruence.
  unfold state_changes. rewrite Hst, Hout. constructor.
Qed.

(** ** Between taking an event and handling it *)

(** What holds in every interleaving. *)
Record WInv (s : Sys) : Prop := mkWInv {
  winv_plain : Forall plain (notify (fsm s));
  winv_unstarted : fsm_started (conn (fsm s)) = false ->
    state (conn (fsm s)) = ConnectionState.NotYetStarted /\ phase s = NotCalled /\ taken s = None;
  winv_started : fsm_started (conn (fsm s)) = true ->
    state (conn (fsm s)) <> ConnectionState.NotYetStarted;
  winv_phase : phase s = NotCalled -> state (conn (fsm s)) <> ConnectionState.Terminated;
  (** The state that was read is still the state, or the connection was terminated since. *)
  winv_taken : forall st ev, taken s = Some (st, ev) ->
    st = state (conn (fsm s)) \/ ConnectionState.terminating_or_terminated (state (conn (fsm s))) = true;
}.

(** An event is handled that was taken before the connection was terminated: the handler
    takes an edge from the state that was read. *)
Definition overtaken (s s' : Sys) : Prop :=
  exists st ev, taken s = Some (st, ev) /\ ConnectionState.terminating_or_terminated st = false /\
    ConnectionState.terminating_or_terminated (state (conn (fsm s))) = true /\
    edge st (state (conn (fsm s'))).

(** [terminate] returns. *)
Definition returned_now (s s' : Sys) : Prop :=
  phase s = Waiting /\ phase s' = Returned /\ state (conn (fsm s')) = ConnectionState.Terminated.

Definition stepped (s s' : Sys) : Prop :=
  forward (conn (fsm s)) (conn (fsm s')) \/ overtaken s s' \/ returned_now s s'.

Lemma still_forward c c' : still c c' -> forward c c'.
Proof. intros Hs. by apply one_move_forward; left. Qed.

Lemma WInv_still s s' :
  WInv s -> still (conn (fsm s)) (conn (fsm s')) ->
  fsm_started (conn (fsm s')) = fsm_started (conn (fsm s)) ->
  Forall plain (notify (fsm s')) -> taken s' = taken s -> phase s' = phase s -> WInv s' /\ stepped s s'.
Proof.
  intros [Hp Hu Hn Hph Ht] Hs Hst Hp' Ht' Hph'. split; [|left; by apply still_forward].
  injection Hs as Hs _. by split; rewrite ?Hph', ?Hst, ?Hs, ?Ht'.
Qed.

(** The connection is told to terminate. *)
Lemma WInv_terminating env (k : CM unit) s phase' :
  WInv s -> fsm_started (conn (fsm s)) = true -> phase s = NotCalled ->
  respects still k ->
  fsm_started ((set_state env ConnectionState.Terminating ;; k) (conn (fsm s))).1 = true ->
  let s' := (with_conn s ((set_state env ConnectionState.Terminating ;; k) (conn (fsm s))).1) <| phase := phase' |> in
  WInv s' /\ stepped s s'.
Proof.
  intros HW Hst Hph Hk Hst'. cbn zeta.
  destruct (set_state_then_still env ConnectionState.Terminating k (conn (fsm s)) Hk) as [Hs Hstill].
  split.
  - split; cbn [fsm taken phase set_field conn notify with_conn]; rewrite ?Hs; [apply HW|congruence|done|done|by right].
  - left. cbn [fsm set_field conn with_conn]. apply one_move_forward. eapply one_move_still; [|exact Hstill].
    apply set_terminating_one_move; [by apply HW|by apply HW].
Qed.

Lemma wide_recv s s' : WInv s -> act message_size ARecv s = Some s' -> WInv s' /\ stepped s s'.
Proof.
  intros [Hp Hu Hn Hph Ht]. unfold act. destruct (taken s), (recv (fsm s)) as [[f [st ev]]|] eqn:Hr; try done.
  intros [= <-]. apply recv_spec in Hr as (-> & Hst & q & Hq & ->). split; [|left; by apply still_forward].
  split; cbn; try done; [congruence|]. intros st ev' [= <- <-]. by left.
Qed.

Lemma wide_handle env s s' : WInv s -> act message_size (AHandle env) s = Some s' -> WInv s' /\ stepped s s'.
Proof.
  intros [Hp Hu Hn Hph Ht]. unfold act. destruct (taken s) as [[st ev]|] eqn:Htk; [|done]. intros [= <-].
  specialize (Ht _ _ eq_refl).
  pose proof (started_handle_event env st ev (fsm s)) as Hstarted. unfold onc, same in Hstarted.
  pose proof (plain_handle_event env st ev (fsm s) Hp) as Hp'.
  assert (fsm_started (conn (fsm s)) = true) as Hst.
  { destruct (fsm_started _) eqn:Hf; [done|]. destruct (Hu eq_refl) as (_ & _ & ?). congruence. }
  destruct (ConnectionState.terminating_or_terminated st) eqn:Htt.
  { pose proof (handle_event_terminating env st ev Htt (fsm s)) as Hs. unfold onc in Hs.
    split; [|left; by apply still_forward]. injection Hs as Hs _. split; cbn; rewrite ?Hs; [done|congruence|auto|done|done]. }
  pose proof (handle_event_one_move env st ev (fsm s)) as Hm.
  set (c' := conn (handle_event env st ev (fsm s)).1) in *.
  destruct Hm as [Hs|[He Hc]].
  { split; [|left; by apply still_forward]. injection Hs as Hs _. split; cbn; fold c'; rewrite ?Hs; [done|congruence|auto|done|done]. }
  split.
  - split; cbn; fold c'; try done; [congruence|intros _ Hn'; rewrite Hn' in He; inversion He|].
    intros _ Hn'. rewrite Hn' in He. inversion He; subst; done.
  - destruct Ht as [->|Ht]; [left; apply one_move_forward; right; by split|]. right; left. by exists st, ev.
Qed.

Lemma WInv_api env a s :
  WInv s -> api_allowed (phase s) a (conn (fsm s)) = true ->
  let s' := with_conn s (run_api message_size env a (conn (fsm s))).1 in WInv s' /\ stepped s s'.
Proof.
  intros HW Ha. cbn zeta. destruct (is_start a) eqn:His.
  { assert (fsm_started (conn (fsm s)) = false) as Hus.
    { destruct a; try done; cbn in Ha; apply andb_true_iff in Ha as [_ Hn]; by apply negb_true_iff. }
    destruct (winv_unstarted _ HW Hus) as (Hst & Hph & Htk).
    destruct (start_api_forward env a (conn (fsm s)) His Hst) as (Hf & Hs & Hin).
    split; [|by left]. split; cbn; [apply HW|congruence|intros _ Hn; by rewrite Hn in Hin|intros _ Hn; by rewrite Hn in Hin|].
    intros st ev. by rewrite Htk. }
  pose proof (started_api message_size env a His (conn (fsm s))) as Hst.
  destruct (changes_state a) eqn:Hch.
  - destruct a; try discriminate; cbn in Ha.
    apply andb_true_iff in Ha as [Hs Hph%bool_decide_eq_true].
    replace (with_conn s _) with ((with_conn s
      (inject_send_hangup_via_rtp_data env hangup (conn (fsm s))).1) <| phase := NotCalled |>)
      by (rewrite <- Hph; by destruct s).
    apply WInv_terminating; [done..| |by rewrite <- Hs]. conn_respects.
  - pose proof (still_api message_size env a Hch (conn (fsm s))) as Hstill.
    apply (WInv_still s); [done|done|done|apply HW|done|done].
Qed.

Lemma wide_step a s s' : WInv s -> act message_size a s = Some s' -> WInv s' /\ stepped s s'.
Proof.
  intros HW. destruct a as [| |env|env|env|env n|env a|env|env].
  - by apply wide_recv.
  - by apply wide_handle.
  - intros (s1 & Hrecv & Hhandle)%taken_event_split. destruct (wide_recv _ _ HW Hrecv) as [HW1 _].
    destruct (wide_handle _ _ _ HW1 Hhandle) as [HW2 Hs]. split; [done|]. unfold act in Hrecv.
    destruct (taken s), (recv (fsm s)) as [[f [st ev]]|] eqn:Hr; try done. injection Hrecv as <-.
    apply recv_spec in Hr as (-> & Hst & q & Hq & ->).
    destruct Hs as [Hf|[(st & ev' & [= <- <-] & Htt & Htt' & _)|Hr]]; [by left|cbn in Htt'; congruence|by right; right].
  - unfold act. destruct (worker (fsm s)) as [|t w]; [done|]. intros [= <-].
    apply (WInv_still s); [done|apply still_worker_task|apply started_worker_task|apply HW|done|done].
  - pose proof (winv_plain _ HW) as Hp. unfold act. destruct (notify (fsm s)) as [|t w]; [done|]. intros [= <-].
    apply Forall_cons in Hp as [Hpt Hpw].
    apply (WInv_still s); [done|by apply still_notify_task|apply started_notify_task|done|done|done].
  - unfold act. destruct (ticking _); [|done]. destruct (tick env n _) as [[c' r]|] eqn:Ht; [|done]. intros [= <-].
    apply (WInv_still s); [done|by eapply still_tick|by eapply started_tick|apply HW|done|done].
  - unfold act. destruct (api_allowed _ _ _) eqn:Ha; [|done]. intros [= <-]. by apply WInv_api.
  - unfold act. destruct (_ && _) eqn:Hb; [|done]. apply andb_true_iff in Hb as [Hs Hph%bool_decide_eq_true].
    destruct (terminate_begin env (conn (fsm s))) as [c' r] eqn:Htb. intros [= <-].
    assert (c' = (terminate_begin env (conn (fsm s))).1) as -> by (by rewrite Htb).
    apply WInv_terminating; [done..|conn_respects|].
    exact (eq_trans (proj1 (started_terminate env) (conn (fsm s))) Hs).
  - unfold act. destruct (_ && _) eqn:Hb; [|done]. apply andb_true_iff in Hb as [Hph%bool_decide_eq_true _].
    intros [= <-]. pose proof (proj2 (started_terminate env) (conn (fsm s))) as Hst. unfold same in Hst.
    destruct (set_state_then_still env ConnectionState.Terminated terminate_cleanup (conn (fsm s)))
      as [Hs' _]; [unfold terminate_cleanup; solve_respects|]. unfold terminate_end in *. split; [|by right; right].
    split; cbn; rewrite ?Hs', ?Hst; [apply HW| |done|done|by right].
    intros Hf. destruct (winv_unstarted _ HW Hf) as (_ & ? & _). congruence.
Qed.

Lemma wide_interleaved c s :
  state c = ConnectionState.NotYetStarted -> fsm_started c = false -> interleaved message_size c s -> WInv s.
Proof.
  intros Hst Hf. induction 1 as [|s a s' _ IH Ha]; [|by eapply wide_step].
  split; cbn; try done; congruence.
Qed.

(** C11. The states a connection reports to its call follow the diagram of
    connection states, whatever the three threads of the connection, WebRTC's
    callbacks, the application and the call do, in any order and with any error.

    If no thread comes between taking an event and handling it, every report is one edge
    after the previous one, and the last report is the
    current state; from the moment [terminate] is called the connection is
    terminating, and once [terminate] has returned it is terminated for good.

    In all interleavings, every step follows edges and reports each, with two exceptions:
    an event that was taken before the connection was told to terminate is handled with the
    state that was read, so that an edge from that state is taken over [Terminating] or [Terminated]; and
    [terminate] sets [Terminated] when it returns, from any state. *)
Theorem connection_states_follow_diagram id dir device ct cfg ali s :
  (reachable message_size (Connection.new id dir device ct cfg ali) s ->
   walk ConnectionState.NotYetStarted (state_changes (conn (fsm s))) (state (conn (fsm s))) /\
   match phase s with
   | NotCalled => state (conn (fsm s)) <> ConnectionState.Terminated
   | Waiting | Failed => state (conn (fsm s)) = ConnectionState.Terminating
   | Returned => state (conn (fsm s)) = ConnectionState.Terminated
   end) /\
  (interleaved message_size (Connection.new id dir device ct cfg ali) s ->
   forall a s', act message_size a s = Some s' -> stepped s s').
Proof.
  split.
  - intros Hr. apply Inv_reachable in Hr; [|done..]. split; apply Hr.
  - intros Hi a s' Ha. apply wide_interleaved in Hi; [|done..]. by eapply wide_step.
Qed.

Lemma run_reachable c l s s' :
  reachable message_size c s -> forallb atomic l = true -> run message_size l s = Some s' ->
  reachable message_size c s'.
Proof.
  revert s. induction l as [|a l IH]; intros s Hr; cbn.
  - by intros _ [= <-].
  - intros [Ha Hl]%andb_true_iff Hrun. destruct (act message_size a s) as [s1|] eqn:Hs; [|done].
    eapply IH; [|done|done]. by eapply reachable_step.
Qed.

Lemma run_interleaved c l s s' :
  interleaved message_size c s -> run message_size l s = Some s' -> interleaved message_size c s'.
Proof.
  revert s. induction l as [|a l IH]; intros s Hr; cbn; [by intros [= <-]|]. intros Hrun.
  destruct (act message_size a s) as [s1|] eqn:Hs; [|done]. eapply IH; [|done]. by eapply interleaved_step.
Qed.

End Invariant.

(** ** Concrete runs *)

Module Toy.
Export ConnectionStart.Toy.

(** Decodes to nothing; no run below receives RTP data. *)
#[export] Instance rtp_codec : Codec RtpMessage := {| pb_encode _ := [1]; pb_decode _ := None |}.

Definition v4 : ConnectionParametersV4 :=
  mkV4 (Some (replicate 32 5)) (Some "u"%string) (Some ""%string) [Some 8] (Some 2000000) [] [].

Definition received_offer : ReceivedOffer :=
  mkReceivedOffer (mkOffer Audio [] (mkOfferProto (Some v4))) 0 1 2 [1; 2] [3; 4].

Definition incoming : Connection := Connection.new 7 Incoming 1 IncomingConnection default_call_config None.

Definition start : list action :=
  [AApi ok_env ApiSetPeerConnection; AApi ok_env (ApiStartIncoming (setup 11) received_offer [])].

(** An incoming call that rings, is accepted, loses and regains the network and is
    terminated. *)
Definition whole_call : list action :=
  start ++
  [AApi ok_env (ApiIceConnectionState IceStateConnected); AEvent ok_env;
   AApi ok_env ApiAccept; AEvent ok_env; AWorker ok_env;
   AApi ok_env (ApiIceConnectionState IceStateDisconnected); AEvent ok_env;
   AApi ok_env (ApiIceConnectionState IceStateConnected); AEvent ok_env; ANotify ok_env;
   AApi ok_env (ApiSendHangup Hangup.Normal); AEvent ok_env; AWorker ok_env;
   ATerminateBegin ok_env; AEvent ok_env; ATerminateEnd ok_env].

(** [terminate] overtakes an event that was taken before it. *)
Definition before_overtaken : list action :=
  start ++ [AApi ok_env (ApiIceConnectionState IceStateConnected); ARecv; ATerminateBegin ok_env].
Definition overtaken_twice : list action :=
  before_overtaken ++
  [AApi ok_env (ApiIceConnectionState IceStateDisconnected);
   AHandle ok_env; ARecv; AHandle ok_env; ARecv; ATerminateEnd ok_env; AHandle ok_env].

End Toy.

Section Witnesses.
Import Toy.

Lemma connection_states_follow_diagram_witness :
  exists s, (walk ConnectionState.NotYetStarted (state_changes (conn (fsm s)))
              (state (conn (fsm s))) /\
    phase s = Returned /\ length (state_changes (conn (fsm s))) = 8%nat) /\
  exists s1 s2, act 1000 (AHandle ok_env) s1 = Some s2 /\ stepped s1 s2 /\
    state (conn (fsm s1)) = ConnectionState.Terminating /\
    state (conn (fsm s2)) = ConnectionState.ConnectedBeforeAccepted.
Proof.
  destruct (run 1000 whole_call (init incoming)) as [s|] eqn:Hrun; [|vm_compute in Hrun; discriminate].
  exists s. split; [split|].
  - eapply (connection_states_follow_diagram 1000 7 Incoming 1 IncomingConnection).
    eapply (run_reachable 1000 incoming whole_call); [apply reachable_init|reflexivity|exact Hrun].
  - vm_compute in Hrun. injection Hrun as <-. by vm_compute.
  - clear s Hrun. destruct (run 1000 before_overtaken (init incoming)) as [s1|] eqn:Hrun; [|vm_compute in Hrun; discriminate].
    destruct (act 1000 (AHandle ok_env) s1) as [s2|] eqn:Hact; [|vm_compute in Hrun; injection Hrun as <-; vm_compute in Hact; discriminate].
    exists s1, s2. split; [done|]. split.
    + eapply (connection_states_follow_diagram 1000 7 Incoming 1 IncomingConnection); [|exact Hact].
      eapply (run_interleaved 1000 incoming before_overtaken); [apply interleaved_init|exact Hrun].
    + vm_compute in Hrun. injection Hrun as <-. vm_compute in Hact. injection Hact as <-. by vm_compute.
Defined.

(** The order of the threads matters.  [run] reads the state of the connection
    before it handles an event and does not read it again; if [terminate] runs in
    between, the handler overwrites the state.  In the run below a connection
    whose [terminate] has returned, and which was [Terminated], ends in
    [ConnectingBeforeAccepted]. *)
Theorem terminated_state_can_be_overwritten :
  exists s, run 1000 overtaken_twice (init incoming) = Some s /\ phase s = Returned /\
    In ConnectionState.Terminated (state_changes (conn (fsm s))) /\
    state (conn (fsm s)) = ConnectionState.ConnectingBeforeAccepted.
Proof.
  destruct (run 1000 overtaken_twice (init incoming)) as [s|] eqn:Hrun; [|vm_compute in Hrun; discriminate].
  exists s. split; [done|]. vm_compute in Hrun. injection Hrun as <-. vm_compute. tauto.
Qed.

End Witnesses.

End ConnectionSystem.
