(* ===== verification/ConnectionLive.v ===== *)
(** * Termination and roles of a connection

    [terminate] waits for the state machine: the state machine always gets to the
    [Terminate] event and answers.  Only the callee's side accepts. *)

From S2P Require Import Prelude States Signaling ConnectionTypes Connection.
From S2P Require Import ConnectionStart ConnectionFsm ConnectionSystem.
Local Open Scope Z_scope.
Local Open Scope ringrtc_scope.

Module ConnectionLive.
Import Connection ConnectionStart ConnectionFsm ConnectionSystem.

(** ** Progress of termination *)

(** A queued [Terminate] stays queued, a completed termination stays complete. *)
Definition tprog (c c' : Connection) : Prop :=
  (ConnectionEvent.Terminate ∈ fsm_queue c -> ConnectionEvent.Terminate ∈ fsm_queue c') /\
  (terminate_complete c = true -> terminate_complete c' = true) /\
  fsm_connected c' = fsm_connected c.

#[local] Instance tprog_preorder : PreOrder tprog.
Proof.
  split; unfold tprog.
  - intros c. done.
  - intros c1 c2 c3 (H1 & H2 & H3) (H4 & H5 & H6). split_and!; [auto|auto|congruence].
Qed.

#[local] Hint Extern 2 (respects tprog (modify _)) =>
  apply respects_modify; intros; unfold tprog; cbn; split_and!;
    [rewrite ?elem_of_app; tauto|tauto|reflexivity] : respects.
#[local] Hint Extern 2 (respects tprog (emit _)) =>
  apply respects_modify; intros; unfold tprog; cbn; tauto : respects.

Section Live.
Context `{SrtpCrypto} `{SdpFfi}.
Context `{Codec OfferProto} `{Codec AnswerProto} `{Codec IceCandidateProto} `{Codec RtpMessage}.
Context (message_size : Z).

Lemma tprog_worker_task env t : respects tprog (run_worker_task env t).
Proof. destruct t; all_respects. Qed.

Lemma tprog_notify_task env t : respects tprog (run_notify_task env t).
Proof. destruct t; all_respects. Qed.

Lemma tprog_tick env n c c' r : tick env n c = Val (c', r) -> tprog c c'.
Proof. apply (tick_rel tprog); all_respects. Qed.

Lemma tprog_api env a : respects tprog (run_api message_size env a).
Proof.
  destruct a; unfold run_api, start_outgoing_parent, start_outgoing_child, start_incoming,
    then_start_fsm, outgoing_parent_body, outgoing_child_body, incoming_body, peer; all_respects.
Qed.

Lemma tprog_terminate env :
  respects tprog (terminate_begin env) /\ respects tprog (terminate_end env).
Proof. split; all_respects. Qed.

(** The state machine never adds to its own queue. *)
Lemma queue_handle_event env st ev : respects (onc (same fsm_queue)) (handle_event env st ev).
Proof. all_respects. Qed.

(** Every event but [Terminate] leaves the two flags alone. *)
Lemma flags_handle_event env st ev :
  ev <> ConnectionEvent.Terminate ->
  respects (onc (same (fun c => (terminate_complete c, fsm_connected c)))) (handle_event env st ev).
Proof. intros Hev. destruct ev; try done; all_respects. Qed.

Lemma handle_terminate_flags env st f :
  let f' := (handle_event env st ConnectionEvent.Terminate f).1 in
  terminate_complete (conn f') = true /\ fsm_connected (conn f') = false /\
  worker f' = [] /\ notify f' = [] /\ worker_stopped f' = true /\ notify_stopped f' = true.
Proof. done. Qed.

(** A closed queue was closed by [Terminate]; while [terminate] waits, the answer is
    there or the request is queued. *)
Definition TInv (s : Sys) : Prop :=
  (fsm_connected (conn (fsm s)) = false -> terminate_complete (conn (fsm s)) = true) /\
  (phase s = Waiting ->
   terminate_complete (conn (fsm s)) = true \/
   ConnectionEvent.Terminate ∈ fsm_queue (conn (fsm s))).

Lemma TInv_tprog s s' :
  TInv s -> tprog (conn (fsm s)) (conn (fsm s')) -> phase s' = phase s \/ phase s' <> Waiting ->
  TInv s'.
Proof.
  intros [Hc Hw] (Hq & Ht & Hconn) Hp. split.
  - rewrite Hconn. auto.
  - intros Hph. destruct Hp as [Hp|Hp]; [|done]. rewrite Hp in Hph. destruct (Hw Hph); auto.
Qed.

(** [terminate_begin] succeeds only by queueing the request, or when the queue was
    closed. *)
Lemma terminate_begin_queued env c c' :
  terminate_begin env c = (c', Ok tt) ->
  fsm_connected c = false \/ ConnectionEvent.Terminate ∈ fsm_queue c'.
Proof.
  unfold terminate_begin. intros (c1 & u & Hs & Hi)%ST_bind_ok.
  assert (fsm_connected c1 = fsm_connected c) as Hc.
  { assert (respects (same fsm_connected) (set_state env ConnectionState.Terminating)) as Hr
      by conn_respects.
    specialize (Hr c). by rewrite Hs in Hr. }
  unfold inject_event, get, mbind, ST_bind in Hi. destruct (fsm_connected c1); cbn in Hi; [|by left].
  case_match; [|done]. injection Hi as <-. right. cbn. set_solver.
Qed.

#[local] Instance ConnectionEvent_Terminate_dec ev : Decision (ev = ConnectionEvent.Terminate).
Proof. destruct ev; try (right; discriminate). by left. Defined.

Lemma TInv_event env s f st ev :
  TInv s -> recv (fsm s) = Some (f, (st, ev)) ->
  TInv (s <| fsm := (handle_event env st ev f).1 |>).
Proof.
  intros [Hc Hw] (-> & Hst & q & Hq & Hf)%recv_spec.
  destruct (decide (ev = ConnectionEvent.Terminate)) as [->|Hev].
  { by split; [|left]. }
  pose proof (flags_handle_event env (state (conn (fsm s))) ev Hev f) as Hfl.
  pose proof (queue_handle_event env (state (conn (fsm s))) ev f) as Hqu.
  unfold onc, same in Hfl, Hqu. injection Hfl as Ht Hcn.
  assert (terminate_complete (conn f) = terminate_complete (conn (fsm s)) /\
          fsm_connected (conn f) = fsm_connected (conn (fsm s)) /\
          fsm_queue (conn f) = q) as (Ht' & Hcn' & Hq') by (subst f; done).
  split; cbn [fsm phase set_field].
  - rewrite Hcn, Ht, Hcn', Ht'. auto.
  - rewrite Hqu, Ht, Hq', Ht'. intros Hp. destruct (Hw Hp) as [?|Hin]; [by left|right].
    rewrite Hq in Hin. apply elem_of_cons in Hin as [?|?]; [congruence|done].
Qed.

Lemma TInv_step a s s' :
  taken s = None -> TInv s -> atomic a = true -> act message_size a s = Some s' -> TInv s'.
Proof.
  intros Htk HI Hat. unfold act.
  destruct a as [| |env|env|env|env n|env a|env|env]; try discriminate Hat.
  - rewrite Htk. destruct (recv (fsm s)) as [[f [st ev]]|] eqn:Hr; [|done].
    intros [= <-]. by apply TInv_event.
  - destruct (worker (fsm s)) as [|t w]; [done|]. intros [= <-].
    eapply TInv_tprog; [done|apply tprog_worker_task|by left].
  - destruct (notify (fsm s)) as [|t w]; [done|]. intros [= <-].
    eapply TInv_tprog; [done|apply tprog_notify_task|by left].
  - destruct (ticking _); [|done]. destruct (tick env n _) as [[c' r]|] eqn:Ht; [|done].
    intros [= <-]. eapply TInv_tprog; [done|by eapply tprog_tick|by left].
  - destruct (api_allowed _ _ _); [|done]. intros [= <-].
    eapply TInv_tprog; [done|apply tprog_api|by left].
  - destruct (_ && _); [|done].
    pose proof (proj1 (tprog_terminate env) (conn (fsm s))) as Htp.
    destruct (terminate_begin env (conn (fsm s))) as [c' [[]|e]] eqn:Htb; intros [= <-]; cbn in Htp.
    + destruct HI as [Hc Hw]. destruct Htp as (Hq & Ht & Hcn). split; cbn.
      * rewrite Hcn. auto.
      * intros _. apply terminate_begin_queued in Htb as [Hn|?]; [left; auto|by right].
    + eapply TInv_tprog; [done|done|by right].
  - destruct (_ && _); [|done]. intros [= <-].
    eapply TInv_tprog; [done|apply (tprog_terminate env)|by right].
Qed.

Lemma TInv_reachable id dir device ct cfg ali s :
  reachable message_size (Connection.new id dir device ct cfg ali) s -> TInv s.
Proof.
  induction 1 as [|s a s' Hr IH Hat Hact]; [by split|].
  eapply TInv_step; [|done..]. eapply inv_taken, Inv_reachable; [..|done]; done.
Qed.

(** Handling the queue in order reaches the request. *)
Lemma events_reach_terminate env s :
  taken s = None -> fsm_started (conn (fsm s)) = true ->
  ConnectionEvent.Terminate ∈ fsm_queue (conn (fsm s)) ->
  exists n s', (n <= length (fsm_queue (conn (fsm s))))%nat /\
    run message_size (replicate n (AEvent env)) s = Some s' /\
    terminate_complete (conn (fsm s')) = true /\ phase s' = phase s /\
    worker (fsm s') = [] /\ notify (fsm s') = [] /\ fsm_connected (conn (fsm s')) = false.
Proof.
  remember (fsm_queue (conn (fsm s))) as q eqn:Hq. revert s Hq.
  induction q as [|ev q IH]; intros s Hq Htk Hst Hin; [set_solver|].
  set (f := (fsm s) <| conn := (conn (fsm s)) <| fsm_queue := q |> |>).
  assert (recv (fsm s) = Some (f, (state (conn (fsm s)), ev))) as Hr.
  { unfold recv. by rewrite Hst, <- Hq. }
  assert (act message_size (AEvent env) s =
    Some (s <| fsm := (handle_event env (state (conn (fsm s))) ev f).1 |>)) as Hact.
  { unfold act. by rewrite Htk, Hr. }
  destruct (decide (ev = ConnectionEvent.Terminate)) as [->|Hev].
  { exists 1%nat. eexists. split; [cbn; lia|]. cbn [replicate run]. rewrite Hact.
    split; [reflexivity|]. done. }
  apply elem_of_cons in Hin as [?|Hin]; [congruence|].
  pose proof (queue_handle_event env (state (conn (fsm s))) ev f) as Hqu.
  pose proof (started_handle_event env (state (conn (fsm s))) ev f) as Hsf.
  destruct (IH (s <| fsm := (handle_event env (state (conn (fsm s))) ev f).1 |>))
    as (n & s' & Hn & Hrun & Hrest); [exact (eq_sym Hqu)|done|exact (eq_trans Hsf Hst)|done|].
  exists (S n), s'. split; [cbn; lia|]. split; [|done].
  cbn [replicate run]. by rewrite Hact.
Qed.

(** [terminate] does not wait for ever: from every state reached while it
    waits, whatever is queued, the state machine answers after handling at most
    the events in its queue; it has then closed the queue and stopped the worker
    and the notify thread, dropping what they had not started. *)
Theorem terminate_is_answered id dir device ct cfg ali s env :
  reachable message_size (Connection.new id dir device ct cfg ali) s ->
  phase s = Waiting ->
  exists n s', (n <= length (fsm_queue (conn (fsm s))))%nat /\
    run message_size (replicate n (AEvent env)) s = Some s' /\
    terminate_complete (conn (fsm s')) = true /\
    (exists s'', act message_size (ATerminateEnd env) s' = Some s'' /\ phase s'' = Returned).
Proof.
  intros Hr Hp. assert (Inv s) as HI by (eapply Inv_reachable; [..|exact Hr]; done).
  assert (forall s', phase s' = Waiting -> terminate_complete (conn (fsm s')) = true ->
    exists s'', act message_size (ATerminateEnd env) s' = Some s'' /\ phase s'' = Returned) as Hend.
  { intros s' Hp' Hc'. eexists. unfold act. rewrite Hp', Hc'. split; reflexivity. }
  destruct (TInv_reachable _ _ _ _ _ _ _ Hr) as [_ Hw]. destruct (Hw Hp) as [Hc|Hin].
  - exists 0%nat, s. split; [lia|]. split; [done|]. auto.
  - destruct (fsm_started (conn (fsm s))) eqn:Hst; [|by destruct (inv_unstarted _ HI Hst); congruence].
    destruct (events_reach_terminate env s (inv_taken _ HI) Hst Hin)
      as (n & s' & Hn & Hrun & Hc & Hp' & _).
    exists n, s'. split_and!; [done..|]. apply Hend; [congruence|done].
Qed.

End Live.

Section Witness.
Import ConnectionSystem.Toy.

(** A hangup and other events are queued before [terminate] is called. *)
Definition busy : list action :=
  start ++
  [AApi ok_env (ApiIceConnectionState IceStateConnected);
   AApi ok_env (ApiSendHangup Hangup.Normal);
   AApi ok_env (ApiIceConnectionState IceStateDisconnected); ATerminateBegin ok_env].

Lemma terminate_is_answered_witness :
  exists s n s', phase s = Waiting /\ (n <= 4)%nat /\
    run 1000 (replicate n (AEvent ok_env)) s = Some s' /\
    terminate_complete (conn (fsm s')) = true.
Proof.
  destruct (run 1000 busy (init incoming)) as [s|] eqn:Hrun; [|vm_compute in Hrun; discriminate].
  exists s.
  assert (phase s = Waiting /\ length (fsm_queue (conn (fsm s))) = 4%nat) as [Hp Hl].
  { vm_compute in Hrun. injection Hrun as <-. by vm_compute. }
  destruct (terminate_is_answered 1000 7 Incoming 1 IncomingConnection default_call_config None
    s ok_env) as (n & s' & Hn & Hr & Hc & _).
  - eapply (run_reachable 1000 incoming busy); [apply reachable_init|reflexivity|exact Hrun].
  - exact Hp.
  - exists n, s'. rewrite Hl in Hn. auto.
Defined.

End Witness.
End ConnectionLive.
