(* ===== verification/ConnectionStatus.v ===== *)
(** * The remote status an application sees

    Status messages of the remote side arrive in RTP data, possibly before the
    call is accepted, out of order and more than once.  Before acceptance they are
    only remembered; from acceptance on, what the call was told last and the rate
    limit in force are the newest ones received. *)

From S2P Require Import Prelude States Signaling ConnectionTypes Connection.
From S2P Require Import ConnectionStart ConnectionFsm ConnectionSystem.
Local Open Scope Z_scope.
Local Open Scope ringrtc_scope.

Module ConnectionStatus.
Import Connection ConnectionStart ConnectionFsm ConnectionSystem.

Definition reported (o : Output) : option SenderStatus :=
  match o with
  | ToObserver (ConnectionObserverEvent.RemoteSenderStatusChanged status) => Some status
  | _ => None
  end.

Definition last_reported (c : Connection) : option SenderStatus :=
  last (omap reported (outputs c)).

Definition remote_max (c : Connection) : option DataRate.DataRate :=
  BandwidthController.remote_max (bandwidth_controller c).

(** The call's queue takes the event and WebRTC accepts the rate. *)
Definition good_env (env : Env) : Prop :=
  (forall ev, env_observer env ev = Ok tt) /\ env_set_send_rates env = Ok tt.

Definition action_env `{SrtpCrypto} (a : action) : option Env :=
  match a with
  | ARecv => None
  | AHandle env | AEvent env | AWorker env | ANotify env | ATick env _ | AApi env _
  | ATerminateBegin env | ATerminateEnd env => Some env
  end.

Definition before_accepted (st : ConnectionState.ConnectionState) : bool :=
  match st with
  | ConnectionState.NotYetStarted | ConnectionState.Starting | ConnectionState.IceGathering
  | ConnectionState.ConnectingBeforeAccepted | ConnectionState.ConnectingAfterAccepted
  | ConnectionState.ConnectedBeforeAccepted => true
  | _ => false
  end.

Record SInv (f : Fsm) : Prop := mkSInv {
  sinv_peer : wd_peer_connection (webrtc (conn f)) = true;
  sinv_plain : Forall (fun t => reported (notification t) = None) (notify f);
  sinv_before : before_accepted (state (conn f)) = true -> last_reported (conn f) = None;
  sinv_sender : ConnectionState.active (state (conn f)) = true ->
    last_reported (conn f) = snd <$> last_remote_sender_status f;
  sinv_receiver : ConnectionState.active (state (conn f)) = true ->
    forall n rate, last_remote_receiver_status f = Some (n, rate) -> remote_max (conn f) = Some rate;
}.

(** ** Operations that do not concern the status *)

Definition unseen (c c' : Connection) : Prop :=
  last_reported c' = last_reported c /\ remote_max c' = remote_max c /\
  (wd_peer_connection (webrtc c) = true -> wd_peer_connection (webrtc c') = true).

#[local] Instance unseen_preorder : PreOrder unseen.
Proof.
  split; unfold unseen; [done|].
  intros c1 c2 c3 (H1 & H2 & H3) (H4 & H5 & H6). split_and!; [congruence|congruence|auto].
Qed.

Lemma last_reported_emit o c :
  last_reported (c <| outputs := outputs c ++ [o] |>) =
  match reported o with Some s => Some s | None => last_reported c end.
Proof.
  unfold last_reported. cbn. rewrite omap_app. cbn. destruct (reported o); cbn.
  - by rewrite last_snoc.
  - by rewrite app_nil_r.
Qed.

Lemma unseen_emit o : reported o = None -> respects unseen (emit o).
Proof.
  intros Ho. apply respects_modify. intros c. unfold unseen.
  by rewrite last_reported_emit, Ho.
Qed.

#[local] Hint Extern 1 (respects unseen (emit _)) =>
  apply unseen_emit; first [reflexivity | assumption] : respects.
#[local] Hint Extern 2 (respects unseen (modify _)) =>
  apply respects_modify; intros; unfold unseen; split_and!; try reflexivity; cbn; tauto : respects.

Section Status.
Context `{SrtpCrypto} `{SdpFfi}.
Context `{Codec OfferProto} `{Codec AnswerProto} `{Codec IceCandidateProto} `{Codec RtpMessage}.
Context (message_size : Z).

(** A new rate limit or route keeps the remote limit. *)
Lemma unseen_update_bandwidth_controller env update :
  (forall bc bc', update bc = Some bc' ->
     BandwidthController.remote_max bc' = BandwidthController.remote_max bc) ->
  respects unseen (update_bandwidth_controller env update).
Proof.
  intros Hu c. unfold update_bandwidth_controller, gets, mbind, ST_bind. cbn.
  destruct (update (bandwidth_controller c)) as [bc'|] eqn:Hup; [|done]. apply Hu in Hup.
  assert (respects unseen (apply_bandwidth_controller env)) as Hr by conn_respects.
  specialize (Hr (c <| bandwidth_controller := bc' |>)). cbn.
  destruct (apply_bandwidth_controller env (c <| bandwidth_controller := bc' |>)) as [c2 [|]];
    cbn in *; (etrans; [|exact Hr]); unfold unseen, remote_max; cbn; by rewrite Hup.
Qed.

#[local] Hint Extern 1 (respects unseen (update_bandwidth_controller _ _)) =>
  apply unseen_update_bandwidth_controller; intros; case_bool_decide; by simplify_eq : respects.

Lemma unseen_set_network_route env route : respects unseen (set_network_route env route).
Proof. unfold set_network_route. solve_respects. Qed.

Lemma unseen_update_data_mode env mode : respects unseen (update_data_mode env mode).
Proof.
  unfold update_data_mode, update_and_send_rtp_data_message, send_via_rtp_data, peer_connection.
  solve_respects.
Qed.

Lemma unseen_worker_task env t : respects unseen (run_worker_task env t).
Proof.
  destruct t; unfold run_worker_task, unless_terminating.
  4: { unfold or_inject_internal_error, terminating, inject_internal_error, inject_event.
       solve_respects. apply unseen_update_data_mode. }
  all: conn_respects.
Qed.

Lemma unseen_notify_task env t :
  reported (notification t) = None -> respects unseen (run_notify_task env t).
Proof. destruct t; intros Hn; unfold run_notify_task, unless_terminating; conn_respects. Qed.

Lemma unseen_tick env n c c' r : tick env n c = Val (c', r) -> unseen c c'.
Proof. apply (tick_rel unseen); conn_respects. Qed.

Lemma unseen_set_state env st : respects unseen (set_state env st).
Proof. conn_respects. Qed.

Lemma unseen_api env a :
  is_start a = false -> respects unseen (run_api message_size env a).
Proof. destruct a; intros Ha; try discriminate Ha; all_respects. Qed.

Lemma unseen_terminate env :
  respects unseen (terminate_begin env) /\ respects unseen (terminate_end env).
Proof. split; all_respects. Qed.

(** ** What the handlers do when nothing fails *)

Context (env : Env) (Hgood : good_env env).

Lemma good_set_state st c :
  exists c', set_state env st c = (c', Ok tt) /\ state c' = st /\ unseen c c'.
Proof using Hgood.
  pose proof (set_state_state env st c) as Hs. pose proof (unseen_set_state env st c) as Hu.
  destruct (set_state env st c) as [c' r] eqn:Heq. cbn in *. exists c'. split_and!; [|done|done].
  f_equal. unfold set_state, gets, mbind, ST_bind in Heq. cbn in Heq. destruct Hgood as [Hobs _].
  case_bool_decide; [unfold ret_ok in Heq; by simplify_eq|].
  unfold Connection.notify_observer, emit, modify, of_result, mbind, ST_bind in Heq. cbn in Heq.
  rewrite Hobs in Heq. by simplify_eq.
Qed.

Lemma good_notify_status status c :
  exists c', Connection.notify_observer env
      (ConnectionObserverEvent.RemoteSenderStatusChanged status) c = (c', Ok tt) /\
    state c' = state c /\ last_reported c' = Some status /\ remote_max c' = remote_max c /\
    wd_peer_connection (webrtc c') = wd_peer_connection (webrtc c).
Proof using Hgood.
  destruct Hgood as [Hobs _]. eexists. unfold Connection.notify_observer, emit, modify, of_result,
    mbind, ST_bind. cbn. rewrite Hobs. split; [reflexivity|].
  by rewrite last_reported_emit.
Qed.

Lemma good_set_remote_max_bitrate rate c :
  wd_peer_connection (webrtc c) = true ->
  exists c', set_remote_max_bitrate env rate c = (c', Ok tt) /\
    state c' = state c /\ last_reported c' = last_reported c /\ remote_max c' = Some rate /\
    wd_peer_connection (webrtc c') = true.
Proof using Hgood.
  intros Hpc. destruct Hgood as [_ Hrates].
  unfold set_remote_max_bitrate, update_bandwidth_controller, gets, mbind, ST_bind. cbn.
  case_bool_decide as Heq.
  - exists c. done.
  - unfold apply_bandwidth_controller, peer_connection, gets, emit, modify, of_result, mbind,
      ST_bind. cbn. rewrite Hpc. cbn. rewrite Hrates. eexists. split; [reflexivity|].
    split_and!; try done. unfold last_reported. cbn. rewrite omap_app. cbn. by rewrite app_nil_r.
Qed.

Lemma on_conn_run {A} (m : CM A) f c r :
  m (conn f) = (c, r) -> on_conn m f = (f <| conn := c |>, r).
Proof. intros Hm. unfold on_conn. by rewrite Hm. Qed.

(** Applying the remembered receiver status, then the sender status. *)
Lemma apply_receiver_status f :
  wd_peer_connection (webrtc (conn f)) = true ->
  exists c', match last_remote_receiver_status f with
             | Some (_, rate) => handle_remote_receiver_status_changed env rate
             | None => ret_ok
             end f = (f <| conn := c' |>, Ok tt) /\
    state c' = state (conn f) /\ last_reported c' = last_reported (conn f) /\
    wd_peer_connection (webrtc c') = true /\
    forall n rate, last_remote_receiver_status f = Some (n, rate) -> remote_max c' = Some rate.
Proof using Hgood.
  intros Hp. destruct (last_remote_receiver_status f) as [[n rate]|].
  - destruct (good_set_remote_max_bitrate rate (conn f) Hp) as (c' & Hrun & Hs & Hl & Hm & Hp').
    exists c'. split; [by apply on_conn_run|]. split_and!; try done. intros ?? [= <- <-]. done.
  - exists (conn f). by destruct f.
Qed.

Lemma apply_sender_status f :
  exists c', match last_remote_sender_status f with
             | Some (_, status) => handle_remote_sender_status_changed env status
             | None => ret_ok
             end f = (f <| conn := c' |>, Ok tt) /\
    state c' = state (conn f) /\ remote_max c' = remote_max (conn f) /\
    wd_peer_connection (webrtc c') = wd_peer_connection (webrtc (conn f)) /\
    last_reported c' = match last_remote_sender_status f with
                       | Some (_, status) => Some status
                       | None => last_reported (conn f)
                       end.
Proof using Hgood.
  destruct (last_remote_sender_status f) as [[n status]|].
  - destruct (good_notify_status status (conn f)) as (c' & Hrun & Hs & Hl & Hm & Hp).
    exists c'. split; [by apply on_conn_run|]. done.
  - exists (conn f). by destruct f.
Qed.

(** The first acceptance applies what was remembered. *)
Lemma SInv_first_time f :
  SInv f ->
  before_accepted (state (conn f)) = true \/ ConnectionState.active (state (conn f)) = true ->
  SInv (handle_connected_and_accepted_for_the_first_time env f).1.
Proof using Hgood.
  intros HI Hst. unfold handle_connected_and_accepted_for_the_first_time.
  destruct (good_set_state ConnectionState.ConnectedAndAccepted (conn f))
    as (c1 & Hset & Hs1 & Hl1 & Hm1 & Hp1).
  destruct (apply_receiver_status (f <| conn := c1 |>))
    as (c2 & Hr2 & Hs2 & Hl2 & Hp2 & Hm2); [apply Hp1, HI|].
  destruct (apply_sender_status (f <| conn := c2 |>)) as (c3 & Hr3 & Hs3 & Hm3 & Hp3 & Hl3).
  erewrite ST_bind_run by (by apply on_conn_run).
  rewrite ST_gets_bind. erewrite ST_bind_run by exact Hr2.
  rewrite ST_gets_bind. erewrite ST_bind_run by exact Hr3.
  rewrite ST_gets_bind. cbn [conn set_field last_remote_sender_status last_remote_receiver_status] in *.
  assert (last_reported c3 = snd <$> last_remote_sender_status f) as Hrep.
  { rewrite Hl3, Hl2, Hl1. destruct (last_remote_sender_status f) as [[n status]|] eqn:Hss; [done|].
    cbn. destruct Hst as [Hb|Ha]; [by apply (sinv_before _ HI)|].
    rewrite (sinv_sender _ HI Ha). by rewrite Hss. }
  assert (SInv (f <| conn := c3 |>)) as HI3.
  { split; cbn.
    - rewrite Hp3. exact Hp2.
    - apply HI.
    - rewrite Hs3. cbn. rewrite Hs2. cbn. rewrite Hs1. done.
    - done.
    - intros _ n rate Hrate. rewrite Hm3. by eapply Hm2. }
  case_bool_decide; [|exact HI3].
  unfold ConnectionFsm.send_accepted_via_rtp_data, worker_spawn, modify; cbn.
  destruct (worker_stopped f); by destruct HI3.
Qed.

(** A change of state that neither enters the accepted states nor leaves those
    before acceptance. *)
Lemma SInv_set_state f st :
  SInv f ->
  (before_accepted st = true -> before_accepted (state (conn f)) = true) ->
  (ConnectionState.active st = true -> ConnectionState.active (state (conn f)) = true) ->
  SInv (on_conn (set_state env st) f).1.
Proof using Hgood.
  intros HI Hb Ha. destruct (good_set_state st (conn f)) as (c1 & Hset & Hs & Hl & Hm & Hp).
  rewrite (on_conn_run _ _ _ _ Hset). split; cbn; rewrite ?Hs, ?Hl, ?Hm.
  - apply Hp, HI.
  - apply HI.
  - intros Hst. by apply HI, Hb.
  - intros Hst. by apply HI, Ha.
  - intros Hst. by apply (sinv_receiver _ HI), Ha.
Qed.

(** Handlers that concern neither the status nor the state. *)
Definition sview (f f' : Fsm) : Prop :=
  state (conn f') = state (conn f) /\ unseen (conn f) (conn f') /\
  last_remote_sender_status f' = last_remote_sender_status f /\
  last_remote_receiver_status f' = last_remote_receiver_status f /\
  (Forall (fun t => reported (notification t) = None) (notify f) ->
   Forall (fun t => reported (notification t) = None) (notify f')).

#[local] Instance sview_preorder : PreOrder sview.
Proof.
  split; unfold sview.
  - intros f. by split_and!.
  - intros f1 f2 f3 (H11 & H12 & H13 & H14 & H15) (H21 & H22 & H23 & H24 & H25).
    split_and!; [congruence|by etrans|congruence|congruence|auto].
Qed.

Lemma SInv_sview f f' : SInv f -> sview f f' -> SInv f'.
Proof.
  intros HI (Hs & (Hl & Hm & Hp) & Hss & Hrs & Hn).
  split; rewrite ?Hs, ?Hl, ?Hm, ?Hss, ?Hrs; [apply Hp, HI|apply Hn, HI|apply HI..].
Qed.

Lemma sview_on_conn {A} (m : CM A) :
  respects (same state) m -> respects unseen m -> respects sview (on_conn m).
Proof.
  intros Hs Hu f. specialize (Hs (conn f)). specialize (Hu (conn f)). unfold on_conn.
  destruct (m (conn f)). unfold sview. cbn in *. by split_and!.
Qed.

#[local] Hint Extern 1 (respects sview (on_conn _)) =>
  apply sview_on_conn; [all_respects|first [apply unseen_set_network_route|conn_respects]] : respects.
#[local] Hint Extern 2 (respects sview (modify _)) =>
  apply respects_modify; intros f; unfold sview, unseen; cbn;
  try destruct (worker_stopped f); try destruct (notify_stopped f); cbn;
  split_and!; try tauto; intros; rewrite ?Forall_app; auto : respects.

(** The events that may change the state or concern the status. *)
Definition concerns (ev : ConnectionEvent.ConnectionEvent) : bool :=
  match ev with
  | ConnectionEvent.Accept | ConnectionEvent.ReceivedAcceptedViaRtpData _
  | ConnectionEvent.IceConnected | ConnectionEvent.IceFailed | ConnectionEvent.IceDisconnected
  | ConnectionEvent.ReceivedSenderStatusViaRtpData _ _ _
  | ConnectionEvent.ReceivedReceiverStatusViaRtpData _ _ _ => true
  | _ => false
  end.

Lemma sview_handle_event st ev :
  concerns ev = false -> respects sview (handle_event env st ev).
Proof.
  destruct ev; intros Hev; try discriminate Hev; unfold handle_event;
    autounfold with fsm_ops; solve_respects.
Qed.

Lemma SInv_notify f ev :
  SInv f -> reported (ToObserver ev) = None -> SInv (ConnectionFsm.notify_observer ev f).1.
Proof.
  intros HI Hev. eapply SInv_sview; [done|].
  unfold ConnectionFsm.notify_observer, notify_spawn, modify, sview, unseen. cbn.
  destruct (notify_stopped f); cbn; split_and!; try done. intros. rewrite Forall_app. auto.
Qed.

Lemma SInv_accepted f id :
  SInv f -> SInv (handle_received_accepted_via_rtp_data env (state (conn f)) id f).1.
Proof using Hgood.
  intros HI. unfold handle_received_accepted_via_rtp_data. rewrite ST_gets_bind.
  destruct (negb _); [exact HI|].
  destruct (state (conn f)) eqn:Hst; try exact HI.
  - by apply SInv_set_state; [|rewrite Hst..].
  - apply SInv_first_time; [done|]. rewrite Hst. by left.
Qed.

Lemma SInv_accept f : SInv f -> SInv (handle_accept env (state (conn f)) f).1.
Proof using Hgood.
  intros HI. unfold handle_accept.
  destruct (state (conn f)) eqn:Hst; try exact HI;
    (apply SInv_first_time; [exact HI|rewrite Hst; cbn; auto]).
Qed.

Lemma SInv_ice_failed f : SInv f -> SInv (handle_ice_failed env (state (conn f)) f).1.
Proof using Hgood.
  intros HI. unfold handle_ice_failed.
  destruct (state (conn f)) eqn:Hst; try exact HI; by apply SInv_set_state.
Qed.

(** A notification first, then code that depends on the state. *)
Lemma SInv_after_notify ev (k : FM unit) f :
  SInv f -> reported (ToObserver ev) = None ->
  (forall f', SInv f' -> state (conn f') = state (conn f) -> SInv (k f').1) ->
  SInv ((ConnectionFsm.notify_observer ev ;; k) f).1.
Proof.
  intros HI Hev Hk. apply Hk; [by apply SInv_notify|].
  unfold ConnectionFsm.notify_observer, notify_spawn, modify. cbn. by destruct (notify_stopped f).
Qed.

Lemma SInv_ice_connected f : SInv f -> SInv (handle_ice_connected env (state (conn f)) f).1.
Proof using Hgood.
  intros HI. apply SInv_after_notify; [done|done|]. intros f' HI' Hst'.
  destruct (state (conn f)) eqn:Hst; try exact HI'.
  - by apply SInv_set_state; [|rewrite Hst'..].
  - apply SInv_first_time; [done|]. rewrite Hst'. by left.
  - by apply SInv_set_state; [|rewrite Hst'..].
Qed.

Lemma SInv_ice_disconnected f : SInv f -> SInv (handle_ice_disconnected env (state (conn f)) f).1.
Proof using Hgood.
  intros HI. apply SInv_after_notify; [done|done|]. intros f' HI' Hst'.
  destruct (state (conn f)) eqn:Hst; try exact HI'; by apply SInv_set_state; [|rewrite Hst'..].
Qed.

(** A newer status is remembered; when the call is accepted it is applied, unless
    it repeats the last one. *)
Lemma status_unchanged {A} `{EqDecision A} (last : option (Z * A)) status seqnum :
  status_changed last status seqnum = Some false -> exists n, last = Some (n, status).
Proof.
  destruct last as [[n st]|]; cbn; [|done]. case_match; [done|].
  intros [= Hb%negb_false_iff%bool_decide_eq_true]. subst. eauto.
Qed.

Lemma SInv_sender_status f id status seqnum :
  SInv f ->
  SInv (handle_received_sender_status_via_rtp_data env (state (conn f)) id status seqnum f).1.
Proof using Hgood.
  intros HI. unfold handle_received_sender_status_via_rtp_data. rewrite ST_gets_bind.
  destruct (negb _); [exact HI|]. rewrite ST_gets_bind.
  destruct (status_changed _ status seqnum) as [changed|] eqn:Hch; [|exact HI].
  destruct (ConnectionState.active (state (conn f))) eqn:Hact.
  - assert (SInv ((if changed then handle_remote_sender_status_changed env status else ret_ok)
      (f <| last_remote_sender_status := Some (seqnum, status) |>)).1) as HI'.
    { destruct changed.
      - destruct (good_notify_status status (conn f)) as (c' & Hrun & Hs & Hl & Hm & Hp).
        unfold handle_remote_sender_status_changed. erewrite on_conn_run by exact Hrun.
        destruct HI as [J1 J2 J3 J4 J5]. split; cbn; rewrite ?Hs, ?Hl, ?Hm, ?Hp; try done.
        by destruct (state (conn f)).
      - apply status_unchanged in Hch as [n Hlast]. destruct HI as [J1 J2 J3 J4 J5].
        split; cbn; try done. intros Ha. rewrite (J4 Ha), Hlast. done. }
    destruct (state (conn f)); try discriminate Hact; exact HI'.
  - assert (SInv (f <| last_remote_sender_status := Some (seqnum, status) |>)) as HI'.
    { destruct HI as [J1 J2 J3 J4 J5]. split; cbn; try done. congruence. }
    destruct (state (conn f)); try discriminate Hact; exact HI'.
Qed.

Lemma SInv_receiver_status f id rate seqnum :
  SInv f ->
  SInv (handle_received_receiver_status_via_rtp_data env (state (conn f)) id rate seqnum f).1.
Proof using Hgood.
  intros HI. unfold handle_received_receiver_status_via_rtp_data. rewrite ST_gets_bind.
  destruct (negb _); [exact HI|]. rewrite ST_gets_bind.
  destruct (status_changed _ rate seqnum) as [changed|] eqn:Hch; [|exact HI].
  destruct (ConnectionState.active (state (conn f))) eqn:Hact.
  - assert (SInv ((if changed then handle_remote_receiver_status_changed env rate else ret_ok)
      (f <| last_remote_receiver_status := Some (seqnum, rate) |>)).1) as HI'.
    { destruct changed.
      - destruct (good_set_remote_max_bitrate rate (conn f) (sinv_peer _ HI))
          as (c' & Hrun & Hs & Hl & Hm & Hp).
        unfold handle_remote_receiver_status_changed. erewrite on_conn_run by exact Hrun.
        destruct HI as [J1 J2 J3 J4 J5]. split; cbn; rewrite ?Hs, ?Hl, ?Hm, ?Hp; try done.
        by intros _ n r [= <- <-].
      - apply status_unchanged in Hch as [n Hlast]. destruct HI as [J1 J2 J3 J4 J5].
        split; cbn; try done. intros Ha m r [= <- <-]. by eapply J5. }
    destruct (state (conn f)); try discriminate Hact; exact HI'.
  - assert (SInv (f <| last_remote_receiver_status := Some (seqnum, rate) |>)) as HI'.
    { destruct HI as [J1 J2 J3 J4 J5]. split; cbn; try done. congruence. }
    destruct (state (conn f)); try discriminate Hact; exact HI'.
Qed.

Lemma SInv_handle_event f ev : SInv f -> SInv (handle_event env (state (conn f)) ev f).1.
Proof using Hgood.
  intros HI. destruct (concerns ev) eqn:Hev.
  - unfold handle_event. destruct ev; try discriminate Hev;
      (destruct (ConnectionState.terminating_or_terminated _); [exact HI|]);
      eauto using SInv_accept, SInv_accepted, SInv_ice_connected, SInv_ice_failed,
        SInv_ice_disconnected, SInv_sender_status, SInv_receiver_status.
  - eapply SInv_sview; [done|]. by apply sview_handle_event.
Qed.

End Status.

(** ** Runs in which nothing fails *)

Section Runs.
Context `{SrtpCrypto} `{SdpFfi}.
Context `{Codec OfferProto} `{Codec AnswerProto} `{Codec IceCandidateProto} `{Codec RtpMessage}.
Context (message_size : Z).

Definition good_action (a : action) : Prop := forall env, action_env a = Some env -> good_env env.

Inductive good_reachable (c : Connection) : Sys -> Prop :=
| good_init : good_reachable c (init c)
| good_step s a s' :
    good_reachable c s -> atomic a = true -> good_action a -> act message_size a s = Some s' ->
    good_reachable c s'.

Lemma good_reachable_reachable c s : good_reachable c s -> reachable message_size c s.
Proof. induction 1; [constructor|]. by eapply reachable_step. Qed.

(** In a final state only the peer connection and the notifications matter. *)
Lemma SInv_final f f' :
  SInv f -> ConnectionState.terminating_or_terminated (state (conn f')) = true ->
  unseen (conn f) (conn f') -> notify f' = notify f -> SInv f'.
Proof.
  intros HI Hst (Hl & Hm & Hp) Hn. destruct HI as [J1 J2 J3 J4 J5].
  split; rewrite ?Hn; [auto|done| | |]; intros Hs; by destruct (state (conn f')).
Qed.

Definition kept (c c' : Connection) : Prop :=
  last_reported c' = last_reported c /\
  (wd_peer_connection (webrtc c) = true -> wd_peer_connection (webrtc c') = true).

#[local] Instance kept_preorder : PreOrder kept.
Proof.
  split; unfold kept; [done|]. intros c1 c2 c3 (H1' & H2') (H3' & H4'). split; [congruence|auto].
Qed.

Lemma kept_emit o : reported o = None -> respects kept (emit o).
Proof.
  intros Ho. apply respects_modify. intros c. unfold kept. by rewrite last_reported_emit, Ho.
Qed.

#[local] Hint Extern 1 (respects kept (emit _)) => apply kept_emit; reflexivity : respects.
#[local] Hint Extern 2 (respects kept (modify _)) =>
  apply respects_modify; intros; unfold kept; split; [reflexivity|cbn; tauto] : respects.

Lemma kept_start env a :
  is_start a = true -> respects kept (run_api message_size env a).
Proof.
  destruct a; intros Ha; try discriminate Ha;
    unfold run_api, start_outgoing_parent, start_outgoing_child, start_incoming,
    then_start_fsm, outgoing_parent_body, outgoing_child_body, incoming_body, peer; all_respects.
Qed.

Lemma SInv_api env a s :
  Inv s -> SInv (fsm s) -> api_allowed (phase s) a (conn (fsm s)) = true ->
  SInv (fsm (with_conn s (run_api message_size env a (conn (fsm s))).1)).
Proof.
  intros HI HS Ha. destruct (is_start a) eqn:His.
  - assert (fsm_started (conn (fsm s)) = false) as Hus.
    { destruct a; try done; cbn in Ha; apply andb_true_iff in Ha as [_ Hn]; by apply negb_true_iff. }
    destruct (inv_unstarted _ HI Hus) as [Hst _].
    destruct (start_api_forward message_size env a (conn (fsm s)) His Hst) as (_ & _ & Hss).
    destruct (kept_start env a His (conn (fsm s))) as [Hl Hp].
    destruct HS as [J1 J2 J3 J4 J5]. rewrite Hst in J3.
    split; cbn; [auto|done|by rewrite Hl; auto|..]; intros Hact;
      by destruct (state (run_api message_size env a (conn (fsm s))).1).
  - pose proof (unseen_api message_size env a His (conn (fsm s))) as Hu.
    destruct (changes_state a) eqn:Hch.
    + destruct a; try discriminate. eapply SInv_final; [done| |done|done]. cbn.
      destruct (set_state_then_still env ConnectionState.Terminating
        (inject_event (ConnectionEvent.SendHangupViaRtpData hangup)) (conn (fsm s))) as [Hs _];
        [conn_respects|].
      unfold inject_send_hangup_via_rtp_data. by rewrite Hs.
    + pose proof (still_api message_size env a Hch (conn (fsm s))) as [= Hs _].
      eapply SInv_sview; [done|]. by split_and!.
Qed.

Lemma SInv_step a s s' :
  Inv s -> SInv (fsm s) -> atomic a = true -> good_action a -> act message_size a s = Some s' ->
  SInv (fsm s').
Proof.
  intros HI HS Hat Hgood. unfold act.
  destruct a as [| |env|env|env|env n|env a|env|env]; try discriminate Hat;
    specialize (Hgood env eq_refl).
  - rewrite (inv_taken _ HI). destruct (recv (fsm s)) as [[f [st ev]]|] eqn:Hr; [|done].
    intros [= <-]. apply recv_spec in Hr as (-> & _ & q & _ & Hf).
    assert (state (conn (fsm s)) = state (conn f)) as -> by (by subst f).
    apply SInv_handle_event; [done|]. subst f. by destruct HS.
  - destruct (worker (fsm s)) as [|t w]; [done|]. intros [= <-].
    pose proof (still_worker_task env t (conn (fsm s))) as [= Hs _].
    eapply SInv_sview; [done|]. split_and!; try done. apply unseen_worker_task.
  - pose proof (sinv_plain _ HS) as Hp. destruct (notify (fsm s)) as [|t w] eqn:Hn; [done|].
    intros [= <-]. apply Forall_cons in Hp as [Hpt Hpw].
    pose proof (inv_plain _ HI) as Hp'. rewrite Hn in Hp'. apply Forall_cons in Hp' as [Hpt' _].
    pose proof (still_notify_task env t Hpt' (conn (fsm s))) as [= Hs _].
    eapply SInv_sview; [done|]. split_and!; try done. by apply unseen_notify_task.
  - destruct (ticking _); [|done]. destruct (tick env n _) as [[c' r]|] eqn:Ht; [|done].
    intros [= <-]. pose proof (still_tick _ _ _ _ _ Ht) as [= Hs _].
    eapply SInv_sview; [done|]. split_and!; try done. by eapply unseen_tick.
  - destruct (api_allowed _ _ _) eqn:Ha; [|done]. intros [= <-]. by apply SInv_api.
  - destruct (_ && _); [|done]. pose proof (proj1 (unseen_terminate env) (conn (fsm s))) as Hu.
    destruct (set_state_then_still env ConnectionState.Terminating
      (inject_event ConnectionEvent.Terminate) (conn (fsm s))) as [Hs _]; [conn_respects|].
    fold (terminate_begin env) in Hs.
    destruct (terminate_begin env (conn (fsm s))) as [c' r]. intros [= <-].
    eapply SInv_final; [done|by cbn in *; rewrite Hs|done|done].
  - destruct (_ && _); [|done]. pose proof (proj2 (unseen_terminate env) (conn (fsm s))) as Hu.
    destruct (set_state_then_still env ConnectionState.Terminated terminate_cleanup (conn (fsm s)))
      as [Hs _]; [unfold terminate_cleanup; solve_respects|].
    intros [= <-]. eapply SInv_final; [done|by cbn; unfold terminate_end; rewrite Hs|done|done].
Qed.

Lemma SInv_reachable c s :
  state c = ConnectionState.NotYetStarted -> outputs c = [] -> fsm_started c = false ->
  wd_peer_connection (webrtc c) = true ->
  good_reachable c s -> SInv (fsm s).
Proof.
  intros Hst Hout Hf Hp. induction 1 as [|s a s' Hr IH Hat Hg Hact].
  - split; cbn; try done; unfold last_reported; rewrite ?Hout, ?Hst; done.
  - eapply SInv_step; [|done..]. eapply Inv_reachable; [done..|].
    by apply good_reachable_reachable.
Qed.

(** What the call knows of the remote side is current.  As long as the call's
    queue and WebRTC take what they are given, in every state reached: before the
    call is accepted no remote status was reported; while it is accepted (connected
    or reconnecting) the last status reported is the one with the largest sequence
    number received, including one received while ringing, and the sending rate
    respects the largest-numbered limit of the remote side (or the floor of 30
    kilobits per second). *)
Theorem remote_status_is_current c s :
  state c = ConnectionState.NotYetStarted -> outputs c = [] -> fsm_started c = false ->
  wd_peer_connection (webrtc c) = true ->
  good_reachable c s ->
  (before_accepted (state (conn (fsm s))) = true -> last_reported (conn (fsm s)) = None) /\
  (ConnectionState.active (state (conn (fsm s))) = true ->
   last_reported (conn (fsm s)) = snd <$> last_remote_sender_status (fsm s) /\
   forall n rate, last_remote_receiver_status (fsm s) = Some (n, rate) ->
     DataRate.as_bps (BandwidthController.max_send_rate (bandwidth_controller (conn (fsm s)))) <=
     Z.max 30000 (DataRate.as_bps rate)).
Proof.
  intros Hst Hout Hf Hp Hr. apply SInv_reachable in Hr as HS; [|done..].
  split; [apply HS|]. intros Ha. split; [by apply HS|]. intros n rate Hrate.
  apply (sinv_receiver _ HS Ha) in Hrate. rewrite BandwidthController.max_send_rate_spec.
  unfold remote_max in Hrate. unfold BandwidthController.limits. rewrite Hrate. cbn. lia.
Qed.

Lemma run_good_reachable c l s s' :
  good_reachable c s -> forallb atomic l = true -> Forall good_action l ->
  run message_size l s = Some s' -> good_reachable c s'.
Proof.
  revert s. induction l as [|a l IH]; intros s Hr; cbn.
  - by intros _ _ [= <-].
  - intros [Ha Hl]%andb_true_iff [Hg Hgl]%Forall_cons Hrun.
    destruct (act message_size a s) as [s1|] eqn:Hs; [|done].
    eapply IH; [|done..]. by eapply good_step.
Qed.

End Runs.

(** ** A concrete run *)

Module Toy.
Export ConnectionStart.Toy.

#[export] Instance RtpMessage_countable : Countable RtpMessage.
Proof.
  refine (inj_countable'
    (fun m => (accepted_id <$> msg_accepted m,
      (fun h => (hangup_id h, hangup_type h, hangup_device_id h)) <$> msg_hangup m,
      (fun r => (rs_id r, rs_max_bitrate_bps r)) <$> msg_receiver_status m, msg_seqnum m,
      (fun st => (ss_id st, ss_video_enabled st, ss_sharing_screen st, ss_audio_enabled st))
        <$> msg_sender_status m))
    (fun '(a, h, r, n, st) => mkRtpMessage (mkAcceptedProto <$> a)
      ((fun '(i, t, d) => mkHangupProto i t d) <$> h)
      ((fun '(i, v, sc, au) => mkSenderStatusProto i v sc au) <$> st) n
      ((fun '(i, b) => mkReceiverStatusProto i b) <$> r)) _).
  by intros [[[]|] [[]|] [[]|] n [[]|]].
Defined.

#[export] Instance rtp_codec : Codec RtpMessage := countable_codec RtpMessage.

Definition outgoing : Connection := fresh Outgoing 2 OutgoingChild.

Definition v4 (pk : Z) : ConnectionParametersV4 :=
  mkV4 (Some (replicate 32 pk)) (Some "u"%string) (Some ""%string) [Some 8] (Some 2000000) [] [].

Definition rtp (timestamp : Z) (m : RtpMessage) : action :=
  AApi ok_env (ApiRtpReceived (mkRtpHeader 101 timestamp timestamp 13) (pb_encode m)).

Definition status (seqnum : Z) (video : bool) (accepted : bool) : RtpMessage :=
  mkRtpMessage (if accepted then Some (mkAcceptedProto (Some 7)) else None) None
    (Some (mkSenderStatusProto (Some 7) (Some video) None None)) (Some seqnum)
    (Some (mkReceiverStatusProto (Some 7) (Some 500000))).

(** The callee sends its status while ringing, twice; then it accepts. *)
Definition ringing_status : list action :=
  [AApi ok_env (ApiStartOutgoingChild (setup 0) 5
     (mkOffer Audio [] (mkOfferProto (Some (v4 5))))
     (mkReceivedAnswer (mkAnswer [] (mkAnswerProto (Some (v4 11)))) 2 [] []));
   AApi ok_env (ApiIceConnectionState IceStateConnected); AEvent ok_env;
   rtp 1 (status 1 true false); AEvent ok_env; AEvent ok_env;
   rtp 2 (status 2 false false); AEvent ok_env; AEvent ok_env;
   rtp 3 (status 3 true true); AEvent ok_env; AEvent ok_env; AEvent ok_env].

End Toy.

Section Witness.
Import Toy.

Lemma ok_env_good a : action_env a = Some ok_env -> good_action a.
Proof. intros Ha env Henv. rewrite Ha in Henv. by injection Henv as <-. Qed.

Lemma remote_status_is_current_witness :
  exists s, state (conn (fsm s)) = ConnectionState.ConnectedAndAccepted /\
    last_reported (conn (fsm s)) = Some (mkSenderStatus (Some true) None None) /\
    DataRate.as_bps (BandwidthController.max_send_rate (bandwidth_controller (conn (fsm s)))) <=
      Z.max 30000 500000.
Proof.
  destruct (run 100000 ringing_status (init outgoing)) as [s|] eqn:Hrun;
    [|vm_compute in Hrun; discriminate].
  assert (state (conn (fsm s)) = ConnectionState.ConnectedAndAccepted /\
    last_remote_sender_status (fsm s) = Some (3, mkSenderStatus (Some true) None None) /\
    last_remote_receiver_status (fsm s) = Some (3, DataRate.from_bps 500000)) as (Hs & Hss & Hrs).
  { vm_compute in Hrun. injection Hrun as <-. by vm_compute. }
  exists s.
  destruct (remote_status_is_current 100000 outgoing s) as [_ Hact]; try reflexivity.
  - eapply (run_good_reachable 100000 outgoing ringing_status);
      [apply good_init|reflexivity| |exact Hrun].
    unfold ringing_status.
    repeat first [apply List.Forall_nil | apply List.Forall_cons | by apply ok_env_good].
  - rewrite Hs in Hact. destruct (Hact eq_refl) as [Hl Hm]. rewrite Hss in Hl.
    split; [done|]. split; [done|]. exact (Hm _ _ Hrs).
Defined.

End Witness.
End ConnectionStatus.
