(* ===== verification/Call.v ===== *)
(** * The call object (src/rust/src/core/call.rs)

    A [Call] is the set of connections between the local device and the devices of
    one remote peer.  The call works on its connections through the interface
    [ConnectionApi], so nothing here depends on how a connection is implemented;
    CallConnections.v shows that the connections of ConnectionSystem.v are one.
    Calls on the call manager are recorded in [outputs] and answered by an
    environment [CallEnv].  The call summary (statistics) and the reference counts
    are not modelled. *)

From S2P Require Import Prelude States Signaling ConnectionTypes Connection ConnectionStart.
Import ConnectionStart.
Local Open Scope Z_scope.
Local Open Scope ringrtc_scope.

(** ** What a call needs of a connection *)

(** [conn_act] is what a connection does on its own: its state machine, its timer
    and the callbacks of WebRTC. *)
Class ConnectionApi `{SrtpCrypto} (Conn : Type) : Type := {
  ConnAction : Type;
  conn_act : ConnAction -> Conn -> option Conn;
  conn_new : CallId -> CallDirection -> DeviceId -> ConnectionType -> CallConfig ->
    option Z -> Conn;
  conn_remote_device_id : Conn -> DeviceId;
  conn_network_route : Conn -> NetworkRoute;
  conn_call_config : Conn -> CallConfig;
  conn_audio_levels_interval : Conn -> option Z;
  conn_start_incoming : Env -> SetupEnv -> ReceivedOffer -> list IceCandidate.IceCandidate ->
    ST Conn Error Answer;
  conn_start_outgoing_parent : Env -> SetupEnv -> CallMediaType ->
    ST Conn Error (StaticSecret * Offer);
  conn_start_outgoing_child : Env -> SetupEnv -> StaticSecret -> Offer -> ReceivedAnswer ->
    ST Conn Error unit;
  conn_set_stats_snapshot_consumer : ST Conn Error unit;
  conn_inject_accept : ST Conn Error unit;
  conn_enable_media : Env -> ST Conn Error unit;
  conn_start_tick : ST Conn Error unit;
  conn_regather_on_all_networks : ST Conn Error unit;
  conn_inject_received_ice : Ice -> ST Conn Error unit;
  conn_inject_send_hangup_via_rtp_data : Env -> Hangup.Hangup -> ST Conn Error unit;
  conn_terminate : Env -> ST Conn Error unit;
}.

(** The promises: a connection knows its device; it is [conn_fresh] when created,
    [conn_live] from its start, when it takes every request, and [conn_closed] when
    it was terminated. *)
Class ConnectionLaws `{SrtpCrypto} (Conn : Type) `{!ConnectionApi Conn} : Type := {
  conn_fresh : ConnectionType -> Conn -> Prop;
  conn_live : Conn -> Prop;
  conn_closed : Conn -> Prop;
  new_fresh id dir d ct cfg ali : conn_fresh ct (conn_new id dir d ct cfg ali);
  new_id id dir d ct cfg ali : conn_remote_device_id (conn_new id dir d ct cfg ali) = d;
  start_incoming_live env su o cands k :
    conn_fresh IncomingConnection k -> conn_live (conn_start_incoming env su o cands k).1;
  start_parent_live env su mt k :
    conn_fresh OutgoingParent k -> conn_live (conn_start_outgoing_parent env su mt k).1;
  start_child_live env su sec o a k :
    conn_fresh OutgoingChild k -> conn_live (conn_start_outgoing_child env su sec o a k).1;
  start_incoming_id env su o cands :
    respects (same conn_remote_device_id) (conn_start_incoming env su o cands);
  start_child_id env su sec o a :
    respects (same conn_remote_device_id) (conn_start_outgoing_child env su sec o a);
  (** Requests keep a live connection live, and its device. *)
  conn_request := (fun m : ST Conn Error unit => forall k, conn_live k ->
    conn_live (m k).1 /\ conn_remote_device_id (m k).1 = conn_remote_device_id k);
  set_stats_request : conn_request conn_set_stats_snapshot_consumer;
  accept_request : conn_request conn_inject_accept;
  enable_media_request env : conn_request (conn_enable_media env);
  start_tick_request : conn_request conn_start_tick;
  regather_request : conn_request conn_regather_on_all_networks;
  received_ice_request ice : conn_request (conn_inject_received_ice ice);
  send_hangup_request env h : conn_request (conn_inject_send_hangup_via_rtp_data env h);
  terminate_closed env k : conn_live k -> conn_closed (conn_terminate env k).1;
  act_live a k k' : conn_live k -> conn_act a k = Some k' ->
    conn_live k' /\ conn_remote_device_id k' = conn_remote_device_id k;
}.

(** ** Events (call_fsm.rs) *)

Module CallEvent.

Inductive CallEvent : Type :=
| StartCall
| AcceptCall
| SendHangupViaRtpDataToAll (hangup : Hangup.Hangup)
| Proceed (cfg : CallConfig) (audio_levels_interval : option Z)
| SendingOffer
| SendingAnswer
| ReceivedAnswer (received : Signaling.ReceivedAnswer)
| ReceivedIce (received : Signaling.ReceivedIce)
| ReceivedHangup (received : Signaling.ReceivedHangup)
| ConnectionObserverEvent (event : ObserverEvent) (device : DeviceId)
| ConnectionObserverError (error : Error) (device : DeviceId)
| InternalError (error : Error)
| CallTimeout
| Synchronize
| Terminate.

End CallEvent.

(** Calls on the call manager. *)
Inductive ManagerCall : Type :=
| ManagerStartCall (direction : CallDirection) (media_type : CallMediaType)
| ManagerCreateConnection (device : DeviceId) (connection_type : ConnectionType)
| ManagerSendOffer (offer : Offer)
| ManagerSendAnswer (answer : SendAnswer)
| ManagerSendHangup (hangup : SendHangup)
| ManagerSendBufferedIce (device : DeviceId) (broadcast : bool)
| ManagerNotifyApplication (event : ApplicationEvent.ApplicationEvent)
| ManagerNotifyNetworkRoute (route : NetworkRoute)
| ManagerNotifyAudioLevels (captured_level received_level : Z)
| ManagerNotifyLowBandwidth (recovered : bool)
| ManagerInternalError (error : Error)
| ManagerRemoteHangup (reason : option CallEndReason.CallEndReason)
| ManagerTimeout
| ManagerConnectionFailure
| ManagerDisconnectIncomingMedia.

(** The answers of the outside during one step: of the call manager, and what the
    connections are answered; [env_hash_order] is the order in which the hash map
    of connections is walked. *)
Record CallEnv `{SrtpCrypto} : Type := mkCallEnv {
  env_manager : ManagerCall -> result unit Error;
  env_conn : Env;
  env_setup : SetupEnv;
  env_hash_order : list DeviceId -> list DeviceId;
}.

Record PendingCall : Type := mkPendingCall {
  pc_received : ReceivedOffer;
  pc_ice_candidates : list IceCandidate.IceCandidate;
}.

#[global] Instance PendingCall_eta : Eta PendingCall := fun r =>
  mkPendingCall (pc_received r) (pc_ice_candidates r).

Module Call.
Section Call.
Context `{SrtpCrypto} {Conn : Type} `{!ConnectionApi Conn}.

Record ForkingState : Type := mkForkingState {
  parent_connection : Conn;
  local_secret : StaticSecret;
  forking_offer : Offer;
}.

(** [fsm_queue], [fsm_connected] and [terminate_complete] are as for a connection;
    [dropped] collects the connections the call let go of. *)
Record Call : Type := mkCall {
  call_id : CallId;
  direction : CallDirection;
  media_type : CallMediaType;
  local_device_id : DeviceId;
  call_context : option Z;
  state : CallState.CallState;
  active_device_id_field : option DeviceId;
  pending_call : option PendingCall;
  fsm_queue : list CallEvent.CallEvent;
  fsm_connected : bool;
  timeout_stopped : bool;
  connection_map : gmap DeviceId Conn;
  terminate_complete : bool;
  did_send_offer : bool;
  did_notify_application_of_remote_ringing : bool;
  forking : option ForkingState;
  outputs : list ManagerCall;
  dropped : list Conn;
}.

#[global] Instance Call_eta : Eta Call := fun r =>
  mkCall (call_id r) (direction r) (media_type r) (local_device_id r) (call_context r)
    (state r) (active_device_id_field r) (pending_call r) (fsm_queue r) (fsm_connected r)
    (timeout_stopped r) (connection_map r) (terminate_complete r) (did_send_offer r)
    (did_notify_application_of_remote_ringing r) (forking r) (outputs r) (dropped r).

Notation KM := (ST Call Error).

Definition new (id : CallId) (dir : CallDirection) (mt : CallMediaType) (local : DeviceId) : Call :=
  mkCall id dir mt local None CallState.NotYetStarted None None [] true false ∅ false false false
    None [] [].

Definition set_state (new_state : CallState.CallState) : KM unit :=
  modify (fun c => c <| state := new_state |>).

Definition set_active_device_id (remote_device : DeviceId) : KM unit :=
  v ← gets active_device_id_field;
  match v with
  | Some v => fail (RingRtcError.ActiveDeviceIdAlreadySet v)
  | None => modify (fun c => c <| active_device_id_field := Some remote_device |>)
  end.

Definition active_device_id : KM DeviceId :=
  v ← gets active_device_id_field;
  match v with
  | Some v => mret v
  | None => fail (RingRtcError.OptionValueNotSet "active_connection" "active_connection")
  end.

(** A connection is a shared object: it is named by its place in the map. *)
Definition active_connection : KM DeviceId :=
  d ← active_device_id;
  m ← gets connection_map;
  match m !! d with
  | Some _ => mret d
  | None => fail (RingRtcError.ConnectionNotFound d)
  end.

Definition on_connection {A} (d : DeviceId) (m : ST Conn Error A) : KM A := fun c =>
  match connection_map c !! d with
  | Some k =>
    let '(k', r) := m k in (c <| connection_map := <[d := k']> (connection_map c) |>, r)
  | None => (c, Err (RingRtcError.ConnectionNotFound d))
  end.

Definition start_call_summary_stats_collection : KM unit :=
  d ← active_connection;
  on_connection d conn_set_stats_snapshot_consumer.

Definition handle_received_offer (received : ReceivedOffer) : KM unit :=
  p ← gets pending_call;
  match p with
  | Some pending => fail (RingRtcError.PendingCallAlreadySet (ro_sender_device_id (pc_received pending)))
  | None => modify (fun c => c <| pending_call := Some (mkPendingCall received []) |>)
  end.

Definition set_call_context (ctx : Z) : KM unit :=
  v ← gets call_context;
  match v with
  | Some _ => id ← gets call_id; fail (RingRtcError.AppCallContextAlreadySet id)
  | None => modify (fun c => c <| call_context := Some ctx |>)
  end.

Definition terminating : KM bool :=
  gets (fun c => bool_decide (state c = CallState.Terminating)).

Section Ops.
Context (env : CallEnv).

(** A call on the call manager. *)
Definition manager (call : ManagerCall) : KM unit :=
  modify (fun c => c <| outputs := outputs c ++ [call] |>) ;;
  of_result (env_manager env call).

Definition drop_connection (k : Conn) : KM unit :=
  modify (fun c => c <| dropped := dropped c ++ [k] |>).

Definition handle_start_call : KM unit :=
  c ← get;
  manager (ManagerStartCall (direction c) (media_type c)).

Definition notify_application (event : ApplicationEvent.ApplicationEvent) : KM unit :=
  if bool_decide (event = ApplicationEvent.RemoteRinging) then
    did_notify ← gets did_notify_application_of_remote_ringing;
    modify (fun c => c <| did_notify_application_of_remote_ringing := true |>) ;;
    if did_notify : bool then ret_ok else manager (ManagerNotifyApplication event)
  else manager (ManagerNotifyApplication event).

Definition notify_network_route_changed (route : NetworkRoute) : KM unit :=
  manager (ManagerNotifyNetworkRoute route).
Definition notify_audio_levels (captured_level received_level : Z) : KM unit :=
  manager (ManagerNotifyAudioLevels captured_level received_level).
Definition notify_low_bandwidth_for_video (recovered : bool) : KM unit :=
  manager (ManagerNotifyLowBandwidth recovered).
Definition internal_error (error : Error) : KM unit := manager (ManagerInternalError error).

Definition send_buffered_local_ice_candidates (device : DeviceId) (broadcast : bool) : KM unit :=
  st ← gets state;
  match st with
  | CallState.Terminating | CallState.Terminated => ret_ok
  | _ => manager (ManagerSendBufferedIce device broadcast)
  end.

Definition accept_locally : KM unit :=
  d ← active_connection;
  on_connection d conn_inject_accept ;;
  on_connection d (conn_enable_media (env_conn env)) ;;
  on_connection d conn_start_tick ;;
  notify_application ApplicationEvent.LocalAccepted.

Definition accept_remotely : KM unit :=
  d ← active_connection;
  on_connection d (conn_enable_media (env_conn env)) ;;
  on_connection d conn_start_tick ;;
  notify_application ApplicationEvent.RemoteAccepted ;;
  route ← on_connection d (gets conn_network_route);
  notify_network_route_changed route.

(** The platform creates a connection and its peer connection, or fails. *)
Definition create_connection (device : DeviceId) (ct : ConnectionType) (cfg : CallConfig)
    (ali : option Z) : KM Conn :=
  manager (ManagerCreateConnection device ct) ;;
  c ← get;
  mret (conn_new (call_id c) (direction c) device ct cfg ali).

(** Start a connection just created; when that fails, its only reference goes. *)
Definition start_connection {A} (k : Conn) (m : ST Conn Error A) : KM (Conn * A) :=
  match m k with
  | (k', Ok a) => mret (k', a)
  | (k', Err e) => drop_connection k' ;; fail e
  end.

Definition proceed_incoming (cfg : CallConfig) (ali : option Z) : KM unit :=
  p ← gets pending_call;
  modify (fun c => c <| pending_call := None |>) ;;
  match p with
  | Some pending =>
    let remote_device_id := ro_sender_device_id (pc_received pending) in
    k ← create_connection remote_device_id IncomingConnection cfg ali;
    '(k, answer) ← start_connection k
      (conn_start_incoming (env_conn env) (env_setup env) (pc_received pending)
         (pc_ice_candidates pending));
    sent ← attempt (manager (ManagerSendAnswer (mkSendAnswer answer remote_device_id)));
    match sent with
    | Err e => drop_connection k ;; fail e
    | Ok _ =>
      let '(k, r) := conn_set_stats_snapshot_consumer k in
      match r with
      | Err e => drop_connection k ;; fail e
      | Ok _ =>
        modify (fun c => c <| connection_map := <[remote_device_id := k]> (connection_map c) |>) ;;
        set_active_device_id remote_device_id
      end
    end
  | None => fail (RingRtcError.OptionValueNotSet "proceed()" "pending_offer")
  end.

Definition proceed_outgoing (cfg : CallConfig) (ali : option Z) : KM unit :=
  mt ← gets media_type;
  k ← create_connection 0 OutgoingParent cfg ali;
  '(k, (secret, offer)) ← start_connection k
    (conn_start_outgoing_parent (env_conn env) (env_setup env) mt);
  modify (fun c => c <| forking := Some (mkForkingState k secret offer) |>) ;;
  manager (ManagerSendOffer offer) ;;
  modify (fun c => c <| did_send_offer := true |>).

Definition proceed (cfg : CallConfig) (ali : option Z) : KM unit :=
  dir ← gets direction;
  match dir with
  | Incoming => proceed_incoming cfg ali
  | Outgoing => proceed_outgoing cfg ali
  end.

Definition already_accepted (st : CallState.CallState) : bool :=
  bool_decide (st = CallState.ConnectedAndAccepted) ||
  bool_decide (st = CallState.ReconnectingAfterAccepted).

Definition received_answer (received : ReceivedAnswer) : KM unit :=
  let sender_device_id := ra_sender_device_id received in
  m ← gets connection_map;
  match m !! sender_device_id with
  | Some _ => ret_ok
  | None =>
    st ← gets state;
    if already_accepted st then ret_ok
    else
      f ← gets forking;
      match f with
      | Some f =>
        k ← create_connection sender_device_id OutgoingChild
          (conn_call_config (parent_connection f))
          (conn_audio_levels_interval (parent_connection f));
        '(k, _) ← start_connection k
          (conn_start_outgoing_child (env_conn env) (env_setup env) (local_secret f)
             (forking_offer f) received);
        modify (fun c => c <| connection_map := <[sender_device_id := k]> (connection_map c) |>)
      | None => fail (RingRtcError.ConnectionNotFound sender_device_id)
      end
  end.

Definition received_ice (received : ReceivedIce) : KM unit :=
  let sender_device_id := ri_sender_device_id received in
  c ← get;
  match pending_call c with
  | Some p =>
    modify (fun c => c <| pending_call := Some (p <| pc_ice_candidates :=
      pc_ice_candidates p ++ candidates (ri_ice received) |>) |>)
  | None =>
    match connection_map c !! sender_device_id with
    | Some _ => on_connection sender_device_id (conn_inject_received_ice (ri_ice received))
    | None =>
      if already_accepted (state c) then ret_ok
      else fail (RingRtcError.ConnectionNotFound sender_device_id)
    end
  end.

Definition should_send_hangup (c : Call) : bool :=
  match direction c with
  | Incoming => true
  | Outgoing => did_send_offer c
  end.

Definition should_send_hangup_on_failure (c : Call) : bool :=
  match direction c with
  | Incoming => CallState.accepted (state c)
  | Outgoing => true
  end.

(** ** Hangups *)

Definition send_hangup_via_signaling_to_all (hangup : Hangup.Hangup) : KM unit :=
  manager (ManagerSendHangup (mkSendHangup hangup)).

(** The keys of the map, in the order of the walk. *)
Definition walk_order (c : Call) : list DeviceId :=
  let ks := (map_to_list (connection_map c)).*1 in
  let o := env_hash_order env ks in
  if bool_decide (o ≡ₚ ks) then o else ks.

Definition send_hangup_via_rtp_data_to_all (hangup : Hangup.Hangup) : KM unit :=
  ks ← gets walk_order;
  for_each ks (fun d =>
    on_connection d (conn_inject_send_hangup_via_rtp_data (env_conn env) hangup)).

Definition send_hangup_via_rtp_data_to_all_except (hangup : Hangup.Hangup)
    (excluded_remote_device_id : DeviceId) : KM unit :=
  ks ← gets walk_order;
  for_each ks (fun d =>
    remote_device_id ← on_connection d (gets conn_remote_device_id);
    if negb (bool_decide (excluded_remote_device_id = remote_device_id))
    then on_connection d (conn_inject_send_hangup_via_rtp_data (env_conn env) hangup)
    else ret_ok).

Definition send_hangup_via_rtp_data_and_signaling_to_all_except (hangup : Hangup.Hangup)
    (excluded_remote_device_id : DeviceId) : KM unit :=
  send_hangup_via_rtp_data_to_all_except hangup excluded_remote_device_id ;;
  send_hangup_via_signaling_to_all hangup.

(** ** Termination of connections *)

(** Take a connection out of the map and terminate it. *)
Definition remove_and_terminate (d : DeviceId) : KM unit :=
  m ← gets connection_map;
  match m !! d with
  | Some k =>
    modify (fun c => c <| connection_map := delete d (connection_map c) |>) ;;
    let '(k', r) := conn_terminate (env_conn env) k in
    drop_connection k' ;;
    of_result r
  | None => ret_ok
  end.

Definition handle_ice_failed (remote_device : DeviceId) : KM unit :=
  c ← get;
  match active_device_id_field c with
  | Some active =>
    if bool_decide (active = remote_device) then manager ManagerConnectionFailure else ret_ok
  | None =>
    if bool_decide (size (connection_map c) = 1%nat) then manager ManagerConnectionFailure
    else remove_and_terminate remote_device
  end.

Definition disconnect_incoming_media : KM unit :=
  ctx ← gets call_context;
  match ctx with
  | Some _ => _ ← attempt (manager ManagerDisconnectIncomingMedia); ret_ok
  | None => ret_ok
  end.

Definition terminate_parent : KM unit :=
  f ← gets forking;
  modify (fun c => c <| forking := None |>) ;;
  match f with
  | Some f =>
    let '(k, _) := conn_terminate (env_conn env) (parent_connection f) in drop_connection k
  | None => ret_ok
  end.

Definition terminate_connections : KM unit :=
  disconnect_incoming_media ;;
  terminate_parent ;;
  ks ← gets walk_order;
  for_each ks (fun d => _ ← attempt (remove_and_terminate d); ret_ok).

Definition terminate_connections_except_accepted (accepted_device_id : DeviceId) : KM unit :=
  ks ← gets walk_order;
  for_each ks (fun d =>
    remote_device_id ← on_connection d (gets conn_remote_device_id);
    if negb (bool_decide (remote_device_id = accepted_device_id))
    then _ ← attempt (remove_and_terminate d); ret_ok
    else ret_ok).

(** ** Events *)

Definition FSM_CHANNEL_SIZE : Z := 256.

(** Nothing is queued once the state machine closed its end. *)
Definition inject_event (event : CallEvent.CallEvent) : KM unit :=
  c ← get;
  if fsm_connected c then
    if zlen (fsm_queue c) <? FSM_CHANNEL_SIZE then
      modify (fun c => c <| fsm_queue := fsm_queue c ++ [event] |>)
    else fail (RingRtcError.Anyhow "sending on a full channel")
  else ret_ok.

Definition inject_internal_error (error : Error) : KM unit :=
  _ ← attempt (inject_event (CallEvent.InternalError error)); ret_ok.

Definition inject_start_call : KM unit := inject_event CallEvent.StartCall.
Definition inject_proceed (cfg : CallConfig) (ali : option Z) : KM unit :=
  inject_event (CallEvent.Proceed cfg ali).
Definition inject_accept_call : KM unit := inject_event CallEvent.AcceptCall.
Definition inject_send_hangup_via_rtp_data_to_all (hangup : Hangup.Hangup) : KM unit :=
  set_state CallState.Terminating ;;
  inject_event (CallEvent.SendHangupViaRtpDataToAll hangup).
Definition inject_received_answer (received : ReceivedAnswer) : KM unit :=
  inject_event (CallEvent.ReceivedAnswer received).
Definition inject_received_ice (received : ReceivedIce) : KM unit :=
  inject_event (CallEvent.ReceivedIce received).
Definition inject_received_hangup (received : ReceivedHangup) : KM unit :=
  inject_event (CallEvent.ReceivedHangup received).
Definition on_connection_observer_event (device : DeviceId) (event : ObserverEvent) : KM unit :=
  inject_event (CallEvent.ConnectionObserverEvent event device).
Definition on_connection_observer_error (device : DeviceId) (error : Error) : KM unit :=
  inject_event (CallEvent.ConnectionObserverError error device).
Definition inject_call_timeout : KM unit := inject_event CallEvent.CallTimeout.

(** [terminate] up to [wait_for_terminate], and after it. *)
Definition terminate_begin : KM unit :=
  set_state CallState.Terminating ;;
  inject_event CallEvent.Terminate.

Definition terminate_end : KM unit :=
  terminate_connections ;;
  modify (fun c => c <| timeout_stopped := true |>) ;;
  set_state CallState.Terminated.

Definition notify_terminate_complete : KM unit :=
  modify (fun c => c <| terminate_complete := true |>).

End Ops.
End Call.

#[global] Arguments Call {_} _.
#[global] Arguments ForkingState {_} _.

End Call.

Notation KM := (ST (Call.Call _) Error).
