(* ===== verification/CallConnections.v ===== *)
(** * The connections of a call

    The interface a call uses ([ConnectionApi] of Call.v) implemented by the
    connections of ConnectionSystem.v: a connection with its state machine, its
    threads and its queues.  The laws of the interface hold, so that what is proved
    of a call for every implementation holds with these connections, and what is
    proved of connections holds for the connections of a call. *)

From S2P Require Import Prelude States Signaling ConnectionTypes Connection ConnectionStart.
From S2P Require Import ConnectionFsm ConnectionSystem ConnectionLive Call.
Local Open Scope Z_scope.
Local Open Scope ringrtc_scope.

Module CallConnections.
Import Connection ConnectionStart ConnectionFsm ConnectionSystem ConnectionLive.

Section Instance.
Context `{SrtpCrypto} `{SdpFfi}.
Context `{Codec OfferProto} `{Codec AnswerProto} `{Codec IceCandidateProto} `{Codec RtpMessage}.
Context (message_size : Z).

(** A request of the call: the connection is not asked whether it fits the protocol that
    [ConnectionSystem.act] prescribes; that it does is proved of calls. *)
Definition request_with {A} (m : CM A) : ST Sys Error A := fun s =>
  let '(c, r) := m (conn (fsm s)) in (with_conn s c, r).

Definition request (env : Env) (a : Api) : ST Sys Error unit :=
  request_with (run_api message_size env a).

(** What a connection does by itself or on callbacks of WebRTC. *)
Definition own (a : action) : bool :=
  match a with
  | AEvent _ | AWorker _ | ANotify _ | ATick _ _ => true
  | AApi _ a => negb (is_start a)
  | _ => false
  end.

(** Let the state machine handle its queue until it answers [terminate]. *)
Fixpoint await_terminate (fuel : nat) (env : Env) (s : Sys) : Sys :=
  match fuel with
  | O => s
  | S fuel =>
    if terminate_complete (conn (fsm s)) then s
    else match act message_size (AEvent env) s with
         | Some s' => await_terminate fuel env s'
         | None => s
         end
  end.

(** What a caller of [terminate] has that is never answered: it waits for ever, here with
    the connection in [Waiting]. *)
Definition not_answered : Error := RingRtcError.Anyhow "terminate is not answered".

(** [terminate] as the call sees it: the request, the wait, the release. *)
Definition terminate (env : Env) : ST Sys Error unit := fun s =>
  let '(c, r) := terminate_begin env (conn (fsm s)) in
  let s1 := (with_conn s c) <| phase := if is_ok r then Waiting else Failed |> in
  match r with
  | Err e => (s1, Err e)
  | Ok _ =>
    let s2 := await_terminate (length (fsm_queue c)) env s1 in
    if terminate_complete (conn (fsm s2)) then
      let '(c, r) := terminate_end env (conn (fsm s2)) in
      ((with_conn s2 c) <| phase := Returned |>, r)
    else (s2, Err not_answered)
  end.

#[export] Instance connection_api : ConnectionApi Sys := {|
  ConnAction := action;
  conn_act a s := if own a then act message_size a s else None;
  conn_new id dir d ct cfg ali :=
    with_conn (init (Connection.new id dir d ct cfg ali))
      (set_peer_connection (Connection.new id dir d ct cfg ali)).1;
  conn_remote_device_id s := remote_device_id (conn (fsm s));
  conn_network_route s := BandwidthController.network_route (bandwidth_controller (conn (fsm s)));
  conn_call_config s := call_config (conn (fsm s));
  conn_audio_levels_interval s := audio_levels_interval (conn (fsm s));
  conn_start_incoming env su o cands :=
    request_with (start_incoming env su o cands);
  conn_start_outgoing_parent env su mt :=
    request_with (start_outgoing_parent env su mt);
  conn_start_outgoing_child env su secret o a :=
    request_with (start_outgoing_child env su secret o a);
  conn_set_stats_snapshot_consumer := request ok_env ApiSetStatsConsumer;
  conn_inject_accept := request ok_env ApiAccept;
  conn_enable_media env := request env ApiEnableMedia;
  conn_start_tick := request ok_env ApiStartTick;
  conn_regather_on_all_networks := request ok_env ApiRegather;
  conn_inject_received_ice ice := request ok_env (ApiReceivedIce ice);
  conn_inject_send_hangup_via_rtp_data env h := request env (ApiSendHangup h);
  conn_terminate := terminate;
|}.

(** ** The laws *)

Definition of_new (s : Sys) : Prop :=
  exists id dir d ct cfg ali, reachable message_size (Connection.new id dir d ct cfg ali) s.

Definition fresh (ct : ConnectionType) (s : Sys) : Prop :=
  of_new s /\ connection_type (conn (fsm s)) = ct /\ fsm_started (conn (fsm s)) = false /\
  phase s = NotCalled.
Definition live (s : Sys) : Prop :=
  of_new s /\ fsm_started (conn (fsm s)) = true /\ phase s = NotCalled.
Definition closed (s : Sys) : Prop :=
  of_new s /\ (phase s = Returned \/ phase s = Failed).

Lemma of_new_act a s s' :
  of_new s -> atomic a = true -> act message_size a s = Some s' -> of_new s'.
Proof.
  intros (id & dir & d & ct & cfg & ali & Hr) Ha Hs. exists id, dir, d, ct, cfg, ali.
  by eapply reachable_step.
Qed.

(** The device of a connection never changes. *)
Lemma id_handle_event env st ev : respects (onc (same remote_device_id)) (handle_event env st ev).
Proof. all_respects. Qed.

Lemma id_api env a : is_start a = false -> respects (same remote_device_id) (run_api message_size env a).
Proof. destruct a; intros Ha; try discriminate Ha; all_respects. Qed.

Lemma id_own a s s' :
  own a = true -> act message_size a s = Some s' ->
  remote_device_id (conn (fsm s')) = remote_device_id (conn (fsm s)).
Proof.
  intros Ho. unfold act. destruct a as [| |env|env|env|env n|env a|env|env]; try discriminate Ho.
  - destruct (taken s), (recv (fsm s)) as [[f [st ev]]|] eqn:Hr; try done. intros [= <-].
    apply recv_spec in Hr as (-> & Hst & q & Hq & Hf). cbn.
    etrans; [apply id_handle_event|]. by subst f.
  - destruct (worker (fsm s)) as [|t w]; [done|]. intros [= <-]. cbn.
    assert (respects (same remote_device_id) (run_worker_task env t)) as Hk
      by (destruct t; all_respects). apply Hk.
  - destruct (notify (fsm s)) as [|t w]; [done|]. intros [= <-]. cbn.
    assert (respects (same remote_device_id) (run_notify_task env t)) as Hk
      by (destruct t; all_respects). apply Hk.
  - destruct (ticking _); [|done]. destruct (tick env n _) as [[c' r]|] eqn:Ht; [|done].
    intros [= <-]. cbn. revert Ht. apply (tick_rel (same remote_device_id)); all_respects.
  - destruct (api_allowed _ _ _); [|done]. intros [= <-]. cbn.
    apply negb_true_iff in Ho. by apply id_api.
Qed.

Lemma live_own a s s' :
  own a = true -> act message_size a s = Some s' ->
  fsm_started (conn (fsm s')) = fsm_started (conn (fsm s)) /\ phase s' = phase s.
Proof.
  intros Ho. unfold act. destruct a as [| |env|env|env|env n|env a|env|env]; try discriminate Ho.
  - destruct (taken s), (recv (fsm s)) as [[f [st ev]]|] eqn:Hr; try done. intros [= <-].
    apply recv_spec in Hr as (-> & Hst & q & Hq & Hf). cbn. split; [|done].
    etrans; [apply started_handle_event|]. by subst f.
  - destruct (worker (fsm s)) as [|t w]; [done|]. intros [= <-].
    split; [apply started_worker_task|done].
  - destruct (notify (fsm s)) as [|t w]; [done|]. intros [= <-].
    split; [apply started_notify_task|done].
  - destruct (ticking _); [|done]. destruct (tick env n _) as [[c' r]|] eqn:Ht; [|done].
    intros [= <-]. split; [by eapply started_tick|done].
  - destruct (api_allowed _ _ _); [|done]. intros [= <-]. apply negb_true_iff in Ho.
    split; [by apply started_api|done].
Qed.

Lemma own_live a s s' :
  live s -> (if own a then act message_size a s else None) = Some s' ->
  live s' /\ remote_device_id (conn (fsm s')) = remote_device_id (conn (fsm s)).
Proof.
  intros (Hn & Hst & Hp). destruct (own a) eqn:Ho; [|done]. intros Hs.
  destruct (live_own a s s' Ho Hs) as [Hst' Hp']. split; [|by eapply id_own].
  split; [|split; congruence]. eapply of_new_act; [done| |done]. by destruct a.
Qed.

(** A request that is not the start of a connection is always taken. *)
Lemma request_live env a s :
  is_start a = false -> live s ->
  live (request env a s).1 /\
  remote_device_id (conn (fsm (request env a s).1)) = remote_device_id (conn (fsm s)).
Proof.
  intros Ha Hl. apply (own_live (AApi env a)); [done|]. cbn. rewrite Ha. cbn.
  assert (api_allowed (phase s) a (conn (fsm s)) = true) as Hok.
  { destruct Hl as (_ & Hst & Hp). destruct a; try done; cbn. by rewrite Hst, Hp. }
  unfold request, request_with. rewrite Hok.
  by destruct (run_api message_size env a (conn (fsm s))) as [c r].
Qed.

(** Starting a fresh connection of the right type. *)
Lemma start_live {A} env a (m : CM A) s :
  of_new s -> api_allowed (phase s) a (conn (fsm s)) = true -> phase s = NotCalled ->
  (run_api message_size env a (conn (fsm s))).1 = (m (conn (fsm s))).1 ->
  fsm_started (m (conn (fsm s))).1 = true ->
  live (request_with m s).1.
Proof.
  intros Hn Hok Hp Hrun Hst. unfold request_with.
  destruct (m (conn (fsm s))) as [c r]; cbn in *. split; [|by split].
  apply (of_new_act (AApi env a) s); [done..|]. unfold act. by rewrite Hok, Hrun.
Qed.

Lemma start_id {A} (m : CM A) :
  respects (same remote_device_id) m ->
  respects (same (fun s => remote_device_id (conn (fsm s)))) (request_with m).
Proof.
  intros Hm s. unfold request_with, same.
  specialize (Hm (conn (fsm s))). by destruct (m (conn (fsm s))).
Qed.

Lemma await_spec env n s s' :
  run message_size (replicate n (AEvent env)) s = Some s' ->
  terminate_complete (conn (fsm s')) = true -> phase s' = phase s -> of_new s ->
  forall fuel, (n <= fuel)%nat ->
  of_new (await_terminate fuel env s) /\
  terminate_complete (conn (fsm (await_terminate fuel env s))) = true /\
  phase (await_terminate fuel env s) = phase s.
Proof.
  revert s. induction n as [|n IH]; intros s Hrun Hc Hp Hn fuel Hf; cbn [run replicate] in Hrun.
  - injection Hrun as ->. destruct fuel; cbn; [done|]. by rewrite Hc.
  - destruct fuel as [|fuel]; [lia|]. cbn [await_terminate].
    destruct (terminate_complete (conn (fsm s))) eqn:Hcs; [done|].
    destruct (act message_size (AEvent env) s) as [s1|] eqn:Hs; [|discriminate Hrun].
    destruct (live_own (AEvent env) s s1 eq_refl Hs) as [_ Hp1].
    rewrite <- Hp1. apply IH; [exact Hrun|done|congruence| |lia].
    by apply (of_new_act (AEvent env) s).
Qed.

Lemma terminate_begin_act env s :
  live s ->
  let '(c, r) := terminate_begin env (conn (fsm s)) in
  act message_size (ATerminateBegin env) s =
    Some ((with_conn s c) <| phase := if is_ok r then Waiting else Failed |>).
Proof.
  intros (_ & Hst & Hp). unfold act. rewrite Hst, Hp. cbn. by destruct (terminate_begin _ _).
Qed.

(** The state machine of a connection that waits in [terminate] answers. *)
Lemma waiting_answered env s :
  of_new s -> phase s = Waiting ->
  exists n s', (n <= length (fsm_queue (conn (fsm s))))%nat /\
    run message_size (replicate n (AEvent env)) s = Some s' /\
    terminate_complete (conn (fsm s')) = true /\ phase s' = phase s.
Proof.
  intros (id & dir & d & ct & cfg & ali & Hr) Hp.
  destruct (TInv_reachable message_size _ _ _ _ _ _ _ Hr) as [_ Hw].
  destruct (Hw Hp) as [Hc|Hin]; [by exists 0%nat, s; split; [lia|]|].
  assert (Inv s) as HI by (eapply Inv_reachable; [..|exact Hr]; done).
  destruct (fsm_started (conn (fsm s))) eqn:Hst; [|by destruct (inv_unstarted _ HI Hst); congruence].
  destruct (events_reach_terminate message_size env s (inv_taken _ HI) Hst Hin)
    as (n & s' & Hlen & Hrun & Hc & Hp' & _).
  by exists n, s'.
Qed.

Lemma terminate_closed env s : live s -> closed (terminate env s).1.
Proof.
  intros Hl. pose proof (terminate_begin_act env s Hl) as Hb. unfold terminate.
  destruct (terminate_begin env (conn (fsm s))) as [c r].
  set (s1 := (with_conn s c) <| phase := _ |>) in *.
  assert (of_new s1) as Hn1 by (destruct Hl as [Hn _]; by apply (of_new_act (ATerminateBegin env) s)).
  destruct r as [u|e]; [|by split; [|right]].
  destruct (waiting_answered env s1 Hn1 eq_refl) as (n & s2 & Hlen & Hrun & Hc & Hp2).
  destruct (await_spec env n s1 s2 Hrun Hc Hp2 Hn1 _ Hlen) as (Hn3 & Hc3 & Hp3).
  change (length (fsm_queue c)) with (length (fsm_queue (conn (fsm s1)))).
  set (s3 := await_terminate _ env s1) in *. rewrite Hc3.
  pose proof (of_new_act (ATerminateEnd env) s3) as Hend. unfold act in Hend. rewrite Hp3, Hc3 in Hend. cbn in Hend.
  destruct (terminate_end env (conn (fsm s3))) as [c' r']. split; [by apply Hend|by left].
Qed.

#[export] Instance connection_laws : ConnectionLaws Sys.
Proof.
  refine {| conn_fresh := fresh; conn_live := live; conn_closed := closed |}.
  - intros id dir d ct cfg ali. split; [|done]. exists id, dir, d, ct, cfg, ali.
    eapply (reachable_step _ _ _ (AApi ok_env ApiSetPeerConnection)); [apply reachable_init|done|].
    reflexivity.
  - done.
  - intros env su o cands s (Hn & Ht & Hst & Hp). apply (start_live env (ApiStartIncoming su o cands)); try done.
    + cbn. by rewrite Ht, Hst.
    + apply bind_ret_ok_fst.
    + apply then_start_fsm_started.
  - intros env su mt s (Hn & Ht & Hst & Hp). apply (start_live env (ApiStartOutgoingParent su mt)); try done.
    + cbn. by rewrite Ht, Hst.
    + apply bind_ret_ok_fst.
    + apply then_start_fsm_started.
  - intros env su sec o a s (Hn & Ht & Hst & Hp). apply (start_live env (ApiStartOutgoingChild su sec o a)); try done.
    + cbn. by rewrite Ht, Hst.
    + apply then_start_fsm_started.
  - intros. apply start_id. unfold start_incoming, then_start_fsm, incoming_body, peer. all_respects.
  - intros. apply start_id. unfold start_outgoing_child, then_start_fsm, outgoing_child_body, peer. all_respects.
  - intros s. by apply request_live.
  - intros s. by apply request_live.
  - intros env s. by apply request_live.
  - intros s. by apply request_live.
  - intros s. by apply request_live.
  - intros ice s. by apply request_live.
  - intros env h s. by apply request_live.
  - apply terminate_closed.
  - apply own_live.
Defined.

End Instance.
End CallConnections.
