(* ===== verification/CallFsm.v ===== *)
(** * The state machine of a call (src/rust/src/core/call_fsm.rs)

    [CallStateMachine] takes events off a queue and handles each with the state
    the call had when it was taken.  Handlers change the call directly or spawn
    closures on two threads: the worker thread, for work that blocks, and the
    notify thread, for notifications of the application.  The closures are data
    here, run by [run_worker_task] and [run_notify_task]; [unexpected_state] only
    logs. *)

From S2P Require Import Prelude States Signaling ConnectionTypes Connection ConnectionStart Call.
Import ConnectionStart.
Local Open Scope Z_scope.
Local Open Scope ringrtc_scope.

Module CallFsm.
Import Call.

Inductive WorkerTask : Type :=
(* schedule_work_until_terminating *)
| ProceedTask (cfg : CallConfig) (audio_levels_interval : option Z)
| ReceivedAnswerTask (received : ReceivedAnswer)
| ReceivedIceTask (received : ReceivedIce)
| AcceptLocallyTask
| TerminateOthersTask (hangup : Hangup.Hangup) (accepted_remote_device_id : DeviceId)
| AcceptRemotelyTask
| IceFailedTask (remote_device_id : DeviceId)
(* schedule_work_even_when_terminating *)
| RemoteHangupTask (end_reason_override : option CallEndReason.CallEndReason)
| SendHangupToAllTask (hangup : Hangup.Hangup)
| TimeoutTask
(* worker_spawn *)
| InternalErrorTask (error : Error).

Inductive NotifyTask : Type :=
| NotifyApplicationTask (event : ApplicationEvent.ApplicationEvent)
| NotifyNetworkRouteTask (route : NetworkRoute)
| NotifyAudioLevelsTask (captured_level received_level : Z)
| NotifyLowBandwidthTask (recovered : bool).

Section CallFsm.
Context `{SrtpCrypto} {Conn : Type} `{!ConnectionApi Conn}.

Record Fsm : Type := mkFsm {
  call : Call Conn;
  worker : list WorkerTask;
  worker_stopped : bool;
  notify : list NotifyTask;
  notify_stopped : bool;
}.

#[global] Instance Fsm_eta : Eta Fsm := fun r =>
  mkFsm (call r) (worker r) (worker_stopped r) (notify r) (notify_stopped r).

Notation FM := (ST Fsm Error).

Definition new (c : Call Conn) : Fsm := mkFsm c [] false [] false.

(** Run code of the call. *)
Definition on_call {A} (m : ST (Call Conn) Error A) : FM A := fun s =>
  let '(c, r) := m (call s) in (s <| call := c |>, r).

Definition worker_spawn (t : WorkerTask) : FM unit := modify (fun s =>
  if worker_stopped s then s else s <| worker := worker s ++ [t] |>).

Definition notify_spawn (t : NotifyTask) : FM unit := modify (fun s =>
  if notify_stopped s then s else s <| notify := notify s ++ [t] |>).

(** [stop_all_and_join]: what was not started is dropped. *)
Definition drain_worker_thread : FM unit :=
  modify (fun s => s <| worker := [] |> <| worker_stopped := true |>).
Definition drain_notify_thread : FM unit :=
  modify (fun s => s <| notify := [] |> <| notify_stopped := true |>).

Definition unexpected_state : FM unit := ret_ok.

Definition notify_application (event : ApplicationEvent.ApplicationEvent) : FM unit :=
  notify_spawn (NotifyApplicationTask event).

Section Handlers.
Context (env : CallEnv).

(** ** The closures *)

(** [schedule_work_until_terminating]. *)
Definition until_terminating (do_work : ST (Call Conn) Error unit) : ST (Call Conn) Error unit :=
  result ← attempt (b ← terminating; if b : bool then ret_ok else do_work);
  match result with
  | Ok _ => ret_ok
  | Err err => inject_internal_error err
  end.

(** [schedule_work_even_when_terminating]. *)
Definition even_when_terminating (do_work : ST (Call Conn) Error unit)
  : ST (Call Conn) Error unit :=
  result ← attempt do_work;
  match result with
  | Ok _ => ret_ok
  | Err err => inject_internal_error err
  end.

Definition run_worker_task (t : WorkerTask) : ST (Call Conn) Error unit :=
  match t with
  | ProceedTask cfg ali => until_terminating (proceed env cfg ali)
  | ReceivedAnswerTask received => until_terminating (received_answer env received)
  | ReceivedIceTask received => until_terminating (received_ice received)
  | AcceptLocallyTask => until_terminating (accept_locally env)
  | TerminateOthersTask hangup accepted =>
    until_terminating (send_hangup_via_signaling_to_all env hangup ;;
                       terminate_connections_except_accepted env accepted)
  | AcceptRemotelyTask => until_terminating (accept_remotely env)
  | IceFailedTask device => until_terminating (handle_ice_failed env device)
  | RemoteHangupTask reason => even_when_terminating (manager env (ManagerRemoteHangup reason))
  | SendHangupToAllTask hangup =>
    even_when_terminating (send_hangup_via_rtp_data_to_all env hangup)
  | TimeoutTask => even_when_terminating (manager env ManagerTimeout)
  | InternalErrorTask error => _ ← attempt (internal_error env error); ret_ok
  end.

Definition run_notify_task (t : NotifyTask) : ST (Call Conn) Error unit :=
  until_terminating
    match t with
    | NotifyApplicationTask event => Call.notify_application env event
    | NotifyNetworkRouteTask route => notify_network_route_changed env route
    | NotifyAudioLevelsTask captured received => notify_audio_levels env captured received
    | NotifyLowBandwidthTask recovered => notify_low_bandwidth_for_video env recovered
    end.

(** ** Handlers *)

Definition handle_remotely_accepted_connection (accepted : DeviceId) : FM unit :=
  on_call (set_active_device_id accepted) ;;
  on_call start_call_summary_stats_collection ;;
  let hangup := Hangup.AcceptedOnAnotherDevice accepted in
  on_call (send_hangup_via_rtp_data_to_all_except env hangup accepted) ;;
  worker_spawn (TerminateOthersTask hangup accepted).

Definition activate_remotely_accepted_connection : FM unit := worker_spawn AcceptRemotelyTask.

Definition handle_start_call (state : CallState.CallState) : FM unit :=
  match state with
  | CallState.NotYetStarted =>
    on_call (set_state CallState.WaitingToProceed) ;;
    on_call (handle_start_call env)
  | _ => unexpected_state
  end.

Definition handle_proceed (state : CallState.CallState) (cfg : CallConfig) (ali : option Z)
  : FM unit :=
  if bool_decide (state = CallState.WaitingToProceed) then
    on_call (set_state CallState.ConnectingBeforeAccepted) ;;
    worker_spawn (ProceedTask cfg ali)
  else unexpected_state.

Definition handle_received_answer (state : CallState.CallState) (received : ReceivedAnswer)
  : FM unit :=
  match state with
  | CallState.ConnectingBeforeAccepted | CallState.ConnectedBeforeAccepted =>
    worker_spawn (ReceivedAnswerTask received)
  | _ => unexpected_state
  end.

Definition handle_received_ice (state : CallState.CallState) (received : ReceivedIce) : FM unit :=
  if CallState.can_receive_ice_candidates state
  then worker_spawn (ReceivedIceTask received)
  else unexpected_state.

(** What to do with a hangup: whether it is expected, the hangup to send to the
    other devices of the callee, and the reason to give to the application. *)
Definition hangup_scenario (hangup_type : HangupType.HangupType) (direction : CallDirection)
    (sender_device_id : DeviceId)
  : bool * option Hangup.Hangup * option CallEndReason.CallEndReason :=
  let no_end_reason_and_no_propagation := (true, None, None) in
  let end_reason_without_propagation event := (true, None, Some event) in
  let propagate_without_end_reason hangup_to_send := (true, Some hangup_to_send, None) in
  let propagate_with_end_reason hangup_to_send event := (true, Some hangup_to_send, Some event) in
  let unexpected := (false, None, None) in
  match hangup_type, direction with
  | HangupType.NeedPermission, Outgoing =>
    propagate_with_end_reason (Hangup.NeedPermission (Some sender_device_id))
      CallEndReason.RemoteHangupNeedPermission
  | HangupType.Normal, Incoming => no_end_reason_and_no_propagation
  | HangupType.Normal, Outgoing =>
    propagate_without_end_reason (Hangup.DeclinedOnAnotherDevice sender_device_id)
  | HangupType.AcceptedOnAnotherDevice, Incoming =>
    end_reason_without_propagation CallEndReason.RemoteHangupAccepted
  | HangupType.DeclinedOnAnotherDevice, Incoming =>
    end_reason_without_propagation CallEndReason.RemoteHangupDeclined
  | HangupType.BusyOnAnotherDevice, Incoming =>
    end_reason_without_propagation CallEndReason.RemoteHangupBusy
  | HangupType.NeedPermission, Incoming => unexpected
  | HangupType.AcceptedOnAnotherDevice, Outgoing => unexpected
  | HangupType.DeclinedOnAnotherDevice, Outgoing => unexpected
  | HangupType.BusyOnAnotherDevice, Outgoing => unexpected
  end.

Definition handle_received_hangup (state : CallState.CallState) (received : ReceivedHangup)
  : FM unit :=
  c ← gets call;
  let sender_device_id := rh_sender_device_id received in
  let '(hangup_type, hangup_device_id) := Hangup.to_type_and_device_id (rh_hangup received) in
  if bool_decide (direction c = Incoming) &&
     bool_decide (Some (local_device_id c) = hangup_device_id)
  then ret_ok
  else if match active_device_id_field c with
          | Some active => negb (bool_decide (sender_device_id = active))
          | None => false
          end
  then ret_ok
  else
    let '(_, hangup_to_propagate, end_reason_override) :=
      hangup_scenario hangup_type (direction c) sender_device_id in
    (if CallState.can_be_terminated_remotely state
     then on_call (set_state CallState.Terminating) else ret_ok) ;;
    match hangup_to_propagate with
    | Some hangup_to_propagate =>
      if CallState.should_propagate_hangup state then
        let excluded_remote_device_id :=
          default 0 (Hangup.to_type_and_device_id hangup_to_propagate).2 in
        on_call (send_hangup_via_rtp_data_and_signaling_to_all_except env
          hangup_to_propagate excluded_remote_device_id)
      else ret_ok
    | None => ret_ok
    end ;;
    worker_spawn (RemoteHangupTask end_reason_override).

Definition handle_accept_call (state : CallState.CallState) : FM unit :=
  if CallState.can_be_accepted_locally state then
    on_call (set_state CallState.ConnectedAndAccepted) ;;
    worker_spawn AcceptLocallyTask
  else unexpected_state.

Definition handle_send_hangup_via_rtp_data_to_all (state : CallState.CallState)
    (hangup : Hangup.Hangup) : FM unit :=
  if CallState.can_send_hangup_via_rtp state
  then worker_spawn (SendHangupToAllTask hangup)
  else unexpected_state.

(** [ConnectionObserverEvent::StateChanged]. *)
Definition handle_connection_state_changed (state : CallState.CallState)
    (connection_state : ConnectionState.ConnectionState) (remote_device_id : DeviceId) : FM unit :=
  dir ← gets (fun s => direction (call s));
  match dir, state, connection_state with
  | Incoming, CallState.ConnectingBeforeAccepted, ConnectionState.ConnectedBeforeAccepted =>
    on_call (set_state CallState.ConnectedBeforeAccepted) ;;
    notify_application ApplicationEvent.LocalRinging
  | Outgoing, CallState.ConnectingBeforeAccepted, ConnectionState.ConnectedBeforeAccepted =>
    on_call (set_state CallState.ConnectedBeforeAccepted) ;;
    notify_application ApplicationEvent.RemoteRinging
  | Outgoing, (CallState.ConnectingBeforeAccepted | CallState.ConnectedBeforeAccepted),
    ConnectionState.ConnectingAfterAccepted =>
    on_call (set_state CallState.ConnectingAfterAccepted) ;;
    handle_remotely_accepted_connection remote_device_id
  | Outgoing, CallState.ConnectingAfterAccepted, ConnectionState.ConnectedAndAccepted =>
    active ← on_call active_device_id;
    if bool_decide (active = remote_device_id) then
      notify_application ApplicationEvent.RemoteRinging ;;
      on_call (set_state CallState.ConnectedAndAccepted) ;;
      activate_remotely_accepted_connection
    else ret_ok
  | Outgoing, CallState.ConnectedBeforeAccepted, ConnectionState.ConnectedAndAccepted =>
    on_call (set_state CallState.ConnectedAndAccepted) ;;
    handle_remotely_accepted_connection remote_device_id ;;
    activate_remotely_accepted_connection
  | Incoming, CallState.ConnectedBeforeAccepted, ConnectionState.ConnectedAndAccepted => ret_ok
  | _, CallState.ConnectedAndAccepted, ConnectionState.ReconnectingAfterAccepted =>
    active ← on_call active_device_id;
    if bool_decide (active = remote_device_id) then
      on_call (set_state CallState.ReconnectingAfterAccepted) ;;
      _ ← attempt (d ← on_call active_connection;
                   on_call (on_connection d conn_regather_on_all_networks));
      notify_application ApplicationEvent.Reconnecting
    else ret_ok
  | _, CallState.ReconnectingAfterAccepted, ConnectionState.ConnectedAndAccepted =>
    active ← on_call active_device_id;
    if bool_decide (active = remote_device_id) then
      on_call (set_state CallState.ConnectedAndAccepted) ;;
      notify_application ApplicationEvent.Reconnected
    else ret_ok
  | _, _, ConnectionState.IceFailed => worker_spawn (IceFailedTask remote_device_id)
  (* uninteresting, or an error that is only logged *)
  | _, _, _ => ret_ok
  end.

Definition notify_if (o : option bool) (on off : ApplicationEvent.ApplicationEvent) : FM unit :=
  match o with
  | Some true => notify_application on
  | Some false => notify_application off
  | None => ret_ok
  end.

Definition handle_connection_observer_event (state : CallState.CallState) (event : ObserverEvent)
    (remote_device_id : DeviceId) : FM unit :=
  match event with
  | ConnectionObserverEvent.StateChanged connection_state =>
    handle_connection_state_changed state connection_state remote_device_id
  | ConnectionObserverEvent.ReceivedHangup hangup =>
    handle_received_hangup state (mkReceivedHangup hangup remote_device_id)
  | ConnectionObserverEvent.RemoteSenderStatusChanged status =>
    if CallState.active state then
      active ← on_call active_device_id;
      if bool_decide (active = remote_device_id) then
        notify_if (video_enabled status) ApplicationEvent.RemoteVideoEnable
          ApplicationEvent.RemoteVideoDisable ;;
        notify_if (sharing_screen status) ApplicationEvent.RemoteSharingScreenEnable
          ApplicationEvent.RemoteSharingScreenDisable ;;
        notify_if (audio_enabled status) ApplicationEvent.RemoteAudioEnable
          ApplicationEvent.RemoteAudioDisable
      else ret_ok
    else ret_ok
  | ConnectionObserverEvent.IceConnected | ConnectionObserverEvent.IceDisconnected => ret_ok
  | ConnectionObserverEvent.IceNetworkRouteChanged route =>
    active ← gets (fun s => active_device_id_field (call s));
    match active with
    | None => ret_ok
    | Some active =>
      if bool_decide (active = remote_device_id)
      then notify_spawn (NotifyNetworkRouteTask route) else ret_ok
    end
  | ConnectionObserverEvent.AudioLevels captured received =>
    notify_spawn (NotifyAudioLevelsTask captured received)
  | ConnectionObserverEvent.LowBandwidthForVideo recovered =>
    notify_spawn (NotifyLowBandwidthTask recovered)
  end.

Definition handle_internal_error (error : Error) : FM unit :=
  worker_spawn (InternalErrorTask error).

Definition handle_connection_observer_error (error : Error) : FM unit :=
  handle_internal_error error.

Definition handle_call_timeout (state : CallState.CallState) : FM unit :=
  if negb (CallState.active state) then worker_spawn TimeoutTask else ret_ok.

(** [handle_synchronize] waits until each thread has run what was queued for it,
    two seconds at most; with the worker thread stopped it waits for the end of
    the termination, which has been signalled then. *)
Definition handle_synchronize : FM unit :=
  s ← get;
  (if negb (worker_stopped s) then
     match worker s with
     | [] => ret_ok
     | _ => fail (RingRtcError.Anyhow "timed out waiting on channel")
     end
   else ret_ok) ;;
  if negb (notify_stopped s) then
    match notify s with
    | [] => ret_ok
    | _ => fail (RingRtcError.Anyhow "timed out waiting on channel")
    end
  else ret_ok.

Definition handle_terminate : FM unit :=
  (* event_stream.close() *)
  on_call (modify (fun c => c <| fsm_connected := false |>)) ;;
  drain_worker_thread ;;
  drain_notify_thread ;;
  on_call (set_state CallState.Terminated) ;;
  on_call notify_terminate_complete.

Definition handle_event (state : CallState.CallState) (event : CallEvent.CallEvent) : FM unit :=
  match event with
  | CallEvent.SendHangupViaRtpDataToAll hangup =>
    handle_send_hangup_via_rtp_data_to_all state hangup
  | CallEvent.Terminate => handle_terminate
  | CallEvent.Synchronize => handle_synchronize
  | _ =>
    if CallState.terminating_or_terminated state then ret_ok
    else match event with
    | CallEvent.StartCall => handle_start_call state
    | CallEvent.Proceed cfg ali => handle_proceed state cfg ali
    | CallEvent.AcceptCall => handle_accept_call state
    | CallEvent.SendingOffer => ret_ok
    | CallEvent.SendingAnswer => ret_ok
    | CallEvent.ReceivedAnswer received => handle_received_answer state received
    | CallEvent.ReceivedIce received => handle_received_ice state received
    | CallEvent.ReceivedHangup received => handle_received_hangup state received
    | CallEvent.ConnectionObserverEvent event device =>
      handle_connection_observer_event state event device
    | CallEvent.ConnectionObserverError error _ => handle_connection_observer_error error
    | CallEvent.InternalError error => handle_internal_error error
    | CallEvent.CallTimeout => handle_call_timeout state
    | CallEvent.SendHangupViaRtpDataToAll _ => ret_ok
    | CallEvent.Synchronize => ret_ok
    | CallEvent.Terminate => ret_ok
    end
  end.

End Handlers.
End CallFsm.

#[global] Arguments Fsm {_} _.

End CallFsm.
