(* ===== verification/CallSystem.v ===== *)
(** * Calls as state transition systems

    The state machine, its two threads, the connections and the callers of a call
    interleave.  An [action] is one atomic step of one of them.  Between taking an
    event off the queue and handling it others may run ([ARecv], [AHandle]): the states
    of all such runs are [interleaved].  In the states that are [reachable] events were
    handled without another thread in between ([AEvent]).
    Connections act on their own at any time and report to the call as they like
    ([ApiObserverEvent]), so that what is proved does not depend on what they
    report. *)

From S2P Require Import Prelude States Signaling ConnectionTypes Connection ConnectionStart Call CallFsm.
Import ConnectionStart.
Local Open Scope Z_scope.
Local Open Scope ringrtc_scope.

Module CallSystem.
Import Call CallFsm.

(** Operations of the call manager, of the timer and of the connections. *)
Inductive Api : Type :=
| ApiReceivedOffer (received : ReceivedOffer)
| ApiSetCallContext (ctx : Z)
| ApiStartCall
| ApiProceed (cfg : CallConfig) (audio_levels_interval : option Z)
| ApiAcceptCall
| ApiSendHangup (hangup : Hangup.Hangup)
| ApiReceivedAnswer (received : ReceivedAnswer)
| ApiReceivedIce (received : ReceivedIce)
| ApiReceivedHangup (received : ReceivedHangup)
| ApiObserverEvent (device : DeviceId) (event : ObserverEvent)
| ApiObserverError (device : DeviceId) (error : Error)
| ApiSendHangupViaSignaling (hangup : Hangup.Hangup)
| ApiSendBufferedIce (device : DeviceId) (broadcast : bool)
| ApiTimeout
| ApiSynchronize.

(** How far the call of [terminate] is. *)
Inductive Phase : Type := NotCalled | Waiting | Returned | Failed.

#[global] Instance Phase_eq_dec : EqDecision Phase.
Proof. solve_decision. Defined.

(** How the call manager uses a call (call_manager.rs, [terminate_call]): hangups
    are sent before the call is taken out of its map to be terminated.  The
    timer is stopped by [terminate]. *)
Definition api_allowed `{SrtpCrypto} {Conn} (phase : Phase) (a : Api) (c : Call Conn) : bool :=
  match a with
  | ApiSendHangup _ | ApiSendHangupViaSignaling _ => bool_decide (phase = NotCalled)
  | ApiTimeout => negb (timeout_stopped c)
  | _ => true
  end.

Section System.
Context `{SrtpCrypto} {Conn : Type} `{!ConnectionApi Conn}.

Definition run_api (env : CallEnv) (a : Api) : ST (Call Conn) Error unit :=
  match a with
  | ApiReceivedOffer received => handle_received_offer received
  | ApiSetCallContext ctx => set_call_context ctx
  | ApiStartCall => inject_start_call
  | ApiProceed cfg ali => inject_proceed cfg ali
  | ApiAcceptCall => inject_accept_call
  | ApiSendHangup hangup => inject_send_hangup_via_rtp_data_to_all hangup
  | ApiReceivedAnswer received => inject_received_answer received
  | ApiReceivedIce received => inject_received_ice received
  | ApiReceivedHangup received => inject_received_hangup received
  | ApiObserverEvent device event => on_connection_observer_event device event
  | ApiObserverError device error => on_connection_observer_error device error
  | ApiSendHangupViaSignaling hangup => send_hangup_via_signaling_to_all env hangup
  | ApiSendBufferedIce device broadcast => send_buffered_local_ice_candidates env device broadcast
  | ApiTimeout => inject_call_timeout
  | ApiSynchronize => inject_event CallEvent.Synchronize
  end.

Record Sys : Type := mkSys {
  fsm : Fsm Conn;
  taken : option (CallState.CallState * CallEvent.CallEvent);
  phase : Phase;
}.

#[global] Instance Sys_eta : Eta Sys := fun s => mkSys (fsm s) (taken s) (phase s).

Inductive action : Type :=
| ARecv
| AHandle (env : CallEnv)
| AEvent (env : CallEnv)
| AWorker (env : CallEnv)
| ANotify (env : CallEnv)
| AConnection (device : DeviceId) (a : ConnAction)
| AParent (a : ConnAction)
| AApi (env : CallEnv) (a : Api)
| ATerminateBegin
| ATerminateEnd (env : CallEnv).

Definition with_call (s : Sys) (c : Call Conn) : Sys := s <| fsm := (fsm s) <| call := c |> |>.

(** Take the next event off the queue, with the state at that moment. *)
Definition recv (f : Fsm Conn) : option (Fsm Conn * (CallState.CallState * CallEvent.CallEvent)) :=
  match fsm_queue (call f) with
  | [] => None
  | ev :: q => Some (f <| call := (call f) <| fsm_queue := q |> |>, (state (call f), ev))
  end.

Definition act (a : action) (s : Sys) : option Sys :=
  let c := call (fsm s) in
  match a with
  | ARecv =>
    match taken s, recv (fsm s) with
    | None, Some (f, t) => Some (s <| fsm := f |> <| taken := Some t |>)
    | _, _ => None
    end
  | AHandle env =>
    match taken s with
    | Some (st, ev) => Some (s <| fsm := (handle_event env st ev (fsm s)).1 |> <| taken := None |>)
    | None => None
    end
  | AEvent env =>
    match taken s, recv (fsm s) with
    | None, Some (f, (st, ev)) => Some (s <| fsm := (handle_event env st ev f).1 |>)
    | _, _ => None
    end
  | AWorker env =>
    match worker (fsm s) with
    | [] => None
    | t :: w =>
      Some (s <| fsm := (fsm s) <| worker := w |> <| call := (run_worker_task env t c).1 |> |>)
    end
  | ANotify env =>
    match notify (fsm s) with
    | [] => None
    | t :: w =>
      Some (s <| fsm := (fsm s) <| notify := w |> <| call := (run_notify_task env t c).1 |> |>)
    end
  | AConnection d a =>
    k ← connection_map c !! d;
    k' ← conn_act a k;
    Some (with_call s (c <| connection_map := <[d := k']> (connection_map c) |>))
  | AParent a =>
    f ← forking c;
    k' ← conn_act a (parent_connection f);
    Some (with_call s (c <| forking := Some (mkForkingState k' (local_secret f) (forking_offer f)) |>))
  | AApi env a =>
    if api_allowed (phase s) a c then Some (with_call s (run_api env a c).1) else None
  | ATerminateBegin =>
    if bool_decide (phase s = NotCalled) then
      let '(c', r) := terminate_begin c in
      Some ((with_call s c') <| phase := if is_ok r then Waiting else Failed |>)
    else None
  | ATerminateEnd env =>
    if bool_decide (phase s = Waiting) && terminate_complete c
    then Some ((with_call s (terminate_end env c).1) <| phase := Returned |>)
    else None
  end.

Definition init (c : Call Conn) : Sys := mkSys (CallFsm.new c) None NotCalled.

(** Steps in which an event is handled with the state it was taken with. *)
Definition atomic (a : action) : bool :=
  match a with ARecv | AHandle _ => false | _ => true end.

Inductive reachable (c : Call Conn) : Sys -> Prop :=
| reachable_init : reachable c (init c)
| reachable_step s a s' :
    reachable c s -> atomic a = true -> act a s = Some s' -> reachable c s'.

(** All steps, in any order. *)
Inductive interleaved (c : Call Conn) : Sys -> Prop :=
| interleaved_init : interleaved c (init c)
| interleaved_step s a s' : interleaved c s -> act a s = Some s' -> interleaved c s'.

Lemma reachable_interleaved c s : reachable c s -> interleaved c s.
Proof. induction 1 as [|s a s' _ IH _ Ha]; [constructor|by eapply interleaved_step]. Qed.

(** An event that is handled at once is one that is taken and then handled. *)
Lemma event_split env s s' :
  act (AEvent env) s = Some s' ->
  exists s1, act ARecv s = Some s1 /\ act (AHandle env) s1 = Some s'.
Proof.
  unfold act. destruct s as [f [t|] p]; [done|]. cbn. destruct (recv f) as [[f' [st ev]]|]; [|done].
  intros [= <-]. by eexists.
Qed.

Fixpoint run (l : list action) (s : Sys) : option Sys :=
  match l with
  | [] => Some s
  | a :: l => s' ← act a s; run l s'
  end.

Lemma run_call_reachable c l s s' :
  reachable c s -> forallb atomic l = true -> run l s = Some s' -> reachable c s'.
Proof.
  revert s. induction l as [|a l IH]; intros s Hr; cbn [run forallb].
  - by intros _ [= <-].
  - intros [Ha Hl]%andb_true_iff Hrun. destruct (act a s) as [s1|] eqn:Hs; [|discriminate Hrun].
    eapply IH; [|done|done]. by eapply reachable_step.
Qed.

End System.
#[global] Arguments Sys {_} _.
#[global] Arguments action {_} _ {_}.

(** ** Automation: what an operation keeps *)

Create HintDb call_ops.
#[global] Hint Unfold Call.set_state active_device_id active_connection
  start_call_summary_stats_collection handle_received_offer set_call_context terminating
  drop_connection Call.handle_start_call
  notify_network_route_changed notify_audio_levels notify_low_bandwidth_for_video internal_error
  send_buffered_local_ice_candidates accept_locally accept_remotely create_connection
  start_connection proceed_incoming proceed_outgoing proceed received_answer received_ice
  send_hangup_via_signaling_to_all send_hangup_via_rtp_data_to_all
  send_hangup_via_rtp_data_to_all_except send_hangup_via_rtp_data_and_signaling_to_all_except
  remove_and_terminate handle_ice_failed terminate_connections disconnect_incoming_media
  terminate_parent
  terminate_connections_except_accepted inject_internal_error inject_start_call
  inject_proceed inject_accept_call inject_send_hangup_via_rtp_data_to_all inject_received_answer
  inject_received_ice inject_received_hangup on_connection_observer_event
  on_connection_observer_error inject_call_timeout terminate_begin terminate_end
  notify_terminate_complete until_terminating even_when_terminating run_worker_task
  run_notify_task run_api : call_ops.

Create HintDb callfsm_ops.
#[global] Hint Unfold worker_spawn notify_spawn drain_worker_thread drain_notify_thread
  unexpected_state CallFsm.notify_application handle_remotely_accepted_connection
  activate_remotely_accepted_connection CallFsm.handle_start_call handle_proceed
  handle_received_answer handle_received_ice handle_received_hangup handle_accept_call
  handle_send_hangup_via_rtp_data_to_all handle_connection_state_changed notify_if
  handle_connection_observer_event handle_internal_error handle_connection_observer_error
  handle_call_timeout handle_synchronize handle_terminate handle_event : callfsm_ops.

(** A relation on calls, as one on state machines. *)
Definition onk `{SrtpCrypto} {Conn} (R : relation (Call Conn)) : relation (Fsm Conn) :=
  fun s s' => R (call s) (call s').

#[global] Instance onk_preorder `{SrtpCrypto} {Conn} (R : relation (Call Conn)) `{!PreOrder R} :
  PreOrder (onk R).
Proof. split; unfold onk; [by intros s|]. intros s1 s2 s3. by etrans. Qed.

Section Lift.
Context `{SrtpCrypto} {Conn : Type} `{!ConnectionApi Conn}.
Context (R : relation (Call Conn)) `{!PreOrder R}.

Lemma onk_on_call {A} (m : ST (Call Conn) Error A) : respects R m -> respects (onk R) (on_call m).
Proof.
  intros Hm s. unfold onk, on_call. specialize (Hm (call s)). by destruct (m (call s)).
Qed.

Lemma onk_modify (f : Fsm Conn -> Fsm Conn) :
  (forall s, call (f s) = call s) -> respects (onk R) (modify f : ST (Fsm Conn) Error unit).
Proof. intros Hf s. unfold onk, modify; cbn. by rewrite Hf. Qed.

Lemma respects_on_connection {A} d (m : ST Conn Error A) :
  (forall c x, R c (c <| connection_map := x |>)) -> respects R (on_connection d m).
Proof.
  intros Hm c. unfold on_connection. destruct (connection_map c !! d) as [k|]; [|done].
  destruct (m k) as [k' r]. apply Hm.
Qed.

End Lift.

#[global] Hint Extern 2 (respects (same _) (modify _)) =>
  apply respects_modify; intros; reflexivity : respects.
#[global] Hint Extern 2 (respects (same _) (on_connection _ _)) =>
  apply respects_on_connection; [typeclasses eauto|intros; reflexivity] : respects.
#[global] Hint Extern 2 (respects (same _) (inject_event _)) =>
  unfold inject_event; solve_respects : respects.
#[global] Hint Extern 3 (respects _ (manager _ _)) => unfold manager; solve_respects : respects.
#[global] Hint Extern 3 (respects _ (Call.notify_application _ _)) =>
  unfold Call.notify_application; solve_respects : respects.
#[global] Hint Extern 3 (respects _ (set_active_device_id _)) =>
  unfold set_active_device_id; solve_respects : respects.
#[global] Hint Extern 2 (respects (onk _) (modify _)) =>
  apply onk_modify; [typeclasses eauto|intros; cbn; repeat case_match; reflexivity] : respects.

(** Take code of a call or of its state machine apart; a guard on a known state is
    decided. *)
Ltac decided_guard b :=
  let b' := eval vm_compute in b in
  lazymatch b' with
  | true => change b with true; cbv iota
  | false => change b with false; cbv iota
  end.
Ltac call_step :=
  lazymatch goal with
  | |- respects (onk _) (on_call _) => apply onk_on_call
  | |- respects _ (if ?b then _ else _) => first [decided_guard b|respects_step]
  | _ => respects_step
  end.
Ltac call_respects :=
  intros; autounfold with callfsm_ops; autounfold with call_ops; repeat call_step.

(** A step relates the call before and after by [R] when all the code does. *)
Section Steps.
Context `{SrtpCrypto} {Conn : Type} `{!ConnectionApi Conn}.
Context (R : relation (Call Conn)) `{!PreOrder R}.

Lemma act_respects a s s' :
  (forall c q, R c (c <| fsm_queue := q |>)) ->
  (forall c m, R c (c <| connection_map := m |>)) ->
  (forall c o, R c (c <| forking := o |>)) ->
  (forall env st ev, a = AHandle env \/ a = AEvent env -> respects (onk R) (handle_event env st ev)) ->
  (forall env t, respects R (run_worker_task env t)) ->
  (forall env t, respects R (run_notify_task env t)) ->
  (forall env a, respects R (run_api env a)) ->
  respects R terminate_begin -> (forall env, respects R (terminate_end env)) ->
  act a s = Some s' -> R (call (fsm s)) (call (fsm s')).
Proof.
  intros Hq Hm Ho Hh Hw Hn Ha Hb He.
  assert (forall f f' st ev, recv f = Some (f', (st, ev)) -> R (call f) (call f')) as Hr.
  { intros f f' st ev. unfold recv. destruct (fsm_queue (call f)); [done|].
    intros [= <- _ _]. apply Hq. }
  destruct a as [| |env|env|env|d a|a|env a| |env]; unfold act.
  - destruct (taken s), (recv (fsm s)) as [[f [st ev]]|] eqn:Hrc; try done. intros [= <-].
    by eapply Hr.
  - destruct (taken s) as [[st ev]|]; [|done]. intros [= <-]. apply Hh. by left.
  - destruct (taken s), (recv (fsm s)) as [[f [st ev]]|] eqn:Hrc; try done. intros [= <-].
    etrans; [by eapply Hr|apply Hh]. by right.
  - destruct (worker (fsm s)) as [|t w]; [done|]. intros [= <-]. apply Hw.
  - destruct (notify (fsm s)) as [|t w]; [done|]. intros [= <-]. apply Hn.
  - destruct (_ !! d) as [k|]; [|done]. cbn. destruct (conn_act a k); [|done]. intros [= <-].
    apply Hm.
  - destruct (forking _) as [f|]; [|done]. cbn. destruct (conn_act a _); [|done]. intros [= <-].
    apply Ho.
  - destruct (api_allowed _ _ _); [|done]. intros [= <-]. apply Ha.
  - case_bool_decide; [|done]. specialize (Hb (call (fsm s))).
    destruct (terminate_begin _) as [c r]. by intros [= <-].
  - destruct (_ && _); [|done]. intros [= <-]. apply He.
Qed.

End Steps.

Section State.
Context `{SrtpCrypto} {Conn : Type} `{!ConnectionApi Conn}.
Context (env : CallEnv).

(** The closures never change the state of the call. *)
Lemma state_worker_task t :
  respects (same (state (Conn := Conn))) (run_worker_task env t).
Proof. destruct t; call_respects. Qed.

Lemma state_notify_task t :
  respects (same (state (Conn := Conn))) (run_notify_task env t).
Proof. destruct t; call_respects. Qed.

Definition is_send_hangup (a : Api) : bool :=
  match a with ApiSendHangup _ => true | _ => false end.

Lemma state_api a :
  is_send_hangup a = false -> respects (same (state (Conn := Conn))) (run_api env a).
Proof. destruct a; intros Ha; try discriminate Ha; call_respects. Qed.

Lemma state_terminate_connections :
  respects (same (state (Conn := Conn))) (terminate_connections env).
Proof. call_respects. Qed.

End State.

End CallSystem.
