(* ===== verification/CallDiagram.v ===== *)
(** * The states of a call

    Every change of a call's state is an arrow of a diagram, in every interleaving
    of its threads, its connections and its callers; and the phases of [terminate]
    decide what the queue and the state can be. *)

From S2P Require Import Prelude States Signaling ConnectionTypes Connection ConnectionStart.
From S2P Require Import Call CallFsm CallSystem.
Local Open Scope Z_scope.
Local Open Scope ringrtc_scope.

Module CallDiagram.
Import Call CallFsm CallSystem.

(** The diagram of common/mod.rs; the last two arrows are in the code but not
    drawn there: a call can be terminated before the state machine has seen
    [StartCall], and one device can accept before it is connected while another
    one rings. *)
Inductive edge : CallState.CallState -> CallState.CallState -> Prop :=
| edge_start : edge CallState.NotYetStarted CallState.WaitingToProceed
| edge_proceed : edge CallState.WaitingToProceed CallState.ConnectingBeforeAccepted
| edge_connected :
    edge CallState.ConnectingBeforeAccepted CallState.ConnectedBeforeAccepted
| edge_accepted_first :
    edge CallState.ConnectingBeforeAccepted CallState.ConnectingAfterAccepted
| edge_then_connected :
    edge CallState.ConnectingAfterAccepted CallState.ConnectedAndAccepted
| edge_accepted : edge CallState.ConnectedBeforeAccepted CallState.ConnectedAndAccepted
| edge_disconnected :
    edge CallState.ConnectedAndAccepted CallState.ReconnectingAfterAccepted
| edge_reconnected :
    edge CallState.ReconnectingAfterAccepted CallState.ConnectedAndAccepted
| edge_terminate st :
    st <> CallState.NotYetStarted -> CallState.terminating_or_terminated st = false ->
    edge st CallState.Terminating
| edge_terminated : edge CallState.Terminating CallState.Terminated
| edge_terminate_unstarted : edge CallState.NotYetStarted CallState.Terminating
| edge_other_accepts :
    edge CallState.ConnectedBeforeAccepted CallState.ConnectingAfterAccepted.

#[export] Hint Constructors edge : ringrtc.

Section Diagram.
Context `{SrtpCrypto} {Conn : Type} `{!ConnectionApi Conn}.
Implicit Types (c : Call Conn) (f : Fsm Conn) (s : Sys Conn).

(** At most a change to [target]. *)
Definition to_state (target : CallState.CallState) : relation (Call Conn) :=
  fun c c' => state c' = state c \/ state c' = target.

#[local] Instance to_state_preorder target : PreOrder (to_state target).
Proof. split; unfold to_state; [by left|]. intros c1 c2 c3 [] []; intuition congruence. Qed.

#[local] Hint Extern 2 (respects (to_state _) (modify _)) =>
  apply respects_modify; intros; first [by left|by right] : respects.
#[local] Hint Extern 2 (respects (to_state _) (on_connection _ _)) =>
  apply respects_on_connection; [typeclasses eauto|by left] : respects.
#[local] Hint Extern 2 (respects (to_state _) (inject_event _)) =>
  unfold inject_event; solve_respects : respects.

Definition is_terminate (ev : CallEvent.CallEvent) : bool :=
  match ev with CallEvent.Terminate => true | _ => false end.

(** Where an event can take the call. *)
Definition target (st : CallState.CallState) (ev : CallEvent.CallEvent) : CallState.CallState :=
  match ev with
  | CallEvent.StartCall => CallState.WaitingToProceed
  | CallEvent.Proceed _ _ => CallState.ConnectingBeforeAccepted
  | CallEvent.AcceptCall => CallState.ConnectedAndAccepted
  | CallEvent.ReceivedHangup _
  | CallEvent.ConnectionObserverEvent (ConnectionObserverEvent.ReceivedHangup _) _ =>
    CallState.Terminating
  | CallEvent.ConnectionObserverEvent (ConnectionObserverEvent.StateChanged cst) _ =>
    match st, cst with
    | CallState.ConnectingBeforeAccepted, ConnectionState.ConnectedBeforeAccepted =>
      CallState.ConnectedBeforeAccepted
    | (CallState.ConnectingBeforeAccepted | CallState.ConnectedBeforeAccepted),
      ConnectionState.ConnectingAfterAccepted => CallState.ConnectingAfterAccepted
    | CallState.ConnectedAndAccepted, ConnectionState.ReconnectingAfterAccepted =>
      CallState.ReconnectingAfterAccepted
    | (CallState.ConnectingAfterAccepted | CallState.ConnectedBeforeAccepted
       | CallState.ReconnectingAfterAccepted), ConnectionState.ConnectedAndAccepted =>
      CallState.ConnectedAndAccepted
    | _, _ => st
    end
  | _ => st
  end.

(** Handling an event moves along one arrow at most. *)
Lemma handle_event_moves env st ev :
  is_terminate ev = false ->
  respects (onk (same (state (Conn := Conn)))) (handle_event env st ev) \/
  edge st (target st ev) /\ respects (onk (to_state (target st ev))) (handle_event env st ev).
Proof.
  intros Hev.
  destruct ev as [| |h|cfg ali| | |r|r|[h d]|[cst|ss|h|r| | |a b|b] d|e d|e| | |];
    try discriminate Hev; try destruct cst; destruct st;
    solve [left; call_respects
          |right; cbn [target]; split; [by constructor|call_respects]].
Qed.
(** ** The queue *)

(** Only events other than [Terminate] are added, and none when the queue is
    closed; the flags of the termination stay. *)
Definition quiet (c c' : Call Conn) : Prop :=
  fsm_connected c' = fsm_connected c /\ terminate_complete c' = terminate_complete c /\
  exists l, fsm_queue c' = fsm_queue c ++ l /\ Forall (fun ev => is_terminate ev = false) l /\
    (fsm_connected c = false -> l = []).

#[local] Instance quiet_preorder : PreOrder quiet.
Proof.
  split.
  - intros c. split_and!; [done..|]. exists []. by rewrite app_nil_r.
  - intros c1 c2 c3 (Hc & Ht & l & Hq & Hl & Hn) (Hc' & Ht' & l' & Hq' & Hl' & Hn').
    split_and!; [congruence..|]. exists (l ++ l'). rewrite Hq', Hq, app_assoc.
    split_and!; [done|by apply Forall_app|]. intros Hf. rewrite Hn, Hn'; [done|congruence|done].
Qed.

Lemma quiet_same c c' :
  fsm_connected c' = fsm_connected c -> terminate_complete c' = terminate_complete c ->
  fsm_queue c' = fsm_queue c -> quiet c c'.
Proof. intros Hc Ht Hq. split_and!; [done..|]. exists []. by rewrite app_nil_r. Qed.

Lemma quiet_inject ev : is_terminate ev = false -> respects quiet (inject_event (Conn := Conn) ev).
Proof.
  intros Hev c. unfold inject_event, get, mbind, ST_bind.
  destruct (fsm_connected c) eqn:Hc; [|by apply quiet_same].
  destruct (_ <? _); [|by apply quiet_same].
  split_and!; [done..|]. exists [ev]. split_and!; [done|by constructor|]. congruence.
Qed.

#[local] Hint Extern 2 (respects quiet (modify _)) =>
  apply respects_modify; intros; apply quiet_same; reflexivity : respects.
#[local] Hint Extern 2 (respects quiet (on_connection _ _)) =>
  apply respects_on_connection; [typeclasses eauto|intros; apply quiet_same; reflexivity] : respects.
#[local] Hint Extern 2 (respects quiet (inject_event _)) =>
  apply quiet_inject; reflexivity : respects.

Lemma quiet_worker_task env t : respects quiet (run_worker_task env t).
Proof. destruct t; call_respects. Qed.

Lemma quiet_notify_task env t : respects quiet (run_notify_task env t).
Proof. destruct t; call_respects. Qed.

Lemma quiet_api env a : respects quiet (run_api env a).
Proof. destruct a; call_respects. Qed.

Lemma quiet_terminate_end env : respects quiet (terminate_end env).
Proof. call_respects. Qed.

Lemma quiet_handle_event env st ev :
  is_terminate ev = false -> respects (onk quiet) (handle_event env st ev).
Proof. destruct ev; intros Hev; try discriminate Hev; call_respects. Qed.

Lemma call_recv_spec f f' st ev :
  recv f = Some (f', (st, ev)) ->
  st = state (call f) /\ exists q, fsm_queue (call f) = ev :: q /\
    f' = f <| call := (call f) <| fsm_queue := q |> |>.
Proof.
  unfold recv. destruct (fsm_queue (call f)) as [|ev0 q]; [done|]. intros [= <- <- <-].
  split; [done|]. by exists q.
Qed.

(** ** The invariant of [terminate] *)

Definition terminates (q : list CallEvent.CallEvent) : nat := length (List.filter is_terminate q).
#[global] Arguments terminates : simpl never.

Lemma terminates_app q q' : terminates (q ++ q') = (terminates q + terminates q')%nat.
Proof. unfold terminates. by rewrite List.filter_app, length_app. Qed.

Lemma terminates_none l : Forall (fun ev => is_terminate ev = false) l -> terminates l = 0%nat.
Proof. unfold terminates. induction 1 as [|ev l Hev _ IH]; cbn; [done|]. by rewrite Hev. Qed.

Lemma quiet_terminates c c' : quiet c c' -> terminates (fsm_queue c') = terminates (fsm_queue c).
Proof.
  intros (_ & _ & l & -> & Hl & _). rewrite terminates_app, (terminates_none l); [lia|done].
Qed.

(** Stopped threads, without work. *)
Definition halted (f : Fsm Conn) : Prop :=
  worker f = [] /\ worker_stopped f = true /\ notify f = [] /\ notify_stopped f = true.
Definition stays_halted (f f' : Fsm Conn) : Prop := halted f -> halted f'.

(** The situations of a call, by the phase of [terminate]. *)
Definition situation (s : Sys Conn) : Prop :=
  let c := call (fsm s) in
  let open := fsm_connected c = true /\ terminate_complete c = false in
  let answered :=
    state c = CallState.Terminated /\ terminates (fsm_queue c) = 0%nat /\
    fsm_connected c = false /\ terminate_complete c = true /\ halted (fsm s) in
  match phase s with
  | NotCalled => state c <> CallState.Terminated /\ terminates (fsm_queue c) = 0%nat /\ open
  | Waiting =>
    state c = CallState.Terminating /\ terminates (fsm_queue c) = 1%nat /\ open \/ answered
  | Failed => state c = CallState.Terminating /\ terminates (fsm_queue c) = 0%nat /\ open
  | Returned => answered
  end.

Record KInv (s : Sys Conn) : Prop := mkKInv {
  kinv_taken : taken s = None;
  kinv_situation : situation s;
}.

#[local] Instance stays_halted_preorder : PreOrder stays_halted.
Proof. split; unfold stays_halted; [by intros f|]. intros f1 f2 f3. auto. Qed.

Lemma stays_halted_on_call {A} (m : ST (Call Conn) Error A) : respects stays_halted (on_call m).
Proof. intros f. unfold on_call, stays_halted, halted. by destruct (m (call f)). Qed.

#[local] Hint Resolve stays_halted_on_call : respects.
#[local] Hint Extern 2 (respects stays_halted (modify _)) =>
  apply respects_modify; intros f (Hw & Hws & Hn & Hns); unfold halted; cbn;
    rewrite ?Hws, ?Hns; cbn; auto : respects.

Lemma stays_halted_handle_event env st ev : respects stays_halted (handle_event env st ev).
Proof. intros. autounfold with callfsm_ops. solve_respects. Qed.

Lemma call_handle_event_terminating env st ev :
  CallState.terminating_or_terminated st = true -> is_terminate ev = false ->
  respects (onk (same (state (Conn := Conn)))) (handle_event env st ev).
Proof.
  intros Hst Hev. unfold handle_event. rewrite Hst.
  destruct ev; try discriminate Hev; call_respects.
Qed.

Lemma situation_keep s s' :
  situation s -> phase s' = phase s -> stays_halted (fsm s) (fsm s') ->
  fsm_connected (call (fsm s')) = fsm_connected (call (fsm s)) ->
  terminate_complete (call (fsm s')) = terminate_complete (call (fsm s)) ->
  terminates (fsm_queue (call (fsm s'))) = terminates (fsm_queue (call (fsm s))) ->
  (state (call (fsm s')) = state (call (fsm s)) \/
   phase s = NotCalled /\ state (call (fsm s')) <> CallState.Terminated) ->
  situation s'.
Proof.
  unfold situation, stays_halted. intros Hs Hp Hh Hc Ht Hq Hst. rewrite Hp, Hc, Ht, Hq.
  destruct (phase s); destruct Hst as [-> |[Heq Hne]]; try discriminate Heq; intuition.
Qed.

Lemma edge_not_terminated st st' :
  edge st st' -> CallState.terminating_or_terminated st = false -> st' <> CallState.Terminated.
Proof. by destruct 1. Qed.

(** An event other than [Terminate], as a step. *)
Lemma handled_state env st ev f :
  is_terminate ev = false ->
  let st' := state (call (handle_event env st ev f).1) in
  st' = state (call f) \/ edge st st' /\ CallState.terminating_or_terminated st = false.
Proof.
  intros Hev. cbn zeta.
  destruct (CallState.terminating_or_terminated st) eqn:Htt.
  { left. exact (call_handle_event_terminating env _ ev Htt Hev f). }
  destruct (handle_event_moves env st ev Hev) as [Hs|[He Hs]]; specialize (Hs f).
  - left. exact Hs.
  - destruct Hs as [Hs|Hs]; [by left|]. right. by rewrite Hs.
Qed.

Lemma event_state env st ev f :
  is_terminate ev = false -> st = state (call f) ->
  let st' := state (call (handle_event env st ev f).1) in
  st' = st \/ edge st st' /\ CallState.terminating_or_terminated st = false.
Proof. intros Hev ->. by apply handled_state. Qed.

Lemma situation_terminating s :
  situation s -> phase s <> NotCalled ->
  CallState.terminating_or_terminated (state (call (fsm s))) = true.
Proof.
  unfold situation. intros Hs Hp.
  destruct (phase s); [done|destruct Hs as [[-> _]|[-> _]]|destruct Hs as [-> _]..]; done.
Qed.

Lemma event_situation env s f st ev :
  situation s -> recv (fsm s) = Some (f, (st, ev)) ->
  situation (s <| fsm := (handle_event env st ev f).1 |>).
Proof.
  intros Hs (Hst & q & Hq & Hf)%call_recv_spec.
  assert (state (call f) = state (call (fsm s)) /\ fsm_queue (call f) = q /\
    fsm_connected (call f) = fsm_connected (call (fsm s)) /\
    terminate_complete (call f) = terminate_complete (call (fsm s)) /\
    stays_halted (fsm s) f) as (Hst1 & Hq1 & Hc1 & Ht1 & Hh1)
    by (subst f; split_and!; [done..|intros Hh; exact Hh]).
  destruct (is_terminate ev) eqn:Hev.
  - destruct ev; try discriminate Hev. unfold situation in Hs. rewrite Hq in Hs. unfold terminates in Hs. cbn in Hs.
    unfold situation. cbn [phase set_field]. destruct (phase s); cbn; try lia.
    destruct Hs as [(_ & Hq0 & _)|(_ & Hq0 & _)]; [|lia]. right.
    assert (fsm_queue (call (handle_terminate f).1) = q) as -> by done.
    split_and!; try done. unfold terminates. lia.
  - pose proof (quiet_handle_event env st ev Hev f) as Hqu.
    destruct (event_state env st ev f Hev ltac:(congruence)) as [Hs'|[He Htt]];
      (eapply (situation_keep s); [done|done| | | | |]); cbn [fsm set_field].
    all: try (etrans; [exact Hh1|apply stays_halted_handle_event]).
    all: try (destruct Hqu as (Hc & Ht & _); congruence).
    all: try (rewrite (quiet_terminates _ _ Hqu), Hq1, Hq; unfold terminates; cbn; by rewrite Hev).
    + left. congruence.
    + right. split; [|by eapply edge_not_terminated].
      apply dec_stable. intros Hp.
      rewrite Hst, (situation_terminating s Hs Hp) in Htt. done.
Qed.

(** ** Steps *)

(** A step that leaves the phase, changes the call by code that is [quiet] and does
    not touch the state. *)
Lemma KInv_quiet s s' :
  KInv s -> taken s' = taken s -> phase s' = phase s -> quiet (call (fsm s)) (call (fsm s')) ->
  same state (call (fsm s)) (call (fsm s')) -> stays_halted (fsm s) (fsm s') -> KInv s'.
Proof.
  intros [Htk Hs] Htk' Hp Hq Hst Hh. split; [congruence|].
  pose proof (quiet_terminates _ _ Hq). destruct Hq as (Hc & Ht & _).
  eapply situation_keep; try done. by left.
Qed.

Lemma terminate_begin_spec c :
  let '(c', r) := terminate_begin c in
  state c' = CallState.Terminating /\ fsm_connected c' = fsm_connected c /\
  terminate_complete c' = terminate_complete c /\
  (fsm_connected c = true -> terminates (fsm_queue c') =
    (terminates (fsm_queue c) + if is_ok r then 1 else 0)%nat).
Proof.
  unfold terminate_begin, Call.set_state, modify, inject_event, get, mbind, ST_bind. cbn.
  destruct (fsm_connected c) eqn:Hc; cbn; [|by split_and!].
  destruct (_ <? _); cbn [fst snd]; split_and!; try done; intros _; cbn.
  by rewrite terminates_app.
Qed.

Lemma terminate_connections_never_fails env :
  never_fails (terminate_connections (Conn := Conn) env).
Proof.
  unfold terminate_connections, disconnect_incoming_media, terminate_parent.
  repeat match goal with
  | |- never_fails (_ ≫= _) => apply never_fails_bind; [|intros ?]
  | |- never_fails (attempt _) => apply never_fails_attempt
  | |- never_fails (for_each _ _) => apply never_fails_for_each; intros ?
  | |- never_fails (match ?x with _ => _ end) => destruct x
  | |- never_fails _ => done
  end.
Qed.

Lemma terminate_end_state env c : state (terminate_end env c).1 = CallState.Terminated.
Proof.
  unfold terminate_end, Call.set_state, modify, mbind, ST_bind.
  pose proof (terminate_connections_never_fails env c) as Ht.
  by destruct (terminate_connections env c) as [c' [u|e]].
Qed.

Lemma KInv_terminate_begin s s' :
  KInv s -> act ATerminateBegin s = Some s' -> KInv s'.
Proof.
  intros [Htk Hs]. unfold act. case_bool_decide as Hp; [|done].
  unfold situation in Hs. rewrite Hp in Hs. destruct Hs as (Hst & Hq & Hc & Ht).
  pose proof (terminate_begin_spec (call (fsm s))) as Hb.
  destruct (terminate_begin (call (fsm s))) as [c' r]. destruct Hb as (Hst' & Hc' & Ht' & Hq').
  intros [= <-]. specialize (Hq' Hc). rewrite Hq in Hq'. split; [done|].
  unfold situation. cbn. destruct (is_ok r); [left|]; rewrite Hst', Hq', Hc', Ht'; done.
Qed.

Lemma KInv_terminate_end env s s' :
  KInv s -> act (ATerminateEnd env) s = Some s' -> KInv s'.
Proof.
  intros [Htk Hs]. unfold act. case_bool_decide as Hp; [|done].
  destruct (terminate_complete (call (fsm s))) eqn:Htc; [|done]. intros [= <-]. split; [done|].
  pose proof (quiet_terminate_end env (call (fsm s))) as Hq.
  pose proof (quiet_terminates _ _ Hq) as Hq'. destruct Hq as (Hc' & Ht' & _).
  unfold situation in *. rewrite Hp in Hs. cbn. rewrite terminate_end_state, Hq', Hc', Ht'.
  destruct Hs as [(_ & _ & _ & Hf)|(_ & Hs)]; [congruence|]. split; [done|]. exact Hs.
Qed.

Lemma halted_with_call s c : stays_halted (fsm s) (fsm (with_call s c)).
Proof. intros Hh. exact Hh. Qed.
#[local] Hint Resolve halted_with_call : core.

(** A connection acts: the call is not concerned. *)
Lemma act_connection_call s a d s' :
  act (AConnection d a) s = Some s' ->
  exists m, s' = with_call s ((call (fsm s)) <| connection_map := m |>).
Proof.
  unfold act. destruct (_ !! d) as [k|]; [|done]. cbn.
  destruct (conn_act a k) as [k'|]; [|done]. intros [= <-]. by eexists.
Qed.

Lemma act_parent_call s a s' :
  act (AParent a) s = Some s' ->
  exists o, s' = with_call s ((call (fsm s)) <| forking := o |>).
Proof.
  unfold act. destruct (forking _) as [f|]; [|done]. cbn.
  destruct (conn_act a _) as [k'|]; [|done]. intros [= <-]. by eexists.
Qed.

Lemma send_hangup_state h c :
  state (inject_send_hangup_via_rtp_data_to_all h c).1 = CallState.Terminating.
Proof.
  unfold inject_send_hangup_via_rtp_data_to_all, Call.set_state, modify, inject_event, get,
    mbind, ST_bind. cbn. by repeat case_match.
Qed.

Lemma KInv_api env a s s' : KInv s -> act (AApi env a) s = Some s' -> KInv s'.
Proof.
  intros HI. unfold act. destruct (api_allowed _ _ _) eqn:Hok; [|done]. intros [= <-].
  pose proof (quiet_api env a (call (fsm s))) as Hq.
  destruct (is_send_hangup a) eqn:Ha.
  - destruct a; try discriminate Ha. cbn in Hok. apply bool_decide_eq_true in Hok.
    destruct HI as [Htk Hs]. split; [done|].
    pose proof (quiet_terminates _ _ Hq). destruct Hq as (Hc & Ht & _).
    apply (situation_keep s); try done. right. split; [done|].
    cbn [fsm with_call set_field call run_api]. by rewrite send_hangup_state.
  - apply (KInv_quiet s); try done. by apply state_api.
Qed.

Lemma KInv_step a s s' : KInv s -> atomic a = true -> act a s = Some s' -> KInv s'.
Proof.
  intros HI Hat. destruct a as [| |env|env|env|d a|a|env a| |env]; try discriminate Hat.
  - destruct HI as [Htk Hs]. unfold act. rewrite Htk.
    destruct (recv (fsm s)) as [[f [st ev]]|] eqn:Hr; [|done]. intros [= <-].
    split; [done|]. by apply event_situation.
  - unfold act. destruct (worker (fsm s)) as [|t w] eqn:Hw; [done|]. intros [= <-].
    apply (KInv_quiet s); try done; [apply quiet_worker_task|apply state_worker_task|].
    intros [Hnil _]. congruence.
  - unfold act. destruct (notify (fsm s)) as [|t w] eqn:Hw; [done|]. intros [= <-].
    apply (KInv_quiet s); try done; [apply quiet_notify_task|apply state_notify_task|].
    intros (_ & _ & Hnil & _). congruence.
  - intros [m ->]%act_connection_call. apply (KInv_quiet s); try done. by apply quiet_same.
  - intros [f ->]%act_parent_call. apply (KInv_quiet s); try done. by apply quiet_same.
  - by apply KInv_api.
  - by apply KInv_terminate_begin.
  - by apply KInv_terminate_end.
Qed.

Lemma KInv_reachable id dir mt local s : reachable (Call.new id dir mt local) s -> KInv s.
Proof.
  induction 1 as [|s a s' Hr IH Hat Hact]; [by split|]. by eapply KInv_step.
Qed.

Lemma event_edge env s f st ev :
  situation s -> recv (fsm s) = Some (f, (st, ev)) ->
  let st' := state (call (handle_event env st ev f).1) in
  st' = state (call (fsm s)) \/ edge (state (call (fsm s))) st'.
Proof.
  intros Hs (Hst & q & Hq & Hf)%call_recv_spec. rewrite <- Hst.
  destruct (is_terminate ev) eqn:Hev.
  - destruct ev; try discriminate Hev. unfold situation in Hs.
    rewrite Hq in Hs. unfold terminates in Hs; cbn in Hs. rewrite <- Hst in Hs. right. cbn.
    assert (st = CallState.Terminating) as ->; [|constructor].
    destruct (phase s); try lia. destruct Hs as [[? _]|(_ & ? & _)]; [done|lia].
  - destruct (event_state env st ev f Hev) as [?|[? _]]; [by subst f|by left|by right].
Qed.

Lemma terminating_edge st :
  st <> CallState.Terminated -> CallState.Terminating = st \/ edge st CallState.Terminating.
Proof. destruct st; auto with ringrtc; right; by constructor. Qed.

Lemma not_terminated s :
  situation s -> phase s = NotCalled -> state (call (fsm s)) <> CallState.Terminated.
Proof. unfold situation. intros Hs Hp. rewrite Hp in Hs. apply Hs. Qed.

Lemma step_edge a s s' :
  KInv s -> atomic a = true -> act a s = Some s' ->
  state (call (fsm s')) = state (call (fsm s)) \/
  edge (state (call (fsm s))) (state (call (fsm s'))).
Proof.
  intros [Htk Hs] Hat. destruct a as [| |env|env|env|d a|a|env a| |env]; try discriminate Hat.
  - unfold act. rewrite Htk. destruct (recv (fsm s)) as [[f [st ev]]|] eqn:Hrc; [|done].
    intros [= <-]. by apply event_edge.
  - unfold act. destruct (worker (fsm s)) as [|t w]; [done|]. intros [= <-].
    left. apply state_worker_task.
  - unfold act. destruct (notify (fsm s)) as [|t w]; [done|]. intros [= <-].
    left. apply state_notify_task.
  - intros [m ->]%act_connection_call. by left.
  - intros [o ->]%act_parent_call. by left.
  - unfold act. destruct (api_allowed _ _ _) eqn:Hok; [|done]. intros [= <-].
    destruct (is_send_hangup a) eqn:Ha; [|left; by apply state_api].
    destruct a; try discriminate Ha. apply bool_decide_eq_true in Hok.
    cbn [fsm with_call set_field call run_api]. rewrite send_hangup_state.
    by apply terminating_edge, not_terminated.
  - unfold act. case_bool_decide as Hp; [|done].
    pose proof (terminate_begin_spec (call (fsm s))) as Hb.
    destruct (terminate_begin (call (fsm s))) as [c' r]. destruct Hb as (Hst & _).
    intros [= <-]. cbn. rewrite Hst. by apply terminating_edge, not_terminated.
  - unfold act. case_bool_decide as Hp; [|done].
    destruct (terminate_complete (call (fsm s))) eqn:Htc; [|done]. intros [= <-].
    cbn. rewrite terminate_end_state. unfold situation in Hs. rewrite Hp in Hs.
    destruct Hs as [(-> & _)|(-> & _)]; [right; constructor|by left].
Qed.

(** ** Between taking an event and handling it *)

(** The events the state machine has not handled yet. *)
Definition pending (s : Sys Conn) : list CallEvent.CallEvent :=
  match taken s with Some (_, ev) => [ev] | None => [] end ++ fsm_queue (call (fsm s)).

(** As [situation], but the state may be one that a handler wrote over [Terminating]. *)
Definition wide (s : Sys Conn) : Prop :=
  let c := call (fsm s) in
  let open n :=
    state c <> CallState.Terminated /\ terminates (pending s) = n /\
    fsm_connected c = true /\ terminate_complete c = false in
  let answered :=
    state c = CallState.Terminated /\ terminates (pending s) = 0%nat /\ terminate_complete c = true in
  match phase s with
  | NotCalled | Failed => open 0%nat
  | Waiting => open 1%nat \/ answered
  | Returned => answered
  end.

(** The state that was read with the event: it is still the state, or the call began to
    terminate since. *)
Definition read_before (s : Sys Conn) : Prop :=
  match taken s with
  | Some (st, _) =>
    st = state (call (fsm s)) \/
    state (call (fsm s)) = CallState.Terminating /\ CallState.terminating_or_terminated st = false
  | None => True
  end.

Definition WInv (s : Sys Conn) : Prop := wide s /\ read_before s.

(** Steps of code that neither the queue nor the state machine's thread is concerned with. *)
Lemma WInv_quiet s s' :
  WInv s -> taken s' = taken s -> phase s' = phase s -> quiet (call (fsm s)) (call (fsm s')) ->
  (state (call (fsm s')) = state (call (fsm s)) \/
   phase s = NotCalled /\ state (call (fsm s')) = CallState.Terminating) -> WInv s'.
Proof.
  intros [Hw Hb] Htk Hp Hq Hst. pose proof (quiet_terminates _ _ Hq) as Hn. destruct Hq as (Hc & Ht & _).
  assert (terminates (pending s') = terminates (pending s)) as Hpend
    by (unfold pending; rewrite Htk, !terminates_app; lia).
  unfold WInv, wide, read_before in *. rewrite Htk, Hp, Hc, Ht, Hpend.
  destruct Hst as [->|[Hnc ->]]; [done|]. rewrite Hnc in *. destruct Hw as (Hne & Hw). split; [done|].
  destruct (taken s) as [[st ev]|]; [|done].
  destruct (CallState.terminating_or_terminated st) eqn:Htt; [left|by right].
  destruct Hb as [->|[_ ?]]; [|done]. by destruct (state (call (fsm s))).
Qed.

Lemma WInv_recv s s' : WInv s -> act ARecv s = Some s' -> WInv s'.
Proof.
  intros [Hw _]. unfold act. destruct s as [f [t|] p]; [done|]. cbn.
  destruct (recv f) as [[f' [st ev]]|] eqn:Hr; [|done]. intros [= <-].
  apply call_recv_spec in Hr as (-> & q & Hq & ->). unfold WInv, wide, pending, read_before in *. cbn in *.
  rewrite Hq in Hw. split; [exact Hw|by left].
Qed.

Lemma WInv_handle env s s' : WInv s -> act (AHandle env) s = Some s' -> WInv s'.
Proof.
  intros [Hw Hb]. unfold act. destruct s as [f [[st ev]|] p]; [|done]. cbn. intros [= <-].
  unfold WInv, wide, pending, read_before in *. cbn in *. destruct (is_terminate ev) eqn:Hev.
  - destruct ev; try discriminate Hev. unfold terminates in *. cbn in *. split; [|done].
    destruct p; try lia. destruct Hw as [(_ & Hn & _)|(_ & Hn & _)]; [right|lia]. split_and!; [done| |done]. injection Hn as Hn. exact Hn.
  - pose proof (quiet_handle_event env st ev Hev f) as Hqu. pose proof (quiet_terminates _ _ Hqu) as Hn.
    destruct Hqu as (Hc & Ht & _). unfold onk in *.
    assert (terminates (ev :: fsm_queue (call f)) = terminates (fsm_queue (call f))) as Hq
      by (unfold terminates; cbn; by rewrite Hev).
    rewrite Hq in Hw. rewrite Hc, Ht, Hn. split; [|done].
    destruct (handled_state env st ev f Hev) as [->|[He Htt]]; [exact Hw|].
    pose proof (edge_not_terminated _ _ He Htt) as Hne.
    assert (state (call f) <> CallState.Terminated) as Hne'.
    { destruct Hb as [->|[-> _]]; [|done]. intros Hs. rewrite Hs in Htt. done. }
    destruct p; naive_solver.
Qed.

Lemma WInv_step a s s' : WInv s -> act a s = Some s' -> WInv s'.
Proof.
  intros HW. destruct a as [| |env|env|env|d a|a|env a| |env].
  - by apply WInv_recv.
  - by apply WInv_handle.
  - intros (s1 & H1 & H2)%event_split. eapply WInv_handle; [by eapply WInv_recv|done].
  - unfold act. destruct (worker (fsm s)) as [|t w]; [done|]. intros [= <-].
    apply (WInv_quiet s); try done; [apply quiet_worker_task|left; apply state_worker_task].
  - unfold act. destruct (notify (fsm s)) as [|t w]; [done|]. intros [= <-].
    apply (WInv_quiet s); try done; [apply quiet_notify_task|left; apply state_notify_task].
  - intros [m ->]%act_connection_call. apply (WInv_quiet s); try done; [by apply quiet_same|by left].
  - intros [o ->]%act_parent_call. apply (WInv_quiet s); try done; [by apply quiet_same|by left].
  - unfold act. destruct (api_allowed _ _ _) eqn:Hok; [|done]. intros [= <-].
    apply (WInv_quiet s); try done; [apply quiet_api|].
    destruct (is_send_hangup a) eqn:Ha; [right|left; by apply state_api].
    destruct a; try discriminate Ha. apply bool_decide_eq_true in Hok. split; [done|apply send_hangup_state].
  - unfold act. case_bool_decide as Hp; [|done]. destruct HW as [Hw Hb].
    pose proof (terminate_begin_spec (call (fsm s))) as Hspec.
    destruct (terminate_begin (call (fsm s))) as [c' r]. destruct Hspec as (Hst & Hc & Ht & Hq).
    intros [= <-]. unfold WInv, wide, pending, read_before in *. cbn. rewrite Hp in Hw.
    destruct Hw as (Hne & Hn & Hcn & Htc). rewrite terminates_app in Hn |- *. rewrite Hst, Hc, Ht, (Hq Hcn).
    split.
    + destruct (is_ok r); [left|]; (split_and!; [done|lia|done|done]).
    + destruct (taken s) as [[st ev]|]; [|done].
      destruct (CallState.terminating_or_terminated st) eqn:Htt; [left|by right].
      destruct Hb as [->|[_ ?]]; [|done]. by destruct (state (call (fsm s))).
  - unfold act. case_bool_decide as Hp; [|done]. destruct HW as [Hw Hb].
    destruct (terminate_complete (call (fsm s))) eqn:Htc; [|done]. intros [= <-].
    pose proof (quiet_terminate_end env (call (fsm s))) as Hq. pose proof (quiet_terminates _ _ Hq) as Hn.
    destruct Hq as (_ & Ht & _). unfold WInv, wide, pending, read_before in *. cbn.
    rewrite Hp in Hw. rewrite terminate_end_state, Ht, Htc.
    destruct Hw as [(_ & _ & _ & ?)|(Hst & Hq & _)]; [congruence|]. rewrite terminates_app in Hq |- *. rewrite Hst in Hb.
    split; [split_and!; [done|lia|done]|]. destruct (taken s) as [[st ev]|]; [|done]. naive_solver.
Qed.

Lemma WInv_interleaved id dir mt local s : interleaved (Call.new id dir mt local) s -> WInv s.
Proof. induction 1 as [|s a s' _ IH Ha]; [done|by eapply WInv_step]. Qed.

(** An event is handled that was taken before the call began to terminate: the handler
    takes an arrow from the state that was read, over [Terminating]. *)
Definition overtaken (s s' : Sys Conn) : Prop :=
  exists st ev, taken s = Some (st, ev) /\ CallState.terminating_or_terminated st = false /\
    state (call (fsm s)) = CallState.Terminating /\ edge st (state (call (fsm s'))).

(** [Terminate] is handled; the caller of [terminate] waits for that. *)
Definition answered_now (s s' : Sys Conn) : Prop :=
  phase s = Waiting /\ terminate_complete (call (fsm s')) = true /\
  state (call (fsm s')) = CallState.Terminated.

Definition moved (s s' : Sys Conn) : Prop :=
  state (call (fsm s')) = state (call (fsm s)) \/
  edge (state (call (fsm s))) (state (call (fsm s'))).

Lemma handle_moved env s s' :
  WInv s -> act (AHandle env) s = Some s' -> moved s s' \/ overtaken s s' \/ answered_now s s'.
Proof.
  intros [Hw Hb]. unfold act. destruct s as [f [[st ev]|] p]; [|done]. cbn. intros [= <-].
  destruct (is_terminate ev) eqn:Hev.
  - destruct ev; try discriminate Hev. right; right. unfold wide, pending, terminates in Hw. cbn in Hw.
    destruct p; try lia. by split.
  - unfold moved, overtaken. cbn. destruct (handled_state env st ev f Hev) as [->|[He Htt]]; [by left; left|].
    destruct Hb as [Hs|[Hs _]]; cbn in Hs; [left; right; by rewrite <- Hs|]. right; left. by exists st, ev.
Qed.

(** The steps of all threads but that of the state machine. *)
Definition of_others (a : action Conn) : bool :=
  match a with ARecv | AHandle _ | AEvent _ => false | _ => true end.

Lemma others_moved a s s' :
  of_others a = true -> WInv s -> act a s = Some s' -> moved s s' /\ taken s' = taken s.
Proof.
  intros Ha [Hw _]. assert (phase s = NotCalled -> state (call (fsm s')) = CallState.Terminating -> moved s s') as Hterm.
  { intros Hp Hs. unfold wide in Hw. rewrite Hp in Hw. unfold moved. rewrite Hs. apply terminating_edge. tauto. }
  destruct a as [| |env|env|env|d a|a|env a| |env]; try discriminate Ha.
  - unfold act. destruct (worker (fsm s)) as [|t w]; [done|]. intros [= <-]. split; [|done]. left. apply state_worker_task.
  - unfold act. destruct (notify (fsm s)) as [|t w]; [done|]. intros [= <-]. split; [|done]. left. apply state_notify_task.
  - intros [m ->]%act_connection_call. split; [by left|done].
  - intros [o ->]%act_parent_call. split; [by left|done].
  - unfold act. destruct (api_allowed _ _ _) eqn:Hok; [|done]. intros [= <-]. split; [|done].
    destruct (is_send_hangup a) eqn:Hh; [|left; by apply state_api].
    destruct a; try discriminate Hh. apply bool_decide_eq_true in Hok. apply Hterm; [done|apply send_hangup_state].
  - unfold act. case_bool_decide as Hp; [|done]. pose proof (terminate_begin_spec (call (fsm s))) as Hspec.
    destruct (terminate_begin (call (fsm s))) as [c' r]. destruct Hspec as (Hst & _). intros [= <-]. split; [|done]. by apply Hterm.
  - unfold act. case_bool_decide as Hp; [|done]. destruct (terminate_complete (call (fsm s))) eqn:Htc; [|done].
    intros [= <-]. split; [|done]. left. unfold wide in Hw. rewrite Hp in Hw. cbn. rewrite terminate_end_state.
    destruct Hw as [(_ & _ & _ & ?)|(Hst & _)]; congruence.
Qed.

Lemma step_moved a s s' :
  WInv s -> act a s = Some s' -> moved s s' \/ overtaken s s' \/ answered_now s s'.
Proof.
  intros HW. destruct (of_others a) eqn:Ho; [left; by eapply others_moved|].
  destruct a as [| |env|env|env|d a|a|env a| |env]; try discriminate Ho.
  - unfold act. destruct (taken s), (recv (fsm s)) as [[f [st ev]]|] eqn:Hr; try done. intros [= <-].
    apply call_recv_spec in Hr as (_ & q & _ & ->). by left; left.
  - by apply handle_moved.
  - intros (s1 & H1 & H2)%event_split. pose proof (WInv_recv _ _ HW H1) as HW1. unfold act in H1.
    destruct (taken s), (recv (fsm s)) as [[f [st ev]]|] eqn:Hr; try done. injection H1 as <-.
    apply call_recv_spec in Hr as (-> & q & _ & ->).
    destruct (handle_moved _ _ _ HW1 H2) as [Hm|[(st & ev' & [= <- <-] & Htt & Hs & _)|Ha]]; [by left| |by right; right].
    cbn in Hs. rewrite Hs in Htt. done.
Qed.

(** C10. Whatever the threads, the connections, the call manager and the timer do and in
    whatever order, also between the moment when the state machine takes an event with the
    state of the call and the moment when it handles it: every step of a call leaves its
    state or follows one arrow of the diagram, with two exceptions.  An event that was taken
    before the call began to terminate is handled with the state that was read, so that an
    arrow from that state is taken although the call is [Terminating] by now; and [Terminate] ends
    the call from any state.  A call whose [terminate] returned is [Terminated].  If no thread comes
    between taking and handling events, there are no exceptions. *)
Theorem call_states_follow_diagram id dir mt local s a s' :
  interleaved (Call.new id dir mt local) s -> act a s = Some s' ->
  (moved s s' \/ overtaken s s' \/ answered_now s s') /\
  (phase s' = Returned -> state (call (fsm s')) = CallState.Terminated) /\
  (reachable (Call.new id dir mt local) s -> atomic a = true -> moved s s').
Proof.
  intros Hi%WInv_interleaved Hact. split_and!; [by eapply step_moved| |].
  - destruct (WInv_step a s s' Hi Hact) as [Hw _]. intros Hp. unfold wide in Hw. rewrite Hp in Hw. apply Hw.
  - intros HI%KInv_reachable Hat. by eapply step_edge.
Qed.

End Diagram.
End CallDiagram.
