(* ===== verification/CallLive.v ===== *)
(** * The end of a call

    [terminate] returns, releases every connection, and the call is silent ever
    after. *)

From S2P Require Import Prelude States Signaling ConnectionTypes Connection ConnectionStart.
From S2P Require Import Call CallFsm CallSystem CallDiagram.
Local Open Scope Z_scope.
Local Open Scope ringrtc_scope.

Module CallLive.
Import Call CallFsm CallSystem CallDiagram.

Section Live.
Context `{SrtpCrypto} {Conn : Type} `{!ConnectionApi Conn}.
Implicit Types (c : Call Conn) (s : Sys Conn).

(** ** Walks over the map of connections *)

Lemma walk_order_perm env c : walk_order env c ≡ₚ (map_to_list (connection_map c)).*1.
Proof. unfold walk_order. by case_bool_decide. Qed.

Lemma elem_of_walk_order env c d :
  d ∈ walk_order env c <-> is_Some (connection_map c !! d).
Proof.
  rewrite walk_order_perm, list_elem_of_fmap. split.
  - intros ([d' k] & -> & Hd). apply elem_of_map_to_list in Hd. by exists k.
  - intros [k Hk]. exists (d, k). split; [done|]. by apply elem_of_map_to_list.
Qed.

Lemma walk_order_NoDup env c : NoDup (walk_order env c).
Proof. rewrite walk_order_perm. apply NoDup_fst_map_to_list. Qed.

(** The connections of the devices [ks] were terminated and let go of, the others
    are as before. *)
Definition released (env : CallEnv) (ks : list DeviceId) (c c' : Call Conn) : Prop :=
  (forall d, connection_map c' !! d = if bool_decide (d ∈ ks) then None else connection_map c !! d) /\
  (forall k, k ∈ dropped c -> k ∈ dropped c') /\
  (forall d k, d ∈ ks -> connection_map c !! d = Some k ->
    (conn_terminate (env_conn env) k).1 ∈ dropped c').

Lemma released_nil env c : released env [] c c.
Proof.
  split_and!; [intros d; by rewrite bool_decide_false by apply not_elem_of_nil|done|].
  by intros d k Hd%elem_of_nil.
Qed.

Lemma released_cons env d ks c c1 c2 :
  d ∉ ks -> released env [d] c c1 -> released env ks c1 c2 -> released env (d :: ks) c c2.
Proof.
  intros Hd (Hm1 & Hd1 & Ht1) (Hm2 & Hd2 & Ht2). split_and!.
  - intros x. rewrite Hm2, Hm1. repeat case_bool_decide; set_solver.
  - auto.
  - intros x k Hx Hk. apply elem_of_cons in Hx as [->|Hx];
      [apply Hd2, (Ht1 d); set_solver|].
    apply (Ht2 x); [done|]. rewrite Hm1, bool_decide_false; [done|set_solver].
Qed.

Lemma released_for_each env (body : DeviceId -> ST (Call Conn) Error unit)
    (sel : DeviceId -> bool) ks c :
  NoDup ks ->
  (forall d c1, d ∈ ks -> connection_map c1 !! d = connection_map c !! d ->
    released env (if sel d then [d] else []) c1 (body d c1).1 /\ is_ok (body d c1).2 = true) ->
  released env (List.filter sel ks) c (for_each ks body c).1.
Proof.
  revert c. induction ks as [|d ks IH]; intros c Hnd Hb; cbn; [apply released_nil|].
  apply NoDup_cons in Hnd as [Hd Hnd].
  destruct (Hb d c) as [Hr Hok]; [apply elem_of_cons; by left|done|].
  unfold mbind, ST_bind. destruct (body d c) as [c1 [u|e]]; [|done]. cbn in Hr.
  assert (released env (List.filter sel ks) c1 (for_each ks body c1).1) as Hrest.
  { apply IH; [done|]. intros x c2 Hx Hm. apply Hb; [apply elem_of_cons; by right|]. rewrite Hm.
    destruct Hr as (Hm1 & _). rewrite Hm1. case_bool_decide as Hin; [|done].
    destruct (sel d); [|by apply elem_of_nil in Hin].
    by apply list_elem_of_singleton in Hin as ->. }
  destruct (sel d).
  - eapply released_cons; [|done|done].
    rewrite list_elem_of_In, List.filter_In, <- list_elem_of_In. tauto.
  - destruct Hr as (Hm1 & Hd1 & _), Hrest as (Hm2 & Hd2 & Ht2). split_and!.
    + intros x. rewrite Hm2. case_bool_decide; [done|]. rewrite Hm1.
      by rewrite bool_decide_false by apply not_elem_of_nil.
    + auto.
    + intros x k Hx Hk. apply (Ht2 x); [done|]. rewrite Hm1.
      by rewrite bool_decide_false by apply not_elem_of_nil.
Qed.

Lemma remove_and_terminate_released env d c :
  let '(c', _) := remove_and_terminate env d c in
  released env [d] c c' /\ same forking c c'.
Proof.
  unfold remove_and_terminate, gets, mbind, ST_bind, modify.
  destruct (connection_map c !! d) as [k|] eqn:Hk; cbn.
  - destruct (conn_terminate (env_conn env) k) as [k' r] eqn:Ht. cbn. split; [|done].
    split_and!; cbn.
    + intros x. case_bool_decide as Hx.
      * apply list_elem_of_singleton in Hx as ->. apply lookup_delete_eq.
      * apply lookup_delete_ne. intros ->. by apply Hx, list_elem_of_singleton.
    + intros x Hx. apply elem_of_app. by left.
    + intros x k0 Hx Hk0. apply list_elem_of_singleton in Hx as ->. simplify_eq.
      rewrite Ht. apply elem_of_app. right. by apply list_elem_of_singleton.
  - split; [|done]. split_and!; [|done|].
    + intros x. case_bool_decide as Hx; [|done]. by apply list_elem_of_singleton in Hx as ->.
    + intros x k0 Hx Hk0. apply list_elem_of_singleton in Hx as ->. congruence.
Qed.

Lemma forking_terminate_loop env ks :
  respects (same (forking (Conn := Conn)))
    (for_each ks (fun d => _ ← attempt (remove_and_terminate env d); ret_ok)).
Proof. call_respects. Qed.

Lemma disconnect_incoming_media_spec env c :
  exists c', disconnect_incoming_media env c = (c', Ok tt) /\
    connection_map c' = connection_map c /\ forking c' = forking c.
Proof.
  unfold disconnect_incoming_media, gets, mbind, ST_bind.
  destruct (call_context c); by eexists.
Qed.

Lemma terminate_parent_spec env c :
  exists c', terminate_parent env c = (c', Ok tt) /\
    connection_map c' = connection_map c /\ forking c' = None /\
    forall f, forking c = Some f ->
      (conn_terminate (env_conn env) (parent_connection f)).1 ∈ dropped c'.
Proof.
  unfold terminate_parent, gets, modify, drop_connection, mbind, ST_bind.
  destruct (forking c) as [f|]; cbn; [|by eexists].
  destruct (conn_terminate _ _) as [k r] eqn:Hk. eexists. split_and!; [done..|].
  intros f' [= <-]. rewrite Hk. cbn. apply elem_of_app. right. by apply list_elem_of_singleton.
Qed.

(** [terminate_connections] terminates every connection and keeps none. *)
Lemma terminate_connections_spec env c :
  let c' := (terminate_connections env c).1 in
  connection_map c' = ∅ /\ forking c' = None /\
  (forall d k, connection_map c !! d = Some k -> (conn_terminate (env_conn env) k).1 ∈ dropped c') /\
  (forall f, forking c = Some f ->
    (conn_terminate (env_conn env) (parent_connection f)).1 ∈ dropped c').
Proof.
  cbn zeta. destruct (disconnect_incoming_media_spec env c) as (c0 & Hc0 & Hm0 & Hf0).
  destruct (terminate_parent_spec env c0) as (c1 & Hc1 & Hm & Hf & Hp).
  rewrite Hm0 in Hm. rewrite Hf0 in Hp.
  unfold terminate_connections.
  rewrite (ST_bind_run _ _ _ _ _ Hc0), (ST_bind_run _ _ _ _ _ Hc1), ST_gets_bind.
  destruct (released_for_each env (fun d => _ ← attempt (remove_and_terminate env d); ret_ok)
    (fun _ => true) (walk_order env c1) c1) as (Hm' & Hd' & Ht').
  { apply walk_order_NoDup. }
  { intros d c2 _ _. pose proof (remove_and_terminate_released env d c2) as Hr.
    unfold attempt, mbind, ST_bind. destruct (remove_and_terminate env d c2) as [c3 r].
    by destruct Hr. }
  assert (List.filter (fun _ => true) (walk_order env c1) = walk_order env c1) as Hall.
  { clear. by induction (walk_order env c1); cbn; f_equal. }
  rewrite Hall in *. split_and!.
  - apply map_eq. intros d. rewrite Hm', lookup_empty. case_bool_decide as Hd; [done|].
    by rewrite elem_of_walk_order, <- eq_None_not_Some in Hd.
  - rewrite forking_terminate_loop. done.
  - intros d k Hk. apply (Ht' d); [apply elem_of_walk_order; rewrite Hm; by exists k|by rewrite Hm].
  - auto.
Qed.

(** ** [terminate] returns *)

Lemma call_queue_handle_event env st ev :
  respects (onk (same (fsm_queue (Conn := Conn)))) (handle_event env st ev).
Proof. destruct ev; call_respects. Qed.

(** The state machine gets to the request by handling what is queued before it. *)
Lemma call_events_reach_terminate env s :
  taken s = None -> terminates (fsm_queue (call (fsm s))) <> 0%nat ->
  exists n s', (n <= length (fsm_queue (call (fsm s))))%nat /\
    run (replicate n (AEvent env)) s = Some s' /\
    terminate_complete (call (fsm s')) = true /\ phase s' = phase s.
Proof.
  remember (fsm_queue (call (fsm s))) as q eqn:Hq. revert s Hq.
  induction q as [|ev q IH]; intros s Hq Htk Hn; [done|].
  set (f := (fsm s) <| call := (call (fsm s)) <| fsm_queue := q |> |>).
  assert (act (AEvent env) s =
    Some (s <| fsm := (handle_event env (state (call (fsm s))) ev f).1 |>)) as Hact.
  { unfold act, recv. by rewrite Htk, <- Hq. }
  destruct (is_terminate ev) eqn:Hev.
  { destruct ev; try discriminate Hev. exists 1%nat. eexists. split; [cbn; lia|].
    cbn [replicate run]. rewrite Hact. done. }
  destruct (IH (s <| fsm := (handle_event env (state (call (fsm s))) ev f).1 |>))
    as (n & s' & Hlen & Hrun & Hrest).
  - exact (eq_sym (call_queue_handle_event env (state (call (fsm s))) ev f)).
  - done.
  - unfold terminates in *. cbn in Hn. by rewrite Hev in Hn.
  - exists (S n), s'. split; [cbn; lia|]. split; [|done]. cbn [replicate run]. by rewrite Hact.
Qed.

(** What [terminate] leaves: no connection, each of those there were having been
    terminated. *)
Definition all_released (env : CallEnv) (c c' : Call Conn) : Prop :=
  state c' = CallState.Terminated /\ connection_map c' = ∅ /\ forking c' = None /\
  (forall d k, connection_map c !! d = Some k -> (conn_terminate (env_conn env) k).1 ∈ dropped c') /\
  (forall f, forking c = Some f ->
    (conn_terminate (env_conn env) (parent_connection f)).1 ∈ dropped c').

Lemma terminate_end_released env c : all_released env c (terminate_end env c).1.
Proof.
  unfold all_released. rewrite terminate_end_state. split; [done|].
  pose proof (terminate_connections_spec env c) as Hs.
  pose proof (terminate_connections_never_fails env c) as Hn.
  unfold terminate_end, Call.set_state, modify, mbind, ST_bind.
  by destruct (terminate_connections env c) as [c' [u|e]].
Qed.

(** C36. With events that are handled as soon as they are taken, a call of [terminate] comes back: whatever is queued, the state machine
    answers after handling at most the events in its queue, and [terminate] then
    ends with the call [Terminated], every connection it held terminated and none
    kept. *)
Theorem call_terminate_completes id dir mt local s env :
  reachable (Call.new id dir mt local) s -> phase s = Waiting ->
  exists n s' s'', (n <= length (fsm_queue (call (fsm s))))%nat /\
    run (replicate n (AEvent env)) s = Some s' /\
    act (ATerminateEnd env) s' = Some s'' /\ phase s'' = Returned /\
    all_released env (call (fsm s')) (call (fsm s'')).
Proof.
  intros Hr Hp. destruct (KInv_reachable _ _ _ _ _ Hr) as [Htk Hs].
  assert (exists n s', (n <= length (fsm_queue (call (fsm s))))%nat /\
    run (replicate n (AEvent env)) s = Some s' /\
    terminate_complete (call (fsm s')) = true /\ phase s' = phase s)
    as (n & s' & Hn & Hrun & Hc & Hp').
  { unfold situation in Hs. rewrite Hp in Hs.
    destruct Hs as [(_ & Hq & _)|(_ & _ & _ & Hc & _)].
    - apply call_events_reach_terminate; [done|]. by rewrite Hq.
    - exists 0%nat, s. split_and!; [lia|done..]. }
  exists n, s', ((with_call s' (terminate_end env (call (fsm s'))).1) <| phase := Returned |>).
  split_and!; [done|done| |done|apply terminate_end_released].
  unfold act. by rewrite Hp', Hp, Hc.
Qed.

(** ** Silence *)

(** When [terminate] returned no connection and no work is left. *)
Definition over (s : Sys Conn) : Prop :=
  phase s = Returned ->
  connection_map (call (fsm s)) = ∅ /\ forking (call (fsm s)) = None /\
  timeout_stopped (call (fsm s)) = true.

(** What others see of a call: its calls on the call manager, and the connections. *)
Definition seen (c : Call Conn) :=
  (outputs c, dropped c, connection_map c, forking c, timeout_stopped c, state c).

Lemma silent_handle_event env ev f :
  is_terminate ev = false -> halted f ->
  (handle_event env CallState.Terminated ev f).1 = f.
Proof.
  intros Hev (Hw & Hws & Hn & Hns). destruct f as [c w ws n ns]. cbn in *. subst.
  destruct ev; try discriminate Hev; done.
Qed.

Lemma silent_inject ev c : fsm_connected c = false -> inject_event ev c = (c, Ok tt).
Proof. intros Hc. unfold inject_event, get, mbind, ST_bind. by rewrite Hc. Qed.

Lemma silent_api env a c :
  api_allowed Returned a c = true -> fsm_connected c = false -> state c = CallState.Terminated ->
  timeout_stopped c = true -> seen (run_api env a c).1 = seen c.
Proof.
  intros Ha Hc Hst Ht.
  destruct a; try discriminate Ha; cbn [run_api];
    unfold inject_start_call, inject_proceed, inject_accept_call, inject_received_answer,
      inject_received_ice, inject_received_hangup, on_connection_observer_event,
      on_connection_observer_error, inject_call_timeout;
    rewrite ?silent_inject by done; try done.
  - unfold handle_received_offer, gets, mbind, ST_bind. by destruct (pending_call c).
  - unfold set_call_context, gets, mbind, ST_bind. by destruct (call_context c).
  - unfold send_buffered_local_ice_candidates, gets, mbind, ST_bind. by rewrite Hst.
Qed.

Lemma silent_step a s s' :
  KInv s -> over s -> phase s = Returned -> atomic a = true -> act a s = Some s' ->
  phase s' = Returned /\ seen (call (fsm s')) = seen (call (fsm s)).
Proof.
  intros [Htk Hs] Ho Hp Hat. destruct (Ho Hp) as (Hm & Hf & Ht).
  unfold situation in Hs. rewrite Hp in Hs. destruct Hs as (Hst & Hq & Hc & Htc & Hh).
  destruct a as [| |env|env|env|d a|a|env a| |env]; try discriminate Hat; unfold act.
  - rewrite Htk. destruct (recv (fsm s)) as [[f [st ev]]|] eqn:Hr; [|done].
    apply call_recv_spec in Hr as (-> & q & Hqe & ->). intros [= <-]. split; [done|].
    rewrite Hst. rewrite silent_handle_event; [done| |exact Hh].
    rewrite Hqe in Hq. unfold terminates in Hq. cbn in Hq. by destruct (is_terminate ev).
  - destruct Hh as (Hw & _). by rewrite Hw.
  - destruct Hh as (_ & _ & Hn & _). by rewrite Hn.
  - by rewrite Hm, lookup_empty.
  - by rewrite Hf.
  - rewrite Hp. destruct (api_allowed _ _ _) eqn:Ha; [|done]. intros [= <-].
    split; [done|]. by apply silent_api.
  - by rewrite Hp.
  - by rewrite Hp.
Qed.

Lemma act_phase a s s' :
  act a s = Some s' -> phase s' = phase s \/ a = ATerminateBegin \/ exists env, a = ATerminateEnd env.
Proof.
  destruct a as [| |env|env|env|d a|a|env a| |env]; eauto; intros Hact; left; revert Hact.
  6: by intros [m ->]%act_connection_call.
  6: by intros [o ->]%act_parent_call.
  all: unfold act; repeat case_match; try done; by intros [= <-].
Qed.

Lemma over_step a s s' :
  KInv s -> over s -> atomic a = true -> act a s = Some s' -> over s'.
Proof.
  intros HI Ho Hat Hact Hp'. destruct (act_phase a s s' Hact) as [Hp|[->|[env ->]]].
  - destruct (silent_step a s s' HI Ho) as [_ Hseen]; [congruence|done..|].
    injection Hseen as _ _ -> -> -> _. apply Ho. congruence.
  - unfold act in Hact. case_bool_decide; [|done].
    destruct (terminate_begin _) as [c r]. injection Hact as <-. cbn in Hp'. by destruct (is_ok r).
  - unfold act in Hact. case_bool_decide; [|done].
    destruct (terminate_complete _); [|done]. injection Hact as <-. cbn.
    destruct (terminate_end_released env (call (fsm s))) as (_ & Hm & Hf & _).
    split_and!; [done..|].
    pose proof (terminate_connections_never_fails env (call (fsm s))) as Hn.
    unfold terminate_end, Call.set_state, modify, mbind, ST_bind.
    by destruct (terminate_connections env _) as [c' [u|e]].
Qed.

Lemma over_reachable id dir mt local s : reachable (Call.new id dir mt local) s -> over s.
Proof.
  induction 1 as [|s a s' Hr IH Hat Hact]; [done|].
  eapply over_step; [by eapply KInv_reachable|done..].
Qed.

(** After [terminate] returned, nothing the threads, the call manager, the timer
    or the former connections do has an effect that others see: the call manager
    and the application are not called again, no connection is created, and the
    call stays [Terminated]. *)
Theorem terminated_call_is_silent id dir mt local s l s' :
  reachable (Call.new id dir mt local) s -> phase s = Returned ->
  forallb atomic l = true -> run l s = Some s' ->
  outputs (call (fsm s')) = outputs (call (fsm s)) /\
  connection_map (call (fsm s')) = ∅ /\ state (call (fsm s')) = CallState.Terminated.
Proof.
  intros Hr Hp Hl Hrun.
  assert (phase s' = Returned /\ seen (call (fsm s')) = seen (call (fsm s)) /\
    reachable (Call.new id dir mt local) s') as (Hp' & Hseen & Hr').
  { revert s Hr Hp Hrun. induction l as [|a l IH]; intros s Hr Hp Hrun; cbn [run] in Hrun.
    - by injection Hrun as <-.
    - apply andb_true_iff in Hl as [Ha Hl].
      destruct (act a s) as [s1|] eqn:Hact; [|discriminate Hrun].
      destruct (silent_step a s s1) as [Hp1 Hs1]; try done;
        [by eapply KInv_reachable|by eapply over_reachable|].
      destruct (IH Hl s1) as (? & -> & ?); try done. by eapply reachable_step. }
  injection Hseen as -> _ _ _ _ _.
  destruct (over_reachable _ _ _ _ _ Hr' Hp') as (Hm & _).
  destruct (KInv_reachable _ _ _ _ _ Hr') as [_ Hs]. unfold situation in Hs. rewrite Hp' in Hs.
  split_and!; [done|done|apply Hs].
Qed.

End Live.
End CallLive.
