(* ===== verification/CallDevices.v ===== *)
(** * The devices of a call

    Which connections a call holds, that it uses them as the interface asks, and
    which device is the active one. *)

From S2P Require Import Prelude States Signaling ConnectionTypes Connection ConnectionStart.
From S2P Require Import Call CallFsm CallSystem CallDiagram.
Import ConnectionStart.
Local Open Scope Z_scope.
Local Open Scope ringrtc_scope.

Module CallDevices.
Import Call CallFsm CallSystem CallDiagram.

(** ** Connections are used as the interface asks *)

Section Connections.
Context `{SrtpCrypto} {Conn : Type} `{!ConnectionApi Conn} `{!ConnectionLaws Conn}.
Implicit Types (c : Call Conn) (s : Sys Conn).

(** The connections a call holds were started and take requests; each is in the
    map under its device.  Those it let go of were terminated, or failed to start. *)
Record connections_ok (c : Call Conn) : Prop := mkConnectionsOk {
  ok_map d k : connection_map c !! d = Some k -> conn_live k /\ conn_remote_device_id k = d;
  ok_forking f : forking c = Some f -> conn_live (parent_connection f);
  ok_dropped k : k ∈ dropped c -> conn_live k \/ conn_closed k;
}.

Notation keeps m := (yields connections_ok (m : ST (Call Conn) Error _) (fun _ => True)).

Lemma keeps_respects {A} (m : ST (Call Conn) Error A) :
  respects (same (fun c => (connection_map c, forking c, dropped c))) m -> keeps m.
Proof.
  intros Hm c [Hk Hf Hd]. specialize (Hm c). injection Hm as Hk' Hf' Hd'.
  split; [|done]. split; rewrite ?Hk', ?Hf', ?Hd'; done.
Qed.

Lemma keeps_request d (m : ST Conn Error unit) : conn_request m -> keeps (on_connection d m).
Proof.
  intros Hm c [Hk Hf Hd]. split; [|done]. unfold on_connection.
  destruct (connection_map c !! d) as [k|] eqn:Hkd; [|done].
  destruct (Hk d k Hkd) as [Hl Hid]. destruct (Hm k Hl) as [Hl' Hid'].
  destruct (m k) as [k' r]; cbn in *. split; cbn; [|done..].
  intros x k1 [[-> <-]|[Hne Hx]]%lookup_insert_Some; [|by apply Hk]. split; [done|congruence].
Qed.

Lemma keeps_read {A} d (f : Conn -> A) : keeps (on_connection d (gets f)).
Proof.
  intros c Hok. split; [|done]. unfold on_connection, gets.
  destruct (connection_map c !! d) as [k|] eqn:Hkd; [|done]. cbn.
  rewrite insert_id by done. by destruct c, Hok.
Qed.

Lemma keeps_drop k : conn_live k \/ conn_closed k -> keeps (drop_connection k).
Proof.
  intros Hk. apply yields_modify; [|done]. intros c [Hm Hf Hd]. split; cbn; [done..|].
  intros x [Hx|Hx]%elem_of_app; [by apply Hd|]. by apply list_elem_of_singleton in Hx as ->.
Qed.

Lemma keeps_insert d k :
  conn_live k -> conn_remote_device_id k = d ->
  keeps (modify (fun c => c <| connection_map := <[d := k]> (connection_map c) |>)).
Proof.
  intros Hl Hid. apply yields_modify; [|done]. intros c [Hm Hf Hd]. split; cbn; [|done..].
  intros x k1 [[-> <-]|[_ Hx]]%lookup_insert_Some; [done|by apply Hm].
Qed.

Lemma yields_create env d ct cfg ali :
  yields connections_ok (create_connection env d ct cfg ali)
    (fun k => conn_fresh ct k /\ conn_remote_device_id k = d).
Proof.
  unfold create_connection. eapply yields_bind.
  { apply keeps_respects. unfold manager. solve_respects. }
  intros _ _. eapply yields_bind; [apply yields_get|]. intros c _. apply yields_ret.
  split; [apply new_fresh|apply new_id].
Qed.

Lemma yields_start {A} k (m : ST Conn Error A) d :
  conn_live (m k).1 -> conn_remote_device_id (m k).1 = d ->
  yields connections_ok (start_connection k m)
    (fun p => conn_live p.1 /\ conn_remote_device_id p.1 = d).
Proof.
  intros Hl Hid. unfold start_connection. destruct (m k) as [k' [a|e]]; cbn in *.
  - by apply yields_ret.
  - eapply yields_bind; [by apply keeps_drop; left|]. intros. apply yields_fail.
Qed.

Lemma keeps_attempt {A} (m : ST (Call Conn) Error A) : keeps m -> keeps (attempt m).
Proof. intros Hm. eapply yields_weaken; [by apply yields_attempt|done]. Qed.

Lemma keeps_terminate_of d env :
  keeps (remove_and_terminate env d).
Proof.
  unfold remove_and_terminate. eapply yields_bind.
  { apply (yields_gets _ _ (fun m => forall k, m !! d = Some k -> conn_live k)).
    intros c Hok k Hk. by destruct (ok_map c Hok d k Hk). }
  intros m Hm. cbn beta in Hm. destruct (m !! d) as [k|]; [|by apply yields_ret_ok].
  eapply yields_bind.
  { apply (yields_modify _ _ (fun _ => True)); [|done]. intros c [Hk Hf Hd]. split; cbn; [|done..].
    intros x k1 [_ Hx]%lookup_delete_Some. by apply Hk. }
  intros _ _. pose proof (terminate_closed (env_conn env) k (Hm k eq_refl)) as Hc.
  destruct (conn_terminate (env_conn env) k) as [k' r].
  eapply yields_bind; [by apply keeps_drop; right|]. intros _ _. by apply yields_of_result.
Qed.

(** Code made of requests, reads and other code that keeps the connections. *)
Create HintDb keeps.
#[local] Hint Resolve keeps_read keeps_terminate_of set_stats_request accept_request
  enable_media_request start_tick_request regather_request received_ice_request
  send_hangup_request keeps_request keeps_attempt : keeps.

Ltac keeps_step :=
  lazymatch goal with
  | |- yields _ (mbind _ _) _ => eapply (yields_bind _ _ _ (fun _ => True)); [|intros ? _]
  | |- yields _ (match ?x with _ => _ end) _ => destruct x
  | |- yields _ (let '(_, _) := ?x in _) _ => destruct x
  | |- yields _ (for_each _ _) _ => apply yields_for_each; intros ?
  | |- yields _ (attempt _) _ => apply keeps_attempt
  | |- yields _ (on_connection _ _) _ => solve [eauto with keeps]
  | |- yields _ (remove_and_terminate _ _) _ => apply keeps_terminate_of
  | |- yields _ _ _ => apply keeps_respects; solve [call_respects]
  end.
Ltac keeps_code := intros; repeat keeps_step.

Lemma keeps_proceed env cfg ali : keeps (proceed env cfg ali).
Proof.
  unfold proceed. keeps_step; [keeps_step|]. destruct a.
  - unfold proceed_incoming. keeps_step; [keeps_step|]. keeps_step; [keeps_step|].
    destruct a as [p|]; [|keeps_step].
    eapply yields_bind; [apply yields_create|]. intros k [Hf Hid].
    eapply yields_bind; [apply (yields_start _ _ (conn_remote_device_id k)); [by apply start_incoming_live|]|].
    { apply start_incoming_id. }
    intros [k1 answer] [Hl1 Hid1]. cbn in Hl1, Hid1.
    keeps_step; [keeps_code|]. destruct a as [u|e].
    + destruct (set_stats_request k1 Hl1) as [Hl2 Hid2].
      destruct (conn_set_stats_snapshot_consumer k1) as [k2 [v|e]]; cbn in *.
      * keeps_step; [apply keeps_insert; [done|congruence]|]. keeps_code.
      * keeps_step; [by apply keeps_drop; left|]. keeps_code.
    + keeps_step; [by apply keeps_drop; left|]. keeps_code.
  - unfold proceed_outgoing. keeps_step; [keeps_step|].
    eapply yields_bind; [apply yields_create|]. intros k [Hf Hid].
    eapply yields_bind; [eapply yields_start; [by apply start_parent_live|done]|].
    intros [k1 [secret offer]] [Hl1 Hid1]. cbn in Hl1, Hid1. keeps_step; [|keeps_code].
    apply yields_modify; [|done]. intros c [Hm Hfk Hd]. split; cbn; [done| |done].
    by intros f [= <-].
Qed.

Lemma keeps_received_answer env received : keeps (received_answer env received).
Proof.
  unfold received_answer. keeps_step; [keeps_step|]. destruct (_ !! _); [keeps_step|].
  keeps_step; [keeps_step|]. destruct (already_accepted _); [keeps_step|].
  eapply (yields_bind _ _ _ (fun _ => True)); [keeps_step|].
  intros [f|] _; [|keeps_step].
  eapply yields_bind; [apply yields_create|]. intros k [Hf Hid].
  eapply yields_bind; [apply (yields_start _ _ (conn_remote_device_id k)); [by apply start_child_live|]|].
  { apply start_child_id. }
  intros [k1 u] [Hl1 Hid1]. cbn in Hl1, Hid1. apply keeps_insert; [done|congruence].
Qed.

Lemma keeps_terminate_connections env : keeps (terminate_connections env).
Proof.
  unfold terminate_connections. keeps_step; [keeps_step|]. keeps_step; [|keeps_code].
  unfold terminate_parent. eapply yields_bind.
  { apply (yields_gets _ _ (fun o => forall f, o = Some f -> conn_live (parent_connection f))).
    intros c Hok. apply (ok_forking c Hok). }
  intros o Ho. cbn beta in Ho. keeps_step.
  { apply yields_modify; [|done]. intros c [Hm Hf Hd]. by split. }
  destruct o as [f|]; [|keeps_step].
  pose proof (terminate_closed (env_conn env) _ (Ho f eq_refl)) as Hc.
  destruct (conn_terminate _ _) as [k r]. by apply keeps_drop; right.
Qed.

(** The rest: requests only. *)
Lemma keeps_worker_task env t : keeps (run_worker_task env t).
Proof.
  destruct t; unfold run_worker_task, until_terminating, even_when_terminating;
    repeat (lazymatch goal with
    | |- yields _ (proceed _ _ _) _ => apply keeps_proceed
    | |- yields _ (received_answer _ _) _ => apply keeps_received_answer
    | |- yields _ (terminate_connections_except_accepted _ _) _ =>
      unfold terminate_connections_except_accepted
    | |- yields _ (accept_locally _) _ => unfold accept_locally
    | |- yields _ (accept_remotely _) _ => unfold accept_remotely
    | |- yields _ (received_ice _) _ => unfold received_ice
    | |- yields _ (handle_ice_failed _ _) _ => unfold handle_ice_failed
    | |- yields _ (send_hangup_via_rtp_data_to_all _ _) _ => unfold send_hangup_via_rtp_data_to_all
    | _ => keeps_step
    end).
Qed.

Lemma keeps_notify_task env t : keeps (run_notify_task env t).
Proof. apply keeps_respects. destruct t; call_respects. Qed.

Lemma keeps_api env a : keeps (run_api env a).
Proof. apply keeps_respects. destruct a; call_respects. Qed.

(** ** Handlers *)

Lemma keeps_hangup_except env h d : keeps (send_hangup_via_rtp_data_to_all_except env h d).
Proof. unfold send_hangup_via_rtp_data_to_all_except. keeps_code. Qed.

Lemma keeps_hangup_and_signaling env h d :
  keeps (send_hangup_via_rtp_data_and_signaling_to_all_except env h d).
Proof.
  unfold send_hangup_via_rtp_data_and_signaling_to_all_except.
  keeps_step; [apply keeps_hangup_except|keeps_step].
Qed.

Lemma keeps_stats : keeps (start_call_summary_stats_collection (Conn := Conn)).
Proof. unfold start_call_summary_stats_collection. keeps_code. Qed.

Definition fsm_ok (f : Fsm Conn) : Prop := connections_ok (call f).

Lemma keeps_on_call {A} (m : ST (Call Conn) Error A) :
  keeps m -> yields fsm_ok (on_call m) (fun _ => True).
Proof.
  intros Hm f Hf. unfold on_call, fsm_ok. destruct (Hm (call f) Hf) as [Hc _].
  by destruct (m (call f)).
Qed.

Lemma keeps_fsm {A} (m : ST (Fsm Conn) Error A) :
  respects (same call) m -> yields fsm_ok m (fun _ => True).
Proof. intros Hm f Hf. split; [|done]. unfold fsm_ok. by rewrite (Hm f). Qed.

#[local] Hint Extern 2 (respects (same call) (modify _)) =>
  apply respects_modify; intros; unfold same; cbn; repeat case_match; reflexivity : respects.

Lemma keeps_handle_event env st ev : yields fsm_ok (handle_event env st ev) (fun _ => True).
Proof.
  unfold handle_event.
  repeat (lazymatch goal with
  | |- yields _ (mbind _ _) _ => eapply (yields_bind _ _ _ (fun _ => True)); [|intros ? _]
  | |- yields _ (match ?x with _ => _ end) _ => destruct x
  | |- yields _ (let '(_, _) := ?x in _) _ => destruct x
  | |- yields _ (attempt _) _ => eapply yields_weaken; [apply yields_attempt|done]
  | |- yields _ (on_call _) _ => apply keeps_on_call
  | |- yields _ (send_hangup_via_rtp_data_to_all_except _ _ _) _ => apply keeps_hangup_except
  | |- yields _ (send_hangup_via_rtp_data_and_signaling_to_all_except _ _ _) _ =>
    apply keeps_hangup_and_signaling
  | |- yields _ start_call_summary_stats_collection _ => apply keeps_stats
  | |- yields connections_ok _ _ => keeps_step
  | |- yields _ (handle_remotely_accepted_connection _ _) _ => unfold handle_remotely_accepted_connection
  | |- yields _ (handle_connection_observer_event _ _ _ _) _ => unfold handle_connection_observer_event
  | |- yields _ (handle_connection_state_changed _ _ _ _) _ => unfold handle_connection_state_changed
  | |- yields _ (handle_received_hangup _ _ _) _ => unfold handle_received_hangup
  | |- yields _ _ _ => first [apply keeps_fsm; solve [autounfold with callfsm_ops; solve_respects]
                            |progress autounfold with callfsm_ops]
  end).
Qed.

Lemma connections_step a s s' :
  connections_ok (call (fsm s)) -> atomic a = true -> act a s = Some s' ->
  connections_ok (call (fsm s')).
Proof.
  intros Hok Hat. destruct a as [| |env|env|env|d a|a|env a| |env]; try discriminate Hat; unfold act.
  - destruct (taken s), (recv (fsm s)) as [[f [st ev]]|] eqn:Hr; try done. intros [= <-].
    apply call_recv_spec in Hr as (_ & q & _ & ->). apply keeps_handle_event. by destruct Hok.
  - destruct (worker (fsm s)) as [|t w]; [done|]. intros [= <-]. by apply keeps_worker_task.
  - destruct (notify (fsm s)) as [|t w]; [done|]. intros [= <-]. by apply keeps_notify_task.
  - destruct (connection_map (call (fsm s)) !! d) as [k|] eqn:Hk; [|done]. cbn.
    destruct (conn_act a k) as [k'|] eqn:Ha; [|done]. intros [= <-]. destruct Hok as [Hm Hf Hd].
    destruct (Hm d k Hk) as [Hl Hid]. destruct (act_live a k k' Hl Ha) as [Hl' Hid'].
    split; cbn; [|done..].
    intros x k1 [[-> <-]|[_ Hx]]%lookup_insert_Some; [split; [done|congruence]|by apply Hm].
  - destruct (forking (call (fsm s))) as [f|] eqn:Hf; [|done]. cbn.
    destruct (conn_act a _) as [k'|] eqn:Ha; [|done]. intros [= <-]. destruct Hok as [Hm Hfk Hd].
    split; cbn; [done| |done]. intros f' [= <-]. cbn. by eapply act_live; [apply Hfk|].
  - destruct (api_allowed _ _ _); [|done]. intros [= <-]. by apply keeps_api.
  - case_bool_decide; [|done].
    assert (keeps terminate_begin) as Hk by (apply keeps_respects; call_respects).
    specialize (Hk (call (fsm s)) Hok) as [Hk _].
    destruct (terminate_begin (call (fsm s))) as [c r]. by intros [= <-].
  - case_bool_decide; [|done]. destruct (terminate_complete _); [|done]. intros [= <-].
    cbn [fsm set_field with_call call].
    assert (keeps (terminate_end env)) as Hk.
    { unfold terminate_end. keeps_step; [apply keeps_terminate_connections|keeps_code]. }
    by apply Hk.
Qed.

Lemma connections_reachable id dir mt local s :
  reachable (Call.new id dir mt local) s -> connections_ok (call (fsm s)).
Proof.
  induction 1 as [|s a s' Hr IH Hat Hact]; [|by eapply connections_step].
  split; cbn; [|done|].
  - intros d k. by rewrite lookup_empty.
  - by intros k Hk%elem_of_nil.
Qed.

(** A call uses its connections as their interface asks, for every implementation
    that keeps the laws of the interface: each connection it holds was created for
    its device, started once, is in the map under that device and has not been
    terminated, so that it takes every request; a connection the call lets go of
    was terminated, unless the call failed to set it up. *)
Theorem connections_are_used_by_protocol id dir mt local s :
  reachable (Call.new id dir mt local) s -> connections_ok (call (fsm s)).
Proof. apply connections_reachable. Qed.

End Connections.
(** ** The active device *)

Section Active.
Context `{SrtpCrypto} {Conn : Type} `{!ConnectionApi Conn}.
Implicit Types (c : Call Conn) (f : Fsm Conn) (s : Sys Conn).

(** An active device stays. *)
Definition active_stays (c c' : Call Conn) : Prop :=
  forall d, active_device_id_field c = Some d -> active_device_id_field c' = Some d.

#[local] Instance active_stays_preorder : PreOrder active_stays.
Proof. split; unfold active_stays; [by intros c|]. intros c1 c2 c3. auto. Qed.

Lemma active_stays_set d : respects active_stays (set_active_device_id (Conn := Conn) d).
Proof.
  intros c d'. unfold set_active_device_id, gets, mbind, ST_bind.
  destruct (active_device_id_field c) eqn:Ha; cbn; congruence.
Qed.

#[local] Hint Resolve active_stays_set : respects.
#[local] Hint Extern 2 (respects active_stays (modify _)) =>
  apply respects_modify; intros; unfold active_stays; cbn; auto : respects.
#[local] Hint Extern 2 (respects active_stays (on_connection _ _)) =>
  apply respects_on_connection; [typeclasses eauto|by unfold active_stays] : respects.
#[local] Hint Extern 2 (respects active_stays (inject_event _)) =>
  unfold inject_event; solve_respects : respects.

Lemma active_stays_step a s s' :
  act a s = Some s' -> active_stays (call (fsm s)) (call (fsm s')).
Proof.
  apply (act_respects active_stays); try (intros; unfold active_stays; by auto).
  - intros env st ev _. destruct ev; call_respects.
  - intros env t. destruct t; call_respects.
  - intros env t. destruct t; call_respects.
  - intros env b. destruct b; call_respects.
  - call_respects.
  - call_respects.
Qed.

(** *** Where it is chosen: outgoing calls *)

(** Outside of [proceed], which chooses it for an incoming call, only an acceptance
    chooses the active device. *)
Definition active_kept (c c' : Call Conn) : Prop :=
  direction c' = direction c /\
  (direction c = Outgoing -> active_device_id_field c' = active_device_id_field c).

#[local] Instance active_kept_preorder : PreOrder active_kept.
Proof.
  split; unfold active_kept; [by intros c|]. intros c1 c2 c3 [Hd Ha] [Hd' Ha'].
  split; [congruence|]. intros Ho. rewrite Ha', Ha; congruence.
Qed.

Lemma active_kept_same {A} (m : ST (Call Conn) Error A) :
  respects (same (fun c => (direction c, active_device_id_field c))) m -> respects active_kept m.
Proof. intros Hm c. specialize (Hm c). injection Hm as Hd Ha. by split. Qed.

Lemma active_kept_proceed env cfg ali : respects active_kept (proceed env cfg ali).
Proof.
  intros c. unfold proceed. rewrite ST_gets_bind. destruct (direction c) eqn:Hd.
  - assert (respects (same (direction (Conn := Conn))) (proceed_incoming env cfg ali)) as Hs
      by call_respects.
    split; [apply Hs|congruence].
  - apply active_kept_same. call_respects.
Qed.

Lemma active_kept_worker_task env t : respects active_kept (run_worker_task env t).
Proof.
  destruct t as [cfg ali| | | | | | | | | |];
    try (apply active_kept_same; call_respects; fail).
  unfold run_worker_task, until_terminating, terminating, inject_internal_error.
  repeat (apply active_kept_proceed || respects_step ||
          (apply active_kept_same; call_respects)).
Qed.

Definition accepting (st : CallState.CallState) (ev : CallEvent.CallEvent) : bool :=
  match ev with
  | CallEvent.ConnectionObserverEvent (ConnectionObserverEvent.StateChanged cst) _ =>
    match st, cst with
    | (CallState.ConnectingBeforeAccepted | CallState.ConnectedBeforeAccepted),
      ConnectionState.ConnectingAfterAccepted => true
    | CallState.ConnectedBeforeAccepted, ConnectionState.ConnectedAndAccepted => true
    | _, _ => false
    end
  | _ => false
  end.

Lemma active_kept_handle_event env st ev :
  accepting st ev = false -> respects (onk active_kept) (handle_event env st ev).
Proof.
  intros Ha.
  assert (respects (onk (same (fun c : Call Conn => (direction c, active_device_id_field c))))
    (handle_event env st ev)) as Hs.
  { destruct ev as [| |h|cfg ali| | |r|r|r|[cst|ss|h|r| | |a b|b] d|e d|e| | |]; try solve [call_respects].
    destruct st, cst; try discriminate Ha; call_respects. }
  intros f. specialize (Hs f). injection Hs as Hd Hc. by split.
Qed.

(** An acceptance by [d] moves an outgoing call to the states after it. *)
Lemma accepting_outgoing env st ev f :
  accepting st ev = true -> direction (call f) = Outgoing ->
  CallState.accepted (state (call (handle_event env st ev f).1)) = true.
Proof.
  intros Ha Hd.
  destruct ev as [| |h|cfg ali| | |r|r|r|[cst|ss|h|r| | |a b|b] d|e d|e| | |]; try discriminate Ha.
  assert (respects (onk (same (state (Conn := Conn)))) (handle_remotely_accepted_connection env d))
    as Hr by call_respects.
  assert (respects (onk (same (state (Conn := Conn)))) (handle_remotely_accepted_connection env d ;;
    activate_remotely_accepted_connection)) as Hr' by call_respects.
  destruct st, cst; try discriminate Ha; cbn [handle_event CallState.terminating_or_terminated
    handle_connection_observer_event]; unfold handle_connection_state_changed;
    rewrite ST_gets_bind, Hd;
    match goal with |- context [(on_call ?m ;; ?k) f] =>
      change ((on_call m ;; k) f) with (k (on_call m f).1) end.
  all: unfold onk, same in *; rewrite ?Hr, ?Hr'; done.
Qed.

(** The active device and the state of an outgoing call. *)
Definition late (st : CallState.CallState) : bool :=
  CallState.accepted st || CallState.terminating_or_terminated st.

Lemma edge_late st st' : edge st st' -> late st = true -> late st' = true.
Proof. by destruct 1. Qed.

Lemma active_step a s s' :
  KInv s -> atomic a = true -> act a s = Some s' ->
  direction (call (fsm s')) = direction (call (fsm s)) /\
  (direction (call (fsm s)) = Outgoing ->
   active_device_id_field (call (fsm s')) = active_device_id_field (call (fsm s)) \/
   late (state (call (fsm s))) = false /\ CallState.accepted (state (call (fsm s'))) = true).
Proof.
  intros [Htk _] Hat Hact.
  destruct (match a with AEvent env => true | _ => false end) eqn:Hae.
  - destruct a as [| |env|env|env|d a|a|env a| |env]; try discriminate Hae.
    unfold act in Hact. rewrite Htk in Hact.
    destruct (recv (fsm s)) as [[f [st ev]]|] eqn:Hr; [|done]. injection Hact as <-.
    apply call_recv_spec in Hr as (Hst & q & _ & ->). cbn [fsm set_field].
    set (f := (fsm s) <| call := (call (fsm s)) <| fsm_queue := q |> |>).
    destruct (accepting st ev) eqn:Ha.
    + split.
      { assert (respects (onk (same (direction (Conn := Conn)))) (handle_event env st ev)) as Hs
          by (destruct ev; call_respects). apply (Hs f). }
      intros Hd. right. split; [|by apply accepting_outgoing].
      rewrite <- Hst. destruct ev as [| |h|cfg ali| | |r|r|r|[cst|ss|h|r| | |x b|b] d|e d|e| | |];
        try discriminate Ha. by destruct st, cst.
    + destruct (active_kept_handle_event env st ev Ha f) as [Hd Hk]. split; [done|].
      intros Ho. left. by apply Hk.
  - assert (active_kept (call (fsm s)) (call (fsm s'))) as [Hd Hk].
    { revert Hact. apply (act_respects active_kept); try done.
      - intros env st ev [-> | ->]; [discriminate Hat|discriminate Hae].
      - apply active_kept_worker_task.
      - intros env t. apply active_kept_same. destruct t; call_respects.
      - intros env b. apply active_kept_same. destruct b; call_respects.
      - apply active_kept_same. call_respects.
      - intros env. apply active_kept_same. call_respects. }
    split; [done|]. intros Ho. left. auto.
Qed.

Lemma active_late id mt local s :
  reachable (Call.new id Outgoing mt local) s ->
  direction (call (fsm s)) = Outgoing /\
  (active_device_id_field (call (fsm s)) <> None -> late (state (call (fsm s))) = true).
Proof.
  induction 1 as [|s a s' Hr [Hd IH] Hat Hact]; [done|].
  apply KInv_reachable in Hr as HI.
  destruct (active_step a s s' HI Hat Hact) as [Hd' Hk]. split; [congruence|]. intros Ha.
  destruct (Hk Hd) as [Hs|[_ Hacc]]; [|unfold late; by rewrite Hacc].
  rewrite Hs in Ha. specialize (IH Ha).
  destruct (step_edge a s s' HI Hat Hact) as [-> |He]; [done|by eapply edge_late].
Qed.

(** The active device is chosen once.  No step changes it again; and in an
    outgoing call it is chosen exactly in the step in which the call goes from the
    states before the acceptance to those after it, so that a call that rings has
    none. *)
Theorem active_device_is_chosen_once id mt local s a s' :
  reachable (Call.new id Outgoing mt local) s -> atomic a = true -> act a s = Some s' ->
  (forall d, active_device_id_field (call (fsm s)) = Some d ->
             active_device_id_field (call (fsm s')) = Some d) /\
  (active_device_id_field (call (fsm s')) <> active_device_id_field (call (fsm s)) ->
   late (state (call (fsm s))) = false /\ CallState.accepted (state (call (fsm s'))) = true) /\
  (active_device_id_field (call (fsm s')) <> None -> late (state (call (fsm s'))) = true).
Proof.
  intros Hr Hat Hact. split_and!.
  - by apply active_stays_step in Hact.
  - intros Hne. apply KInv_reachable in Hr as HI.
    destruct (active_step a s s' HI Hat Hact) as [_ Hk].
    destruct (Hk (proj1 (active_late _ _ _ _ Hr))); [done|done].
  - by apply (active_late id mt local); eapply reachable_step.
Qed.
End Active.

End CallDevices.
