(* ===== verification/CallHangup.v ===== *)
(** * Several devices: acceptance and hangup

    An outgoing call rings on every device of the callee.  The first device that
    accepts becomes the active one, the others are hung up; a device that declines
    ends the call on the others.  These theorems follow an event from the
    connection it came from to the devices it concerns. *)

From S2P Require Import Prelude States Signaling ConnectionTypes Connection ConnectionStart.
From S2P Require Import Call CallFsm CallSystem CallDiagram CallLive CallDevices.
Import ConnectionStart.
Local Open Scope Z_scope.
Local Open Scope ringrtc_scope.

Module CallHangup.
Import Call CallFsm CallSystem CallDiagram CallLive CallDevices.

Section Hangup.
Context `{SrtpCrypto} {Conn : Type} `{!ConnectionApi Conn}.
Implicit Types (c : Call Conn) (f : Fsm Conn).

(** ** Devices that are not the active one *)

(** What a device reports about itself: everything but the periodic measurements,
    which only the connection with a running timer makes. *)
Definition report_of (d : DeviceId) (ev : CallEvent.CallEvent) : bool :=
  match ev with
  | CallEvent.ConnectionObserverEvent (ConnectionObserverEvent.AudioLevels _ _) _
  | CallEvent.ConnectionObserverEvent (ConnectionObserverEvent.LowBandwidthForVideo _) _ => false
  | CallEvent.ConnectionObserverEvent _ d' => bool_decide (d' = d)
  | CallEvent.ReceivedHangup received => bool_decide (rh_sender_device_id received = d)
  | CallEvent.ReceivedAnswer received => bool_decide (ra_sender_device_id received = d)
  | _ => false
  end.

Lemma inactive_hangup_ignored env f st received active :
  active_device_id_field (call f) = Some active -> rh_sender_device_id received <> active ->
  (handle_received_hangup env st received f) = (f, Ok tt).
Proof.
  intros Ha Hne. unfold handle_received_hangup. rewrite ST_gets_bind, Ha.
  destruct (Hangup.to_type_and_device_id _) as [ty dev].
  rewrite (bool_decide_false (rh_sender_device_id received = active)) by done.
  by destruct (_ && _).
Qed.

Lemma inactive_ice_failed_ignored env c d active :
  active_device_id_field c = Some active -> d <> active ->
  run_worker_task env (IceFailedTask d) c = (c, Ok tt).
Proof.
  intros Ha Hne. unfold run_worker_task, until_terminating, attempt, terminating, gets,
    handle_ice_failed, get, mbind, ST_bind.
  destruct (bool_decide (state c = _)); cbn; [done|].
  rewrite Ha, (bool_decide_false (active = d)) by congruence. done.
Qed.

Lemma on_call_active f active :
  active_device_id_field (call f) = Some active -> on_call active_device_id f = (f, Ok active).
Proof.
  intros Ha. unfold on_call, active_device_id, gets, mbind, ST_bind. rewrite Ha. by destruct f.
Qed.

Lemma inactive_state_change_ignored env st cst d f active :
  active_device_id_field (call f) = Some active -> d <> active -> CallState.accepted st = true ->
  handle_connection_state_changed env st cst d f = (f, Ok tt) \/
  handle_connection_state_changed env st cst d f = worker_spawn (IceFailedTask d) f.
Proof.
  intros Ha Hne Hacc. unfold handle_connection_state_changed. rewrite ST_gets_bind.
  destruct (direction (call f)), st; try discriminate Hacc; destruct cst;
    try (by left); try (by right); left;
    rewrite (ST_bind_run _ _ _ _ _ (on_call_active f active Ha)), bool_decide_false; done || congruence.
Qed.

(** Nothing but perhaps a look at a failed connection. *)
Definition ignored (d active : DeviceId) (f f' : Fsm Conn) : Prop :=
  call f' = call f /\ notify f' = notify f /\
  (worker f' = worker f \/
   worker f' = worker f ++ [IceFailedTask d] /\
   forall env c, active_device_id_field c = Some active ->
     run_worker_task env (IceFailedTask d) c = (c, Ok tt)).

Lemma ignored_refl d active f : ignored d active f f.
Proof. split_and!; [done..|by left]. Qed.

(** After the acceptance the other devices do not matter: what a device other
    than the active one reports (changes of its connection, hangups, statuses,
    routes, answers) changes nothing of the call, notifies the application of
    nothing and sends nothing; a failure of its connection is looked at by the
    worker thread, which ignores it. *)
Theorem inactive_device_is_ignored env f ev d active :
  active_device_id_field (call f) = Some active -> d <> active ->
  CallState.accepted (state (call f)) = true -> report_of d ev = true ->
  ignored d active f (handle_event env (state (call f)) ev f).1.
Proof.
  intros Ha Hne Hacc Hrep.
  assert (CallState.terminating_or_terminated (state (call f)) = false) as Htt
    by (by destruct (state (call f))).
  destruct ev as [| |h|cfg ali| | |r|r|r|oev d'|e d'|e| | |]; try discriminate Hrep;
    cbn [handle_event]; rewrite Htt.
  - unfold handle_received_answer. destruct (state (call f)); try discriminate Hacc;
      apply ignored_refl.
  - apply bool_decide_eq_true in Hrep as <-.
    rewrite (inactive_hangup_ignored env f _ _ active) by done. apply ignored_refl.
  - destruct oev as [cst|ss|h|r| | |x y|b]; try discriminate Hrep;
      apply bool_decide_eq_true in Hrep as ->; cbn [handle_connection_observer_event].
    + destruct (inactive_state_change_ignored env (state (call f)) cst d f active Ha Hne Hacc)
        as [-> | ->]; [apply ignored_refl|].
      unfold worker_spawn, modify. cbn. destruct (worker_stopped f); [apply ignored_refl|].
      split_and!; [done..|right]. split; [done|].
      intros env' c Hc. by apply (inactive_ice_failed_ignored env' c d active).
    + destruct (CallState.active (state (call f))); [|apply ignored_refl].
      rewrite (ST_bind_run _ _ _ _ _ (on_call_active f active Ha)), bool_decide_false by congruence.
      apply ignored_refl.
    + rewrite (inactive_hangup_ignored env f _ _ active) by done. apply ignored_refl.
    + rewrite ST_gets_bind, Ha, bool_decide_false by congruence. apply ignored_refl.
    + apply ignored_refl.
    + apply ignored_refl.
Qed.

(** ** Hangups to the other devices *)

Definition tell (env : CallEnv) (h : Hangup.Hangup) (k : Conn) : Conn :=
  (conn_inject_send_hangup_via_rtp_data (env_conn env) h k).1.

(** The connection takes the request to send [h]. *)
Definition takes (env : CallEnv) (h : Hangup.Hangup) (k : Conn) : Prop :=
  (conn_inject_send_hangup_via_rtp_data (env_conn env) h k).2 = Ok tt.

(** The connections of [ks], but not that of [ex], were told [h]. *)
Definition told (env : CallEnv) (h : Hangup.Hangup) (ex : DeviceId) (ks : list DeviceId)
    (m m' : gmap DeviceId Conn) : Prop :=
  forall d, m' !! d =
    if bool_decide (d ∈ ks) && negb (bool_decide (ex = d)) then tell env h <$> m !! d else m !! d.

(** Every connection is in the map under its device, and takes the request unless it
    is that of [ex]. *)
Definition ready (env : CallEnv) (h : Hangup.Hangup) (ex : DeviceId) (m : gmap DeviceId Conn) : Prop :=
  forall d k, m !! d = Some k -> conn_remote_device_id k = d /\ (ex <> d -> takes env h k).

Lemma with_map_id c : c <| connection_map := connection_map c |> = c.
Proof. by destruct c. Qed.

Lemma tell_one env h ex d c k :
  connection_map c !! d = Some k -> conn_remote_device_id k = d ->
  (ex <> d -> takes env h k) ->
  (remote_device_id ← on_connection d (gets conn_remote_device_id);
   if negb (bool_decide (ex = remote_device_id))
   then on_connection d (conn_inject_send_hangup_via_rtp_data (env_conn env) h)
   else ret_ok) c =
  (c <| connection_map :=
     if negb (bool_decide (ex = d)) then <[d := tell env h k]> (connection_map c)
     else connection_map c |>, Ok tt).
Proof.
  intros Hk Hid Hdel.
  assert (on_connection d (gets conn_remote_device_id) c = (c, Ok d)) as Hread.
  { unfold on_connection, gets. rewrite Hk. cbn. rewrite Hid, insert_id by done.
    by rewrite with_map_id. }
  rewrite (ST_bind_run _ _ _ _ _ Hread).
  case_bool_decide as Hex; cbn [negb]; [by rewrite with_map_id|]. specialize (Hdel Hex).
  unfold on_connection. rewrite Hk. unfold tell, takes in *.
  destruct (conn_inject_send_hangup_via_rtp_data _ _ _) as [k' r]. cbn in *. by rewrite Hdel.
Qed.

Lemma tell_loop env h ex ks c :
  NoDup ks ->
  (forall d, d ∈ ks -> exists k, connection_map c !! d = Some k /\
    conn_remote_device_id k = d /\ (ex <> d -> takes env h k)) ->
  exists m', for_each ks (fun d =>
      remote_device_id ← on_connection d (gets conn_remote_device_id);
      if negb (bool_decide (ex = remote_device_id))
      then on_connection d (conn_inject_send_hangup_via_rtp_data (env_conn env) h)
      else ret_ok) c = (c <| connection_map := m' |>, Ok tt) /\
    told env h ex ks (connection_map c) m'.
Proof.
  revert c. induction ks as [|d ks IH]; intros c Hnd Hks.
  { exists (connection_map c). cbn. rewrite with_map_id. split; [done|].
    intros d. by rewrite bool_decide_false by apply not_elem_of_nil. }
  apply NoDup_cons in Hnd as [Hd Hnd].
  destruct (Hks d) as (k & Hk & Hid & Hok); [apply elem_of_cons; by left|].
  set (m1 := if negb (bool_decide (ex = d)) then <[d := tell env h k]> (connection_map c)
             else connection_map c).
  assert (forall x, x <> d -> m1 !! x = connection_map c !! x) as Hm1.
  { intros x Hx. subst m1. case_match; [by apply lookup_insert_ne|done]. }
  destruct (IH (c <| connection_map := m1 |>)) as (m' & Hrun & Hm'); [done| |].
  { intros x Hx. cbn. rewrite Hm1 by (by intros ->).
    apply Hks. apply elem_of_cons. by right. }
  exists m'. cbn [for_each]. rewrite (ST_bind_run _ _ _ _ _ (tell_one env h ex d c k Hk Hid Hok)).
  split; [exact Hrun|]. intros x. rewrite Hm'. cbn [connection_map set_field].
  destruct (decide (x = d)) as [->|Hx].
  - rewrite (bool_decide_false (d ∈ ks)), (bool_decide_true (d ∈ d :: ks))
      by (done || by apply elem_of_cons; left).
    subst m1. cbn [andb]. destruct (bool_decide (ex = d)); cbn; [done|].
    by rewrite lookup_insert_eq, Hk.
  - rewrite Hm1 by done.
    rewrite (bool_decide_ext (x ∈ d :: ks) (x ∈ ks)); [done|]. rewrite elem_of_cons. tauto.
Qed.

(** [send_hangup_via_rtp_data_to_all_except] tells exactly the other devices. *)
Lemma send_hangup_except_spec env h ex c :
  ready env h ex (connection_map c) ->
  exists m', send_hangup_via_rtp_data_to_all_except env h ex c =
      (c <| connection_map := m' |>, Ok tt) /\
    (forall d, m' !! d = if bool_decide (ex = d) then connection_map c !! d
                         else tell env h <$> connection_map c !! d).
Proof.
  intros Hkey. unfold send_hangup_via_rtp_data_to_all_except. rewrite ST_gets_bind.
  destruct (tell_loop env h ex (walk_order env c) c (walk_order_NoDup env c))
    as (m' & Hrun & Hm').
  { intros d [k Hk]%elem_of_walk_order. exists k. split; [done|]. by apply Hkey. }
  exists m'. split; [exact Hrun|]. intros d. rewrite Hm'.
  destruct (bool_decide (ex = d)); [by rewrite andb_false_r|]. rewrite andb_true_r.
  case_bool_decide as Hd; [done|]. rewrite elem_of_walk_order, <- eq_None_not_Some in Hd.
  by rewrite Hd.
Qed.

Lemma hangup_and_signaling_spec env h ex c :
  ready env h ex (connection_map c) -> env_manager env (ManagerSendHangup (mkSendHangup h)) = Ok tt ->
  exists m', send_hangup_via_rtp_data_and_signaling_to_all_except env h ex c =
      (c <| connection_map := m' |> <| outputs := outputs c ++ [ManagerSendHangup (mkSendHangup h)] |>,
       Ok tt) /\
    (forall d, m' !! d = if bool_decide (ex = d) then connection_map c !! d
                         else tell env h <$> connection_map c !! d).
Proof.
  intros Hr Hm. destruct (send_hangup_except_spec env h ex c Hr) as (m' & Hrun & Hm').
  exists m'. split; [|done]. unfold send_hangup_via_rtp_data_and_signaling_to_all_except.
  rewrite (ST_bind_run _ _ _ _ _ Hrun).
  unfold send_hangup_via_signaling_to_all, manager, modify, of_result, mbind, ST_bind. by rewrite Hm.
Qed.

Lemma worker_spawn_run t f :
  worker_stopped f = false -> worker_spawn t f = (f <| worker := worker f ++ [t] |>, Ok tt).
Proof. intros Hs. unfold worker_spawn, modify. by rewrite Hs. Qed.

(** The caller's part. *)
Lemma caller_hangup env f h d b sent reason :
  hangup_scenario (Hangup.to_type_and_device_id h).1 Outgoing d = (b, Some sent, reason) ->
  (Hangup.to_type_and_device_id sent).2 = Some d ->
  direction (call f) = Outgoing -> active_device_id_field (call f) = None ->
  CallState.should_propagate_hangup (state (call f)) = true ->
  ready env sent d (connection_map (call f)) ->
  env_manager env (ManagerSendHangup (mkSendHangup sent)) = Ok tt -> worker_stopped f = false ->
  exists m', (handle_received_hangup env (state (call f)) (mkReceivedHangup h d) f).1 =
      f <| call := (call f) <| state := CallState.Terminating |> <| connection_map := m' |>
             <| outputs := outputs (call f) ++ [ManagerSendHangup (mkSendHangup sent)] |> |>
        <| worker := worker f ++ [RemoteHangupTask reason] |> /\
    (forall x, m' !! x = if bool_decide (d = x) then connection_map (call f) !! x
                         else tell env sent <$> connection_map (call f) !! x).
Proof.
  intros Hsc Hdev Hd Ha Hp Hr Hm Hw.
  assert (CallState.can_be_terminated_remotely (state (call f)) = true) as Hc
    by (by destruct (state (call f))).
  unfold handle_received_hangup. rewrite ST_gets_bind. cbn [rh_hangup rh_sender_device_id].
  destruct (Hangup.to_type_and_device_id h) as [ty dev]. cbn [fst] in Hsc.
  rewrite Hd, (bool_decide_false (Outgoing = Incoming)), Ha by done. cbn [andb]. cbv beta iota.
  rewrite Hsc, Hc. cbv beta iota.
  set (f1 := f <| call := (call f) <| state := CallState.Terminating |> |>).
  assert (on_call (Call.set_state CallState.Terminating) f = (f1, Ok tt)) as Hf1 by done.
  destruct (hangup_and_signaling_spec env sent d (call f1) Hr Hm) as (m' & Hrun & Hm').
  exists m'. split; [|exact Hm'].
  assert (on_call (send_hangup_via_rtp_data_and_signaling_to_all_except env sent d) f1 =
    (f1 <| call := (call f1) <| connection_map := m' |>
       <| outputs := outputs (call f1) ++ [ManagerSendHangup (mkSendHangup sent)] |> |>, Ok tt))
    as Hf2 by (unfold on_call; by rewrite Hrun).
  rewrite (ST_bind_run _ _ _ _ _ Hf1), Hp, Hdev. change (default 0 (Some d)) with d.
  rewrite (ST_bind_run _ _ _ _ _ Hf2). by rewrite worker_spawn_run.
Qed.

(** The callee's part. *)
Lemma callee_hangup env f h d caller_device reason b :
  (Hangup.to_type_and_device_id h).2 = Some d ->
  hangup_scenario (Hangup.to_type_and_device_id h).1 Incoming caller_device = (b, None, reason) ->
  direction (call f) = Incoming ->
  CallState.can_be_terminated_remotely (state (call f)) = true ->
  match active_device_id_field (call f) with Some a => a = caller_device | None => True end ->
  worker_stopped f = false ->
  (handle_received_hangup env (state (call f)) (mkReceivedHangup h caller_device) f).1 =
    if bool_decide (local_device_id (call f) = d) then f
    else f <| call := (call f) <| state := CallState.Terminating |> |>
           <| worker := worker f ++ [RemoteHangupTask reason] |>.
Proof.
  intros Hdev Hsc Hd Hc Ha Hw.
  unfold handle_received_hangup. rewrite ST_gets_bind. cbn [rh_hangup rh_sender_device_id].
  destruct (Hangup.to_type_and_device_id h) as [ty dev]. cbn [fst snd] in *. subst dev.
  rewrite Hd. rewrite (bool_decide_true (Incoming = Incoming)) by done. cbn [andb].
  destruct (decide (local_device_id (call f) = d)) as [->|Hne].
  { by rewrite !bool_decide_true. }
  rewrite (bool_decide_false (Some _ = Some d)), (bool_decide_false (_ = d)) by congruence.
  assert (match active_device_id_field (call f) with
          | Some active => negb (bool_decide (caller_device = active)) | None => false end = false)
    as ->.
  { destruct (active_device_id_field (call f)); [|done]. subst. by rewrite bool_decide_true. }
  rewrite Hsc, Hc. cbv beta iota.
  set (f1 := f <| call := (call f) <| state := CallState.Terminating |> |>).
  assert (on_call (Call.set_state CallState.Terminating) f = (f1, Ok tt)) as Hf1 by done.
  rewrite (ST_bind_run _ _ _ _ _ Hf1).
  change ((ret_ok ≫= (fun _ => worker_spawn (RemoteHangupTask reason))) f1)
    with (worker_spawn (RemoteHangupTask reason) f1).
  by rewrite worker_spawn_run.
Qed.

(** What a caller makes of a hangup from device [d]: the hangup that it passes on to the
    other devices, the reason that it reports, and the one that they report.  The hangups
    that say what another device did are only meant for callees and are not passed on. *)
Definition passed_on (h : Hangup.Hangup) (d : DeviceId)
  : option (Hangup.Hangup * option CallEndReason.CallEndReason * option CallEndReason.CallEndReason) :=
  match h with
  | Hangup.Normal =>
    Some (Hangup.DeclinedOnAnotherDevice d, None, Some CallEndReason.RemoteHangupDeclined)
  | Hangup.NeedPermission _ =>
    Some (Hangup.NeedPermission (Some d), Some CallEndReason.RemoteHangupNeedPermission, None)
  | Hangup.AcceptedOnAnotherDevice _ | Hangup.DeclinedOnAnotherDevice _ | Hangup.BusyOnAnotherDevice _ => None
  end.

Lemma passed_on_scenario h d sent caller_reason callee_reason caller_device :
  passed_on h d = Some (sent, caller_reason, callee_reason) ->
  hangup_scenario (Hangup.to_type_and_device_id h).1 Outgoing d = (true, Some sent, caller_reason) /\
  (Hangup.to_type_and_device_id sent).2 = Some d /\
  exists b, hangup_scenario (Hangup.to_type_and_device_id sent).1 Incoming caller_device = (b, None, callee_reason).
Proof. destruct h; try discriminate; intros [= <- <- <-]; split_and!; try done; by eexists. Qed.

(** A hangup that is not passed on still ends the call. *)
Lemma caller_hangup_alone env f h d :
  passed_on h d = None ->
  direction (call f) = Outgoing -> active_device_id_field (call f) = None ->
  CallState.should_propagate_hangup (state (call f)) = true -> worker_stopped f = false ->
  (handle_received_hangup env (state (call f)) (mkReceivedHangup h d) f).1 =
    f <| call := (call f) <| state := CallState.Terminating |> |>
      <| worker := worker f ++ [RemoteHangupTask None] |>.
Proof.
  intros Hn Hd Ha Hp Hw.
  assert (CallState.can_be_terminated_remotely (state (call f)) = true) as Hc
    by (by destruct (state (call f))).
  assert (hangup_scenario (Hangup.to_type_and_device_id h).1 Outgoing d = (false, None, None)) as Hsc
    by (by destruct h).
  unfold handle_received_hangup. rewrite ST_gets_bind. cbn [rh_hangup rh_sender_device_id].
  destruct (Hangup.to_type_and_device_id h) as [ty dev]. cbn [fst] in Hsc.
  rewrite Hd, (bool_decide_false (Outgoing = Incoming)), Ha by done. cbn [andb]. cbv beta iota.
  rewrite Hsc, Hc. cbv beta iota.
  set (f1 := f <| call := (call f) <| state := CallState.Terminating |> |>).
  assert (on_call (Call.set_state CallState.Terminating) f = (f1, Ok tt)) as Hf1 by done.
  rewrite (ST_bind_run _ _ _ _ _ Hf1).
  change ((ret_ok ≫= (fun _ => worker_spawn (RemoteHangupTask None))) f1)
    with (worker_spawn (RemoteHangupTask None) f1).
  by rewrite worker_spawn_run.
Qed.

(** C14. A device that hangs up while the call rings ends the call on the others.  A caller
    that has not chosen a device yet and gets any hangup from device [d] is terminating and
    reports the hangup.  A normal hangup and one for lack of permission, with or without a
    device id, are passed on: the caller tells every
    other connection and, by signaling, all devices, provided that the connections and the
    call manager take the message; the
    hangup that it sends names [d].  Device [d] ignores it when it comes back; any
    other device of the callee, ringing or in the call with that caller, is
    terminating and reports the reason.  The three kinds of hangups that only a caller sends are
    not passed on, and nothing but the state and the report changes. *)
Theorem declined_call_ends_on_all_devices env env' caller callee d h caller_device :
  direction (call caller) = Outgoing -> active_device_id_field (call caller) = None ->
  CallState.should_propagate_hangup (state (call caller)) = true ->
  worker_stopped caller = false ->
  direction (call callee) = Incoming ->
  CallState.can_be_terminated_remotely (state (call callee)) = true ->
  match active_device_id_field (call callee) with Some a => a = caller_device | None => True end ->
  worker_stopped callee = false ->
  let caller' := (handle_event env (state (call caller))
    (CallEvent.ReceivedHangup (mkReceivedHangup h d)) caller).1 in
  match passed_on h d with
  | None =>
    caller' = caller <| call := (call caller) <| state := CallState.Terminating |> |>
      <| worker := worker caller ++ [RemoteHangupTask None] |>
  | Some (sent, caller_reason, callee_reason) =>
    ready env sent d (connection_map (call caller)) ->
    env_manager env (ManagerSendHangup (mkSendHangup sent)) = Ok tt ->
    let callee' := (handle_event env' (state (call callee))
      (CallEvent.ReceivedHangup (mkReceivedHangup sent caller_device)) callee).1 in
    state (call caller') = CallState.Terminating /\
    outputs (call caller') = outputs (call caller) ++ [ManagerSendHangup (mkSendHangup sent)] /\
    (forall x, connection_map (call caller') !! x =
      if bool_decide (d = x) then connection_map (call caller) !! x
      else tell env sent <$> connection_map (call caller) !! x) /\
    worker caller' = worker caller ++ [RemoteHangupTask caller_reason] /\
    if bool_decide (local_device_id (call callee) = d) then callee' = callee
    else state (call callee') = CallState.Terminating /\
         worker callee' = worker callee ++ [RemoteHangupTask callee_reason]
  end.
Proof.
  intros Hd Ha Hp Hw Hd' Hc' Ha' Hw'. cbn zeta.
  assert (CallState.terminating_or_terminated (state (call caller)) = false) as Htt
    by (by destruct (state (call caller))).
  assert (CallState.terminating_or_terminated (state (call callee)) = false) as Htt'
    by (by destruct (state (call callee))).
  cbn [handle_event]. rewrite Htt, Htt'.
  destruct (passed_on h d) as [[[sent caller_reason] callee_reason]|] eqn:Hpass; [|by apply caller_hangup_alone].
  intros Hr Hm. destruct (passed_on_scenario _ _ _ _ _ caller_device Hpass) as (Hsc & Hdev & b & Hsc').
  destruct (caller_hangup env caller h d true sent caller_reason Hsc Hdev Hd Ha Hp Hr Hm Hw) as (m' & -> & Hm').
  rewrite (callee_hangup env' callee sent d caller_device callee_reason b) by done.
  split_and!; try done. by case_bool_decide.
Qed.

(** ** Acceptance *)

(** [terminate_connections_except_accepted] keeps the accepted connection and
    terminates the others. *)
Lemma terminate_except_spec env d c :
  (forall x k, connection_map c !! x = Some k -> conn_remote_device_id k = x) ->
  released env (List.filter (fun x => negb (bool_decide (x = d))) (walk_order env c)) c
    (terminate_connections_except_accepted env d c).1.
Proof.
  intros Hid. unfold terminate_connections_except_accepted. rewrite ST_gets_bind.
  apply released_for_each; [apply walk_order_NoDup|]. intros x c1 Hx Hm.
  apply elem_of_walk_order in Hx as [k Hk].
  assert (on_connection x (gets conn_remote_device_id) c1 = (c1, Ok x)) as Hread.
  { unfold on_connection, gets. rewrite Hm, Hk. cbn. rewrite insert_id by congruence.
    by rewrite (Hid x k), with_map_id. }
  rewrite (ST_bind_run _ _ _ _ _ Hread). destruct (bool_decide (x = d)); cbn [negb].
  - split; [apply released_nil|done].
  - pose proof (remove_and_terminate_released env x c1) as Hr.
    unfold attempt, mbind, ST_bind. destruct (remove_and_terminate env x c1) as [c2 r].
    by destruct Hr.
Qed.

Section Acceptance.
Context `{!ConnectionLaws Conn}.

Lemma tell_live env h k :
  conn_live k -> conn_live (tell env h k) /\ conn_remote_device_id (tell env h k) = conn_remote_device_id k.
Proof. apply send_hangup_request. Qed.

(** What [handle_remotely_accepted_connection] does when nothing fails. *)
Lemma remotely_accepted_spec env f d k :
  let h := Hangup.AcceptedOnAnotherDevice d in
  connections_ok (call f) -> active_device_id_field (call f) = None ->
  connection_map (call f) !! d = Some k -> (conn_set_stats_snapshot_consumer k).2 = Ok tt ->
  (forall x k', x <> d -> connection_map (call f) !! x = Some k' -> takes env h k') ->
  worker_stopped f = false ->
  exists m', handle_remotely_accepted_connection env d f =
      (f <| call := (call f) <| active_device_id_field := Some d |> <| connection_map := m' |> |>
         <| worker := worker f ++ [TerminateOthersTask h d] |>, Ok tt) /\
    m' !! d = Some (conn_set_stats_snapshot_consumer k).1 /\
    (forall x, x <> d -> m' !! x = tell env h <$> connection_map (call f) !! x).
Proof.
  intros h Hok Ha Hk Hst Htk Hw. unfold handle_remotely_accepted_connection.
  set (c1 := (call f) <| active_device_id_field := Some d |>).
  assert (on_call (set_active_device_id d) f = (f <| call := c1 |>, Ok tt)) as Hf1.
  { unfold on_call, set_active_device_id, gets, mbind, ST_bind. by rewrite Ha. }
  set (c2 := c1 <| connection_map := <[d := (conn_set_stats_snapshot_consumer k).1]> (connection_map c1) |>).
  assert (on_call start_call_summary_stats_collection (f <| call := c1 |>) = (f <| call := c2 |>, Ok tt))
    as Hf2.
  { unfold on_call, start_call_summary_stats_collection, active_connection, active_device_id,
      on_connection, gets, mbind, ST_bind. cbn. rewrite Hk. cbn. rewrite Hk.
    destruct (conn_set_stats_snapshot_consumer k) as [k' r] eqn:Hks. cbn in *. subst r. done. }
  destruct (ok_map _ Hok d k Hk) as [Hl Hid]. destruct (set_stats_request k Hl) as [Hl' Hid'].
  destruct (send_hangup_except_spec env h d c2) as (m' & Hrun & Hm').
  { intros x k'. subst c2. cbn. intros [[-> <-]|[Hne Hx]]%lookup_insert_Some.
    - split; [congruence|done].
    - split; [by apply (ok_map _ Hok)|]. intros _. by apply (Htk x). }
  exists m'. rewrite (ST_bind_run _ _ _ _ _ Hf1), (ST_bind_run _ _ _ _ _ Hf2). cbn zeta.
  assert (on_call (send_hangup_via_rtp_data_to_all_except env h d) (f <| call := c2 |>) =
    (f <| call := c2 <| connection_map := m' |> |>, Ok tt)) as Hf3
    by (unfold on_call; cbn; by rewrite Hrun).
  rewrite (ST_bind_run _ _ _ _ _ Hf3), worker_spawn_run by done. split_and!; [done| |].
  - rewrite Hm', bool_decide_true by done. apply lookup_insert_eq.
  - intros x Hx. rewrite Hm', bool_decide_false by congruence. subst c2. cbn.
    by rewrite lookup_insert_ne.
Qed.

Lemma accepting_spec env f d cst k :
  let h := Hangup.AcceptedOnAnotherDevice d in
  let ev := CallEvent.ConnectionObserverEvent (ConnectionObserverEvent.StateChanged cst) d in
  accepting (state (call f)) ev = true -> direction (call f) = Outgoing ->
  connections_ok (call f) -> active_device_id_field (call f) = None ->
  connection_map (call f) !! d = Some k -> (conn_set_stats_snapshot_consumer k).2 = Ok tt ->
  (forall x k', x <> d -> connection_map (call f) !! x = Some k' -> takes env h k') ->
  worker_stopped f = false ->
  let f' := (handle_event env (state (call f)) ev f).1 in
  active_device_id_field (call f') = Some d /\ In (TerminateOthersTask h d) (worker f') /\
  connection_map (call f') !! d = Some (conn_set_stats_snapshot_consumer k).1 /\
  (forall x, x <> d ->
    connection_map (call f') !! x = tell env h <$> connection_map (call f) !! x).
Proof.
  intros h ev Hev Hd Hok Ha Hk Hst Htk Hw. cbv zeta.
  assert (forall T, let f1 := f <| call := (call f) <| state := T |> |> in
    exists m', handle_remotely_accepted_connection env d f1 =
      (f1 <| call := (call f1) <| active_device_id_field := Some d |> <| connection_map := m' |> |>
         <| worker := worker f1 ++ [TerminateOthersTask h d] |>, Ok tt) /\
    m' !! d = Some (conn_set_stats_snapshot_consumer k).1 /\
    (forall x, x <> d -> m' !! x = tell env h <$> connection_map (call f) !! x)) as Hspec.
  { intros T f1. assert (connections_ok (call f1)) as Hok1 by (by destruct Hok).
    exact (remotely_accepted_spec env f1 d k Hok1 Ha Hk Hst Htk Hw). }
  subst ev. revert Hev. generalize (state (call f)). intros st Hev.
  assert (handle_event env st (CallEvent.ConnectionObserverEvent
    (ConnectionObserverEvent.StateChanged cst) d) f = handle_connection_state_changed env st cst d f)
    as -> by (destruct st; done).
  unfold handle_connection_state_changed. rewrite ST_gets_bind, Hd.
  destruct st, cst; try discriminate Hev;
    match goal with |- context [on_call (Call.set_state ?T) ≫= _] =>
      destruct (Hspec T) as (m' & Hrun & Hmd & Hmx);
      rewrite (ST_bind_run _ _ _ _ _ (eq_refl : on_call (Call.set_state T) f = (_, Ok tt))) end.
  1-2: rewrite Hrun; split_and!; [done|apply in_or_app; right; by left|done..].
  rewrite (ST_bind_run _ _ _ _ _ Hrun).
  unfold activate_remotely_accepted_connection. rewrite worker_spawn_run by done.
  split_and!; [done|cbn; apply in_or_app; left; apply in_or_app; right; by left|done..].
Qed.

(** The worker's part: after the signaling message, the other connections go. *)
Lemma terminate_others_task env h d c :
  CallState.accepted (state c) = true ->
  env_manager env (ManagerSendHangup (mkSendHangup h)) = Ok tt ->
  let c1 := c <| outputs := outputs c ++ [ManagerSendHangup (mkSendHangup h)] |> in
  same (fun c => (connection_map c, dropped c, outputs c))
    (terminate_connections_except_accepted env d c1).1
    (run_worker_task env (TerminateOthersTask h d) c).1.
Proof.
  intros Hst Hm c1. unfold run_worker_task, until_terminating, attempt, terminating, gets.
  unfold mbind at 1 2, ST_bind at 1 2. rewrite bool_decide_false by (intros Heq; by rewrite Heq in Hst).
  assert (send_hangup_via_signaling_to_all env h c = (c1, Ok tt)) as Hs.
  { unfold send_hangup_via_signaling_to_all, manager, modify, of_result, mbind, ST_bind. by rewrite Hm. }
  rewrite (ST_bind_run _ _ _ _ _ Hs).
  destruct (terminate_connections_except_accepted env d c1) as [c2 [u|e]]; [done|]. cbn.
  assert (respects (same (fun c : Call Conn => (connection_map c, dropped c, outputs c)))
    (inject_internal_error e)) as Hi by call_respects. apply Hi.
Qed.

(** C5. The device that accepts first gets the call.  When device [d] accepts an
    outgoing call that rings on several devices, [d] becomes the active device and
    the call is accepted; every other connection is told that the call was
    accepted on [d] and then terminated, all devices are told so by signaling, and
    the connection with [d] is the only one left. *)
Theorem acceptance_picks_one_device env f d cst k :
  let h := Hangup.AcceptedOnAnotherDevice d in
  let ev := CallEvent.ConnectionObserverEvent (ConnectionObserverEvent.StateChanged cst) d in
  accepting (state (call f)) ev = true -> direction (call f) = Outgoing ->
  connections_ok (call f) -> active_device_id_field (call f) = None ->
  connection_map (call f) !! d = Some k -> (conn_set_stats_snapshot_consumer k).2 = Ok tt ->
  (forall x k', x <> d -> connection_map (call f) !! x = Some k' -> takes env h k') ->
  env_manager env (ManagerSendHangup (mkSendHangup h)) = Ok tt -> worker_stopped f = false ->
  let f' := (handle_event env (state (call f)) ev f).1 in
  let c' := (run_worker_task env (TerminateOthersTask h d) (call f')).1 in
  active_device_id_field (call f') = Some d /\ CallState.accepted (state (call f')) = true /\
  In (TerminateOthersTask h d) (worker f') /\
  connection_map c' = {[ d := (conn_set_stats_snapshot_consumer k).1 ]} /\
  (forall x k', x <> d -> connection_map (call f) !! x = Some k' ->
    (conn_terminate (env_conn env) (tell env h k')).1 ∈ dropped c') /\
  ManagerSendHangup (mkSendHangup h) ∈ outputs c'.
Proof.
  intros h ev Hev Hd Hok Ha Hk Hst Htk Hm Hw. cbn zeta.
  pose proof (accepting_outgoing env _ ev f Hev Hd) as Hacc.
  destruct (accepting_spec env f d cst k Hev Hd Hok Ha Hk Hst Htk Hw) as (Ha' & Hin & Hmd & Hmx).
  fold h in Hin, Hmx. fold ev in Ha', Hin, Hmd, Hmx.
  set (c := call (handle_event env (state (call f)) ev f).1) in *.
  pose proof (terminate_others_task env h d c Hacc Hm) as Ht. cbv zeta in Ht.
  set (c1 := c <| outputs := _ |>) in Ht.
  set (c' := (run_worker_task env (TerminateOthersTask h d) c).1) in *.
  unfold same in Ht. injection Ht as Htm Htd Hto.
  assert (forall x k', connection_map c1 !! x = Some k' -> conn_remote_device_id k' = x) as Hid.
  { intros x k' Hx. change (connection_map c1) with (connection_map c) in Hx.
    destruct (decide (x = d)) as [->|Hne].
    - destruct (ok_map _ Hok d k Hk) as [Hl <-]. rewrite Hmd in Hx. injection Hx as <-.
      by apply set_stats_request.
    - rewrite Hmx in Hx by done. apply fmap_Some in Hx as (k0 & Hk0 & ->).
      destruct (ok_map _ Hok x k0 Hk0) as [Hl <-]. by apply tell_live. }
  destruct (terminate_except_spec env d c1 Hid) as (Hrm & _ & Hrt).
  assert (forall x, x ∈ List.filter (fun x => negb (bool_decide (x = d))) (walk_order env c1) <->
    x <> d /\ is_Some (connection_map c !! x)) as Hsel.
  { intros x. rewrite list_elem_of_In, List.filter_In, <- list_elem_of_In, elem_of_walk_order.
    rewrite negb_true_iff, bool_decide_eq_false. change (connection_map c1) with (connection_map c).
    tauto. }
  split_and!; [done|done|done| | |].
  - rewrite Htm. apply map_eq. intros x. rewrite Hrm. change (connection_map c1) with (connection_map c).
    destruct (decide (x = d)) as [->|Hne].
    + rewrite bool_decide_false by (rewrite Hsel; tauto). by rewrite lookup_singleton_eq.
    + rewrite lookup_singleton_ne by done. case_bool_decide as Hb; [done|].
      rewrite Hsel in Hb. apply eq_None_not_Some. tauto.
  - intros x k' Hx Hx'. rewrite Htd. apply (Hrt x).
    + apply Hsel. split; [done|]. rewrite Hmx, Hx' by done. by eexists.
    + change (connection_map c1) with (connection_map c). by rewrite Hmx, Hx' by done.
  - rewrite Hto.
    assert (respects (same (outputs (Conn := Conn))) (terminate_connections_except_accepted env d))
      as Hso by call_respects.
    rewrite (Hso c1). subst c1. cbn. apply elem_of_app. right. by apply list_elem_of_singleton.
Qed.

End Acceptance.
End Hangup.
End CallHangup.
