(* ===== verification/CallNotify.v ===== *)
(** * What the application is told

    The application shows a call by the events it gets.  Ringing and acceptance
    are reported at most once each, whatever the connections report and however
    the threads interleave. *)

From S2P Require Import Prelude States Signaling ConnectionTypes Connection ConnectionStart.
From S2P Require Import Call CallFsm CallSystem CallDiagram CallDevices.
Import ConnectionStart.
Local Open Scope Z_scope.
Local Open Scope ringrtc_scope.

Module CallNotify.
Import Call CallFsm CallSystem CallDiagram CallDevices.

Section Notify.
Context `{SrtpCrypto} {Conn : Type} `{!ConnectionApi Conn}.
Implicit Types (c : Call Conn) (f : Fsm Conn) (s : Sys Conn).

(** ** Counting notifications, made and still to be made *)

Section Count.
Context (p : ApplicationEvent.ApplicationEvent -> bool).

Definition of_output (o : ManagerCall) : bool :=
  match o with ManagerNotifyApplication ev => p ev | _ => false end.
Definition of_notify_task (t : NotifyTask) : bool :=
  match t with NotifyApplicationTask ev => p ev | _ => false end.
Definition of_worker_task (t : WorkerTask) : bool :=
  match t with
  | AcceptLocallyTask => p ApplicationEvent.LocalAccepted
  | AcceptRemotelyTask => p ApplicationEvent.RemoteAccepted
  | _ => false
  end.

Definition count {A} (q : A -> bool) (l : list A) : nat := length (List.filter q l).
#[global] Arguments count : simpl never.

Lemma count_app {A} (q : A -> bool) l l' : count q (l ++ l') = (count q l + count q l')%nat.
Proof. unfold count. by rewrite List.filter_app, length_app. Qed.

Lemma count_one {A} (q : A -> bool) x : count q [x] = if q x then 1%nat else 0%nat.
Proof. unfold count. cbn. by destruct (q x). Qed.

Lemma count_cons {A} (q : A -> bool) x l : count q (x :: l) = ((if q x then 1 else 0) + count q l)%nat.
Proof. unfold count. cbn. by destruct (q x). Qed.

(** Notifications the call manager was asked for. *)
Definition notified (c : Call Conn) : nat := count of_output (outputs c).

(** Those, and the tasks that will ask for one. *)
Definition weight (f : Fsm Conn) : nat :=
  notified (call f) + count of_worker_task (worker f) + count of_notify_task (notify f).

(** Code that asks for none of them. *)
Lemma notified_emit o c :
  of_output o = false -> notified (c <| outputs := outputs c ++ [o] |>) = notified c.
Proof. intros Ho. unfold notified. cbn. rewrite count_app, count_one, Ho. lia. Qed.

#[local] Hint Extern 1 (respects (same notified) (modify _)) =>
  apply respects_modify; intros ?; unfold same; first [reflexivity|by apply notified_emit] : respects.

Definition quiet_task (t : WorkerTask) : bool :=
  match t with AcceptLocallyTask | AcceptRemotelyTask => false | _ => true end.

Lemma notified_quiet_task env t :
  quiet_task t = true -> respects (same notified) (run_worker_task env t).
Proof. destruct t; intros Ht; try discriminate Ht; call_respects. Qed.

Lemma notified_api env a : respects (same notified) (run_api env a).
Proof. destruct a; call_respects. Qed.

Lemma notified_terminate_begin : respects (same notified) terminate_begin.
Proof. call_respects. Qed.

Lemma notified_terminate_end env : respects (same notified) (terminate_end env).
Proof. call_respects. Qed.

(** Code that asks for at most [n] of them. *)
Definition adds {A} (n : nat) (m : ST (Call Conn) Error A) : Prop :=
  forall c, (notified (m c).1 <= notified c + n)%nat.

Lemma adds_same {A} (m : ST (Call Conn) Error A) : respects (same notified) m -> adds 0 m.
Proof. intros Hm c. specialize (Hm c). unfold same in Hm. lia. Qed.

Lemma adds_bind {A B} n n' (m : ST (Call Conn) Error A) (k : A -> ST (Call Conn) Error B) :
  adds n m -> (forall a, adds n' (k a)) -> adds (n + n') (m ≫= k).
Proof.
  intros Hm Hk c. specialize (Hm c). unfold mbind, ST_bind.
  destruct (m c) as [c1 [a|e]]; cbn in *; [|lia]. specialize (Hk a c1). lia.
Qed.

Lemma adds_bind_same {A B} n (m : ST (Call Conn) Error A) (k : A -> ST (Call Conn) Error B) :
  respects (same notified) m -> (forall a, adds n (k a)) -> adds n (m ≫= k).
Proof. intros Hm Hk. apply (adds_bind 0 n); [by apply adds_same|done]. Qed.

Lemma adds_notify env ev : adds (if p ev then 1 else 0)%nat (Call.notify_application env ev).
Proof.
  assert (adds (if p ev then 1 else 0)%nat (manager env (ManagerNotifyApplication ev))) as Hm.
  { intros c. unfold manager, modify, of_result, notified, mbind, ST_bind. cbn.
    rewrite count_app, count_one. cbn. lia. }
  unfold Call.notify_application. case_bool_decide; [|done].
  apply adds_bind_same; [call_respects|]. intros b. apply adds_bind_same; [call_respects|].
  intros _. destruct b; [|done]. intros c. cbn. lia.
Qed.

Lemma adds_until_terminating n m : adds n m -> adds n (until_terminating m).
Proof.
  intros Hm. unfold until_terminating. rewrite <- (Nat.add_0_r n). apply adds_bind.
  - intros c. unfold attempt, terminating, gets, mbind, ST_bind.
    destruct (bool_decide _); cbn; [lia|]. specialize (Hm c). by destruct (m c).
  - intros r. apply adds_same. call_respects.
Qed.

Lemma adds_accept_locally env :
  adds (if p ApplicationEvent.LocalAccepted then 1 else 0)%nat (accept_locally env).
Proof.
  unfold accept_locally. do 4 (apply adds_bind_same; [call_respects|intros ?]). apply adds_notify.
Qed.

Lemma adds_accept_remotely env :
  adds (if p ApplicationEvent.RemoteAccepted then 1 else 0)%nat (accept_remotely env).
Proof.
  unfold accept_remotely. do 3 (apply adds_bind_same; [call_respects|intros ?]).
  rewrite <- (Nat.add_0_r (if p _ then 1 else 0)%nat). apply adds_bind; [apply adds_notify|].
  intros _. apply adds_same. call_respects.
Qed.

Lemma adds_worker_task env t :
  adds (if of_worker_task t then 1 else 0)%nat (run_worker_task env t).
Proof.
  destruct (quiet_task t) eqn:Ht.
  - intros c. pose proof (notified_quiet_task env t Ht c). unfold same in *. lia.
  - destruct t; try discriminate Ht; apply adds_until_terminating;
      [apply adds_accept_locally|apply adds_accept_remotely].
Qed.

Lemma adds_notify_task env t :
  adds (if of_notify_task t then 1 else 0)%nat (run_notify_task env t).
Proof.
  destruct t; apply adds_until_terminating; [apply adds_notify|..]; apply adds_same; call_respects.
Qed.

(** ** Handlers: what they spawn *)

(** The weight a task adds. *)
Lemma weight_worker_spawn t f :
  (weight (worker_spawn t f).1 <= weight f + if of_worker_task t then 1 else 0)%nat.
Proof.
  unfold worker_spawn, modify, weight. cbn. destruct (worker_stopped f); cbn; [lia|].
  rewrite count_app, count_one. lia.
Qed.

Definition lighter (f f' : Fsm Conn) : Prop := (weight f' <= weight f)%nat.

#[local] Instance lighter_preorder : PreOrder lighter.
Proof. split; unfold lighter; [by intros f|]. intros f1 f2 f3. lia. Qed.

Lemma lighter_on_call {A} (m : ST (Call Conn) Error A) :
  respects (same notified) m -> respects lighter (on_call m).
Proof.
  intros Hm f. specialize (Hm (call f)). unfold on_call, lighter, weight, same in *.
  destruct (m (call f)) as [c r]. cbn in *. lia.
Qed.

Lemma lighter_worker_spawn t : of_worker_task t = false -> respects lighter (worker_spawn t).
Proof. intros Ht f. unfold lighter. pose proof (weight_worker_spawn t f) as Hw. rewrite Ht in Hw. lia. Qed.

Lemma lighter_notify_spawn t : of_notify_task t = false -> respects lighter (notify_spawn t).
Proof.
  intros Ht f. unfold notify_spawn, modify, lighter, weight. cbn.
  destruct (notify_stopped f); cbn; [lia|]. rewrite count_app, count_one, Ht. lia.
Qed.

Lemma lighter_drain :
  respects lighter (drain_worker_thread (Conn := Conn)) /\
  respects lighter (drain_notify_thread (Conn := Conn)).
Proof. split; intros f; unfold lighter, weight; cbn; unfold count; cbn; lia. Qed.

End Count.

(** ** The two kinds of notifications *)

Definition acceptance (ev : ApplicationEvent.ApplicationEvent) : bool :=
  match ev with ApplicationEvent.LocalAccepted | ApplicationEvent.RemoteAccepted => true | _ => false end.
Definition local_ringing (ev : ApplicationEvent.ApplicationEvent) : bool :=
  match ev with ApplicationEvent.LocalRinging => true | _ => false end.

(** The states from which on an event of the kind may have been sent. *)
Definition after_acceptance (st : CallState.CallState) : bool :=
  CallState.active st || CallState.terminating_or_terminated st.
Definition after_ringing (st : CallState.CallState) : bool :=
  match st with
  | CallState.NotYetStarted | CallState.WaitingToProceed | CallState.ConnectingBeforeAccepted => false
  | _ => true
  end.

Lemma edge_after_acceptance st st' :
  edge st st' -> after_acceptance st = true -> after_acceptance st' = true.
Proof. by destruct 1. Qed.
Lemma edge_after_ringing st st' : edge st st' -> after_ringing st = true -> after_ringing st' = true.
Proof. by destruct 1. Qed.

(** The events whose handlers spawn one. *)
Definition spawns_acceptance (st : CallState.CallState) (ev : CallEvent.CallEvent) : bool :=
  match st, ev with
  | CallState.ConnectedBeforeAccepted, CallEvent.AcceptCall
  | (CallState.ConnectedBeforeAccepted | CallState.ConnectingAfterAccepted),
    CallEvent.ConnectionObserverEvent
      (ConnectionObserverEvent.StateChanged ConnectionState.ConnectedAndAccepted) _ => true
  | _, _ => false
  end.
Definition spawns_ringing (st : CallState.CallState) (ev : CallEvent.CallEvent) : bool :=
  match st, ev with
  | CallState.ConnectingBeforeAccepted,
    CallEvent.ConnectionObserverEvent
      (ConnectionObserverEvent.StateChanged ConnectionState.ConnectedBeforeAccepted) _ => true
  | _, _ => false
  end.

#[local] Existing Instance lighter_preorder.
#[local] Hint Extern 1 (respects (same (notified _)) (modify _)) =>
  apply respects_modify; intros ?; unfold same; first [reflexivity|by apply notified_emit] : respects.

Ltac lighter_step :=
  lazymatch goal with
  | |- respects (lighter _) (on_call _) =>
    apply lighter_on_call; autounfold with call_ops; solve [repeat call_step]
  | |- respects (lighter _) (worker_spawn _) => apply lighter_worker_spawn; reflexivity
  | |- respects (lighter _) (notify_spawn _) => apply lighter_notify_spawn; reflexivity
  | |- respects (lighter _) drain_worker_thread => apply lighter_drain
  | |- respects (lighter _) drain_notify_thread => apply lighter_drain
  | |- respects _ (if ?b then _ else _) => first [decided_guard b|respects_step]
  | |- _ => respects_step
  end.
Ltac unfold_handlers :=
  unfold handle_event, handle_terminate, handle_synchronize, handle_call_timeout,
    handle_connection_observer_error, handle_internal_error, handle_connection_observer_event,
    notify_if, handle_connection_state_changed, handle_send_hangup_via_rtp_data_to_all,
    handle_accept_call, handle_received_hangup, handle_received_ice, handle_received_answer,
    handle_proceed, CallFsm.handle_start_call, activate_remotely_accepted_connection,
    handle_remotely_accepted_connection, CallFsm.notify_application, unexpected_state.

Lemma lighter_acceptance env st ev :
  spawns_acceptance st ev = false -> respects (lighter acceptance) (handle_event env st ev).
Proof.
  intros Hs.
  destruct ev as [| |h|cfg ali| | |r|r|r|[cst|ss|h|r| | |a b|b] d|e d|e| | |];
    try solve [unfold_handlers; repeat lighter_step].
  - destruct st; try discriminate Hs; unfold_handlers; repeat lighter_step.
  - destruct st, cst; try discriminate Hs; unfold_handlers; repeat lighter_step.
Qed.

Lemma lighter_ringing env st ev :
  spawns_ringing st ev = false -> respects (lighter local_ringing) (handle_event env st ev).
Proof.
  intros Hs.
  destruct ev as [| |h|cfg ali| | |r|r|r|[cst|ss|h|r| | |a b|b] d|e d|e| | |];
    try solve [unfold_handlers; repeat lighter_step].
  destruct st, cst; try discriminate Hs; unfold_handlers; repeat lighter_step.
Qed.

(** ** The events that spawn one *)

(** [m] spawns at most one of the kind. *)
Definition spawns_one p (m : ST (Fsm Conn) Error unit) : Prop :=
  forall f, (weight p (m f).1 <= weight p f + 1)%nat.

Lemma spawns_one_bind {A} p (m : ST (Fsm Conn) Error A) k :
  respects (lighter p) m -> (forall a, spawns_one p (k a)) -> spawns_one p (m ≫= k).
Proof.
  intros Hm Hk f. specialize (Hm f). unfold mbind, ST_bind, lighter in *.
  destruct (m f) as [f1 [a|e]]; cbn in *; [|lia]. specialize (Hk a f1). lia.
Qed.

Lemma spawns_one_worker p t : spawns_one p (worker_spawn t).
Proof. intros f. pose proof (weight_worker_spawn p t f). destruct (of_worker_task p t); lia. Qed.

Lemma spawns_one_notify p t : spawns_one p (notify_spawn t).
Proof.
  intros f. unfold notify_spawn, modify, weight. cbn. destruct (notify_stopped f); cbn; [lia|].
  rewrite count_app, count_one. destruct (of_notify_task p t); lia.
Qed.

(** A handler that spawns one changes the state of the call. *)
Definition spawns_and_moves p (after : CallState.CallState -> bool) (st : CallState.CallState)
    (f f' : Fsm Conn) : Prop :=
  lighter p f f' \/
  after st = false /\ after (state (call f')) = true /\ (weight p f' <= weight p f + 1)%nat.

Lemma call_set_state_run T f :
  on_call (Call.set_state T) f = (f <| call := (call f) <| state := T |> |>, Ok tt).
Proof. done. Qed.

Lemma call_worker_spawn t f : call (worker_spawn t f).1 = call f.
Proof. unfold worker_spawn, modify. cbn. by destruct (worker_stopped f). Qed.
Lemma call_notify_spawn t f : call (notify_spawn t f).1 = call f.
Proof. unfold notify_spawn, modify. cbn. by destruct (notify_stopped f). Qed.

Lemma state_remotely_accepted env d :
  respects (onk (same (state (Conn := Conn))))
    (handle_remotely_accepted_connection env d ;; activate_remotely_accepted_connection).
Proof. call_respects. Qed.

Lemma acceptance_moves env st ev f :
  spawns_and_moves acceptance after_acceptance st f (handle_event env st ev f).1.
Proof.
  destruct (spawns_acceptance st ev) eqn:Hs; [|left; by apply lighter_acceptance].
  destruct ev as [| |h|cfg ali| | |r|r|r|[cst|ss|h|r| | |a b|b] d|e d|e| | |]; destruct st;
    try discriminate Hs.
  - right. split_and!; [done| |].
    + change (after_acceptance (state (call (worker_spawn AcceptLocallyTask
        (f <| call := (call f) <| state := CallState.ConnectedAndAccepted |> |>)).1)) = true).
      by rewrite call_worker_spawn.
    + assert (spawns_one acceptance (handle_event env CallState.ConnectedBeforeAccepted
        CallEvent.AcceptCall)) as Hone; [|apply Hone].
      apply spawns_one_bind; [unfold_handlers; repeat lighter_step|]. intros _. apply spawns_one_worker.
  - destruct cst; try discriminate Hs. cbn [handle_event CallState.terminating_or_terminated
      handle_connection_observer_event]. unfold handle_connection_state_changed.
    rewrite ST_gets_bind. destruct (direction (call f)); [by left|].
    destruct (active_device_id_field (call f)) as [active|] eqn:Ha.
    2:{ left. unfold on_call, active_device_id, gets, mbind, ST_bind. rewrite Ha. by destruct f. }
    assert (on_call active_device_id f = (f, Ok active)) as Hrun.
    { unfold on_call, active_device_id, gets, mbind, ST_bind. rewrite Ha. by destruct f. }
    rewrite (ST_bind_run _ _ _ _ _ Hrun). case_bool_decide; [|by left]. right. split_and!; [done| |].
    + match goal with |- context [(?m ;; on_call ?n ;; ?k) f] =>
        change ((m ;; on_call n ;; k) f) with (k (on_call n (m f).1).1) end.
      unfold activate_remotely_accepted_connection. by rewrite call_worker_spawn.
    + match goal with |- context [(?m f).1] => assert (spawns_one acceptance m) as Hone; [|apply Hone] end.
      apply spawns_one_bind; [unfold_handlers; repeat lighter_step|]. intros _.
      apply spawns_one_bind; [unfold_handlers; repeat lighter_step|]. intros _.
      apply spawns_one_worker.
  - destruct cst; try discriminate Hs. cbn [handle_event CallState.terminating_or_terminated
      handle_connection_observer_event]. unfold handle_connection_state_changed.
    rewrite ST_gets_bind. destruct (direction (call f)); [by left|]. right. split_and!; [done| |].
    + rewrite (ST_bind_run _ _ _ _ _ (call_set_state_run _ f)).
      pose proof (state_remotely_accepted env d
        (f <| call := (call f) <| state := CallState.ConnectedAndAccepted |> |>)) as Hs'.
      unfold onk, same in Hs'. by rewrite Hs'.
    + match goal with |- context [(?m f).1] => assert (spawns_one acceptance m) as Hone; [|apply Hone] end.
      apply spawns_one_bind; [unfold_handlers; repeat lighter_step|]. intros _.
      apply spawns_one_bind; [unfold_handlers; repeat lighter_step|]. intros _.
      apply spawns_one_worker.
Qed.

Lemma ringing_moves env st ev f :
  spawns_and_moves local_ringing after_ringing st f (handle_event env st ev f).1.
Proof.
  destruct (spawns_ringing st ev) eqn:Hs; [|left; by apply lighter_ringing].
  destruct ev as [| |h|cfg ali| | |r|r|r|[cst|ss|h|r| | |a b|b] d|e d|e| | |]; destruct st;
    try discriminate Hs. destruct cst; try discriminate Hs.
  cbn [handle_event CallState.terminating_or_terminated handle_connection_observer_event].
  unfold handle_connection_state_changed. rewrite ST_gets_bind. right. split_and!; [done| |].
  - destruct (direction (call f)); rewrite (ST_bind_run _ _ _ _ _ (call_set_state_run _ f));
      unfold CallFsm.notify_application; by rewrite call_notify_spawn.
  - match goal with |- context [(?m f).1] => assert (spawns_one local_ringing m) as Hone; [|apply Hone] end.
    destruct (direction (call f)); (apply spawns_one_bind;
      [unfold_handlers; repeat lighter_step|intros _; apply spawns_one_notify]).
Qed.

(** ** At most once *)

Section Once.
Context (p : ApplicationEvent.ApplicationEvent -> bool) (after : CallState.CallState -> bool).
Hypothesis after_edge : forall st st', edge st st' -> after st = true -> after st' = true.
Hypothesis after_terminated : after CallState.Terminated = true.
Hypothesis moves : forall env st ev f,
  spawns_and_moves p after st f (handle_event env st ev f).1.

Definition budget (st : CallState.CallState) : nat := if after st then 1%nat else 0%nat.

Lemma budget_max st : (budget st <= 1)%nat.
Proof. unfold budget. destruct (after st); lia. Qed.

Lemma budget_step st st' : st' = st \/ edge st st' -> (budget st <= budget st')%nat.
Proof.
  unfold budget. intros [-> |He]; [done|].
  destruct (after st) eqn:Ha; [by rewrite (after_edge _ _ He Ha)|lia].
Qed.

(** No step but the handling of an event adds weight. *)
Lemma weight_other a s s' :
  of_others a = true -> act a s = Some s' -> (weight p (fsm s') <= weight p (fsm s))%nat.
Proof.
  intros Ha. destruct a as [| |env|env|env|d a|a|env a| |env]; try discriminate Ha; clear Ha.
  - unfold act. destruct (worker (fsm s)) as [|t w] eqn:Hw; [done|]. intros [= <-].
    unfold weight. cbn [fsm set_field worker notify call]. rewrite Hw, count_cons.
    pose proof (adds_worker_task p env t (call (fsm s))). lia.
  - unfold act. destruct (notify (fsm s)) as [|t w] eqn:Hw; [done|]. intros [= <-].
    unfold weight. cbn [fsm set_field worker notify call]. rewrite Hw, count_cons.
    pose proof (adds_notify_task p env t (call (fsm s))). lia.
  - by intros [m ->]%act_connection_call.
  - by intros [o ->]%act_parent_call.
  - unfold act. destruct (api_allowed _ _ _); [|done]. intros [= <-].
    pose proof (notified_api p env a (call (fsm s))) as Hn. unfold same in Hn.
    unfold weight. cbn [fsm set_field with_call worker notify call]. lia.
  - unfold act. case_bool_decide; [|done].
    pose proof (notified_terminate_begin p (call (fsm s))) as Hn.
    destruct (terminate_begin _) as [c r]. intros [= <-]. unfold weight, same in *. cbn in *. lia.
  - unfold act. destruct (_ && _); [|done]. intros [= <-].
    pose proof (notified_terminate_end p env (call (fsm s))) as Hn. unfold same in Hn.
    unfold weight. cbn [fsm set_field with_call worker notify call]. lia.
Qed.

(** What was sent or is about to be sent fits the state, and also the state that was read
    with an event that is not handled yet. *)
Definition within_budget (s : Sys Conn) : Prop :=
  (weight p (fsm s) <= budget (state (call (fsm s))))%nat /\
  match taken s with Some (st, _) => (weight p (fsm s) <= budget st)%nat | None => True end.

Lemma moved_budget s s' :
  moved s s' -> (budget (state (call (fsm s))) <= budget (state (call (fsm s'))))%nat.
Proof. apply budget_step. Qed.

Lemma handle_budget env s s' :
  WInv s -> within_budget s -> act (AHandle env) s = Some s' -> within_budget s'.
Proof.
  intros HW [Hb Ht] Hact. pose proof (handle_moved env s s' HW Hact) as Hm. unfold act in Hact.
  destruct (taken s) as [[st ev]|] eqn:Htk; [|done]. injection Hact as <-. split; [|done]. cbn [fsm set_field] in *.
  destruct (moves env st ev (fsm s)) as [Hl|(Ha & Ha' & Hw)].
  - unfold lighter in Hl. destruct Hm as [Hm%moved_budget|[(st0 & ev0 & Heq & _ & _ & He)|(_ & _ & Hs)]].
    + cbn [fsm set_field] in Hm. lia.
    + rewrite Htk in Heq. injection Heq as <- <-. pose proof (budget_step _ _ (or_intror He)) as Hs.
      cbn [fsm set_field] in Hs. lia.
    + pose proof (budget_max st). cbn [fsm set_field] in Hs. unfold budget at 1. rewrite Hs, after_terminated. lia.
  - unfold budget in *. rewrite Ha in Ht. rewrite Ha'. lia.
Qed.

Lemma recv_budget s s' : within_budget s -> act ARecv s = Some s' -> within_budget s'.
Proof.
  intros [Hb _]. unfold act. destruct (taken s), (recv (fsm s)) as [[f [st ev]]|] eqn:Hr; try done. intros [= <-].
  apply call_recv_spec in Hr as (-> & q & _ & ->). by split.
Qed.

Lemma weight_bounded id dir mt local s :
  interleaved (Call.new id dir mt local) s -> within_budget s.
Proof.
  induction 1 as [|s a s' Hr IH Hact]; [by split; [apply Nat.le_0_l|]|].
  apply WInv_interleaved in Hr as HW.
  destruct (of_others a) eqn:Ha.
  { pose proof (weight_other a s s' Ha Hact) as Hw. destruct IH as [Hb Ht].
    destruct (others_moved a s s' Ha HW Hact) as [Hm%moved_budget Htk].
    split; [lia|]. rewrite Htk. destruct (taken s) as [[st ev]|]; [lia|done]. }
  destruct a as [| |env|env|env|d a|a|env a| |env]; try discriminate Ha.
  - by eapply recv_budget.
  - by eapply handle_budget.
  - apply event_split in Hact as (s1 & H1 & H2). eapply handle_budget; [| |exact H2].
    + by eapply WInv_recv.
    + by eapply recv_budget.
Qed.

End Once.

(** *** The ringing of the remote devices: the flag *)

Definition remote_ringing (ev : ApplicationEvent.ApplicationEvent) : bool :=
  match ev with ApplicationEvent.RemoteRinging => true | _ => false end.

Definition flagged (c : Call Conn) : Prop :=
  (notified remote_ringing c <=
   if did_notify_application_of_remote_ringing c then 1 else 0)%nat.

Definition stays_flagged (c c' : Call Conn) : Prop := flagged c -> flagged c'.

#[local] Instance stays_flagged_preorder : PreOrder stays_flagged.
Proof. split; unfold stays_flagged; [by intros c|]. intros c1 c2 c3. auto. Qed.

Lemma flagged_manager env call :
  of_output remote_ringing call = false -> respects stays_flagged (manager (Conn := Conn) env call).
Proof.
  intros Hc c. unfold manager, modify, of_result, mbind, ST_bind, stays_flagged, flagged. cbn.
  by rewrite notified_emit.
Qed.

Lemma flagged_notify env ev : respects stays_flagged (Call.notify_application (Conn := Conn) env ev).
Proof.
  unfold Call.notify_application. case_bool_decide as Hev; [|apply flagged_manager; by destruct ev].
  subst. intros c. unfold stays_flagged, flagged, gets, modify, manager, of_result, mbind, ST_bind.
  destruct (did_notify_application_of_remote_ringing c); cbn; [done|].
  unfold notified. cbn. rewrite count_app, count_one. cbn. lia.
Qed.

#[local] Hint Resolve flagged_notify : respects.
#[local] Hint Extern 1 (respects stays_flagged (manager _ _)) =>
  apply flagged_manager; reflexivity : respects.
#[local] Hint Extern 2 (respects stays_flagged (modify _)) =>
  apply respects_modify; intros ? Hf; exact Hf : respects.
#[local] Hint Extern 2 (respects stays_flagged (on_connection _ _)) =>
  apply respects_on_connection; [typeclasses eauto|intros ? ? Hf; exact Hf] : respects.
#[local] Hint Extern 2 (respects stays_flagged (inject_event _)) =>
  unfold inject_event; solve_respects : respects.

Lemma flagged_step a s s' :
  act a s = Some s' -> stays_flagged (call (fsm s)) (call (fsm s')).
Proof.
  apply (act_respects stays_flagged); try (intros; intros Hf; exact Hf).
  - intros env st ev _. destruct ev; call_respects.
  - intros env t. destruct t; call_respects.
  - intros env t. destruct t; call_respects.
  - intros env b. destruct b; call_respects.
  - call_respects.
  - call_respects.
Qed.

Lemma flagged_interleaved id dir mt local s :
  interleaved (Call.new id dir mt local) s -> flagged (call (fsm s)).
Proof.
  induction 1 as [|s a s' Hr IH Hact]; [exact (Nat.le_0_l _)|]. by eapply flagged_step.
Qed.

(** C15. In every interleaving, also with other threads between taking and handling an event,
    the application is told at most once that the local
    device rings, at most once that the remote device rings, and at most once that
    the call was accepted, be it locally or remotely. *)
Theorem application_is_notified_once id dir mt local s :
  interleaved (Call.new id dir mt local) s ->
  (notified local_ringing (call (fsm s)) <= 1 /\
   notified remote_ringing (call (fsm s)) <= 1 /\
   notified acceptance (call (fsm s)) <= 1)%nat.
Proof.
  intros Hr.
  destruct (weight_bounded acceptance _ edge_after_acceptance eq_refl acceptance_moves _ _ _ _ _ Hr) as [Ha _].
  destruct (weight_bounded local_ringing _ edge_after_ringing eq_refl ringing_moves _ _ _ _ _ Hr) as [Hl _].
  pose proof (flagged_interleaved _ _ _ _ _ Hr) as Hf.
  unfold weight, budget, flagged in *. repeat case_match; lia.
Qed.

End Notify.
End CallNotify.
