(* ===== verification/CallComposition.v ===== *)
(** * Calls and connections together

    The theorems on connections assume that a connection is used in a certain way
    ([ConnectionSystem.api_allowed]); those on calls assume the laws of the
    interface of connections.  Put together, the assumptions are gone: every
    connection of every call is a run of the system of ConnectionSystem.v. *)

From S2P Require Import Prelude States Signaling ConnectionTypes Connection ConnectionStart.
From S2P Require Import ConnectionFsm ConnectionSystem.
From S2P Require Import Call CallConnections CallFsm CallSystem CallDevices.
Local Open Scope Z_scope.
Local Open Scope ringrtc_scope.

Module CallComposition.
Import CallConnections.

Section Composition.
Context `{SrtpCrypto} `{SdpFfi}.
Context `{Codec OfferProto} `{Codec AnswerProto} `{Codec IceCandidateProto} `{Codec RtpMessage}.
Context (message_size : Z).

#[local] Instance api : ConnectionApi ConnectionSystem.Sys := connection_api message_size.
#[local] Instance laws : ConnectionLaws ConnectionSystem.Sys := connection_laws message_size.

(** The connections a call holds or held. *)
Definition connection_of (c : Call.Call ConnectionSystem.Sys) (k : ConnectionSystem.Sys) : Prop :=
  (exists d, Call.connection_map c !! d = Some k) \/
  (exists f, Call.forking c = Some f /\ Call.parent_connection f = k) \/
  k ∈ Call.dropped c.

Lemma connection_of_new c k :
  CallDevices.connections_ok c -> connection_of c k -> of_new message_size k.
Proof.
  intros [Hm Hf Hd] [(d & Hk)|[(f & Hfk & <-)|Hk]].
  - by destruct (Hm d k Hk) as [(Hn & _) _].
  - by destruct (Hf f Hfk) as (Hn & _).
  - by destruct (Hd k Hk) as [(Hn & _)|(Hn & _)].
Qed.

(** C13. In every run of a call and its connections, in any order of their steps but with events
    that are handled as soon as they are taken, and though nothing stops the call from
    using a connection at a wrong moment: the states that each
    connection the call holds or has held went through are a walk in the diagram
    of connections from [NotYetStarted] to its state; and one that the call holds
    has been started, and not been terminated. *)
Theorem connections_of_calls_follow_diagram id dir mt local s k :
  CallSystem.reachable (Call.new id dir mt local) s ->
  connection_of (CallFsm.call (CallSystem.fsm s)) k ->
  ConnectionSystem.walk ConnectionState.NotYetStarted
    (ConnectionSystem.state_changes (ConnectionFsm.conn (ConnectionSystem.fsm k)))
    (Connection.state (ConnectionFsm.conn (ConnectionSystem.fsm k))) /\
  (forall d, Call.connection_map (CallFsm.call (CallSystem.fsm s)) !! d = Some k ->
    Connection.remote_device_id (ConnectionFsm.conn (ConnectionSystem.fsm k)) = d /\
    Connection.fsm_started (ConnectionFsm.conn (ConnectionSystem.fsm k)) = true /\
    ConnectionSystem.phase k = ConnectionSystem.NotCalled).
Proof.
  intros Hr Hk. apply CallDevices.connections_reachable in Hr as Hok. split.
  - destruct (connection_of_new _ k Hok Hk) as (id' & dir' & d & ct & cfg & ali & Hn).
    apply ConnectionSystem.Inv_reachable in Hn; [|done..].
    by apply ConnectionSystem.inv_walk.
  - intros d Hd. by destruct (CallDevices.ok_map _ Hok d k Hd) as [(_ & Hst & Hp) Hid].
Qed.

End Composition.
End CallComposition.
