(* ===== verification/CallExamples.v ===== *)
(** * Concrete calls

    A call with the connections of ConnectionSystem.v, on concrete inputs: an
    outgoing call to a peer with two devices, and an incoming one.  The theorems
    on calls apply to these runs; the last one shows an order of notifications the
    threads allow. *)

From S2P Require Import Prelude States Signaling ConnectionTypes Connection ConnectionStart.
From S2P Require Import ConnectionFsm ConnectionSystem ConnectionStatus.
From S2P Require Import Call CallConnections CallFsm CallSystem CallDiagram CallLive CallDevices.
From S2P Require Import CallHangup CallNotify CallComposition.
Local Open Scope Z_scope.
Local Open Scope ringrtc_scope.

Module CallExamples.
Import ConnectionStart ConnectionStatus.Toy.
Import Call CallFsm CallSystem CallDiagram CallLive CallDevices CallHangup CallNotify.

Notation Conn := ConnectionSystem.Sys.

#[export] Instance api : ConnectionApi Conn := CallConnections.connection_api 1000.
#[export] Instance laws : ConnectionLaws Conn := CallConnections.connection_laws 1000.

(** Nothing fails. *)
Definition env : CallEnv := mkCallEnv _ (fun _ => Ok tt) ok_env (setup 5) (fun ks => ks).

Definition answer (device : DeviceId) : ReceivedAnswer :=
  mkReceivedAnswer (mkAnswer [] (mkAnswerProto (Some (v4 11)))) device [] [].

Definition outgoing_call : Call Conn := Call.new 7 Outgoing Audio 1.
Definition incoming_call : Call Conn := Call.new 7 Incoming Audio 2.

Definition report (device : DeviceId) (st : ConnectionState.ConnectionState) : action Conn :=
  AApi env (ApiObserverEvent device (ConnectionObserverEvent.StateChanged st)).

(** The call is placed and two devices answer. *)
Definition dialled : list (action Conn) :=
  [AApi env ApiStartCall; AEvent env; AApi env (ApiSetCallContext 1);
   AApi env (ApiProceed default_call_config None); AEvent env; AWorker env;
   AApi env (ApiReceivedAnswer (answer 2)); AEvent env; AWorker env;
   AApi env (ApiReceivedAnswer (answer 3)); AEvent env; AWorker env].

(** The connection with [device] gets its incoming media. *)
Definition media (device : DeviceId) : list (action Conn) :=
  let own (a : ConnectionSystem.action) : action Conn := AConnection (device : DeviceId) (a : ConnAction (Conn := Conn)) in
  [own (ConnectionSystem.AApi ok_env (ConnectionSystem.ApiIncomingMedia 9));
   own (ConnectionSystem.AEvent ok_env); own (ConnectionSystem.AWorker ok_env)].

(** Device 2 rings. *)
Definition ringing : list (action Conn) :=
  dialled ++ media 2 ++ media 3 ++ [report 2 ConnectionState.ConnectedBeforeAccepted; AEvent env; ANotify env].

(** Device 3 accepts. *)
Definition accepted : list (action Conn) :=
  ringing ++ [report 3 ConnectionState.ConnectedAndAccepted; AEvent env; AWorker env; AWorker env].

(** The call is hung up; an event is queued when it is terminated. *)
Definition hung_up : list (action Conn) :=
  accepted ++ [AApi env (ApiSendHangup Hangup.Normal); AEvent env; AWorker env;
    AApi env (ApiReceivedIce (mkReceivedIce (mkIce []) 3)); ATerminateBegin].

(** What is looked at in a run. *)
Definition view {A} (g : Sys Conn -> A) (l : list (action Conn)) (c : Call Conn) : option A :=
  g <$> run l (init c).

Lemma view_run {A} (g : Sys Conn -> A) l c a :
  forallb atomic l = true -> view g l c = Some a ->
  exists s, run l (init c) = Some s /\ reachable c s /\ g s = a.
Proof.
  intros Hl. unfold view. destruct (run l (init c)) as [s|] eqn:Hrun; [|done]. intros [= <-].
  exists s. split_and!; [done| |done]. by eapply run_call_reachable; [apply reachable_init|..].
Qed.

Definition app_events (s : Sys Conn) : list ManagerCall :=
  List.filter (of_output (fun _ => true)) (outputs (call (fsm s))).

Example accepted_run :
  view (fun s => (state (call (fsm s)), active_device_id_field (call (fsm s)),
      (map_to_list (connection_map (call (fsm s)))).*1, length (dropped (call (fsm s))),
      app_events s)) accepted outgoing_call =
  Some (CallState.ConnectedAndAccepted, Some 3, [3], 1%nat,
    [ManagerNotifyApplication ApplicationEvent.RemoteRinging;
     ManagerNotifyApplication ApplicationEvent.RemoteAccepted]).
Proof. vm_compute. reflexivity. Qed.

(** ** Witnesses *)

Lemma call_states_follow_diagram_witness :
  exists s s' : Sys Conn, act (AEvent env) s = Some s' /\
    state (call (fsm s)) = CallState.ConnectedBeforeAccepted /\
    state (call (fsm s')) = CallState.ConnectedAndAccepted /\
    edge (state (call (fsm s))) (state (call (fsm s'))).
Proof.
  destruct (view_run (fun s => (state (call (fsm s)),
      (fun s' => state (call (fsm s'))) <$> act (AEvent env) s))
    (ringing ++ [report 3 ConnectionState.ConnectedAndAccepted]) outgoing_call
    (CallState.ConnectedBeforeAccepted, Some CallState.ConnectedAndAccepted))
    as (s & _ & Hr & [Hs Hs']%pair_equal_spec); [reflexivity|vm_compute; reflexivity|].
  destruct (act (AEvent env) s) as [s'|] eqn:Hact; [|discriminate Hs']. injection Hs' as Hs'.
  exists s, s'. split_and!; [done..|].
  destruct (call_states_follow_diagram 7 Outgoing Audio 1 s (AEvent env) s' (reachable_interleaved _ _ Hr) Hact)
    as (_ & _ & Hm). destruct (Hm Hr eq_refl) as [Heq|He]; [congruence|exact He].
Defined.

Lemma call_terminate_completes_witness :
  exists s s' s'' : Sys Conn, phase s = Waiting /\ act (ATerminateEnd env) s' = Some s'' /\
    all_released env (call (fsm s')) (call (fsm s'')).
Proof.
  destruct (view_run (fun s => phase s) hung_up outgoing_call Waiting) as (s & _ & Hr & Hp);
    [reflexivity|vm_compute; reflexivity|].
  destruct (call_terminate_completes 7 Outgoing Audio 1 s env Hr Hp)
    as (n & s' & s'' & _ & _ & Hact & _ & Hrel).
  exists s, s', s''. auto.
Defined.

Definition over_and_out : list (action Conn) :=
  hung_up ++ [AEvent env; AEvent env; ATerminateEnd env].

Lemma terminated_call_is_silent_witness :
  exists s s' : Sys Conn, phase s = Returned /\
    run [report 3 ConnectionState.IceFailed; AApi env (ApiSendBufferedIce 3 true)] s = Some s' /\
    outputs (call (fsm s')) = outputs (call (fsm s)).
Proof.
  destruct (view_run (fun s => (phase s,
      bool_decide (is_Some (run [report 3 ConnectionState.IceFailed;
        AApi env (ApiSendBufferedIce 3 true)] s))))
    over_and_out outgoing_call (Returned, true)) as (s & _ & Hr & [Hp Hsome]%pair_equal_spec);
    [reflexivity|vm_compute; reflexivity|].
  apply bool_decide_eq_true in Hsome as [s' Hrun].
  exists s, s'. split_and!; [done..|].
  eapply (terminated_call_is_silent 7 Outgoing Audio 1 s); [exact Hr|exact Hp| |exact Hrun].
  reflexivity.
Defined.

Lemma connections_are_used_by_protocol_witness :
  exists (s : Sys Conn) k, connection_map (call (fsm s)) !! 2 = Some k /\ conn_live k /\
    conn_remote_device_id k = 2 /\ forking (call (fsm s)) <> None.
Proof.
  destruct (view_run (fun s => (bool_decide (is_Some (connection_map (call (fsm s)) !! 2)),
      match forking (call (fsm s)) with Some _ => true | None => false end))
    ringing outgoing_call (true, true)) as (s & _ & Hr & [Hk Hf]%pair_equal_spec);
    [reflexivity|vm_compute; reflexivity|].
  apply bool_decide_eq_true in Hk as [k Hk].
  destruct (ok_map _ (connections_are_used_by_protocol 7 Outgoing Audio 1 s Hr) 2 k Hk) as [Hl Hid].
  exists s, k. split_and!; [done..|]. by destruct (forking (call (fsm s))).
Defined.

Lemma active_device_is_chosen_once_witness :
  exists s s' : Sys Conn, act (AEvent env) s = Some s' /\
    active_device_id_field (call (fsm s)) = None /\
    active_device_id_field (call (fsm s')) = Some 3 /\
    late (state (call (fsm s))) = false /\ CallState.accepted (state (call (fsm s'))) = true.
Proof.
  destruct (view_run (fun s => (active_device_id_field (call (fsm s)),
      (fun s' => active_device_id_field (call (fsm s'))) <$> act (AEvent env) s))
    (ringing ++ [report 3 ConnectionState.ConnectedAndAccepted]) outgoing_call
    (None, Some (Some 3))) as (s & _ & Hr & [Hs Hs']%pair_equal_spec); [reflexivity|vm_compute; reflexivity|].
  destruct (act (AEvent env) s) as [s'|] eqn:Hact; [|discriminate Hs']. injection Hs' as Hs'.
  exists s, s'.
  destruct (active_device_is_chosen_once 7 Audio 1 s (AEvent env) s' Hr eq_refl Hact)
    as (_ & Hch & _). destruct Hch as [Hl Ha]; [congruence|]. auto.
Defined.

Lemma connections_of_calls_follow_diagram_witness :
  exists (s : Sys Conn) k, connection_map (call (fsm s)) !! 2 = Some k /\
    ConnectionSystem.walk ConnectionState.NotYetStarted
      (ConnectionSystem.state_changes (ConnectionFsm.conn (ConnectionSystem.fsm k)))
      (Connection.state (ConnectionFsm.conn (ConnectionSystem.fsm k))).
Proof.
  destruct (view_run (fun s => bool_decide (is_Some (connection_map (call (fsm s)) !! 2)))
    ringing outgoing_call true) as (s & _ & Hr & Hk); [reflexivity|vm_compute; reflexivity|].
  apply bool_decide_eq_true in Hk as [k Hk]. exists s, k. split; [exact Hk|].
  apply (CallComposition.connections_of_calls_follow_diagram 1000 7 Outgoing Audio 1 s k);
    [exact Hr|]. left. by exists 2.
Defined.

(** Device 2 reports a failure after device 3 accepted. *)
Lemma inactive_device_is_ignored_witness :
  exists f : Fsm Conn, active_device_id_field (call f) = Some 3 /\
    ignored 2 3 f (handle_event env (state (call f)) (CallEvent.ConnectionObserverEvent
      (ConnectionObserverEvent.StateChanged ConnectionState.IceFailed) 2) f).1.
Proof.
  destruct (view_run (fun s => (active_device_id_field (call (fsm s)),
      CallState.accepted (state (call (fsm s))))) accepted outgoing_call (Some 3, true))
    as (s & _ & _ & [Ha Hacc]%pair_equal_spec); [reflexivity|vm_compute; reflexivity|].
  exists (fsm s). split; [exact Ha|].
  apply (inactive_device_is_ignored env (fsm s)); [exact Ha|discriminate|exact Hacc|reflexivity].
Defined.

(** A device of the callee that rings. *)
Definition ringing_callee (local : DeviceId) : Fsm Conn :=
  CallFsm.new ((Call.new 7 Incoming Audio local : Call Conn)
    <| state := CallState.ConnectedBeforeAccepted |> <| active_device_id_field := Some 1 |>).

(** Every connection in the map is under its device and takes a hangup. *)
Definition all_ready (h : Hangup.Hangup) (s : Sys Conn) : bool :=
  forallb (fun '(d, k) => bool_decide (conn_remote_device_id k = d) &&
      match (conn_inject_send_hangup_via_rtp_data (env_conn env) h k).2 with
      | Ok _ => true | Err _ => false end)
    (map_to_list (connection_map (call (fsm s)))).

Lemma all_ready_spec h s d k :
  all_ready h s = true -> connection_map (call (fsm s)) !! d = Some k ->
  conn_remote_device_id k = d /\ takes env h k.
Proof.
  unfold all_ready. rewrite forallb_forall. intros Hall Hk.
  specialize (Hall (d, k)). cbn in Hall.
  destruct (andb_prop _ _ (Hall (proj1 (list_elem_of_In _ _) (proj2 (elem_of_map_to_list _ d k) Hk))))
    as [Hid Hok].
  apply bool_decide_eq_true in Hid. split; [done|]. unfold takes. by destruct (_.2) as [[]|].
Qed.

(** Device 2 declines: device 3 stops ringing, device 2 ignores the message. *)
Lemma declined_call_ends_on_all_devices_witness :
  exists caller : Fsm Conn, direction (call caller) = Outgoing /\
    state (call (handle_event env (state (call caller))
      (CallEvent.ReceivedHangup (mkReceivedHangup Hangup.Normal 2)) caller).1) =
      CallState.Terminating /\
    state (call (handle_event env CallState.ConnectedBeforeAccepted (CallEvent.ReceivedHangup
      (mkReceivedHangup (Hangup.DeclinedOnAnotherDevice 2) 1)) (ringing_callee 3)).1) =
      CallState.Terminating.
Proof.
  destruct (view_run (fun s => (direction (call (fsm s)), active_device_id_field (call (fsm s)),
      CallState.should_propagate_hangup (state (call (fsm s))),
      all_ready (Hangup.DeclinedOnAnotherDevice 2) s, worker_stopped (fsm s)))
    ringing outgoing_call (Outgoing, None, true, true, false))
    as (s & _ & _ & [[[[Hd Ha]%pair_equal_spec Hp]%pair_equal_spec Hr]%pair_equal_spec
      Hw]%pair_equal_spec); [reflexivity|vm_compute; reflexivity|].
  exists (fsm s). split; [exact Hd|].
  destruct (declined_call_ends_on_all_devices env env (fsm s) (ringing_callee 3) 2 Hangup.Normal 1
    Hd Ha Hp Hw eq_refl eq_refl eq_refl eq_refl) as (Hst & _ & _ & _ & Hcallee); try done.
  intros d k Hk. destruct (all_ready_spec _ s d k Hr Hk). auto.
Defined.

(** Device 3 accepts while device 2 rings. *)
Lemma acceptance_picks_one_device_witness :
  exists (f : Fsm Conn) c', size (connection_map (call f)) = 2%nat /\
    c' = (run_worker_task env (TerminateOthersTask (Hangup.AcceptedOnAnotherDevice 3) 3)
      (call (handle_event env (state (call f)) (CallEvent.ConnectionObserverEvent
        (ConnectionObserverEvent.StateChanged ConnectionState.ConnectedAndAccepted) 3) f).1)).1 /\
    exists k, connection_map c' = {[ 3 := k ]}.
Proof.
  destruct (view_run (fun s => (size (connection_map (call (fsm s))), direction (call (fsm s)),
      active_device_id_field (call (fsm s)),
      state (call (fsm s)), all_ready (Hangup.AcceptedOnAnotherDevice 3) s,
      (fun k => (conn_set_stats_snapshot_consumer k).2) <$> (connection_map (call (fsm s)) !! 3),
      worker_stopped (fsm s)))
    ringing outgoing_call
    (2%nat, Outgoing, None, CallState.ConnectedBeforeAccepted, true, Some (Ok tt), false))
    as (s & _ & Hreach & [[[[[[Hsz Hd]%pair_equal_spec Ha]%pair_equal_spec Hst]%pair_equal_spec
      Hr]%pair_equal_spec Hk]%pair_equal_spec Hw]%pair_equal_spec);
    [reflexivity|vm_compute; reflexivity|].
  destruct (connection_map (call (fsm s)) !! 3) as [k|] eqn:Hk3; [|discriminate Hk].
  injection Hk as Hk.
  assert (connections_ok (call (fsm s))) as Hok.
  { by apply (connections_reachable 7 Outgoing Audio 1). }
  exists (fsm s). eexists. split; [exact Hsz|]. split; [reflexivity|].
  exists (conn_set_stats_snapshot_consumer k).1.
  apply (acceptance_picks_one_device env (fsm s) 3 ConnectionState.ConnectedAndAccepted k);
    try done.
  - by rewrite Hst.
  - intros x k' _ Hx. by destruct (all_ready_spec _ s x k' Hr Hx).
Defined.

Lemma application_is_notified_once_witness :
  exists s : Sys Conn, app_events s =
      [ManagerNotifyApplication ApplicationEvent.RemoteRinging;
       ManagerNotifyApplication ApplicationEvent.RemoteAccepted] /\
    (notified acceptance (call (fsm s)) <= 1)%nat.
Proof.
  destruct (view_run app_events accepted outgoing_call
    [ManagerNotifyApplication ApplicationEvent.RemoteRinging;
     ManagerNotifyApplication ApplicationEvent.RemoteAccepted]) as (s & _ & Hr & Hs);
    [reflexivity|vm_compute; reflexivity|].
  exists s. split; [exact Hs|]. by apply (application_is_notified_once 7 Outgoing Audio 1 s (reachable_interleaved _ _ Hr)).
Defined.

(** ** An order of notifications *)

(** Device 3 accepts before it is connected, then connects; the worker thread is
    faster than the notify thread. *)
Definition accepted_before_connected : list (action Conn) :=
  dialled ++ media 3 ++
  [report 3 ConnectionState.ConnectingAfterAccepted; AEvent env; AWorker env;
   report 3 ConnectionState.ConnectedAndAccepted; AEvent env; AWorker env; ANotify env].

(** When the callee accepts before the connection is up, the state machine tells
    the application that the remote device rings before it activates the call, so
    that the application goes through the states it expects; but the two
    notifications are made by different threads, and the application can be told
    of the acceptance first. *)
Theorem ringing_can_follow_acceptance :
  view (fun s => (state (call (fsm s)), app_events s)) accepted_before_connected outgoing_call =
  Some (CallState.ConnectedAndAccepted,
    [ManagerNotifyApplication ApplicationEvent.RemoteAccepted;
     ManagerNotifyApplication ApplicationEvent.RemoteRinging]).
Proof. vm_compute. reflexivity. Qed.

End CallExamples.
