(* ===== verification/CallManager.v ===== *)
(** * The call manager (src/rust/src/core/call_manager.rs)

    The call manager owns the one-to-one calls and the group call clients.  Its
    own thread, the worker, runs the requests of the application one by one;
    calls use it from their threads at the same time.  Every method is a [prog]:
    its atoms are the scopes of the locks, so that other threads run in between.
    The one lock held over several steps is the guard of [busy] in
    [handle_received_offer] ([busy_guard]).

    Calls are shared objects: [calls] is the memory they are in, [call_count] the
    number of calls made so far; a call is known by its place in the memory, and a
    reference to a call never dangles.  What the manager uses of a call is the interface
    [CallApi]; the functions of the application are recorded in [outputs] and
    answered by an environment. *)

From S2P Require Import Prelude Threads States Signaling ConnectionTypes Connection ConnectionStart.
From S2P Require Import Call CallFsm CallSystem.
Local Open Scope Z_scope.
Local Open Scope ringrtc_scope.

(** ** Calls, as the manager uses them *)

(** [k_conn] are references to connections of the call, captured by messages that
    wait to be sent. *)
Class CallApi (Peer K : Type) : Type := {
  k_conn : Type;
  k_new : Peer -> CallId -> CallDirection -> CallMediaType -> DeviceId -> K;
  k_call_id : K -> CallId;
  k_direction : K -> CallDirection;
  k_remote_peer : K -> Peer;
  k_state : K -> CallState.CallState;
  k_active_device_id : K -> option DeviceId;
  k_should_send_hangup : K -> bool;
  k_api : CallSystem.Api -> ST K Error unit;
  k_hangup_via_rtp_data_to_all_except : Hangup.Hangup -> DeviceId -> ST K Error unit;
  k_terminate : ST K Error unit;
  k_can_send_messages : k_conn -> K -> bool;
  k_take_buffered_local_ice_candidates : k_conn -> ST K Error (list IceCandidate.IceCandidate);
  k_remote_device_id : k_conn -> K -> DeviceId;
}.

(** What a call is made for never changes. *)
Definition k_same {Peer K} `{CallApi Peer K} : relation K := fun k k' =>
  k_call_id k' = k_call_id k /\ k_direction k' = k_direction k /\ k_remote_peer k' = k_remote_peer k.

Class CallLaws (Peer K : Type) `{CallApi Peer K} : Prop := {
  new_call_id p id d mt l : k_call_id (k_new p id d mt l) = id;
  new_direction p id d mt l : k_direction (k_new p id d mt l) = d;
  new_remote_peer p id d mt l : k_remote_peer (k_new p id d mt l) = p;
  api_same a : respects k_same (k_api a);
  hangup_same h d : respects k_same (k_hangup_via_rtp_data_to_all_except h d);
  terminate_same : respects k_same k_terminate;
  take_ice_same c : respects k_same (k_take_buffered_local_ice_candidates c);
}.

#[global] Instance k_same_preorder {Peer K} `{CallApi Peer K} : PreOrder k_same.
Proof.
  split; unfold k_same; [done|]. intros k1 k2 k3 (-> & -> & ->) (-> & -> & ->). done.
Qed.

(** ** Messages about group calls (signaling.proto, group_call.proto)

    A message with a single field is that field. *)

Definition GroupId : Type := list Z.
Definition UserId : Type := list Z.
Definition RingId : Type := Z.
Definition ClientId : Type := Z.

Record MediaKey : Type := mkMediaKey {
  mk_ratchet_counter : option Z;
  mk_secret : option (list Z);
  mk_demux_id : option Z;
}.

Record HeartbeatProto : Type := mkHeartbeat {
  hb_audio_muted : option bool;
  hb_video_muted : option bool;
  hb_presenting : option bool;
  hb_sharing_screen : option bool;
  hb_muted_by_demux_id : option Z;
}.

Record DeviceToDevice : Type := mkDeviceToDevice {
  d2d_group_id : option GroupId;
  d2d_media_key : option MediaKey;
  d2d_heartbeat : option HeartbeatProto;
  d2d_leaving : option (option Z);
  d2d_reaction : option (option string);
  d2d_remote_mute_request : option (option Z);
}.

Record RingIntention : Type := mkRingIntention {
  ri_group_id : option GroupId;
  ri_type : option Z;
  ri_ring_id : option Z;
}.

Record RingResponse : Type := mkRingResponse {
  rr_group_id : option GroupId;
  rr_type : option Z;
  rr_ring_id : option Z;
}.

Record CallMessage : Type := mkCallMessage {
  group_call_message : option DeviceToDevice;
  ring_intention : option RingIntention;
  ring_response : option RingResponse;
}.

Inductive IntentionType : Type := IntentionRing | IntentionCancelled.
Inductive ResponseType : Type :=
| ResponseRinging | ResponseAccepted | ResponseDeclined | ResponseBusy.

#[global] Instance IntentionType_eq_dec : EqDecision IntentionType.
Proof. solve_decision. Defined.
#[global] Instance ResponseType_eq_dec : EqDecision ResponseType.
Proof. solve_decision. Defined.

Definition intention_type (ty : Z) : option IntentionType :=
  if ty =? 0 then Some IntentionRing else if ty =? 1 then Some IntentionCancelled else None.
Definition response_type (ty : Z) : option ResponseType :=
  if ty =? 0 then Some ResponseRinging else if ty =? 1 then Some ResponseAccepted
  else if ty =? 2 then Some ResponseDeclined else if ty =? 3 then Some ResponseBusy else None.
Definition response_type_to_i32 (ty : ResponseType) : Z :=
  match ty with
  | ResponseRinging => 0 | ResponseAccepted => 1 | ResponseDeclined => 2 | ResponseBusy => 3
  end.

Inductive RingUpdate : Type :=
| Requested
| ExpiredRequest
| AcceptedOnAnotherDevice
| DeclinedOnAnotherDevice
| BusyLocally
| BusyOnAnotherDevice
| CancelledByRinger.

#[global] Instance RingUpdate_eq_dec : EqDecision RingUpdate.
Proof. solve_decision. Defined.

Inductive RingCancelReason : Type := DeclinedByUser | RingBusy.
Inductive SignalingMessageUrgency : Type := Droppable | HandleImmediately.

(** Requests the manager passes on to a client (the [forward_group_call_api!]
    lines), and its own. *)
Inductive GroupRequest : Type :=
| GroupConnect | GroupJoin | GroupLeave | GroupDisconnect
| GroupReact (value : string)
| GroupRaiseHand (raise : bool)
| GroupRing (recipient : option UserId)
| GroupSetOutgoingAudioMuted (muted : bool)
| GroupSetOutgoingAudioMutedRemotely (source : Z)
| GroupSendRemoteMuteRequest (target : Z)
| GroupSetOutgoingVideoMuted (muted : bool)
| GroupSetPresenting (presenting : bool)
| GroupSetSharingScreen (sharing_screen : bool)
| GroupResendMediaKeys
| GroupSetDataMode (mode : DataMode.DataMode)
| GroupRequestVideo (rendered_resolutions : list (Z * Z * Z)) (active_speaker_height : Z)
| GroupApproveUser (user : UserId)
| GroupDenyUser (user : UserId)
| GroupRemoveClient (other : Z)
| GroupBlockClient (other : Z)
| GroupSetGroupMembers (members : list (UserId * list Z))
| GroupSetMembershipProof (proof : list Z)
| GroupSetRtcStatsInterval (interval : Z)
| GroupProvideRingIdIfAbsent (ring_id : RingId)
| GroupSignalingMessageReceived (sender : UserId) (message : DeviceToDevice).

(** Durations are in nanoseconds. *)
Definition MAX_MESSAGE_AGE : Z := 60 * 10 ^ 9.
Definition TIME_OUT_PERIOD : Z := 60 * 10 ^ 9.
Definition INVALID_CLIENT_ID : ClientId := 0.
Definition MAX_PENDING_ICE : Z := 30.

(** ** Stateless checks *)

Inductive OfferValidationError : Type := OfferExpired.

Definition validate_offer (received : ReceivedOffer) : result unit OfferValidationError :=
  if ro_age received >? MAX_MESSAGE_AGE then Err OfferExpired else Ok tt.

Inductive OpaqueRingValidationError : Type := NotARing | RingExpired | RejectedByCallback.

Definition validate_call_message_as_opaque_ring (message : CallMessage) (message_age : Z)
    (validate_group_ring : GroupId -> RingId -> bool) : result unit OpaqueRingValidationError :=
  match ring_intention message with
  | Some (mkRingIntention (Some group_id) (Some ring_type) (Some ring_id)) =>
    if negb (bool_decide (intention_type ring_type = Some IntentionRing)) then Err NotARing
    else if message_age >? MAX_MESSAGE_AGE then Err RingExpired
    else if negb (validate_group_ring group_id ring_id) then Err RejectedByCallback
    else Ok tt
  | _ => Err NotARing
  end.

(** ** The manager *)

Module CallManager.
Section Manager.
Context {Peer K : Type} `{!CallApi Peer K} `{!Codec CallMessage}.

(** A call in memory. *)
Definition CallRef : Type := nat.

(** The closure of a message says what it captured. *)
Inductive MessageClosure : Type :=
| HangupClosure (call : CallRef) (call_id : CallId) (send : SendHangup)
| BusyClosure (call : CallRef) (call_id : CallId)
| OfferClosure (call : CallRef) (connection : k_conn) (call_id : CallId) (offer : Offer)
| AnswerClosure (call : CallRef) (connection : k_conn) (call_id : CallId) (send : SendAnswer)
| IceClosure (call : CallRef) (connection : k_conn) (call_id : CallId) (broadcast : bool).

Inductive MessageSendResult : Type := Sent | NotSent.

#[global] Instance MessageSendResult_eq_dec : EqDecision MessageSendResult.
Proof. solve_decision. Defined.

Record SignalingMessageItem : Type := mkItem {
  item_call_id : CallId;
  item_message_type : MessageType;
  item_closure : MessageClosure;
}.

Record SignalingMessageQueue : Type := mkQueue {
  queue : list SignalingMessageItem;
  last_sent_message_type : option MessageType;
  messages_in_flight : bool;
}.

#[global] Instance SignalingMessageQueue_eta : Eta SignalingMessageQueue := fun r =>
  mkQueue (queue r) (last_sent_message_type r) (messages_in_flight r).

Record OutstandingGroupRing : Type := mkRing {
  ring_sender_id : UserId;
  ring_ring_id : RingId;
  ring_received : Z;
}.

Inductive ReceivedOfferCollision : Type :=
| NoCollision | Busy | GlareWinner | GlareLoser | GlareDoubleLoser | ReCall.

#[global] Instance ReceivedOfferCollision_eq_dec : EqDecision ReceivedOfferCollision.
Proof. solve_decision. Defined.

Inductive PendingCallMessages : Type :=
| NoPending
| PendingIce (remote_peer : Peer) (call_id : CallId) (received : list ReceivedIce)
| PendingHangup (remote_peer : Peer) (call_id : CallId) (received : ReceivedHangup).

Record GroupCallClient : Type := mkGroupCallClient {
  client_group_id : GroupId;
  active : bool;
}.

#[global] Instance GroupCallClient_eta : Eta GroupCallClient := fun r =>
  mkGroupCallClient (client_group_id r) (active r).

(** Functions of the application ([Platform]) and of group call clients. *)
Inductive Output : Type :=
| OnStartCall (peer : Peer) (id : CallId) (direction : CallDirection) (mt : CallMediaType)
| OnCallEnded (peer : Peer) (id : CallId) (reason : CallEndReason.CallEndReason)
| OnEvent (peer : Peer) (id : CallId) (event : ApplicationEvent.ApplicationEvent)
| OnNetworkRouteChanged (peer : Peer) (route : NetworkRoute)
| OnAudioLevels (peer : Peer) (captured received : Z)
| OnLowBandwidthForVideo (peer : Peer) (recovered : bool)
| CreateConnection (call : CallRef) (device : DeviceId) (ct : ConnectionType)
| DisconnectIncomingMedia (call : CallRef)
| OnOfferExpired (peer : Peer) (id : CallId) (age : Z)
| OnCallConcluded (peer : Peer) (id : CallId)
| OnSendOffer (peer : Peer) (id : CallId) (offer : Offer)
| OnSendAnswer (peer : Peer) (id : CallId) (send : SendAnswer)
| OnSendIce (peer : Peer) (id : CallId) (send : SendIce)
| OnSendHangup (peer : Peer) (id : CallId) (send : SendHangup)
| OnSendBusy (peer : Peer) (id : CallId)
| SendCallMessage (recipient : UserId) (message : list Z) (urgency : SignalingMessageUrgency)
| GroupCallRingUpdate (group : GroupId) (ring : RingId) (sender : UserId) (update : RingUpdate)
| StartGroupClient (client : ClientId) (group : GroupId) (call_link : bool) (ring : option RingId)
| ToGroupClient (client : ClientId) (request : GroupRequest).

(** Closures of the worker. *)
Inductive Task : Type :=
| CallTask (peer : Peer) (id : CallId) (mt : CallMediaType) (local : DeviceId)
| AcceptCallTask (id : CallId)
| DropCallTask (id : CallId)
| ProceedTask (id : CallId) (context : Z) (cfg : CallConfig) (audio_levels_interval : option Z)
| MessageSentTask (id : CallId)
| MessageSendFailureTask (id : CallId)
| HangupTask
| ReceivedOfferTask (peer : Peer) (id : CallId) (received : ReceivedOffer)
| ReceivedAnswerTask (peer : Peer) (id : CallId) (received : ReceivedAnswer)
| ReceivedIceTask (peer : Peer) (id : CallId) (received : ReceivedIce)
| ReceivedHangupTask (peer : Peer) (id : CallId) (received : ReceivedHangup)
| ReceivedBusyTask (peer : Peer) (id : CallId) (received : ReceivedBusy)
| ReceivedCallMessageTask (sender : UserId) (message : list Z) (message_age : Z)
| ResetTask
| TerminateTask (call : CallRef) (hangup : option Hangup.Hangup)
| RingTimeoutTask (group : GroupId) (ring : RingId) (sender : UserId).

Record CallManager : Type := mkCallManager {
  self_uuid : option UserId;
  call_by_call_id : gmap CallId CallRef;
  active_call_id : option CallId;
  pending_call_messages : PendingCallMessages;
  group_call_by_client_id : gmap ClientId GroupCallClient;
  next_group_call_client_id : Z;
  outstanding_group_rings : gmap GroupId OutstandingGroupRing;
  busy : bool;
  busy_guard : bool;
  message_queue : SignalingMessageQueue;
  worker : list Task;
  delayed : list Task;
  worker_stopped : bool;
  calls : CallRef -> K;
  call_count : nat;
  outputs : list (Output * bool);
}.

#[global] Instance CallManager_eta : Eta CallManager := fun r =>
  mkCallManager (self_uuid r) (call_by_call_id r) (active_call_id r) (pending_call_messages r)
    (group_call_by_client_id r) (next_group_call_client_id r) (outstanding_group_rings r)
    (busy r) (busy_guard r) (message_queue r) (worker r) (delayed r) (worker_stopped r)
    (calls r) (call_count r) (outputs r).

(** [memory] is the memory calls will be put in. *)
Definition new (memory : CallRef -> K) : CallManager :=
  mkCallManager None ∅ None NoPending ∅ 0 ∅ false false (mkQueue [] None false) [] [] false
    memory 0 [].

(** What the outside answers during a request.  [pe_order] is the order in which
    the hash map of calls is walked. *)
Record PlatformEnv : Type := mkPlatformEnv {
  pe_platform : Output -> result unit Error;
  pe_compare_remotes : Peer -> Peer -> result bool Error;
  pe_assume_messages_sent : bool;
  pe_call_new : result unit Error;
  pe_start_timer : result unit Error;
  pe_start_client : result unit Error;
  pe_derive_room_id : list Z -> GroupId;
  pe_endorsement_key : list Z -> result unit Error;
  pe_now : Z;
  pe_order : list CallRef -> list CallRef;
}.

Notation CM := (ST CallManager Error).
Notation PM := (prog CallManager Error).

Section Methods.
Context (env : PlatformEnv).

(** ** Access to calls, to the application and to the worker *)

Definition with_call {A} (r : CallRef) (m : ST K Error A) : CM A := fun s =>
  let '(k', res) := m (calls s r) in (s <| calls := <[r := k']> (calls s) |>, res).

Definition of_call {A} (r : CallRef) (f : K -> A) : CM A := gets (fun s => f (calls s r)).
Definition request (r : CallRef) (a : CallSystem.Api) : PM unit := atom (with_call r (k_api a)).

(** Each function called is recorded with whether it succeeded. *)
Definition emit (o : Output) (ok : bool) : CM unit :=
  modify (fun s => s <| outputs := outputs s ++ [(o, ok)] |>).
Definition platform_call (o : Output) : CM unit :=
  emit o (is_ok (pe_platform env o)) ;; of_result (pe_platform env o).
Definition platform (o : Output) : PM unit := atom (platform_call o).

(** [compare_remotes(..).unwrap_or(false)] *)
Definition same_remote (p q : Peer) : bool :=
  match pe_compare_remotes env p q with Ok b => b | Err _ => false end.

Definition worker_spawn (t : Task) : PM unit :=
  atom (modify (fun s => if worker_stopped s then s else s <| worker := worker s ++ [t] |>)).

(** ** Reading and clearing the active call *)

Definition active_call_m : CM CallRef :=
  a ← gets active_call_id;
  match a with
  | Some id =>
    m ← gets call_by_call_id;
    match m !! id with
    | Some r => mret r
    | None => fail (RingRtcError.CallIdNotFound id)
    end
  | None => fail RingRtcError.NoActiveCall
  end.

Definition active_call : PM CallRef := atom active_call_m.
Definition call_active : PM bool := atom (gets (fun s => bool_decide (is_Some (active_call_id s)))).
Definition call_is_active (id : CallId) : PM bool :=
  atom (gets (fun s => bool_decide (active_call_id s = Some id))).
Definition clear_active_call : PM unit := atom (modify (fun s => s <| active_call_id := None |>)).

(** Waits while [handle_received_offer] holds the guard of [busy]. *)
Definition release_busy : PM unit :=
  atom_unless busy_guard (modify (fun s => s <| busy := false |>)).

(** ** Notifications of the application *)

Definition remote_peer (r : CallRef) : PM Peer := atom (of_call r k_remote_peer).

Definition start_call (peer : Peer) (id : CallId) (dir : CallDirection) (mt : CallMediaType)
  : PM unit := platform (OnStartCall peer id dir mt).
Definition on_call_ended (peer : Peer) (id : CallId) (reason : CallEndReason.CallEndReason)
  : PM unit := platform (OnCallEnded peer id reason).
Definition notify_application (peer : Peer) (id : CallId) (event : ApplicationEvent.ApplicationEvent)
  : PM unit := platform (OnEvent peer id event).
Definition notify_network_route_changed (peer : Peer) (route : NetworkRoute) : PM unit :=
  platform (OnNetworkRouteChanged peer route).
Definition notify_audio_levels (peer : Peer) (captured received : Z) : PM unit :=
  platform (OnAudioLevels peer captured received).
Definition notify_low_bandwidth_for_video (peer : Peer) (recovered : bool) : PM unit :=
  platform (OnLowBandwidthForVideo peer recovered).
Definition create_connection (r : CallRef) (device : DeviceId) (ct : ConnectionType) : PM unit :=
  platform (CreateConnection r device ct).
Definition disconnect_incoming_media (r : CallRef) : PM unit := platform (DisconnectIncomingMedia r).
Definition notify_offer_expired (peer : Peer) (id : CallId) (age : Z) : PM unit :=
  platform (OnOfferExpired peer id age).
Definition notify_call_concluded (peer : Peer) (id : CallId) : PM unit :=
  platform (OnCallConcluded peer id).

(** ** Ending calls *)

Definition update_queue (f : SignalingMessageQueue -> SignalingMessageQueue) : CM unit :=
  modify (fun s => s <| message_queue := f (message_queue s) |>).

Definition reset_in_flight : CM unit := update_queue (fun q => q <| messages_in_flight := false |>).
Definition reset_messages_in_flight : PM unit := atom reset_in_flight.

(** Messages that stay when a call ends. *)
Definition kept_by_trim (id : CallId) (x : SignalingMessageItem) : bool :=
  negb (item_call_id x =? id) || bool_decide (item_message_type x = TBusy)
  || bool_decide (item_message_type x = THangup).

Definition trim_messages (id : CallId) : PM unit :=
  atom (update_queue (fun q => q <| queue := filter (fun x => kept_by_trim id x = true) (queue q) |>)).

Definition terminate_call (r : CallRef) (hangup : option Hangup.Hangup)
    (reason : option CallEndReason.CallEndReason) : PM unit :=
  call_id ← atom (of_call r k_call_id);
  trim_messages call_id ;;
  match reason with
  | Some reason => peer ← remote_peer r; on_call_ended peer call_id reason
  | None => done_ok
  end ;;
  match hangup with
  | Some hangup => request r (CallSystem.ApiSendHangup hangup)
  | None => done_ok
  end ;;
  worker_spawn (TerminateTask r hangup).

Definition terminate_active_call (send_hangup : bool) (reason : CallEndReason.CallEndReason)
  : PM unit :=
  is_active ← call_active;
  if negb is_active then done_ok
  else
    r ← active_call;
    clear_active_call ;;
    release_busy ;;
    terminate_call r (if send_hangup then Some Hangup.Normal else None) (Some reason).

Definition handle_terminate_active_call (r : CallRef) (hangup : option Hangup.Hangup)
    (reason : CallEndReason.CallEndReason) : PM unit :=
  clear_active_call ;;
  release_busy ;;
  terminate_call r hangup (Some reason).

(** [Call::should_send_hangup_on_failure] *)
Definition should_send_hangup_on_failure (k : K) : bool :=
  match k_direction k with
  | Incoming => CallState.accepted (k_state k)
  | Outgoing => true
  end.

Definition remote_hangup (id : CallId) (reason : option CallEndReason.CallEndReason) : PM unit :=
  is_active ← call_is_active id;
  if is_active : bool then
    match reason with
    | Some reason => terminate_active_call false reason
    | None => terminate_active_call false CallEndReason.RemoteHangup
    end
  else done_ok.

Definition timeout (id : CallId) : PM unit :=
  is_active ← call_is_active id;
  if is_active : bool then terminate_active_call true CallEndReason.Timeout else done_ok.

Definition connection_failure (id : CallId) : PM unit :=
  is_active ← call_is_active id;
  if is_active : bool then
    r ← active_call;
    send_hangup ← atom (of_call r should_send_hangup_on_failure);
    terminate_active_call send_hangup CallEndReason.ConnectionFailure
  else done_ok.

Definition internal_error (id : CallId) : PM unit :=
  is_active ← call_is_active id;
  if is_active : bool then
    r ← active_call;
    send_hangup ← atom (of_call r should_send_hangup_on_failure);
    terminate_active_call send_hangup CallEndReason.InternalFailure
  else done_ok.

Definition internal_api_error : PM unit :=
  a ← try active_call;
  match a with
  | Ok r => id ← atom (of_call r k_call_id); internal_error id
  | Err _ => done_ok
  end.

(** ** The message queue *)

(** Run a message's closure, under the lock of the queue. *)
Definition run_closure (c : MessageClosure) : CM MessageSendResult :=
  match c with
  | HangupClosure r id send =>
    peer ← of_call r k_remote_peer;
    platform_call (OnSendHangup peer id send) ;; mret Sent
  | BusyClosure r id =>
    peer ← of_call r k_remote_peer;
    platform_call (OnSendBusy peer id) ;; mret Sent
  | OfferClosure r conn id offer =>
    peer ← of_call r k_remote_peer;
    can_send ← of_call r (k_can_send_messages conn);
    if can_send : bool then platform_call (OnSendOffer peer id offer) ;; mret Sent
    else mret NotSent
  | AnswerClosure r conn id send =>
    peer ← of_call r k_remote_peer;
    can_send ← of_call r (k_can_send_messages conn);
    if can_send : bool then platform_call (OnSendAnswer peer id send) ;; mret Sent
    else mret NotSent
  | IceClosure r conn id broadcast =>
    local_candidates ← with_call r (k_take_buffered_local_ice_candidates conn);
    if bool_decide (local_candidates = []) then mret NotSent
    else
      peer ← of_call r k_remote_peer;
      device ← of_call r (k_remote_device_id conn);
      platform_call (OnSendIce peer id
        (mkSendIce (mkIce local_candidates) (if broadcast then None else Some device))) ;;
      mret Sent
  end.

(** One round of the loop of [send_next_message], under the lock of the queue:
    stop, go on, or report the error of a closure first. *)
Inductive Round : Type := Stop | Continue | ClosureError (id : CallId).

Definition send_round (assume_messages_sent : bool) : CM Round :=
  q ← gets message_queue;
  if messages_in_flight q then mret Stop
  else match queue q with
  | [] => mret Stop
  | item :: rest =>
    update_queue (fun q => q <| queue := rest |>) ;;
    res ← attempt (run_closure (item_closure item));
    match res with
    | Ok sent =>
      let in_flight := bool_decide (sent = Sent) && negb assume_messages_sent in
      update_queue (fun q => q <| messages_in_flight := in_flight |>
                               <| last_sent_message_type := Some (item_message_type item) |>) ;;
      mret (if in_flight then Stop else Continue)
    | Err _ => mret (ClosureError (item_call_id item))
    end
  end.

Definition send_next_message (item : option SignalingMessageItem) : PM unit :=
  match item with
  | Some item => atom (update_queue (fun q => q <| queue := queue q ++ [item] |>))
  | None => done_ok
  end ;;
  loop (
    round ← atom (send_round (pe_assume_messages_sent env));
    match round with
    | Stop => mret (Some tt)
    | Continue => mret None
    | ClosureError id => internal_error id ;; mret None
    end).

Definition send_hangup (r : CallRef) (id : CallId) (send : SendHangup) : PM unit :=
  send_next_message (Some (mkItem id THangup (HangupClosure r id send))).

Definition send_busy (r : CallRef) : PM unit :=
  id ← atom (of_call r k_call_id);
  send_next_message (Some (mkItem id TBusy (BusyClosure r id))).

Definition send_offer (r : CallRef) (connection : k_conn) (offer : Offer) : PM unit :=
  id ← atom (of_call r k_call_id);
  send_next_message (Some (mkItem id TOffer (OfferClosure r connection id offer))).

Definition send_answer (r : CallRef) (connection : k_conn) (send : SendAnswer) : PM unit :=
  id ← atom (of_call r k_call_id);
  send_next_message (Some (mkItem id TAnswer (AnswerClosure r connection id send))).

Definition send_buffered_local_ice_candidates (r : CallRef) (connection : k_conn) (broadcast : bool)
  : PM unit :=
  id ← atom (of_call r k_call_id);
  send_next_message (Some (mkItem id TIce (IceClosure r connection id broadcast))).

(** The closure that [terminate_call] leaves to the worker. *)
Definition terminate_and_drop_call (id : CallId) : PM unit :=
  r ← atom (m ← gets call_by_call_id;
            match m !! id with
            | Some r => modify (fun s => s <| call_by_call_id := delete id (call_by_call_id s) |>) ;; mret r
            | None => fail (RingRtcError.CallIdNotFound id)
            end);
  atom (with_call r k_terminate).

Definition conclude_call (r : CallRef) (hangup : option Hangup.Hangup) : PM unit :=
  id ← atom (of_call r k_call_id);
  res ← try (
    match hangup with
    | Some hangup =>
      should_send ← atom (of_call r k_should_send_hangup);
      if should_send : bool then send_hangup r id (mkSendHangup hangup) else done_ok
    | None => done_ok
    end ;;
    terminate_and_drop_call id);
  match res with
  | Ok _ => done_ok
  | Err _ =>
    peer ← try (remote_peer r);
    match peer with
    | Ok peer => _ ← try (on_call_ended peer id CallEndReason.InternalFailure); done_ok
    | Err _ => done_ok
    end
  end.

(** ** Requests of the application, on the worker *)

(** [check_active_call!] and the comparison of ids: the handler goes on only with
    the active call. *)
Definition with_active_call (id : CallId) (body : CallRef -> PM unit) : PM unit :=
  a ← try active_call;
  match a with
  | Err _ => done_ok
  | Ok r =>
    active_id ← atom (of_call r k_call_id);
    if negb (active_id =? id) then done_ok else body r
  end.

(** The lock of [busy] and of [active_call_id] are held throughout: one atom. *)
Definition insert_active_call (r : CallRef) (id : CallId) : CM unit :=
  reset_in_flight ;;
  modify (fun s => s <| call_by_call_id := <[id := r]> (call_by_call_id s) |>) ;;
  modify (fun s => s <| busy := true |> <| active_call_id := Some id |>) ;;
  of_result (pe_start_timer env).

Definition new_call (peer : Peer) (id : CallId) (dir : CallDirection) (mt : CallMediaType)
    (local : DeviceId) : CM CallRef :=
  of_result (pe_call_new env) ;;
  r ← gets call_count;
  modify (fun s => s <| calls := <[r := k_new peer id dir mt local]> (calls s) |>
                     <| call_count := S r |>) ;;
  mret r.

Definition handle_call (peer : Peer) (id : CallId) (mt : CallMediaType) (local : DeviceId) : PM unit :=
  atom_unless busy_guard (
    is_busy ← gets busy;
    if is_busy : bool then fail RingRtcError.CallManagerIsBusy
    else
      a ← gets active_call_id;
      match a with
      | Some v => fail (RingRtcError.CallAlreadyInProgress v)
      | None =>
        r ← new_call peer id Outgoing mt local;
        insert_active_call r id ;;
        with_call r (k_api CallSystem.ApiStartCall)
      end).

Definition handle_accept_call (id : CallId) : PM unit :=
  with_active_call id (fun r => request r CallSystem.ApiAcceptCall).

Definition handle_drop_call (id : CallId) : PM unit :=
  with_active_call id (fun r =>
    handle_terminate_active_call r None CallEndReason.AppDroppedCall).

Definition handle_proceed (id : CallId) (context : Z) (cfg : CallConfig)
    (audio_levels_interval : option Z) : PM unit :=
  with_active_call id (fun r =>
    request r (CallSystem.ApiSetCallContext context) ;;
    request r (CallSystem.ApiProceed cfg audio_levels_interval)).

Definition handle_message_sent (id : CallId) : PM unit :=
  reset_messages_in_flight ;;
  send_next_message None.

Definition handle_message_send_failure (id : CallId) : PM unit :=
  a ← try active_call;
  active_match ← match a with
    | Ok r => active_id ← atom (of_call r k_call_id); mret (if active_id =? id then Some r else None)
    | Err _ => mret None
    end;
  match active_match with
  | Some r =>
    connected ← atom (of_call r (fun k => CallState.connected_or_reconnecting (k_state k)));
    was_ice ← atom (gets (fun s =>
      bool_decide (last_sent_message_type (message_queue s) = Some TIce)));
    if connected && was_ice then done_ok
    else
      send_hangup ← atom (of_call r should_send_hangup_on_failure);
      _ ← try (terminate_active_call send_hangup CallEndReason.SignalingFailure); done_ok
  | None =>
    found ← atom (gets (fun s => call_by_call_id s !! id));
    match found with
    | Some r =>
      send_hangup ← atom (of_call r should_send_hangup_on_failure);
      terminate_call r (if send_hangup : bool then Some Hangup.Normal else None)
        (Some CallEndReason.SignalingFailure)
    | None => done_ok
    end
  end ;;
  reset_messages_in_flight ;;
  send_next_message None.

Definition handle_hangup : PM unit :=
  a ← try active_call;
  match a with
  | Err _ => done_ok
  | Ok r => handle_terminate_active_call r (Some Hangup.Normal) CallEndReason.LocalHangup
  end.

(** ** Offers *)

Definition remote_peer_equals_active (k : K) (peer : Peer) : bool :=
  same_remote (k_remote_peer k) peer.

Definition glare_tiebreaker (active_id incoming_id : CallId) : ReceivedOfferCollision :=
  match active_id ?= incoming_id with
  | Gt => GlareWinner
  | Lt => GlareLoser
  | Eq => GlareDoubleLoser
  end.

Definition check_for_collision (k : K) (peer : Peer) (incoming_id : CallId)
    (received : ReceivedOffer) : ReceivedOfferCollision :=
  if remote_peer_equals_active k peer then
    match k_active_device_id k with
    | Some active_device_id =>
      if bool_decide (ro_sender_device_id received = active_device_id) then
        if CallState.at_least (k_state k) CallState.ConnectedAndAccepted then ReCall
        else glare_tiebreaker (k_call_id k) incoming_id
      else Busy
    | None => glare_tiebreaker (k_call_id k) incoming_id
    end
  else Busy.

Inductive ActiveCallAction : Type :=
| DontTerminate
| TerminateAndSendHangup (reason : CallEndReason.CallEndReason)
| TerminateWithoutSendingHangup (reason : CallEndReason.CallEndReason).

Inductive IncomingCallAction : Type :=
| Ignore (event : ApplicationEvent.ApplicationEvent)
| RejectAsBusy (event : ApplicationEvent.ApplicationEvent)
| Start.

Definition collision_actions (c : ReceivedOfferCollision) : ActiveCallAction * IncomingCallAction :=
  match c with
  | NoCollision => (DontTerminate, Start)
  | Busy => (DontTerminate, RejectAsBusy ApplicationEvent.ReceivedOfferWhileActive)
  | GlareWinner => (DontTerminate, Ignore ApplicationEvent.ReceivedOfferWithGlare)
  | GlareLoser => (TerminateAndSendHangup CallEndReason.RemoteGlare, Start)
  | GlareDoubleLoser =>
    (TerminateAndSendHangup CallEndReason.RemoteGlare,
     RejectAsBusy ApplicationEvent.GlareHandlingFailure)
  | ReCall => (TerminateWithoutSendingHangup CallEndReason.RemoteReCall, Start)
  end.

(** Deliver what came before the offer. *)
Definition deliver_pending (r : CallRef) (id : CallId) (peer : Peer) : CM unit :=
  pending ← gets pending_call_messages;
  modify (fun s => s <| pending_call_messages := NoPending |>) ;;
  match pending with
  | NoPending => ret_ok
  | PendingIce pending_peer pending_id received =>
    if pending_id =? id then
      for_each received (fun received =>
        if same_remote pending_peer peer
        then with_call r (k_api (CallSystem.ApiReceivedIce received)) else ret_ok)
    else ret_ok
  | PendingHangup pending_peer pending_id received =>
    if pending_id =? id then
      if same_remote pending_peer peer
      then with_call r (k_api (CallSystem.ApiReceivedHangup received)) else ret_ok
    else ret_ok
  end.

(** The locks of [active_call_id] and of the map of calls are held: one atom. *)
Definition start_incoming_call (r : CallRef) (id : CallId) (peer : Peer) (received : ReceivedOffer)
  : CM unit :=
  a ← gets active_call_id;
  match a with
  | Some v => fail (RingRtcError.CallAlreadyInProgress v)
  | None =>
    insert_active_call r id ;;
    with_call r (k_api (CallSystem.ApiReceivedOffer received)) ;;
    with_call r (k_api CallSystem.ApiStartCall) ;;
    deliver_pending r id peer
  end.

(** Take the guard of [busy], and give it back whatever happens. *)
Definition with_busy_guard {A} (body : PM A) : PM A :=
  atom_unless busy_guard (modify (fun s => s <| busy_guard := true |>)) ;;
  then_result body (fun r =>
    atom (modify (fun s => s <| busy_guard := false |>)) ;; of_res r).

Definition handle_valid_offer (peer : Peer) (id : CallId) (received : ReceivedOffer) : PM unit :=
  active ← atom (gets (fun s =>
    (active_call_id s, active_call_id s ≫= (fun a => call_by_call_id s !! a))));
  incoming_call ← atom (new_call peer id Incoming (offer_call_media_type (ro_offer received))
                          (ro_receiver_device_id received));
  is_busy ← atom (gets busy);
  collision ← match active, is_busy : bool with
    | (None, _), false => mret NoCollision
    | (None, _), true => mret Busy
    | (Some _, Some r), _ => atom (of_call r (fun k => check_for_collision k peer id received))
    | (Some _, None), _ => mret Busy
    end;
  let '(active_call_action, incoming_call_action) := collision_actions collision in
  match active_call_action, active.2 with
  | TerminateAndSendHangup reason, Some r =>
    clear_active_call ;;
    atom (modify (fun s => s <| busy := false |>)) ;;
    terminate_call r (Some Hangup.Normal) (Some reason)
  | TerminateWithoutSendingHangup reason, Some r =>
    clear_active_call ;;
    atom (modify (fun s => s <| busy := false |>)) ;;
    terminate_call r None (Some reason)
  | _, _ => done_ok
  end ;;
  match incoming_call_action with
  | Ignore event => notify_application peer id event
  | RejectAsBusy event => notify_application peer id event ;; send_busy incoming_call
  | Start => atom (start_incoming_call incoming_call id peer received)
  end.

Definition handle_received_offer (peer : Peer) (id : CallId) (received : ReceivedOffer) : PM unit :=
  match validate_offer received with
  | Err OfferExpired =>
    notify_offer_expired peer id (ro_age received) ;;
    notify_call_concluded peer id
  | Ok _ => with_busy_guard (handle_valid_offer peer id received)
  end.

(** ** Messages for a call *)

(** [PendingCallMessages::save_ice_candidates] *)
Definition save_ice_candidates (self : PendingCallMessages) (peer : Peer) (id : CallId)
    (received : ReceivedIce) : PendingCallMessages :=
  let fresh := PendingIce peer id [received] in
  match self with
  | PendingIce saved_peer saved_id saved =>
    if saved_id =? id then
      let saved := if zlen saved >=? MAX_PENDING_ICE then tail saved else saved in
      PendingIce saved_peer saved_id (saved ++ [received])
    else fresh
  | PendingHangup _ saved_id _ => if saved_id =? id then self else fresh
  | NoPending => fresh
  end.

(** [PendingCallMessages::save_hangup] *)
Definition save_hangup (self : PendingCallMessages) (peer : Peer) (id : CallId)
    (received : ReceivedHangup) : PendingCallMessages := PendingHangup peer id received.

Definition save (f : PendingCallMessages -> PendingCallMessages) : PM unit :=
  atom (modify (fun s => s <| pending_call_messages := f (pending_call_messages s) |>)).

(** Messages whose offer may still come. *)
Definition for_call_or_save (peer : Peer) (id : CallId) (deliver : CallSystem.Api)
    (save_message : PendingCallMessages -> PendingCallMessages) : PM unit :=
  a ← try active_call;
  match a with
  | Ok r =>
    k ← atom (of_call r (fun k => (k_call_id k, k_remote_peer k, k_direction k)));
    let '(active_id, active_remote_peer, dir) := k in
    if active_id =? id then
      if same_remote active_remote_peer peer then request r deliver else done_ok
    else if bool_decide (dir = Outgoing) then save save_message else done_ok
  | Err _ =>
    is_busy ← atom_unless busy_guard (gets busy);
    if is_busy : bool then done_ok else save save_message
  end.

Definition handle_received_answer (peer : Peer) (id : CallId) (received : ReceivedAnswer) : PM unit :=
  with_active_call id (fun r =>
    active_remote_peer ← remote_peer r;
    if same_remote active_remote_peer peer
    then request r (CallSystem.ApiReceivedAnswer received) else done_ok).

Definition handle_received_ice (peer : Peer) (id : CallId) (received : ReceivedIce) : PM unit :=
  for_call_or_save peer id (CallSystem.ApiReceivedIce received)
    (fun p => save_ice_candidates p peer id received).

Definition handle_received_hangup (peer : Peer) (id : CallId) (received : ReceivedHangup) : PM unit :=
  for_call_or_save peer id (CallSystem.ApiReceivedHangup received)
    (fun p => save_hangup p peer id received).

(** [Call::send_hangup_via_rtp_data_and_signaling_to_all_except], which comes back
    to the manager. *)
Definition send_hangup_via_rtp_data_and_signaling_to_all_except (r : CallRef)
    (hangup : Hangup.Hangup) (excluded : DeviceId) : PM unit :=
  atom (with_call r (k_hangup_via_rtp_data_to_all_except hangup excluded)) ;;
  id ← atom (of_call r k_call_id);
  send_hangup r id (mkSendHangup hangup).

Definition handle_received_busy (peer : Peer) (id : CallId) (received : ReceivedBusy) : PM unit :=
  let sender_device_id := rb_sender_device_id received in
  with_active_call id (fun r =>
    active_remote_peer ← remote_peer r;
    if same_remote active_remote_peer peer then
      send_hangup_via_rtp_data_and_signaling_to_all_except r
        (Hangup.BusyOnAnotherDevice sender_device_id) sender_device_id ;;
      handle_terminate_active_call r None CallEndReason.RemoteBusy
    else done_ok).

(** ** Group rings *)

Definition has_expired (ring : OutstandingGroupRing) : bool :=
  pe_now env - ring_received ring >=? TIME_OUT_PERIOD.

Definition remove_outstanding_group_ring (group : GroupId) (expected_user : option UserId)
    (ring_id : RingId) : PM unit :=
  atom (modify (fun s =>
    match outstanding_group_rings s !! group with
    | Some ring =>
      if (ring_ring_id ring =? ring_id)
         && match expected_user with
            | None => true
            | Some expected => bool_decide (ring_sender_id ring = expected)
            end
      then s <| outstanding_group_rings := delete group (outstanding_group_rings s) |>
      else s
    | None => s
    end)).

Definition send_signaling_message (recipient : UserId) (message : CallMessage)
    (urgency : SignalingMessageUrgency) : PM unit :=
  _ ← try (platform (SendCallMessage recipient (pb_encode message) urgency)); done_ok.

Definition cancel_group_ring (group : GroupId) (ring_id : RingId)
    (reason : option RingCancelReason) : PM unit :=
  remove_outstanding_group_ring group None ring_id ;;
  match reason with
  | Some reason =>
    uuid ← atom (gets self_uuid);
    match uuid with
    | Some uuid =>
      let ty := match reason with DeclinedByUser => ResponseDeclined | RingBusy => ResponseBusy end in
      send_signaling_message uuid
        (mkCallMessage None None
           (Some (mkRingResponse (Some group) (Some (response_type_to_i32 ty)) (Some ring_id))))
        HandleImmediately
    | None => done_ok
    end
  | None => done_ok
  end.

(** The clients of a group that the user has not left. *)
Definition active_clients (s : CallManager) (group : GroupId) : list ClientId :=
  (filter (fun c => active c.2 = true /\ client_group_id c.2 = group)
     (map_to_list (group_call_by_client_id s))).*1.

Definition to_client (client : ClientId) (r : GroupRequest) : CM unit :=
  emit (ToGroupClient client r) true.

(** The timeout of the ring is left to the worker's timer. *)
Definition start_group_ring (group : GroupId) (ring_id : RingId) (sender : UserId) : PM unit :=
  atom (modify (fun s => s <| outstanding_group_rings :=
    <[group := mkRing sender ring_id (pe_now env)]>
      (filter (fun r => has_expired r.2 = false) (outstanding_group_rings s)) |>)) ;;
  atom (clients ← gets (fun s => active_clients s group);
        for_each clients (fun c => to_client c (GroupProvideRingIdIfAbsent ring_id))) ;;
  atom (modify (fun s => s <| delayed := delayed s ++ [RingTimeoutTask group ring_id sender] |>)).

Definition ring_timeout (group : GroupId) (ring_id : RingId) (sender : UserId) : PM unit :=
  remove_outstanding_group_ring group (Some sender) ring_id ;;
  _ ← try (platform (GroupCallRingUpdate group ring_id sender ExpiredRequest)); done_ok.

Definition ring_update (group : GroupId) (ring_id : RingId) (sender : UserId) (u : RingUpdate)
  : PM unit := _ ← try (platform (GroupCallRingUpdate group ring_id sender u)); done_ok.

(** The three arms of [handle_received_call_message]. *)
Definition handle_ring_intention (sender : UserId) (intention : RingIntention) (message_age : Z)
  : PM unit :=
  match ri_group_id intention, ri_type intention ≫= intention_type, ri_ring_id intention with
  | Some group, Some ring_type, Some ring_id =>
    update ← match ring_type with
      | IntentionRing =>
        if message_age >? MAX_MESSAGE_AGE then mret ExpiredRequest
        else
          is_busy ← atom_unless busy_guard (gets busy);
          if is_busy : bool then
            cancel_group_ring group ring_id (Some RingBusy) ;; mret BusyLocally
          else
            start_group_ring group ring_id sender ;; mret Requested
      | IntentionCancelled =>
        remove_outstanding_group_ring group (Some sender) ring_id ;; mret CancelledByRinger
      end;
    ring_update group ring_id sender update
  | _, _, _ => done_ok
  end.

Definition handle_ring_response (sender : UserId) (response : RingResponse) : PM unit :=
  uuid ← atom (gets self_uuid);
  if negb (bool_decide (uuid = Some sender)) then done_ok
  else
    match rr_group_id response, rr_type response ≫= response_type, rr_ring_id response with
    | Some _, Some ResponseRinging, Some _ => done_ok
    | Some group, Some ty, Some ring_id =>
      let update :=
        match ty with
        | ResponseAccepted => AcceptedOnAnotherDevice
        | ResponseBusy => BusyOnAnotherDevice
        | ResponseDeclined | ResponseRinging (* handled above *) => DeclinedOnAnotherDevice
        end in
      remove_outstanding_group_ring group None ring_id ;;
      ring_update group ring_id sender update
    | _, _, _ => done_ok
    end.

Definition handle_group_call_message (sender : UserId) (group_message : DeviceToDevice) : PM unit :=
  match d2d_group_id group_message with
  | Some group =>
    atom (clients ← gets (fun s => active_clients s group);
          match clients with
          | c :: _ => to_client c (GroupSignalingMessageReceived sender group_message)
          | [] => ret_ok
          end)
  | None => done_ok
  end.

Definition handle_received_call_message (sender : UserId) (message : list Z) (message_age : Z)
  : PM unit :=
  match pb_decode message with
  | None => throw (RingRtcError.Anyhow "failed to decode Protobuf message")
  | Some message =>
    match ring_intention message, ring_response message, group_call_message message with
    | Some intention, _, _ => handle_ring_intention sender intention message_age
    | None, Some response, _ => handle_ring_response sender response
    | None, None, Some group_message => handle_group_call_message sender group_message
    | None, None, None => done_ok
    end
  end.

(** ** Group call clients *)

(** The next client id; the invalid one is left out. *)
Definition take_client_id : CM ClientId :=
  next ← gets next_group_call_client_id;
  let next := if next =? INVALID_CLIENT_ID then wrap 32 (next + 1) else next in
  modify (fun s => s <| next_group_call_client_id := wrap 32 (next + 1) |>) ;;
  mret next.

Definition start_client (client : ClientId) (group : GroupId) (call_link : bool)
    (ring : option RingId) : CM unit :=
  emit (StartGroupClient client group call_link ring) (is_ok (pe_start_client env)) ;;
  of_result (pe_start_client env) ;;
  modify (fun s => s <| group_call_by_client_id :=
    <[client := mkGroupCallClient group true]> (group_call_by_client_id s) |>).

(** The lock of the clients is held throughout. *)
Definition create_group_call_client (group : GroupId) : PM ClientId :=
  atom (
    existing ← gets (fun s => active_clients s group);
    if negb (bool_decide (existing = [])) then fail RingRtcError.ClientAlreadyExistsForCall
    else
      client ← take_client_id;
      modify (fun s => s <| outstanding_group_rings :=
        filter (fun r => has_expired r.2 = false) (outstanding_group_rings s) |>) ;;
      ring ← gets (fun s => ring_ring_id <$> outstanding_group_rings s !! group);
      start_client client group false ring ;;
      mret client).

Definition create_call_link_call_client (root_key endorsement_public_key : list Z) : PM ClientId :=
  let room_id := pe_derive_room_id env root_key in
  atom (
    existing ← gets (fun s => active_clients s room_id);
    if negb (bool_decide (existing = [])) then fail RingRtcError.ClientAlreadyExistsForCall
    else
      client ← take_client_id;
      of_result (pe_endorsement_key env endorsement_public_key) ;;
      start_client client room_id true None ;;
      mret client).

Definition delete_group_call_client (client : ClientId) : PM unit :=
  atom (modify (fun s => s <| group_call_by_client_id :=
    delete client (group_call_by_client_id s) |>)).

Definition with_group_call (client : ClientId) (r : GroupRequest) : PM unit :=
  atom (m ← gets group_call_by_client_id;
        match m !! client with
        | Some _ => to_client client r
        | None => ret_ok
        end).

Definition disconnect (client : ClientId) : PM unit :=
  atom (m ← gets group_call_by_client_id;
        match m !! client with
        | Some c =>
          modify (fun s => s <| group_call_by_client_id :=
            <[client := c <| active := false |>]> (group_call_by_client_id s) |>) ;;
          to_client client GroupDisconnect
        | None => ret_ok
        end).

(** ** Reset *)

(** The calls of the map, in the order of the hash map. *)
Definition calls_in_order (s : CallManager) : list CallRef :=
  let l := (map_to_list (call_by_call_id s)).*2 in
  if bool_decide (pe_order env l ≡ₚ l) then pe_order env l else l.

Definition handle_reset : PM unit :=
  refs ← atom (gets calls_in_order);
  each refs (fun r => _ ← try (terminate_call r (Some Hangup.Normal) None); done_ok) ;;
  clear_active_call ;;
  release_busy ;;
  atom (update_queue (fun q => q <| queue := [] |> <| messages_in_flight := false |>)).

(** ** Tasks of the worker *)

(** [handle_active_call_api!] *)
Definition or_internal_error (p : PM unit) : PM unit :=
  res ← try p;
  match res with
  | Ok _ => done_ok
  | Err _ => _ ← try internal_api_error; done_ok
  end.

Definition internal_create_api_error (peer : Peer) (id : CallId) : PM unit :=
  a ← try active_call;
  is_active ← match a with
    | Ok r => atom (of_call r (fun k => remote_peer_equals_active k peer))
    | Err _ => mret false
    end;
  if is_active : bool then _ ← try internal_api_error; done_ok
  else
    _ ← try (on_call_ended peer id CallEndReason.InternalFailure);
    _ ← try (notify_call_concluded peer id);
    done_ok.

Definition or_create_error (peer : Peer) (id : CallId) (p : PM unit) : PM unit :=
  res ← try p;
  match res with
  | Ok _ => done_ok
  | Err _ => internal_create_api_error peer id
  end.

(** [handle_api!] *)
Definition or_log (p : PM unit) : PM unit := _ ← try p; done_ok.

Definition run_task (t : Task) : PM unit :=
  match t with
  | CallTask peer id mt local => or_create_error peer id (handle_call peer id mt local)
  | AcceptCallTask id => or_internal_error (handle_accept_call id)
  | DropCallTask id => or_internal_error (handle_drop_call id)
  | ProceedTask id ctx cfg ali => or_internal_error (handle_proceed id ctx cfg ali)
  | MessageSentTask id => or_internal_error (handle_message_sent id)
  | MessageSendFailureTask id => or_internal_error (handle_message_send_failure id)
  | HangupTask => or_internal_error handle_hangup
  | ReceivedOfferTask peer id received =>
    or_create_error peer id (handle_received_offer peer id received)
  | ReceivedAnswerTask peer id received =>
    or_internal_error (handle_received_answer peer id received)
  | ReceivedIceTask peer id received => or_internal_error (handle_received_ice peer id received)
  | ReceivedHangupTask peer id received =>
    or_internal_error (handle_received_hangup peer id received)
  | ReceivedBusyTask peer id received => or_internal_error (handle_received_busy peer id received)
  | ReceivedCallMessageTask sender message age =>
    or_log (handle_received_call_message sender message age)
  | ResetTask => or_log handle_reset
  | TerminateTask r hangup => conclude_call r hangup
  | RingTimeoutTask group ring_id sender => ring_timeout group ring_id sender
  end.

(** ** Requests of the application, on its own thread *)

(** [close] runs [reset] first; stopping the worker drops what it has not begun. *)
Definition close : PM unit :=
  stopped ← atom (gets worker_stopped);
  if stopped : bool then done_ok
  else
    worker_spawn ResetTask ;;
    atom (modify (fun s => s <| worker_stopped := true |> <| worker := [] |> <| delayed := [] |>)).

Inductive AppRequest : Type :=
| AppTask (t : Task)
| AppSetSelfUuid (uuid : UserId)
| AppCancelGroupRing (group : GroupId) (ring_id : RingId) (reason : option RingCancelReason)
| AppClose
| AppCreateGroupCallClient (group : GroupId)
| AppCreateCallLinkCallClient (root_key endorsement_public_key : list Z)
| AppDeleteGroupCallClient (client : ClientId)
| AppGroupRequest (client : ClientId) (r : GroupRequest)
| AppDisconnect (client : ClientId).

(** The tasks an application can ask for; the others are the manager's own. *)
Definition app_task (t : Task) : bool :=
  match t with TerminateTask _ _ | RingTimeoutTask _ _ _ => false | _ => true end.

(** The requests an application can make of a client. *)
Definition forwarded (r : GroupRequest) : bool :=
  match r with
  | GroupDisconnect | GroupProvideRingIdIfAbsent _ | GroupSignalingMessageReceived _ _ => false
  | _ => true
  end.

Definition run_app (a : AppRequest) : PM unit :=
  match a with
  | AppTask t => if app_task t then worker_spawn t else done_ok
  | AppSetSelfUuid uuid => atom (modify (fun s => s <| self_uuid := Some uuid |>))
  | AppCancelGroupRing group ring_id reason => cancel_group_ring group ring_id reason
  | AppClose => close
  | AppCreateGroupCallClient group => _ ← create_group_call_client group; done_ok
  | AppCreateCallLinkCallClient key endorsement =>
    _ ← create_call_link_call_client key endorsement; done_ok
  | AppDeleteGroupCallClient client => delete_group_call_client client
  | AppGroupRequest client r => if forwarded r then with_group_call client r else done_ok
  | AppDisconnect client => disconnect client
  end.

(** ** Requests of a call ([ManagerCall] of Call.v), on its threads *)

(** The connection a message of the call belongs to is named by [conn]. *)
Definition run_manager_call (r : CallRef) (conn : k_conn) (m : ManagerCall) : PM unit :=
  peer ← remote_peer r;
  id ← atom (of_call r k_call_id);
  match m with
  | ManagerStartCall dir mt => start_call peer id dir mt
  | ManagerCreateConnection device ct => create_connection r device ct
  | ManagerSendOffer offer => send_offer r conn offer
  | ManagerSendAnswer answer => send_answer r conn answer
  | ManagerSendHangup hangup => send_hangup r id hangup
  | ManagerSendBufferedIce _ broadcast => send_buffered_local_ice_candidates r conn broadcast
  | ManagerNotifyApplication event => notify_application peer id event
  | ManagerNotifyNetworkRoute route => notify_network_route_changed peer route
  | ManagerNotifyAudioLevels captured received => notify_audio_levels peer captured received
  | ManagerNotifyLowBandwidth recovered => notify_low_bandwidth_for_video peer recovered
  | ManagerInternalError _ => internal_error id
  | ManagerRemoteHangup reason => remote_hangup id reason
  | ManagerTimeout => timeout id
  | ManagerConnectionFailure => connection_failure id
  | ManagerDisconnectIncomingMedia => disconnect_incoming_media r
  end.

End Methods.

(** What a group call client does to the flag [busy] it shares (group_call.rs,
    [take_busy] and [release_busy]). *)
Definition take_busy : PM bool :=
  atom_unless busy_guard (
    b ← gets busy;
    if b : bool then mret false else modify (fun s => s <| busy := true |>) ;; mret true).

Lemma with_call_run {A} r (m : ST K Error A) (s : CallManager) :
  with_call r m s =
    (s <| calls := <[r := (m (calls s r)).1]> (calls s) |>, (m (calls s r)).2).
Proof. unfold with_call. by destruct (m _). Qed.

End Manager.
End CallManager.
