(* ===== verification/CallManagerSystem.v ===== *)
(** * The call manager and its threads

    The worker, the threads of the application and the threads of the calls run
    the methods of the call manager at the same time, one atom after the other.
    What the manager does to its message queue refines a queue with one message in
    flight. *)

From S2P Require Import Prelude Threads States Signaling ConnectionTypes Connection ConnectionStart.
From S2P Require Import Call CallFsm CallSystem CallManager.
Local Open Scope Z_scope.
Local Open Scope ringrtc_scope.

Module CallManagerSystem.
Import CallManager.

Section System.
Context {Peer K : Type} `{!CallApi Peer K} `{!Codec CallMessage}.
Notation PM := (prog (CallManager (Peer := Peer) (K := K)) Error).

(** [joined] are the group call clients that are in their call. *)
Record Sys : Type := mkSys {
  cm : CallManager (Peer := Peer) (K := K);
  worker_thread : option (PM unit);
  threads : list (PM unit);
  joined : gset ClientId;
}.

#[global] Instance Sys_eta : Eta Sys := fun r =>
  mkSys (cm r) (worker_thread r) (threads r) (joined r).

Implicit Types (s : Sys).

Definition init (memory : CallRef -> K) : Sys := mkSys (new memory) None [] ∅.

(** One step of one thread.  [env_ok] restricts what the application answers. *)
Inductive step (env_ok : PlatformEnv (Peer := Peer) -> Prop) : relation Sys :=
| step_task s env t ts :
    env_ok env -> worker_thread s = None -> worker (cm s) = t :: ts ->
    step env_ok s (s <| cm := (cm s) <| worker := ts |> |>
                     <| worker_thread := Some (run_task env t) |>)
| step_worker s p c p' :
    worker_thread s = Some p -> step_prog p (cm s) = Some (c, p') ->
    step env_ok s (s <| cm := c |> <| worker_thread := Some p' |>)
| step_worker_done s r :
    worker_thread s = Some (Threads.Done r) -> step env_ok s (s <| worker_thread := None |>)
| step_app s env a :
    env_ok env -> step env_ok s (s <| threads := threads s ++ [run_app env a] |>)
| step_call_request s env r conn m :
    env_ok env -> (r < call_count (cm s))%nat ->
    step env_ok s (s <| threads := threads s ++ [run_manager_call env r conn m] |>)
| step_thread s i p c p' :
    threads s !! i = Some p -> step_prog p (cm s) = Some (c, p') ->
    step env_ok s (s <| cm := c |> <| threads := <[i := p']> (threads s) |>)
| step_delayed s i t :
    delayed (cm s) !! i = Some t ->
    step env_ok s (s <| cm := (cm s) <| delayed := delete i (delayed (cm s)) |>
                              <| worker := worker (cm s) ++ [t] |> |>)
| step_call s r k' :
    (r < call_count (cm s))%nat -> k_same (calls (cm s) r) k' ->
    step env_ok s (s <| cm := (cm s) <| calls := <[r := k']> (calls (cm s)) |> |>)
| step_join s client :
    client ∉ joined s -> busy_guard (cm s) = false -> busy (cm s) = false ->
    step env_ok s (s <| cm := (cm s) <| busy := true |> |> <| joined := {[client]} ∪ joined s |>)
| step_leave s client :
    client ∈ joined s -> busy_guard (cm s) = false ->
    step env_ok s (s <| cm := (cm s) <| busy := false |> |> <| joined := joined s ∖ {[client]} |>).

Inductive reachable (env_ok : PlatformEnv -> Prop) : Sys -> Prop :=
| reachable_init memory : reachable env_ok (init memory)
| reachable_step s s' : reachable env_ok s -> step env_ok s s' -> reachable env_ok s'.

(** ** What every step of every thread keeps *)

(** A relation that every atom of every method has, and every step of the others,
    holds of every step of the system. *)
Record invariant_step (env_ok : PlatformEnv -> Prop)
    (R : relation (CallManager (Peer := Peer) (K := K))) : Prop := {
  is_refl : Reflexive R;
  is_task env t : env_ok env -> every_step R (run_task env t);
  is_app env a : env_ok env -> every_step R (run_app env a);
  is_request env r conn m : env_ok env -> every_step R (run_manager_call env r conn m);
  is_worker c ts : R c (c <| worker := ts |>);
  is_delayed c ds ts : R c (c <| delayed := ds |> <| worker := ts |>);
  is_calls c ks : R c (c <| calls := ks |>);
  is_busy c b : R c (c <| busy := b |>);
}.

Lemma threads_ok env_ok R s :
  invariant_step env_ok R -> reachable env_ok s ->
  (forall p, worker_thread s = Some p -> every_step R p) /\
  Forall (fun p => every_step R p) (threads s).
Proof.
  intros HR Hs. pose proof (is_refl _ _ HR) as Hrefl. 
  induction Hs as [|s s' _ [Hw Ht] Hst]; [by split|]. destruct Hst; cbn; split; try done.
  - intros p [= <-]. by apply HR.
  - intros p0 [= <-]. by eapply every_step_step; [|apply Hw|].
  - apply Forall_app. split; [done|]. constructor; [by apply HR|constructor].
  - apply Forall_app. split; [done|]. constructor; [by apply HR|constructor].
  - apply Forall_insert; [done|]. eapply every_step_step; [done| |done].
    by eapply Forall_lookup_1 in Ht.
Qed.

Lemma invariant_step_step env_ok R s s' :
  invariant_step env_ok R -> reachable env_ok s -> step env_ok s s' -> R (cm s) (cm s').
Proof.
  intros HR Hs Hst. pose proof (is_refl _ _ HR) as Hrefl.
  destruct (threads_ok _ _ _ HR Hs) as [Hw Ht].
  destruct Hst; cbn; try done; try by apply HR.
  - by eapply every_step_step; [|apply Hw|].
  - eapply every_step_step; [done| |done]. by eapply Forall_lookup_1 in Ht.
Qed.

(** ** The message queue

    The specification: messages wait in order; at most one is in flight; only the
    first can be sent, and only when none is in flight.  [assume] is the answer of
    [assume_messages_sent]: the application then confirms nothing. *)

Definition Item : Type := SignalingMessageItem (Peer := Peer) (K := K).

Definition is_send (o : Output (Peer := Peer) * bool) : bool :=
  match o.1 with
  | OnSendOffer _ _ _ | OnSendAnswer _ _ _ | OnSendIce _ _ _ | OnSendHangup _ _ _
  | OnSendBusy _ _ => true
  | _ => false
  end.

(** [o] hands the message [i] to the application. *)
Definition message_of (i : Item) (o : Output (Peer := Peer)) : Prop :=
  match item_closure i, o with
  | HangupClosure _ id send, OnSendHangup _ id' send' => id' = id /\ send' = send
  | BusyClosure _ id, OnSendBusy _ id' => id' = id
  | OfferClosure _ _ id offer, OnSendOffer _ id' offer' => id' = id /\ offer' = offer
  | AnswerClosure _ _ id send, OnSendAnswer _ id' send' => id' = id /\ send' = send
  | IceClosure _ _ id _, OnSendIce _ id' _ => id' = id
  | _, _ => False
  end.

(** An offer or answer of a closed connection, or candidates sent already. *)
Definition may_be_void (i : Item) : bool :=
  match item_closure i with
  | OfferClosure _ _ _ _ | AnswerClosure _ _ _ _ | IceClosure _ _ _ _ => true
  | HangupClosure _ _ _ | BusyClosure _ _ => false
  end.

Record Flow : Type := mkFlow {
  waiting : list Item;
  sent : list (Output (Peer := Peer) * bool);
  in_flight : bool;
}.

Inductive flow_step (assume : bool) : relation Flow :=
| flow_stay f : flow_step assume f f
| flow_push q o b i : flow_step assume (mkFlow q o b) (mkFlow (q ++ [i]) o b)
| flow_send q o i out :
    message_of i out ->
    flow_step assume (mkFlow (i :: q) o false) (mkFlow q (o ++ [(out, true)]) (negb assume))
| flow_fail q o i out :
    message_of i out ->
    flow_step assume (mkFlow (i :: q) o false) (mkFlow q (o ++ [(out, false)]) false)
| flow_skip q o i :
    may_be_void i = true ->
    flow_step assume (mkFlow (i :: q) o false) (mkFlow q o false)
| flow_trim q o b id :
    flow_step assume (mkFlow q o b) (mkFlow (filter (fun x => kept_by_trim id x = true) q) o b)
| flow_confirm q o b : flow_step assume (mkFlow q o b) (mkFlow q o false)
| flow_clear q o b : flow_step assume (mkFlow q o b) (mkFlow [] o false).

Definition flow (c : CallManager (Peer := Peer) (K := K)) : Flow :=
  mkFlow (queue (message_queue c)) (filter (fun o => is_send o = true) (outputs c))
    (messages_in_flight (message_queue c)).

Section Flow.
Context (assume : bool).

Definition flows : relation (CallManager (Peer := Peer) (K := K)) := fun c c' =>
  flow_step assume (flow c) (flow c').

(** At most a confirmation. *)
Definition confirms : relation (CallManager (Peer := Peer) (K := K)) := fun c c' =>
  waiting (flow c') = waiting (flow c) /\ sent (flow c') = sent (flow c) /\
  (in_flight (flow c') = in_flight (flow c) \/ in_flight (flow c') = false).

#[local] Instance confirms_preorder : PreOrder confirms.
Proof.
  split; unfold confirms; [by auto|].
  intros c1 c2 c3 (-> & -> & H1) (-> & -> & H2). split_and!; [done..|].
  destruct H1, H2; [left|right..]; congruence.
Qed.

Lemma confirms_flows {A} (m : ST (CallManager (Peer := Peer) (K := K)) Error A) :
  respects confirms m -> respects flows m.
Proof.
  intros Hm c. destruct (Hm c) as (Hw & Hs & Hf). unfold flows.
  destruct (flow (m c).1) as [w' o' b'], (flow c) as [w o b]. cbn in *.
  destruct Hf; subst; constructor.
Qed.

Lemma confirms_with_call {A} r (m : ST K Error A) : respects confirms (with_call r m).
Proof.
  intros c. unfold with_call. destruct (m _). split_and!; auto.
Qed.

Lemma confirms_emit o ok : is_send (o, ok) = false -> respects confirms (emit o ok).
Proof.
  intros Ho c. split_and!; cbn; [done| |by left].
  rewrite filter_app, (filter_cons_False _ (o, ok)), filter_nil, app_nil_r by (rewrite Ho; done). done.
Qed.

(** The calls in memory do not matter to the flow. *)
Lemma flow_calls c ks : flow (c <| calls := ks |>) = flow c.
Proof. done. Qed.

Lemma flow_emit c o ok :
  is_send (o, ok) = true ->
  flow (emit o ok c).1 = mkFlow (waiting (flow c)) (sent (flow c) ++ [(o, ok)]) (in_flight (flow c)).
Proof.
  intros Ho. unfold flow. cbn. f_equal.
  by rewrite filter_app, (filter_cons_True _ (o, ok)), filter_nil.
Qed.

(** A closure hands over the message it was made for, or nothing. *)
Definition hands_over (i : Item) (f f' : Flow) (res : result MessageSendResult Error) : Prop :=
  (f' = f /\ res <> Ok Sent /\ may_be_void i = true) \/
  exists out, message_of i out /\
    f' = mkFlow (waiting f) (sent f ++ [(out, is_ok res)]) (in_flight f) /\
    (res = Ok Sent \/ is_ok res = false).

Lemma hands_over_platform env i o c :
  is_send (o, true) = true -> message_of i o ->
  hands_over i (flow c) (flow ((platform_call env o ;; mret Sent) c).1)
    ((platform_call env o ;; mret Sent) c).2.
Proof.
  intros Ho Hi. right. exists o. split; [done|].
  pose proof (flow_emit c o (is_ok (pe_platform env o)) Ho) as He.
  unfold platform_call, of_result, mbind, ST_bind. cbn.
  destruct (pe_platform env o) as [[]|e]; cbn in *; rewrite He; auto.
Qed.

Lemma run_closure_hands_over env i c :
  hands_over i (flow c) (flow (run_closure env (item_closure i) c).1)
    (run_closure env (item_closure i) c).2.
Proof.
  destruct i as [id ty [r id' send|r id'|r conn id' offer|r conn id' send|r conn id' br]];
    cbn [item_closure run_closure]; unfold of_call; try rewrite ST_gets_bind.
  1,2: by apply hands_over_platform.
  1,2: rewrite ST_gets_bind; destruct (k_can_send_messages conn _);
    [by apply hands_over_platform|by left].
  pose proof (with_call_run r (k_take_buffered_local_ice_candidates conn) c) as Hw.
  destruct (k_take_buffered_local_ice_candidates conn (calls c r)) as [k' [cands|e]]; cbn in Hw;
    [rewrite (ST_bind_run _ _ _ _ _ Hw)|rewrite (ST_bind_err _ _ _ _ _ Hw); by left].
  case_bool_decide; [by left|]. rewrite 2!ST_gets_bind.
  rewrite <- (flow_calls c (<[r := k']> (calls c))). by apply hands_over_platform.
Qed.

Lemma send_round_flows env : respects flows (send_round env assume).
Proof.
  intros c. unfold flows, send_round. rewrite ST_gets_bind.
  destruct (messages_in_flight (message_queue c)) eqn:Hf; [constructor|].
  destruct (queue (message_queue c)) as [|i q] eqn:Hq; [constructor|].
  set (c1 := (c <| message_queue := (message_queue c) <| queue := q |> |>)).
  rewrite (ST_bind_run (update_queue _) _ c c1 tt) by done.
  assert (flow c = mkFlow (i :: q) (sent (flow c)) false) as -> by (unfold flow; by rewrite Hq, Hf).
  assert (flow c1 = mkFlow q (sent (flow c)) false) as Hc1 by (unfold flow; cbn; by rewrite Hf).
  pose proof (run_closure_hands_over env i c1) as Hi. unfold attempt, mbind, ST_bind.
  destruct (run_closure env (item_closure i) c1) as [c2 res]. cbn in Hi.
  rewrite Hc1 in Hi. cbn in Hi.
  destruct res as [sr|e]; cbn; unfold flow at 1; cbn.
  - change (filter (fun o => is_send o = true) (outputs c2)) with (sent (flow c2)).
    change (queue (message_queue c2)) with (waiting (flow c2)).
    destruct Hi as [(-> & Hns & Hv)|(out & Ho & -> & Hr)]; cbn.
    + destruct sr; [done|]. by constructor.
    + destruct Hr as [[= ->]|]; [|done]. by constructor.
  - fold (flow c2). destruct Hi as [(-> & _ & Hv)|(out & Ho & -> & _)]; cbn; by constructor.
Qed.

#[local] Hint Resolve confirms_with_call : respects.
#[local] Hint Extern 1 (respects confirms (emit _ _)) => by apply confirms_emit : respects.
#[local] Hint Extern 2 (respects confirms (modify _)) =>
  apply respects_modify; intros; repeat case_match; split_and!; cbn; auto : respects.
#[local] Hint Extern 1 (respects confirms (update_queue _)) =>
  apply respects_modify; intros; split_and!; cbn; auto : respects.

Ltac confirms_unfold :=
  lazymatch goal with
  | |- respects confirms ?m => let h := get_head m in progress unfold h
  end.
Ltac solve_confirms := repeat first [respects_step | confirms_unfold].

Ltac flows_atom :=
  lazymatch goal with
  | |- respects flows (send_round _ _) => apply send_round_flows
  | |- respects flows (update_queue _) => intros ?; unfold flows, flow; cbn; constructor
  | |- respects flows _ => apply confirms_flows; solve_confirms
  end.
Ltac solve_flows := intros; repeat first [every_step_step | flows_atom].

Section Methods.
Context (env : PlatformEnv (Peer := Peer)) (Henv : pe_assume_messages_sent env = assume).

Lemma terminate_call_flows r hangup reason : every_step flows (terminate_call env r hangup reason).
Proof. solve_flows. Qed.
#[local] Hint Resolve terminate_call_flows : respects.

Lemma terminate_active_call_flows b reason : every_step flows (terminate_active_call env b reason).
Proof. solve_flows. Qed.
#[local] Hint Resolve terminate_active_call_flows : respects.

Lemma internal_error_flows id : every_step flows (internal_error env id).
Proof. solve_flows. Qed.
#[local] Hint Resolve internal_error_flows : respects.

Lemma send_next_message_flows i : every_step flows (send_next_message env i).
Proof. unfold send_next_message. rewrite Henv. solve_flows. Qed.
#[local] Hint Resolve send_next_message_flows : respects.

Lemma run_task_flows t : every_step flows (run_task env t).
Proof. destruct t; cbn [run_task]; solve_flows. Qed.

Lemma run_app_flows a : every_step flows (run_app env a).
Proof. destruct a; cbn [run_app]; solve_flows. Qed.

Lemma run_manager_call_flows r conn m : every_step flows (run_manager_call env r conn m).
Proof. solve_flows. Qed.
End Methods.

Lemma flows_invariant_step : invariant_step (fun env => pe_assume_messages_sent env = assume) flows.
Proof.
  split; intros; [intros ?; constructor|..|constructor|constructor|constructor|constructor].
  - by apply run_task_flows.
  - by apply run_app_flows.
  - by apply run_manager_call_flows.
Qed.

(** A message in flight stays in flight, and no other is sent. *)
Definition holds_back : relation (CallManager (Peer := Peer) (K := K)) := fun c c' =>
  in_flight (flow c) = true -> in_flight (flow c') = true /\ sent (flow c') = sent (flow c).

#[local] Instance holds_back_preorder : PreOrder holds_back.
Proof.
  split; unfold holds_back; [done|]. intros c1 c2 c3 H1 H2 Hf.
  destruct (H1 Hf) as [Hf2 <-]. auto.
Qed.

Lemma holds_back_with_call {A} r (m : ST K Error A) : respects holds_back (with_call r m).
Proof.
  intros c. unfold with_call. by destruct (m _).
Qed.

Lemma holds_back_emit o ok : is_send (o, ok) = false -> respects holds_back (emit o ok).
Proof.
  intros Ho c. destruct (confirms_emit o ok Ho c) as (_ & Hs & _). intros Hf. by rewrite Hs.
Qed.

Lemma send_round_holds_back env b : respects holds_back (send_round env b).
Proof.
  intros c Hf. unfold send_round. rewrite ST_gets_bind. cbn in Hf. rewrite Hf. by split.
Qed.

#[local] Hint Resolve holds_back_with_call send_round_holds_back : respects.
#[local] Hint Extern 1 (respects holds_back (emit _ _)) => by apply holds_back_emit : respects.
#[local] Hint Extern 2 (respects holds_back (modify _)) =>
  apply respects_modify; intros; repeat case_match; intros ?; by split : respects.
#[local] Hint Extern 1 (respects holds_back (update_queue _)) =>
  apply respects_modify; intros ? ?; by split : respects.

Ltac solve_holds_back := intros;
  repeat first [every_step_step | respects_step
    | lazymatch goal with |- respects holds_back ?m => let h := get_head m in progress unfold h end].

Lemma run_manager_call_holds_back env r conn m :
  every_step holds_back (run_manager_call env r conn m).
Proof. solve_holds_back. Qed.

(** The flow follows its specification. *)
Lemma reachable_flow s :
  reachable (fun env => pe_assume_messages_sent env = assume) s ->
  rtc (flow_step assume) (mkFlow [] [] false) (flow (cm s)).
Proof.
  induction 1 as [|s s' Hr IH Hst]; [done|]. eapply rtc_r; [done|].
  by eapply (invariant_step_step _ _ _ _ flows_invariant_step).
Qed.

End Flow.

(** C8. The call manager sends signaling messages one at a time and in order, however its
    threads interleave: from a fresh manager on, what waits, what was handed to the
    application and whether a message is in flight change as in the specification
    [flow_step] (only the first waiting message is sent, and only when none is in
    flight, and then it is in flight unless the application confirms nothing or
    refused it; messages of ended calls are dropped, except busy and hangup).  While a message
    is in flight, no request of a call sends another or takes it for sent. *)
Theorem messages_are_sent_one_at_a_time assume s s' :
  reachable (fun env => pe_assume_messages_sent env = assume) s ->
  step (fun env => pe_assume_messages_sent env = assume) s s' ->
  rtc (flow_step assume) (mkFlow [] [] false) (flow (cm s)) /\
  flow_step assume (flow (cm s)) (flow (cm s')) /\
  (forall env r conn m, every_step holds_back (run_manager_call env r conn m)).
Proof.
  intros Hr Hst. split_and!.
  - by apply reachable_flow.
  - by eapply (invariant_step_step _ _ _ _ (flows_invariant_step assume)).
  - apply run_manager_call_holds_back.
Qed.

End System.
End CallManagerSystem.
