(* ===== verification/CallManagerGroups.v ===== *)
(** * Group calls in the call manager

    The clients of group calls and the rings that invite to them. *)

From S2P Require Import Prelude Threads States Signaling ConnectionTypes Connection ConnectionStart.
From S2P Require Import Call CallFsm CallSystem CallManager CallManagerSystem.
Local Open Scope Z_scope.
Local Open Scope ringrtc_scope.

Module CallManagerGroups.
Import CallManager CallManagerSystem.

Section Groups.
Context {Peer K : Type} `{!CallApi Peer K} `{!Codec CallMessage}.

(** ** Group call clients *)

Lemma NoDup_fmap_filter {A B} (f : A -> B) (P : A -> Prop) `{forall x, Decision (P x)} (l : list A) :
  NoDup (f <$> l) -> NoDup (f <$> filter P l).
Proof.
  induction l as [|x l IH]; [done|]. intros [Hx Hl]%NoDup_cons. rewrite filter_cons.
  case_decide; [|auto]. apply NoDup_cons. split; [|auto].
  intros (y & Heq & [_ Hy]%list_elem_of_filter)%list_elem_of_fmap.
  apply Hx. rewrite Heq. by apply list_elem_of_fmap_2.
Qed.

Record clients_ok (m : gmap ClientId GroupCallClient) (next : Z) : Prop := {
  clients_unique i j ci cj :
    m !! i = Some ci -> m !! j = Some cj -> active ci = true -> active cj = true ->
    client_group_id ci = client_group_id cj -> i = j;
  clients_valid : m !! INVALID_CLIENT_ID = None;
  clients_next : 0 <= next < 2 ^ 32;
}.

Definition clients_good (c : CallManager (Peer := Peer) (K := K)) : Prop :=
  clients_ok (group_call_by_client_id c) (next_group_call_client_id c).

Definition clients_stay : relation (CallManager (Peer := Peer) (K := K)) := fun c c' =>
  clients_good c -> clients_good c'.

#[local] Instance clients_stay_preorder : PreOrder clients_stay.
Proof. split; unfold clients_stay; auto. Qed.

Lemma elem_of_active_clients (c : CallManager (Peer := Peer) (K := K)) group i :
  i ∈ active_clients c group <->
  exists ci, group_call_by_client_id c !! i = Some ci /\ active ci = true /\ client_group_id ci = group.
Proof.
  unfold active_clients. rewrite list_elem_of_fmap. split.
  - intros ([j cj] & -> & [[Ha Hg] Hj]%list_elem_of_filter). cbn in *.
    exists cj. by apply elem_of_map_to_list in Hj.
  - intros (ci & Hi & Ha & Hg). exists (i, ci). split; [done|].
    apply list_elem_of_filter. split; [done|]. by apply elem_of_map_to_list.
Qed.

Lemma clients_insert c group i next :
  clients_good c -> active_clients c group = [] -> i <> INVALID_CLIENT_ID -> 0 <= next < 2 ^ 32 ->
  clients_ok (<[i := mkGroupCallClient group true]> (group_call_by_client_id c)) next.
Proof.
  intros [Hu Hv _] Hnone Hi Hn. split; [|by rewrite lookup_insert_ne|done].
  assert (forall j cj, group_call_by_client_id c !! j = Some cj -> active cj = true ->
    client_group_id cj <> group) as Hno.
  { intros j cj Hj Ha Hg. eapply not_elem_of_nil. rewrite <- Hnone. apply elem_of_active_clients. eauto. }
  intros j k cj ck. rewrite !lookup_insert_Some.
  intros [[<- <-]|[_ Hj]] [[<- <-]|[_ Hk]] Ha Ha' Hg; cbn in *; [done| | |by eauto].
  - by destruct (Hno _ _ Hk Ha').
  - by destruct (Hno _ _ Hj Ha).
Qed.

Lemma clients_sub m m' next :
  clients_ok m next -> (forall i ci, m' !! i = Some ci ->
    exists ci', m !! i = Some ci' /\ client_group_id ci' = client_group_id ci /\
      (active ci = true -> active ci' = true)) ->
  clients_ok m' next.
Proof.
  intros [Hu Hv Hn] Hsub. split; [|by apply eq_None_not_Some; intros [ci (ci' & Hi & _)%Hsub]; congruence|done].
  intros i j ci cj (ci' & Hi & Hgi & Hai)%Hsub (cj' & Hj & Hgj & Haj)%Hsub ? ? Hg.
  eapply Hu; eauto. congruence.
Qed.

Lemma take_client_id_spec c :
  clients_good c ->
  exists i next, take_client_id c = (c <| next_group_call_client_id := next |>, Ok i) /\
    i <> INVALID_CLIENT_ID /\ 0 <= next < 2 ^ 32.
Proof.
  intros [_ _ Hn]. unfold take_client_id. rewrite ST_gets_bind. eexists _, _. split; [reflexivity|].
  split; [|apply Z.mod_pos_bound; lia].
  destruct (Z.eqb_spec (next_group_call_client_id c) INVALID_CLIENT_ID); [|done].
  by rewrite e.
Qed.

Lemma start_client_good env c group call_link ring i :
  clients_good c -> active_clients c group = [] -> i <> INVALID_CLIENT_ID ->
  clients_good (start_client env i group call_link ring c).1.
Proof.
  intros Hc Hnone Hi. unfold start_client, of_result, mbind, ST_bind. cbn.
  destruct (pe_start_client env); cbn; [|done]. apply clients_insert; [done..|]. apply Hc.
Qed.

(** Nothing but these changes the clients. *)
Definition clients_view (c : CallManager (Peer := Peer) (K := K)) :=
  (group_call_by_client_id c, next_group_call_client_id c).

Lemma clients_view_stay {A} (m : ST (CallManager (Peer := Peer) (K := K)) Error A) :
  respects (same clients_view) m -> respects clients_stay m.
Proof.
  intros Hm c Hc. specialize (Hm c). unfold same, clients_view in Hm. injection Hm as H1 H2.
  unfold clients_good. by rewrite H1, H2.
Qed.

Lemma active_clients_view c c' group :
  same clients_view c c' -> active_clients c' group = active_clients c group.
Proof. intros Hv. injection Hv as H1 _. unfold active_clients. by rewrite H1. Qed.

#[local] Hint Extern 1 (respects (same clients_view) (with_call _ _)) =>
  intros ?; rewrite with_call_run; reflexivity : respects.
#[local] Hint Extern 2 (respects (same clients_view) (modify _)) =>
  apply respects_modify; intros; repeat case_match; reflexivity : respects.
#[local] Hint Extern 1 (respects (same clients_view) (emit _ _)) =>
  apply respects_modify; reflexivity : respects.
#[local] Hint Extern 1 (respects (same clients_view) (update_queue _)) =>
  apply respects_modify; reflexivity : respects.

Lemma create_group_call_client_stay env group :
  every_step clients_stay (create_group_call_client env group).
Proof.
  apply every_step_atom. intros c Hc. rewrite ST_gets_bind.
  destruct (bool_decide _) eqn:Hb; [|done]. apply bool_decide_eq_true in Hb. cbn [negb].
  destruct (take_client_id_spec c Hc) as (i & next & Ht & Hi & Hn).
  rewrite (ST_bind_run _ _ _ _ _ Ht).
  rewrite (ST_bind_run (modify _) _ _ _ _ eq_refl), ST_gets_bind.
  set (c1 := _ <| outstanding_group_rings := _ |>).
  assert (clients_good c1) as Hc1 by (destruct Hc; split; done).
  assert (active_clients c1 group = []) as Hnone by done.
  unfold mbind, ST_bind.
  pose proof (start_client_good env c1 group false
    (ring_ring_id <$> outstanding_group_rings c1 !! group) i Hc1 Hnone Hi) as Hs.
  by destruct (start_client env i group false _ c1) as [c2 []].
Qed.

Lemma create_call_link_call_client_stay env key endorsement :
  every_step clients_stay (create_call_link_call_client env key endorsement).
Proof.
  apply every_step_atom. intros c Hc. rewrite ST_gets_bind.
  set (group := pe_derive_room_id env key).
  destruct (bool_decide _) eqn:Hb; [|done]. apply bool_decide_eq_true in Hb. cbn [negb].
  destruct (take_client_id_spec c Hc) as (i & next & Ht & Hi & Hn).
  rewrite (ST_bind_run _ _ _ _ _ Ht). unfold of_result, mbind, ST_bind.
  set (c1 := _ <| next_group_call_client_id := _ |>).
  assert (clients_good c1) as Hc1 by (destruct Hc; split; done).
  destruct (pe_endorsement_key env endorsement); [|done].
  pose proof (start_client_good env c1 group true None i Hc1 Hb Hi) as Hs.
  by destruct (start_client env i group true None c1) as [c2 []].
Qed.

Lemma delete_group_call_client_stay client : every_step clients_stay (delete_group_call_client client).
Proof.
  apply every_step_atom. intros c Hc. eapply clients_sub; [done|]. cbn.
  intros i ci [_ Hi]%lookup_delete_Some. eauto.
Qed.

Lemma disconnect_stay client : every_step clients_stay (disconnect client).
Proof.
  apply every_step_atom. intros c Hc. rewrite ST_gets_bind.
  destruct (group_call_by_client_id c !! client) as [g|] eqn:Hg; [|done].
  apply (clients_sub (group_call_by_client_id c)); [done|].
  intros i ci Hi.
  change (<[client := g <| active := false |>]> (group_call_by_client_id c) !! i = Some ci) in Hi.
  apply lookup_insert_Some in Hi as [[<- <-]|[_ Hi]]; [by exists g|by eauto].
Qed.

#[local] Hint Resolve create_group_call_client_stay create_call_link_call_client_stay
  delete_group_call_client_stay disconnect_stay : respects.

Ltac solve_clients := intros;
  repeat first [every_step_step
    | lazymatch goal with
      | |- respects clients_stay _ => apply clients_view_stay
      | |- respects (same clients_view) _ =>
        first [respects_step
              | lazymatch goal with |- respects _ ?m => let h := get_head m in progress unfold h end]
      end].

Lemma clients_invariant_step : invariant_step (fun _ => True) clients_stay.
Proof.
  split; intros; try done; [by intros c|..].
  - destruct t; cbn [run_task]; solve_clients.
  - destruct a; cbn [run_app]; solve_clients.
  - solve_clients.
  - exact (fun H => H).
  - exact (fun H => H).
  - exact (fun H => H).
  - exact (fun H => H).
Qed.

(** C18. A group has one active client at most, however the threads interleave: two active
    clients of one group are the same one, so a signaling message for the group
    ([active_clients]) has one receiver; and no client has the invalid id. *)
Theorem one_active_client_per_group s group :
  reachable (fun _ => True) s ->
  (length (active_clients (cm s) group) <= 1)%nat /\
  group_call_by_client_id (cm s) !! INVALID_CLIENT_ID = None.
Proof.
  intros Hr. assert (clients_good (cm s)) as [Hu Hv _].
  { induction Hr as [|s s' Hr IH Hst]; [by split|].
    by eapply (invariant_step_step _ _ _ _ clients_invariant_step). }
  split; [|done].
  destruct (active_clients (cm s) group) as [|i [|j l]] eqn:Ha; cbn; [lia|lia|].
  assert (NoDup (active_clients (cm s) group)) as Hnd.
  { apply NoDup_fmap_filter, NoDup_fst_map_to_list. }
  rewrite Ha in Hnd. apply NoDup_cons in Hnd as [Hij _].
  assert (i ∈ active_clients (cm s) group) as (ci & Hi & Hai & Hgi)%elem_of_active_clients
    by (rewrite Ha; set_solver).
  assert (j ∈ active_clients (cm s) group) as (cj & Hj & Haj & Hgj)%elem_of_active_clients
    by (rewrite Ha; set_solver).
  destruct Hij. rewrite (Hu i j ci cj) by (try done; congruence). set_solver.
Qed.

(** ** Rings *)

(** The rings the application was told of: group, ring, and why. *)
Definition announced (o : Output (Peer := Peer) * bool) : list (GroupId * RingId * RingUpdate) :=
  match o.1 with
  | GroupCallRingUpdate group ring _ ((Requested | BusyLocally | ExpiredRequest) as u) =>
    [(group, ring, u)]
  | _ => []
  end.

Definition announcements (c : CallManager (Peer := Peer) (K := K)) :=
  outputs c ≫= announced.

(** What [validate_call_message_as_opaque_ring] lets expect. *)
Definition expected_announcement (message : CallMessage) (is_busy : bool)
    (v : result unit OpaqueRingValidationError) : list (GroupId * RingId * RingUpdate) :=
  match v, ring_intention message with
  | Ok _, Some (mkRingIntention (Some group) _ (Some ring)) =>
    [(group, ring, if is_busy then BusyLocally else Requested)]
  | Err RingExpired, Some (mkRingIntention (Some group) _ (Some ring)) =>
    [(group, ring, ExpiredRequest)]
  | _, _ => []
  end.

Lemma announcements_emit c o ok :
  announcements (emit o ok c).1 = announcements c ++ announced (o, ok).
Proof. unfold announcements. cbn. by rewrite bind_app, bind_singleton. Qed.

Lemma announcements_platform env c o :
  announcements (platform_call env o c).1 = announcements c ++ announced (o, true) /\
  outstanding_group_rings (platform_call env o c).1 = outstanding_group_rings c.
Proof.
  unfold platform_call. rewrite (ST_bind_run (emit o _) _ c (emit o (is_ok (pe_platform env o)) c).1 tt) by done.
  cbn [of_result fst]. by rewrite announcements_emit.
Qed.

Lemma announcements_send_all c l r :
  announcements (for_each l (fun i => to_client i (GroupProvideRingIdIfAbsent r)) c).1 = announcements c /\
  is_ok (for_each l (fun i => to_client i (GroupProvideRingIdIfAbsent r)) c).2 = true.
Proof.
  revert c. induction l as [|i l IH]; intros c; [done|]. cbn [for_each].
  set (c1 := (to_client i (GroupProvideRingIdIfAbsent r) c).1).
  rewrite (ST_bind_run (to_client i _) _ c c1 tt) by done. destruct (IH c1) as [-> ?].
  split; [|done]. unfold c1, to_client. rewrite announcements_emit. apply app_nil_r.
Qed.

Lemma ring_update_ends env group ring sender u c (Q : _ -> result unit Error -> Prop) :
  (forall c', announcements c' = announcements c ++ announced (GroupCallRingUpdate group ring sender u, true) ->
    outstanding_group_rings c' = outstanding_group_rings c -> Q c' (Ok tt)) ->
  ends (ring_update env group ring sender u) c Q.
Proof.
  intros HQ. repeat ends_step. destruct (announcements_platform env c (GroupCallRingUpdate group ring sender u)).
  by apply HQ.
Qed.

Lemma remove_ring_ends group user ring c (Q : _ -> result unit Error -> Prop) :
  (forall c', announcements c' = announcements c -> Q c' (Ok tt)) ->
  ends (remove_outstanding_group_ring (Peer := Peer) (K := K) group user ring) c Q.
Proof. intros HQ. repeat ends_step. apply HQ. unfold announcements. cbn. by repeat case_match. Qed.

Lemma cancel_ring_ends env group ring reason c (Q : _ -> result unit Error -> Prop) :
  (forall c', announcements c' = announcements c -> Q c' (Ok tt)) ->
  ends (cancel_group_ring env group ring reason) c Q.
Proof.
  intros HQ. unfold cancel_group_ring. ends_step. apply remove_ring_ends. intros c1 H1. cbv beta iota.
  destruct reason as [reason|]; [|ends_step; by apply HQ].
  ends_step. ends_step. cbn [gets snd fst]. destruct (self_uuid c1); [|ends_step; by apply HQ].
  repeat ends_step. apply HQ. rewrite (proj1 (announcements_platform env c1 _)), app_nil_r. done.
Qed.

Lemma start_ring_ends env group ring sender c (Q : _ -> result unit Error -> Prop) :
  (forall c', announcements c' = announcements c ->
    outstanding_group_rings c' !! group = Some (mkRing sender ring (pe_now env)) -> Q c' (Ok tt)) ->
  ends (start_group_ring env group ring sender) c Q.
Proof.
  intros HQ. unfold start_group_ring. ends_step. ends_step. cbn [modify snd fst]. ends_step. ends_step.
  rewrite ST_gets_bind. set (c1 := c <| outstanding_group_rings := _ |>).
  pose proof (announcements_send_all c1 (active_clients c1 group) ring) as [Ha Hok].
  assert (respects (same outstanding_group_rings)
    (for_each (active_clients c1 group)
      (fun i => to_client (Peer := Peer) (K := K) i (GroupProvideRingIdIfAbsent ring)))) as Hsame.
  { apply respects_for_each; [apply _|]. intros i. by apply respects_modify. }
  specialize (Hsame c1).
  destruct (for_each _ _ c1) as [c2 [[]|]]; [|done]. cbn in *. ends_step. apply HQ; [done|].
  cbn. rewrite Hsame. apply lookup_insert_eq.
Qed.

(** The other messages announce no ring. *)
Lemma ring_response_ends env sender r c (Q : _ -> result unit Error -> Prop) :
  (forall c', announcements c' = announcements c -> Q c' (Ok tt)) ->
  ends (handle_ring_response env sender r) c Q.
Proof.
  intros HQ. unfold handle_ring_response.
  ends_step. ends_step. cbn [gets fst snd]. destruct (negb _); [ends_step; by apply HQ|].
  destruct (rr_group_id r) as [group|]; [|ends_step; by apply HQ].
  destruct (rr_type r ≫= response_type) as [ty|]; [|ends_step; by apply HQ].
  destruct (rr_ring_id r) as [ring|]; [|destruct ty; ends_step; by apply HQ].
  destruct ty; [ends_step; by apply HQ|..]; ends_step; apply remove_ring_ends; intros c1 H1;
    apply ring_update_ends; intros c2 H2 _; apply HQ; by rewrite H2, H1, app_nil_r.
Qed.

Lemma group_message_ends sender g c (Q : _ -> result unit Error -> Prop) :
  (forall c', announcements c' = announcements c -> Q c' (Ok tt)) ->
  ends (handle_group_call_message (Peer := Peer) (K := K) sender g) c Q.
Proof.
  intros HQ. unfold handle_group_call_message.
  destruct (d2d_group_id g) as [group|]; [|ends_step; by apply HQ].
  ends_step. rewrite ST_gets_bind. destruct (active_clients c group); apply HQ; [done|].
  unfold to_client. rewrite announcements_emit. apply app_nil_r.
Qed.

(** The check that may wake up an application for a ring agrees with what the call
    manager then does with the message: a message that passes is announced as a
    ring (and is outstanding) or, if the manager is busy, as one missed; an
    expired one is announced as expired; one that is not a ring announces none. *)
Theorem ring_validation_agrees `{!CodecLaws CallMessage} env sender message age f c :
  busy_guard c = false ->
  validate_call_message_as_opaque_ring message age f <> Err RejectedByCallback ->
  ends (handle_received_call_message env sender (pb_encode message) age) c (fun c' res =>
    res = Ok tt /\
    announcements c' = announcements c ++
      expected_announcement message (busy c) (validate_call_message_as_opaque_ring message age f) /\
    (busy c = false -> forall group ring,
      expected_announcement message false (validate_call_message_as_opaque_ring message age f) =
        [(group, ring, Requested)] ->
      outstanding_group_rings c' !! group = Some (mkRing sender ring (pe_now env)))).
Proof.
  intros Hg Hv. unfold handle_received_call_message. rewrite pb_decode_encode.
  unfold expected_announcement, validate_call_message_as_opaque_ring in *.
  destruct message as [gm [[[group|] [ty|] [ring|]]|] resp]; cbn [ring_intention ring_response
    group_call_message] in *.
  all: try (unfold handle_ring_intention; cbn [ri_group_id ri_type ri_ring_id mbind option_bind]).
  all: try (ends_step; by rewrite app_nil_r).
  - destruct (intention_type ty) as [[]|]; cbn [bool_decide] in *.
    + rewrite bool_decide_true in * by done. cbn [negb] in *. destruct (age >? MAX_MESSAGE_AGE).
      { ends_step. ends_step. apply ring_update_ends. by intros c' Ha _. }
      destruct (f group ring); [|done]. cbn [negb].
      ends_step. ends_step. ends_step. cbn [gets fst snd]. destruct (busy c).
      * ends_step. apply cancel_ring_ends. intros c1 H1. ends_step.
        apply ring_update_ends. intros c2 H2 _. by rewrite H2, H1.
      * ends_step. apply start_ring_ends. intros c1 H1 H1'. ends_step.
        apply ring_update_ends. intros c2 H2 H2'. rewrite H2, H1, H2'. split_and!; [done..|].
        by intros _ g r [= <- <-].
    + ends_step. ends_step. apply remove_ring_ends. intros c1 H1. ends_step.
      apply ring_update_ends. intros c2 H2 _. by rewrite H2, H1.
    + ends_step. by rewrite app_nil_r.
  - by destruct (intention_type ty); ends_step; rewrite app_nil_r.
  - destruct resp; [|destruct gm; [|ends_step; by rewrite app_nil_r]];
      [apply ring_response_ends|apply group_message_ends]; intros c' Hc'; by rewrite Hc', app_nil_r.
Qed.

End Groups.
End CallManagerGroups.
