(* ===== verification/CallManagerTasks.v ===== *)
(** * The worker of the call manager

    The tasks of the worker, each run alone: they come to an end, and what they
    leave of the state of calls. *)

From S2P Require Import Prelude Threads States Signaling ConnectionTypes Connection ConnectionStart.
From S2P Require Import Call CallFsm CallSystem CallManager CallManagerSystem.
Local Open Scope Z_scope.
Local Open Scope ringrtc_scope.

Module CallManagerTasks.
Import CallManager CallManagerSystem.

Section Tasks.
Context {Peer K : Type} `{!CallApi Peer K} `{!Codec CallMessage}.
Notation Manager := (CallManager (Peer := Peer) (K := K)).
Implicit Types (c : Manager).

(** ** Tasks end *)

(** The guard of [busy] is as it was, and no more messages wait. *)
Definition shrinks : relation Manager := fun c c' =>
  busy_guard c' = busy_guard c /\
  (length (queue (message_queue c')) <= length (queue (message_queue c)))%nat.

#[local] Instance shrinks_preorder : PreOrder shrinks.
Proof. split; unfold shrinks; [done|]. intros c1 c2 c3 [-> ?] [-> ?]. split; [done|lia]. Qed.

#[local] Hint Extern 1 (respects shrinks (with_call _ _)) =>
  intros ?; rewrite with_call_run; split; [done|apply Nat.le_refl] : respects.
#[local] Hint Extern 2 (respects shrinks (modify _)) =>
  apply respects_modify; intros; repeat case_match; (split; [done|apply Nat.le_refl]) : respects.
#[local] Hint Extern 2 (respects shrinks (update_queue _)) =>
  apply respects_modify; intros; split; [done|cbn; first [apply length_filter|lia]] : respects.
#[local] Hint Extern 1 (respects (same busy_guard) (with_call _ _)) =>
  intros ?; rewrite with_call_run; reflexivity : respects.
#[local] Hint Extern 2 (respects (same busy_guard) (modify _)) =>
  apply respects_modify; intros; repeat case_match; reflexivity : respects.
#[local] Hint Extern 2 (respects (same busy_guard) (update_queue _)) =>
  apply respects_modify; reflexivity : respects.

Definition free c : Prop := busy_guard c = false.

Lemma shrinks_free c c' : shrinks c c' -> free c -> free c'.
Proof. unfold free. by intros [-> _]. Qed.

Lemma guard_free c c' : same busy_guard c c' -> free c -> free c'.
Proof. unfold free, same. by intros ->. Qed.

Ltac unfold_atom :=
  lazymatch goal with |- respects _ ?m => let h := get_head m in progress unfold h end.
Ltac solve_total := intros;
  repeat first [total_step | respects_step | unfold_atom | done].

Section Env.
Context (env : PlatformEnv (Peer := Peer)).

Lemma internal_error_shrinks id : total free shrinks (internal_error env id).
Proof. pose proof shrinks_free. solve_total. Qed.

Lemma send_round_shrinks b c :
  busy_guard (send_round env b c).1 = busy_guard c /\
  match (send_round env b c).2 with
  | Ok Stop => True
  | Ok _ => (length (queue (message_queue (send_round env b c).1)) < length (queue (message_queue c)))%nat
  | Err _ => False
  end.
Proof.
  unfold send_round. rewrite ST_gets_bind.
  destruct (messages_in_flight (message_queue c)); [done|].
  destruct (queue (message_queue c)) as [|i q] eqn:Hq; [done|].
  set (c1 := (c <| message_queue := (message_queue c) <| queue := q |> |>)).
  rewrite (ST_bind_run (update_queue _) _ c c1 tt) by done.
  assert (respects shrinks (run_closure env (item_closure i))) as Hrc.
  { unfold run_closure. repeat first [respects_step | unfold_atom]. }
  specialize (Hrc c1). unfold attempt, mbind, ST_bind.
  destruct (run_closure env (item_closure i) c1) as [c2 [sr|e]]; destruct Hrc as [Hg Hl]; cbn in *.
  - split; [done|]. destruct (_ && _); [done|lia].
  - split; [done|lia].
Qed.

Lemma send_next_message_total i : total free (same busy_guard) (send_next_message env i).
Proof.
  pose proof guard_free as Hkeep. unfold send_next_message.
  apply total_bind; [apply _|done|solve_total|]. intros _.
  apply (total_loop _ _ Hkeep (fun c => length (queue (message_queue c)))).
  intros c Hc. apply ends_bind, ends_atom.
  destruct (send_round_shrinks (pe_assume_messages_sent env) c) as [Hg Hround].
  destruct (send_round env _ c) as [c1 [[| |id]|e]]; cbn in *; [by apply ends_done..| |done].
  apply ends_bind. eapply ends_weaken; [apply internal_error_shrinks; unfold free; congruence|].
  cbv beta. intros c2 [[]|e] [Hg2 Hl]; [apply ends_done|]; split; unfold same; try congruence.
  intros _. lia.
Qed.

#[local] Hint Resolve send_next_message_total : respects.

Lemma run_other_task_total t :
  match t with ReceivedOfferTask _ _ _ => False | _ => True end ->
  total free (same busy_guard) (run_task env t).
Proof. pose proof guard_free. destruct t; cbn [run_task]; intros Ht; try done; solve_total. Qed.

(** ** Offers

    [handle_received_offer] holds the guard of [busy] while it sends a busy
    message.  A message of the active call that fails then would wait for the
    guard. *)

Definition held c : Prop := busy_guard c = true.

(** No message that can be sent now belongs to the active call. *)
Definition calm c : Prop :=
  messages_in_flight (message_queue c) = true \/
  forall i, i ∈ queue (message_queue c) -> active_call_id c <> Some (item_call_id i).

Definition held_calm c : Prop := held c /\ calm c.

Lemma send_round_calm b c :
  held_calm c ->
  held_calm (send_round env b c).1 /\
  forall id, (send_round env b c).2 = Ok (ClosureError id) ->
    active_call_id (send_round env b c).1 <> Some id.
Proof.
  intros [Hh Hc]. unfold send_round. rewrite ST_gets_bind.
  destruct (messages_in_flight (message_queue c)) eqn:Hf; [by split; [split|]|].
  destruct (queue (message_queue c)) as [|i q] eqn:Hq; [by split; [split|]|].
  set (c1 := (c <| message_queue := (message_queue c) <| queue := q |> |>)).
  rewrite (ST_bind_run (update_queue _) _ c c1 tt) by done.
  assert (forall j, j ∈ i :: q -> active_call_id c <> Some (item_call_id j)) as Hno.
  { destruct Hc as [Hc|Hc]; [congruence|]. by rewrite Hq in Hc. }
  assert (respects (same (fun c => (busy_guard c, active_call_id c, queue (message_queue c))))
    (run_closure env (item_closure i))) as Hrc.
  { unfold run_closure. repeat first [respects_step
      | intros ?; rewrite with_call_run; reflexivity
      | apply respects_modify; reflexivity | unfold_atom]. }
  specialize (Hrc c1). unfold attempt, mbind, ST_bind.
  destruct (run_closure env (item_closure i) c1) as [c2 r]. injection Hrc as Hg Ha Hq2.
  cbn in Hg, Ha, Hq2. destruct r as [sr|e]; cbn.
  - split; [|by destruct (_ && _)]. split; unfold held, calm; cbn; [congruence|].
    right. rewrite Hq2, Ha. intros j Hj. apply Hno. by right.
  - split; [split; unfold held, calm; cbn; [congruence|]|].
    + right. rewrite Hq2, Ha. intros j Hj. apply Hno. by right.
    + intros id [= <-]. rewrite Ha. apply Hno. by left.
Qed.

Lemma send_calm_ends c i :
  held c -> calm (c <| message_queue := (message_queue c) <| queue := queue (message_queue c) ++ [i] |> |>) ->
  ends (send_next_message env (Some i)) c (fun _ _ => True).
Proof.
  intros Hh Hc. unfold send_next_message. apply ends_bind, ends_atom. cbn.
  set (R := fun c c' : Manager => held_calm c -> held_calm c').
  assert (PreOrder R) by (split; unfold R; auto).
  eapply ends_weaken; [|done]. apply (total_loop held_calm R (fun c c' H => H)
    (fun c => length (queue (message_queue c)))); [|by split].
  clear c i Hh Hc. intros c Hc. apply ends_bind, ends_atom.
  destruct (send_round_calm (pe_assume_messages_sent env) c Hc) as [H1 Hid].
  destruct (send_round_shrinks (pe_assume_messages_sent env) c) as [_ Hround].
  destruct (send_round env _ c) as [c1 [[| |id]|e]]; cbn in *;
    [by apply ends_done; split; [intros _|]..| |done].
  apply ends_bind. unfold internal_error, call_is_active. apply ends_bind, ends_atom. cbn.
  rewrite bool_decide_false by (by apply Hid). do 2 apply ends_done. by split; [intros _|].
Qed.

(** The offer of call [id] can be answered with busy. *)
Definition busy_can_be_sent c (id : CallId) : Prop :=
  messages_in_flight (message_queue c) = true \/
  active_call_id c <> Some id /\
  forall i, i ∈ queue (message_queue c) -> active_call_id c <> Some (item_call_id i).

(** The guard, the active call and what the calls were made for stay. *)
Definition settled : relation Manager := fun c c' =>
  busy_guard c' = busy_guard c /\ active_call_id c' = active_call_id c /\
  forall r, k_same (calls c r) (calls c' r).

#[local] Instance settled_preorder : PreOrder settled.
Proof.
  split; unfold settled; [done|]. intros c1 c2 c3 (-> & -> & H1) (-> & -> & H2).
  split_and!; [done..|]. intros r. etrans; [apply H1|apply H2].
Qed.

Lemma settled_held c c' : settled c c' -> held c -> held c'.
Proof. unfold held. by intros (-> & _). Qed.

Lemma settled_with_call {A} r (m : ST K Error A) :
  respects k_same m -> respects settled (with_call r m).
Proof.
  intros Hm c. rewrite with_call_run. split_and!; [done..|]. intros r'. cbn.
  destruct (decide (r = r')) as [<-|]; [rewrite fn_lookup_insert; apply Hm|by rewrite fn_lookup_insert_ne].
Qed.

#[local] Hint Extern 1 (respects settled (with_call _ (k_api _))) =>
  apply settled_with_call, api_same : respects.
#[local] Hint Extern 2 (respects settled (modify _)) =>
  apply respects_modify; intros; repeat case_match; done : respects.
#[local] Hint Extern 2 (respects settled (update_queue _)) => by apply respects_modify : respects.

Lemma terminate_call_held `{!CallLaws Peer K} r hangup reason :
  total held settled (terminate_call env r hangup reason).
Proof. pose proof settled_held. solve_total. Qed.

Lemma reject_ends `{!CallLaws Peer K} peer id event r c :
  held c -> k_call_id (calls c r) = id -> busy_can_be_sent c id ->
  ends (notify_application env peer id event ;; send_busy env r) c (fun _ _ => True).
Proof.
  intros Hh Hid Hb. apply ends_bind, ends_atom. unfold platform_call, of_result, mbind, ST_bind.
  cbn. destruct (pe_platform env _); [|done]. apply ends_bind, ends_atom. cbn. rewrite Hid.
  apply send_calm_ends; [done|]. destruct Hb as [Hb|[Hne Hq]]; [by left|right].
  cbn. intros i [Hi|Hi%list_elem_of_singleton]%elem_of_app; subst; auto.
Qed.

Lemma new_call_run peer id dir mt local c :
  new_call env peer id dir mt local c =
    match pe_call_new env with
    | Ok _ => (c <| calls := <[call_count c := k_new peer id dir mt local]> (calls c) |>
                 <| call_count := S (call_count c) |>, Ok (call_count c))
    | Err e => (c, Err e)
    end.
Proof. unfold new_call, of_result, mbind, ST_bind. by destruct (pe_call_new env). Qed.

(** The active call goes first. *)
Lemma terminate_first_ends `{!CallLaws Peer K} r0 r hangup reason (k : prog Manager Error unit) c :
  held c ->
  (forall c', held c' -> active_call_id c' = None ->
    k_call_id (calls c' r) = k_call_id (calls c r) -> ends k c' (fun _ _ => True)) ->
  ends ((clear_active_call ;; atom (modify (fun s => s <| busy := false |>)) ;;
         terminate_call env r0 hangup reason) ;; k) c (fun _ _ => True).
Proof.
  intros Hh Hk. do 2 apply ends_bind. apply ends_atom. cbn. apply ends_bind, ends_atom. cbn.
  eapply ends_weaken; [by apply terminate_call_held|]. cbv beta.
  intros c' [[]|e] (Hg & Ha & Hs); [|done]. cbn in Hg, Ha. apply Hk; unfold held; [congruence..|].
  by destruct (Hs r) as (-> & _).
Qed.

Lemma handle_valid_offer_ends `{!CallLaws Peer K} peer id received c :
  held c -> busy_can_be_sent c id ->
  ends (handle_valid_offer env peer id received) c (fun _ _ => True).
Proof.
  intros Hh Hb. unfold handle_valid_offer. apply ends_bind, ends_atom. cbn [gets fst snd].
  apply ends_bind, ends_atom. rewrite new_call_run. destruct (pe_call_new env) as [[]|]; [|done].
  cbn [fst snd].
  set (r := call_count c). set (c1 := c <| calls := _ |> <| call_count := _ |>).
  assert (held c1) as Hh1 by done. assert (busy_can_be_sent c1 id) as Hb1 by done.
  assert (k_call_id (calls c1 r) = id) as Hid.
  { cbn. rewrite fn_lookup_insert. apply new_call_id. }
  apply ends_bind, ends_atom. cbn [gets fst snd]. apply ends_bind.
  eapply ends_weaken with (Q := fun c' _ => c' = c1).
  { destruct (active_call_id c) as [a|]; cbn; [|by destruct (busy c); apply ends_done].
    destruct (call_by_call_id c !! a); [by apply ends_atom|by apply ends_done]. }
  intros c' [collision|e] ->; [|done].
  assert (forall event, ends (notify_application env peer id event ;; send_busy env r) c1 (fun _ _ => True))
    as Hreject by (intros; by apply reject_ends).
  assert (forall event, ends (notify_application env peer id event) c1 (fun _ _ => True))
    as Hignore by (intros; by apply ends_atom).
  assert (forall c', ends (atom (start_incoming_call env r id peer received)) c' (fun _ _ => True))
    as Hstart by (intros; by apply ends_atom).
  assert (forall c', held c' -> active_call_id c' = None -> k_call_id (calls c' r) = id -> forall event,
    ends (notify_application env peer id event ;; send_busy env r) c' (fun _ _ => True)) as Hreject'.
  { intros c' Hc' Ha' Hk' event. apply reject_ends; [done..|]. right. by rewrite Ha'. }
  destruct collision; cbn [collision_actions];
    destruct (active_call_id c ≫= (fun a => call_by_call_id c !! a)) as [r0|]; cbn [snd];
    first [apply ends_bind, ends_done; auto | eapply (terminate_first_ends _ r); [done|]; intros; auto; apply Hreject'; congruence].
Qed.

Lemma internal_create_api_error_total peer id :
  total free (same busy_guard) (internal_create_api_error env peer id).
Proof. pose proof guard_free. solve_total. Qed.

Lemma handle_received_offer_ends `{!CallLaws Peer K} peer id received c :
  free c -> (validate_offer received = Ok tt -> busy_can_be_sent c id) ->
  ends (handle_received_offer env peer id received) c (fun c' _ => free c').
Proof.
  intros Hc Hb. unfold handle_received_offer.
  destruct (validate_offer received) as [[]|[]] eqn:Hv.
  - unfold with_busy_guard. apply ends_bind, ends_atom_unless; [done|]. cbn [modify fst snd].
    apply ends_then. eapply ends_weaken; [apply handle_valid_offer_ends; [done|exact (Hb eq_refl)]|].
    intros c1 r _. by apply ends_bind, ends_atom, ends_done.
  - pose proof guard_free as Hkeep. eapply ends_weaken with (Q := fun c1 _ => same busy_guard c c1);
      [|intros c1 r H1; by apply (Hkeep c)].
    assert (total free (same busy_guard) (notify_offer_expired env peer id (ro_age received) ;;
      notify_call_concluded env peer id)) as Ht by solve_total. by apply Ht.
Qed.

End Env.

(** C16. Every task of the worker, run alone from a state where the lock of [busy] is free, comes to
    an end and leaves the lock free: the loops end and the worker does not wait
    for itself.  For an offer this needs that the message that could fail while
    the lock is held is not one of the active call. *)
Theorem worker_tasks_end `{!CallLaws Peer K} env t c :
  busy_guard c = false ->
  match t with
  | ReceivedOfferTask _ id received => validate_offer received = Ok tt -> busy_can_be_sent c id
  | _ => True
  end ->
  ends (run_task env t) c (fun c' _ => busy_guard c' = false).
Proof.
  intros Hc Ht.
  assert (forall P : prog Manager Error unit, total free (same busy_guard) P -> ends P c (fun c' _ => busy_guard c' = false)) as Htot.
  { intros p Hp. eapply ends_weaken; [by apply Hp|]. intros c' r Hs. exact (guard_free c c' Hs Hc). }
  destruct t; try (apply Htot; by apply run_other_task_total).
  cbn [run_task]. unfold or_create_error. apply ends_bind, ends_try.
  eapply ends_weaken; [by apply handle_received_offer_ends|]. cbv beta. intros c1 [r|e] H1.
  - by apply ends_done.
  - eapply ends_weaken; [by apply internal_create_api_error_total|].
    intros c' r Hs. exact (guard_free c1 c' Hs H1).
Qed.

End Tasks.
End CallManagerTasks.
