(* ===== verification/CallManagerOneCall.v ===== *)
(** * One call at a time

    When the methods of the call manager do not overlap and every call has an id
    of its own, the device is in one call at most: the active one-to-one call or
    a joined group call, and [busy] says so. *)

From S2P Require Import Prelude Threads States Signaling ConnectionTypes Connection ConnectionStart.
From S2P Require Import Call CallFsm CallSystem CallManager CallManagerSystem CallManagerTasks.
Local Open Scope Z_scope.
Local Open Scope ringrtc_scope.

Module CallManagerOneCall.
Import CallManager CallManagerSystem CallManagerTasks.

Section OneCall.
Context {Peer K : Type} `{!CallApi Peer K} `{!Codec CallMessage} `{!CallLaws Peer K}.
Notation Manager := (CallManager (Peer := Peer) (K := K)).
Implicit Types (c : Manager) (j : gset ClientId).

(** ** Methods that do not overlap *)

(** An id that no call of the map has, nor one waiting to be terminated. *)
Definition fresh (id : CallId) c : Prop :=
  call_by_call_id c !! id = None /\
  forall r h, TerminateTask r h ∈ worker c -> k_call_id (calls c r) <> id.

(** How tasks are to be used: ids of new calls are fresh, and the manager is not
    reset during a group call. *)
Definition task_allowed (t : Task (Peer := Peer)) c j : Prop :=
  match t with
  | CallTask _ id _ _ | ReceivedOfferTask _ id _ => fresh id c
  | ResetTask => j = ∅
  | _ => True
  end.

Inductive seq_step : Manager * gset ClientId -> Manager * gset ClientId -> Prop :=
| seq_task env t ts c j c' res :
    worker c = t :: ts -> task_allowed t (c <| worker := ts |>) j ->
    runs (run_task env t) (c <| worker := ts |>) c' res -> seq_step (c, j) (c', j)
| seq_app env a c j c' res : runs (run_app env a) c c' res -> seq_step (c, j) (c', j)
| seq_request env r conn m c j c' res :
    (r < call_count c)%nat -> runs (run_manager_call env r conn m) c c' res ->
    seq_step (c, j) (c', j)
| seq_delayed i t c j :
    delayed c !! i = Some t ->
    seq_step (c, j) (c <| delayed := delete i (delayed c) |> <| worker := worker c ++ [t] |>, j)
| seq_call r k' c j :
    (r < call_count c)%nat -> k_same (calls c r) k' ->
    seq_step (c, j) (c <| calls := <[r := k']> (calls c) |>, j)
| seq_join client c j :
    client ∉ j -> busy c = false -> seq_step (c, j) (c <| busy := true |>, {[client]} ∪ j)
| seq_leave client c j :
    client ∈ j -> seq_step (c, j) (c <| busy := false |>, j ∖ {[client]}).

Inductive seq_reachable : Manager * gset ClientId -> Prop :=
| seq_reachable_init memory : seq_reachable (new memory, ∅)
| seq_reachable_step x y : seq_reachable x -> seq_step x y -> seq_reachable y.

(** ** The invariant *)

Record Inv (c : Manager) (j : gset ClientId) : Prop := {
  inv_map id r : call_by_call_id c !! id = Some r ->
    (r < call_count c)%nat /\ k_call_id (calls c r) = id;
  inv_tasks r h : TerminateTask r h ∈ worker c -> (r < call_count c)%nat;
  inv_delayed r h : TerminateTask r h ∉ delayed c;
  inv_active id : active_call_id c = Some id ->
    is_Some (call_by_call_id c !! id) /\
    forall r h, TerminateTask r h ∈ worker c -> k_call_id (calls c r) <> id;
  inv_busy : busy c = true <-> is_Some (active_call_id c) \/ j <> ∅;
  inv_joined x y : x ∈ j -> y ∈ j -> x = y;
  inv_exclusive : is_Some (active_call_id c) -> j = ∅;
}.

(** ** Steps that change none of this *)

(** Everything but the tasks of the worker stays; the new tasks satisfy [P]. *)
Definition adds (P : Task (Peer := Peer) -> Prop) : relation Manager := fun c c' =>
  (active_call_id c' = active_call_id c /\ busy c' = busy c /\
   call_by_call_id c' = call_by_call_id c /\ call_count c' = call_count c) /\
  (forall r h, TerminateTask r h ∈ delayed c' -> TerminateTask r h ∈ delayed c) /\
  (forall r, k_same (calls c r) (calls c' r)) /\
  exists l, worker c' = worker c ++ l /\ Forall P l.

#[local] Instance adds_preorder P : PreOrder (adds P).
Proof.
  split; unfold adds.
  - intros c. split_and!; [done..|]. exists []. by rewrite app_nil_r.
  - intros c1 c2 c3 ((-> & -> & -> & ->) & Hd & Hs & l & Hw & Hl)
      ((-> & -> & -> & ->) & Hd' & Hs' & l' & Hw' & Hl'). split_and!; auto.
    + intros r. etrans; [apply Hs|apply Hs'].
    + exists (l ++ l'). rewrite Hw', Hw, app_assoc. split; [done|]. by apply Forall_app.
Qed.

Lemma adds_with_call P {A} r (m : ST K Error A) :
  respects k_same m -> respects (adds P) (with_call r m).
Proof.
  intros Hm c. rewrite with_call_run. split_and!; try done.
  - intros r'. cbn.
    destruct (decide (r = r')) as [<-|];
      [rewrite fn_lookup_insert; apply Hm|by rewrite fn_lookup_insert_ne].
  - exists []. by rewrite app_nil_r.
Qed.

Lemma adds_nothing P c c' :
  active_call_id c' = active_call_id c -> busy c' = busy c ->
  call_by_call_id c' = call_by_call_id c -> call_count c' = call_count c ->
  (forall r h, TerminateTask r h ∈ delayed c' -> TerminateTask r h ∈ delayed c) ->
  calls c' = calls c -> worker c' = worker c -> adds P c c'.
Proof.
  intros ? ? ? ? Hd Hc Hw. split_and!; try done.
  - by rewrite Hc.
  - exists []. by rewrite app_nil_r.
Qed.

Lemma adds_spawn P (t : Task (Peer := Peer)) :
  P t -> every_step (adds P) (worker_spawn (K := K) t).
Proof.
  intros Ht. apply every_step_atom, respects_modify. intros c.
  destruct (worker_stopped c); [done|]. split_and!; try done. exists [t]. split; [done|].
  by constructor.
Qed.

(** A call among [P] waits to be terminated. *)
Lemma adds_tasks P c c' r h :
  adds P c c' -> TerminateTask r h ∈ worker c' ->
  TerminateTask r h ∈ worker c \/ P (TerminateTask r h).
Proof.
  intros (_ & _ & _ & l & -> & Hl). rewrite elem_of_app. intros [|Hr]; [by left|right].
  rewrite Forall_forall in Hl. by apply Hl.
Qed.

Lemma Inv_adds P c c' j :
  Inv c j -> adds P c c' ->
  (forall r h, P (TerminateTask r h) ->
    (r < call_count c)%nat /\ active_call_id c <> Some (k_call_id (calls c r))) ->
  Inv c' j.
Proof.
  intros HI Hadds HP. pose proof (fun r h => adds_tasks P c c' r h Hadds) as Hin.
  destruct Hadds as ((Ha & Hb & Hm & Hn) & Hd & Hs & _). split.
  - intros id r. rewrite Hm, Hn. intros Hr. destruct (Hs r) as (-> & _).
    by apply (inv_map _ _ HI).
  - intros r h. rewrite Hn. intros [Hr|Hr]%Hin; [by eapply (inv_tasks _ _ HI)|].
    by apply HP in Hr as [].
  - intros r h Hr%Hd. by apply (inv_delayed _ _ HI) in Hr.
  - intros id. rewrite Ha, Hm. intros Hid. destruct (inv_active _ _ HI id Hid) as [? Hno].
    split; [done|]. intros r h. destruct (Hs r) as (-> & _). intros [Hr|Hr]%Hin; [by eapply Hno|].
    destruct (HP _ _ Hr) as [_ Hne]. congruence.
  - rewrite Hb, Ha. apply (inv_busy _ _ HI).
  - apply (inv_joined _ _ HI).
  - rewrite Ha. apply (inv_exclusive _ _ HI).
Qed.

(** No call is active any more, whichever calls wait to be terminated. *)
Lemma Inv_cleared P c c' :
  Inv c ∅ -> adds P c c' -> (forall r h, P (TerminateTask r h) -> (r < call_count c)%nat) ->
  Inv (c' <| active_call_id := None |> <| busy := false |>) ∅.
Proof.
  intros HI Hadds HP. pose proof (fun r h => adds_tasks P c c' r h Hadds) as Hin.
  destruct Hadds as ((Ha & Hb & Hm & Hn) & Hd & Hs & _). split; cbn; try done.
  - intros id r. rewrite Hm, Hn. intros Hr. destruct (Hs r) as (-> & _).
    by apply (inv_map _ _ HI).
  - intros r h. rewrite Hn. intros [Hr|Hr]%Hin; [by eapply (inv_tasks _ _ HI)|by eapply HP].
  - intros r h Hr%Hd. by apply (inv_delayed _ _ HI) in Hr.
  - split; [done|]. intros [[? ?]|]; done.
Qed.

Lemma fresh_adds P c c' id :
  fresh id c -> adds P c c' ->
  (forall r h, P (TerminateTask r h) -> k_call_id (calls c r) <> id) -> fresh id c'.
Proof.
  intros [Hm Hf] Hadds HP. pose proof (fun r h => adds_tasks P c c' r h Hadds) as Hin.
  destruct Hadds as ((_ & _ & Hm' & _) & _ & Hs & _). split; [by rewrite Hm'|].
  intros r h. destruct (Hs r) as (-> & _). intros [Hr|Hr]%Hin; [by eapply Hf|by eapply HP].
Qed.

(** Fewer calls wait to be terminated. *)
Lemma Inv_fewer c c' j :
  Inv c j ->
  active_call_id c' = active_call_id c -> busy c' = busy c ->
  call_by_call_id c' = call_by_call_id c -> call_count c' = call_count c -> calls c' = calls c ->
  (forall r h, TerminateTask r h ∈ worker c' -> TerminateTask r h ∈ worker c) ->
  (forall r h, TerminateTask r h ∈ delayed c' -> TerminateTask r h ∈ delayed c) -> Inv c' j.
Proof.
  intros [Hmap Ht Hdl Hact Hbusy Hj He] Ha Hb Hm Hn Hk Hw Hd.
  split; rewrite ?Ha, ?Hb, ?Hm, ?Hn, ?Hk; auto.
  - intros r h Hr%Hw. by eapply Ht.
  - intros r h Hr%Hd. by eapply Hdl.
  - intros id Hid. destruct (Hact id Hid) as [? Hno]. split; [done|].
    intros r h Hr%Hw. by eapply Hno.
Qed.

Lemma Inv_idle c j : Inv c j -> busy c = false -> j = ∅.
Proof.
  intros HI Hb. destruct (decide (j = ∅)) as [|Hj]; [done|]. exfalso.
  apply (or_intror (A := is_Some (active_call_id c))), (inv_busy _ _ HI) in Hj. congruence.
Qed.

(** ** New calls *)

Lemma Inv_new k c j :
  Inv c j ->
  Inv (c <| calls := <[call_count c := k]> (calls c) |> <| call_count := S (call_count c) |>) j.
Proof.
  intros HI.
  assert (forall r, (r < call_count c)%nat -> <[call_count c := k]> (calls c) r = calls c r) as Hk.
  { intros r Hr. rewrite fn_lookup_insert_ne; [done|lia]. }
  split; cbn.
  - intros id r Hr%(inv_map _ _ HI). rewrite Hk by tauto. split; [lia|tauto].
  - intros r h Hr%(inv_tasks _ _ HI). lia.
  - apply (inv_delayed _ _ HI).
  - intros id Hid. destruct (inv_active _ _ HI id Hid) as [? Hno]. split; [done|].
    intros r h Hr. rewrite Hk by (by eapply (inv_tasks _ _ HI)). by eapply Hno.
  - apply (inv_busy _ _ HI).
  - apply (inv_joined _ _ HI).
  - apply (inv_exclusive _ _ HI).
Qed.

Lemma fresh_new id k c j :
  Inv c j -> fresh id c ->
  fresh id (c <| calls := <[call_count c := k]> (calls c) |> <| call_count := S (call_count c) |>).
Proof.
  intros HI [Hm Hf]. split; [done|]. cbn. intros r h Hr.
  pose proof (inv_tasks _ _ HI _ _ Hr). rewrite fn_lookup_insert_ne by lia. by eapply Hf.
Qed.

Lemma Inv_activate r id q c :
  Inv c ∅ -> fresh id c -> (r < call_count c)%nat -> k_call_id (calls c r) = id ->
  Inv (c <| message_queue := q |> <| call_by_call_id := <[id := r]> (call_by_call_id c) |>
         <| busy := true |> <| active_call_id := Some id |>) ∅.
Proof.
  intros HI [Hm Hf] Hr Hid. split; cbn; try done.
  - intros id' r'. destruct (decide (id' = id)) as [->|].
    + rewrite lookup_insert_eq. intros [= <-]. done.
    + rewrite lookup_insert_ne by done. apply (inv_map _ _ HI).
  - apply (inv_tasks _ _ HI).
  - apply (inv_delayed _ _ HI).
  - intros ? [= <-]. rewrite lookup_insert_eq. split; [by eexists|done].
  - split; [left; by eexists|done].
Qed.

(** ** Methods that only add tasks *)

Definition no_terminate (t : Task (Peer := Peer)) : Prop :=
  match t with TerminateTask _ _ => False | _ => True end.

(** At most, the active call is given up. *)
Definition evolves : relation Manager := fun c c' =>
  call_count c' = call_count c /\ call_by_call_id c' = call_by_call_id c /\
  (active_call_id c' = active_call_id c \/ active_call_id c' = None) /\
  forall r, k_same (calls c r) (calls c' r).

#[local] Instance evolves_preorder : PreOrder evolves.
Proof.
  split; unfold evolves; [intros c; split_and!; [done|done|by left|done]|].
  intros c1 c2 c3 (-> & -> & H1 & Hs) (-> & -> & H2 & Hs'). split_and!; [done..| |].
  - destruct H1, H2; [left|right..]; congruence.
  - intros r. etrans; [apply Hs|apply Hs'].
Qed.

Lemma adds_evolves P c c' : adds P c c' -> evolves c c'.
Proof. intros ((Ha & _ & Hm & Hn) & _ & Hs & _). unfold evolves. auto. Qed.

#[local] Hint Extern 1 (respects (adds _) (with_call _ (k_api _))) =>
  apply adds_with_call, api_same : respects.
#[local] Hint Extern 1 (respects (adds _) (with_call _ (k_hangup_via_rtp_data_to_all_except _ _))) =>
  apply adds_with_call, hangup_same : respects.
#[local] Hint Extern 1 (respects (adds _) (with_call _ (k_take_buffered_local_ice_candidates _))) =>
  apply adds_with_call, take_ice_same : respects.
#[local] Hint Extern 2 (respects (adds _) (modify _)) =>
  apply respects_modify; intros; repeat case_match; (apply adds_nothing; set_solver) : respects.
#[local] Hint Extern 2 (respects (adds _) (update_queue _)) =>
  apply respects_modify; intros; by apply adds_nothing : respects.
#[local] Hint Extern 1 (every_step (adds _) (worker_spawn _)) =>
  apply adds_spawn; solve [done | naive_solver] : respects.

Ltac adds_unfold :=
  lazymatch goal with |- respects (adds _) ?m => let h := get_head m in progress unfold h end.
Ltac solve_adds := intros; repeat first [every_step_step | respects_step | adds_unfold].

Lemma keeps_adds {A} j (p : prog Manager Error A) :
  every_step (adds no_terminate) p -> keeps (fun c => Inv c j) evolves p.
Proof.
  apply keeps_every_step; [apply _|]. intros c c' HI Hc. split; [|by eapply adds_evolves].
  eapply Inv_adds; [done|done|]. done.
Qed.

#[local] Hint Extern 1 (keeps _ evolves (worker_spawn _)) =>
  apply keeps_adds, adds_spawn; exact I : respects.

Ltac solve_keeps := intros; repeat keeps_step ltac:(apply keeps_adds; solve [solve_adds]).

Section Env.
Context (env : PlatformEnv (Peer := Peer)).

Lemma terminate_call_adds r h reason :
  every_step (adds (eq (TerminateTask r h))) (terminate_call env r h reason).
Proof. solve_adds. Qed.

(** ** Ending the active call *)

Lemma end_call r h reason c :
  Inv c ∅ -> (r < call_count c)%nat ->
  after (handle_terminate_active_call env r h reason) c (fun c' _ => Inv c' ∅ /\ evolves c c').
Proof.
  intros HI Hr. unfold handle_terminate_active_call. apply after_bind, after_atom. cbn [modify fst snd].
  apply after_bind, after_atom_unless. intros _. cbn [modify fst snd].
  assert (adds no_terminate c c) as Hrefl by done.
  pose proof (Inv_cleared no_terminate c c HI Hrefl (fun r h H => match H with end)) as H1.
  set (c1 := c <| active_call_id := None |> <| busy := false |>) in *.
  eapply after_weaken; [apply (every_step_after _ _ _ (terminate_call_adds r h (Some reason)))|].
  cbv beta. intros c' _ Hc'. split.
  - eapply Inv_adds; [done|done|]. intros r' h' [= <- <-]. by split.
  - apply adds_evolves in Hc' as (Hn & Hm & Ha & Hs). split_and!; [done|done| |done].
    right. by destruct Ha.
Qed.

(** The active call, when there is one, is a call of the map; then no group call
    is joined. *)
Lemma after_active_call c j (Q : Manager -> result CallRef Error -> Prop) :
  Inv c j ->
  (forall r, j = ∅ -> (r < call_count c)%nat -> active_call_id c = Some (k_call_id (calls c r)) ->
    Q c (Ok r)) ->
  (active_call_id c = None -> Q c (Err RingRtcError.NoActiveCall)) ->
  after active_call c Q.
Proof.
  intros HI Hok Herr. apply after_atom. unfold active_call_m. rewrite ST_gets_bind.
  destruct (active_call_id c) as [id|] eqn:Ha; [|by apply Herr]. rewrite ST_gets_bind.
  destruct (inv_active _ _ HI id Ha) as [[r Hr] _]. rewrite Hr.
  destruct (inv_map _ _ HI id r Hr) as [Hlt <-]. apply Hok; [|done|done].
  apply (inv_exclusive _ _ HI). by rewrite Ha.
Qed.

Lemma terminate_active_call_keeps j b reason :
  keeps (fun c => Inv c j) evolves (terminate_active_call env b reason).
Proof.
  intros c HI. unfold terminate_active_call. apply after_bind, after_atom. cbn [gets fst snd].
  case_bool_decide as Ha; cbn [negb]; [|by apply after_done].
  apply after_bind. eapply after_active_call; [done| |by intros Hn; rewrite Hn in Ha; destruct Ha].
  intros r -> Hr _. cbv beta iota. by apply (end_call r).
Qed.
#[local] Hint Resolve terminate_active_call_keeps : respects.

Lemma internal_error_keeps j id : keeps (fun c => Inv c j) evolves (internal_error env id).
Proof. solve_keeps. Qed.
#[local] Hint Resolve internal_error_keeps : respects.

Lemma internal_api_error_keeps j : keeps (fun c => Inv c j) evolves (internal_api_error env).
Proof. solve_keeps. Qed.
#[local] Hint Resolve internal_api_error_keeps : respects.

Lemma send_next_message_keeps j i : keeps (fun c => Inv c j) evolves (send_next_message env i).
Proof. solve_keeps. Qed.
#[local] Hint Resolve send_next_message_keeps : respects.

Lemma run_manager_call_keeps j r conn m :
  keeps (fun c => Inv c j) evolves (run_manager_call env r conn m).
Proof. solve_keeps. Qed.

Lemma close_keeps j : keeps (fun c => Inv c j) evolves close.
Proof.
  apply keeps_bind; [apply _|solve_keeps|]. intros []; [solve_keeps|].
  apply keeps_bind; [apply _|by apply keeps_adds, adds_spawn|]. intros _ c HI. apply after_atom.
  cbn [modify fst snd]. split; [by apply (Inv_fewer c); set_solver|]. by split_and!; [..|left|].
Qed.
#[local] Hint Resolve close_keeps : respects.

Lemma run_app_keeps j a : keeps (fun c => Inv c j) evolves (run_app env a).
Proof.
  destruct a; cbn [run_app]; [|solve_keeps..]. destruct t; cbn [app_task]; solve_keeps.
Qed.

(** ** Tasks *)

(** [p] keeps the invariant. *)
Definition safe {A} j (p : prog Manager Error A) : Prop :=
  forall c, Inv c j -> after p c (fun c' _ => Inv c' j).

Lemma keeps_safe {A} j (p : prog Manager Error A) : keeps (fun c => Inv c j) evolves p -> safe j p.
Proof. intros Hp c HI. eapply after_weaken; [by apply Hp|]. by intros ? ? []. Qed.

Lemma with_active_call_keeps j id body :
  (forall r c, Inv c j -> j = ∅ -> (r < call_count c)%nat ->
    after (body r) c (fun c' _ => Inv c' j /\ evolves c c')) ->
  keeps (fun c => Inv c j) evolves (with_active_call id body).
Proof.
  intros Hb c HI. unfold with_active_call. apply after_bind, after_try.
  eapply after_active_call; [done| |]; cbv beta iota.
  - intros r -> Hr Ha. apply after_bind, after_atom. cbn [of_call gets fst snd].
    destruct (negb _); [by apply after_done|]. by apply Hb.
  - intros _. by apply after_done.
Qed.

Lemma handle_drop_call_keeps j id : keeps (fun c => Inv c j) evolves (handle_drop_call env id).
Proof. apply with_active_call_keeps. intros r c HI -> Hr. by apply end_call. Qed.

Lemma handle_hangup_keeps j : keeps (fun c => Inv c j) evolves (handle_hangup env).
Proof.
  intros c HI. unfold handle_hangup. apply after_bind, after_try.
  eapply after_active_call; [done| |]; cbv beta iota.
  - intros r -> Hr _. by apply end_call.
  - intros _. by apply after_done.
Qed.

Lemma handle_received_busy_keeps j peer id received :
  keeps (fun c => Inv c j) evolves (handle_received_busy env peer id received).
Proof.
  apply with_active_call_keeps. intros r c HI -> Hr. apply after_bind, after_atom.
  cbn [of_call gets fst snd]. destruct (same_remote _ _ _); [|by apply after_done].
  apply after_bind. assert (keeps (fun c => Inv c ∅) evolves
    (send_hangup_via_rtp_data_and_signaling_to_all_except env r
      (Hangup.BusyOnAnotherDevice (rb_sender_device_id received)) (rb_sender_device_id received)))
    as Hs by solve_keeps.
  eapply after_weaken; [by apply Hs|]. cbv beta. intros c1 [[]|e] [H1 He]; [|done].
  eapply after_weaken; [apply end_call; [done|by destruct He as (-> & _)]|]. cbv beta.
  intros c2 _ [H2 He2]. split; [done|]. by etrans.
Qed.

#[local] Hint Resolve handle_drop_call_keeps handle_hangup_keeps handle_received_busy_keeps : respects.

(** A message of another call could not be sent: that call ends. *)
Lemma terminate_other_keeps r h reason c j :
  Inv c j -> (r < call_count c)%nat -> active_call_id c <> Some (k_call_id (calls c r)) ->
  after (terminate_call env r h reason) c (fun c' _ => Inv c' j /\ evolves c c').
Proof.
  intros HI Hr Ha.
  eapply after_weaken; [apply (every_step_after _ _ _ (terminate_call_adds r h reason))|].
  cbv beta. intros c' _ Hc'. split; [|by eapply adds_evolves].
  eapply Inv_adds; [done|done|]. intros r' h' [= <- <-]. by split.
Qed.

Lemma after_seq {A B} j (p : prog Manager Error A) (q : prog Manager Error B) c :
  keeps (fun c => Inv c j) evolves q ->
  after p c (fun c' _ => Inv c' j /\ evolves c c') ->
  after (p ;; q) c (fun c' _ => Inv c' j /\ evolves c c').
Proof.
  intros Hq Hp. apply after_bind. eapply after_weaken; [done|]. cbv beta.
  intros c1 [a|e] [H1 He]; [|done]. eapply after_weaken; [by apply Hq|]. cbv beta.
  intros c2 _ [H2 He2]. split; [done|]. by etrans.
Qed.

Lemma fail_other_keeps j id c :
  Inv c j -> active_call_id c <> Some id ->
  after (found ← atom (gets (fun s => call_by_call_id s !! id));
         match found with
         | Some r =>
           send_hangup ← atom (of_call r should_send_hangup_on_failure);
           terminate_call env r (if send_hangup : bool then Some Hangup.Normal else None)
             (Some CallEndReason.SignalingFailure)
         | None => done_ok
         end) c (fun c' _ => Inv c' j /\ evolves c c').
Proof.
  intros HI Ha. apply after_bind, after_atom. cbn [gets fst snd].
  destruct (call_by_call_id c !! id) as [r|] eqn:Hr; [|by apply after_done].
  apply (inv_map _ _ HI) in Hr as [Hlt Hid]. apply after_bind, after_atom. cbn [of_call gets fst snd].
  apply terminate_other_keeps; [done|done|by rewrite Hid].
Qed.

Lemma handle_message_send_failure_keeps j id :
  keeps (fun c => Inv c j) evolves (handle_message_send_failure env id).
Proof.
  intros c HI. unfold handle_message_send_failure. apply after_bind, after_try.
  assert (keeps (fun c => Inv c j) evolves (reset_messages_in_flight ;; send_next_message env None))
    as Hrest by solve_keeps.
  eapply after_active_call; [done| |]; cbv beta iota.
  - intros r -> Hr Ha. apply after_bind, after_bind, after_atom. cbn [of_call gets fst snd].
    apply after_done. cbv iota. destruct (Z.eqb_spec (k_call_id (calls c r)) id) as [|Hne].
    + apply after_seq; [done|]. revert c HI Hr Ha e. intros c HI _ _ _. revert c HI.
      change (keeps (fun c => Inv c ∅) evolves (
        connected ← atom (of_call r (fun k => CallState.connected_or_reconnecting (k_state k)));
        was_ice ← atom (gets (fun s =>
          bool_decide (last_sent_message_type (message_queue s) = Some TIce)));
        if connected && was_ice then done_ok
        else
          send_hangup ← atom (of_call r should_send_hangup_on_failure);
          _ ← try (terminate_active_call env send_hangup CallEndReason.SignalingFailure); done_ok)).
      solve_keeps.
    + apply after_seq; [done|]. apply fail_other_keeps; [done|congruence].
  - intros Ha. apply after_bind, after_done. cbv iota. apply after_seq; [done|].
    apply fail_other_keeps; [done|congruence].
Qed.

#[local] Hint Resolve handle_message_send_failure_keeps : respects.

(** The call that is terminated is not the active one. *)
Lemma Inv_drop id c j :
  Inv c j -> active_call_id c <> Some id ->
  Inv (c <| call_by_call_id := delete id (call_by_call_id c) |>) j.
Proof.
  intros HI Ha. split; cbn; try apply HI.
  - intros id' r [_ Hr]%lookup_delete_Some. by apply (inv_map _ _ HI).
  - intros id' Hid. destruct (inv_active _ _ HI id' Hid) as [? Hno]. split; [|done].
    rewrite lookup_delete_ne by congruence. done.
Qed.

Lemma terminate_and_drop_call_safe id c j :
  Inv c j -> active_call_id c <> Some id ->
  after (terminate_and_drop_call id) c (fun c' _ => Inv c' j).
Proof.
  intros HI Ha. unfold terminate_and_drop_call. apply after_bind, after_atom. rewrite ST_gets_bind.
  destruct (call_by_call_id c !! id) as [r|]; [|done]. cbn [mbind ST_bind modify fst snd mret].
  apply after_atom. eapply Inv_adds; [by apply Inv_drop| |].
  - by apply (adds_with_call no_terminate), terminate_same.
  - done.
Qed.

Lemma safe_bind {A B} j (p : prog Manager Error A) (f : A -> prog Manager Error B) :
  safe j p -> (forall a, safe j (f a)) -> safe j (p ≫= f).
Proof.
  intros Hp Hf c HI. apply after_bind. eapply after_weaken; [by apply Hp|]. cbv beta.
  intros c1 [a|e] H1; [|done]. by apply Hf.
Qed.

Lemma conclude_call_safe r h c j :
  Inv c j -> active_call_id c <> Some (k_call_id (calls c r)) ->
  after (conclude_call env r h) c (fun c' _ => Inv c' j).
Proof.
  intros HI Ha. unfold conclude_call. apply after_bind, after_atom. cbn [of_call gets fst snd].
  set (id := k_call_id (calls c r)) in *. apply after_bind, after_try, after_bind.
  assert (forall (c1 : Manager) (res : result unit Error), Inv c1 j ->
    after (match res with
           | Ok _ => done_ok
           | Err _ =>
             peer ← try (remote_peer r);
             match peer with
             | Ok peer => _ ← try (on_call_ended env peer id CallEndReason.InternalFailure); done_ok
             | Err _ => done_ok
             end
           end) c1 (fun c' _ => Inv c' j)) as Hrest.
  { intros c1 res. revert c1. change (safe j (match res with
      | Ok _ => done_ok
      | Err _ =>
        peer ← try (remote_peer r);
        match peer with
        | Ok peer => _ ← try (on_call_ended env peer id CallEndReason.InternalFailure); done_ok
        | Err _ => done_ok
        end
      end)). apply keeps_safe. solve_keeps. }
  assert (keeps (fun c => Inv c j) evolves (match h with
    | Some hangup =>
      should_send ← atom (of_call r k_should_send_hangup);
      if should_send : bool then send_hangup env r id (mkSendHangup hangup) else done_ok
    | None => done_ok
    end)) as Hh by solve_keeps.
  eapply after_weaken; [by apply Hh|]. cbv beta. intros c1 [[]|e] [H1 (_ & _ & Ha1 & _)].
  - eapply after_weaken; [apply (terminate_and_drop_call_safe id); [done|]|].
    + destruct Ha1 as [->| ->]; [done|congruence].
    + intros c2 res H2. by apply Hrest.
  - by apply (Hrest c1 (Err e)).
Qed.

Lemma handle_reset_safe c : Inv c ∅ -> after (handle_reset env) c (fun c' _ => Inv c' ∅).
Proof.
  intros HI. unfold handle_reset. apply after_bind, after_atom. cbn [gets fst snd].
  set (refs := calls_in_order env c).
  assert (forall r, r ∈ refs -> (r < call_count c)%nat) as Hrefs.
  { intros r Hr. assert (r ∈ (map_to_list (call_by_call_id c)).*2) as Hin.
    { unfold refs, calls_in_order in Hr. case_bool_decide as Hp; [|done]. by rewrite <- Hp. }
    apply list_elem_of_fmap in Hin as ([id r'] & -> & Hm%elem_of_map_to_list).
    by apply (inv_map _ _ HI) in Hm as []. }
  set (P := fun t : Task (Peer := Peer) =>
    match t with TerminateTask r _ => r ∈ refs | _ => True end).
  assert (forall l, (forall r, r ∈ l -> r ∈ refs) -> every_step (adds P)
    (each l (fun r => _ ← try (terminate_call env r (Some Hangup.Normal) None); done_ok))) as Heach.
  { induction l as [|r l IH]; intros Hl; cbn [each]; [done|]. 
    assert (P (TerminateTask r (Some Hangup.Normal))) by (apply Hl; by left).
    apply every_step_bind; [solve_adds|]. intros _. apply IH. intros r' Hr'. apply Hl. by right. }
  apply after_bind. eapply after_weaken; [apply after_and;
    [exact (every_step_after _ _ c (Heach refs (fun r H => H)))|apply after_each_try]|].
  cbv beta. intros c1 res [Hadds ->]. apply after_bind, after_atom. cbn [modify fst snd].
  apply after_bind, after_atom_unless. intros _. cbn [modify fst snd]. apply after_atom.
  eapply Inv_fewer; [eapply (Inv_cleared P c c1); [done|done|]|cbn; done..].
  intros r h Hr. by apply Hrefs.
Qed.

(** ** Starting calls *)

(** Making the call, up to the failure of its timer. *)
Lemma insert_active_call_safe r id c :
  Inv c ∅ -> fresh id c -> (r < call_count c)%nat -> k_call_id (calls c r) = id ->
  Inv (insert_active_call env r id c).1 ∅.
Proof.
  intros HI Hf Hr Hid. unfold insert_active_call, of_result, mbind, ST_bind. cbn.
  destruct (pe_start_timer env); by apply Inv_activate.
Qed.

Lemma with_call_safe {A} r (m : ST K Error A) c j :
  respects k_same m -> Inv c j -> Inv (with_call r m c).1 j.
Proof. intros Hm HI. eapply Inv_adds; [done|by apply (adds_with_call no_terminate)|done]. Qed.

(** Invariants of an atom's parts. *)
Lemma Inv_bind {A B} (m : ST Manager Error A) (f : A -> ST Manager Error B) c j :
  Inv (m c).1 j -> (forall c' a, Inv c' j -> Inv (f a c').1 j) -> Inv ((m ≫= f) c).1 j.
Proof.
  intros Hm Hf. unfold mbind, ST_bind. destruct (m c) as [c' [a|e]]; [|done]. by apply Hf.
Qed.

Lemma handle_call_safe peer id mt local c j :
  Inv c j -> fresh id c -> after (handle_call env peer id mt local) c (fun c' _ => Inv c' j).
Proof.
  intros HI Hf. apply after_atom_unless. intros _. rewrite ST_gets_bind.
  destruct (busy c) eqn:Hb; [done|]. rewrite ST_gets_bind.
  destruct (active_call_id c) eqn:Ha; [done|].
  assert (j = ∅) as -> by (by apply (Inv_idle c)).
  pose proof (new_call_run env peer id Outgoing mt local c) as Hnew.
  destruct (pe_call_new env); [rewrite (ST_bind_run _ _ _ _ _ Hnew)|by rewrite (ST_bind_err _ _ _ _ _ Hnew)].
  apply Inv_bind; [|intros; by apply with_call_safe; [apply api_same|]].
  apply insert_active_call_safe; cbn.
  - by apply Inv_new.
  - by eapply fresh_new.
  - lia.
  - rewrite fn_lookup_insert. apply new_call_id.
Qed.

Lemma start_incoming_call_safe r id peer received c :
  Inv c ∅ -> fresh id c -> (r < call_count c)%nat -> k_call_id (calls c r) = id ->
  Inv (start_incoming_call env r id peer received c).1 ∅.
Proof.
  intros HI Hf Hr Hid. unfold start_incoming_call. rewrite ST_gets_bind.
  destruct (active_call_id c); [done|]. apply Inv_bind; [by apply insert_active_call_safe|].
  intros c1 _ H1. apply Inv_bind; [by apply with_call_safe; [apply api_same|]|].
  intros c2 _ H2. apply Inv_bind; [by apply with_call_safe; [apply api_same|]|].
  intros c3 _ H3. assert (respects (adds no_terminate) (deliver_pending env r id peer)) as Hd by solve_adds.
  eapply Inv_adds; [exact H3|apply Hd|done].
Qed.

(** The active call is given up for the new one. *)
Lemma replace_active_safe {A} r0 id h reason (k : prog Manager Error A) c :
  Inv c ∅ -> fresh id c -> (r0 < call_count c)%nat -> k_call_id (calls c r0) <> id ->
  (forall c', Inv c' ∅ -> fresh id c' -> evolves c c' -> after k c' (fun c'' _ => Inv c'' ∅)) ->
  after ((clear_active_call ;; atom (modify (fun s => s <| busy := false |>)) ;;
          terminate_call env r0 h reason) ;; k) c (fun c' _ => Inv c' ∅).
Proof.
  intros HI Hf Hr Hne Hk. do 2 apply after_bind. apply after_atom. cbn [modify fst snd].
  apply after_bind, after_atom. cbn [modify fst snd].
  assert (adds no_terminate c c) as Hrefl by done.
  pose proof (Inv_cleared no_terminate c c HI Hrefl (fun r h H => match H with end)) as H1.
  set (c1 := c <| active_call_id := None |> <| busy := false |>) in *.
  assert (fresh id c1) as Hf1 by done.
  eapply after_weaken; [apply (every_step_after _ _ _ (terminate_call_adds r0 h reason))|].
  cbv beta. intros c2 res Hadds.
  assert (Inv c2 ∅) as H2 by (eapply Inv_adds; [done|done|]; intros ? ? [= <- <-]; by split).
  destruct res as [[]|e]; [|done]. apply Hk; [done|..].
  - eapply fresh_adds; [done|done|]. by intros ? ? [= <- <-].
  - apply adds_evolves in Hadds as (Hn & Hm & Ha & Hs). split_and!; [done|done| |done].
    right. by destruct Ha.
Qed.

(** What a collision says of the state it was found in. *)
Definition collision_sound c (collision : ReceivedOfferCollision) : Prop :=
  match collision with
  | NoCollision => active_call_id c = None /\ busy c = false
  | Busy => True
  | _ => exists a (r0 : CallRef), active_call_id c = Some a /\ call_by_call_id c !! a = Some r0
  end.

Lemma check_for_collision_sound c a r0 peer id received :
  active_call_id c = Some a -> call_by_call_id c !! a = Some r0 ->
  collision_sound c (check_for_collision env (calls c r0) peer id received).
Proof.
  intros Ha Hr. unfold check_for_collision, glare_tiebreaker.
  repeat case_match; unfold collision_sound; eauto.
Qed.

Lemma handle_valid_offer_safe peer id received c j :
  Inv c j -> fresh id c ->
  after (handle_valid_offer env peer id received) c (fun c' _ => Inv c' j).
Proof.
  intros HI Hf. unfold handle_valid_offer. apply after_bind, after_atom. cbn [gets fst snd].
  apply after_bind, after_atom. rewrite new_call_run. destruct (pe_call_new env) as [[]|]; [|done].
  cbn [fst snd].
  pose proof (Inv_new (k_new peer id Incoming (offer_call_media_type (ro_offer received))
    (ro_receiver_device_id received)) c j HI) as H1.
  pose proof (fresh_new id (k_new peer id Incoming (offer_call_media_type (ro_offer received))
    (ro_receiver_device_id received)) c j HI Hf) as Hf1.
  set (r := call_count c) in *. set (c1 := c <| calls := _ |> <| call_count := _ |>) in *.
  assert (k_call_id (calls c1 r) = id) as Hid.
  { cbn. rewrite fn_lookup_insert. apply new_call_id. }
  assert (r < call_count c1)%nat as Hr by (cbn; lia).
  apply after_bind, after_atom. cbn [gets fst snd]. apply after_bind.
  eapply after_weaken with (Q := fun c' res =>
    c' = c1 /\ match res with Ok col => collision_sound c1 col | Err _ => True end).
  { destruct (active_call_id c) as [a|] eqn:Ha; cbn [mbind option_bind].
    - destruct (call_by_call_id c !! a) as [r0|] eqn:Hr0; [|by apply after_done].
      apply after_atom. split; [done|]. by eapply check_for_collision_sound.
    - change (busy c1) with (busy c). destruct (busy c) eqn:Hb; by apply after_done. }
  intros c' [collision|e] [-> Hcol]; [|done].
  assert (forall event, keeps (fun c => Inv c j) evolves
    (notify_application env peer id event ;; send_busy env r)) as Hreject by solve_keeps.
  assert (forall event, keeps (fun c => Inv c j) evolves (notify_application env peer id event))
    as Hignore by solve_keeps.
  assert (forall c', Inv c' ∅ -> fresh id c' -> evolves c1 c' ->
    after (atom (start_incoming_call env r id peer received)) c' (fun c'' _ => Inv c'' ∅)) as Hstart.
  { intros c' Hc' Hfc' (Hn & _ & _ & Hs). apply after_atom. apply start_incoming_call_safe; [done..| |].
    - by rewrite Hn.
    - by destruct (Hs r) as (-> & _). }
  assert (forall a (r0 : CallRef), active_call_id c = Some a -> call_by_call_id c !! a = Some r0 ->
    j = ∅ /\ (r0 < call_count c1)%nat /\ k_call_id (calls c1 r0) <> id /\
    active_call_id c ≫= (fun a => call_by_call_id c !! a) = Some r0) as Hact.
  { intros a r0 Ha Hr0. destruct (inv_map _ _ H1 a r0 Hr0) as [? Hk0]. split_and!; [|done| |].
    - apply (inv_exclusive _ _ HI). by eexists.
    - rewrite Hk0. intros ->. destruct Hf as [Hf _]. by rewrite Hf in Hr0.
    - by rewrite Ha. }
  destruct collision; cbn [collision_actions collision_sound] in *;
    try destruct Hcol as (a & r0 & Ha & Hr0); cbv iota.
  - destruct Hcol as [Ha Hb]. assert (j = ∅) as -> by (by apply (Inv_idle c1)).
    apply after_bind, after_done. by apply Hstart.
  - apply after_bind, after_done. eapply keeps_safe; [by apply Hreject|done].
  - apply after_bind, after_done. eapply keeps_safe; [by apply Hignore|done].
  - destruct (Hact a r0 Ha Hr0) as (-> & ? & ? & ->).
    by apply (replace_active_safe r0 id).
  - destruct (Hact a r0 Ha Hr0) as (-> & ? & ? & ->).
    apply (replace_active_safe r0 id); [done..|]. intros c' Hc' _ _. eapply keeps_safe; [by apply Hreject|done].
  - destruct (Hact a r0 Ha Hr0) as (-> & ? & ? & ->).
    by apply (replace_active_safe r0 id).
Qed.

Lemma handle_received_offer_safe peer id received c j :
  Inv c j -> fresh id c ->
  after (handle_received_offer env peer id received) c (fun c' _ => Inv c' j).
Proof.
  intros HI Hf. unfold handle_received_offer. destruct (validate_offer received) as [[]|[]].
  - unfold with_busy_guard. apply after_bind, after_atom_unless. intros _. cbn [modify fst snd].
    apply after_then. eapply after_weaken; [apply (handle_valid_offer_safe _ _ _ _ j); [|done]|].
    + by apply (Inv_fewer c).
    + cbv beta. intros c1 res H1. apply after_bind, after_atom. apply after_done. by apply (Inv_fewer c1).
  - revert c HI Hf. intros c HI _. revert c HI. apply keeps_safe. solve_keeps.
Qed.

Lemma or_create_error_safe peer id p c j :
  after p c (fun c' _ => Inv c' j) -> after (or_create_error env peer id p) c (fun c' _ => Inv c' j).
Proof.
  intros Hp. apply after_bind, after_try. eapply after_weaken; [done|]. cbv beta.
  intros c1 [|e] H1; [by apply after_done|].
  eapply keeps_safe; [|done]. solve_keeps.
Qed.

Lemma run_task_safe t c j :
  Inv c j -> task_allowed t c j ->
  match t with
  | TerminateTask r _ => active_call_id c <> Some (k_call_id (calls c r))
  | _ => True
  end ->
  after (run_task env t) c (fun c' _ => Inv c' j).
Proof.
  intros HI Hallowed Ht. destruct t; cbn [run_task task_allowed] in *;
    try (eapply keeps_safe; [|done]; solve [solve_keeps]).
  - by apply or_create_error_safe, handle_call_safe.
  - by apply or_create_error_safe, handle_received_offer_safe.
  - subst. apply after_bind, after_try. eapply after_weaken; [by apply handle_reset_safe|].
    intros. by apply after_done.
  - by apply conclude_call_safe.
Qed.

End Env.

Lemma seq_step_Inv c j c' j' : Inv c j -> seq_step (c, j) (c', j') -> Inv c' j'.
Proof.
  intros HI Hst. inversion Hst as [env t ts ? ? ? res Hw Ha Hrun|env a ? ? ? res Hrun
    |env r conn m ? ? ? res Hr Hrun|i t ? ? Hi|r k' ? ? Hr Hk|client ? ? Hc Hb|client ? ? Hc]; subst.
  - assert (Inv (c <| worker := ts |>) j') as H1.
    { apply (Inv_fewer c); try done. cbn. rewrite Hw. intros. by right. }
    eapply (run_task_safe env t); [done|done| |done]. destruct t; try done. cbn.
    intros Hid. destruct (inv_active _ _ HI _ Hid) as [_ Hno]. eapply Hno; [|done].
    rewrite Hw. by left.
  - by eapply keeps_safe; [apply run_app_keeps|..].
  - by eapply keeps_safe; [apply run_manager_call_keeps|..].
  - apply (Inv_fewer c); try done; cbn.
    + intros r h [|Ht%list_elem_of_singleton]%elem_of_app; [done|]. subst.
      apply list_elem_of_lookup_2 in Hi. by apply (inv_delayed _ _ HI) in Hi.
    + intros r h Hd. rewrite delete_take_drop in Hd.
      rewrite <- (take_drop (S i) (delayed c)). rewrite elem_of_app in Hd. rewrite elem_of_app.
      destruct Hd as [Hd|Hd]; [left|by right]. rewrite (take_S_r _ _ _ Hi). by apply elem_of_app; left.
  - eapply (Inv_adds no_terminate c); [done| |done]. split_and!; try done.
    + intros r'. cbn. destruct (decide (r = r')) as [<-|];
        [by rewrite fn_lookup_insert|by rewrite fn_lookup_insert_ne].
    + exists []. by rewrite app_nil_r.
  - pose proof (Inv_idle _ _ HI Hb) as ->. destruct HI as [Hmap Ht Hdl Hact Hbusy Hj He].
    assert (active_call_id c = None) as Ha.
    { destruct (active_call_id c) eqn:Ha; [|done]. rewrite (proj2 Hbusy) in Hb by (left; by eexists).
      done. }
    split; cbn; rewrite ?Ha; try done.
    + split; [right; set_solver|done].
    + set_solver.
  - destruct HI as [Hmap Ht Hdl Hact Hbusy Hj He].
    assert (active_call_id c = None) as Ha.
    { destruct (active_call_id c) eqn:Ha; [|done]. rewrite He in Hc by (by eexists). set_solver. }
    assert (j ∖ {[client]} = ∅) as -> by set_solver.
    split; cbn; rewrite ?Ha; try done. split; [done|]. intros [[? ?]|]; done.
Qed.

Lemma seq_reachable_Inv c j : seq_reachable (c, j) -> Inv c j.
Proof.
  remember (c, j) as x eqn:Hx. intros Hr. revert c j Hx.
  induction Hr as [memory|[c0 j0] y _ IH Hst]; intros c j Hx.
  - injection Hx as <- <-. split; cbn; try done; set_solver.
  - subst y. eapply seq_step_Inv; [by apply IH|done].
Qed.

(** C6. As long as its methods do not overlap, every call has an id of its own and
    the manager is not reset during a group call, the device is in one call at
    most: either the active one-to-one call or one joined group call, never both,
    and [busy] says whether there is one.  The active call is a call of the map,
    known under its id, and is not waiting to be terminated. *)
Theorem one_call_at_a_time c j :
  seq_reachable (c, j) ->
  (busy c = true <-> is_Some (active_call_id c) \/ exists client, client ∈ j) /\
  (is_Some (active_call_id c) -> j = ∅) /\
  (forall x y, x ∈ j -> y ∈ j -> x = y) /\
  (forall id, active_call_id c = Some id ->
    exists r, call_by_call_id c !! id = Some r /\ (r < call_count c)%nat /\
      k_call_id (calls c r) = id /\ forall h, TerminateTask r h ∉ worker c ++ delayed c).
Proof.
  intros HI%seq_reachable_Inv. split_and!.
  - rewrite (inv_busy _ _ HI). split; (intros [|Hj]; [by left|right]).
    + by apply set_choose_L.
    + set_solver.
  - apply (inv_exclusive _ _ HI).
  - apply (inv_joined _ _ HI).
  - intros id Hid. destruct (inv_active _ _ HI id Hid) as [[r Hr] Hno].
    destruct (inv_map _ _ HI id r Hr) as [Hlt Hk]. exists r. split_and!; [done..|].
    intros h [Hw|Hd]%elem_of_app; [by eapply Hno|by apply (inv_delayed _ _ HI) in Hd].
Qed.

End OneCall.
End CallManagerOneCall.
