(* ===== verification/CallManagerOffers.v ===== *)
(** * Incoming offers

    What the call manager makes of an offer: messages of the call that came before
    it are delivered to the new call; when two devices call each other at the same
    time, both go on with the same call; an offer that repeats the active call's id
    leaves the manager without a call and busy. *)

From S2P Require Import Prelude Threads States Signaling ConnectionTypes Connection ConnectionStart.
From S2P Require Import Call CallFsm CallSystem CallManager CallManagerSystem CallManagerTasks.
Local Open Scope Z_scope.
Local Open Scope ringrtc_scope.

Module CallManagerOffers.
Import CallManager CallManagerSystem CallManagerTasks.

Section Offers.
Context {Peer K : Type} `{!CallApi Peer K} `{!Codec CallMessage} `{!CallLaws Peer K}.
Notation Manager := (CallManager (Peer := Peer) (K := K)).
Implicit Types (c : Manager).

(** ** Requests to one call *)

Definition requests (l : list CallSystem.Api) : ST K Error unit := for_each l k_api.

Lemma for_each_app {S E A} (l1 l2 : list A) (f : A -> ST S E unit) (s s1 : S) :
  for_each l1 f s = (s1, Ok tt) -> for_each (l1 ++ l2) f s = for_each l2 f s1.
Proof.
  revert s. induction l1 as [|x l1 IH]; intros s; cbn [for_each app].
  - by intros [= ->].
  - unfold mbind, ST_bind. destruct (f x s) as [s' [[]|e]]; [|done]. apply IH.
Qed.

(** The requests reach the call one by one. *)
Lemma requests_run r l c k :
  requests l (calls c r) = (k, Ok tt) ->
  exists c', for_each l (fun a => with_call r (k_api a)) c = (c', Ok tt) /\
    calls c' r = k /\ c' = c <| calls := calls c' |> /\
    forall r', r' <> r -> calls c' r' = calls c r'.
Proof.
  revert c. induction l as [|a l IH]; intros c; unfold requests; cbn [for_each].
  - intros [= <-]. exists c. split_and!; try done. by destruct c.
  - unfold mbind, ST_bind. rewrite with_call_run.
    destruct (k_api a (calls c r)) as [k1 [[]|e]]; [|done]. cbn [fst snd]. intros Hk.
    set (c1 := c <| calls := <[r := k1]> (calls c) |>).
    destruct (IH c1) as (c' & Hrun & Hk' & Hc' & Hother).
    { cbn. by rewrite fn_lookup_insert. }
    exists c'. split_and!; [done|done|by rewrite Hc'|]. intros r' Hr'. rewrite Hother by done.
    cbn. by rewrite fn_lookup_insert_ne.
Qed.

(** ** Messages before the offer *)

Inductive EarlyMessage : Type :=
| EarlyIce (received : ReceivedIce)
| EarlyHangup (received : ReceivedHangup).

Definition early_task (peer : Peer) (id : CallId) (m : EarlyMessage) : Task (Peer := Peer) :=
  match m with
  | EarlyIce received => ReceivedIceTask peer id received
  | EarlyHangup received => ReceivedHangupTask peer id received
  end.

Definition last_hangup (l : list EarlyMessage) : option ReceivedHangup :=
  last (omap (fun m => match m with EarlyHangup h => Some h | _ => None end) l).
Definition ices (l : list EarlyMessage) : list ReceivedIce :=
  omap (fun m => match m with EarlyIce i => Some i | _ => None end) l.
Definition lastn {A} (n : nat) (l : list A) : list A := drop (length l - n) l.

(** What the new call has to get: the last hangup, if there was one, or else the
    latest candidates in the order they came. *)
Definition owed (l : list EarlyMessage) : list CallSystem.Api :=
  match last_hangup l with
  | Some h => [CallSystem.ApiReceivedHangup h]
  | None => CallSystem.ApiReceivedIce <$> lastn (Z.to_nat MAX_PENDING_ICE) (ices l)
  end.

Definition pending_after (peer : Peer) (id : CallId) (l : list EarlyMessage) : PendingCallMessages :=
  match last_hangup l with
  | Some h => PendingHangup peer id h
  | None =>
    match ices l with
    | [] => NoPending
    | _ => PendingIce peer id (lastn (Z.to_nat MAX_PENDING_ICE) (ices l))
    end
  end.

Definition save_early (peer : Peer) (id : CallId) (p : PendingCallMessages) (m : EarlyMessage)
  : PendingCallMessages :=
  match m with
  | EarlyIce received => save_ice_candidates p peer id received
  | EarlyHangup received => save_hangup p peer id received
  end.

Lemma lastn_snoc {A} n (l : list A) x :
  (0 < n)%nat ->
  lastn n (l ++ [x]) =
    (if zlen (lastn n l) >=? Z.of_nat n then tail (lastn n l) else lastn n l) ++ [x].
Proof.
  intros Hn. unfold lastn, zlen. rewrite length_app, length_drop. cbn [length].
  destruct (decide (length l < n)%nat) as [Hl|Hl].
  - replace (length l + 1 - n)%nat with 0%nat by lia. replace (length l - n)%nat with 0%nat by lia.
    rewrite Z.geb_leb. destruct (Z.leb_spec (Z.of_nat n) (Z.of_nat (length l - 0))); [lia|done].
  - rewrite Z.geb_leb. destruct (Z.leb_spec (Z.of_nat n) (Z.of_nat (length l - (length l - n)))); [|lia].
    replace (length l + 1 - n)%nat with ((length l - n) + 1)%nat by lia.
    rewrite <- drop_drop, drop_app_le by lia.
    destruct (drop (length l - n) l) eqn:Hd; [|done].
    apply (f_equal length) in Hd. rewrite length_drop in Hd. cbn in Hd. lia.
Qed.

Lemma last_hangup_snoc l m :
  last_hangup (l ++ [m]) = match m with EarlyIce _ => last_hangup l | EarlyHangup h => Some h end.
Proof.
  unfold last_hangup. rewrite omap_app. destruct m; cbn; [by rewrite app_nil_r|apply last_snoc].
Qed.

Lemma ices_snoc l m :
  ices (l ++ [m]) = match m with EarlyIce i => ices l ++ [i] | EarlyHangup _ => ices l end.
Proof. unfold ices. rewrite omap_app. by destruct m; cbn; rewrite ?app_nil_r. Qed.

Lemma pending_after_snoc peer id l m :
  pending_after peer id (l ++ [m]) = save_early peer id (pending_after peer id l) m.
Proof.
  unfold pending_after. rewrite last_hangup_snoc, ices_snoc. destruct m as [i|h]; [|done].
  destruct (last_hangup l); [cbn; by rewrite Z.eqb_refl|]. rewrite lastn_snoc by (unfold MAX_PENDING_ICE; lia).
  change (Z.of_nat (Z.to_nat MAX_PENDING_ICE)) with MAX_PENDING_ICE.
  destruct (ices l) as [|x l']; [done|]. cbn [app save_early save_ice_candidates].
  by rewrite Z.eqb_refl.
Qed.

(** ** A manager without a call *)

Definition idle c : Prop :=
  busy_guard c = false /\ busy c = false /\ active_call_id c = None.

Section Env.
Context (env : PlatformEnv (Peer := Peer)).

Lemma early_task_ends peer id m c :
  idle c ->
  ends (run_task env (early_task peer id m)) c (fun c' res =>
    c' = c <| pending_call_messages := save_early peer id (pending_call_messages c) m |> /\ res = Ok tt).
Proof.
  intros (Hg & Hb & Ha).
  destruct m; cbn [early_task run_task]; unfold or_internal_error, handle_received_ice,
    handle_received_hangup, for_call_or_save, save;
    (apply ends_bind, ends_try, ends_bind, ends_try, ends_atom; unfold active_call_m;
     rewrite ST_gets_bind, Ha; cbn [fail fst snd];
     apply ends_bind, ends_atom_unless; [done|]; cbn [gets fst snd]; rewrite Hb;
     apply ends_atom; cbn [modify fst snd]; by apply ends_done).
Qed.

Lemma early_tasks_end peer id l c :
  idle c ->
  ends (each (early_task peer id <$> l) (run_task env)) c (fun c' res =>
    c' = c <| pending_call_messages := foldl (save_early peer id) (pending_call_messages c) l |> /\
    res = Ok tt).
Proof.
  revert c. induction l as [|m l IH]; intros c Hc; cbn [fmap list_fmap each foldl].
  - apply ends_done. split; [|done]. by destruct c.
  - apply ends_bind. eapply ends_weaken; [by apply early_task_ends|]. intros c' res [-> ->].
    eapply ends_weaken; [by apply IH|]. by intros c' res [-> ->].
Qed.

Lemma saved_early peer id l : foldl (save_early peer id) NoPending l = pending_after peer id l.
Proof.
  induction l as [|m l IH] using rev_ind; [done|]. by rewrite foldl_app, pending_after_snoc, IH.
Qed.

(** What [deliver_pending] tells the call. *)
Definition pending_requests (p : PendingCallMessages) (id : CallId) (peer : Peer)
  : list CallSystem.Api :=
  match p with
  | NoPending => []
  | PendingIce pending_peer pending_id received =>
    if (pending_id =? id) && same_remote env pending_peer peer
    then CallSystem.ApiReceivedIce <$> received else []
  | PendingHangup pending_peer pending_id received =>
    if (pending_id =? id) && same_remote env pending_peer peer
    then [CallSystem.ApiReceivedHangup received] else []
  end.

Lemma for_each_nothing {S E A} (l : list A) (s : S) :
  for_each l (fun _ => ret_ok) s = (s, Ok tt : result unit E).
Proof. induction l as [|x l IH]; [done|]. cbn [for_each]. by unfold mbind, ST_bind. Qed.

Lemma for_each_fmap {S E A B} (g : A -> B) (f : B -> ST S E unit) (l : list A) (s : S) :
  for_each (g <$> l) f s = for_each l (fun x => f (g x)) s.
Proof.
  revert s. induction l as [|x l IH]; intros s; [done|]. cbn [for_each fmap list_fmap].
  unfold mbind, ST_bind. destruct (f (g x) s) as [s' [[]|e]]; [apply IH|done].
Qed.

Lemma deliver_pending_run r id peer c :
  deliver_pending env r id peer c =
    for_each (pending_requests (pending_call_messages c) id peer)
      (fun a => with_call r (k_api a)) (c <| pending_call_messages := NoPending |>).
Proof.
  unfold deliver_pending, pending_requests. rewrite ST_gets_bind.
  rewrite (ST_bind_run (modify _) _ c (c <| pending_call_messages := NoPending |>) tt) by done.
  destruct (pending_call_messages c) as [|pp pid l|pp pid h]; [done|..];
    destruct (pid =? id); cbn [andb]; try done; destruct (same_remote env pp peer); try done.
  - by rewrite for_each_fmap.
  - apply for_each_nothing.
  - cbn [for_each]. unfold mbind, ST_bind. destruct (with_call _ _ _) as [c' [[]|e]]; done.
Qed.

(** The new call gets the offer, is started, and gets the messages that came
    before. *)
Lemma start_incoming_call_run r id peer received c k :
  active_call_id c = None -> pe_start_timer env = Ok tt ->
  requests ([CallSystem.ApiReceivedOffer received; CallSystem.ApiStartCall] ++
    pending_requests (pending_call_messages c) id peer) (calls c r) = (k, Ok tt) ->
  exists c', start_incoming_call env r id peer received c = (c', Ok tt) /\
    active_call_id c' = Some id /\ busy c' = true /\
    call_by_call_id c' = <[id := r]> (call_by_call_id c) /\
    calls c' r = k /\ (forall r', r' <> r -> calls c' r' = calls c r') /\
    pending_call_messages c' = NoPending /\ worker c' = worker c /\ outputs c' = outputs c.
Proof.
  intros Ha Ht Hk. unfold start_incoming_call. rewrite ST_gets_bind, Ha.
  set (c1 := c <| message_queue := (message_queue c) <| messages_in_flight := false |> |>
    <| call_by_call_id := <[id := r]> (call_by_call_id c) |>
    <| busy := true |> <| active_call_id := Some id |>).
  rewrite (ST_bind_run _ _ c c1 tt) by
    (unfold insert_active_call, of_result, mbind, ST_bind; cbn; by rewrite Ht).
  unfold requests in Hk. cbn [app for_each] in Hk. unfold mbind, ST_bind in Hk.
  destruct (k_api (CallSystem.ApiReceivedOffer received) (calls c r)) as [k1 [[]|e]] eqn:H1; [|done].
  destruct (k_api CallSystem.ApiStartCall k1) as [k2 [[]|e]] eqn:H2; [|done].
  set (c2 := c1 <| calls := <[r := k1]> (calls c1) |>).
  rewrite (ST_bind_run _ _ c1 c2 tt) by (rewrite with_call_run; cbn; by rewrite H1).
  set (c3 := c2 <| calls := <[r := k2]> (calls c2) |>).
  rewrite (ST_bind_run _ _ c2 c3 tt)
    by (rewrite with_call_run; cbn; by rewrite fn_lookup_insert, H2).
  rewrite deliver_pending_run.
  destruct (requests_run r (pending_requests (pending_call_messages c) id peer)
    (c3 <| pending_call_messages := NoPending |>) k) as (c' & Hrun & Hk' & Hc' & Hother).
  { cbn. by rewrite fn_lookup_insert. }
  exists c'. split; [done|]. split_and!; try (rewrite Hc'; done).
  intros r' Hr'. rewrite Hother by done. cbn. by rewrite !fn_lookup_insert_ne by done.
Qed.

Lemma handle_received_offer_alone peer id received c :
  validate_offer received = Ok tt -> busy_guard c = false -> forall Q,
  ends (handle_valid_offer env peer id received) (c <| busy_guard := true |>)
    (fun c' res => Q (c' <| busy_guard := false |>) res) ->
  ends (handle_received_offer env peer id received) c Q.
Proof.
  intros Hv Hg Q Hq. unfold handle_received_offer. rewrite Hv. unfold with_busy_guard.
  apply ends_bind, ends_atom_unless; [done|]. cbn [modify fst snd]. apply ends_then.
  eapply ends_weaken; [exact Hq|]. intros c' res HQ. apply ends_bind, ends_atom.
  cbn [modify fst snd]. by apply ends_done.
Qed.

(** A new call has been started by the offer. *)
Definition started (peer : Peer) (id : CallId) (k : K) c c' : Prop :=
  active_call_id c' = Some id /\ busy c' = true /\
  call_by_call_id c' = <[id := call_count c]> (call_by_call_id c) /\
  calls c' (call_count c) = k /\ k_call_id k = id /\ k_direction k = Incoming /\
  k_remote_peer k = peer /\ pending_call_messages c' = NoPending /\ busy_guard c' = false.

Definition new_incoming (peer : Peer) (id : CallId) (received : ReceivedOffer) : K :=
  k_new peer id Incoming (offer_call_media_type (ro_offer received)) (ro_receiver_device_id received).

Lemma requests_same l : respects k_same (requests l).
Proof. apply respects_for_each; [apply _|]. intros a. apply api_same. Qed.

(** Starting the call that was just made. *)
Lemma start_new_ends peer id received c0 c k :
  active_call_id c = None -> pe_start_timer env = Ok tt ->
  calls c (call_count c0) = new_incoming peer id received ->
  call_by_call_id c = call_by_call_id c0 ->
  requests ([CallSystem.ApiReceivedOffer received; CallSystem.ApiStartCall] ++
    pending_requests (pending_call_messages c) id peer) (new_incoming peer id received) = (k, Ok tt) ->
  ends (atom (start_incoming_call env (call_count c0) id peer received)) c (fun c' res =>
    res = Ok tt /\ started peer id k c0 (c' <| busy_guard := false |>) /\
    (forall r', r' <> call_count c0 -> calls c' r' = calls c r') /\
    worker c' = worker c /\ outputs c' = outputs c).
Proof.
  intros Ha Ht Hnew Hm Hk. rewrite <- Hnew in Hk.
  destruct (start_incoming_call_run _ id peer received c k Ha Ht Hk)
    as (c' & Hrun & Ha' & Hb' & Hm' & Hk' & Ho' & Hp' & Hw' & Hout).
  apply ends_atom. rewrite Hrun. cbn [fst snd]. split; [done|]. split; [|done].
  pose proof (requests_same ([CallSystem.ApiReceivedOffer received; CallSystem.ApiStartCall] ++
    pending_requests (pending_call_messages c) id peer) (calls c (call_count c0))) as Hs.
  rewrite Hk in Hs. destruct Hs as (Hid & Hdir & Hp). cbn [fst] in *.
  rewrite Hnew in Hid, Hdir, Hp. unfold new_incoming in *.
  rewrite new_call_id in Hid. rewrite new_direction in Hdir. rewrite new_remote_peer in Hp.
  unfold started. cbn. rewrite <- Hm. by split_and!.
Qed.

Lemma new_offer_ends peer id received c k :
  idle c -> validate_offer received = Ok tt ->
  pe_call_new env = Ok tt -> pe_start_timer env = Ok tt ->
  requests ([CallSystem.ApiReceivedOffer received; CallSystem.ApiStartCall] ++
    pending_requests (pending_call_messages c) id peer) (new_incoming peer id received) = (k, Ok tt) ->
  ends (run_task env (ReceivedOfferTask peer id received)) c (fun c' res =>
    res = Ok tt /\ started peer id k c c').
Proof.
  intros (Hg & Hb & Ha) Hv Hn Ht Hk. cbn [run_task]. unfold or_create_error.
  apply ends_bind, ends_try, handle_received_offer_alone; [done|done|].
  unfold handle_valid_offer. apply ends_bind, ends_atom. cbn [gets fst snd].
  apply ends_bind, ends_atom. rewrite new_call_run, Hn. cbn [fst snd].
  apply ends_bind, ends_atom. cbn [gets fst snd]. cbn. rewrite Ha, Hb.
  apply ends_bind, ends_done. cbn [collision_actions]. apply ends_bind, ends_done.
  eapply ends_weaken; [apply (start_new_ends peer id received c); [done|done| |done|done]|].
  - cbn. by rewrite fn_lookup_insert.
  - cbv beta. intros c' res (-> & Hst & _). by apply ends_done.
Qed.

(** C17. Candidates and hangups that reach a manager without a call before the
    offer they belong to are not lost: the call that the offer starts gets the
    offer, is started, and is then given the last of the hangups, or, when there was
    none, the latest 30 candidate messages in the order they came. *)
Theorem early_messages_are_delivered peer id l received c k :
  idle c -> pending_call_messages c = NoPending ->
  validate_offer received = Ok tt -> pe_call_new env = Ok tt -> pe_start_timer env = Ok tt ->
  same_remote env peer peer = true ->
  requests ([CallSystem.ApiReceivedOffer received; CallSystem.ApiStartCall] ++ owed l)
    (new_incoming peer id received) = (k, Ok tt) ->
  ends (each ((early_task peer id <$> l) ++ [ReceivedOfferTask peer id received]) (run_task env)) c
    (fun c' res => res = Ok tt /\ started peer id k c c').
Proof.
  intros Hc Hp Hv Hn Ht Hs Hk. apply ends_each_app.
  eapply ends_weaken; [by apply early_tasks_end|]. intros c1 res [-> ->].
  rewrite Hp, saved_early. cbn [each]. apply ends_bind.
  eapply ends_weaken; [apply (new_offer_ends peer id received _ k); try done|].
  - cbn [pending_call_messages]. cbn. rewrite <- Hk. do 2 f_equal. 
    unfold pending_after, owed, pending_requests. destruct (last_hangup l).
    + by rewrite Z.eqb_refl, Hs.
    + destruct (ices l) as [|x l'] eqn:Hi; [done|]. by rewrite Z.eqb_refl, Hs.
  - cbv beta. intros c' res [-> Hst]. by apply ends_done.
Qed.

(** ** Two devices call each other

    The device has called [peer], nobody has answered yet, and the offer [received]
    of the peer's own call [in_id] comes in.  Nothing the manager asks for fails. *)
Record glaring c (id : CallId) (r0 : CallRef) (peer : Peer) (in_id : CallId)
    (received : ReceivedOffer) : Prop := {
  gl_guard : busy_guard c = false;
  gl_worker : worker_stopped c = false;
  gl_pending : pending_call_messages c = NoPending;
  gl_active : active_call_id c = Some id;
  gl_call : call_by_call_id c !! id = Some r0;
  gl_id : k_call_id (calls c r0) = id;
  gl_ref : (r0 < call_count c)%nat;
  gl_device : k_active_device_id (calls c r0) = None;
  gl_peer : same_remote env (k_remote_peer (calls c r0)) peer = true;
  gl_offer : validate_offer received = Ok tt;
  gl_platform o : pe_platform env o = Ok tt;
  gl_call_new : pe_call_new env = Ok tt;
  gl_timer : pe_start_timer env = Ok tt;
  gl_hangup : (k_api (CallSystem.ApiSendHangup Hangup.Normal) (calls c r0)).2 = Ok tt;
  gl_requests : (requests [CallSystem.ApiReceivedOffer received; CallSystem.ApiStartCall]
    (new_incoming peer in_id received)).2 = Ok tt;
}.

(** The device goes on with its own call, and tells the application. *)
Definition keeps_own (r0 : CallRef) (peer : Peer) (in_id : CallId) c c' : Prop :=
  active_call_id c' = active_call_id c /\ call_by_call_id c' = call_by_call_id c /\
  calls c' r0 = calls c r0 /\ worker c' = worker c /\ busy c' = busy c /\
  outputs c' = outputs c ++ [(OnEvent peer in_id ApplicationEvent.ReceivedOfferWithGlare, true)].

Lemma platform_call_run o c :
  pe_platform env o = Ok tt ->
  platform_call env o c = (c <| outputs := outputs c ++ [(o, true)] |>, Ok tt).
Proof. intros Ho. unfold platform_call, of_result, mbind, ST_bind. cbn. by rewrite Ho. Qed.

(** The calls after [r] was asked to send a hangup. *)
Definition hung_up (h : option Hangup.Hangup) (r : CallRef) c : CallRef -> K :=
  match h with
  | Some h => <[r := (k_api (CallSystem.ApiSendHangup h) (calls c r)).1]> (calls c)
  | None => calls c
  end.

Definition hangs_up (h : option Hangup.Hangup) (k : K) : Prop :=
  match h with
  | Some h => (k_api (CallSystem.ApiSendHangup h) k).2 = Ok tt
  | None => True
  end.

(** It gives up its own call, which ends for [reason], and starts the incoming one. *)
Definition replaces (h : option Hangup.Hangup) (reason : CallEndReason.CallEndReason) (id : CallId)
    (r0 : CallRef) (peer : Peer) (in_id : CallId) (received : ReceivedOffer) c c' : Prop :=
  started peer in_id
    (requests [CallSystem.ApiReceivedOffer received; CallSystem.ApiStartCall]
      (new_incoming peer in_id received)).1 c c' /\
  calls c' r0 = hung_up h r0 c r0 /\
  worker c' = worker c ++ [TerminateTask r0 h] /\
  outputs c' = outputs c ++ [(OnCallEnded (k_remote_peer (calls c r0)) id reason, true)].

Lemma terminate_call_run r h reason c :
  (forall o, pe_platform env o = Ok tt) -> worker_stopped c = false -> hangs_up h (calls c r) ->
  ends (terminate_call env r h (Some reason)) c (fun c' res =>
    res = Ok tt /\ c' = c <| message_queue := message_queue c' |>
      <| outputs := outputs c ++
           [(OnCallEnded (k_remote_peer (calls c r)) (k_call_id (calls c r)) reason, true)] |>
      <| calls := hung_up h r c |>
      <| worker := worker c ++ [TerminateTask r h] |>).
Proof.
  intros Hp Hw Hh. unfold terminate_call. apply ends_bind, ends_atom. cbn [of_call gets fst snd].
  apply ends_bind, ends_atom. cbn [update_queue modify fst snd].
  apply ends_bind, ends_bind, ends_atom. cbn [of_call gets fst snd].
  apply ends_atom. rewrite platform_call_run by done. cbn [fst snd]. apply ends_bind.
  destruct h as [h|]; [apply ends_atom; rewrite with_call_run; cbn; rewrite Hh|apply ends_done];
    apply ends_atom; cbn; by rewrite Hw.
Qed.

(** Without an active call, the manager does not get one while it reports errors. *)
Definition none_stays : relation Manager := fun c c' =>
  active_call_id c = None -> active_call_id c' = None.

#[local] Instance none_stays_preorder : PreOrder none_stays.
Proof. split; unfold none_stays; [by intros c Ha|]. intros c1 c2 c3 H1 H2 Ha. auto. Qed.

#[local] Hint Extern 1 (respects none_stays (with_call _ _)) =>
  intros ?; rewrite with_call_run; exact id : respects.
#[local] Hint Extern 2 (respects none_stays (modify _)) =>
  apply respects_modify; intros; repeat case_match; intros ?; done : respects.
#[local] Hint Extern 2 (respects none_stays (update_queue _)) =>
  apply respects_modify; intros ?; exact id : respects.

Ltac solve_none := intros; repeat first [every_step_step | respects_step |
  lazymatch goal with |- respects none_stays ?m => let h := get_head m in progress unfold h end].

Lemma reject_none peer id event r c :
  held c -> k_call_id (calls c r) = id -> active_call_id c = None ->
  ends (notify_application env peer id event ;; send_busy env r) c
    (fun c' _ => active_call_id c' = None).
Proof.
  intros Hh Hid Ha.
  assert (every_step none_stays (notify_application env peer id event ;; send_busy env r)) as Hs
    by solve_none.
  eapply ends_after; [apply reject_ends; [done..|]; right; by rewrite Ha|].
  eapply after_weaken; [by apply (every_step_after none_stays)|]. cbv beta. intros c' _ H. by apply H.
Qed.

(** Whatever the outcome of the rest, no call is active. *)
Lemma or_create_error_none peer id p c :
  ends p c (fun c' _ => active_call_id c' = None /\ busy_guard c' = false) ->
  ends (or_create_error env peer id p) c (fun c' _ => active_call_id c' = None).
Proof.
  intros Hp. apply ends_bind, ends_try. eapply ends_weaken; [done|]. cbv beta.
  intros c' [[]|e] [Ha Hg]; [by apply ends_done|].
  assert (every_step none_stays (internal_create_api_error env peer id)) as Hs by solve_none.
  eapply ends_after.
  - by apply internal_create_api_error_total.
  - eapply after_weaken; [by apply (every_step_after none_stays)|]. cbv beta. intros c2 _ H2. by apply H2.
Qed.

(** The actions of [handle_valid_offer] for a collision with the call [r0]. *)
Definition collide (r0 r : CallRef) (peer : Peer) (in_id : CallId) (received : ReceivedOffer)
    (collision : ReceivedOfferCollision) : prog Manager Error unit :=
  let '(active_call_action, incoming_call_action) := collision_actions collision in
  match active_call_action with
  | DontTerminate => done_ok
  | TerminateAndSendHangup reason =>
    clear_active_call ;; atom (modify (fun s => s <| busy := false |>)) ;;
    terminate_call env r0 (Some Hangup.Normal) (Some reason)
  | TerminateWithoutSendingHangup reason =>
    clear_active_call ;; atom (modify (fun s => s <| busy := false |>)) ;;
    terminate_call env r0 None (Some reason)
  end ;;
  match incoming_call_action with
  | Ignore event => notify_application env peer in_id event
  | RejectAsBusy event => notify_application env peer in_id event ;; send_busy env r
  | Start => atom (start_incoming_call env r in_id peer received)
  end.

(** The manager with the new call in memory, while the guard is held. *)
Definition with_incoming (peer : Peer) (in_id : CallId) (received : ReceivedOffer) c : Manager :=
  c <| busy_guard := true |>
    <| calls := <[call_count c := new_incoming peer in_id received]> (calls c) |>
    <| call_count := S (call_count c) |>.

Lemma handle_colliding_offer peer in_id received c id (r0 : CallRef) :
  validate_offer received = Ok tt -> busy_guard c = false -> pe_call_new env = Ok tt ->
  active_call_id c = Some id -> call_by_call_id c !! id = Some r0 -> (r0 < call_count c)%nat ->
  forall Q,
  ends (collide r0 (call_count c) peer in_id received
          (check_for_collision env (calls c r0) peer in_id received))
    (with_incoming peer in_id received c) (fun c' res => Q (c' <| busy_guard := false |>) res) ->
  ends (handle_received_offer env peer in_id received) c Q.
Proof.
  intros Hv Hg Hn Ha Hm Hr Q HQ. apply handle_received_offer_alone; [done|done|].
  unfold handle_valid_offer. apply ends_bind, ends_atom. cbn [gets fst snd].
  apply ends_bind, ends_atom. rewrite new_call_run, Hn. cbn [fst snd].
  apply ends_bind, ends_atom. cbn [gets fst snd].
  change (active_call_id (c <| busy_guard := true |>)) with (active_call_id c).
  change (call_by_call_id (c <| busy_guard := true |>)) with (call_by_call_id c).
  rewrite Ha. cbn [mbind option_bind]. rewrite Hm.
  apply ends_bind, ends_atom. cbn [of_call gets fst snd].
  match goal with |- context [check_for_collision env ?k0] =>
    replace k0 with (calls c r0) by (cbn; rewrite fn_lookup_insert_ne; [done|lia]) end.
  unfold collide in HQ. 
  destruct (check_for_collision env (calls c r0) peer in_id received); exact HQ.
Qed.

(** The call [r0] is given up for the incoming one. *)
Lemma replaced_ends peer in_id received c id (r0 : CallRef) h reason :
  pending_call_messages c = NoPending -> (r0 < call_count c)%nat -> worker_stopped c = false ->
  k_call_id (calls c r0) = id ->
  (forall o, pe_platform env o = Ok tt) -> pe_start_timer env = Ok tt -> hangs_up h (calls c r0) ->
  (requests [CallSystem.ApiReceivedOffer received; CallSystem.ApiStartCall]
    (new_incoming peer in_id received)).2 = Ok tt ->
  ends ((clear_active_call ;; atom (modify (fun s => s <| busy := false |>)) ;;
         terminate_call env r0 h (Some reason)) ;;
        atom (start_incoming_call env (call_count c) in_id peer received))
    (with_incoming peer in_id received c) (fun c' res =>
      res = Ok tt /\
      replaces h reason id r0 peer in_id received c (c' <| busy_guard := false |>)).
Proof.
  intros Hp Hr Hw Hid Hpl Ht Hh Hk. do 2 apply ends_bind. apply ends_atom. cbn [modify fst snd].
  apply ends_bind, ends_atom. cbn [modify fst snd].
  eapply ends_weaken; [apply terminate_call_run; [done|done|by cbn; rewrite fn_lookup_insert_ne by lia]|].
  cbv beta. intros c2 res [-> Hc2].
  destruct (requests _ (new_incoming peer in_id received)) as [k res] eqn:Hreq.
  cbn in Hk. subst res.
  eapply ends_weaken; [apply (start_new_ends peer in_id received c c2 k)|].
  - by rewrite Hc2.
  - done.
  - rewrite Hc2. cbn. destruct h; cbn; rewrite ?fn_lookup_insert_ne by lia; by rewrite fn_lookup_insert.
  - by rewrite Hc2.
  - replace (pending_call_messages c2) with (NoPending (Peer := Peer)) by (by rewrite Hc2, <- Hp). done.
  - cbv beta. intros c3 res (-> & Hst & Hother & Hw3 & Ho3). split; [done|].
    split; [by rewrite Hreq|].
    split_and!; cbn.
    + rewrite Hother by lia. rewrite Hc2. destruct h; cbn; rewrite ?fn_lookup_insert; by rewrite fn_lookup_insert_ne by lia.
    + rewrite Hw3, Hc2. done.
    + rewrite Ho3, Hc2. cbn. by rewrite fn_lookup_insert_ne, Hid by lia.
Qed.

Lemma glare_at c id r0 peer in_id received :
  glaring c id r0 peer in_id received ->
  ends (run_task env (ReceivedOfferTask peer in_id received)) c (fun c' res =>
    match id ?= in_id with
    | Gt => keeps_own r0 peer in_id c c'
    | Lt => replaces (Some Hangup.Normal) CallEndReason.RemoteGlare id r0 peer in_id received c c'
    | Eq => active_call_id c' = None
    end).
Proof.
  intros [Hg Hw Hp Ha Hm Hid Hr Hd Hs Hv Hpl Hn Ht Hh Hk]. cbn [run_task].
  pose proof (handle_colliding_offer peer in_id received c id r0 Hv Hg Hn Ha Hm Hr) as Hcol.
  replace (check_for_collision env (calls c r0) peer in_id received)
    with (glare_tiebreaker id in_id) in Hcol
    by (unfold check_for_collision, remote_peer_equals_active; by rewrite Hs, Hd, Hid).
  unfold glare_tiebreaker, collide in Hcol.
  destruct (id ?= in_id); cbn [collision_actions] in Hcol.
  - apply or_create_error_none, Hcol. do 2 apply ends_bind. apply ends_atom. cbn [modify fst snd].
    apply ends_bind, ends_atom. cbn [modify fst snd].
    eapply ends_weaken; [apply terminate_call_run; [done|done|by cbn; rewrite fn_lookup_insert_ne by lia]|].
    cbv beta. intros c2 res [-> Hc2]. eapply ends_weaken; [apply reject_none|].
    + by rewrite Hc2.
    + rewrite Hc2. cbn. rewrite fn_lookup_insert_ne by lia. rewrite fn_lookup_insert. apply new_call_id.
    + by rewrite Hc2.
    + by intros c3 res Hc3.
  - apply ends_bind, ends_try, Hcol. eapply ends_weaken; [by apply replaced_ends|]. cbv beta.
    intros c' res [-> Hc']. by apply ends_done.
  - apply ends_bind, ends_try, Hcol. apply ends_bind, ends_done, ends_atom.
    rewrite platform_call_run by done. cbn [fst snd]. apply ends_done.
    split_and!; try done. cbn. rewrite fn_lookup_insert_ne; [done|lia].
Qed.

End Env.

(** C9. When two devices call each other at the same time and neither call has
    been answered, both managers settle on the same call, the one with the greater
    id: the device that made it goes on with it and only notifies the application;
    the other one ends its own call, with a hangup, and starts the incoming call.
    With equal ids, neither call survives. *)
Theorem glare_is_resolved envA envB cA cB idA idB rA rB peerA peerB offerA offerB :
  glaring envA cA idA rA peerB idB offerB ->
  glaring envB cB idB rB peerA idA offerA ->
  ends (run_task envA (ReceivedOfferTask peerB idB offerB)) cA (fun cA' _ =>
  ends (run_task envB (ReceivedOfferTask peerA idA offerA)) cB (fun cB' _ =>
    active_call_id cA' = (if idA =? idB then None else Some (Z.max idA idB)) /\
    active_call_id cB' = active_call_id cA' /\
    (idB < idA -> keeps_own rA peerB idB cA cA' /\
       replaces (Some Hangup.Normal) CallEndReason.RemoteGlare idB rB peerA idA offerA cB cB') /\
    (idA < idB -> keeps_own rB peerA idA cB cB' /\
       replaces (Some Hangup.Normal) CallEndReason.RemoteGlare idA rA peerB idB offerB cA cA'))).
Proof.
  intros HA HB. eapply ends_weaken; [by apply glare_at|]. cbv beta. intros cA' _ Ha.
  eapply ends_weaken; [by apply glare_at|]. cbv beta. intros cB' _ Hb.
  rewrite (Z.compare_antisym idA idB) in Hb.
  pose proof (gl_active _ _ _ _ _ _ _ HA) as HactA. pose proof (gl_active _ _ _ _ _ _ _ HB) as HactB.
  destruct (Z.compare_spec idA idB) as [Heq|Hlt|Hgt]; cbn in Hb.
  - rewrite (proj2 (Z.eqb_eq idA idB) Heq). split_and!; [done|congruence|lia|lia].
  - rewrite (proj2 (Z.eqb_neq idA idB)), Z.max_r by lia.
    assert (active_call_id cA' = Some idB) as HcA by (by destruct Ha as [[? _] _]).
    assert (active_call_id cB' = Some idB) as HcB by (destruct Hb; congruence).
    split; [done|]. split; [congruence|]. split; [lia|done].
  - rewrite (proj2 (Z.eqb_neq idA idB)), Z.max_l by lia.
    assert (active_call_id cB' = Some idA) as HcB by (by destruct Hb as [[? _] _]).
    assert (active_call_id cA' = Some idA) as HcA by (destruct Ha; congruence).
    split; [done|]. split; [congruence|]. split; [done|lia].
Qed.

End Offers.
End CallManagerOffers.
