(* ===== verification/CallManagerStuck.v ===== *)
(** * A repeated offer

    An offer that has the id of the accepted call it replaces leaves the manager
    with an active call id that denotes no call: the manager stays busy, takes no
    hangup and makes no call until it is reset. *)

From S2P Require Import Prelude Threads States Signaling ConnectionTypes Connection ConnectionStart.
From S2P Require Import Call CallFsm CallSystem CallManager CallManagerSystem CallManagerTasks.
From S2P Require Import CallManagerOffers.
Local Open Scope Z_scope.
Local Open Scope ringrtc_scope.

Module CallManagerStuck.
Import CallManager CallManagerSystem CallManagerTasks CallManagerOffers.

Section Stuck.
Context {Peer K : Type} `{!CallApi Peer K} `{!Codec CallMessage} `{!CallLaws Peer K}.
Notation Manager := (CallManager (Peer := Peer) (K := K)).
Implicit Types (c : Manager).

Definition wedged (id : CallId) c : Prop :=
  busy c = true /\ active_call_id c = Some id /\ call_by_call_id c !! id = None.

Section Id.
Context (id : CallId).

Definition anything : relation Manager := fun _ _ => True.
#[local] Instance anything_preorder : PreOrder anything.
Proof. by split. Qed.

Definition stays : relation Manager := fun c c' => wedged id c -> wedged id c'.
#[local] Instance stays_preorder : PreOrder stays.
Proof. split; unfold stays; [by intros c Hc|]. intros c1 c2 c3 H1 H2 Hc. auto. Qed.

#[local] Hint Extern 1 (respects stays (with_call _ _)) =>
  intros ?; rewrite with_call_run; exact (fun H => H) : respects.
#[local] Hint Extern 2 (respects stays (modify _)) =>
  apply respects_modify; intros; repeat case_match; exact (fun H => H) : respects.
#[local] Hint Extern 2 (respects stays (update_queue _)) =>
  apply respects_modify; intros ?; exact (fun H => H) : respects.

Lemma keeps_stays {A} (p : prog Manager Error A) :
  every_step stays p -> keeps (wedged id) anything p.
Proof. apply keeps_every_step; [apply _|]. intros c c' Hc Hs. split; [by apply Hs|done]. Qed.

Ltac solve_stays := intros; repeat first [every_step_step | respects_step |
  lazymatch goal with |- respects stays ?m => let h := get_head m in progress unfold h end].
Ltac solve_wedged := intros;
  repeat keeps_step ltac:(apply keeps_stays; solve [solve_stays]).

Section Env.
Context (env : PlatformEnv (Peer := Peer)).

(** There is no active call to work on. *)
Lemma wedged_active_call c (Q : Manager -> result CallRef Error -> Prop) :
  wedged id c -> Q c (Err (RingRtcError.CallIdNotFound id)) -> after active_call c Q.
Proof.
  intros (Hb & Ha & Hm) HQ. apply after_atom. unfold active_call_m.
  by rewrite ST_gets_bind, Ha, ST_gets_bind, Hm.
Qed.

Lemma terminate_active_call_wedged b reason :
  keeps (wedged id) anything (terminate_active_call env b reason).
Proof.
  intros c Hc. unfold terminate_active_call. apply after_bind, after_atom. cbn [gets fst snd].
  destruct (bool_decide _); cbn [negb]; [|by apply after_done].
  apply after_bind, wedged_active_call; [done|]. done.
Qed.
#[local] Hint Resolve terminate_active_call_wedged : respects.

Lemma with_active_call_wedged id' body : keeps (wedged id) anything (with_active_call id' body).
Proof.
  intros c Hc. unfold with_active_call. apply after_bind, after_try, wedged_active_call; [done|].
  by apply after_done.
Qed.
#[local] Hint Resolve with_active_call_wedged : respects.

Lemma handle_hangup_wedged : keeps (wedged id) anything (handle_hangup env).
Proof.
  intros c Hc. unfold handle_hangup. apply after_bind, after_try, wedged_active_call; [done|].
  by apply after_done.
Qed.
#[local] Hint Resolve handle_hangup_wedged : respects.

Lemma terminate_and_drop_call_wedged id' :
  keeps (wedged id) anything (terminate_and_drop_call id').
Proof.
  intros c (Hb & Ha & Hm). unfold terminate_and_drop_call. apply after_bind, after_atom.
  rewrite ST_gets_bind. destruct (call_by_call_id c !! id') as [r|]; [|done].
  cbn [mbind ST_bind modify fst snd mret]. apply after_atom. rewrite with_call_run. split; [|done].
  split_and!; [done|done|]. cbn. by apply lookup_delete_None; right.
Qed.
#[local] Hint Resolve terminate_and_drop_call_wedged : respects.

Lemma handle_call_wedged peer id' mt local :
  keeps (wedged id) anything (handle_call env peer id' mt local).
Proof.
  intros c Hc. apply after_atom_unless. intros _. rewrite ST_gets_bind.
  destruct Hc as (Hb & Hc). by rewrite Hb.
Qed.
#[local] Hint Resolve handle_call_wedged : respects.

Lemma new_call_stays peer id' dir mt local : respects stays (new_call env peer id' dir mt local).
Proof. intros c Hc. rewrite new_call_run. by destruct (pe_call_new env). Qed.

Lemma handle_valid_offer_wedged peer id' received :
  keeps (wedged id) anything (handle_valid_offer env peer id' received).
Proof.
  intros c Hc. unfold handle_valid_offer. apply after_bind, after_atom. cbn [gets fst snd].
  apply after_bind, after_atom.
  pose proof (new_call_stays peer id' Incoming (offer_call_media_type (ro_offer received))
    (ro_receiver_device_id received) c Hc) as H1.
  destruct Hc as (Hb & Ha & Hm). rewrite Ha. cbn [mbind option_bind]. rewrite Hm.
  destruct (new_call _ _ _ _ _ _ _) as [c1 [r|e]]; [|done]. cbn [fst snd] in *.
  apply after_bind, after_atom. cbn [gets fst snd].
  apply after_bind. apply after_done. cbn [collision_actions].
  apply after_bind, after_done.
  assert (keeps (wedged id) anything (notify_application env peer id'
    ApplicationEvent.ReceivedOfferWhileActive ;; send_busy env r)) as Hs by solve_wedged.
  eapply after_weaken; [by apply Hs|]. cbv beta. by intros c2 _ [H2 _].
Qed.
#[local] Hint Resolve handle_valid_offer_wedged : respects.

(** Only a reset ends it. *)
Lemma run_task_wedged t : t <> ResetTask -> keeps (wedged id) anything (run_task env t).
Proof.
  intros Ht. destruct t; cbn [run_task]; try done; solve_wedged.
Qed.

Lemma run_app_wedged a : keeps (wedged id) anything (run_app env a).
Proof. destruct a; cbn [run_app]; solve_wedged. Qed.

Lemma run_manager_call_wedged r conn m :
  keeps (wedged id) anything (run_manager_call env r conn m).
Proof. solve_wedged. Qed.

End Env.
End Id.
(** A peer whose call has been accepted offers again from the same device. *)
Record recalled (env : PlatformEnv (Peer := Peer)) c (id : CallId) (r0 : CallRef) (peer : Peer)
    (in_id : CallId) (received : ReceivedOffer) : Prop := {
  rc_guard : busy_guard c = false;
  rc_tasks : worker c = [];
  rc_worker : worker_stopped c = false;
  rc_pending : pending_call_messages c = NoPending;
  rc_active : active_call_id c = Some id;
  rc_call : call_by_call_id c !! id = Some r0;
  rc_id : k_call_id (calls c r0) = id;
  rc_ref : (r0 < call_count c)%nat;
  rc_device : k_active_device_id (calls c r0) = Some (ro_sender_device_id received);
  rc_accepted : CallState.at_least (k_state (calls c r0)) CallState.ConnectedAndAccepted = true;
  rc_peer : same_remote env (k_remote_peer (calls c r0)) peer = true;
  rc_offer : validate_offer received = Ok tt;
  rc_platform o : pe_platform env o = Ok tt;
  rc_call_new : pe_call_new env = Ok tt;
  rc_timer : pe_start_timer env = Ok tt;
  rc_requests : (requests [CallSystem.ApiReceivedOffer received; CallSystem.ApiStartCall]
    (new_incoming peer in_id received)).2 = Ok tt;
}.

Lemma recall_ends env c id r0 peer in_id received :
  recalled env c id r0 peer in_id received ->
  ends (run_task env (ReceivedOfferTask peer in_id received)) c (fun c' _ =>
    replaces None CallEndReason.RemoteReCall id r0 peer in_id received c c').
Proof.
  intros [Hg _ Hw Hp Ha Hm Hid Hr Hd Hacc Hs Hv Hpl Hn Ht Hk]. cbn [run_task].
  pose proof (handle_colliding_offer env peer in_id received c id r0 Hv Hg Hn Ha Hm Hr) as Hcol.
  replace (check_for_collision env (calls c r0) peer in_id received) with ReCall in Hcol
    by (unfold check_for_collision, remote_peer_equals_active;
        by rewrite Hs, Hd, bool_decide_true, Hacc by done).
  apply ends_bind, ends_try, Hcol. unfold collide. cbn [collision_actions].
  eapply ends_weaken; [by apply replaced_ends|]. cbv beta. intros c' res [-> Hc']. by apply ends_done.
Qed.

Lemma conclude_ends env r c id :
  (forall o, pe_platform env o = Ok tt) ->
  k_call_id (calls c r) = id -> busy c = true -> active_call_id c = Some id ->
  is_Some (call_by_call_id c !! id) ->
  ends (conclude_call env r None) c (fun c' _ => wedged id c').
Proof.
  intros Hpl Hid Hb Ha [r' Hr']. unfold conclude_call. apply ends_bind, ends_atom.
  cbn [of_call gets fst snd]. rewrite Hid. apply ends_bind, ends_try, ends_bind, ends_done.
  unfold terminate_and_drop_call. apply ends_bind, ends_atom. rewrite ST_gets_bind, Hr'.
  set (c1 := c <| call_by_call_id := delete id (call_by_call_id c) |>).
  rewrite (ST_bind_run (modify _) _ c c1 tt) by done. cbn [fst snd mret ST_ret].
  apply ends_atom. rewrite with_call_run. cbn [fst snd].
  assert (wedged id c1) as H1 by (split_and!; [done|done|]; cbn; apply lookup_delete_eq).
  destruct (k_terminate (calls c1 r')).2 as [[]|e]; [by apply ends_done|].
  apply ends_bind, ends_try, ends_atom. cbn [of_call gets fst snd].
  apply ends_bind, ends_try, ends_atom. rewrite platform_call_run by done. by apply ends_done.
Qed.

(** C39. A second offer with the id of an accepted call, from the same device, wedges the
    manager: the old call, terminated later, takes the new one out of the map,
    since both have the same id.  From then on the manager is busy with a
    call that is not there: whatever the worker, the application or a call asks for,
    a reset apart, it stays so, and every new call is refused. *)
Theorem repeated_offer_wedges_manager env c id r0 peer received :
  recalled env c id r0 peer id received ->
  ends (run_task env (ReceivedOfferTask peer id received)) c (fun c1 _ =>
    worker c1 = [TerminateTask r0 None] /\ active_call_id c1 = Some id /\
    ends (run_task env (TerminateTask r0 None)) (c1 <| worker := [] |>)
      (fun c2 _ => wedged id c2)) /\
  forall c', wedged id c' ->
    (forall env t, t <> ResetTask -> after (run_task env t) c' (fun c'' _ => wedged id c'')) /\
    (forall env a, after (run_app env a) c' (fun c'' _ => wedged id c'')) /\
    (forall env r conn m, after (run_manager_call env r conn m) c' (fun c'' _ => wedged id c'')) /\
    (forall env peer id' mt local,
      after (handle_call env peer id' mt local) c' (fun c'' res =>
        c'' = c' /\ res = Err RingRtcError.CallManagerIsBusy)).
Proof.
  intros Hr. split.
  - eapply ends_weaken; [by apply recall_ends|]. cbv beta.
    intros c1 _ ((Ha & Hb & Hm & _) & Hk & Hw & _). rewrite (rc_tasks _ _ _ _ _ _ _ Hr) in Hw.
    split_and!; [done..|].
    apply conclude_ends; cbn; [by apply Hr| |done|done|].
    + rewrite Hk. apply (rc_id _ _ _ _ _ _ _ Hr).
    + rewrite Hm, lookup_insert_eq. by eexists.
  - intros c' Hc'. split_and!; intros.
    + eapply after_weaken; [by apply (run_task_wedged id)|]. by intros ? ? [].
    + eapply after_weaken; [by apply (run_app_wedged id)|]. by intros ? ? [].
    + eapply after_weaken; [by apply (run_manager_call_wedged id)|]. by intros ? ? [].
    + apply after_atom_unless. intros _. rewrite ST_gets_bind. destruct Hc' as (-> & _). done.
Qed.

End Stuck.
End CallManagerStuck.
