(* ===== verification/CallManagerCalls.v ===== *)
(** * The calls of the call manager

    The interface the manager uses ([CallApi] of CallManager.v) implemented by the
    calls of CallSystem.v, with the connections of ConnectionSystem.v.  The laws of
    the interface hold, so that what is proved of the manager for every
    implementation holds with these calls. *)

From S2P Require Import Prelude Threads States Signaling ConnectionTypes Connection ConnectionStart.
From S2P Require Import ConnectionFsm ConnectionSystem ConnectionLive.
From S2P Require Import Call CallConnections CallFsm CallSystem CallManager.
Local Open Scope Z_scope.
Local Open Scope ringrtc_scope.

Module CallManagerCalls.
Import Call CallFsm CallSystem.

Section Instance.
Context `{SrtpCrypto} `{SdpFfi}.
Context `{Codec OfferProto} `{Codec AnswerProto} `{Codec IceCandidateProto} `{Codec RtpMessage}.
Context (message_size : Z) (Peer : Type).
Notation Conn := ConnectionSystem.Sys.
#[local] Instance conn_api : ConnectionApi Conn := CallConnections.connection_api message_size.

(** What the manager and the connections answer to the calls. *)
Context (env : CallEnv).

Record ManagedCall : Type := mkManagedCall {
  mc_peer : Peer;
  mc_sys : Sys Conn;
}.

Definition the_call (k : ManagedCall) : Call Conn := call (fsm (mc_sys k)).
Definition put_call (k : ManagedCall) (c : Call Conn) : ManagedCall :=
  mkManagedCall (mc_peer k) (with_call (mc_sys k) c).

Definition on_managed {A} (m : ST (Call Conn) Error A) : ST ManagedCall Error A := fun k =>
  let '(c, r) := m (the_call k) in (put_call k c, r).

(** A connection that a waiting message refers to.  It may have left its call
    already; then it is the last one the call let go of. *)
Inductive ConnRef : Type := ParentConnection | ChildConnection (device : DeviceId).

Definition is_for (device : DeviceId) (k : Conn) : bool :=
  conn_remote_device_id k =? device.

(** Replace the last connection for [device] in a list by what [m] makes of it. *)
Fixpoint on_last {A} (device : DeviceId) (m : ST Conn Error A) (l : list Conn)
  : option (list Conn * result A Error) :=
  match l with
  | [] => None
  | k :: l' =>
    match on_last device m l' with
    | Some (l'', r) => Some (k :: l'', r)
    | None => if is_for device k then let '(k', r) := m k in Some (k' :: l', r) else None
    end
  end.

Definition on_conn_ref {A} (ref : ConnRef) (m : ST Conn Error A) : ST (Call Conn) Error A := fun c =>
  let gone device :=
    match on_last device m (dropped c) with
    | Some (l, r) => (c <| dropped := l |>, r)
    | None => (c, Err (RingRtcError.ConnectionNotFound device))
    end in
  match ref with
  | ParentConnection =>
    match forking c with
    | Some f =>
      let '(k, r) := m (parent_connection f) in
      (c <| forking := Some (mkForkingState k (local_secret f) (forking_offer f)) |>, r)
    | None => gone 0
    end
  | ChildConnection device =>
    match connection_map c !! device with
    | Some _ => on_connection device m c
    | None => gone device
    end
  end.

(** What a connection answers, [d] when there is no such connection. *)
Definition ask_conn {A} (ref : ConnRef) (f : Conn -> A) (d : A) (c : Call Conn) : A :=
  match (on_conn_ref ref (gets f) c).2 with Ok a => a | Err _ => d end.

(** Let the state machine handle its queue until it answers [terminate]. *)
Fixpoint await_terminate (fuel : nat) (s : Sys Conn) : Sys Conn :=
  match fuel with
  | O => s
  | S fuel =>
    if terminate_complete (call (fsm s)) then s
    else match act (AEvent env) s with
         | Some s' => await_terminate fuel s'
         | None => s
         end
  end.

(** [terminate] as the manager sees it: the request, the wait, the release. *)
Definition terminate : ST (Sys Conn) Error unit := fun s =>
  let '(c, r) := terminate_begin (call (fsm s)) in
  let s1 := (with_call s c) <| phase := if is_ok r then Waiting else Failed |> in
  match r with
  | Err e => (s1, Err e)
  | Ok _ =>
    let s2 := await_terminate (length (fsm_queue c)) s1 in
    if terminate_complete (call (fsm s2)) then
      let '(c, r) := terminate_end env (call (fsm s2)) in
      ((with_call s2 c) <| phase := Returned |>, r)
    else (s2, Err CallConnections.not_answered)
  end.

#[export] Instance call_api : CallApi Peer ManagedCall := {|
  k_conn := ConnRef;
  k_new peer id dir mt local := mkManagedCall peer (init (Call.new id dir mt local));
  k_call_id k := call_id (the_call k);
  k_direction k := direction (the_call k);
  k_remote_peer := mc_peer;
  k_state k := state (the_call k);
  k_active_device_id k := active_device_id_field (the_call k);
  k_should_send_hangup k := should_send_hangup (the_call k);
  k_api a := on_managed (run_api env a);
  k_hangup_via_rtp_data_to_all_except h d :=
    on_managed (send_hangup_via_rtp_data_to_all_except env h d);
  k_terminate := fun k => let '(s, r) := terminate (mc_sys k) in (mkManagedCall (mc_peer k) s, r);
  k_can_send_messages ref k :=
    ask_conn ref (fun k => Connection.can_send_messages (ConnectionFsm.conn (ConnectionSystem.fsm k)))
      false (the_call k);
  k_take_buffered_local_ice_candidates ref :=
    on_managed (on_conn_ref ref (CallConnections.request_with
      Connection.take_buffered_local_ice_candidates));
  k_remote_device_id ref k := ask_conn ref conn_remote_device_id 0 (the_call k);
|}.

(** ** What a call is made for never changes *)

Definition made_for : Call Conn -> CallId * CallDirection := fun c => (call_id c, direction c).

Lemma made_for_managed {A} (m : ST (Call Conn) Error A) :
  respects (same made_for) m -> respects k_same (on_managed m).
Proof.
  intros Hm k. unfold on_managed. specialize (Hm (the_call k)). destruct (m (the_call k)) as [c r].
  injection Hm as Hid Hdir. by split_and!.
Qed.

Lemma made_for_api a : respects (same made_for) (run_api env a).
Proof. destruct a; call_respects. Qed.

Lemma made_for_conn_ref {A} ref (m : ST Conn Error A) : respects (same made_for) (on_conn_ref ref m).
Proof.
  intros c. unfold on_conn_ref, on_connection. destruct ref as [|device].
  - destruct (forking c) as [f|]; [by destruct (m _)|]. by destruct (on_last _ _ _) as [[]|].
  - destruct (connection_map c !! device) as [k|]; [by destruct (m k)|].
    by destruct (on_last _ _ _) as [[]|].
Qed.

Lemma made_for_act a s s' : act a s = Some s' -> made_for (call (fsm s')) = made_for (call (fsm s)).
Proof.
  apply (act_respects (same made_for)); try (intros; reflexivity).
  - intros env' st ev _. destruct st, ev; call_respects.
  - intros env' t. destruct t; call_respects.
  - intros env' t. destruct t; call_respects.
  - intros env' a'. destruct a'; call_respects.
  - call_respects.
  - call_respects.
Qed.

Lemma made_for_await n s : made_for (call (fsm (await_terminate n s))) = made_for (call (fsm s)).
Proof.
  revert s. induction n as [|n IH]; intros s; cbn [await_terminate]; [done|].
  destruct (terminate_complete _); [done|]. destruct (act (AEvent env) s) as [s'|] eqn:Hs; [|done].
  rewrite IH. by eapply made_for_act.
Qed.

Lemma made_for_terminate s : made_for (call (fsm (terminate s).1)) = made_for (call (fsm s)).
Proof.
  assert (respects (same made_for) (terminate_begin (Conn := Conn))) as Hb by call_respects.
  assert (respects (same made_for) (terminate_end (Conn := Conn) env)) as He by call_respects.
  unfold terminate. specialize (Hb (call (fsm s))). destruct (terminate_begin _) as [c [u|e]]; [|exact Hb].
  match goal with |- context [await_terminate ?n ?x] => pose proof (made_for_await n x) as Ha; set (s2 := await_terminate n x) in * end.
  specialize (He (call (fsm s2))). destruct (terminate_complete _); [|exact (eq_trans Ha Hb)].
  destruct (terminate_end env _) as [c2 r2]. cbn in He |- *. exact (eq_trans He (eq_trans Ha Hb)).
Qed.

#[export] Instance call_laws : CallLaws Peer ManagedCall.
Proof.
  split; try done.
  - intros a. apply made_for_managed, made_for_api.
  - intros h d. apply made_for_managed. call_respects.
  - intros [p s]. cbn. pose proof (made_for_terminate s) as Hm.
    destruct (terminate s) as [s' r]. injection Hm as Hid Hdir. by split_and!.
  - intros ref. apply made_for_managed, made_for_conn_ref.
Qed.

End Instance.
End CallManagerCalls.
