(* ===== verification/CallManagerExamples.v ===== *)
(** * Concrete call managers

    A call manager with the calls of CallSystem.v on concrete inputs: the theorems
    on call managers apply to these runs.  The last theorem shows a run in which the
    worker waits for itself. *)

From S2P Require Import Prelude Threads States Signaling ConnectionTypes Connection ConnectionStart.
From S2P Require Import ConnectionFsm ConnectionSystem ConnectionStatus.
From S2P Require Import Call CallConnections CallFsm CallSystem CallExamples.
From S2P Require Import CallManager CallManagerSystem CallManagerGroups CallManagerTasks.
From S2P Require Import CallManagerOneCall CallManagerOffers CallManagerStuck CallManagerCalls.
Local Open Scope Z_scope.
Local Open Scope ringrtc_scope.

Module CallManagerExamples.
Import ConnectionStart ConnectionStatus.Toy.
Import CallManager CallManagerSystem CallManagerGroups CallManagerTasks.
Import CallManagerOneCall CallManagerOffers CallManagerStuck CallManagerCalls.

(** ** The setting *)

Notation Peer := Z.
Notation K := (ManagedCall Peer).
#[export] Instance conn_api : ConnectionApi ConnectionSystem.Sys := CallConnections.connection_api 1000.
#[export] Instance managed_api : CallApi Peer K := call_api 1000 Peer CallExamples.env.
#[export] Instance managed_laws : CallLaws Peer K := call_laws 1000 Peer CallExamples.env.

#[export] Instance MediaKey_eq_dec : EqDecision MediaKey.
Proof. solve_decision. Defined.
#[export] Instance HeartbeatProto_eq_dec : EqDecision HeartbeatProto.
Proof. solve_decision. Defined.
#[export] Instance DeviceToDevice_eq_dec : EqDecision DeviceToDevice.
Proof. solve_decision. Defined.
#[export] Instance RingIntention_eq_dec : EqDecision RingIntention.
Proof. solve_decision. Defined.
#[export] Instance RingResponse_eq_dec : EqDecision RingResponse.
Proof. solve_decision. Defined.
#[export] Instance CallMessage_eq_dec : EqDecision CallMessage.
Proof. solve_decision. Defined.

#[export] Instance MediaKey_countable : Countable MediaKey.
Proof.
  refine (inj_countable' (fun m => (mk_ratchet_counter m, mk_secret m, mk_demux_id m))
    (fun '(r, s, d) => mkMediaKey r s d) _). by intros [].
Defined.
#[export] Instance HeartbeatProto_countable : Countable HeartbeatProto.
Proof.
  refine (inj_countable' (fun h => (hb_audio_muted h, hb_video_muted h, hb_presenting h,
      hb_sharing_screen h, hb_muted_by_demux_id h))
    (fun '(a, v, p, s, m) => mkHeartbeat a v p s m) _). by intros [].
Defined.
#[export] Instance DeviceToDevice_countable : Countable DeviceToDevice.
Proof.
  refine (inj_countable' (fun d => (d2d_group_id d, d2d_media_key d, d2d_heartbeat d,
      d2d_leaving d, d2d_reaction d, d2d_remote_mute_request d))
    (fun '(g, k, h, l, r, m) => mkDeviceToDevice g k h l r m) _). by intros [].
Defined.
#[export] Instance RingIntention_countable : Countable RingIntention.
Proof.
  refine (inj_countable' (fun r => (ri_group_id r, ri_type r, ri_ring_id r))
    (fun '(g, t, i) => mkRingIntention g t i) _). by intros [].
Defined.
#[export] Instance RingResponse_countable : Countable RingResponse.
Proof.
  refine (inj_countable' (fun r => (rr_group_id r, rr_type r, rr_ring_id r))
    (fun '(g, t, i) => mkRingResponse g t i) _). by intros [].
Defined.
#[export] Instance CallMessage_countable : Countable CallMessage.
Proof.
  refine (inj_countable' (fun m => (group_call_message m, ring_intention m, ring_response m))
    (fun '(g, i, r) => mkCallMessage g i r) _). by intros [].
Defined.

#[export] Instance call_message_codec : Codec CallMessage := countable_codec CallMessage.
#[export] Instance call_message_laws : CodecLaws CallMessage := countable_codec_laws CallMessage.

Notation Manager := (CallManager (Peer := Peer) (K := K)).

(** Nothing fails; every peer is its own. *)
Definition env : PlatformEnv (Peer := Peer) :=
  mkPlatformEnv (fun _ => Ok tt) (fun p q => Ok (p =? q)) false (Ok tt) (Ok tt) (Ok tt)
    (fun key => key) (fun _ => Ok tt) 0 (fun l => l).

Definition memory : CallRef -> K := fun _ => k_new 0 0 Outgoing Audio 0.

(** An offer from a device of the peer, received on device 1. *)
Definition offer (sender : DeviceId) : ReceivedOffer :=
  mkReceivedOffer (mkOffer Audio [] (mkOfferProto (Some (v4 5)))) 0 sender 1 [1; 2] [3; 4].

(** ** Runs without overlap *)

Inductive command : Type :=
| Worker
| App (a : AppRequest (Peer := Peer))
| Act (r : CallRef) (l : list (CallSystem.action ConnectionSystem.Sys))
| Join (client : ClientId).

Definition fresh_dec (id : CallId) (c : Manager) : bool :=
  bool_decide (call_by_call_id c !! id = None) &&
  forallb (fun t => match t with
    | TerminateTask r _ => negb (k_call_id (calls c r) =? id) | _ => true end) (worker c).

Definition allowed_dec (t : Task (Peer := Peer)) (c : Manager) (j : gset ClientId) : bool :=
  match t with
  | CallTask _ id _ _ | ReceivedOfferTask _ id _ => fresh_dec id c
  | ResetTask => bool_decide (j = ∅)
  | _ => true
  end.

Definition do (cmd : command) (x : Manager * gset ClientId) : option (Manager * gset ClientId) :=
  let '(c, j) := x in
  match cmd with
  | Worker =>
    match worker c with
    | [] => None
    | t :: ts =>
      if allowed_dec t (c <| worker := ts |>) j
      then (fun o => (o.1, j)) <$> exec 1000 (run_task env t) (c <| worker := ts |>)
      else None
    end
  | App a => (fun o => (o.1, j)) <$> exec 1000 (run_app env a) c
  | Act r l =>
    if bool_decide (r < call_count c)%nat then
      s ← CallSystem.run l (mc_sys _ (calls c r));
      let k := mkManagedCall _ (mc_peer _ (calls c r)) s in
      if bool_decide ((k_call_id k, k_direction k) = (k_call_id (calls c r), k_direction (calls c r)))
      then Some (c <| calls := <[r := k]> (calls c) |>, j) else None
    else None
  | Join client =>
    if bool_decide (client ∉ j) && negb (busy c)
    then Some (c <| busy := true |>, {[client]} ∪ j) else None
  end.

Fixpoint play (l : list command) (x : Manager * gset ClientId) : option (Manager * gset ClientId) :=
  match l with
  | [] => Some x
  | cmd :: l => y ← do cmd x; play l y
  end.

Lemma fresh_dec_spec id c : fresh_dec id c = true -> fresh id c.
Proof.
  intros [Hm Hf]%andb_true_iff. apply bool_decide_eq_true in Hm. split; [done|].
  intros r h Hr. rewrite forallb_forall in Hf. specialize (Hf _ (proj1 (list_elem_of_In _ _) Hr)).
  cbn in Hf. by apply negb_true_iff, Z.eqb_neq in Hf.
Qed.

Lemma do_seq_step cmd x y : do cmd x = Some y -> seq_step x y.
Proof.
  destruct x as [c j], cmd as [|a|r l|client]; cbn [do].
  - destruct (worker c) as [|t ts] eqn:Hw; [done|].
    destruct (allowed_dec t _ j) eqn:Ht; [|done].
    destruct (exec 1000 (run_task env t) _) as [[c' res]|] eqn:Hx; [|done]. intros [= <-].
    eapply (seq_task env t ts); [done| |by eapply exec_runs].
    destruct t; try done; cbn in *; [by apply fresh_dec_spec..|].
    by apply bool_decide_eq_true in Ht.
  - destruct (exec 1000 (run_app env a) c) as [[c' res]|] eqn:Hx; [|done]. intros [= <-].
    eapply seq_app. by eapply exec_runs.
  - case_bool_decide; [|done]. destruct (CallSystem.run l _) as [s|]; [|done]. cbn [mbind option_bind].
    case_bool_decide as Hk; [|done]. intros [= <-]. injection Hk as Hid Hdir.
    apply seq_call; [done|]. by split_and!.
  - destruct (_ && _) eqn:Hc; [|done]. apply andb_true_iff in Hc as [Hj Hb].
    apply bool_decide_eq_true in Hj. apply negb_true_iff in Hb. intros [= <-]. by apply seq_join.
Qed.

Lemma play_reachable l x y : seq_reachable x -> play l x = Some y -> seq_reachable y.
Proof.
  revert x. induction l as [|cmd l IH]; intros x Hx; cbn [play]; [by intros [= <-]|].
  destruct (do cmd x) as [x'|] eqn:Hd; [|done]. cbn. apply IH.
  eapply seq_reachable_step; [exact Hx|by eapply do_seq_step].
Qed.

(** What is looked at in a run from a fresh manager. *)
Definition seen {A} (g : Manager -> A) (l : list command) : option A :=
  (fun x => g x.1) <$> play l (new memory, ∅).

Lemma seen_run {A} (g : Manager -> A) l a :
  seen g l = Some a -> exists c j, seq_reachable (c, j) /\ g c = a.
Proof.
  unfold seen. destruct (play l (new memory, ∅)) as [[c j]|] eqn:Hp; [|done]. intros [= <-].
  exists c, j. split; [|done]. eapply play_reachable; [apply seq_reachable_init|exact Hp].
Qed.

Definition requested (t : Task (Peer := Peer)) : list command := [App (AppTask t); Worker].

(** Calls peer 5, hangs up, and joins a group call. *)
Definition busy_day : list command :=
  requested (CallTask 5 7 Audio 1) ++ requested HangupTask ++ [Worker] ++
  requested (ReceivedOfferTask 6 9 (offer 3)).

Example busy_day_run :
  seen (fun c => (busy c, active_call_id c, (map_to_list (call_by_call_id c)).*1,
      (fun o => match o.1 with OnCallEnded p id r => Some (p, id, r) | _ => None end) <$> outputs c))
    busy_day =
  Some (true, Some 9, [9], [Some (5, 7, CallEndReason.LocalHangup)]).
Proof. vm_compute. reflexivity. Qed.

(** ** Witnesses *)

Lemma one_call_at_a_time_witness :
  exists (c : Manager) (j : gset ClientId), busy c = true /\ active_call_id c = Some 9 /\ j = ∅ /\
    exists r, call_by_call_id c !! 9 = Some r /\ k_call_id (calls c r) = 9.
Proof.
  destruct (seen_run (fun c => (busy c, active_call_id c)) busy_day (true, Some 9))
    as (c & j & Hr & [Hb Ha]%pair_equal_spec); [vm_compute; reflexivity|].
  destruct (one_call_at_a_time c j Hr) as (_ & Hj & _ & Hid).
  exists c, j. split_and!; [done|done|apply Hj; rewrite Ha; by eexists|].
  destruct (Hid 9 Ha) as (r & Hm & _ & Hk & _). by exists r.
Defined.

(** The application's thread is about to queue a call. *)
Lemma messages_are_sent_one_at_a_time_witness :
  exists s s' : Sys (Peer := Peer) (K := K), cm s <> cm s' /\ flow_step false (flow (cm s)) (flow (cm s')).
Proof.
  set (s := init memory).
  set (s1 := s <| threads := threads s ++ [run_app env (AppTask HangupTask)] |>).
  assert (reachable (fun env => pe_assume_messages_sent env = false) s1) as Hr.
  { eapply reachable_step; [apply (reachable_init _ memory)|]. by apply (step_app _ s env). }
  eexists s1, _. split; [|refine (proj1 (proj2 (messages_are_sent_one_at_a_time false s1 _ Hr _)));
    by eapply (step_thread _ s1 0)].
  cbn. discriminate.
Defined.

Lemma one_active_client_per_group_witness :
  exists s : Sys (Peer := Peer) (K := K), length (active_clients (cm s) [1]) = 1%nat /\
    (length (active_clients (cm s) [1%Z]) <= 1)%nat.
Proof.
  set (s := init memory).
  set (p := run_app env (AppCreateGroupCallClient [1])).
  set (s1 := s <| threads := threads s ++ [p] |>).
  assert ((fun x => length (active_clients x.1 [1%Z])) <$> step_prog p (cm s1) = Some 1%nat) as Hone
    by (vm_compute; reflexivity).
  destruct (step_prog p (cm s1)) as [[c p']|] eqn:Hp; [|discriminate Hone].
  exists (s1 <| cm := c |> <| threads := <[0%nat := p']> (threads s1) |>). split.
  - by injection Hone.
  - apply (one_active_client_per_group _ [1]).
    eapply reachable_step; [eapply reachable_step; [apply (reachable_init _ memory)|]|].
    + by apply (step_app _ s env).
    + by eapply (step_thread _ s1 0 p).
Defined.

Definition ring_message : CallMessage :=
  mkCallMessage None (Some (mkRingIntention (Some [1]) (Some 0) (Some 11))) None.

Lemma ring_validation_agrees_witness :
  ends (handle_received_call_message env [2] (pb_encode ring_message) 0) (new memory)
    (fun c' _ => outstanding_group_rings c' !! [1] = Some (mkRing [2] 11 0)).
Proof.
  eapply ends_weaken; [apply (ring_validation_agrees env [2] ring_message 0 (fun _ _ => true));
    [reflexivity|discriminate]|].
  intros c' res (_ & _ & Hring). by apply (Hring eq_refl).
Defined.

Lemma worker_tasks_end_witness :
  ends (run_task env (ReceivedOfferTask 6 9 (offer 3))) (new memory)
    (fun c' _ => busy_guard c' = false).
Proof.
  apply (worker_tasks_end env); [reflexivity|]. intros _. right. by split.
Defined.

(** Two candidates and then the offer. *)
Lemma early_messages_are_delivered_witness :
  exists c' : Manager, active_call_id c' = Some 9 /\
    Call.fsm_queue (the_call Peer (calls c' 0%nat)) =
      [CallEvent.StartCall; CallEvent.ReceivedIce (mkReceivedIce (mkIce []) 3);
       CallEvent.ReceivedIce (mkReceivedIce (mkIce []) 4)].
Proof.
  set (l := [EarlyIce (mkReceivedIce (mkIce []) 3); EarlyIce (mkReceivedIce (mkIce []) 4)]).
  destruct (requests ([CallSystem.ApiReceivedOffer (offer 3); CallSystem.ApiStartCall] ++ owed l)
    (new_incoming (K := K) 6 9 (offer 3))) as [k res] eqn:Hk.
  assert (res = Ok tt /\ Call.fsm_queue (the_call Peer k) =
    [CallEvent.StartCall; CallEvent.ReceivedIce (mkReceivedIce (mkIce []) 3);
     CallEvent.ReceivedIce (mkReceivedIce (mkIce []) 4)]) as [-> Hq].
  { vm_compute in Hk. injection Hk as <- <-. by vm_compute. }
  destruct (early_messages_are_delivered env 6 9 l (offer 3) (new memory) k)
    as (c' & res & _ & _ & Ha & _ & _ & Hc & _); try reflexivity; [by split_and!|exact Hk|].
  exists c'. split; [exact Ha|]. by rewrite <- Hq, <- Hc.
Defined.

(** What the manager has of its active call. *)
Definition of_active (c : Manager) (id : CallId) (r0 : CallRef) :=
  (busy_guard c, worker_stopped c, match pending_call_messages c with NoPending => true | _ => false end,
   active_call_id c, call_by_call_id c !! id, k_call_id (calls c r0),
   bool_decide (r0 < call_count c)%nat, k_remote_peer (calls c r0)).

Lemma glaring_of c id r0 peer in_id sender :
  of_active c id r0 = (false, false, true, Some id, Some r0, id, true, peer) ->
  k_active_device_id (calls c r0) = None ->
  (k_api (CallSystem.ApiSendHangup Hangup.Normal) (calls c r0)).2 = Ok tt ->
  (requests [CallSystem.ApiReceivedOffer (offer sender); CallSystem.ApiStartCall]
    (new_incoming (K := K) peer in_id (offer sender))).2 = Ok tt ->
  glaring env c id r0 peer in_id (offer sender).
Proof.
  unfold of_active. intros Hof Hd Hh Hk. injection Hof as Hg Hw Hp Ha Hm Hid Hr Hpeer.
  apply bool_decide_eq_true in Hr. split; try done.
  - by destruct (pending_call_messages c).
  - unfold same_remote. cbn. rewrite Hpeer. apply Z.eqb_refl.
Qed.

(** Device A calls B with id 7 while B calls A with id 9: call 9 survives. *)
Lemma glare_is_resolved_witness :
  exists cA cB : Manager, active_call_id cA = Some 7 /\ active_call_id cB = Some 9 /\
    ends (run_task env (ReceivedOfferTask 5 9 (offer 3))) cA (fun cA' _ =>
    ends (run_task env (ReceivedOfferTask 6 7 (offer 4))) cB (fun cB' _ =>
      active_call_id cA' = Some 9 /\ active_call_id cB' = Some 9)).
Proof.
  destruct (seen_run (fun c => (of_active c 7 0%nat, k_active_device_id (calls c 0%nat),
      (k_api (CallSystem.ApiSendHangup Hangup.Normal) (calls c 0%nat)).2))
    (requested (CallTask 5 7 Audio 1)) ((false, false, true, Some 7, Some 0%nat, 7, true, 5), None, Ok tt))
    as (cA & jA & _ & [[HA HdA]%pair_equal_spec HhA]%pair_equal_spec); [vm_compute; reflexivity|].
  destruct (seen_run (fun c => (of_active c 9 0%nat, k_active_device_id (calls c 0%nat),
      (k_api (CallSystem.ApiSendHangup Hangup.Normal) (calls c 0%nat)).2))
    (requested (CallTask 6 9 Audio 1)) ((false, false, true, Some 9, Some 0%nat, 9, true, 6), None, Ok tt))
    as (cB & jB & _ & [[HB HdB]%pair_equal_spec HhB]%pair_equal_spec); [vm_compute; reflexivity|].
  assert (glaring env cA 7 0%nat 5 9 (offer 3)) as GA by (apply glaring_of; [done..|vm_compute; done]).
  assert (glaring env cB 9 0%nat 6 7 (offer 4)) as GB by (apply glaring_of; [done..|vm_compute; done]).
  exists cA, cB. split_and!; [exact (gl_active _ _ _ _ _ _ _ GA)|exact (gl_active _ _ _ _ _ _ _ GB)|].
  eapply ends_weaken; [apply (glare_is_resolved env env cA cB 7 9 0%nat 0%nat 6 5 (offer 4) (offer 3) GA GB)|].
  cbv beta. intros cA' _ Hends. eapply ends_weaken; [exact Hends|]. cbv beta.
  intros cB' _ (Ha & Hb & _). rewrite Hb. auto.
Defined.

(** The call to peer 5 has been accepted on its device 3. *)
Definition in_call : list command :=
  requested (CallTask 5 7 Audio 1) ++ [Act 0%nat (tail CallExamples.accepted)].

(** The device that accepted it offers again, with the same id. *)
Lemma repeated_offer_wedges_manager_witness :
  exists c : Manager, active_call_id c = Some 7 /\
    ends (run_task env (ReceivedOfferTask 5 7 (offer 3))) c (fun c1 _ =>
    ends (run_task env (TerminateTask 0%nat None)) (c1 <| worker := [] |>)
      (fun c2 _ => wedged 7 c2)).
Proof.
  destruct (seen_run (fun c => (of_active c 7 0%nat, length (worker c),
      k_active_device_id (calls c 0%nat),
      CallState.at_least (k_state (calls c 0%nat)) CallState.ConnectedAndAccepted))
    in_call ((false, false, true, Some 7, Some 0%nat, 7, true, 5), 0%nat, Some 3, true))
    as (c & j & _ & [[[Hc Hw]%pair_equal_spec Hd]%pair_equal_spec Hacc]%pair_equal_spec);
    [vm_compute; reflexivity|].
  assert (recalled env c 7 0%nat 5 7 (offer 3)) as Hr.
  { injection Hc as Hg Hws Hp Ha Hm Hid Hlt Hpeer. apply bool_decide_eq_true in Hlt. split; try done.
    - by destruct (worker c).
    - by destruct (pending_call_messages c).
    - unfold same_remote. cbn. by rewrite Hpeer. }
  exists c. split; [exact (rc_active _ _ _ _ _ _ _ Hr)|].
  eapply ends_weaken; [apply (repeated_offer_wedges_manager env c 7 0%nat 5 (offer 3) Hr)|].
  cbv beta. intros c1 _ (_ & _ & Hends). exact Hends.
Defined.

(** ** A reset during a group call *)

Lemma play_steps l x y : play l x = Some y -> rtc seq_step x y.
Proof.
  revert x. induction l as [|cmd l IH]; intros x; cbn [play]; [intros [= <-]; apply rtc_refl|].
  destruct (do cmd x) as [x'|] eqn:Hd; [|done]. cbn. intros Hp. eapply rtc_l; [by eapply do_seq_step|by apply IH].
Qed.

(** The condition of [one_call_at_a_time] on resets is needed: to reset the manager releases
    [busy] although a group call has it and goes on, and then a one-to-one call can start
    beside the group call. *)
Theorem reset_allows_two_calls :
  exists (c c1 c2 : Manager) r, seq_reachable (c, {[3]}) /\ worker c = [ResetTask] /\
    runs (run_task env ResetTask) (c <| worker := [] |>) c1 r /\
    rtc seq_step (c1, {[3]}) (c2, {[3]}) /\ active_call_id c2 = Some 7.
Proof.
  assert ((x ← play [Join 3; App (AppTask ResetTask)] (new memory, ∅);
    y ← exec 1000 (run_task env ResetTask) (x.1 <| worker := [] |>);
    z ← play (requested (CallTask 5 7 Audio 1)) (y.1, x.2);
    Some (bool_decide (x.2 = {[3]}), bool_decide (z.2 = {[3]}), length (worker x.1),
      match worker x.1 with [ResetTask] => true | _ => false end, active_call_id z.1)) =
    Some (true, true, 1%nat, true, Some 7)) as Hrun by (vm_compute; reflexivity).
  destruct (play [Join 3; App (AppTask ResetTask)] (new memory, ∅)) as [[c j]|] eqn:Hp; [|discriminate Hrun]. cbn [mbind option_bind fst snd] in Hrun.
  destruct (exec 1000 (run_task env ResetTask) (c <| worker := [] |>)) as [[c1 r]|] eqn:Hx; [|discriminate Hrun]. cbn [mbind option_bind fst snd] in Hrun.
  destruct (play (requested (CallTask 5 7 Audio 1)) (c1, j)) as [[c2 j2]|] eqn:Hq; [|discriminate Hrun]. cbn [mbind option_bind fst snd] in Hrun.
  injection Hrun as Hj Hj2 _ Hw Ha. apply bool_decide_eq_true in Hj as ->. apply bool_decide_eq_true in Hj2 as ->.
  exists c, c1, c2, r. split_and!.
  - eapply play_reachable; [apply (seq_reachable_init memory)|exact Hp].
  - destruct (worker c) as [|[] [|]]; done.
  - by eapply exec_runs.
  - by eapply play_steps.
  - done.
Qed.

(** ** A worker that waits for itself *)

(** The application cannot send busy messages. *)
Definition refusing : PlatformEnv (Peer := Peer) :=
  mkPlatformEnv (fun o => match o with OnSendBusy _ _ => Err RingRtcError.NoActiveCall | _ => Ok tt end)
    (fun p q => Ok (p =? q)) false (Ok tt) (Ok tt) (Ok tt) (fun key => key) (fun _ => Ok tt) 0
    (fun l => l).

(** The worker can wait for itself: it holds the lock of [busy] while it answers
    an offer with busy.  If the offer has the id of the active call and the
    application fails to send the message, the error ends the active call, for
    which the lock is taken again: the task never ends, and the lock is never
    released. *)
Theorem busy_reply_can_deadlock :
  exists c : Manager, seq_reachable (c, ∅) /\ busy_guard c = false /\
    (exists n c' p', steps n (run_task refusing (ReceivedOfferTask 6 7 (offer 3))) c = Some (c', p') /\
      busy_guard c' = true /\ step_prog p' c' = None) /\
    forall c' r, ~ runs (run_task refusing (ReceivedOfferTask 6 7 (offer 3))) c c' r.
Proof.
  set (p := run_task refusing (ReceivedOfferTask 6 7 (offer 3))).
  assert ((fun x => (bool_decide (x.2 = ∅), busy_guard x.1,
      (fun y => (busy_guard y.1, match step_prog y.2 y.1 with None => true | Some _ => false end,
         match result_of y.2 with None => true | Some _ => false end)) <$> steps 15 p x.1)) <$>
    play (requested (CallTask 5 7 Audio 1)) (new memory, ∅) =
    Some (true, false, Some (true, true, true))) as Hrun by (vm_compute; reflexivity).
  destruct (play (requested (CallTask 5 7 Audio 1)) (new memory, ∅)) as [[c j]|] eqn:Hplay;
    [|discriminate Hrun].
  apply (inj Some) in Hrun as [[Hj Hg]%pair_equal_spec Hsteps]%pair_equal_spec. apply bool_decide_eq_true in Hj. cbn in Hj, Hg.
  subst j. cbn [fst snd] in Hsteps. destruct (steps 15 p c) as [[c' p']|] eqn:Hst; [|discriminate Hsteps].
  injection Hsteps as Hg' Hn Hr. exists c. split_and!; [|done| |].
  - eapply play_reachable; [apply (seq_reachable_init memory)|exact Hplay].
  - exists 15%nat, c', p'. split_and!; [done|done|]. by destruct (step_prog p' c').
  - apply (waiting_never_ends 15 p p' c c'); [done|by destruct (result_of p')|by destruct (step_prog p' c')].
Qed.

End CallManagerExamples.
