(* ===== verification/FrameCrypto.v ===== *)
(** * End-to-end encryption of media frames (src/rust/src/core/crypto.rs)

    Every device of a group call encrypts its frames with a key that it sends to
    the others, and ratchets the key forward when somebody joins.  A receiver keeps
    a few keys per sender, ratchets them forward to the counter of a frame, and
    keeps an older secret for frames that come late.  AES in counter mode, HMAC and
    HKDF are parameters.  Times are in nanoseconds, [now] the answer of the clock. *)

From S2P Require Import Prelude.
Local Open Scope Z_scope.
Local Open Scope ringrtc_scope.

(** ** The ciphers *)

(** [hkdf_expand secret info]: HKDF-SHA256 without salt, 32 bytes;
    [apply_keystream key iv data]: AES-256-CTR; [hmac key data]: HMAC-SHA256. *)
Class FrameCipher : Type := {
  hkdf_expand : list Z -> list Z -> list Z;
  apply_keystream : list Z -> list Z -> list Z -> list Z;
  hmac : list Z -> list Z -> list Z;
}.

(** What they promise: a key stream is applied by exclusive or, and a MAC has 32
    bytes. *)
Class FrameCipherLaws `{FrameCipher} : Prop := {
  keystream_twice key iv data :
    apply_keystream key iv (apply_keystream key iv data) = data;
  keystream_length key iv data : length (apply_keystream key iv data) = length data;
  hmac_length key data : length (hmac key data) = 32%nat;
}.

(** ** Bytes *)

(** [to_be_bytes] of an [n]-byte integer, and back. *)
Fixpoint be_bytes (n : nat) (v : Z) : list Z :=
  match n with
  | O => []
  | S n => be_bytes n (v / 256) ++ [v mod 256]
  end.

Definition from_be_bytes (l : list Z) : Z := fold_left (fun v b => v * 256 + b) l 0.

Lemma be_bytes_length n v : length (be_bytes n v) = n.
Proof. revert v. induction n as [|n IH]; intros v; cbn; [done|]. rewrite length_app, IH. cbn. lia. Qed.

Lemma from_be_bytes_be_bytes n v :
  0 <= v < 256 ^ Z.of_nat n -> from_be_bytes (be_bytes n v) = v.
Proof.
  revert v. induction n as [|n IH]; intros v Hv.
  - cbn in *. lia.
  - unfold from_be_bytes in *. cbn [be_bytes]. rewrite fold_left_app. cbn [fold_left].
    rewrite Nat2Z.inj_succ, Z.pow_succ_r in Hv by lia.
    rewrite IH by (split; [apply Z.div_pos; lia|apply Z.div_lt_upper_bound; lia]).
    pose proof (Z.div_mod v 256). lia.
Qed.

(** ** Keys *)

Module FrameCrypto.
Section FrameCrypto.
Context `{FrameCipher}.

Definition Secret : Type := list Z.
Definition RatchetCounter : Type := Z.
Definition SenderId : Type := Z.
Definition FrameCounter : Type := Z.

Inductive Error : Type := NoMatchingReceiverState.

(** ASCII: "RingRTC Ratchet", "RingRTC AES Key", "RingRTC HMAC Key". *)
Definition RATCHET_INFO_STRING : list Z :=
  [82; 105; 110; 103; 82; 84; 67; 32; 82; 97; 116; 99; 104; 101; 116].
Definition AES_INFO_STRING : list Z :=
  [82; 105; 110; 103; 82; 84; 67; 32; 65; 69; 83; 32; 75; 101; 121].
Definition HMAC_INFO_STRING : list Z :=
  [82; 105; 110; 103; 82; 84; 67; 32; 72; 77; 65; 67; 32; 75; 101; 121].

Definition MAX_RECEIVER_STATES_TO_RETAIN : Z := 5.
Definition MAX_OOO_FRAMES : Z := 30 * 10.
Definition MAX_OOO_RATCHETS : Z := 5.
Definition MAC_SIZE_BYTES : Z := 16.

Record SenderState : Type := mkSenderState {
  current_aes_key : list Z;
  current_hmac_key : list Z;
  current_secret : Secret;
  ratchet_counter : RatchetCounter;
}.

#[global] Instance SenderState_eta : Eta SenderState := fun r =>
  mkSenderState (current_aes_key r) (current_hmac_key r) (current_secret r) (ratchet_counter r).

Definition derive_aes_key (s : SenderState) : SenderState :=
  s <| current_aes_key := hkdf_expand (current_secret s) AES_INFO_STRING |>.
Definition derive_hmac_key (s : SenderState) : SenderState :=
  s <| current_hmac_key := hkdf_expand (current_secret s) HMAC_INFO_STRING |>.

Definition sender_new (counter : RatchetCounter) (secret : Secret) : SenderState :=
  derive_hmac_key (derive_aes_key
    (mkSenderState (replicate 32 0) (replicate 32 0) secret counter)).

Definition mut_advance_ratchet (s : SenderState) : SenderState :=
  let s := s <| current_secret := hkdf_expand (current_secret s) RATCHET_INFO_STRING |> in
  let s := derive_hmac_key (derive_aes_key s) in
  s <| ratchet_counter := wrap 8 (ratchet_counter s + 1) |>.

Record ReceiverState : Type := mkReceiverState {
  rx_sender_state : SenderState;
  ratchet_frame : FrameCounter;
  old_secret : Secret;
  old_ratchet_counter : RatchetCounter;
}.

#[global] Instance ReceiverState_eta : Eta ReceiverState := fun r =>
  mkReceiverState (rx_sender_state r) (ratchet_frame r) (old_secret r) (old_ratchet_counter r).

Definition receiver_new (counter : RatchetCounter) (secret : Secret) : ReceiverState :=
  mkReceiverState (sender_new counter secret) 0 secret counter.

(** [while cur != ratchet_counter_goal]; the counters are bytes, so 256 rounds are
    enough. *)
Fixpoint ratchet_until (fuel : nat) (cur goal : RatchetCounter) (secret : Secret) : Secret :=
  match fuel with
  | O => secret
  | S fuel =>
    if cur =? goal then secret
    else ratchet_until fuel (wrap 8 (cur + 1)) goal (hkdf_expand secret RATCHET_INFO_STRING)
  end.

Definition try_advance_ratchet (s : ReceiverState) (ratchet_counter_goal : RatchetCounter)
    (frame_counter : FrameCounter) : ReceiverState :=
  let '(cur, secret) :=
    if frame_counter >? ratchet_frame s
    then (ratchet_counter (rx_sender_state s), current_secret (rx_sender_state s))
    else (old_ratchet_counter s, old_secret s) in
  let secret := ratchet_until 256 cur ratchet_counter_goal secret in
  let sender_state := sender_new ratchet_counter_goal secret in
  if frame_counter -64 ratchet_frame s >? MAX_OOO_FRAMES
  then mkReceiverState sender_state frame_counter
         (current_secret (rx_sender_state s)) (ratchet_counter (rx_sender_state s))
  else mkReceiverState sender_state frame_counter (old_secret s) (old_ratchet_counter s).

(** Again a loop on bytes. *)
Fixpoint limit_until (fuel : nat) (s : ReceiverState) : ReceiverState :=
  match fuel with
  | O => s
  | S fuel =>
    if wrap 8 (ratchet_counter (rx_sender_state s) - old_ratchet_counter s) >? MAX_OOO_RATCHETS
    then limit_until fuel
      (s <| old_secret := hkdf_expand (old_secret s) RATCHET_INFO_STRING |>
         <| old_ratchet_counter := wrap 8 (old_ratchet_counter s + 1) |>)
    else s
  end.

Definition limit_ooo (s : ReceiverState) : ReceiverState := limit_until 256 s.

(** ** Frames *)

Definition convert_frame_counter_to_iv (frame_counter : FrameCounter) : list Z :=
  be_bytes 8 frame_counter ++ replicate 8 0.

Definition len_as_u32_be_bytes (data : list Z) : list Z := be_bytes 4 (as_u32 (zlen data)).

(** The MAC that sender and receiver compute, cut to its length. *)
Definition frame_mac (s : SenderState) (frame_counter : FrameCounter) (data : list Z) : list Z :=
  take (Z.to_nat MAC_SIZE_BYTES)
    (hmac (current_hmac_key s)
      (convert_frame_counter_to_iv frame_counter ++ len_as_u32_be_bytes data ++ data ++ be_bytes 4 0)).

Definition check_mac (s : ReceiverState) (frame_counter : FrameCounter) (data mac : list Z) : bool :=
  bool_decide (frame_mac (rx_sender_state s) frame_counter data = mac).

Definition decrypt_internal (s : ReceiverState) (frame_counter : FrameCounter) (data : list Z) : list Z :=
  apply_keystream (current_aes_key (rx_sender_state s)) (convert_frame_counter_to_iv frame_counter) data.

(** ** Errors *)

Record DecryptionErrorStats : Type := mkStats {
  start_time : Z;
  last_time : Z;
  count : Z;
}.

#[global] Instance DecryptionErrorStats_eta : Eta DecryptionErrorStats := fun r =>
  mkStats (start_time r) (last_time r) (count r).

Definition stats_default (now : Z) : DecryptionErrorStats := mkStats now now 0.

Definition increment (now : Z) (s : DecryptionErrorStats) : DecryptionErrorStats :=
  let s := if count s =? 0 then s <| start_time := now |> else s in
  s <| last_time := now |> <| count := wrap 32 (count s + 1) |>.

Definition reset (s : DecryptionErrorStats) : DecryptionErrorStats := s <| count := 0 |>.

Record DecryptionErrorTracker : Type := mkTracker {
  error_stats : gmap SenderId DecryptionErrorStats;
  last_checked_time : Z;
}.

#[global] Instance DecryptionErrorTracker_eta : Eta DecryptionErrorTracker := fun r =>
  mkTracker (error_stats r) (last_checked_time r).

Definition increment_decryption_error (now : Z) (sender_id : SenderId) (t : DecryptionErrorTracker)
  : DecryptionErrorTracker :=
  t <| error_stats := <[sender_id := increment now
         (default (stats_default now) (error_stats t !! sender_id))]> (error_stats t) |>.

Definition get_report (now : Z) (t : DecryptionErrorTracker)
  : DecryptionErrorTracker * option (gmap SenderId DecryptionErrorStats) :=
  let ready := filter (fun p => last_time p.2 < last_checked_time t) (error_stats t) in
  let rest := filter (fun p => ~ last_time p.2 < last_checked_time t) (error_stats t) in
  let t := t <| last_checked_time := now |> in
  if bool_decide (ready = ∅) then (t, None) else (t <| error_stats := rest |>, Some ready).

(** ** The context *)

Record Context : Type := mkContext {
  sender_state : SenderState;
  next_frame_counter : FrameCounter;
  remote_states_by_id : gmap SenderId (list ReceiverState);
  decryption_error_tracker : DecryptionErrorTracker;
}.

#[global] Instance Context_eta : Eta Context := fun r =>
  mkContext (sender_state r) (next_frame_counter r) (remote_states_by_id r)
    (decryption_error_tracker r).

Notation FC := (ST Context Error).

Definition new (now : Z) (initial_send_secret : Secret) : Context :=
  mkContext (sender_new 0 initial_send_secret) 1 ∅ (mkTracker ∅ now).

(** The data is encrypted in place: the result has the ciphertext, the MAC and the
    counters. *)
Definition encrypt (data : list Z) : FC (list Z * list Z * (RatchetCounter * FrameCounter)) :=
  frame_counter ← gets next_frame_counter;
  modify (fun c => c <| next_frame_counter := frame_counter +64 1 |>) ;;
  s ← gets sender_state;
  let iv := convert_frame_counter_to_iv frame_counter in
  let data := apply_keystream (current_aes_key s) iv data in
  mret (data, frame_mac s frame_counter data, (ratchet_counter s, frame_counter)).

Definition states_of (sender_id : SenderId) (c : Context) : list ReceiverState :=
  default [] (remote_states_by_id c !! sender_id).

Definition set_states (sender_id : SenderId) (l : list ReceiverState) : FC unit :=
  modify (fun c => c <| remote_states_by_id := <[sender_id := l]> (remote_states_by_id c) |>).

(** [entry(..).or_insert_with(..)] *)
Definition get_mut_ref_state_vec_by_id (sender_id : SenderId) : FC (list ReceiverState) :=
  l ← gets (states_of sender_id);
  set_states sender_id l ;;
  mret l.

(** The first loop of [decrypt]. *)
Definition find_state (rc : RatchetCounter) (fc : FrameCounter) (data mac : list Z)
    (l : list ReceiverState) : option ReceiverState :=
  snd <$> list_find (fun s => (ratchet_counter (rx_sender_state s) =? rc) && check_mac s fc data mac = true) l.

(** The second loop. *)
Fixpoint try_states (rc : RatchetCounter) (fc : FrameCounter) (data mac : list Z)
    (l : list ReceiverState) : option (list ReceiverState * ReceiverState) :=
  match l with
  | [] => None
  | s :: l =>
    let try_state := try_advance_ratchet s rc fc in
    if check_mac try_state fc data mac then
      let s := limit_ooo try_state in Some (s :: l, s)
    else
      match try_states rc fc data mac l with
      | Some (l, s') => Some (s :: l, s')
      | None => None
      end
  end.

Definition decrypt (now : Z) (sender_id : SenderId) (rc : RatchetCounter) (fc : FrameCounter)
    (data mac : list Z) : FC (list Z) :=
  states ← get_mut_ref_state_vec_by_id sender_id;
  match find_state rc fc data mac states with
  | Some s => mret (decrypt_internal s fc data)
  | None =>
    match try_states rc fc data mac states with
    | Some (states, s) =>
      set_states sender_id states ;;
      mret (decrypt_internal s fc data)
    | None =>
      modify (fun c => c <| decryption_error_tracker :=
        increment_decryption_error now sender_id (decryption_error_tracker c) |>) ;;
      fail NoMatchingReceiverState
    end
  end.

Definition send_state (c : Context) : RatchetCounter * Secret :=
  (ratchet_counter (sender_state c), current_secret (sender_state c)).

Definition advance_send_ratchet : FC (RatchetCounter * Secret) :=
  modify (fun c => c <| sender_state := mut_advance_ratchet (sender_state c) |>) ;;
  gets send_state.

Definition reset_send_ratchet (secret : Secret) : FC unit :=
  modify (fun c => c <| sender_state := sender_new 0 secret |>).

Definition add_receive_secret (sender_id : SenderId) (rc : RatchetCounter) (secret : Secret) : FC unit :=
  states ← get_mut_ref_state_vec_by_id sender_id;
  let states :=
    if zlen states =? MAX_RECEIVER_STATES_TO_RETAIN then removelast states else states in
  set_states sender_id (receiver_new rc secret :: states).

Definition get_error_report (now : Z) : FC (option (gmap SenderId DecryptionErrorStats)) := fun c =>
  let '(t, r) := get_report now (decryption_error_tracker c) in
  (c <| decryption_error_tracker := t |>, Ok r).

Definition get_error_stats (c : Context) : gmap SenderId DecryptionErrorStats :=
  error_stats (decryption_error_tracker c).

End FrameCrypto.
End FrameCrypto.
