(* ===== verification/FrameFormat.v ===== *)
(** * The format of encrypted frames (src/rust/src/core/group_call.rs)

    A frame is the encrypted media, one byte of ratchet counter, four bytes of
    frame counter and 16 bytes of MAC.  [Writer] writes into a buffer from its
    start, [Reader] reads from the end of the data. *)

From S2P Require Import Prelude States FrameCrypto.
Local Open Scope Z_scope.
Local Open Scope ringrtc_scope.

(** ** [Writer] *)

Module Writer.

Record Writer : Type := mkWriter {
  buf : list Z;
  offset : Z;
}.

#[global] Instance Writer_eta : Eta Writer := fun r => mkWriter (buf r) (offset r).

Definition new (b : list Z) : Writer := mkWriter b 0.

Definition remaining_len (w : Writer) : Z := zlen (buf w) - offset w.

(** Replace the bytes from [start] on by [input]. *)
Definition copy_from_slice (start : Z) (input : list Z) (b : list Z) : list Z :=
  take (Z.to_nat start) b ++ input ++ drop (Z.to_nat start + length input) b.

(** The slice written is named by where it starts. *)
Definition write_slice (input : list Z) : ST Writer Error Z :=
  w ← get;
  if remaining_len w <? zlen input then fail RingRtcError.BufferTooSmall
  else
    let start := offset w in
    modify (fun w => w <| buf := copy_from_slice start input (buf w) |>
                       <| offset := start + zlen input |>) ;;
    mret start.

(** [memmove], which the model does not tell from a copy. *)
Definition write_slice_overlapping (input : list Z) : ST Writer Error Z := write_slice input.

Definition write_u8 (input : Z) : ST Writer Error unit :=
  w ← get;
  if remaining_len w <? 1 then fail RingRtcError.BufferTooSmall
  else modify (fun w => w <| buf := <[Z.to_nat (offset w) := input]> (buf w) |>
                          <| offset := offset w + 1 |>).

Definition write_u32 (input : Z) : ST Writer Error unit :=
  _ ← write_slice (be_bytes 4 input); ret_ok.

(** Change a slice in place. *)
Definition put_slice (start : Z) (data : list Z) : ST Writer Error unit :=
  modify (fun w => w <| buf := copy_from_slice start data (buf w) |>).

End Writer.

(** ** [Reader] *)

Module Reader.

Definition Reader : Type := list Z.

Definition read_slice_from_end (len : Z) : ST Reader Error (list Z) :=
  data ← get;
  if len >? zlen data then fail RingRtcError.BufferTooSmall
  else
    let at_ := Z.to_nat (zlen data - len) in
    modify (take at_) ;;
    mret (drop at_ data).

Definition read_u32_from_end : ST Reader Error Z :=
  l ← read_slice_from_end 4; mret (from_be_bytes l).

Definition read_u8_from_end : ST Reader Error Z :=
  data ← get;
  match last data with
  | Some x => modify (take (length data - 1)) ;; mret x
  | None => fail RingRtcError.BufferTooSmall
  end.

End Reader.

(** ** Frames *)

Module FrameFormat.
Import Writer Reader.
Section FrameFormat.
Context `{FrameCipher}.

Definition FRAME_ENCRYPTION_FOOTER_LEN : Z := 1 + 4 + 16.

Definition get_ciphertext_buffer_size (plaintext_size : Z) : Z :=
  Z.min USIZE_MAX (plaintext_size + FRAME_ENCRYPTION_FOOTER_LEN).

Definition get_plaintext_buffer_size (ciphertext_size : Z) : Z :=
  Z.max 0 (ciphertext_size - FRAME_ENCRYPTION_FOOTER_LEN).

(** The context and the buffers of one call. *)
Record Io : Type := mkIo {
  io_context : FrameCrypto.Context;
  io_writer : Writer;
  io_reader : Reader;
}.

Notation IO := (ST Io Error).

Definition on_context {A} (m : ST FrameCrypto.Context FrameCrypto.Error A) : IO A := fun io =>
  let '(c, r) := m (io_context io) in
  (mkIo c (io_writer io) (io_reader io),
   match r with
   | Ok a => Ok a
   | Err FrameCrypto.NoMatchingReceiverState =>
     Err (RingRtcError.Anyhow "no receiver state could be found matching the provided data")
   end).
Definition on_writer {A} (m : ST Writer Error A) : IO A := fun io =>
  let '(w, r) := m (io_writer io) in (mkIo (io_context io) w (io_reader io), r).
Definition on_reader {A} (m : ST Reader Error A) : IO A := fun io =>
  let '(d, r) := m (io_reader io) in (mkIo (io_context io) (io_writer io) d, r).

Definition encrypt (plaintext : list Z) : IO Z :=
  let ciphertext_size := get_ciphertext_buffer_size (zlen plaintext) in
  encrypted_payload ← on_writer (write_slice plaintext);
  '(data, mac, (ratchet_counter, frame_counter)) ← on_context (FrameCrypto.encrypt plaintext);
  on_writer (put_slice encrypted_payload data) ;;
  if frame_counter >? U32_MAX then fail RingRtcError.FrameCounterTooBig
  else
    on_writer (write_u8 ratchet_counter) ;;
    on_writer (write_u32 (as_u32 frame_counter)) ;;
    _ ← on_writer (write_slice mac);
    mret ciphertext_size.

(** The buffer is there also after an error. *)
Definition encrypt_media (plaintext ciphertext_buffer : list Z) (c : FrameCrypto.Context)
  : FrameCrypto.Context * list Z * result Z Error :=
  let '(io, r) := encrypt plaintext (mkIo c (Writer.new ciphertext_buffer) []) in
  (io_context io, buf (io_writer io), r).

Definition encrypt_data (plaintext : list Z) : ST FrameCrypto.Context Error (list Z) := fun c =>
  let ciphertext := replicate (Z.to_nat (get_ciphertext_buffer_size (zlen plaintext))) 0 in
  let '(c, ciphertext, r) := encrypt_media plaintext ciphertext c in
  (c, match r with Ok _ => Ok ciphertext | Err e => Err e end).

Definition decrypt (now : Z) (remote_demux_id : Z) : IO Z :=
  mac ← on_reader (read_slice_from_end 16);
  frame_counter ← on_reader read_u32_from_end;
  ratchet_counter ← on_reader read_u8_from_end;
  remaining ← on_reader get;
  encrypted_payload ← on_writer (write_slice_overlapping remaining);
  data ← on_context
    (FrameCrypto.decrypt now remote_demux_id ratchet_counter frame_counter remaining mac);
  on_writer (put_slice encrypted_payload data) ;;
  mret (zlen remaining).

Definition decrypt_media (now : Z) (remote_demux_id : Z) (ciphertext plaintext_buffer : list Z)
    (c : FrameCrypto.Context) : FrameCrypto.Context * list Z * result Z Error :=
  let '(io, r) := decrypt now remote_demux_id (mkIo c (Writer.new plaintext_buffer) ciphertext) in
  (io_context io, buf (io_writer io), r).

Definition decrypt_data (now : Z) (remote_demux_id : Z) (ciphertext : list Z)
  : ST FrameCrypto.Context Error (list Z) := fun c =>
  let plaintext := replicate (Z.to_nat (get_plaintext_buffer_size (zlen ciphertext))) 0 in
  let '(c, plaintext, r) := decrypt_media now remote_demux_id ciphertext plaintext c in
  (c, match r with Ok _ => Ok plaintext | Err e => Err e end).

(** ** What the functions do *)

Lemma copy_here a x b input :
  length input = length x ->
  copy_from_slice (zlen a) input (a ++ x ++ b) = a ++ input ++ b.
Proof.
  intros Hl. unfold copy_from_slice, zlen. rewrite Nat2Z.id, Hl, take_app_length.
  by rewrite <- drop_drop, drop_app_length, drop_app_length.
Qed.

(** Writing goes on behind what was written. *)
Lemma write_slice_run a x b input :
  length input = length x ->
  write_slice input (mkWriter (a ++ x ++ b) (zlen a)) =
    (mkWriter (a ++ input ++ b) (zlen a + zlen input), Ok (zlen a)).
Proof.
  intros Hl. unfold write_slice, mbind, ST_bind, get, remaining_len. cbn [buf offset].
  rewrite !zlen_app. destruct (Z.ltb_spec (zlen a + (zlen x + zlen b) - zlen a) (zlen input)) as [Hlt|].
  - unfold zlen in *. lia.
  - cbn. by rewrite copy_here.
Qed.

Lemma put_slice_run a x b o data :
  length data = length x ->
  put_slice (zlen a) data (mkWriter (a ++ x ++ b) o) = (mkWriter (a ++ data ++ b) o, Ok tt).
Proof. intros Hl. unfold put_slice, modify, set_field. cbn [buf offset]. by rewrite copy_here. Qed.

Lemma write_u8_run a x b v :
  write_u8 v (mkWriter (a ++ x :: b) (zlen a)) = (mkWriter (a ++ v :: b) (zlen a + 1), Ok tt).
Proof.
  unfold write_u8, mbind, ST_bind, get, remaining_len. cbn [buf offset].
  rewrite zlen_app, zlen_cons. pose proof (zlen_nonneg b).
  destruct (Z.ltb_spec (zlen a + (zlen b + 1) - zlen a) 1); [lia|].
  unfold modify, set_field, zlen. cbn [buf offset fst snd]. by rewrite Nat2Z.id, insert_app_r_alt, Nat.sub_diag by lia.
Qed.

Lemma write_u32_run a x b v :
  length x = 4%nat ->
  write_u32 v (mkWriter (a ++ x ++ b) (zlen a)) =
    (mkWriter (a ++ be_bytes 4 v ++ b) (zlen a + 4), Ok tt).
Proof.
  intros Hx. unfold write_u32, mbind, ST_bind. rewrite write_slice_run; [done|].
  by rewrite be_bytes_length, Hx.
Qed.

Lemma read_slice_run a b len :
  zlen b = len -> read_slice_from_end len (a ++ b) = (a, Ok b).
Proof.
  intros <-. unfold read_slice_from_end, mbind, ST_bind, get. rewrite zlen_app.
  pose proof (zlen_nonneg a). rewrite Z.gtb_ltb. destruct (Z.ltb_spec (zlen a + zlen b) (zlen b)); [lia|].
  replace (zlen a + zlen b - zlen b) with (zlen a) by lia. cbn. unfold zlen.
  by rewrite Nat2Z.id, take_app_length, drop_app_length.
Qed.

Lemma read_u8_run a x : read_u8_from_end (a ++ [x]) = (a, Ok x).
Proof.
  unfold read_u8_from_end, mbind, ST_bind, get. rewrite last_snoc. cbn.
  rewrite length_app. cbn. by rewrite Nat.add_sub, take_app_length.
Qed.

(** The bytes of a frame. *)
Definition frame_bytes (k : FrameCrypto.SenderState) (fc : Z) (plaintext : list Z) : list Z :=
  let data := apply_keystream (FrameCrypto.current_aes_key k)
    (FrameCrypto.convert_frame_counter_to_iv fc) plaintext in
  data ++ [FrameCrypto.ratchet_counter k] ++ be_bytes 4 fc ++ FrameCrypto.frame_mac k fc data.

Lemma frame_mac_length `{!FrameCipherLaws} k fc data :
  length (FrameCrypto.frame_mac k fc data) = 16%nat.
Proof. unfold FrameCrypto.frame_mac. rewrite length_take, hmac_length. done. Qed.

(** A buffer that is large enough, in parts. *)
Lemma split_frame n (b : list Z) :
  (n + 21 <= length b)%nat ->
  exists x1 y x2 x3 rest, b = x1 ++ [y] ++ x2 ++ x3 ++ rest /\
    length x1 = n /\ length x2 = 4%nat /\ length x3 = 16%nat.
Proof.
  intros Hn. rewrite <- (take_drop n b). destruct (drop n b) as [|y b'] eqn:Hd.
  { apply (f_equal length) in Hd. rewrite length_drop in Hd. cbn in Hd. lia. }
  apply (f_equal length) in Hd. rewrite length_drop in Hd. cbn in Hd.
  exists (take n b), y, (take 4 b'), (take 16 (drop 4 b')), (drop 16 (drop 4 b')).
  rewrite !take_drop, !length_take, length_drop. split_and!; [done|lia..].
Qed.

Lemma on_writer_run {A} (m : ST Writer Error A) c w r w' res :
  m w = (w', res) -> on_writer m (mkIo c w r) = (mkIo c w' r, res).
Proof. intros Hm. unfold on_writer. cbn. by rewrite Hm. Qed.

Lemma on_reader_run {A} (m : ST Reader Error A) c w r r' res :
  m r = (r', res) -> on_reader m (mkIo c w r) = (mkIo c w r', res).
Proof. intros Hm. unfold on_reader. cbn. by rewrite Hm. Qed.

Lemma encrypt_media_run `{!FrameCipherLaws} plaintext buffer c :
  let fc := FrameCrypto.next_frame_counter c in
  0 <= fc <= U32_MAX -> zlen plaintext + FRAME_ENCRYPTION_FOOTER_LEN <= zlen buffer ->
  encrypt_media plaintext buffer c =
    (c <| FrameCrypto.next_frame_counter := fc +64 1 |>,
     frame_bytes (FrameCrypto.sender_state c) fc plaintext ++
       drop (Z.to_nat (zlen plaintext + FRAME_ENCRYPTION_FOOTER_LEN)) buffer,
     Ok (get_ciphertext_buffer_size (zlen plaintext))).
Proof.
  intros fc Hfc Hlen.
  destruct (split_frame (length plaintext) buffer) as (x1 & y & x2 & x3 & rest & -> & H1 & H2 & H3).
  { unfold FRAME_ENCRYPTION_FOOTER_LEN, zlen in *. lia. }
  unfold encrypt_media, encrypt, Writer.new. set (k := FrameCrypto.sender_state c).
  set (data := apply_keystream (FrameCrypto.current_aes_key k)
    (FrameCrypto.convert_frame_counter_to_iv fc) plaintext).
  assert (length data = length plaintext) as Hdata by apply keystream_length.
  pose proof (write_slice_run [] x1 ([y] ++ x2 ++ x3 ++ rest) plaintext (eq_sym H1)) as Hw1.
  cbn [app] in Hw1. change (zlen []) with 0 in Hw1.
  rewrite (ST_bind_run _ _ _ _ _ (on_writer_run _ _ _ _ _ _ Hw1)).
  set (c' := c <| FrameCrypto.next_frame_counter := fc +64 1 |>).
  rewrite (ST_bind_run (on_context _) _ _ (mkIo c' (mkWriter (plaintext ++ [y] ++ x2 ++ x3 ++ rest)
    (0 + zlen plaintext)) []) (data, FrameCrypto.frame_mac k fc data,
      (FrameCrypto.ratchet_counter k, fc))) by done. cbv beta iota.
  pose proof (put_slice_run [] plaintext ([y] ++ x2 ++ x3 ++ rest) (0 + zlen plaintext) data Hdata) as Hp.
  cbn [app] in Hp. change (zlen []) with 0 in Hp.
  rewrite (ST_bind_run _ _ _ _ _ (on_writer_run _ _ _ _ _ _ Hp)).
  rewrite Z.gtb_ltb. destruct (Z.ltb_spec U32_MAX fc); [lia|].
  replace (0 + zlen plaintext) with (zlen data) by (unfold zlen; lia).
  rewrite (ST_bind_run _ _ _ _ _ (on_writer_run _ _ _ _ _ _
    (write_u8_run data y (x2 ++ x3 ++ rest) (FrameCrypto.ratchet_counter k)))).
  rewrite (cons_middle (FrameCrypto.ratchet_counter k : Z)), app_assoc.
  set (a2 := data ++ [FrameCrypto.ratchet_counter k : Z]).
  replace (zlen data + 1) with (zlen a2) by (unfold a2; by rewrite zlen_app).
  rewrite (ST_bind_run _ _ _ _ _ (on_writer_run _ _ _ _ _ _ (write_u32_run a2 x2 (x3 ++ rest) _ H2))).
  rewrite app_assoc. set (a3 := a2 ++ be_bytes 4 (as_u32 fc)).
  replace (zlen a2 + 4) with (zlen a3)
    by (unfold a3; rewrite zlen_app; unfold zlen at 2; by rewrite be_bytes_length).
  rewrite (ST_bind_run _ _ _ _ _ (on_writer_run _ _ _ _ _ _ (write_slice_run a3 x3 rest _
    (eq_trans (frame_mac_length k fc data) (eq_sym H3))))).
  cbn [mret ST_ret io_context io_writer buf]. f_equal. f_equal. unfold frame_bytes. fold data.
  unfold a3, a2, as_u32. rewrite wrap_small by (unfold U32_MAX in *; lia).
  rewrite <- !app_assoc. do 4 f_equal. symmetry. unfold FRAME_ENCRYPTION_FOOTER_LEN, zlen.
  rewrite (app_assoc x2), (app_assoc [y]), (app_assoc x1).
  apply drop_app_length'. rewrite !length_app. cbn. lia.
Qed.

Lemma encrypt_data_run `{!FrameCipherLaws} plaintext c :
  let fc := FrameCrypto.next_frame_counter c in
  0 <= fc <= U32_MAX -> zlen plaintext + FRAME_ENCRYPTION_FOOTER_LEN <= USIZE_MAX ->
  encrypt_data plaintext c =
    (c <| FrameCrypto.next_frame_counter := fc +64 1 |>,
     Ok (frame_bytes (FrameCrypto.sender_state c) fc plaintext)).
Proof.
  intros fc Hfc Hlen. unfold encrypt_data.
  assert (get_ciphertext_buffer_size (zlen plaintext) = zlen plaintext + FRAME_ENCRYPTION_FOOTER_LEN)
    as Hsize by (unfold get_ciphertext_buffer_size; lia).
  pose proof (zlen_nonneg plaintext). rewrite Hsize, encrypt_media_run; [|done|].
  - rewrite drop_ge, app_nil_r; [done|]. rewrite length_replicate. lia.
  - unfold zlen at 2. rewrite length_replicate. unfold FRAME_ENCRYPTION_FOOTER_LEN in *. lia.
Qed.

(** Frames that are too short are refused; the others are taken apart. *)
Lemma decrypt_data_run now id data rc fc mac c c' res :
  length mac = 16%nat -> 0 <= fc <= U32_MAX ->
  FrameCrypto.decrypt now id rc fc data mac c = (c', res) ->
  (forall p, res = Ok p -> length p = length data) ->
  decrypt_data now id (data ++ [rc] ++ be_bytes 4 fc ++ mac) c =
    (c', match res with
         | Ok p => Ok p
         | Err _ => Err (RingRtcError.Anyhow
             "no receiver state could be found matching the provided data")
         end).
Proof.
  intros Hmac Hfc Hdec Hres. unfold decrypt_data.
  assert (get_plaintext_buffer_size (zlen (data ++ [rc] ++ be_bytes 4 fc ++ mac)) = zlen data) as ->.
  { unfold get_plaintext_buffer_size, FRAME_ENCRYPTION_FOOTER_LEN. rewrite !zlen_app.
    unfold zlen. rewrite be_bytes_length, Hmac. cbn. lia. }
  unfold decrypt_media, decrypt, Writer.new. rewrite !app_assoc.
  rewrite (ST_bind_run _ _ _ _ _ (on_reader_run _ _ _ _ _ _
    (read_slice_run _ mac 16 ltac:(unfold zlen; by rewrite Hmac)))).
  assert (read_u32_from_end ((data ++ [rc]) ++ be_bytes 4 fc) = (data ++ [rc], Ok fc)) as Hr.
  { unfold read_u32_from_end, mbind, ST_bind. rewrite read_slice_run
      by (unfold zlen; by rewrite be_bytes_length).
    cbn [mret ST_ret]. rewrite from_be_bytes_be_bytes; [done|]. unfold U32_MAX in Hfc. cbn. lia. }
  rewrite (ST_bind_run _ _ _ _ _ (on_reader_run _ _ _ _ _ _ Hr)).
  rewrite (ST_bind_run _ _ _ _ _ (on_reader_run _ _ _ _ _ _ (read_u8_run data rc))).
  rewrite (ST_bind_run _ _ _ _ _ (on_reader_run get _ _ data data (Ok data) eq_refl)).
  set (z := replicate (Z.to_nat (zlen data)) 0).
  assert (length data = length z) as Hz by (unfold z, zlen; rewrite length_replicate; lia).
  pose proof (write_slice_run [] z [] data Hz) as Hw. rewrite !app_nil_r in Hw. cbn [app] in Hw.
  change (zlen []) with 0 in Hw.
  rewrite (ST_bind_run _ _ _ _ _ (on_writer_run (write_slice_overlapping data) _ _ _ _ _ Hw)).
  destruct res as [p|[]].
  - rewrite (ST_bind_run (on_context _) _ _ (mkIo c' (mkWriter data (0 + zlen data)) data) p)
      by (unfold on_context; cbn [io_context io_writer io_reader]; by rewrite Hdec).
    pose proof (put_slice_run [] data [] (0 + zlen data) p (Hres p eq_refl)) as Hp.
    rewrite !app_nil_r in Hp. cbn [app] in Hp. change (zlen []) with 0 in Hp.
    by rewrite (ST_bind_run _ _ _ _ _ (on_writer_run _ _ _ _ _ _ Hp)).
  - by rewrite (ST_bind_err (on_context _) _ _ (mkIo c' (mkWriter data (0 + zlen data)) data)
      (RingRtcError.Anyhow "no receiver state could be found matching the provided data"))
      by (unfold on_context; cbn [io_context io_writer io_reader]; by rewrite Hdec).
Qed.

End FrameFormat.
End FrameFormat.
