(* ===== verification/FrameDelivery.v ===== *)
(** * Encrypted frames reach their receivers

    What a sender encrypts, a receiver that got the sender's key decrypts: also
    when frames are lost, when the sender ratchets its key, and when a frame comes
    late.  No two frames use the same key stream. *)

From S2P Require Import Prelude States FrameCrypto FrameFormat.
From Stdlib Require Import Sorted.
Local Open Scope Z_scope.
Local Open Scope ringrtc_scope.

Module FrameDelivery.
Import FrameCrypto Writer Reader FrameFormat.

Section Delivery.
Context `{FrameCipher} `{!FrameCipherLaws}.

#[local] Arguments Nat.iter : simpl never.

(** ** The chain of secrets *)

Definition ratchet (s : Secret) : Secret := hkdf_expand s RATCHET_INFO_STRING.
Definition chain (s0 : Secret) (i : nat) : Secret := Nat.iter i ratchet s0.
Definition counter_at (rc0 : RatchetCounter) (i : nat) : RatchetCounter := wrap 8 (rc0 + Z.of_nat i).
Definition key_at (rc0 : RatchetCounter) (s0 : Secret) (i : nat) : SenderState :=
  sender_new (counter_at rc0 i) (chain s0 i).

Lemma chain_add s0 i n : Nat.iter n ratchet (chain s0 i) = chain s0 (n + i).
Proof. unfold chain. by rewrite <- Nat.iter_add. Qed.

Lemma counter_at_range rc0 i : 0 <= counter_at rc0 i < 256.
Proof. apply Z.mod_pos_bound. lia. Qed.

Lemma counter_at_succ rc0 i : wrap 8 (counter_at rc0 i + 1) = counter_at rc0 (S i).
Proof. unfold counter_at, wrap. rewrite Zplus_mod_idemp_l. f_equal. lia. Qed.

Lemma counter_at_add rc0 i n : wrap 8 (counter_at rc0 i + Z.of_nat n) = counter_at rc0 (i + n).
Proof. unfold counter_at, wrap. rewrite Zplus_mod_idemp_l. f_equal. lia. Qed.

Lemma counter_at_diff rc0 i j n :
  Z.of_nat i + Z.of_nat n = Z.of_nat j \/ Z.of_nat i + Z.of_nat n = Z.of_nat j + 256 ->
  (n < 256)%nat ->
  (counter_at rc0 j - counter_at rc0 i) mod 256 = Z.of_nat n.
Proof.
  intros Hd Hn. unfold counter_at, wrap. change (2 ^ 8) with 256.
  rewrite <- Zminus_mod. destruct Hd as [Hd|Hd].
  - replace (rc0 + Z.of_nat j - (rc0 + Z.of_nat i)) with (Z.of_nat n) by lia.
    apply Z.mod_small. lia.
  - replace (rc0 + Z.of_nat j - (rc0 + Z.of_nat i)) with (Z.of_nat n + (-1) * 256) by lia.
    rewrite Z.mod_add by lia. apply Z.mod_small. lia.
Qed.

Lemma counter_at_inj rc0 i j :
  (i <= j)%nat -> (j < i + 256)%nat -> counter_at rc0 i = counter_at rc0 j -> i = j.
Proof.
  intros Hij Hj He. pose proof (counter_at_diff rc0 i j (j - i) ltac:(lia) ltac:(lia)) as Hd.
  rewrite He, Z.sub_diag in Hd. change (0 mod 256) with 0 in Hd. lia.
Qed.

Lemma advance_key_at rc0 s0 i : mut_advance_ratchet (key_at rc0 s0 i) = key_at rc0 s0 (S i).
Proof.
  unfold mut_advance_ratchet, key_at, sender_new, derive_hmac_key, derive_aes_key. cbn.
  by rewrite counter_at_succ.
Qed.

Lemma key_at_0 rc0 s0 : 0 <= rc0 < 256 -> key_at rc0 s0 0 = sender_new rc0 s0.
Proof. intros Hrc. unfold key_at, counter_at. rewrite wrap_small; [|cbn; lia]. by rewrite Z.add_0_r. Qed.

(** ** The loops *)

Lemma ratchet_until_steps n fuel cur goal s :
  (n < fuel)%nat -> 0 <= cur < 256 -> 0 <= goal < 256 -> (goal - cur) mod 256 = Z.of_nat n ->
  ratchet_until fuel cur goal s = Nat.iter n ratchet s.
Proof.
  revert fuel cur s. induction n as [|n IH]; intros [|fuel] cur s Hf Hc Hg Hd; try lia; cbn [ratchet_until].
  - assert (cur = goal) as ->; [|by rewrite Z.eqb_refl].
    apply Z.mod_divide in Hd as [q Hq]; [|lia]. lia.
  - destruct (Z.eqb_spec cur goal) as [->|Hne]; [rewrite Z.sub_diag, Zmod_0_l in Hd; lia|].
    rewrite IH; [|lia|apply Z.mod_pos_bound; lia|done|].
    + change (hkdf_expand s RATCHET_INFO_STRING) with (ratchet s). symmetry. apply Nat.iter_succ_r.
    + unfold wrap. change (2 ^ 8) with 256. rewrite Zminus_mod_idemp_r.
      replace (goal - (cur + 1)) with ((goal - cur) - 1) by lia.
      rewrite Zminus_mod, Hd. change (1 mod 256) with 1.
      pose proof (Z.mod_pos_bound (goal - cur) 256). rewrite Z.mod_small; lia.
Qed.

(** From counter to counter along the chain; going back goes all the way round. *)
Lemma ratchet_until_chain rc0 s0 i j n :
  Z.of_nat i + Z.of_nat n = Z.of_nat j \/ Z.of_nat i + Z.of_nat n = Z.of_nat j + 256 ->
  (n < 256)%nat ->
  ratchet_until 256 (counter_at rc0 i) (counter_at rc0 j) (chain s0 i) = chain s0 (i + n).
Proof.
  intros Hd Hn. rewrite (ratchet_until_steps n); [|lia|apply counter_at_range..|by apply counter_at_diff].
  rewrite chain_add. f_equal. lia.
Qed.

(** The old secret follows at most five ratchets behind. *)
Lemma limit_until_steps n fuel s d :
  (n < fuel)%nat -> 0 <= old_ratchet_counter s < 256 ->
  wrap 8 (ratchet_counter (rx_sender_state s) - old_ratchet_counter s) = d ->
  n = Z.to_nat (d - MAX_OOO_RATCHETS) ->
  limit_until fuel s =
    s <| old_secret := Nat.iter n ratchet (old_secret s) |>
      <| old_ratchet_counter := wrap 8 (old_ratchet_counter s + Z.of_nat n) |>.
Proof.
  unfold MAX_OOO_RATCHETS. revert fuel s d.
  induction n as [|n IH]; intros [|fuel] s d Hf Ho Hd Hn; try lia; cbn [limit_until]; rewrite Hd;
    unfold MAX_OOO_RATCHETS.
  - rewrite Z.gtb_ltb. destruct (Z.ltb_spec 5 d); [lia|].
    rewrite Z.add_0_r, wrap_small by lia. by destruct s.
  - rewrite Z.gtb_ltb. destruct (Z.ltb_spec 5 d); [|lia].
    rewrite (IH _ _ (d - 1)); [|lia|cbn; apply Z.mod_pos_bound; lia| |lia].
    + unfold set_field. cbn. f_equal.
      * change (hkdf_expand (old_secret s) RATCHET_INFO_STRING) with (ratchet (old_secret s)).
        by rewrite <- Nat.iter_succ_r.
      * unfold wrap. rewrite Zplus_mod_idemp_l. f_equal. lia.
    + cbn. unfold wrap in *. change (2 ^ 8) with 256 in *. rewrite Zminus_mod_idemp_r.
      replace (ratchet_counter (rx_sender_state s) - (old_ratchet_counter s + 1))
        with (ratchet_counter (rx_sender_state s) - old_ratchet_counter s - 1) by lia.
      rewrite Zminus_mod, Hd. change (1 mod 256) with 1.
      pose proof (Z.mod_pos_bound (ratchet_counter (rx_sender_state s) - old_ratchet_counter s) 256).
      rewrite Z.mod_small; lia.
Qed.

(** ** Receivers on the chain *)

Section Chain.
Context (rc0 : RatchetCounter) (s0 : Secret).

(** The receiver has the [i]-th secret since frame [f], and keeps the [o]-th. *)
Definition at_ (i o : nat) (f : FrameCounter) : ReceiverState :=
  mkReceiverState (key_at rc0 s0 i) f (chain s0 o) (counter_at rc0 o).

Lemma receiver_new_at : 0 <= rc0 < 256 -> receiver_new rc0 s0 = at_ 0 0 0.
Proof.
  intros Hrc. unfold receiver_new, at_. rewrite key_at_0 by done. f_equal.
  unfold counter_at. rewrite wrap_small; cbn; lia.
Qed.

(** Where the old secret is after [limit_ooo], [n] ratchets further. *)
Lemma limit_at i o f d :
  (Z.of_nat o + Z.of_nat d = Z.of_nat i \/ Z.of_nat o + Z.of_nat d = Z.of_nat i + 256) ->
  (d < 256)%nat ->
  limit_ooo (at_ i o f) = at_ i (o + (d - 5)) f.
Proof.
  intros Hd Hlt. unfold limit_ooo.
  rewrite (limit_until_steps (d - 5) _ _ (Z.of_nat d)); unfold MAX_OOO_RATCHETS.
  - unfold at_. cbn [old_secret old_ratchet_counter]. cbn. rewrite chain_add, counter_at_add.
    by rewrite Nat.add_comm.
  - lia.
  - apply counter_at_range.
  - cbn. unfold wrap. change (2 ^ 8) with 256. by apply counter_at_diff.
  - lia.
Qed.

(** A frame after the last change of the key. *)
Lemma advance_forward i j o f fc :
  fc > f -> (i <= j)%nat -> (j < i + 256)%nat -> 0 <= f -> fc < 2 ^ 64 ->
  try_advance_ratchet (at_ i o f) (counter_at rc0 j) fc =
    at_ j (if fc - f >? MAX_OOO_FRAMES then i else o) fc.
Proof.
  intros Hfc Hij Hj Hf Hfc64. unfold try_advance_ratchet. cbn [at_ ratchet_frame rx_sender_state].
  rewrite Z.gtb_ltb. destruct (Z.ltb_spec f fc); [|lia].
  change (ratchet_counter (key_at rc0 s0 i)) with (counter_at rc0 i).
  change (current_secret (key_at rc0 s0 i)) with (chain s0 i).
  rewrite (ratchet_until_chain rc0 s0 i j (j - i)) by lia.
  replace (i + (j - i))%nat with j by lia. rewrite u64_sub_small by lia.
  by destruct (fc - f >? MAX_OOO_FRAMES).
Qed.

(** A late frame: the old secret is used, and then the newer one is kept as the old
    one, since the difference of the frame counters wraps around. *)
Lemma advance_late i j o f fc n :
  fc < f -> 0 <= fc -> f <= U32_MAX ->
  Z.of_nat o + Z.of_nat n = Z.of_nat j \/ Z.of_nat o + Z.of_nat n = Z.of_nat j + 256 ->
  (n < 256)%nat ->
  try_advance_ratchet (at_ i o f) (counter_at rc0 j) fc =
    mkReceiverState (sender_new (counter_at rc0 j) (chain s0 (o + n))) fc (chain s0 i) (counter_at rc0 i).
Proof.
  intros Hfc Hfc0 Hf Hn Hlt. unfold try_advance_ratchet. cbn [at_ ratchet_frame rx_sender_state
    old_secret old_ratchet_counter].
  rewrite Z.gtb_ltb. destruct (Z.ltb_spec f fc); [lia|].
  rewrite (ratchet_until_chain rc0 s0 o j n) by done.
  assert (fc -64 f = fc - f + 2 ^ 64) as ->.
  { unfold u64_sub, wrap. rewrite <- (Z.mod_add _ 1) by lia.
    unfold U32_MAX in Hf. apply Z.mod_small. lia. }
  rewrite Z.gtb_ltb. unfold MAX_OOO_FRAMES, U32_MAX in *.
  destruct (Z.ltb_spec (30 * 10) (fc - f + 2 ^ 64)); [done|lia].
Qed.

(** ** Frames of the sender *)

Record Entry : Type := mkEntry {
  e_index : nat;
  e_fc : FrameCounter;
  e_plain : list Z;
  e_bytes : list Z;
}.

(** A frame encrypted with the [e_index]-th secret. *)
Definition good (e : Entry) : Prop :=
  e_bytes e = frame_bytes (key_at rc0 s0 (e_index e)) (e_fc e) (e_plain e) /\
  0 < e_fc e <= U32_MAX.

Definition ciphertext (e : Entry) : list Z :=
  apply_keystream (current_aes_key (key_at rc0 s0 (e_index e)))
    (convert_frame_counter_to_iv (e_fc e)) (e_plain e).
Definition tag (e : Entry) : list Z :=
  frame_mac (key_at rc0 s0 (e_index e)) (e_fc e) (ciphertext e).

(** No secret of this state gives the MAC of the frame, as it is or advanced. *)
Definition rejects (e : Entry) (s : ReceiverState) : Prop :=
  check_mac s (e_fc e) (ciphertext e) (tag e) = false /\
  check_mac (try_advance_ratchet s (counter_at rc0 (e_index e)) (e_fc e)) (e_fc e) (ciphertext e)
    (tag e) = false.

Lemma find_state_rejected e l :
  Forall (rejects e) l ->
  find_state (counter_at rc0 (e_index e)) (e_fc e) (ciphertext e) (tag e) l = None.
Proof.
  intros Hl. unfold find_state. rewrite (proj2 (list_find_None _ _)); [done|].
  eapply Forall_impl; [done|]. intros s [Hs _]. by rewrite Hs, andb_false_r.
Qed.

Lemma try_states_rejected e l :
  Forall (rejects e) l ->
  try_states (counter_at rc0 (e_index e)) (e_fc e) (ciphertext e) (tag e) l = None.
Proof. induction 1 as [|s l [_ Hs] _ IH]; cbn [try_states]; [done|]. by rewrite Hs, IH. Qed.

Lemma check_mac_key e s :
  rx_sender_state s = key_at rc0 s0 (e_index e) ->
  check_mac s (e_fc e) (ciphertext e) (tag e) = true.
Proof. intros Hs. unfold check_mac. rewrite Hs. by apply bool_decide_true. Qed.

Lemma decrypt_internal_key e s :
  rx_sender_state s = key_at rc0 s0 (e_index e) ->
  decrypt_internal s (e_fc e) (ciphertext e) = e_plain e.
Proof. intros Hs. unfold decrypt_internal, ciphertext. rewrite Hs. apply keystream_twice. Qed.

Lemma limit_until_keeps n s : rx_sender_state (limit_until n s) = rx_sender_state s /\
  ratchet_frame (limit_until n s) = ratchet_frame s.
Proof.
  revert s. induction n as [|n IH]; intros s; cbn [limit_until]; [done|].
  destruct (_ >? _); [|done]. destruct (IH (s <| old_secret := hkdf_expand (old_secret s) RATCHET_INFO_STRING |>
    <| old_ratchet_counter := wrap 8 (old_ratchet_counter s + 1) |>)) as [-> ->]. done.
Qed.

(** The state after a frame was decrypted with it. *)
Definition next_state (s : ReceiverState) (e : Entry) : ReceiverState :=
  if ratchet_counter (rx_sender_state s) =? counter_at rc0 (e_index e) then s
  else limit_ooo (try_advance_ratchet s (counter_at rc0 (e_index e)) (e_fc e)).

(** The receiver can get from its state to the key of the frame. *)
Definition can_reach (s : ReceiverState) (e : Entry) : Prop :=
  (ratchet_counter (rx_sender_state s) = counter_at rc0 (e_index e) ->
   rx_sender_state s = key_at rc0 s0 (e_index e)) /\
  (ratchet_counter (rx_sender_state s) <> counter_at rc0 (e_index e) ->
   rx_sender_state (try_advance_ratchet s (counter_at rc0 (e_index e)) (e_fc e)) =
     key_at rc0 s0 (e_index e)).

Lemma find_state_cons rc fc data mac s l :
  find_state rc fc data mac (s :: l) =
    if (ratchet_counter (rx_sender_state s) =? rc) && check_mac s fc data mac then Some s
    else find_state rc fc data mac l.
Proof.
  unfold find_state. cbn [list_find]. destruct (_ && _) eqn:Hc; [by rewrite decide_True|].
  rewrite decide_False by done. by destruct (list_find _ l) as [[]|].
Qed.

Lemma get_states_run id c :
  get_mut_ref_state_vec_by_id id c =
    (c <| remote_states_by_id := <[id := states_of id c]> (remote_states_by_id c) |>,
     Ok (states_of id c)).
Proof. done. Qed.

Lemma decrypt_entry now id e s l c :
  good e -> states_of id c = s :: l -> Forall (rejects e) l -> can_reach s e ->
  exists c', decrypt_data now id (e_bytes e) c = (c', Ok (e_plain e)) /\
    states_of id c' = next_state s e :: l.
Proof.
  intros [Hb Hfc] Hst Hrej [Hsame Hadv].
  assert (exists c', FrameCrypto.decrypt now id (counter_at rc0 (e_index e)) (e_fc e) (ciphertext e)
    (tag e) c = (c', Ok (e_plain e)) /\ states_of id c' = next_state s e :: l) as (c' & Hdec & Hc').
  { unfold FrameCrypto.decrypt. rewrite (ST_bind_run _ _ _ _ _ (get_states_run id c)), Hst.
    rewrite find_state_cons. unfold next_state.
    destruct (Z.eqb_spec (ratchet_counter (rx_sender_state s)) (counter_at rc0 (e_index e))) as [He|Hne];
      cbn [andb].
    - rewrite check_mac_key by auto. eexists. split; [by rewrite decrypt_internal_key by auto|].
      unfold states_of. cbn. by rewrite lookup_insert_eq.
    - rewrite find_state_rejected by done. cbn [try_states].
      rewrite check_mac_key by auto.
      assert (rx_sender_state (limit_ooo (try_advance_ratchet s (counter_at rc0 (e_index e)) (e_fc e))) =
        key_at rc0 s0 (e_index e)) as Hkey.
      { unfold limit_ooo.
        rewrite (proj1 (limit_until_keeps 256 (try_advance_ratchet s (counter_at rc0 (e_index e)) (e_fc e)))).
        auto. }
      set (s' := limit_ooo _) in *. clearbody s'. eexists. split; [by rewrite decrypt_internal_key by auto|].
      unfold states_of. cbn. by rewrite lookup_insert_eq. }
  exists c'. split; [|done]. rewrite Hb. unfold frame_bytes.
  rewrite (decrypt_data_run now id _ _ _ _ c c' (Ok (e_plain e))); [done|apply frame_mac_length|lia|exact Hdec|].
  intros p [= <-]. unfold ciphertext. by rewrite keystream_length.
Qed.

(** *** In order *)

(** The receiver has had the [i]-th secret since frame [f]. *)
Definition has_key (i : nat) (f : FrameCounter) (s : ReceiverState) : Prop :=
  rx_sender_state s = key_at rc0 s0 i /\ ratchet_frame s = f.

Lemma forward_key i f s e :
  has_key i f s -> f < e_fc e -> (i <= e_index e)%nat -> (e_index e < i + 256)%nat ->
  has_key (e_index e) (e_fc e) (try_advance_ratchet s (counter_at rc0 (e_index e)) (e_fc e)).
Proof.
  intros [Hk Hf] Hfc Hi Hj. unfold try_advance_ratchet. rewrite Hk, Hf.
  rewrite Z.gtb_ltb. destruct (Z.ltb_spec f (e_fc e)); [|lia].
  change (ratchet_counter (key_at rc0 s0 i)) with (counter_at rc0 i).
  change (current_secret (key_at rc0 s0 i)) with (chain s0 i).
  rewrite (ratchet_until_chain rc0 s0 i (e_index e) (e_index e - i)) by lia.
  replace (i + (e_index e - i))%nat with (e_index e) by lia.
  by destruct (_ >? _).
Qed.

Lemma forward_reach i f s e :
  has_key i f s -> f < e_fc e -> (i <= e_index e)%nat -> (e_index e < i + 256)%nat -> can_reach s e.
Proof.
  intros Hk Hf Hi Hj. split.
  - destruct Hk as [-> _]. intros He. apply (counter_at_inj rc0 i (e_index e)) in He; [|done..].
    by subst i.
  - intros _. by apply (forward_key i f).
Qed.

Lemma forward_next i f s e :
  has_key i f s -> f < e_fc e -> (i <= e_index e)%nat -> (e_index e < i + 256)%nat ->
  exists f', has_key (e_index e) f' (next_state s e) /\ f' <= e_fc e.
Proof.
  intros Hk Hf Hi Hj. unfold next_state.
  destruct (Z.eqb_spec (ratchet_counter (rx_sender_state s)) (counter_at rc0 (e_index e))) as [He|_].
  - exists f. split; [|lia]. pose proof (forward_reach i f s e Hk Hf Hi Hj) as [Hsame _].
    split; [by apply Hsame|]. apply Hk.
  - exists (e_fc e). split; [|lia]. pose proof (forward_key i f s e Hk Hf Hi Hj) as [Hk' Hf'].
    unfold limit_ooo.
    destruct (limit_until_keeps 256 (try_advance_ratchet s (counter_at rc0 (e_index e)) (e_fc e))) as [H1 H2].
    split; congruence.
Qed.

(** Later frames have greater counters and are not encrypted with older secrets. *)
Definition later (e e' : Entry) : Prop :=
  e_fc e < e_fc e' /\ (e_index e <= e_index e')%nat.

(** Fewer than 256 ratchets between two frames that arrive. *)
Fixpoint gaps_below (n : nat) (i : nat) (l : list Entry) : Prop :=
  match l with
  | [] => True
  | e :: l => (e_index e < i + n)%nat /\ gaps_below n (e_index e) l
  end.

Fixpoint receive_all (now id : Z) (l : list (list Z)) (c : Context)
  : Context * list (result (list Z) RingRtcError.RingRtcError) :=
  match l with
  | [] => (c, [])
  | b :: l =>
    let '(c, r) := decrypt_data now id b c in
    let '(c, rs) := receive_all now id l c in (c, r :: rs)
  end.

Lemma receive_in_order now id l i f s others c :
  has_key i f s -> states_of id c = s :: others ->
  Forall (fun e => good e /\ f < e_fc e /\ (i <= e_index e)%nat /\ Forall (rejects e) others) l ->
  StronglySorted later l -> gaps_below 256 i l ->
  exists c', receive_all now id (e_bytes <$> l) c = (c', Ok ∘ e_plain <$> l) /\
    exists s', states_of id c' = s' :: others.
Proof.
  revert i f s c. induction l as [|e l IH]; intros i f s c Hk Hst Hl Hso Hg.
  - exists c. split; [done|]. by exists s.
  - apply Forall_cons in Hl as [(Hgood & Hf & Hi & Hrej) Hl]. destruct Hg as [Hg Hgs].
    apply StronglySorted_inv in Hso as [Hso Hlater].
    destruct (decrypt_entry now id e s others c) as (c1 & Hdec & Hst1);
      [done|done|done|by eapply forward_reach|].
    destruct (forward_next i f s e Hk Hf Hi Hg) as (f' & Hk' & Hf').
    destruct (IH (e_index e) f' (next_state s e) c1) as (c' & Hrec & Hst'); [done|done| |done|done|].
    + rewrite Forall_forall in Hl, Hlater. apply Forall_forall. intros e' He'.
      destruct (Hl e' He') as (? & _ & _ & ?). destruct (Hlater e' He'). split_and!; [done|lia|lia|done].
    + exists c'. split; [|done]. cbn [fmap list_fmap receive_all].
      change (list_fmap _ _ e_bytes l) with (e_bytes <$> l). by rewrite Hdec, Hrec.
Qed.

(** *** Late frames *)

Lemma later_total L e e' :
  StronglySorted later L -> e ∈ L -> e' ∈ L -> later e e' \/ e = e' \/ later e' e.
Proof.
  induction 1 as [|x L _ IH Hx]; [by intros ?%elem_of_nil|]. rewrite Forall_forall in Hx.
  intros [->|He]%elem_of_cons [->|He']%elem_of_cons; auto.
Qed.

(** What a receiver that got frames of the log [L] in order knows: it has had the
    [i]-th secret since frame [f] and keeps the [o]-th, which is enough for the
    frames of the last 300 and the last five ratchets before. *)
Record covers (L : list Entry) (i o : nat) (f : FrameCounter) : Prop := {
  cov_old : (o <= i)%nat /\ (i <= o + 5)%nat;
  cov_frame : 0 <= f <= U32_MAX;
  cov_after e : e ∈ L -> f < e_fc e -> (i <= e_index e)%nat;
  cov_at e : e ∈ L -> e_fc e = f -> e_index e = i;
  cov_before e : e ∈ L -> e_fc e < f -> (e_index e <= i)%nat;
  cov_keep e : e ∈ L -> f - MAX_OOO_FRAMES <= e_fc e -> (i <= e_index e + 5)%nat -> (o <= e_index e)%nat;
}.

Lemma covers_step L i o f e :
  StronglySorted later L -> e ∈ L -> good e -> covers L i o f -> f < e_fc e ->
  (e_index e < i + 251)%nat ->
  exists o' f', next_state (at_ i o f) e = at_ (e_index e) o' f' /\ f' <= e_fc e /\
    covers L (e_index e) o' f'.
Proof.
  intros HL He [_ Hfc] Hcov Hf Hj. pose proof Hcov as [[Ho Ho5] Hf0 Haft Hat Hbef Hkeep].
  pose proof (Haft e He Hf) as Hi. unfold U32_MAX, MAX_OOO_FRAMES in *. unfold next_state.
  change (ratchet_counter (rx_sender_state (at_ i o f))) with (counter_at rc0 i).
  destruct (Z.eqb_spec (counter_at rc0 i) (counter_at rc0 (e_index e))) as [Heq|Hne].
  { apply counter_at_inj in Heq; [|lia..]. subst i. exists o, f. split_and!; [done|lia|done]. }
  assert (i < e_index e)%nat as Hlt.
  { destruct (decide (i = e_index e)); [subst i; done|lia]. }
  rewrite advance_forward by (unfold U32_MAX in *; lia). unfold MAX_OOO_FRAMES.
  set (o1 := if e_fc e - f >? 30 * 10 then i else o).
  assert (o <= o1 <= i)%nat as Ho1 by (unfold o1; destruct (_ >? _); lia).
  rewrite (limit_at (e_index e) o1 _ (e_index e - o1)) by lia.
  exists (o1 + (e_index e - o1 - 5))%nat, (e_fc e). split_and!; [done|lia|].
  split; unfold U32_MAX, MAX_OOO_FRAMES.
  - lia.
  - lia.
  - intros e' He' Hf'. destruct (later_total L e e' HL He He') as [[]|[<-|[]]]; lia.
  - intros e' He' Hf'. destruct (later_total L e e' HL He He') as [[]|[<-|[]]]; lia.
  - intros e' He' Hf'. destruct (later_total L e e' HL He He') as [[]|[<-|[]]]; lia.
  - intros e' He' Hf' Hi'. assert (o1 <= e_index e')%nat; [|lia]. unfold o1 in *.
    rewrite Z.gtb_ltb in *. destruct (Z.ltb_spec (30 * 10) (e_fc e - f)).
    + apply Haft; [done|lia].
    + apply Hkeep; [done|lia|lia].
Qed.

(** Such a receiver can decrypt a frame that was overtaken. *)
Lemma covers_reach L i o f e :
  e ∈ L -> good e -> covers L i o f -> (e_index e <= i)%nat -> (i <= e_index e + 5)%nat ->
  f - MAX_OOO_FRAMES <= e_fc e -> can_reach (at_ i o f) e.
Proof.
  intros He [_ Hfc] [[Ho Ho5] Hf0 Haft Hat Hbef Hkeep] Hle Hi5 Hf. split.
  - intros Heq. symmetry in Heq. apply counter_at_inj in Heq; [|lia..]. by subst i.
  - intros Hne. assert (i <> e_index e) as Hni by (intros Hi; subst i; by apply Hne).
    destruct (Z.lt_trichotomy (e_fc e) f) as [Hlt|[Heq|Hgt]].
    + pose proof (Hkeep e He Hf Hi5). rewrite (advance_late i (e_index e) o f (e_fc e) (e_index e - o)) by lia.
      cbn [rx_sender_state]. unfold key_at. do 2 f_equal. lia.
    + by apply Hat in Heq.
    + apply Haft in Hgt; [lia|done].
Qed.

Lemma covers_nothing L : Forall good L -> covers L 0 0 0.
Proof.
  intros HL. rewrite Forall_forall in HL. split; unfold U32_MAX; try lia;
    intros e He Hf; destruct (HL e He) as [_ ?]; lia.
Qed.

(** After frames in order, the receiver still covers the log. *)
Lemma receive_covers now id L l i o f others c :
  StronglySorted later L -> Forall good L -> covers L i o f -> states_of id c = at_ i o f :: others ->
  Forall (fun e => e ∈ L /\ f < e_fc e /\ (i <= e_index e)%nat /\ Forall (rejects e) others) l ->
  StronglySorted later l -> gaps_below 251 i l ->
  exists c' i' o' f', receive_all now id (e_bytes <$> l) c = (c', Ok ∘ e_plain <$> l) /\
    states_of id c' = at_ i' o' f' :: others /\ covers L i' o' f' /\
    i' = (match last l with Some e => e_index e | None => i end) /\
    f' <= (match last l with Some e => e_fc e | None => f end).
Proof.
  intros HL HgL. revert i o f c. induction l as [|e l IH]; intros i o f c Hcov Hst Hl Hso Hg.
  - exists c, i, o, f. split_and!; done.
  - apply Forall_cons in Hl as [(He & Hf & Hi & Hrej) Hl]. destruct Hg as [Hg Hgs].
    apply StronglySorted_inv in Hso as [Hso Hlater].
    assert (good e) as Hgood by (by rewrite Forall_forall in HgL; apply HgL).
    destruct (decrypt_entry now id e (at_ i o f) others c) as (c1 & Hdec & Hst1); [done|done|done| |].
    { eapply (forward_reach i f); [by split|lia|lia|lia]. }
    destruct (covers_step L i o f e) as (o1 & f1 & Hn & Hf1 & Hcov1); [done..|].
    rewrite Hn in Hst1.
    destruct (IH (e_index e) o1 f1 c1) as (c' & i' & o' & f' & Hrec & Hst' & Hcov' & Hi' & Hf');
      [done|done| |done|done|].
    + rewrite Forall_forall in Hl, Hlater. apply Forall_forall. intros e' He'.
      destruct (Hl e' He') as (? & _ & _ & ?). destruct (Hlater e' He'). split_and!; [done|lia|lia|done].
    + exists c', i', o', f'. split_and!; [|done|done|..].
      * cbn [fmap list_fmap receive_all].
        change (list_fmap _ _ e_bytes l) with (e_bytes <$> l). by rewrite Hdec, Hrec.
      * rewrite Hi', last_cons. by destruct (last l).
      * rewrite last_cons. destruct (last l); lia.
Qed.

(** *** After a late frame *)

(** The newer secret is kept as the old one, and then moved on, as if it was behind. *)
Lemma next_state_late i j o f e :
  e_index e = j -> e_fc e < f -> 0 < e_fc e -> f <= U32_MAX ->
  (o <= j)%nat -> (j < i)%nat -> (i <= o + 5)%nat ->
  next_state (at_ i o f) e = at_ j (j + 251) (e_fc e).
Proof.
  intros <- Hf Hfc Hf32 Ho Hi Hio. unfold next_state.
  change (ratchet_counter (rx_sender_state (at_ i o f))) with (counter_at rc0 i).
  destruct (Z.eqb_spec (counter_at rc0 i) (counter_at rc0 (e_index e))) as [Heq|_].
  { symmetry in Heq. apply counter_at_inj in Heq; lia. }
  rewrite (advance_late i (e_index e) o f (e_fc e) (e_index e - o)) by lia.
  replace (o + (e_index e - o))%nat with (e_index e) by lia.
  change (mkReceiverState _ _ _ _) with (at_ (e_index e) i (e_fc e)).
  rewrite (limit_at (e_index e) i _ (256 - (i - e_index e))) by lia. f_equal. lia.
Qed.

(** The next frame with the newer secret does not change that. *)
Lemma next_state_after_late i j f e :
  e_index e = j -> f < e_fc e -> e_fc e - f <= MAX_OOO_FRAMES -> 0 <= f -> e_fc e <= U32_MAX ->
  (i < j)%nat -> (j <= i + 5)%nat ->
  next_state (at_ i (i + 251) f) e = at_ j (j + 251) (e_fc e).
Proof.
  intros <- Hf Hw Hf0 Hf32 Hij Hj. unfold next_state.
  change (ratchet_counter (rx_sender_state (at_ i (i + 251) f))) with (counter_at rc0 i).
  destruct (Z.eqb_spec (counter_at rc0 i) (counter_at rc0 (e_index e))) as [Heq|_].
  { apply counter_at_inj in Heq; lia. }
  rewrite advance_forward by (unfold U32_MAX in *; lia).
  rewrite Z.gtb_ltb. destruct (Z.ltb_spec MAX_OOO_FRAMES (e_fc e - f)); [lia|].
  rewrite (limit_at (e_index e) (i + 251) _ (5 + (e_index e - i))) by lia. f_equal. lia.
Qed.

(** A frame that no state of the receiver accepts. *)
Lemma decrypt_rejected now id e c :
  good e -> Forall (rejects e) (states_of id c) ->
  exists c', decrypt_data now id (e_bytes e) c =
    (c', Err (RingRtcError.Anyhow "no receiver state could be found matching the provided data")).
Proof.
  intros [Hb Hfc] Hrej.
  assert (exists c', FrameCrypto.decrypt now id (counter_at rc0 (e_index e)) (e_fc e) (ciphertext e)
    (tag e) c = (c', Err NoMatchingReceiverState)) as [c' Hdec].
  { unfold FrameCrypto.decrypt. rewrite (ST_bind_run _ _ _ _ _ (get_states_run id c)).
    rewrite find_state_rejected, try_states_rejected by done. by eexists. }
  exists c'. rewrite Hb. unfold frame_bytes.
  rewrite (decrypt_data_run now id _ _ _ _ c c' (Err NoMatchingReceiverState));
    [done|apply frame_mac_length|lia|exact Hdec|done].
Qed.

(** The state goes all the way round for a second late frame. *)
Lemma rejects_late i f e :
  e_fc e < f -> 0 < e_fc e -> f <= U32_MAX -> (e_index e < i)%nat -> (i <= e_index e + 5)%nat ->
  frame_mac (sender_new (counter_at rc0 i) (chain s0 i)) (e_fc e) (ciphertext e) <> tag e ->
  frame_mac (sender_new (counter_at rc0 (e_index e)) (chain s0 (e_index e + 256))) (e_fc e) (ciphertext e)
    <> tag e ->
  rejects e (at_ i (i + 251) f).
Proof.
  intros Hf Hfc Hf32 Hi Hi5 Hm1 Hm2. split; unfold check_mac; apply bool_decide_false; [done|].
  rewrite (advance_late i (e_index e) (i + 251) f (e_fc e) (e_index e + 5 - i)) by lia.
  cbn [rx_sender_state]. by replace (i + 251 + (e_index e + 5 - i))%nat with (e_index e + 256)%nat by lia.
Qed.

(** ** The sender *)

Inductive SendOp : Type :=
  | SendFrame (plaintext : list Z)
  | AdvanceRatchet.

(** What the sender does after it told the receiver its [i]-th secret, and the
    frames that come of it. *)
Fixpoint send_all (ops : list SendOp) (i : nat) (c : Context) : Context * list Entry :=
  match ops with
  | [] => (c, [])
  | SendFrame p :: ops =>
    let '(c', r) := encrypt_data p c in
    let '(c'', l) := send_all ops i c' in
    (c'', match r with
          | Ok b => mkEntry i (next_frame_counter c) p b :: l
          | Err _ => l
          end)
  | AdvanceRatchet :: ops => send_all ops (S i) (advance_send_ratchet c).1
  end.

Definition sendable (o : SendOp) : Prop :=
  match o with
  | SendFrame p => zlen p + FRAME_ENCRYPTION_FOOTER_LEN <= USIZE_MAX
  | AdvanceRatchet => True
  end.

Lemma advance_run c :
  (advance_send_ratchet c).1 = c <| sender_state := mut_advance_ratchet (sender_state c) |>.
Proof. done. Qed.

(** All frames are sent, in the order of their counters and secrets. *)
Lemma send_all_log ops i c :
  sender_state c = key_at rc0 s0 i -> 1 <= next_frame_counter c ->
  next_frame_counter c + zlen ops <= U32_MAX -> Forall sendable ops ->
  let l := (send_all ops i c).2 in
  Forall good l /\ StronglySorted later l /\
  Forall (fun e => next_frame_counter c <= e_fc e /\ (i <= e_index e)%nat) l /\
  e_plain <$> l = omap (fun o => match o with SendFrame p => Some p | AdvanceRatchet => None end) ops.
Proof.
  revert i c. induction ops as [|[p|] ops IH]; intros i c Hk Hn Hmax Hops; cbn [send_all].
  - cbn. split_and!; try done; constructor.
  - apply Forall_cons in Hops as [Hp Hops]. rewrite zlen_cons in Hmax. pose proof (zlen_nonneg ops).
    rewrite encrypt_data_run by (done || lia).
    set (c' := c <| next_frame_counter := _ |>).
    assert (next_frame_counter c' = next_frame_counter c + 1) as Hn'.
    { unfold c'. cbn. apply u64_add_small. unfold U32_MAX in *. lia. }
    destruct (IH i c') as (Hg & Hso & Hall & Hpl); [done|lia|lia|done|].
    destruct (send_all ops i c') as [c'' l]. cbn [snd] in *. rewrite Hn' in Hall.
    split_and!.
    + constructor; [|done]. split; cbn; [by rewrite Hk|lia].
    + constructor; [done|]. eapply Forall_impl; [done|]. intros e [? ?]. split; cbn; lia.
    + constructor; [cbn; lia|]. eapply Forall_impl; [done|]. intros e [? ?]. lia.
    + cbn [fmap list_fmap omap list_omap]. by f_equal.
  - apply Forall_cons in Hops as [_ Hops]. rewrite zlen_cons in Hmax.
    rewrite advance_run. set (c' := c <| sender_state := _ |>).
    destruct (IH (S i) c') as (Hg & Hso & Hall & Hpl); [|done|cbn; lia|done|].
    { unfold c'. cbn [sender_state]. unfold set_field. cbn [sender_state]. rewrite Hk. apply advance_key_at. }
    split_and!; [done|done| |done]. eapply Forall_impl; [done|]. intros e [? ?]. cbn in *. split; [done|lia].
Qed.

End Chain.

End Delivery.
End FrameDelivery.
