(* ===== verification/FrameContext.v ===== *)
(** * Frame crypto contexts over their life

    Any sequence of operations of a context: its counters, the keys that it keeps,
    and the frames that pass between two contexts. *)

From S2P Require Import Prelude States FrameCrypto FrameFormat FrameDelivery.
From Stdlib Require Import Sorted.
Local Open Scope Z_scope.
Local Open Scope ringrtc_scope.

Module FrameContext.
Import FrameCrypto FrameFormat FrameDelivery.

Section Context_.
Context `{FrameCipher} `{!FrameCipherLaws}.

#[local] Arguments Nat.iter : simpl never.

(** ** Operations *)

Inductive ContextOp : Type :=
  | OpEncrypt (data : list Z)
  | OpAdvance
  | OpReset (secret : Secret)
  | OpAddReceive (id : SenderId) (rc : RatchetCounter) (secret : Secret)
  | OpDecrypt (now : Z) (id : SenderId) (rc : RatchetCounter) (fc : FrameCounter) (data mac : list Z)
  | OpReport (now : Z).

Definition run_op (o : ContextOp) (c : Context) : Context :=
  match o with
  | OpEncrypt data => (FrameCrypto.encrypt data c).1
  | OpAdvance => (advance_send_ratchet c).1
  | OpReset secret => (reset_send_ratchet secret c).1
  | OpAddReceive id rc secret => (add_receive_secret id rc secret c).1
  | OpDecrypt now id rc fc data mac => (FrameCrypto.decrypt now id rc fc data mac c).1
  | OpReport now => (get_error_report now c).1
  end.

Definition run_ops (ops : list ContextOp) (c : Context) : Context :=
  fold_left (fun c o => run_op o c) ops c.

(** Ratchet counters on the wire are bytes. *)
Definition op_ok (o : ContextOp) : Prop :=
  match o with
  | OpAddReceive _ rc _ | OpDecrypt _ _ rc _ _ _ => 0 <= rc < 256
  | _ => True
  end.

(** ** What a context keeps *)

(** The derived keys belong to the secret. *)
Definition sender_ok (s : SenderState) : Prop :=
  0 <= ratchet_counter s < 256 /\ s = sender_new (ratchet_counter s) (current_secret s).

(** The old secret is at most five ratchets behind. *)
Definition receiver_ok (s : ReceiverState) : Prop :=
  sender_ok (rx_sender_state s) /\ 0 <= old_ratchet_counter s < 256 /\
  wrap 8 (ratchet_counter (rx_sender_state s) - old_ratchet_counter s) <= MAX_OOO_RATCHETS.

Record context_ok (c : Context) : Prop := {
  ok_sender : sender_ok (sender_state c);
  ok_count id : zlen (states_of id c) <= MAX_RECEIVER_STATES_TO_RETAIN;
  ok_states id : Forall receiver_ok (states_of id c);
}.

Lemma sender_new_ok rc s : 0 <= rc < 256 -> sender_ok (sender_new rc s).
Proof. by split. Qed.

Lemma mut_advance_ok s : sender_ok s -> sender_ok (mut_advance_ratchet s).
Proof.
  intros [Hrc ->]. split; [|done]. apply Z.mod_pos_bound. lia.
Qed.

Lemma limit_ooo_old s :
  0 <= old_ratchet_counter s < 256 ->
  let d := wrap 8 (ratchet_counter (rx_sender_state s) - old_ratchet_counter s) in
  old_ratchet_counter (limit_ooo s) =
    wrap 8 (old_ratchet_counter s + Z.max 0 (d - MAX_OOO_RATCHETS)).
Proof.
  intros Ho d. assert (0 <= d < 256) as Hd by (apply Z.mod_pos_bound; lia).
  unfold limit_ooo. rewrite (limit_until_steps (Z.to_nat (d - MAX_OOO_RATCHETS)) 256 s d);
    [|unfold MAX_OOO_RATCHETS; lia|done..].
  cbn. f_equal. unfold MAX_OOO_RATCHETS. lia.
Qed.

Lemma limit_ooo_ok s :
  sender_ok (rx_sender_state s) -> 0 <= old_ratchet_counter s < 256 -> receiver_ok (limit_ooo s).
Proof.
  intros Hs Ho. unfold receiver_ok. rewrite limit_ooo_old by done.
  assert (rx_sender_state (limit_ooo s) = rx_sender_state s) as -> by apply limit_until_keeps.
  split_and!; [done|apply Z.mod_pos_bound; lia..|].
  set (rc := ratchet_counter _). set (old := old_ratchet_counter s) in *.
  assert (0 <= wrap 8 (rc - old) < 256) as Hd by (apply Z.mod_pos_bound; lia).
  set (m := Z.max 0 _).
  assert (wrap 8 (rc - wrap 8 (old + m)) = wrap 8 (rc - old) - m) as ->.
  { unfold wrap. rewrite Zminus_mod_idemp_r. replace (rc - (old + m)) with (rc - old - m) by lia.
    rewrite <- Zminus_mod_idemp_l. apply Z.mod_small.
    unfold m, wrap, MAX_OOO_RATCHETS in *. lia. }
  unfold m, MAX_OOO_RATCHETS. lia.
Qed.

Lemma receiver_new_ok rc s : 0 <= rc < 256 -> receiver_ok (receiver_new rc s).
Proof.
  intros Hrc. split_and!; [by apply sender_new_ok|cbn; lia..|].
  cbn. rewrite Z.sub_diag. done.
Qed.

Lemma try_advance_ok s rc fc :
  receiver_ok s -> 0 <= rc < 256 -> receiver_ok (limit_ooo (try_advance_ratchet s rc fc)).
Proof.
  intros (Hs & Ho & _) Hrc. unfold try_advance_ratchet.
  destruct (fc >? ratchet_frame s), (fc -64 ratchet_frame s >? MAX_OOO_FRAMES);
    apply limit_ooo_ok; cbn [rx_sender_state old_ratchet_counter];
    [by apply sender_new_ok|by destruct Hs|by apply sender_new_ok|done..|
     by apply sender_new_ok|by destruct Hs|by apply sender_new_ok|done].
Qed.

Lemma try_states_ok rc fc data mac l l' s :
  try_states rc fc data mac l = Some (l', s) -> Forall receiver_ok l -> 0 <= rc < 256 ->
  length l' = length l /\ Forall receiver_ok l'.
Proof.
  revert l' s. induction l as [|x l IH]; intros l' s; cbn [try_states]; [done|].
  set (t := limit_ooo _). intros Ht Hl Hrc. apply Forall_cons in Hl as [Hx Hl].
  assert (receiver_ok t) as Hok by (by apply try_advance_ok). clearbody t.
  destruct (check_mac _ _ _ _); simplify_eq; [by split; [|constructor]|].
  destruct (try_states rc fc data mac l) as [[l1 s1]|]; simplify_eq.
  destruct (IH l1 s eq_refl Hl Hrc) as [Hlen Hall]. split; [cbn; by rewrite Hlen|by constructor].
Qed.

(** ** The invariant *)

Lemma set_states_of id l id' c :
  states_of id' (c <| remote_states_by_id := <[id := l]> (remote_states_by_id c) |>) =
    if decide (id = id') then l else states_of id' c.
Proof.
  unfold states_of. cbn. destruct (decide (id = id')) as [->|Hne].
  - by rewrite lookup_insert_eq.
  - by rewrite lookup_insert_ne.
Qed.

Lemma context_ok_set id l c :
  context_ok c -> zlen l <= MAX_RECEIVER_STATES_TO_RETAIN -> Forall receiver_ok l ->
  context_ok (c <| remote_states_by_id := <[id := l]> (remote_states_by_id c) |>).
Proof.
  intros Hc Hlen Hall. split; [apply Hc|..]; intros id'; rewrite set_states_of;
    destruct (decide _); (done || apply Hc).
Qed.

Lemma context_ok_same c c' :
  context_ok c -> sender_ok (sender_state c') -> remote_states_by_id c' = remote_states_by_id c ->
  context_ok c'.
Proof.
  intros Hc Hs Hr. split; [done|..]; intros id; unfold states_of; rewrite Hr; apply Hc.
Qed.

Lemma decrypt_ok now id rc fc data mac c :
  context_ok c -> 0 <= rc < 256 -> context_ok (FrameCrypto.decrypt now id rc fc data mac c).1.
Proof.
  intros Hc Hrc. unfold FrameCrypto.decrypt. rewrite (ST_bind_run _ _ _ _ _ (get_states_run id c)).
  pose proof (context_ok_set id _ c Hc (ok_count c Hc id) (ok_states c Hc id)) as Hc1.
  set (c1 := c <| remote_states_by_id := _ |>) in *. clearbody c1.
  destruct (find_state _ _ _ _ _); [done|].
  destruct (try_states _ _ _ _ _) as [[l s]|] eqn:Ht.
  - apply try_states_ok in Ht as [Hlen Hall]; [|apply Hc|done].
    apply context_ok_set; [done| |done]. unfold zlen. rewrite Hlen. apply Hc.
  - by apply (context_ok_same c1); [|apply Hc1|].
Qed.

Lemma add_receive_ok id rc secret c :
  context_ok c -> 0 <= rc < 256 -> context_ok (add_receive_secret id rc secret c).1.
Proof.
  intros Hc Hrc. unfold add_receive_secret. rewrite (ST_bind_run _ _ _ _ _ (get_states_run id c)).
  pose proof (context_ok_set id _ c Hc (ok_count c Hc id) (ok_states c Hc id)) as Hc1.
  set (c1 := c <| remote_states_by_id := _ |>) in *. clearbody c1.
  pose proof (ok_count c Hc id) as Hn. pose proof (ok_states c Hc id) as Hall.
  apply context_ok_set; [done|..].
  - rewrite zlen_cons. unfold MAX_RECEIVER_STATES_TO_RETAIN in *.
    destruct (Z.eqb_spec (zlen (states_of id c)) 5) as [He|Hne]; [|lia].
    unfold zlen in *. rewrite removelast_firstn_len, length_take. lia.
  - constructor; [by apply receiver_new_ok|]. destruct (_ =? _); [|done].
    rewrite removelast_firstn_len. by apply Forall_take.
Qed.

Lemma run_op_ok o c : context_ok c -> op_ok o -> context_ok (run_op o c).
Proof.
  intros Hc Ho. destruct o; cbn [run_op].
  - by apply (context_ok_same c); [|apply Hc|].
  - by apply (context_ok_same c); [|apply mut_advance_ok, Hc|].
  - by apply (context_ok_same c); [|apply sender_new_ok|].
  - by apply add_receive_ok.
  - by apply decrypt_ok.
  - unfold get_error_report. destruct (get_report _ _) as [t r].
    by apply (context_ok_same c); [|apply Hc|].
Qed.

Lemma new_ok now secret : context_ok (new now secret).
Proof. split; [by apply sender_new_ok|done|by constructor]. Qed.

Lemma run_ops_ok ops c : context_ok c -> Forall op_ok ops -> context_ok (run_ops ops c).
Proof.
  intros Hc Hops. revert c Hc. induction Hops as [|o ops Ho _ IH]; intros c Hc; [done|].
  apply IH. by apply run_op_ok.
Qed.

(** ** Frame counters *)

(** Only encryption takes a number. *)
Definition takes (o : ContextOp) : Z := match o with OpEncrypt _ => 1 | _ => 0 end.

Lemma decrypt_keeps_sender now id rc fc data mac c :
  next_frame_counter (FrameCrypto.decrypt now id rc fc data mac c).1 = next_frame_counter c.
Proof.
  unfold FrameCrypto.decrypt. rewrite (ST_bind_run _ _ _ _ _ (get_states_run id c)).
  destruct (find_state _ _ _ _ _); [done|]. by destruct (try_states _ _ _ _ _) as [[]|].
Qed.

Lemma run_op_counter o c :
  0 <= next_frame_counter c -> next_frame_counter c + 1 < 2 ^ 64 ->
  next_frame_counter (run_op o c) = next_frame_counter c + takes o.
Proof.
  intros Hlo Hhi. destruct o; cbn [run_op takes]; rewrite ?Z.add_0_r; try done.
  - cbn. apply u64_add_small. lia.
  - apply decrypt_keeps_sender.
  - unfold get_error_report. by destruct (get_report _ _).
Qed.

Lemma run_ops_counter ops c :
  0 <= next_frame_counter c -> next_frame_counter c + zlen ops < 2 ^ 64 ->
  next_frame_counter c <= next_frame_counter (run_ops ops c) <= next_frame_counter c + zlen ops.
Proof.
  revert c. induction ops as [|o ops IH]; intros c Hlo Hhi; [change (zlen []) with 0; cbn; lia|].
  rewrite zlen_cons in *. pose proof (zlen_nonneg ops).
  pose proof (run_op_counter o c ltac:(lia) ltac:(lia)) as Ho.
  assert (0 <= takes o <= 1) by (destruct o; cbn; lia).
  change (run_ops (o :: ops) c) with (run_ops ops (run_op o c)).
  specialize (IH (run_op o c)). lia.
Qed.

(** The counters of the frames that are encrypted. *)
Fixpoint frame_counters (ops : list ContextOp) (c : Context) : list FrameCounter :=
  match ops with
  | [] => []
  | o :: ops =>
    match o with
    | OpEncrypt data =>
      match (FrameCrypto.encrypt data c).2 with Ok (_, _, (_, fc)) => [fc] | Err _ => [] end
    | _ => []
    end ++ frame_counters ops (run_op o c)
  end.

Lemma frame_counters_sorted ops c :
  0 <= next_frame_counter c -> next_frame_counter c + zlen ops < 2 ^ 64 ->
  StronglySorted Z.lt (frame_counters ops c) /\
  Forall (fun f => next_frame_counter c <= f < 2 ^ 64) (frame_counters ops c).
Proof.
  revert c. induction ops as [|o ops IH]; intros c Hlo Hhi; [split; constructor|].
  rewrite zlen_cons in *. pose proof (zlen_nonneg ops).
  pose proof (run_op_counter o c ltac:(lia) ltac:(lia)) as Ho.
  assert (0 <= takes o <= 1) by (destruct o; cbn; lia).
  destruct (IH (run_op o c) ltac:(lia) ltac:(lia)) as [Hs Hall]. rewrite Ho in Hall.
  cbn [frame_counters]. set (rest := frame_counters ops (run_op o c)) in *. clearbody rest.
  destruct o; cbn [takes] in *; [|split; [exact Hs|eapply Forall_impl; [exact Hall|]; cbn; lia]..].
  cbn. split; constructor; [done| |lia|]; eapply Forall_impl; try exact Hall; cbn; lia.
Qed.

(** The [k]-th counter block of AES-256-CTR with a 64-bit counter ([Ctr64BE]). *)
Definition counter_block (iv : list Z) (k : Z) : list Z :=
  take 8 iv ++ be_bytes 8 (wrap 64 (from_be_bytes (drop 8 iv) + k)).

Lemma be_bytes_inj n v w :
  0 <= v < 256 ^ Z.of_nat n -> 0 <= w < 256 ^ Z.of_nat n -> be_bytes n v = be_bytes n w -> v = w.
Proof.
  intros Hv Hw He. rewrite <- (from_be_bytes_be_bytes n v Hv), <- (from_be_bytes_be_bytes n w Hw).
  by rewrite He.
Qed.

Lemma counter_block_iv fc k :
  0 <= k < 2 ^ 64 -> counter_block (convert_frame_counter_to_iv fc) k = be_bytes 8 fc ++ be_bytes 8 k.
Proof.
  intros Hk. unfold counter_block, convert_frame_counter_to_iv.
  rewrite take_app_length', drop_app_length' by (by rewrite be_bytes_length).
  change (from_be_bytes (replicate 8 0)) with 0. by rewrite Z.add_0_l, wrap_small.
Qed.

Lemma counter_block_inj fc fc' k l :
  0 <= fc < 2 ^ 64 -> 0 <= fc' < 2 ^ 64 -> 0 <= k < 2 ^ 64 -> 0 <= l < 2 ^ 64 ->
  counter_block (convert_frame_counter_to_iv fc) k = counter_block (convert_frame_counter_to_iv fc') l ->
  fc = fc' /\ k = l.
Proof.
  intros Hf Hf' Hk Hl He. rewrite !counter_block_iv in He by done.
  apply app_inj_1 in He as [He1 He2]; [|by rewrite !be_bytes_length].
  split; apply (be_bytes_inj 8); done.
Qed.

Lemma StronglySorted_lookup_lt l a b f g :
  StronglySorted Z.lt l -> l !! a = Some f -> l !! b = Some g -> (a < b)%nat -> f < g.
Proof.
  intros Hs. revert a b. induction Hs as [|x l Hs IH Hx]; intros a b Ha Hb Hab; [done|].
  destruct b as [|b]; [lia|]. destruct a as [|a]; cbn in *; simplify_eq.
  - rewrite Forall_lookup in Hx. eauto.
  - apply (IH a b); [done|done|lia].
Qed.

(** ** The theorems *)

(** C21. No part of a key stream is used twice.  Over the life of a context (any
    operations, fewer than 2^64 of them: encryption, decryption, ratchets, new
    secrets), two counter blocks that encrypt data are the same only if they are
    the same block of the same frame; this does not rely on the keys being
    different after a ratchet or a reset. *)
Theorem key_stream_is_used_once now secret ops a b f g k l :
  zlen ops < 2 ^ 64 - 1 ->
  let fcs := frame_counters ops (new now secret) in
  fcs !! a = Some f -> fcs !! b = Some g -> 0 <= k < 2 ^ 64 -> 0 <= l < 2 ^ 64 ->
  counter_block (convert_frame_counter_to_iv f) k = counter_block (convert_frame_counter_to_iv g) l ->
  a = b /\ k = l.
Proof.
  intros Hops fcs Ha Hb Hk Hl He.
  destruct (frame_counters_sorted ops (new now secret)) as [Hs Hall]; [done|cbn; lia|].
  fold fcs in Hs, Hall. rewrite Forall_lookup in Hall.
  pose proof (Hall _ _ Ha) as Hf. pose proof (Hall _ _ Hb) as Hg. cbn in Hf, Hg.
  apply counter_block_inj in He as [<- <-]; [|lia..]. split; [|done].
  destruct (Nat.lt_trichotomy a b) as [Hab|[Hab|Hab]]; [|done|];
    [pose proof (StronglySorted_lookup_lt fcs a b f f Hs Ha Hb Hab)
    |pose proof (StronglySorted_lookup_lt fcs b a f f Hs Hb Ha Hab)]; lia.
Qed.

(** What a context keeps is bounded, so old frames stay secret: whatever is
    encrypted, received, ratcheted or reset, there are at most five keys for each
    sender, each keeps an old secret at most five ratchets behind its current one,
    and the AES and HMAC keys are those of the current secret. *)
Theorem retained_keys_are_bounded now secret ops id s :
  Forall op_ok ops ->
  let c := run_ops ops (new now secret) in
  s ∈ states_of id c ->
  zlen (states_of id c) <= MAX_RECEIVER_STATES_TO_RETAIN /\
  wrap 8 (ratchet_counter (rx_sender_state s) - old_ratchet_counter s) <= MAX_OOO_RATCHETS /\
  rx_sender_state s = sender_new (ratchet_counter (rx_sender_state s)) (current_secret (rx_sender_state s)) /\
  sender_state c = sender_new (ratchet_counter (sender_state c)) (current_secret (sender_state c)).
Proof.
  intros Hops c Hs. assert (context_ok c) as Hc by (apply run_ops_ok; [apply new_ok|done]).
  pose proof (ok_states c Hc id) as Hall. rewrite Forall_forall in Hall.
  destruct (Hall s Hs) as ((_ & ?) & _ & ?). split_and!; [apply Hc|done|done|apply Hc].
Qed.

(** What the sender knows when it tells the receiver its secret. *)
Lemma sender_log now0 secret history ops :
  let tx := run_ops history (new now0 secret) in
  let rc0 := ratchet_counter (sender_state tx) in
  let s0 := current_secret (sender_state tx) in
  Forall op_ok history -> zlen history + zlen ops < U32_MAX -> Forall sendable ops ->
  let log := (send_all ops 0 tx).2 in
  0 <= rc0 < 256 /\ Forall (good rc0 s0) log /\ StronglySorted later log /\
  Forall (fun e => 0 < e_fc e) log.
Proof.
  intros tx rc0 s0 Hh Hn Hops log.
  assert (context_ok tx) as Hc by (apply run_ops_ok; [apply new_ok|done]).
  pose proof (zlen_nonneg history). pose proof (zlen_nonneg ops).
  destruct (run_ops_counter history (new now0 secret)) as [Hc1 Hc2]; [done|cbn; unfold U32_MAX in *; lia|].
  fold tx in Hc1, Hc2. cbn [new next_frame_counter] in Hc1, Hc2.
  destruct (ok_sender tx Hc) as [Hrc Hs].
  destruct (send_all_log rc0 s0 ops 0 tx) as (Hg & Hso & Hall & _); [|lia|lia|done|].
  { rewrite key_at_0 by done. exact Hs. }
  split_and!; [lia|lia|done|done|]. eapply Forall_impl; [exact Hall|]. cbn. lia.
Qed.

Lemma add_receive_states id rc secret c :
  exists others, states_of id (add_receive_secret id rc secret c).1 = receiver_new rc secret :: others /\
    others ⊆ states_of id c.
Proof.
  unfold add_receive_secret. rewrite (ST_bind_run _ _ _ _ _ (get_states_run id c)).
  eexists. split; [unfold states_of; cbn; by rewrite lookup_insert_eq|].
  destruct (_ =? _); [|done]. rewrite removelast_firstn_len.
  intros x Hx. eapply subseteq_take. exact Hx.
Qed.

Lemma StronglySorted_sublist {A} (R : A -> A -> Prop) l k :
  l `sublist_of` k -> StronglySorted R k -> StronglySorted R l.
Proof.
  induction 1 as [|x l k Hlk IH|x l k Hlk IH]; intros Hk; [done|..];
    apply StronglySorted_inv in Hk as [Hk Hx]; [|by apply IH].
  constructor; [by apply IH|]. rewrite Forall_forall in *. intros y Hy.
  apply Hx. by eapply elem_of_sublist.
Qed.

Lemma receive_all_app now id l k c c1 r1 :
  receive_all now id l c = (c1, r1) ->
  receive_all now id (l ++ k) c = ((receive_all now id k c1).1, r1 ++ (receive_all now id k c1).2).
Proof.
  revert c r1. induction l as [|b l IH]; intros c r1; cbn [receive_all app].
  - intros [= -> <-]. by destruct (receive_all now id k c1).
  - destruct (decrypt_data now id b c) as [c2 r]. destruct (receive_all now id l c2) as [c3 rs] eqn:Hl.
    intros [= -> <-]. by rewrite (IH _ _ Hl).
Qed.

Lemma rejects_subset rc0 s0 (l : list Entry) (k k' : list ReceiverState) :
  Forall (fun e => Forall (rejects rc0 s0 e) k) l -> k' ⊆ k ->
  Forall (fun e => Forall (rejects rc0 s0 e) k') l.
Proof.
  intros Hl Hk. eapply Forall_impl; [exact Hl|]. cbn. intros e He. rewrite Forall_forall in *.
  intros s Hs. auto.
Qed.

(** C20. What the sender encrypts, the receiver decrypts.  The sender has any
    history; it tells the receiver its current secret, and then sends frames and
    advances its ratchet as it likes.  Whatever frames get lost, as long as fewer
    than 256 ratchets lie between two that arrive, the receiver decrypts each that
    arrives, in order, to the plaintext, even if it has other keys for that
    sender (whose MACs are not those of the frames). *)
Theorem frames_are_decrypted now0 now secret history ops id rx received :
  let tx := run_ops history (new now0 secret) in
  let rc0 := ratchet_counter (sender_state tx) in
  let s0 := current_secret (sender_state tx) in
  Forall op_ok history -> zlen history + zlen ops < U32_MAX -> Forall sendable ops ->
  received `sublist_of` (send_all ops 0 tx).2 -> gaps_below 256 0 received ->
  Forall (fun e => Forall (rejects rc0 s0 e) (states_of id rx)) received ->
  exists rx', receive_all now id (e_bytes <$> received) (add_receive_secret id rc0 s0 rx).1 =
    (rx', Ok ∘ e_plain <$> received).
Proof.
  intros tx rc0 s0 Hh Hn Hops Hsub Hgaps Hrej.
  destruct (sender_log now0 secret history ops) as (Hrc & Hg & Hso & Hpos); [done..|].
  fold tx rc0 s0 in Hrc, Hg, Hso, Hpos.
  destruct (add_receive_states id rc0 s0 rx) as (others & Hst & Hothers).
  apply (rejects_subset rc0 s0 _ _ others) in Hrej; [|done].
  destruct (receive_in_order rc0 s0 now id received 0 0 (receiver_new rc0 s0) others
    (add_receive_secret id rc0 s0 rx).1) as (rx' & Hrx & _); [|done| | |done|by exists rx'].
  - by rewrite receiver_new_at.
  - rewrite Forall_forall in *. intros e He. pose proof (elem_of_sublist _ _ _ He Hsub) as He'.
    split_and!; [by apply Hg|by apply Hpos|lia|by apply Hrej].
  - by eapply StronglySorted_sublist.
Qed.

(** Late frames: after frames in order, a frame that was overtaken (or comes a
    second time) is decrypted too, if it is not more than 300 frames and five
    ratchets older than the last one. *)
Theorem late_frame_is_decrypted now0 now secret history ops id rx received latest late :
  let tx := run_ops history (new now0 secret) in
  let rc0 := ratchet_counter (sender_state tx) in
  let s0 := current_secret (sender_state tx) in
  let log := (send_all ops 0 tx).2 in
  Forall op_ok history -> zlen history + zlen ops < U32_MAX -> Forall sendable ops ->
  received ++ [latest] `sublist_of` log -> gaps_below 251 0 (received ++ [latest]) ->
  late ∈ log -> later late latest ->
  e_fc latest - MAX_OOO_FRAMES <= e_fc late -> (e_index latest <= e_index late + 5)%nat ->
  Forall (fun e => Forall (rejects rc0 s0 e) (states_of id rx)) (received ++ [latest; late]) ->
  exists rx', receive_all now id (e_bytes <$> received ++ [latest; late])
      (add_receive_secret id rc0 s0 rx).1 =
    (rx', Ok ∘ e_plain <$> received ++ [latest; late]).
Proof.
  intros tx rc0 s0 log Hh Hn Hops Hsub Hgaps Hlate [Hlf Hli] Hw Hw5 Hrej.
  destruct (sender_log now0 secret history ops) as (Hrc & Hg & Hso & Hpos); [done..|].
  fold tx rc0 s0 log in Hrc, Hg, Hso, Hpos.
  destruct (add_receive_states id rc0 s0 rx) as (others & Hst & Hothers).
  apply (rejects_subset rc0 s0 _ _ others) in Hrej; [|done].
  replace (received ++ [latest; late]) with ((received ++ [latest]) ++ [late]) in *
    by (by rewrite <- app_assoc).
  apply Forall_app in Hrej as [Hrej Hrlate]. apply Forall_cons in Hrlate as [Hrlate _].
  rewrite receiver_new_at in Hst by done.
  destruct (receive_covers rc0 s0 now id log (received ++ [latest]) 0 0 0 others
    (add_receive_secret id rc0 s0 rx).1) as (rx1 & i & o & f & Hrx & Hst1 & Hcov & Hi & Hf);
    [done|done|by apply (covers_nothing rc0 s0)|done| |by eapply StronglySorted_sublist|done|].
  { rewrite Forall_forall in *. intros e He. pose proof (elem_of_sublist _ _ _ He Hsub) as He'.
    split_and!; [done|by apply Hpos|lia|by apply Hrej]. }
  rewrite last_snoc in Hi, Hf. subst i.
  assert (good rc0 s0 late) as Hgood by (rewrite Forall_forall in Hg; by apply Hg).
  destruct (decrypt_entry rc0 s0 now id late (at_ rc0 s0 (e_index latest) o f) others rx1)
    as (rx' & Hdec & _); [done|done|exact Hrlate| |].
  { apply (covers_reach rc0 s0 log); [done|done|done|done|done|]. lia. }
  exists rx'. rewrite (fmap_app _ (received ++ [latest])), (fmap_app _ (received ++ [latest])). rewrite (receive_all_app _ _ _ _ _ _ _ Hrx).
  cbn [fmap list_fmap receive_all]. by rewrite Hdec.
Qed.

(** The counterpart, where the code does not do what it means to: one late frame
    spoils the old secret.  A receiver has the key of the [k]-th ratchet and an old
    secret that reaches all of the last frames.  The frame [e1] comes late and is
    decrypted; then the next frame [e2] with the current key.  A second late frame
    [e3] is inside of the same limits as [e1] was, but it is lost: the difference
    of the frame counters wrapped around when [e1] came, the current secret became
    the old one and was ratcheted to 251 steps ahead.  [Hmac] says that the keys of
    other ratchets do not give the MAC of [e3]. *)
Theorem second_late_frame_is_lost now rc0 s0 id c k o f others e1 e2 e3 :
  states_of id c = at_ rc0 s0 k o f :: others ->
  Forall (good rc0 s0) [e1; e2; e3] -> Forall (fun e => Forall (rejects rc0 s0 e) others) [e1; e2; e3] ->
  0 <= f <= U32_MAX ->
  (o <= e_index e1)%nat -> (e_index e1 < k)%nat -> (k <= o + 5)%nat -> e_fc e1 < f ->
  e_index e2 = k -> e_fc e1 < e_fc e2 <= e_fc e1 + MAX_OOO_FRAMES ->
  (o <= e_index e3)%nat -> (e_index e3 < k)%nat -> e_fc e3 < f -> e_fc e3 < e_fc e2 ->
  (forall i, (i = k \/ i = e_index e3 + 256)%nat ->
     frame_mac (key_at rc0 s0 i) (e_fc e3) (ciphertext rc0 s0 e3) <> tag rc0 s0 e3) ->
  exists c', receive_all now id (e_bytes <$> [e1; e2; e3]) c =
    (c', [Ok (e_plain e1); Ok (e_plain e2);
          Err (RingRtcError.Anyhow "no receiver state could be found matching the provided data")]).
Proof.
  intros Hst Hg Hrej Hf0 Ho1 Hk1 Hko Hf1 Hi2 Hf2 Ho3 Hk3 Hf3 Hf32 Hmac.
  rewrite !Forall_cons in Hg, Hrej. destruct Hg as (Hg1 & Hg2 & Hg3 & _).
  destruct Hrej as (Hr1 & Hr2 & Hr3 & _).
  pose proof (proj2 Hg1) as Hb1. pose proof (proj2 Hg2) as Hb2. pose proof (proj2 Hg3) as Hb3.
  destruct (decrypt_entry rc0 s0 now id e1 _ others c Hg1 Hst Hr1) as (c1 & Hd1 & Hst1).
  { split.
    - intros He. symmetry in He. apply counter_at_inj in He; lia.
    - intros _. rewrite (advance_late rc0 s0 k (e_index e1) o f (e_fc e1) (e_index e1 - o)) by lia.
      cbn [rx_sender_state]. by replace (o + (e_index e1 - o))%nat with (e_index e1) by lia. }
  rewrite (next_state_late rc0 s0 k (e_index e1) o f e1) in Hst1 by (done || lia).
  destruct (decrypt_entry rc0 s0 now id e2 _ others c1 Hg2 Hst1 Hr2) as (c2 & Hd2 & Hst2).
  { eapply (forward_reach rc0 s0 (e_index e1) (e_fc e1)); [by split|lia..]. }
  rewrite (next_state_after_late rc0 s0 (e_index e1) k (e_fc e1) e2) in Hst2 by (done || lia).
  destruct (decrypt_rejected rc0 s0 now id e3 c2 Hg3) as (c3 & Hd3).
  { rewrite Hst2. constructor; [|done]. apply rejects_late; [lia..| |].
    - apply (Hmac k). by left.
    - intros Hm. apply (Hmac (e_index e3 + 256)%nat); [by right|]. unfold key_at.
      replace (counter_at rc0 (e_index e3 + 256)) with (counter_at rc0 (e_index e3)); [done|].
      unfold counter_at, wrap. rewrite Nat2Z.inj_add, Z.add_assoc.
      change (Z.of_nat 256) with (1 * 2 ^ 8). by rewrite Z.mod_add. }
  exists c3. cbn [fmap list_fmap receive_all]. by rewrite Hd1, Hd2, Hd3.
Qed.

End Context_.
End FrameContext.
