(* ===== verification/FrameExamples.v ===== *)
(** * Frame crypto on concrete frames

    A small cipher that keeps the promises of [FrameCipherLaws], and the theorems
    on frames at concrete inputs. *)

From S2P Require Import Prelude States FrameCrypto FrameFormat FrameDelivery FrameContext.
Local Open Scope Z_scope.
Local Open Scope ringrtc_scope.

Module FrameExamples.
Import FrameCrypto FrameFormat FrameDelivery FrameContext.

Definition mix (l : list Z) : Z := fold_left (fun v b => (v * 257 + b + 1) mod 65521) l 7.

#[global] Instance toy_cipher : FrameCipher := {|
  hkdf_expand secret info := be_bytes 4 (mix (info ++ secret));
  apply_keystream key iv data := Z.lxor (mix (key ++ iv) mod 256) <$> data;
  hmac key data := be_bytes 4 (mix (key ++ data)) ++ replicate 28 0;
|}.

#[global] Instance toy_cipher_laws : FrameCipherLaws.
Proof.
  split; intros key; intros.
  - cbn. rewrite <- list_fmap_compose. rewrite <- (list_fmap_id data) at 2.
    apply list_fmap_ext. intros i x _. cbn.
    by rewrite <- Z.lxor_assoc, Z.lxor_nilpotent, Z.lxor_0_l.
  - apply length_fmap.
  - cbn [hmac toy_cipher]. by rewrite length_app, be_bytes_length, length_replicate.
Qed.

(** ** A sender *)

Definition history : list ContextOp :=
  [OpEncrypt [1; 2]; OpAdvance; OpAddReceive 3 7 [5]; OpReset [9; 9]; OpEncrypt [3]; OpAdvance].
Definition tx : Context := run_ops history (new 0 [1; 1; 1]).
Definition rc0 : Z := ratchet_counter (sender_state tx).
Definition s0 : Secret := current_secret (sender_state tx).

Definition sends : list SendOp :=
  [SendFrame [10; 11]; AdvanceRatchet; SendFrame [20]; SendFrame []; AdvanceRatchet;
   SendFrame [30; 31; 32]; AdvanceRatchet; SendFrame [40]; SendFrame [41]].
Definition log : list Entry := (send_all sends 0 tx).2.

(** A receiver that has another key of the sender. *)
Definition rx : Context := (add_receive_secret 8 200 [4; 4] (new 0 [6])).1.

Lemma key_stream_witness :
  let fcs := frame_counters history (new 0 [1; 1; 1]) in
  fcs !! 1%nat = Some 2 /\ (1 = 1 /\ 5 = 5)%nat.
Proof.
  split; [vm_compute; reflexivity|].
  destruct (key_stream_is_used_once 0 [1; 1; 1] history 1 1 2 2 5 5) as [H1 H2];
    [vm_compute; reflexivity|vm_compute; reflexivity|vm_compute; reflexivity|lia|lia|reflexivity|].
  split; reflexivity.
Defined.

Definition many_keys : list ContextOp :=
  (fun k => OpAddReceive 3 k [k]) <$> [1; 2; 3; 4; 5; 6; 7].

Lemma retained_keys_witness :
  let c := run_ops many_keys (new 0 [1]) in
  ratchet_counter ∘ rx_sender_state <$> states_of 3 c = [7; 6; 5; 4; 3] /\
  zlen (states_of 3 c) <= MAX_RECEIVER_STATES_TO_RETAIN.
Proof.
  split; [vm_compute; reflexivity|].
  apply (retained_keys_are_bounded 0 [1] many_keys 3 (receiver_new 7 [7])).
  - repeat constructor; cbn; lia.
  - vm_compute. constructor.
Defined.

Lemma sendable_sends : Forall sendable sends.
Proof. unfold sends. rewrite !Forall_cons. cbn. done. Qed.

Lemma history_ok : Forall op_ok history.
Proof. unfold history. rewrite !Forall_cons. cbn. split_and!; done || lia. Qed.

#[local] Instance rejects_dec rc s e t : Decision (rejects rc s e t).
Proof. unfold rejects. apply _. Defined.

(** Two of the frames are lost. *)
Definition arrived : list Entry := take 1 log ++ drop 3 log.

Lemma frames_are_decrypted_witness :
  exists rx', receive_all 0 8 (e_bytes <$> arrived) (add_receive_secret 8 rc0 s0 rx).1 =
    (rx', [Ok [10; 11]; Ok [30; 31; 32]; Ok [40]; Ok [41]]).
Proof.
  apply (frames_are_decrypted 0 0 [1; 1; 1] history sends 8 rx arrived).
  - exact history_ok.
  - vm_compute. reflexivity.
  - exact sendable_sends.
  - vm_compute. repeat constructor.
  - vm_compute. lia.
  - apply (bool_decide_unpack _). vm_compute. exact I.
Defined.

Definition entry (n : nat) : Entry := default (mkEntry 0 0 [] []) (log !! n).

Lemma late_frame_is_decrypted_witness :
  exists rx', receive_all 0 8 (e_bytes <$> [entry 0] ++ [entry 4; entry 1])
      (add_receive_secret 8 rc0 s0 rx).1 =
    (rx', [Ok [10; 11]; Ok [40]; Ok [20]]).
Proof.
  apply (late_frame_is_decrypted 0 0 [1; 1; 1] history sends 8 rx [entry 0] (entry 4) (entry 1)).
  - exact history_ok.
  - vm_compute. reflexivity.
  - exact sendable_sends.
  - vm_compute. repeat constructor.
  - vm_compute. lia.
  - vm_compute. repeat constructor.
  - split; [vm_compute; reflexivity|vm_compute; lia].
  - vm_compute. discriminate.
  - vm_compute. lia.
  - apply (bool_decide_unpack _). vm_compute. exact I.
Defined.

(** The same late frame, after another one came late: both are two ratchets or less
    behind the frames in order. *)
Lemma second_late_frame_is_lost_witness :
  let c := (receive_all 0 8 (e_bytes <$> [entry 0; entry 4]) (add_receive_secret 8 rc0 s0 rx).1).1 in
  exists c', receive_all 0 8 (e_bytes <$> [entry 3; entry 5; entry 1]) c =
    (c', [Ok [30; 31; 32]; Ok [41];
          Err (RingRtcError.Anyhow "no receiver state could be found matching the provided data")]).
Proof.
  intros c.
  apply (second_late_frame_is_lost 0 rc0 s0 8 c 3 0 7 (states_of 8 rx) (entry 3) (entry 5) (entry 1)).
  - vm_compute. reflexivity.
  - repeat constructor; vm_compute; reflexivity || discriminate.
  - apply (bool_decide_unpack _). vm_compute. exact I.
  - unfold U32_MAX. lia.
  - vm_compute. lia.
  - vm_compute. lia.
  - lia.
  - vm_compute. reflexivity.
  - vm_compute. reflexivity.
  - vm_compute. split; [reflexivity|discriminate].
  - vm_compute. lia.
  - vm_compute. lia.
  - vm_compute. reflexivity.
  - vm_compute. reflexivity.
  - intros i [->| ->]; vm_compute; discriminate.
Defined.

End FrameExamples.
