(* ===== verification/Actor.v ===== *)
(** * Actors (src/rust/src/common/actor.rs)

    An actor is a thread that owns a state and runs tasks on it, one at a time:
    those in its channel in order, and delayed ones from a heap when their time
    has come and the channel is empty.  The tasks of a program are the values of a
    type [Task]; running one gives a new state and the tasks that it sends to the
    actor.  Times are in nanoseconds. *)

From S2P Require Import Prelude.
From Stdlib Require Import Sorted.
Local Open Scope Z_scope.
Local Open Scope ringrtc_scope.

Module Actor.
Section Actor.
Context {State Env Task : Type}.

(** [Task]: the closure and its deadline, [None] for immediately. *)
Record Sent : Type := mkSent {
  task : Task;
  deadline : option Z;
}.

Definition immediate (t : Task) : Sent := mkSent t None.
Definition delayed (now : Z) (t : Task) (delay : Z) : Sent := mkSent t (Some (now + delay)).
Definition into_immediate (t : Sent) : Sent := mkSent (task t) None.
Definition is_delayed (t : Sent) : bool := bool_decide (is_Some (deadline t)).
Definition timeout (now : Z) (t : Sent) : Z :=
  match deadline t with
  | None => 0
  | Some d => Z.max 0 (d - now)
  end.

(** [running] is false when the loop has ended; [stopped] is the flag that ends
    it.  The heap is the list of its elements. *)
Record Actor : Type := mkActor {
  state : State;
  channel : list Sent;
  delayed_tasks : list Sent;
  stopped : bool;
  running : bool;
}.

#[global] Instance Actor_eta : Eta Actor := fun r =>
  mkActor (state r) (channel r) (delayed_tasks r) (stopped r) (running r).

(** [Actor::start] with a state. *)
Definition start (s : State) : Actor := mkActor s [] [] false true.

(** [send] and [send_delayed], from any thread. *)
Definition send (t : Sent) (a : Actor) : Actor := a <| channel := channel a ++ [t] |>.

(** [stop]; the empty task only wakes the loop up. *)
Definition stop (nothing : Task) (a : Actor) : Actor :=
  send (immediate nothing) (a <| stopped := true |>).

(** [BinaryHeap::peek]: an element with the earliest deadline. *)
Definition earliest (h : list Sent) (t : Sent) : Prop :=
  t ∈ h /\ forall t', t' ∈ h -> default 0 (deadline t) <= default 0 (deadline t').

(** What a task does: the new state, the tasks that it sends, and whether it stops
    the actor. *)
Context (run : Env -> Task -> State -> State * list Sent * bool).

Definition run_task (env : Env) (t : Task) (a : Actor) : Actor :=
  let '(s, sent, stops) := run env t (state a) in
  a <| state := s |> <| channel := channel a ++ sent |> <| stopped := stopped a || stops |>.

(** The loop, once round: [received_task] comes from the channel or, when that is
    empty and the time is over, from the heap. *)
Inductive step (env : Env) (now : Z) (a : Actor) : Actor -> Prop :=
| step_stop t l : running a = true -> channel a = t :: l -> stopped a = true ->
    step env now a (a <| channel := l |> <| running := false |>)
| step_push t l : running a = true -> channel a = t :: l -> stopped a = false -> is_delayed t = true ->
    step env now a (a <| channel := l |> <| delayed_tasks := delayed_tasks a ++ [t] |>)
| step_run t l : running a = true -> channel a = t :: l -> stopped a = false -> is_delayed t = false ->
    step env now a (run_task env (task t) (a <| channel := l |>))
| step_timeout_stop t h1 h2 : running a = true -> channel a = [] -> stopped a = true ->
    delayed_tasks a = h1 ++ t :: h2 -> earliest (delayed_tasks a) t -> timeout now t = 0 ->
    step env now a (a <| delayed_tasks := h1 ++ h2 |> <| running := false |>)
| step_timeout t h1 h2 : running a = true -> channel a = [] -> stopped a = false ->
    delayed_tasks a = h1 ++ t :: h2 -> earliest (delayed_tasks a) t -> timeout now t = 0 ->
    step env now a (run_task env (task (into_immediate t)) (a <| delayed_tasks := h1 ++ h2 |>)).

(** ** What holds of all tasks *)

Definition waiting (a : Actor) : list Sent := channel a ++ delayed_tasks a.

(** To show an invariant of the state and of the tasks that wait, it is enough to
    show that each task keeps it; [Q w s] may speak of the waiting tasks as a
    multiset. *)
Context (Q : list Sent -> State -> Prop)
  (Q_perm : forall w w' s, w ≡ₚ w' -> Q w s -> Q w' s)
  (Q_run : forall env t w s s' sent stops, Q (t :: w) s ->
     run env (task t) s = (s', sent, stops) -> Q (sent ++ w) s').

Lemma step_invariant env now a a' :
  step env now a a' -> Q (waiting a) (state a) -> running a' = true -> Q (waiting a') (state a').
Proof.
  intros Hs HQ Hr. unfold waiting in *. destruct Hs as
    [t l _ Hc Hst|t l _ Hc Hst Hd|t l _ Hc Hst Hd|t h1 h2 _ Hc Hst Hh He Ht|t h1 h2 _ Hc Hst Hh He Ht];
    try done; rewrite Hc in HQ; cbn [app] in HQ.
  - cbn. eapply Q_perm; [|exact HQ]. rewrite app_assoc. apply Permutation_cons_append.
  - unfold run_task. cbn [state set_field]. unfold set_field. cbn.
    destruct (run env (task t) (state a)) as [[s sent] stops] eqn:Hrun. cbn.
    eapply Q_perm; [|eapply Q_run; [exact HQ|exact Hrun]].
    rewrite !app_assoc. by apply Permutation_app_tail, Permutation_app_comm.
  - unfold run_task, set_field. cbn.
    destruct (run env (task t) (state a)) as [[s sent] stops] eqn:Hrun. cbn. rewrite Hc. cbn.
    eapply Q_run; [|exact Hrun]. eapply Q_perm; [|exact HQ]. rewrite Hh.
    symmetry. apply Permutation_middle.
Qed.

End Actor.

(** A step of an actor that was not stopped either moves a task to the heap or runs one; the
    tasks that wait are a multiset here. *)
Lemma step_effect {State Env Task : Type} (run : Env -> Task -> State -> State * list (Sent (Task := Task)) * bool) env now a a' :
  step run env now a a' -> stopped a = false ->
  (waiting a' ≡ₚ waiting a /\ state a' = state a /\ stopped a' = false) \/
  (exists t w s sent stops, waiting a ≡ₚ t :: w /\ run env (task t) (state a) = (s, sent, stops) /\
     state a' = s /\ waiting a' ≡ₚ sent ++ w /\ stopped a' = stops).
Proof.
  intros Hs Hst. unfold waiting. destruct Hs as
    [t l _ Hc Hst'|t l _ Hc _ Hd|t l _ Hc _ Hd|t h1 h2 _ Hc Hst' Hh He Ht|t h1 h2 _ Hc _ Hh He Ht]; try congruence.
  - left. rewrite Hc. cbn. rewrite app_assoc. split_and!; [symmetry; apply Permutation_cons_append|done|done].
  - right. unfold run_task, set_field. cbn. destruct (run env (task t) (state a)) as [[s sent] stops] eqn:Hrun.
    exists t, (l ++ delayed_tasks a), s, sent, stops. cbn. rewrite Hc, Hst.
    split_and!; [done|done|done| |done]. rewrite !app_assoc. by apply Permutation_app_tail, Permutation_app_comm.
  - right. unfold run_task, set_field. cbn. destruct (run env (task t) (state a)) as [[s sent] stops] eqn:Hrun.
    exists t, (h1 ++ h2), s, sent, stops. cbn. rewrite Hc, Hst, Hh. cbn. split_and!; [|done..].
    symmetry. apply Permutation_middle.
Qed.

Arguments Sent : clear implicits.
Arguments Actor : clear implicits.
End Actor.
