(* ===== verification/Endorsements.v ===== *)
(** * The endorsement cache (src/rust/src/core/endorsements.rs)

    Endorsements let a client send to a group without telling who it is.  They come
    in sets that expire together.  The cache keeps the sets by expiration, marks
    those that could not be validated, and remembers what was shared with the
    application.  Endorsements and tokens are libsignal's. *)

From S2P Require Import Prelude.
Local Open Scope Z_scope.
Local Open Scope ringrtc_scope.

(** [GroupSendEndorsement] and its tokens. *)
Class ZkEndorsement : Type := {
  GroupSendEndorsement : Type;
  GroupSendFullToken : Type;
  CallLinkSecretParams : Type;
  (** [combine(..).to_token(params).into_full_token(expiration)] *)
  full_token : list GroupSendEndorsement -> CallLinkSecretParams -> Z -> GroupSendFullToken;
}.

Module Endorsements.
Section Endorsements.
Context `{ZkEndorsement}.

Definition UserId : Type := list Z.
Definition Timestamp : Type := Z.

Inductive EndorsementUpdateError : Type :=
| MissingField (field : string)
| ExpiredEndorsements (expiration : Timestamp)
| InvalidMemberCiphertexts
| InvalidEndorsementResponseFormat
| InvalidEndorsementResponse.

(** Instants are in nanoseconds; a marker is the time and the reason. *)
Record EndorsementsCache : Type := mkCache {
  endorsements : gmap Timestamp (gmap UserId GroupSendEndorsement);
  invalid_markers : gmap (option Timestamp) (Z * string);
  last_updated : gmap Timestamp Z;
  last_shared : option Z;
  call_link_secret_params : CallLinkSecretParams;
}.

#[global] Instance EndorsementsCache_eta : Eta EndorsementsCache := fun r =>
  mkCache (endorsements r) (invalid_markers r) (last_updated r) (last_shared r) (call_link_secret_params r).

Definition new (params : CallLinkSecretParams) : EndorsementsCache := mkCache ∅ ∅ ∅ None params.

Definition insert_set (now : Z) (expiration : Timestamp) (set : gmap UserId GroupSendEndorsement)
    (c : EndorsementsCache) : EndorsementsCache :=
  c <| endorsements := <[expiration := set ∪ default ∅ (endorsements c !! expiration)]> (endorsements c) |>
    <| last_updated := <[expiration := now]> (last_updated c) |>
    <| invalid_markers := delete None (delete (Some expiration) (invalid_markers c)) |>.

Definition is_valid (c : EndorsementsCache) (expiration : Timestamp) : bool :=
  match last_updated c !! expiration with
  | None => false
  | Some last_updated =>
    if bool_decide (is_Some (invalid_markers c !! Some expiration)) then false
    else match invalid_markers c !! None with
         | None => true
         | Some (invalidated_at, _) => invalidated_at <? last_updated
         end
  end.

(** All the endorsements of the recipients, or none. *)
Fixpoint find_all (map : gmap UserId GroupSendEndorsement) (ids : list UserId)
  : option (list (UserId * GroupSendEndorsement)) :=
  match ids with
  | [] => Some []
  | id :: ids =>
    match map !! id, find_all map ids with
    | Some e, Some l => Some ((id, e) :: l)
    | _, _ => None
    end
  end.

Definition get_token_for (c : EndorsementsCache) (expiration : Timestamp) (recipients : list UserId)
  : option GroupSendFullToken :=
  if negb (is_valid c expiration) then None
  else match endorsements c !! expiration with
       | Some map =>
         found ← find_all map recipients;
         Some (full_token (snd <$> found) (call_link_secret_params c) expiration)
       | None => None
       end.

(** [iter().last()] of a [BTreeMap]: the entry with the greatest key. *)
Definition last_entry (c : EndorsementsCache) : option (Timestamp * gmap UserId GroupSendEndorsement) :=
  fold_left (fun best e =>
    match best with
    | Some (k, _) => if k <? fst e then Some e else best
    | None => Some e
    end) (map_to_list (endorsements c)) None.

Definition get_endorsements_for_users (c : EndorsementsCache) (epoch : option Timestamp)
    (user_ids : list UserId) : option (Timestamp * gmap UserId GroupSendEndorsement) :=
  '(expiration, map) ← match epoch with
    | None => last_entry c
    | Some key => pair key <$> endorsements c !! key
    end;
  if negb (is_valid c expiration) then None
  else
    found ← find_all map user_ids;
    Some (expiration, list_to_map found).

Definition get_endorsements_for_expiration (c : EndorsementsCache) (epoch : Timestamp)
  : option (Timestamp * gmap UserId GroupSendEndorsement) :=
  if negb (is_valid c epoch) then None else pair epoch <$> endorsements c !! epoch.

Definition latest_is_valid (c : EndorsementsCache) : bool :=
  match last_entry c with
  | Some (expiration, _) => is_valid c expiration
  | None => false
  end.

Definition get_latest (now : Z) (c : EndorsementsCache)
  : EndorsementsCache * option (Timestamp * gmap UserId GroupSendEndorsement) :=
  if negb (latest_is_valid c) then (c, None)
  else (c <| last_shared := Some now |>, last_entry c).

Definition has_valid_update (c : EndorsementsCache) : bool :=
  match last_entry c with
  | None => false
  | Some (expiration, _) =>
    if negb (is_valid c expiration) then false
    else match last_updated c !! expiration with
         | None => false
         | Some u => match last_shared c with None => true | Some t => t <? u end
         end
  end.

Definition set_invalid (now : Z) (expiration : option Timestamp) (reason : string)
    (c : EndorsementsCache) : EndorsementsCache :=
  c <| invalid_markers := <[expiration := (now, reason)]> (invalid_markers c) |>.

Definition remove (expiration : Timestamp) (c : EndorsementsCache) : EndorsementsCache :=
  c <| endorsements := delete expiration (endorsements c) |>
    <| invalid_markers := delete (Some expiration) (invalid_markers c) |>
    <| last_updated := delete expiration (last_updated c) |>.

Definition clear_expired (now : Z) (c : EndorsementsCache) : EndorsementsCache :=
  fold_left (fun c expiration => remove expiration c)
    (filter (fun k => k * 10 ^ 9 <= now) (elements (dom (endorsements c)))) c.

End Endorsements.
Arguments EndorsementsCache : clear implicits.
Arguments EndorsementsCache {_}.
End Endorsements.
