(* ===== verification/GroupTypes.v ===== *)
(** * Data of group calls (src/rust/src/core/group_call.rs, lite/sfu.rs, group_call.proto)

    The states, messages and devices of a group call, the calls that leave the
    client, and the answers they get.  Times are in nanoseconds. *)

From S2P Require Import Prelude States Signaling ConnectionTypes Connection ConnectionStart CallManager.
From S2P Require Import MrpMerge MrpStream FrameCrypto Endorsements.
Local Open Scope Z_scope.
Local Open Scope ringrtc_scope.

Module GroupTypes.

Definition DemuxId : Type := Z.
Definition Instant : Type := Z.
Definition SystemTime : Type := Z.

(** ** States *)

Inductive ConnectionState : Type := NotConnected | Connecting | Connected | Reconnecting.
#[global] Instance ConnectionState_eq_dec : EqDecision ConnectionState.
Proof. solve_decision. Defined.

Inductive JoinState : Type :=
| NotJoined (ring_id : option RingId)
| Joining
| Pending (local_demux_id : DemuxId)
| Joined (local_demux_id : DemuxId).
#[global] Instance JoinState_eq_dec : EqDecision JoinState.
Proof. solve_decision. Defined.

Inductive GroupCallKind : Type := SignalGroup | CallLink.
#[global] Instance GroupCallKind_eq_dec : EqDecision GroupCallKind.
Proof. solve_decision. Defined.

(** [SrtpKeys] *)
Record SrtpKeys : Type := mkSrtpKeys {
  client_key : SrtpKey;
  server_key : SrtpKey;
}.

Inductive KeyRotationState : Type :=
| Applied
| PendingRotation (secret : FrameCrypto.Secret) (needs_another_rotation : bool).

Inductive RemoteDevicesRequestState : Type :=
| WaitingForMembershipProof
| NeverRequested
| RequestedAt (should_request_again : bool) (at_ : Instant)
| UpdatedAt (at_ : Instant)
| FailedAt (at_ : Instant).

Inductive OutgoingRingState : Type :=
| RingUnknown
| PermittedToRing (ring_id : RingId)
| WantsToRing (recipient : option UserId)
| HasSentRing (ring_id : RingId)
| NotPermittedToRing.

Inductive BweCheckState : Type :=
| BweAt (next_bwe_time : Instant)
| BweRecoveredAt (next_bwe_time last_callback : Instant)
| BweDisabled
| BweNone.
#[global] Instance BweCheckState_eq_dec : EqDecision BweCheckState.
Proof. solve_decision. Defined.

Record RaiseHandState : Type := mkRaiseHand {
  rh_seqnum : Z;
  rh_raise : bool;
  rh_outstanding : bool;
}.
#[global] Instance RaiseHandState_eta : Eta RaiseHandState := fun r =>
  mkRaiseHand (rh_seqnum r) (rh_raise r) (rh_outstanding r).

Inductive SpeechEvent : Type := StoppedSpeaking | LowerHandSuggestion.
#[global] Instance SpeechEvent_eq_dec : EqDecision SpeechEvent.
Proof. solve_decision. Defined.

(** ** Devices *)

Record HeartbeatState : Type := mkHeartbeatState {
  audio_muted : option bool;
  video_muted : option bool;
  presenting : option bool;
  sharing_screen : option bool;
  muted_by_demux_id : option DemuxId;
}.
#[global] Instance HeartbeatState_eq_dec : EqDecision HeartbeatState.
Proof. solve_decision. Defined.
#[global] Instance HeartbeatState_eta : Eta HeartbeatState := fun r =>
  mkHeartbeatState (audio_muted r) (video_muted r) (presenting r) (sharing_screen r) (muted_by_demux_id r).

Definition default_heartbeat : HeartbeatState := mkHeartbeatState None None None None None.

Definition heartbeat_from (p : HeartbeatProto) : HeartbeatState :=
  mkHeartbeatState (hb_audio_muted p) (hb_video_muted p) (hb_presenting p) (hb_sharing_screen p)
    (hb_muted_by_demux_id p).

Record RemoteDeviceState : Type := mkDevice {
  demux_id : DemuxId;
  user_id : UserId;
  media_keys_received : bool;
  heartbeat_state : HeartbeatState;
  heartbeat_rtp_timestamp : option Z;
  added_time : SystemTime;
  speaker_time : option SystemTime;
  leaving_received : bool;
  forwarding_video : option bool;
  server_allocated_height : Z;
  client_decoded_height : option Z;
  is_higher_resolution_pending : bool;
  remote_mute_requesters : gset DemuxId;
}.
#[global] Instance RemoteDeviceState_eta : Eta RemoteDeviceState := fun r =>
  mkDevice (demux_id r) (user_id r) (media_keys_received r) (heartbeat_state r)
    (heartbeat_rtp_timestamp r) (added_time r) (speaker_time r) (leaving_received r)
    (forwarding_video r) (server_allocated_height r) (client_decoded_height r)
    (is_higher_resolution_pending r) (remote_mute_requesters r).

(** [RemoteDeviceState::new] *)
Definition new_device (d : DemuxId) (u : UserId) (added : SystemTime) : RemoteDeviceState :=
  mkDevice d u false default_heartbeat None added None false None 0 None false ∅.

Definition recalculate_higher_resolution_pending (r : RemoteDeviceState) : RemoteDeviceState :=
  r <| is_higher_resolution_pending :=
         server_allocated_height r >? default 0 (client_decoded_height r) |>.

(** The methods of [RemoteDevices]. *)
Definition find_by_demux_id (l : list RemoteDeviceState) (d : DemuxId) : option RemoteDeviceState :=
  snd <$> list_find (fun r => demux_id r = d) l.

(** A change through [find_by_demux_id_mut]. *)
Definition update_device (d : DemuxId) (f : RemoteDeviceState -> RemoteDeviceState)
    (l : list RemoteDeviceState) : list RemoteDeviceState :=
  match list_find (fun r => demux_id r = d) l with
  | Some (i, r) => <[i := f r]> l
  | None => l
  end.

Definition demux_id_set (l : list RemoteDeviceState) : gset DemuxId :=
  list_to_set (demux_id <$> l).

Definition opt_lt (a b : option Z) : bool :=
  match a, b with
  | None, None => false
  | None, Some _ => true
  | Some _, None => false
  | Some a, Some b => a <? b
  end.

(** [max_by_key] takes the last of the greatest. *)
Definition latest_speaker_demux_id (l : list RemoteDeviceState) : option DemuxId :=
  let best := fold_left (fun best r =>
    match best with
    | Some b => if opt_lt (speaker_time r) (speaker_time b) then best else Some r
    | None => Some r
    end) l None in
  match best with
  | Some r => match speaker_time r with Some _ => Some (demux_id r) | None => None end
  | None => None
  end.

Record VideoRequest : Type := mkVideoRequest {
  vr_demux_id : DemuxId;
  vr_width : Z;
  vr_height : Z;
  vr_framerate : option Z;
}.

Record SendRates : Type := mkSendRates {
  sr_min : option DataRate.DataRate;
  sr_start : option DataRate.DataRate;
  sr_max : option DataRate.DataRate;
}.
#[global] Instance SendRates_eq_dec : EqDecision SendRates.
Proof. solve_decision. Defined.
Definition default_rates : SendRates := mkSendRates None None None.

(** ** Peeking (lite/sfu.rs) *)

Record PeekDeviceInfo : Type := mkPeekDevice {
  pd_demux_id : DemuxId;
  pd_user_id : option UserId;
}.

Record PeekInfo : Type := mkPeekInfo {
  devices : list PeekDeviceInfo;
  pending_devices : list PeekDeviceInfo;
  creator : option UserId;
  era_id : option string;
  max_devices : option Z;
}.

(** Each user once, at the first of its devices. *)
Fixpoint unique_pending (seen : gset (option UserId)) (l : list PeekDeviceInfo) : list UserId :=
  match l with
  | [] => []
  | d :: l =>
    if bool_decide (pd_user_id d ∈ seen) then unique_pending seen l
    else option_list (pd_user_id d) ++ unique_pending ({[pd_user_id d]} ∪ seen) l
  end.
Definition unique_pending_users (p : PeekInfo) : list UserId := unique_pending ∅ (pending_devices p).

Definition unique_users (p : PeekInfo) : gset UserId :=
  list_to_set (omap pd_user_id (devices p)).

(** What the SFU sends: obfuscated users.  Of the state of the call link there is
    only whether it is there and whether it can be converted. *)
Record ProtoPeekInfo : Type := mkProtoPeekInfo {
  pp_era_id : option string;
  pp_max_devices : option Z;
  pp_creator : option string;
  pp_devices : list (option DemuxId * option string);
  pp_pending_devices : list (option DemuxId * option string);
  pp_call_link_state : option bool;
}.

(** [OpaqueUserIdMapping]s: the known members under the names that the SFU knows. *)
Definition MemberMap : Type := list (string * UserId).
Definition resolve (m : MemberMap) (opaque : string) : option UserId :=
  snd <$> (snd <$> list_find (fun e => fst e = opaque) m).

Definition deobfuscate_device (m : MemberMap) (d : option DemuxId * option string)
  : option PeekDeviceInfo :=
  (fun id => mkPeekDevice id (d.2 ≫= resolve m)) <$> d.1.

Definition deobfuscate_proto (p : ProtoPeekInfo) (m : MemberMap) : result PeekInfo string :=
  let ds := omap (deobfuscate_device m) (pp_devices p) in
  let ps := omap (deobfuscate_device m) (pp_pending_devices p) in
  if negb (zlen ds =? zlen (pp_devices p)) || negb (zlen ps =? zlen (pp_pending_devices p))
    || bool_decide (pp_call_link_state p = Some false)
  then Err "Invalid PeekInfo proto"%string
  else Ok (mkPeekInfo ds ps (pp_creator p ≫= resolve m) (pp_era_id p) (pp_max_devices p)).

(** ** Joining *)

Record SfuInfo : Type := mkSfuInfo {
  udp_addresses : list (list Z * Z);
  tcp_addresses : list (list Z * Z);
  tls_addresses : list (list Z * Z);
  sfu_hostname : option string;
  sfu_ice_ufrag : string;
  sfu_ice_pwd : string;
}.

Record JoinedInfo : Type := mkJoined {
  j_sfu_info : SfuInfo;
  j_local_demux_id : DemuxId;
  j_server_dhe_pub_key : list Z;
  j_hkdf_extra_info : list Z;
  j_creator : option UserId;
  j_era_id : string;
  j_join_state : JoinState;
}.

(** ** Messages between device and SFU (group_call.proto) *)

Inductive AdminAction : Type :=
| AdminApprove (target : DemuxId) | AdminDeny (target : DemuxId)
| AdminRemove (target : DemuxId) | AdminBlock (target : DemuxId).

Record VideoRequestMessage : Type := mkVideoRequestMessage {
  vm_requests : list (option Z * option Z);
  vm_max_kbps : option Z;
  vm_active_speaker_height : option Z;
}.

(** Sender, count, start and last time of its decryption errors. *)
Definition ClientError : Type := (Z * Z * Z * Z)%type.

Record DeviceToSfu : Type := mkDeviceToSfu {
  d2s_video_request : option VideoRequestMessage;
  d2s_leave : bool;
  d2s_admin_action : option AdminAction;
  d2s_raise_hand : option (bool * Z);
  d2s_mrp_header : option MrpHeader;
  d2s_content : option (list Z);
  d2s_stats : option (list ClientError);
}.
#[global] Instance DeviceToSfu_eta : Eta DeviceToSfu := fun r =>
  mkDeviceToSfu (d2s_video_request r) (d2s_leave r) (d2s_admin_action r) (d2s_raise_hand r)
    (d2s_mrp_header r) (d2s_content r) (d2s_stats r).
Definition default_d2s : DeviceToSfu := mkDeviceToSfu None false None None None None None.

Record SendEndorsementsResponse : Type := mkEndorsementsResponse {
  ser_serialized : option (list Z);
  ser_member_ciphertexts : list (list Z);
}.

Record SfuToDevice : Type := mkSfuToDevice {
  s2d_speaker : option (option DemuxId);
  s2d_device_joined_or_left : option (option ProtoPeekInfo);
  s2d_current_devices : option (list DemuxId * list DemuxId * list Z);
  s2d_stats : option (option Z * option Z * option Z);
  s2d_video_request : option (option Z);
  s2d_removed : bool;
  s2d_raised_hands : option (list DemuxId * list Z * option Z);
  s2d_mrp_header : option MrpHeader;
  s2d_content : option (list Z);
  s2d_endorsements : option SendEndorsementsResponse;
}.
#[global] Instance SfuToDevice_eta : Eta SfuToDevice := fun r =>
  mkSfuToDevice (s2d_speaker r) (s2d_device_joined_or_left r) (s2d_current_devices r) (s2d_stats r)
    (s2d_video_request r) (s2d_removed r) (s2d_raised_hands r) (s2d_mrp_header r) (s2d_content r)
    (s2d_endorsements r).
Definition default_s2d : SfuToDevice :=
  mkSfuToDevice None None None None None false None None None None.

(** How fragments are joined (protobuf.rs, rtp.rs): the contents one after the other,
    the header of the last one. *)
Definition is_extendable (m : SfuToDevice) : bool :=
  match s2d_mrp_header m with Some h => bool_decide (is_Some (hdr_num_packets h)) | None => false end.

#[global] Instance SfuToDevice_extend : Extend SfuToDevice := fun self iter =>
  if is_extendable self then
    self <| s2d_content := Some (default [] (s2d_content self) ++
              concat (default [] ∘ s2d_content <$> iter)) |>
  else self.

#[global] Instance RtpHeader_extend : Extend RtpHeader := fun self iter =>
  fold_left (fun h h' =>
    if negb (rtp_pt h' =? rtp_pt h) || negb (rtp_ssrc h =? rtp_ssrc h') then h
    else mkRtpHeader (rtp_pt h) (rtp_seqnum h') (rtp_timestamp h') (rtp_ssrc h)) iter self.

#[global] Instance pair_extend {A B} `{Extend A, Extend B} : Extend (A * B) := fun self iter =>
  (extend self.1 (fst <$> iter), extend self.2 (snd <$> iter)).

End GroupTypes.
