(* ===== verification/GroupCall.v ===== *)
(** * Group calls (src/rust/src/core/group_call.rs)

    The client of a group call is an actor: each method sends a closure to the
    actor, which runs it on [State].  The closures are the values of [Task]; [run]
    of [GroupSystem.v] runs them.  Calls of the peer connection, of the observer
    (the call manager and the application) and of the SFU client are recorded in
    [outputs] and answered by [Env].  The clock is read once for a task. *)

From S2P Require Import Prelude States Signaling ConnectionTypes Connection ConnectionStart CallManager.
From S2P Require Import MrpWindow MrpMerge MrpStream FrameCrypto FrameFormat Endorsements Actor GroupTypes.
Local Open Scope Z_scope.
Local Open Scope ringrtc_scope.

(** Hash functions, and the endorsement responses of libsignal. *)
Class GroupHash : Type := {
  sha256_as_hexstring : list Z -> string;
  hex_encode : list Z -> string;
  default_hasher : UserId -> Z;
  (** The first eight bytes of the SHA-256 of a string, as an [i64]. *)
  truncated_hash : string -> Z;
}.

Class ZkResponse `{ZkEndorsement} : Type := {
  EndorsementPublicKey : Type;
  GroupSendEndorsementsResponse : Type;
  UuidCiphertext : Type;
  deserialize_response : list Z -> option GroupSendEndorsementsResponse;
  response_expiration : GroupSendEndorsementsResponse -> Z;
  deserialize_ciphertext : list Z -> option UuidCiphertext;
  receive_with_ciphertexts : GroupSendEndorsementsResponse -> list UuidCiphertext -> Z ->
    EndorsementPublicKey -> option (list GroupSendEndorsement);
}.

Module GroupCall.
Import GroupTypes.
Section GroupCall.
Context `{FrameCipher} `{SrtpCrypto} `{GroupHash} `{ZkEndorsement} `{!ZkResponse}
  `{!Codec DeviceToDevice} `{!Codec DeviceToSfu} `{!Codec SfuToDevice}.

(** ** Constants *)

Definition ms (n : Z) : Z := n * 10 ^ 6.
Definition secs (n : Z) : Z := n * 10 ^ 9.

Definition MIN_NON_SILENT_LEVEL : Z := 1000.
Definition SPEAKING_POLL_INTERVAL : Z := ms 200.
Definition STOPPED_SPEAKING_DURATION : Z := secs 3.
Definition MIN_SPEAKING_HAND_LOWER : Z := secs 5.
Definition GROUP_RTP_DATA_PAYLOAD_TYPE : Z := 101.
Definition RTP_DATA_THROUGH_SFU_SSRC_OFFSET : Z := 13.
Definition RTP_DATA_TO_SFU_SSRC : Z := 1.
Definition ALL_ALONE_MAX_SEND_RATE : DataRate.DataRate := DataRate.from_kbps 1.
Definition SMALL_CALL_MAX_SEND_RATE : DataRate.DataRate := DataRate.from_kbps 1000.
Definition LARGE_CALL_MAX_SEND_RATE : DataRate.DataRate := DataRate.from_kbps 671.
Definition SCREENSHARE_MIN_SEND_RATE : DataRate.DataRate := DataRate.from_kbps 500.
Definition SCREENSHARE_START_SEND_RATE : DataRate.DataRate := DataRate.from_mbps 1.
Definition SCREENSHARE_MAX_SEND_RATE : DataRate.DataRate := DataRate.from_mbps 2.
Definition LOW_MAX_RECEIVE_RATE : DataRate.DataRate := DataRate.from_kbps 500.
Definition NORMAL_MAX_RECEIVE_RATE : DataRate.DataRate := DataRate.from_mbps 20.
Definition GROUP_BWE_THRESHOLD_FOR_LOW_NOTIFICATION : DataRate.DataRate := DataRate.from_kbps 70.
Definition GROUP_BWE_THRESHOLD_FOR_RECOVERED_NOTIFICATION : DataRate.DataRate := DataRate.from_kbps 80.
Definition DELAY_FOR_RECOVERED_BWE_CALLBACK : Z := secs 6.
Definition MEDIA_SEND_KEY_ROTATION_DELAY_SECS : Z := 5.
Definition RELIABLE_RTP_BUFFER_SIZE : Z := 64.
Definition DEVICE_TO_SFU_TIMEOUT : Z := ms 1000.
Definition TICK_INTERVAL : Z := ms 200.
Definition HEARTBEAT_INTERVAL : Z := secs 1.
Definition DEFAULT_STATS_INTERVAL : Z := secs 10.
Definition STATS_INITIAL_OFFSET : Z := secs 2.
Definition DECRYPTION_ERROR_INTERVAL : Z := ms 500.
Definition MEMBERSHIP_PROOF_REQUEST_INTERVAL : Z := secs (24 * 60 * 60).
Definition RAISE_HAND_INTERVAL : Z := ms 500.
Definition BWE_INTERVAL : Z := secs 1.
Definition DELAYED_BWE_CHECK : Z := secs 10.
Definition REACTION_STRING_MAX_SIZE : Z := 256.
Definition CLIENT_END_DELAY : Z := ms 20.
Definition MAX_PACKET_SERIALIZED_BYTE_SIZE : Z := 1200.
Definition MRP_FRAGMENT_OVERHEAD : Z := 60.
Definition MAX_MRP_FRAGMENT_BYTE_SIZE : Z := MAX_PACKET_SERIALIZED_BYTE_SIZE - MRP_FRAGMENT_OVERHEAD.

(** ** Closures *)

Inductive Task : Type :=
| TInit
| TProvideRingIdIfAbsent (ring_id : RingId)
| TOverrideSendRates (rates : SendRates)
| TTick
| TConnect
| TJoin
| TLeave
| TDisconnect
| TRing (recipient : option UserId)
| TSetOutgoingAudioMuted (muted : bool) (source : option DemuxId)
| TSendRemoteMuteRequest (target : DemuxId)
| TSetOutgoingVideoMuted (muted : bool)
| TSetPresenting (presenting : bool)
| TSetSharingScreen (sharing_screen : bool)
| TResendMediaKeys
| TSetDataMode (mode : DataMode.DataMode)
| TRequestVideo (requests : list VideoRequest) (active_speaker_height : Z)
| TApproveOrDenyUser (user : UserId) (approved : bool)
| TRemoveClient (other : DemuxId)
| TBlockClient (other : DemuxId)
| TSetGroupMembers (members : list (UserId * list Z))
| TSetMembershipProof (proof : list Z)
| TReact (value : string)
| TRaiseHand (raise : bool)
| TEnd (reason : CallEndReason.CallEndReason)
| TJoinAttemptCompleted (result : result JoinedInfo Error)
| TSignalingMessageReceived (sender : UserId) (message : DeviceToDevice)
| TPeekResult (result : result PeekInfo Z)
| TSetRtcStatsInterval (interval : Z)
| TApplySendKey (secret : FrameCrypto.Secret) (endorsements_expiration : option Z)
| TSendDecryptionStats (errors : gmap DemuxId FrameCrypto.DecryptionErrorStats)
| TReliableSfuToDevice (mrp_header : MrpHeader) (header : RtpHeader) (msg : SfuToDevice)
| TEndorsementsOrDevices (sys_now : SystemTime) (endorsements : option SendEndorsementsResponse)
    (device_joined_or_left : option (option ProtoPeekInfo))
| TRemoved
| TSpeaker (timestamp : Z) (d : DemuxId)
| TForwardingVideo (demux_ids_with_video : list DemuxId) (allocated_heights : list Z)
| THeartbeat (d : DemuxId) (timestamp : Z) (heartbeat : HeartbeatProto)
| TLeaving (expected_user_id : option UserId) (d : DemuxId)
| TRequestRemoteDevices
| TReaction (d : DemuxId) (value : string)
| TRemoteMuteRequest (source target : DemuxId)
| TRaisedHands (raised_hands : list DemuxId) (server_seqnum : Z)
| TRequestIfUnknown (d : DemuxId)
| TIceConnectionState (st : IceConnectionState)
| TNetworkRoute (route : NetworkRoute)
| TIncomingVideoTrack (d : option DemuxId)
| TVideoFrameHeight (d : DemuxId) (height : Z)
| TNothing.

(** ** Calls that leave the client *)

Inductive RemoteDevicesChangedReason : Type :=
| DemuxIdsChanged
| MediaKeyReceived (d : DemuxId)
| SpeakerTimeChanged (d : DemuxId)
| HeartbeatStateChanged (d : DemuxId)
| ForwardedVideosChanged
| HigherResolutionPendingChanged.

Inductive ObserverCall : Type :=
| RequestMembershipProof
| RequestGroupMembers
| SendSignalingMessage (recipient : UserId) (message : CallMessage) (urgency : SignalingMessageUrgency)
| SendSignalingMessageToGroup (group : GroupId) (message : CallMessage)
    (urgency : SignalingMessageUrgency) (recipients : gset UserId)
| SendSignalingMessageToAdhocGroup (message : CallMessage) (urgency : SignalingMessageUrgency)
    (expiration : Z) (recipients_to_endorsements : gmap UserId GroupSendEndorsement)
| HandleConnectionStateChanged (st : ConnectionState)
| HandleNetworkRouteChanged (route : NetworkRoute)
| HandleJoinStateChanged (st : JoinState)
| HandleSendRatesChanged (rates : SendRates)
| HandleRemoteDevicesChanged (devices : list RemoteDeviceState) (reason : RemoteDevicesChangedReason)
| HandlePeekChanged (peek_info : PeekInfo) (joined_members : gset UserId)
| HandleIncomingVideoTrack (d : DemuxId)
| HandleSpeakingNotification (event : SpeechEvent)
| HandleAudioLevels (captured : Z) (received : list (Z * Z))
| HandleLowBandwidthForVideo (recovered : bool)
| HandleReactions (reactions : list (DemuxId * string))
| HandleRaisedHands (raised_hands : list DemuxId)
| HandleRemoteMuteRequest (source : DemuxId)
| HandleObservedRemoteMute (source target : DemuxId)
| HandleRtcStatsReport
| HandleEnded (reason : CallEndReason.CallEndReason)
| HandleEndorsementsUpdate (update : result (Z * gmap UserId GroupSendEndorsement)
    Endorsements.EndorsementUpdateError).

Inductive PeerCall : Type :=
| UpdateTransceivers (remote_demux_ids : list DemuxId)
| CreateOffer
| LocalForGroupCall (ufrag pwd : string) (key : SrtpKey) (d : DemuxId) (remote : list DemuxId)
| SetLocalDescription
| RemoteForGroupCall (ufrag pwd : string) (key : SrtpKey) (d : DemuxId) (remote : list DemuxId)
| SetRemoteDescription
| AddIceCandidateFromServer (address : list Z * Z) (protocol : string)
| ReceiveRtp
| SendRtp (header : RtpHeader) (payload : list Z)
| SetSendRates (rates : SendRates)
| SetOutgoingMediaEnabled (enabled : bool)
| SetIncomingMediaEnabled (enabled : bool)
| SetAudioPlayoutEnabled (enabled : bool)
| SetAudioRecordingEnabled (enabled : bool)
| ConfigureAudio
| GetStats
| RegatherOnAllNetworks
| Close.

Inductive SfuCall : Type :=
| SfuJoin (ufrag pwd : string) (dhe_pub_key : list Z)
| SfuPeek
| SfuSetMembershipProof (proof : list Z)
| SfuSetGroupMembers (members : list (UserId * list Z)).

(** Calls of the summary of the call, which collects what happens; see [CallSummary]. *)
Inductive SummaryCall : Type :=
| OnConnectionStateChanged (st : ConnectionState)
| OnIceNetworkRouteChanged (route : NetworkRoute)
| OnRemoteDevicesChanged (device_count : Z).

Inductive Output : Type :=
| ToObserver (c : ObserverCall)
| ToPeer (c : PeerCall)
| ToSfu (c : SfuCall)
| ToSummary (c : SummaryCall).

(** The answers of the outside during one task.  [env_peer n] answers the call of
    the peer connection that follows [n] other calls. *)
Record Env : Type := mkEnv {
  env_now : Instant;
  env_system_now : SystemTime;
  env_peer : nat -> result unit Error;
  env_audio_levels : Z * list (Z * Z);
  env_bandwidth_estimate : DataRate.DataRate;
  env_stats_report : bool;
  env_random_secret : FrameCrypto.Secret;
  env_dhe_secret : StaticSecret;
  env_demux_order : list DemuxId -> list DemuxId;
  env_user_order : list UserId -> list UserId;
}.

(** ** The state *)

Inductive DheState : Type :=
| NotYetStarted
| WaitingForServerPublicKey (client_secret : StaticSecret)
| FailedToNegotiate
| Negotiated (srtp_keys : SrtpKeys).

(** [State]; [sent] are the closures that the running one sends to the actor,
    [stopped] whether it stops the actor.  [busy] and [self_uuid] are shared with
    the call manager, [frame_crypto_context] with the threads of WebRTC; statistics,
    the state of the call summary and pointers are left out. *)
Record State : Type := mkState {
  group_id : GroupId;
  kind : GroupCallKind;
  busy : bool;
  self_uuid : option UserId;
  connection_state : ConnectionState;
  join_state : JoinState;
  remote_devices : list RemoteDeviceState;
  dhe_state : DheState;
  remote_devices_request_state : RemoteDevicesRequestState;
  last_peek_info : option PeekInfo;
  known_members : gset UserId;
  member_resolver : MemberMap;
  endorsement_public_key : option EndorsementPublicKey;
  joined_members : gset UserId;
  pending_users_signature : Z;
  outgoing_heartbeat_state : HeartbeatState;
  local_ice_ufrag : string;
  local_ice_pwd : string;
  sfu_info : option SfuInfo;
  rtp_data_to_sfu_next_seqnum : Z;
  rtp_data_through_sfu_next_seqnum : Z;
  next_heartbeat_time : option Instant;
  remote_transceiver_demux_ids : list (option DemuxId);
  next_stats_time : option Instant;
  get_stats_interval : Z;
  next_decryption_error_time : option Instant;
  audio_levels_interval : option Z;
  next_audio_levels_time : option Instant;
  speaking_interval : Z;
  next_speaking_audio_levels_time : option Instant;
  started_speaking : option Instant;
  silence_started : option Instant;
  last_speaking_notification : option SpeechEvent;
  next_membership_proof_request_time : option Instant;
  next_raise_hand_time : option Instant;
  bwe_check_state : BweCheckState;
  group_send_endorsement_cache : option Endorsements.EndorsementsCache;
  frame_crypto_context : FrameCrypto.Context;
  pending_media_receive_keys : list (UserId * DemuxId * FrameCrypto.RatchetCounter * FrameCrypto.Secret);
  media_send_key_rotation_state : KeyRotationState;
  video_requests : option (list VideoRequest);
  active_speaker_height : option Z;
  on_demand_video_request_sent_since_last_heartbeat : bool;
  speaker_rtp_timestamp : option Z;
  send_rates : SendRates;
  send_rates_override : option SendRates;
  max_receive_rate : option DataRate.DataRate;
  data_mode : DataMode.DataMode;
  forwarding_videos : gmap DemuxId Z;
  outgoing_ring_state : OutgoingRingState;
  reactions : list (DemuxId * string);
  raised_hands : list DemuxId;
  raise_hand_state : RaiseHandState;
  mute_request : option DemuxId;
  sfu_reliable_stream : Stream.MrpStream (list Z) (RtpHeader * SfuToDevice);
  sent : list (Actor.Sent Task);
  stopped : bool;
  outputs : list Output;
}.

#[global] Instance State_eta : Eta State := fun r =>
  mkState
    (group_id r) (kind r) (busy r) (self_uuid r) (connection_state r) (join_state r)
    (remote_devices r) (dhe_state r) (remote_devices_request_state r) (last_peek_info r)
    (known_members r) (member_resolver r) (endorsement_public_key r) (joined_members r)
    (pending_users_signature r) (outgoing_heartbeat_state r) (local_ice_ufrag r)
    (local_ice_pwd r) (sfu_info r) (rtp_data_to_sfu_next_seqnum r)
    (rtp_data_through_sfu_next_seqnum r) (next_heartbeat_time r) (remote_transceiver_demux_ids r)
    (next_stats_time r) (get_stats_interval r) (next_decryption_error_time r)
    (audio_levels_interval r) (next_audio_levels_time r) (speaking_interval r)
    (next_speaking_audio_levels_time r) (started_speaking r) (silence_started r)
    (last_speaking_notification r) (next_membership_proof_request_time r)
    (next_raise_hand_time r) (bwe_check_state r) (group_send_endorsement_cache r)
    (frame_crypto_context r) (pending_media_receive_keys r) (media_send_key_rotation_state r)
    (video_requests r) (active_speaker_height r)
    (on_demand_video_request_sent_since_last_heartbeat r) (speaker_rtp_timestamp r)
    (send_rates r) (send_rates_override r) (max_receive_rate r) (data_mode r)
    (forwarding_videos r) (outgoing_ring_state r) (reactions r) (raised_hands r)
    (raise_hand_state r) (mute_request r) (sfu_reliable_stream r) (sent r) (stopped r)
    (outputs r).

(** [Client::start]: the state of the actor, and the first closure.  [stream] is
    [MrpStream::with_capacity_limit(RELIABLE_RTP_BUFFER_SIZE)]. *)
Definition start (now : SystemTime) (group_id : GroupId) (kind : GroupCallKind) (busy : bool)
    (self_uuid : option UserId) (ring_id : option RingId) (audio_levels_interval : option Z)
    (members : MemberMap) (public_key : option EndorsementPublicKey)
    (cache : option Endorsements.EndorsementsCache) (ufrag pwd : string)
    (secret : FrameCrypto.Secret) : outcome State :=
  stream ← Stream.with_capacity_limit RELIABLE_RTP_BUFFER_SIZE;
  Val {|
    group_id := group_id;
    kind := kind;
    busy := busy;
    self_uuid := self_uuid;
    connection_state := NotConnected;
    join_state := NotJoined ring_id;
    remote_devices := [];
    dhe_state := NotYetStarted;
    remote_devices_request_state := match kind with SignalGroup => WaitingForMembershipProof | CallLink => NeverRequested end;
    last_peek_info := None;
    known_members := ∅;
    member_resolver := members;
    endorsement_public_key := public_key;
    joined_members := ∅;
    pending_users_signature := 0;
    outgoing_heartbeat_state := default_heartbeat;
    local_ice_ufrag := ufrag;
    local_ice_pwd := pwd;
    sfu_info := None;
    rtp_data_to_sfu_next_seqnum := 1;
    rtp_data_through_sfu_next_seqnum := 1;
    next_heartbeat_time := None;
    remote_transceiver_demux_ids := [];
    next_stats_time := None;
    get_stats_interval := DEFAULT_STATS_INTERVAL;
    next_decryption_error_time := None;
    audio_levels_interval := audio_levels_interval;
    next_audio_levels_time := None;
    speaking_interval := SPEAKING_POLL_INTERVAL;
    next_speaking_audio_levels_time := None;
    started_speaking := None;
    silence_started := None;
    last_speaking_notification := None;
    next_membership_proof_request_time := None;
    next_raise_hand_time := None;
    bwe_check_state := BweDisabled;
    group_send_endorsement_cache := cache;
    frame_crypto_context := FrameCrypto.new now secret;
    pending_media_receive_keys := [];
    media_send_key_rotation_state := Applied;
    video_requests := None;
    active_speaker_height := None;
    on_demand_video_request_sent_since_last_heartbeat := false;
    speaker_rtp_timestamp := None;
    send_rates := default_rates;
    send_rates_override := None;
    max_receive_rate := Some NORMAL_MAX_RECEIVE_RATE;
    data_mode := DataMode.Normal;
    forwarding_videos := ∅;
    outgoing_ring_state := RingUnknown;
    reactions := [];
    raised_hands := [];
    raise_hand_state := mkRaiseHand 0 false false;
    mute_request := None;
    sfu_reliable_stream := stream;
    sent := [Actor.immediate TInit];
    stopped := false;
    outputs := [];
  |}.

(** ** Code on the state *)

(** A closure can panic; it handles the errors of the calls that it makes. *)
Inductive Fault : Type := Panicked.

Notation SE := (ST State Error).
Notation GM := (ST State Fault).

(** [if let Err(err) = ... { warn!(..) }] *)
Definition ignore {A} (m : SE A) : GM unit := fun s => ((m s).1, Ok tt).

(** [.is_err()] *)
Definition is_err {A} (m : SE A) : GM bool := fun s => ((m s).1, Ok (negb (is_ok (m s).2))).

Definition when (b : bool) (m : GM unit) : GM unit := if b then m else ret_ok.

Definition emit (o : Output) : GM unit := modify (fun s => s <| outputs := outputs s ++ [o] |>).
Definition observe (c : ObserverCall) : GM unit := emit (ToObserver c).
Definition sfu_client (c : SfuCall) : GM unit := emit (ToSfu c).
Definition call_summary (c : SummaryCall) : GM unit := emit (ToSummary c).
(** Calls of the peer connection without a result. *)
Definition peer (c : PeerCall) : GM unit := emit (ToPeer c).
(** Calls with a result. *)
Definition peer_result (env : Env) (c : PeerCall) : SE unit := fun s =>
  (s <| outputs := outputs s ++ [ToPeer c] |>, env_peer env (length (outputs s))).

Definition actor_send (t : Task) : GM unit :=
  modify (fun s => s <| sent := sent s ++ [Actor.immediate t] |>).
Definition actor_send_delayed (env : Env) (delay : Z) (t : Task) : GM unit :=
  modify (fun s => s <| sent := sent s ++ [Actor.delayed (env_now env) t delay] |>).

Definition on_crypto {A E} (m : ST FrameCrypto.Context E A) : ST State E A := fun s =>
  let '(c, r) := m (frame_crypto_context s) in (s <| frame_crypto_context := c |>, r).

(** Code of the context that does not fail. *)
Definition crypto {A} (m : ST FrameCrypto.Context FrameCrypto.Error A) : GM A := fun s =>
  match m (frame_crypto_context s) with
  | (c, Ok a) => (s <| frame_crypto_context := c |>, Ok a)
  | (c, Err _) => (s <| frame_crypto_context := c |>, Err Panicked)
  end.

(** Code of the reliable stream, which calls back to send; [expect]s of the stream
    panic. *)
Definition on_stream {A} (f : State -> Stream.MrpStream (list Z) (RtpHeader * SfuToDevice) ->
    outcome (State * Stream.MrpStream (list Z) (RtpHeader * SfuToDevice) * A)) : GM A := fun s =>
  match f s (sfu_reliable_stream s) with
  | Val (s', st, a) => (s' <| sfu_reliable_stream := st |>, Ok a)
  | Panic => (s, Err Panicked)
  end.

Section Operations.
Context (env : Env).

(** Elements of a hash set in the order of its walk. *)
Definition in_order {A} `{Countable A} (order : list A -> list A) (x : gset A) : list A :=
  let l := elements x in if bool_decide (order l ≡ₚ l) then order l else l.

(** The local device while it is in the call. *)
Definition local_demux (j : JoinState) : option DemuxId :=
  match j with
  | Pending d | Joined d => Some d
  | _ => None
  end.

(** ** Sending data *)

Definition unreliable_send_data_inner (j : JoinState) (ssrc seqnum : Z) (message : list Z) : SE Z :=
  match local_demux j with
  | Some _ =>
    peer_result env (SendRtp (mkRtpHeader GROUP_RTP_DATA_PAYLOAD_TYPE (wrap 16 seqnum) seqnum ssrc) message) ;;
    mret (wrap 32 (seqnum + 1))
  | None => fail (RingRtcError.Anyhow "Can't perform reliable send, invalid JoinState")
  end.

Definition unreliable_send_data_to_sfu (message : list Z) : SE unit :=
  s ← get;
  n ← unreliable_send_data_inner (join_state s) RTP_DATA_TO_SFU_SSRC (rtp_data_to_sfu_next_seqnum s) message;
  modify (fun s => s <| rtp_data_to_sfu_next_seqnum := n |>).

Definition broadcast_data_through_sfu (message : list Z) : SE unit :=
  s ← get;
  match join_state s with
  | Joined local_demux_id =>
    message ← on_crypto (FrameFormat.encrypt_data message);
    let ssrc := Z.min U32_MAX (local_demux_id + RTP_DATA_THROUGH_SFU_SSRC_OFFSET) in
    n ← unreliable_send_data_inner (join_state s) ssrc (rtp_data_through_sfu_next_seqnum s) message;
    modify (fun s => s <| rtp_data_through_sfu_next_seqnum := n |>)
  | _ => ret_ok
  end.

(** [message.chunks(n)] *)
Fixpoint chunks (fuel : nat) (n : nat) (l : list Z) : list (list Z) :=
  match fuel, l with
  | S fuel, _ :: _ => take n l :: chunks fuel n (drop n l)
  | _, _ => []
  end.

(** The callback of [try_send_fragmented]; it ignores errors of [send_rtp] and
    counts on. *)
Definition send_fragment (s : State) (idx : nat) (mrp_header : MrpHeader) (fragment : list Z)
  : State * (list Z * Z) :=
  let seqnum := rtp_data_to_sfu_next_seqnum s in
  let payload := pb_encode (default_d2s <| d2s_mrp_header := Some mrp_header |>
                                        <| d2s_content := Some fragment |>) in
  let s := (peer_result env (SendRtp (mkRtpHeader GROUP_RTP_DATA_PAYLOAD_TYPE (wrap 16 seqnum) seqnum
              RTP_DATA_TO_SFU_SSRC) payload) s).1 in
  (s <| rtp_data_to_sfu_next_seqnum := wrap 32 (seqnum + 1) |>,
   (payload, env_now env + DEVICE_TO_SFU_TIMEOUT)).

Definition reliable_send_to_sfu_inner (message : list Z) : GM (result unit Error) :=
  s ← get;
  match local_demux (join_state s) with
  | Some _ =>
    r ← on_stream (fun s st =>
      Stream.try_send_fragmented (E := Error)
        (chunks (length message) (Z.to_nat MAX_MRP_FRAGMENT_BYTE_SIZE) message) send_fragment s st);
    mret (match r with Ok _ => Ok tt | Err _ => Err (RingRtcError.Anyhow "send window full") end)
  | None => mret (Err (RingRtcError.Anyhow "Can't perform reliable send, invalid JoinState"))
  end.

(** Errors are only logged by the callers. *)
Definition send_data_to_sfu (message : list Z) : GM unit :=
  if zlen message >? MAX_MRP_FRAGMENT_BYTE_SIZE then
    _ ← reliable_send_to_sfu_inner message; ret_ok
  else ignore (unreliable_send_data_to_sfu message).

(** The callback of [try_send]. *)
Definition send_reliable (message : DeviceToSfu) (s : State) (header : MrpHeader)
  : State * result (list Z * Z) Error :=
  let payload := pb_encode (message <| d2s_mrp_header := Some header |>) in
  match unreliable_send_data_to_sfu payload s with
  | (s, Ok _) => (s, Ok (payload, env_now env + DEVICE_TO_SFU_TIMEOUT))
  | (s, Err e) => (s, Err e)
  end.

Definition reliable_send_device_to_sfu (message : DeviceToSfu) : GM unit :=
  _ ← on_stream (Stream.try_send (send_reliable message)); ret_ok.

(** ** Messages *)

Definition default_d2d : DeviceToDevice := mkDeviceToDevice None None None None None None.

Definition send_heartbeat : SE unit :=
  h ← gets outgoing_heartbeat_state;
  broadcast_data_through_sfu (pb_encode (mkDeviceToDevice None None
    (Some (mkHeartbeat (audio_muted h) (video_muted h) (presenting h) (sharing_screen h)
             (muted_by_demux_id h))) None None None)).

Definition send_reaction (value : string) : SE unit :=
  broadcast_data_through_sfu (pb_encode (mkDeviceToDevice None None None None (Some (Some value)) None)).

Definition send_raise_hand : GM unit :=
  r ← gets raise_hand_state;
  ignore (unreliable_send_data_to_sfu
    (pb_encode (default_d2s <| d2s_raise_hand := Some (rh_raise r, rh_seqnum r) |>))).

Definition send_leave_to_sfu : GM unit :=
  let msg := pb_encode (default_d2s <| d2s_leave := true |>) in
  ignore (unreliable_send_data_to_sfu msg) ;;
  ignore (unreliable_send_data_to_sfu msg).

(** [recipients.take(self_uuid)] *)
Definition take_self (self : option UserId) (recipients : gset UserId) : gset UserId * option UserId :=
  match self with
  | Some u => if bool_decide (u ∈ recipients) then (recipients ∖ {[u]}, Some u) else (recipients, None)
  | None => (recipients, None)
  end.

Definition send_to_each (recipients : list UserId) (message : CallMessage) : GM unit :=
  for_each recipients (fun r => observe (SendSignalingMessage r message Droppable)).

Definition send_leaving_through_sfu_and_over_signaling (local_demux_id : DemuxId) : GM unit :=
  ignore (broadcast_data_through_sfu (pb_encode (mkDeviceToDevice None None None (Some None) None None))) ;;
  s ← get;
  let call_message := mkCallMessage
    (Some (mkDeviceToDevice (Some (group_id s)) None None (Some (Some local_demux_id)) None None)) None None in
  let '(recipients, self_uuid_to_send_to) := take_self (self_uuid s) (joined_members s) in
  (if (Z.of_nat (size recipients) >? 1) && bool_decide (kind s = SignalGroup) then
     observe (SendSignalingMessageToGroup (group_id s) call_message Droppable recipients)
   else send_to_each (in_order (env_user_order env) recipients) call_message) ;;
  match self_uuid_to_send_to with
  | Some u => observe (SendSignalingMessage u call_message Droppable)
  | None => ret_ok
  end.

Definition millis (t : SystemTime) : Z := Z.max 0 t / 10 ^ 6.

Definition send_decryption_stats_inner
    (errors : gmap DemuxId FrameCrypto.DecryptionErrorStats) : GM unit :=
  let protos := omap (fun d =>
    (fun e => (d, FrameCrypto.count e, millis (FrameCrypto.start_time e), millis (FrameCrypto.last_time e)))
      <$> errors !! d) (in_order (env_demux_order env) (dom errors)) in
  send_data_to_sfu (pb_encode (default_d2s <| d2s_stats := Some protos |>)).

Definition ring_message (s : State) (ring_id : RingId) (ty : Z) : CallMessage :=
  mkCallMessage None (Some (mkRingIntention (Some (group_id s)) (Some ty) (Some ring_id))) None.

Definition cancel_full_group_ring_if_needed : GM unit :=
  s ← get;
  match outgoing_ring_state s with
  | HasSentRing ring_id =>
    observe (SendSignalingMessageToGroup (group_id s) (ring_message s ring_id 1) HandleImmediately ∅)
  | _ => ret_ok
  end.

(** ** Asking for the devices *)

Definition maybe_request_remote_devices (max_age : Z) (rerequest_if_pending : bool) : GM unit :=
  let now := env_now env in
  st ← gets remote_devices_request_state;
  let should_request_now :=
    match st with
    | WaitingForMembershipProof => false
    | NeverRequested => true
    | RequestedAt _ request_time => now >? request_time + secs 5
    | UpdatedAt update_time => now >=? update_time + max_age
    | FailedAt failure_time => now >? failure_time + secs 5
    end in
  if should_request_now then
    sfu_client SfuPeek ;;
    modify (fun s => s <| remote_devices_request_state := RequestedAt false now |>)
  else if rerequest_if_pending then
    match st with
    | RequestedAt _ t => modify (fun s => s <| remote_devices_request_state := RequestedAt true t |>)
    | _ => ret_ok
    end
  else ret_ok.

Definition request_remote_devices_as_soon_as_possible : GM unit :=
  maybe_request_remote_devices 0 true.

Definition request_remote_devices_from_sfu_if_older_than (max_age : Z) : GM unit :=
  maybe_request_remote_devices max_age false.

(** ** Connection and join states *)

Definition set_connection_state_and_notify_observer (st : ConnectionState) : GM unit :=
  modify (fun s => s <| connection_state := st |>) ;;
  observe (HandleConnectionStateChanged st) ;;
  call_summary (OnConnectionStateChanged st).

Definition set_join_state_and_notify_observer (st : JoinState) : GM unit :=
  modify (fun s => s <| join_state := st |>) ;;
  observe (HandleJoinStateChanged st).

Definition take_busy : GM bool :=
  b ← gets busy;
  if b : bool then mret false
  else modify (fun s => s <| busy := true |>) ;; mret true.

Definition release_busy : GM unit := modify (fun s => s <| busy := false |>).

Definition leave_inner : GM unit :=
  cancel_full_group_ring_if_needed ;;
  errors ← gets (fun s => FrameCrypto.get_error_stats (frame_crypto_context s));
  when (negb (bool_decide (errors = ∅))) (send_decryption_stats_inner errors) ;;
  j ← gets join_state;
  let disable_media := peer (SetOutgoingMediaEnabled false) ;; peer (SetIncomingMediaEnabled false) in
  let finish :=
    release_busy ;;
    set_join_state_and_notify_observer (NotJoined None) ;;
    modify (fun s => s <| next_heartbeat_time := None |> <| next_stats_time := None |>
                       <| next_audio_levels_time := None |>
                       <| next_speaking_audio_levels_time := None |>
                       <| next_membership_proof_request_time := None |>) in
  match j with
  | NotJoined _ => ret_ok
  | Joining => disable_media ;; finish
  | Pending local_demux_id | Joined local_demux_id =>
    disable_media ;;
    send_leaving_through_sfu_and_over_signaling local_demux_id ;;
    send_leave_to_sfu ;;
    finish
  end.

(** [end], a keyword here. *)
Definition end_ (reason : CallEndReason.CallEndReason) : GM unit :=
  j ← gets join_state;
  match j with
  | NotJoined _ => ret_ok
  | _ => leave_inner
  end ;;
  c ← gets connection_state;
  match c with
  | NotConnected => ret_ok
  | _ => actor_send_delayed env CLIENT_END_DELAY (TEnd reason)
  end.

(** The delayed closure of [end]; stopping the actor also sends it an empty closure. *)
Definition finish_end (reason : CallEndReason.CallEndReason) : GM unit :=
  peer Close ;;
  set_connection_state_and_notify_observer NotConnected ;;
  modify (fun s => s <| stopped := true |>) ;;
  actor_send TNothing ;;
  observe (HandleEnded reason).

(** ** Media keys *)

Definition send_media_send_key_to_users_over_signaling (recipients : gset UserId)
    (local_demux_id : DemuxId) (ratchet_counter : FrameCrypto.RatchetCounter)
    (secret : FrameCrypto.Secret) (endorsements_expiration : option Z) : GM unit :=
  if bool_decide (recipients = ∅) then ret_ok
  else
    s ← get;
    let media_key := mkMediaKey (Some ratchet_counter) (Some secret) (Some local_demux_id) in
    let call_message := mkCallMessage
      (Some (mkDeviceToDevice (Some (group_id s)) (Some media_key) None None None None)) None None in
    let '(recipients, self_uuid_to_send_to) := take_self (self_uuid s) recipients in
    match kind s, group_send_endorsement_cache s with
    | SignalGroup, _ =>
      if Z.of_nat (size recipients) >? 1 then
        observe (SendSignalingMessageToGroup (group_id s) call_message Droppable recipients)
      else send_to_each (in_order (env_user_order env) recipients) call_message
    | CallLink, Some endorsement_cache =>
      let recipients := in_order (env_user_order env) recipients in
      match Endorsements.get_endorsements_for_users endorsement_cache endorsements_expiration recipients with
      | Some (expiration, recipients_to_endorsements) =>
        observe (SendSignalingMessageToAdhocGroup call_message Droppable expiration recipients_to_endorsements)
      | None => send_to_each recipients call_message
      end
    | CallLink, None => send_to_each (in_order (env_user_order env) recipients) call_message
    end ;;
    match self_uuid_to_send_to with
    | Some u => observe (SendSignalingMessage u call_message Droppable)
    | None => ret_ok
    end.

Definition remote_users (s : State) : gset UserId := list_to_set (user_id <$> remote_devices s).

Definition rotate_media_send_key_and_send_to_users_not_removed (endorsements_expiration : option Z)
  : GM unit :=
  s ← get;
  match media_send_key_rotation_state s with
  | PendingRotation secret _ =>
    modify (fun s => s <| media_send_key_rotation_state := PendingRotation secret true |>)
  | Applied =>
    let secret := env_random_secret env in
    match local_demux (join_state s) with
    | Some local_demux_id =>
      send_media_send_key_to_users_over_signaling (remote_users s) local_demux_id 0 secret
        endorsements_expiration
    | None => ret_ok
    end ;;
    modify (fun s => s <| media_send_key_rotation_state := PendingRotation secret false |>) ;;
    actor_send_delayed env (secs MEDIA_SEND_KEY_ROTATION_DELAY_SECS)
      (TApplySendKey secret endorsements_expiration)
  end.

(** Its delayed closure. *)
Definition apply_send_key (secret : FrameCrypto.Secret) (endorsements_expiration : option Z) : GM unit :=
  crypto (FrameCrypto.reset_send_ratchet secret) ;;
  st ← gets media_send_key_rotation_state;
  modify (fun s => s <| media_send_key_rotation_state := Applied |>) ;;
  match st with
  | PendingRotation _ true => rotate_media_send_key_and_send_to_users_not_removed endorsements_expiration
  | _ => ret_ok
  end.

Definition advance_media_send_key_and_send_to_users_with_added_devices (users : gset UserId)
    (endorsements_expiration : option Z) : GM unit :=
  '(ratchet_counter, secret) ← crypto FrameCrypto.advance_send_ratchet;
  j ← gets join_state;
  match local_demux j with
  | Some local_demux_id =>
    send_media_send_key_to_users_over_signaling users local_demux_id ratchet_counter secret
      endorsements_expiration
  | None => ret_ok
  end.

Definition send_pending_media_send_key_to_users_with_added_devices (users : gset UserId)
    (endorsements_expiration : option Z) : GM unit :=
  s ← get;
  match local_demux (join_state s), media_send_key_rotation_state s with
  | Some local_demux_id, PendingRotation secret _ =>
    send_media_send_key_to_users_over_signaling users local_demux_id 0 secret endorsements_expiration
  | _, _ => ret_ok
  end.

Definition add_media_receive_key_or_store_for_later (u : UserId) (d : DemuxId)
    (ratchet_counter : FrameCrypto.RatchetCounter) (secret : FrameCrypto.Secret) : GM unit :=
  s ← get;
  match find_by_demux_id (remote_devices s) d with
  | Some device =>
    if bool_decide (user_id device = u) then
      crypto (FrameCrypto.add_receive_secret d ratchet_counter secret) ;;
      modify (fun s => s <| remote_devices :=
        update_device d (fun r => r <| media_keys_received := true |>) (remote_devices s) |>) ;;
      when (negb (media_keys_received device))
        (l ← gets remote_devices; observe (HandleRemoteDevicesChanged l (MediaKeyReceived d)))
    else ret_ok
  | None =>
    when (bool_decide (pending_media_receive_keys s = []) && bool_decide (kind s = SignalGroup))
      (observe RequestGroupMembers) ;;
    modify (fun s => s <| pending_media_receive_keys :=
      pending_media_receive_keys s ++ [(u, d, ratchet_counter, secret)] |>)
  end.

(** ** Send rates *)

Definition compute_send_rates (joined_member_count : Z) (sharing_screen : bool) : SendRates :=
  if joined_member_count =? 0 then mkSendRates None None (Some ALL_ALONE_MAX_SEND_RATE)
  else if sharing_screen then
    mkSendRates (Some SCREENSHARE_MIN_SEND_RATE) (Some SCREENSHARE_START_SEND_RATE)
      (Some SCREENSHARE_MAX_SEND_RATE)
  else if (1 <=? joined_member_count) && (joined_member_count <=? 7) then
    mkSendRates None None (Some SMALL_CALL_MAX_SEND_RATE)
  else mkSendRates None None (Some LARGE_CALL_MAX_SEND_RATE).

Definition set_send_rates_inner (rates : SendRates) : GM unit :=
  s ← get;
  let rates := default rates (send_rates_override s) in
  if bool_decide (send_rates s = rates) then ret_ok
  else
    (if bool_decide (sr_max rates = Some ALL_ALONE_MAX_SEND_RATE) then
       peer (SetAudioRecordingEnabled false) ;;
       peer (SetOutgoingMediaEnabled false) ;;
       peer (SetAudioPlayoutEnabled false) ;;
       match bwe_check_state s with
       | BweAt _ => modify (fun s => s <| bwe_check_state := BweDisabled |>)
       | _ => ret_ok
       end
     else
       peer (SetAudioPlayoutEnabled true) ;;
       peer (SetOutgoingMediaEnabled true) ;;
       peer (SetAudioRecordingEnabled true) ;;
       when (bool_decide (bwe_check_state s = BweDisabled))
         (modify (fun s => s <| bwe_check_state := BweAt (env_now env + BWE_INTERVAL) |>))) ;;
    failed ← is_err (peer_result env (SetSendRates rates));
    if failed : bool then ret_ok
    else
      observe (HandleSendRatesChanged rates) ;;
      modify (fun s => s <| send_rates := rates |>).

(** ** The peer connection *)

Definition set_peer_connection_descriptions (sfu : SfuInfo) (local_demux_id : DemuxId)
    (keys : SrtpKeys) : SE unit :=
  s ← get;
  let remote_demux_ids := default 0 <$> remote_transceiver_demux_ids s in
  peer_result env (UpdateTransceivers remote_demux_ids) ;;
  peer_result env CreateOffer ;;
  peer_result env (LocalForGroupCall (local_ice_ufrag s) (local_ice_pwd s) (client_key keys)
    local_demux_id remote_demux_ids) ;;
  peer_result env SetLocalDescription ;;
  peer_result env (RemoteForGroupCall (sfu_ice_ufrag sfu) (sfu_ice_pwd sfu) (server_key keys)
    local_demux_id remote_demux_ids) ;;
  peer_result env SetRemoteDescription.

Definition start_peer_connection (sfu : SfuInfo) (local_demux_id : DemuxId) (keys : SrtpKeys)
  : SE unit :=
  set_peer_connection_descriptions sfu local_demux_id keys ;;
  for_each (udp_addresses sfu) (fun a => peer_result env (AddIceCandidateFromServer a "udp")) ;;
  for_each (tcp_addresses sfu) (fun a => peer_result env (AddIceCandidateFromServer a "tcp")) ;;
  for_each (tls_addresses sfu) (fun a =>
    match sfu_hostname sfu with
    | Some hostname => peer_result env (AddIceCandidateFromServer a hostname)
    | None => ret_ok
    end) ;;
  _ ← attempt (peer_result env ReceiveRtp); ret_ok.

Definition on_client_joined : GM unit := peer ConfigureAudio.

(** ** A new list of devices *)

(** [users_of_peek] and the hash of the pending ones. *)
Definition new_pending_signature (p : PeekInfo) : Z :=
  fold_left (fun a u => wrap 64 (a + default_hasher u)) (unique_pending_users p)
    (wrap 64 (zlen (pending_devices p))).

(** The old devices by their ids; later ones replace earlier ones. *)
Definition devices_by_id (l : list RemoteDeviceState) : gmap DemuxId RemoteDeviceState :=
  fold_left (fun m r => <[demux_id r := r]> m) l ∅.

(** The new devices: the old state of a device, if its user is the same; [true] if the
    local device is among them. *)
Fixpoint update_devices (local_demux_id : DemuxId) (added : SystemTime)
    (old : gmap DemuxId RemoteDeviceState) (l : list PeekDeviceInfo) : list RemoteDeviceState * bool :=
  match l with
  | [] => ([], false)
  | device :: l =>
    if pd_demux_id device =? local_demux_id then
      let '(ds, _) := update_devices local_demux_id added old l in (ds, true)
    else match pd_user_id device with
    | None => update_devices local_demux_id added old l
    | Some u =>
      let kept :=
        match old !! pd_demux_id device with
        | Some existing =>
          if bool_decide (user_id existing = u) then existing
          else new_device (pd_demux_id device) u added
        | None => new_device (pd_demux_id device) u added
        end in
      let '(ds, b) := update_devices local_demux_id added (delete (pd_demux_id device) old) l in
      (kept :: ds, b)
    end
  end.

(** Free the transceivers of devices that left. *)
Definition free_slots (new_ids : gset DemuxId) (slots : list (option DemuxId)) : list (option DemuxId) :=
  (fun o => match o with
            | Some id => if bool_decide (id ∈ new_ids) then Some id else None
            | None => None
            end) <$> slots.

(** Give the free ones to new devices; the devices that are left over. *)
Fixpoint fill_slots (new_ids : gset DemuxId) (slots : list (option DemuxId)) (added : list DemuxId)
  : list (option DemuxId) * list DemuxId :=
  match slots with
  | [] => ([], added)
  | o :: slots =>
    if match o with Some id => bool_decide (id ∈ new_ids) | None => false end then
      let '(slots, rest) := fill_slots new_ids slots added in (o :: slots, rest)
    else
      let '(slots, rest) := fill_slots new_ids slots (tail added) in (head added :: slots, rest)
  end.

Definition add_slots (new_ids : gset DemuxId) (slots : list (option DemuxId)) (added : list DemuxId)
  : list (option DemuxId) :=
  let '(slots, rest) := fill_slots new_ids slots added in slots ++ (Some <$> rest).

(** Tell the peer connection about the devices; [false] if that failed, and the call
    was ended. *)
Definition push_demux_ids (local_demux_id : DemuxId) (keys : SrtpKeys)
    (new_ids added_ids : gset DemuxId) : GM bool :=
  s ← get;
  match sfu_info s with
  | None => mret true
  | Some sfu =>
    let freed := free_slots new_ids (remote_transceiver_demux_ids s) in
    let removed_demux_id := negb (bool_decide (freed = remote_transceiver_demux_ids s)) in
    modify (fun s => s <| remote_transceiver_demux_ids := freed |>) ;;
    failed ← (if removed_demux_id
              then is_err (set_peer_connection_descriptions sfu local_demux_id keys)
              else mret false);
    if failed : bool then end_ CallEndReason.FailedToUpdatePeerConnection ;; mret false
    else if bool_decide (added_ids = ∅) then mret true
    else
      modify (fun s => s <| remote_transceiver_demux_ids :=
        add_slots new_ids (remote_transceiver_demux_ids s)
          (in_order (env_demux_order env) added_ids) |>) ;;
      failed ← is_err (set_peer_connection_descriptions sfu local_demux_id keys);
      if failed : bool then end_ CallEndReason.FailedToUpdatePeerConnection ;; mret false
      else mret true
  end.

(** Everything that a change of the devices entails once the peer connection knows
    of it: notifications, media keys, send rates, the ring. *)
Definition devices_changed (local_demux_id : DemuxId) (local_device_is_participant : bool)
    (old_ids new_ids added_ids : gset DemuxId) (old_user_ids new_user_ids : gset UserId)
    (endorsements_expiration : option Z) : GM unit :=
  when (negb (bool_decide (old_ids = new_ids)))
    (l ← gets remote_devices;
     observe (HandleRemoteDevicesChanged l DemuxIdsChanged) ;;
     call_summary (OnRemoteDevicesChanged (zlen l))) ;;
  j ← gets join_state;
  match local_device_is_participant, j with
  | true, Pending _ =>
    set_join_state_and_notify_observer (Joined local_demux_id) ;;
    on_client_joined
  | _, _ => ret_ok
  end ;;
  l ← gets remote_devices;
  let users_with_added_devices : gset UserId :=
    list_to_set (user_id <$> filter (fun r => demux_id r ∈ added_ids) l) in
  when (negb (bool_decide (users_with_added_devices = ∅)))
    (advance_media_send_key_and_send_to_users_with_added_devices users_with_added_devices
       endorsements_expiration ;;
     send_pending_media_send_key_to_users_with_added_devices users_with_added_devices
       endorsements_expiration) ;;
  when (negb (bool_decide (old_user_ids ∖ new_user_ids = ∅)))
    (rotate_media_send_key_and_send_to_users_not_removed endorsements_expiration) ;;
  keys ← gets pending_media_receive_keys;
  modify (fun s => s <| pending_media_receive_keys := [] |>) ;;
  for_each keys (fun '(u, d, ratchet_counter, secret) =>
    add_media_receive_key_or_store_for_later u d ratchet_counter secret) ;;
  h ← gets outgoing_heartbeat_state;
  when local_device_is_participant
    (set_send_rates_inner (compute_send_rates (Z.of_nat (size new_ids))
       (default false (sharing_screen h)))) ;;
  r ← gets outgoing_ring_state;
  match r with
  | HasSentRing _ =>
    when (negb (bool_decide (new_ids = ∅)))
      (modify (fun s => s <| outgoing_ring_state := NotPermittedToRing |>))
  | _ => ret_ok
  end.

(** The part of [set_peek_result_inner] for a device in the call; [false] if the call
    was ended. *)
Definition update_call (peek_info : PeekInfo) (local_demux_id : DemuxId) (keys : SrtpKeys)
    (old_user_ids new_user_ids : gset UserId) (endorsements_expiration : option Z) : GM bool :=
  old ← gets remote_devices;
  let old_ids := demux_id_set old in
  let '(ds, local_device_is_participant) :=
    update_devices local_demux_id (env_system_now env) (devices_by_id old) (devices peek_info) in
  modify (fun s => s <| remote_devices := ds |>) ;;
  let new_ids := demux_id_set ds in
  let added_ids := new_ids ∖ old_ids in
  continue ← (if bool_decide (old_ids = new_ids) then mret true
              else push_demux_ids local_demux_id keys new_ids added_ids);
  if continue : bool then
    devices_changed local_demux_id local_device_is_participant old_ids new_ids added_ids
      old_user_ids new_user_ids endorsements_expiration ;;
    mret true
  else mret false.

Definition set_peek_result_inner (result : result PeekInfo Z) (endorsements_expiration : option Z)
  : GM unit :=
  match result with
  | Err _ => modify (fun s => s <| remote_devices_request_state := FailedAt (env_now env) |>)
  | Ok peek_info =>
    s ← get;
    let is_first_peek_info := match last_peek_info s with None => true | Some _ => false end in
    let should_request_again :=
      match remote_devices_request_state s with RequestedAt true _ => true | _ => false end in
    modify (fun s => s <| remote_devices_request_state := UpdatedAt (env_now env) |>) ;;
    let old_user_ids := joined_members s in
    modify (fun s => s <| joined_members := ∅ |>) ;;
    let new_user_ids := unique_users peek_info in
    let signature := new_pending_signature peek_info in
    let pending_users_changed := negb (pending_users_signature s =? signature) in
    let old_era_id := last_peek_info s ≫= era_id in
    when (is_first_peek_info || negb (bool_decide (old_user_ids = new_user_ids))
          || negb (bool_decide (old_era_id = era_id peek_info)) || pending_users_changed)
      (observe (HandlePeekChanged peek_info new_user_ids)) ;;
    continue ← match local_demux (join_state s), dhe_state s with
      | Some local_demux_id, Negotiated keys =>
        update_call peek_info local_demux_id keys old_user_ids new_user_ids endorsements_expiration
      | _, _ => mret true
      end;
    when continue
      (modify (fun s => s <| last_peek_info := Some peek_info |>
                          <| joined_members := new_user_ids |>
                          <| pending_users_signature := signature |>) ;;
       when should_request_again request_remote_devices_as_soon_as_possible)
  end.

(** ** Requests of the application *)

Definition provide_ring_id_if_absent (ring_id : RingId) : GM unit :=
  j ← gets join_state;
  match j with
  | NotJoined None => modify (fun s => s <| join_state := NotJoined (Some ring_id) |>)
  | _ => ret_ok
  end.

Definition override_send_rates (rates : SendRates) : GM unit :=
  modify (fun s => s <| send_rates_override := Some rates |>) ;;
  set_send_rates_inner rates.

Definition accept_ring_if_needed (ring_id : option RingId) : GM unit :=
  s ← get;
  match ring_id, self_uuid s with
  | Some ring_id, Some self_uuid =>
    observe (SendSignalingMessage self_uuid
      (mkCallMessage None None (Some (mkRingResponse (Some (group_id s))
        (Some (response_type_to_i32 ResponseAccepted)) (Some ring_id)))) HandleImmediately)
  | _, _ => ret_ok
  end.

Definition join : GM unit :=
  j ← gets join_state;
  match j with
  | NotJoined ring_id =>
    taken ← take_busy;
    if taken : bool then
      set_join_state_and_notify_observer Joining ;;
      accept_ring_if_needed ring_id ;;
      k ← gets kind;
      when (bool_decide (k = SignalGroup))
        (observe RequestMembershipProof ;;
         modify (fun s => s <| next_membership_proof_request_time :=
           Some (env_now env + MEMBERSHIP_PROOF_REQUEST_INTERVAL) |>)) ;;
      let client_secret := env_dhe_secret env in
      modify (fun s => s <| dhe_state := WaitingForServerPublicKey client_secret |>) ;;
      s ← get;
      sfu_client (SfuJoin (local_ice_ufrag s) (local_ice_pwd s) (public_key_of client_secret))
    else end_ CallEndReason.CallManagerIsBusy
  | _ => ret_ok
  end.

Definition leave : GM unit := leave_inner.

Definition disconnect : GM unit := end_ CallEndReason.DeviceExplicitlyDisconnected.

Definition ring_inner (recipient : option UserId) : GM unit :=
  s ← get;
  match outgoing_ring_state s with
  | PermittedToRing ring_id =>
    match recipient with
    | Some _ => fail Panicked
    | None =>
      observe (SendSignalingMessageToGroup (group_id s) (ring_message s ring_id 0) HandleImmediately ∅) ;;
      modify (fun s => s <| outgoing_ring_state :=
        if bool_decide (length (remote_devices s) = 0%nat) then HasSentRing ring_id else NotPermittedToRing |>)
    end
  | RingUnknown => modify (fun s => s <| outgoing_ring_state := WantsToRing recipient |>)
  | _ => ret_ok
  end.

Definition set_outgoing_audio_muted_inner (muted : bool) (source : option DemuxId) : GM unit :=
  h ← gets outgoing_heartbeat_state;
  let by_ :=
    match audio_muted h, muted with
    | (Some false | None), true => source
    | Some true, true => muted_by_demux_id h
    | _, false => None
    end in
  modify (fun s => s <| outgoing_heartbeat_state :=
    h <| muted_by_demux_id := by_ |> <| audio_muted := Some muted |> |>) ;;
  ignore send_heartbeat.

Definition send_remote_mute_request (target : DemuxId) : GM unit :=
  s ← get;
  let msg := pb_encode (mkDeviceToDevice None None None None None (Some (Some target))) in
  match local_demux (join_state s) with
  | Some our_demux_id =>
    if our_demux_id =? target then ret_ok
    else
      modify (fun s => s <| remote_devices := update_device target (fun r =>
        if default true (audio_muted (heartbeat_state r)) then r
        else r <| remote_mute_requesters := {[our_demux_id]} ∪ remote_mute_requesters r |>)
        (remote_devices s) |>) ;;
      ignore (broadcast_data_through_sfu msg)
  | None => ignore (broadcast_data_through_sfu msg)
  end.

Definition change_heartbeat (f : HeartbeatState -> HeartbeatState) : GM unit :=
  modify (fun s => s <| outgoing_heartbeat_state := f (outgoing_heartbeat_state s) |>) ;;
  ignore send_heartbeat.

Definition set_outgoing_video_muted (muted : bool) : GM unit :=
  change_heartbeat (fun h => h <| video_muted := Some muted |>).

Definition set_presenting (b : bool) : GM unit :=
  change_heartbeat (fun h => h <| presenting := Some b |>).

Definition set_sharing_screen (b : bool) : GM unit :=
  change_heartbeat (fun h => h <| sharing_screen := Some b |>) ;;
  l ← gets remote_devices;
  set_send_rates_inner (compute_send_rates (zlen l) b).

Definition resend_media_keys : GM unit :=
  s ← get;
  match local_demux (join_state s) with
  | Some local_demux_id =>
    let '(ratchet_counter, secret) := FrameCrypto.send_state (frame_crypto_context s) in
    send_media_send_key_to_users_over_signaling (remote_users s) local_demux_id ratchet_counter secret None
  | None => ret_ok
  end.

Definition send_video_requests_to_sfu : GM unit :=
  s ← get;
  match video_requests s with
  | Some requests =>
    let protos := omap (fun r =>
      (fun device => (Some (Z.min (vr_height r) (vr_width r)), Some (demux_id device)))
        <$> find_by_demux_id (remote_devices s) (vr_demux_id r)) requests in
    ignore (unreliable_send_data_to_sfu (pb_encode (default_d2s <| d2s_video_request :=
      Some (mkVideoRequestMessage protos (as_u32 ∘ DataRate.as_kbps <$> max_receive_rate s)
              (active_speaker_height s)) |>)))
  | None => ret_ok
  end.

(** At most one on demand between two heartbeats. *)
Definition send_video_requests_on_demand : GM unit :=
  b ← gets on_demand_video_request_sent_since_last_heartbeat;
  when (negb b)
    (send_video_requests_to_sfu ;;
     modify (fun s => s <| on_demand_video_request_sent_since_last_heartbeat := true |>)).

Definition set_data_mode (mode : DataMode.DataMode) : GM unit :=
  modify (fun s => s <| max_receive_rate := Some (match mode with
      | DataMode.Low => LOW_MAX_RECEIVE_RATE
      | DataMode.Normal => NORMAL_MAX_RECEIVE_RATE
      | DataMode.Custom _ max_group_call_receive_rate => max_group_call_receive_rate
      end) |> <| data_mode := mode |>) ;;
  send_video_requests_on_demand.

Definition request_video (requests : list VideoRequest) (height : Z) : GM unit :=
  modify (fun s => s <| video_requests := Some requests |> <| active_speaker_height := Some height |>) ;;
  send_video_requests_on_demand.

Definition find_user (u : UserId) (l : list PeekDeviceInfo) : option DemuxId :=
  pd_demux_id <$> (snd <$> list_find (fun d => pd_user_id d = Some u) l).

Definition approve_or_deny_user (u : UserId) (approved : bool) : GM unit :=
  p ← gets last_peek_info;
  match p with
  | None => ret_ok
  | Some peek_info =>
    match find_user u (pending_devices peek_info) with
    | Some d =>
      reliable_send_device_to_sfu
        (default_d2s <| d2s_admin_action := Some (if approved then AdminApprove d else AdminDeny d) |>)
    | None => ret_ok
    end
  end.

Definition remove_client (other : DemuxId) : GM unit :=
  reliable_send_device_to_sfu (default_d2s <| d2s_admin_action := Some (AdminRemove other) |>).

Definition block_client (other : DemuxId) : GM unit :=
  reliable_send_device_to_sfu (default_d2s <| d2s_admin_action := Some (AdminBlock other) |>).

(** [MemberMap::new] *)
Definition new_member_map (members : list (UserId * list Z)) : MemberMap :=
  (fun m => (sha256_as_hexstring m.2, m.1)) <$> members.

Definition set_group_members (members : list (UserId * list Z)) : GM unit :=
  let new_members : gset UserId := list_to_set (fst <$> members) in
  known ← gets known_members;
  when (negb (bool_decide (new_members = known)))
    (modify (fun s => s <| known_members := new_members |>
                        <| member_resolver := new_member_map members |>) ;;
     sfu_client (SfuSetGroupMembers members) ;;
     request_remote_devices_as_soon_as_possible).

Definition set_membership_proof (proof : list Z) : GM unit :=
  sfu_client (SfuSetMembershipProof proof) ;;
  st ← gets remote_devices_request_state;
  match st with
  | WaitingForMembershipProof =>
    modify (fun s => s <| remote_devices_request_state := NeverRequested |>) ;;
    request_remote_devices_as_soon_as_possible
  | _ => ret_ok
  end.

(** [react], before it sends the closure to the actor. *)
Definition react (value : string) : list Task :=
  let len := Z.of_nat (String.length value) in
  if (len =? 0) || (len >? REACTION_STRING_MAX_SIZE) then [] else [TReact value].

Definition raise_hand (raise : bool) : GM unit :=
  modify (fun s => s <| raise_hand_state := mkRaiseHand (wrap 32 (rh_seqnum (raise_hand_state s) + 1)) raise true |>) ;;
  send_raise_hand.

Definition set_rtc_stats_interval (interval : Z) : GM unit :=
  modify (fun s =>
    let new := if interval =? 0 then DEFAULT_STATS_INTERVAL else interval in
    s <| next_stats_time := (fun t => t - get_stats_interval s + new) <$> next_stats_time s |>
      <| get_stats_interval := new |>).

(** ** The tick *)

Definition due (t : option Instant) : bool :=
  match t with Some t => env_now env >=? t | None => false end.

Definition tick_heartbeat : GM unit :=
  t ← gets next_heartbeat_time;
  when (due t)
    (ignore send_heartbeat ;;
     send_video_requests_to_sfu ;;
     modify (fun s => s <| on_demand_video_request_sent_since_last_heartbeat := false |>
                        <| next_heartbeat_time := Some (env_now env + HEARTBEAT_INTERVAL) |>)).

Definition tick_stats : GM unit :=
  t ← gets next_stats_time;
  match t with
  | None => ret_ok
  | Some _ =>
    when (due t)
      (peer GetStats ;;
       modify (fun s => s <| next_stats_time := Some (env_now env + get_stats_interval s) |>)) ;;
    when (env_stats_report env) (observe HandleRtcStatsReport)
  end.

Definition tick_decryption_errors : GM unit :=
  t ← gets next_decryption_error_time;
  when (due t)
    (report ← crypto (FrameCrypto.get_error_report (env_system_now env));
     match report with
     | Some errors => send_decryption_stats_inner errors
     | None => ret_ok
     end ;;
     modify (fun s => s <| next_decryption_error_time := Some (env_now env + DECRYPTION_ERROR_INTERVAL) |>)).

Definition tick_speaking : GM unit :=
  t ← gets next_speaking_audio_levels_time;
  let now := env_now env in
  when (due t)
    (s ← get;
     let speaking := ((env_audio_levels env).1 >? MIN_NON_SILENT_LEVEL)
       && negb (default true (audio_muted (outgoing_heartbeat_state s))) in
     let silence := if speaking then None else Some (default now (silence_started s)) in
     let time_silent := match silence with Some start => Z.max 0 (now - start) | None => 0 end in
     let started :=
       if speaking then Some (default now (started_speaking s))
       else if time_silent >=? STOPPED_SPEAKING_DURATION then None
       else started_speaking s in
     let time_speaking := Z.max 0 (Z.max 0 (now - default now started) - time_silent) in
     let event :=
       if time_speaking >=? MIN_SPEAKING_HAND_LOWER then Some LowerHandSuggestion
       else if (time_speaking =? 0) && bool_decide (is_Some (last_speaking_notification s))
       then Some StoppedSpeaking
       else None in
     modify (fun s => s <| silence_started := silence |> <| started_speaking := started |>) ;;
     match event with
     | Some e =>
       when (negb (bool_decide (last_speaking_notification s = Some e)))
         (observe (HandleSpeakingNotification e) ;;
          modify (fun s => s <| last_speaking_notification := Some e |>))
     | None => ret_ok
     end ;;
     modify (fun s => s <| next_speaking_audio_levels_time := Some (now + speaking_interval s) |>)).

Definition tick_audio_levels : GM unit :=
  s ← get;
  match audio_levels_interval s, next_audio_levels_time s with
  | Some interval, Some t =>
    when (env_now env >=? t)
      (let '(captured, received) := env_audio_levels env in
       observe (HandleAudioLevels captured received) ;;
       modify (fun s => s <| next_audio_levels_time := Some (env_now env + interval) |>))
  | _, _ => ret_ok
  end.

Definition tick_membership_proof : GM unit :=
  s ← get;
  when (bool_decide (kind s = SignalGroup) && due (next_membership_proof_request_time s))
    (observe RequestMembershipProof ;;
     modify (fun s => s <| next_membership_proof_request_time :=
       Some (env_now env + MEMBERSHIP_PROOF_REQUEST_INTERVAL) |>)).

Definition tick_bwe : GM unit :=
  s ← get;
  let now := env_now env in
  let bwe := env_bandwidth_estimate env in
  match bwe_check_state s with
  | BweAt next_bwe_time =>
    if bool_decide (connection_state s = Connected) then
      when (now >=? next_bwe_time)
        (if DataRate.ltb bwe GROUP_BWE_THRESHOLD_FOR_LOW_NOTIFICATION then
           observe (HandleLowBandwidthForVideo false) ;;
           modify (fun s => s <| bwe_check_state := BweRecoveredAt (now + BWE_INTERVAL) now |>)
         else modify (fun s => s <| bwe_check_state := BweAt (now + BWE_INTERVAL) |>))
    else modify (fun s => s <| bwe_check_state := BweAt (now + DELAYED_BWE_CHECK) |>)
  | BweRecoveredAt next_bwe_time last_callback =>
    when ((now >=? next_bwe_time) && (now >=? last_callback + DELAY_FOR_RECOVERED_BWE_CALLBACK))
      (if DataRate.ltb GROUP_BWE_THRESHOLD_FOR_RECOVERED_NOTIFICATION bwe then
         observe (HandleLowBandwidthForVideo true) ;;
         modify (fun s => s <| bwe_check_state := BweNone |>)
       else modify (fun s => s <| bwe_check_state := BweRecoveredAt (now + BWE_INTERVAL) last_callback |>))
  | BweDisabled | BweNone => ret_ok
  end.

Definition tick_notifications : GM unit :=
  s ← get;
  when (negb (bool_decide (reactions s = [])))
    (observe (HandleReactions (reactions s)) ;; modify (fun s => s <| reactions := [] |>)) ;;
  when (due (next_raise_hand_time s) && rh_outstanding (raise_hand_state s))
    (modify (fun s => s <| next_raise_hand_time := Some (env_now env + RAISE_HAND_INTERVAL) |>) ;;
     send_raise_hand) ;;
  match mute_request s with
  | Some source =>
    observe (HandleRemoteMuteRequest source) ;; modify (fun s => s <| mute_request := None |>)
  | None => ret_ok
  end.

(** The callbacks of [try_send_ack] and [try_resend]. *)
Definition send_ack (s : State) (header : MrpHeader) : State * result unit Error :=
  unreliable_send_data_to_sfu (pb_encode (default_d2s <| d2s_mrp_header := Some header |>)) s.
Definition resend (s : State) (payload : list Z) : State * result Z Error :=
  match unreliable_send_data_to_sfu payload s with
  | (s, Ok _) => (s, Ok (env_now env + DEVICE_TO_SFU_TIMEOUT))
  | (s, Err e) => (s, Err e)
  end.

Definition tick_reliable_stream : GM unit :=
  _ ← on_stream (fun s st => Val (Stream.try_send_ack send_ack s st));
  _ ← on_stream (fun s st => Val (Stream.try_resend (env_now env) resend s st));
  ret_ok.

Definition tick : GM unit :=
  request_remote_devices_from_sfu_if_older_than (secs 10) ;;
  tick_heartbeat ;;
  tick_stats ;;
  tick_decryption_errors ;;
  tick_speaking ;;
  tick_audio_levels ;;
  tick_membership_proof ;;
  tick_bwe ;;
  tick_notifications ;;
  tick_reliable_stream ;;
  actor_send_delayed env TICK_INTERVAL TTick.

Definition connect : GM unit :=
  c ← gets connection_state;
  match c with
  | NotConnected =>
    set_connection_state_and_notify_observer Connecting ;;
    let now := Some (env_now env) in
    modify (fun s => s <| next_heartbeat_time := now |> <| next_audio_levels_time := now |>
                       <| next_speaking_audio_levels_time := now |> <| next_raise_hand_time := now |>) ;;
    k ← gets kind;
    when (bool_decide (k = SignalGroup))
      (observe RequestMembershipProof ;;
       modify (fun s => s <| next_membership_proof_request_time :=
         Some (env_now env + MEMBERSHIP_PROOF_REQUEST_INTERVAL) |>) ;;
       observe RequestGroupMembers) ;;
    tick
  | _ => ret_ok
  end.

(** ** Joining *)

Definition GROUP_SUITE : SrtpCryptoSuite := AeadAes128Gcm.
Definition GROUP_KEY_LEN : nat := Z.to_nat (key_size GROUP_SUITE).
Definition GROUP_SALT_LEN : nat := Z.to_nat (salt_size GROUP_SUITE).
Definition MASTER_KEY_MATERIAL_LEN : nat :=
  GROUP_KEY_LEN + GROUP_SALT_LEN + GROUP_KEY_LEN + GROUP_SALT_LEN.

(** [SrtpKeys::from_master_key_material] *)
Definition from_master_key_material (m : list Z) : SrtpKeys :=
  let client := take GROUP_KEY_LEN m in
  let m := drop GROUP_KEY_LEN m in
  let client_salt := take GROUP_SALT_LEN m in
  let m := drop GROUP_SALT_LEN m in
  mkSrtpKeys (mkSrtpKey GROUP_SUITE client client_salt)
    (mkSrtpKey AeadAes128Gcm (take GROUP_KEY_LEN m) (take GROUP_SALT_LEN (drop GROUP_KEY_LEN m))).

(** [DheState::negotiate]; [None] if the expansion of the keys fails. *)
Definition negotiate (self : DheState) (server_pub_key hkdf_extra_info : list Z) : option DheState :=
  match self with
  | WaitingForServerPublicKey client_secret =>
    let shared_secret := diffie_hellman client_secret server_pub_key in
    if negb (was_contributory shared_secret) then Some FailedToNegotiate
    else
      Negotiated ∘ from_master_key_material <$>
        ConnectionStart.hkdf_expand (replicate 32 0) shared_secret
          (ConnectionStart.bytes_of_string "Signal_Group_Call_20211105_SignallingDH_SRTPKey_KDF" ++ hkdf_extra_info)
          (Z.of_nat MASTER_KEY_MATERIAL_LEN)
  | _ => Some self
  end.

(** [u64::from_str_radix(s, 16)] of 16 characters; a plus sign may come first. *)
Definition hex_digit (a : Ascii.ascii) : option Z :=
  let n := Z.of_N (Ascii.N_of_ascii a) in
  if (48 <=? n) && (n <=? 57) then Some (n - 48)
  else if (97 <=? n) && (n <=? 102) then Some (n - 87)
  else if (65 <=? n) && (n <=? 70) then Some (n - 55)
  else None.
Fixpoint hex_digits (acc : Z) (s : string) : option Z :=
  match s with
  | EmptyString => Some acc
  | String a s => d ← hex_digit a; hex_digits (acc * 16 + d) s
  end.
Definition from_str_radix_16 (s : string) : option Z :=
  match s with
  | String (Ascii.Ascii true true false true false true false false) rest => if bool_decide (rest = EmptyString) then None else hex_digits 0 rest
  | _ => hex_digits 0 s
  end.

(** [RingId::from_era_id] *)
Definition from_era_id (era_id : string) : RingId :=
  match (if bool_decide (String.length era_id = 16%nat) then from_str_radix_16 era_id else None) with
  | Some i => if i =? 0 then -1 else if i <? 2 ^ 63 then i else i - 2 ^ 64
  | None => truncated_hash era_id
  end.

(** The first half of [on_sfu_client_join_success]; [false] if the call was ended. *)
Definition connect_to_sfu (joined : JoinedInfo) : GM bool :=
  s ← get;
  match connection_state s with
  | Connecting =>
    match negotiate (dhe_state s) (j_server_dhe_pub_key joined) (j_hkdf_extra_info joined) with
    | None => fail Panicked
    | Some dhe =>
      modify (fun s => s <| dhe_state := dhe |>) ;;
      match dhe with
      | Negotiated keys =>
        failed ← is_err (start_peer_connection (j_sfu_info joined) (j_local_demux_id joined) keys);
        if failed : bool then end_ CallEndReason.FailedToStartPeerConnection ;; mret false
        else
          set_send_rates_inner (mkSendRates None None (Some ALL_ALONE_MAX_SEND_RATE)) ;;
          modify (fun s => s <| sfu_info := Some (j_sfu_info joined) |>) ;;
          mret true
      | _ => end_ CallEndReason.FailedToNegotiatedSrtpKeys ;; mret false
      end
    end
  | _ => mret true
  end.

Definition update_ring_state (joined : JoinedInfo) : GM unit :=
  match j_creator joined with
  | None => ret_ok
  | Some _ =>
    s ← get;
    let new_ring_state :=
      if bool_decide (j_creator joined = self_uuid s) then PermittedToRing (from_era_id (j_era_id joined))
      else NotPermittedToRing in
    modify (fun s => s <| outgoing_ring_state := new_ring_state |>) ;;
    match outgoing_ring_state s with
    | WantsToRing recipient => ring_inner recipient
    | _ => ret_ok
    end
  end.

Definition is_joined (j : JoinState) : bool := match j with Joined _ => true | _ => false end.

(** The second half. *)
Definition enter_call (joined : JoinedInfo) : GM unit :=
  j ← gets join_state;
  match j with
  | Joining =>
    request_remote_devices_as_soon_as_possible ;;
    modify (fun s => s <| join_state := j_join_state joined |>) ;;
    p ← gets last_peek_info;
    match p with
    | Some peek_info =>
      set_peek_result_inner (Ok peek_info) None ;;
      l ← gets remote_devices;
      when (bool_decide (length l = 0%nat)) (observe (HandleRemoteDevicesChanged l DemuxIdsChanged))
    | None => ret_ok
    end ;;
    j ← gets join_state;
    observe (HandleJoinStateChanged j) ;;
    when (is_joined (j_join_state joined) && is_joined j) on_client_joined ;;
    update_ring_state joined ;;
    modify (fun s => s <| next_stats_time := Some (env_now env + STATS_INITIAL_OFFSET) |>
                       <| next_decryption_error_time := Some (env_now env + DECRYPTION_ERROR_INTERVAL) |>)
  | _ => ret_ok
  end.

Definition on_sfu_client_join_success (joined : JoinedInfo) : GM unit :=
  continue ← connect_to_sfu joined;
  if continue : bool then enter_call joined else ret_ok.

Definition on_sfu_client_join_failure (err : Error) : GM unit :=
  end_ (match err with
        | RingRtcError.GroupCallFull => CallEndReason.HasMaxDevices
        | _ => CallEndReason.SfuClientFailedToJoin
        end).

Definition on_sfu_client_join_attempt_completed (result : result JoinedInfo Error) : GM unit :=
  match result with
  | Ok joined => on_sfu_client_join_success joined
  | Err err => on_sfu_client_join_failure err
  end.

(** ** Messages of other devices *)

Definition request_if_unknown (d : DemuxId) : GM unit :=
  l ← gets remote_devices;
  when (negb (bool_decide (d ∈ demux_id <$> l))) request_remote_devices_as_soon_as_possible.

Definition handle_leaving_received (expected_user_id : option UserId) (d : DemuxId) : GM unit :=
  l ← gets remote_devices;
  match find_by_demux_id l d with
  | Some device =>
    if leaving_received device then ret_ok
    else if match expected_user_id with
            | Some expected => negb (bool_decide (expected = user_id device))
            | None => false
            end then ret_ok
    else
      modify (fun s => s <| remote_devices :=
        update_device d (fun r => r <| leaving_received := true |>) (remote_devices s) |>) ;;
      request_remote_devices_as_soon_as_possible ;;
      actor_send_delayed env (secs 2) TRequestRemoteDevices
  | None => ret_ok
  end.

Definition on_signaling_message_received (sender_user_id : UserId) (message : DeviceToDevice) : GM unit :=
  g ← gets group_id;
  match d2d_media_key message with
  | Some (mkMediaKey (Some ratchet_counter) (Some secret_vec) (Some sender_demux_id)) =>
    if (0 <=? ratchet_counter) && (ratchet_counter <=? 255) then
      if zlen secret_vec =? 32 then
        add_media_receive_key_or_store_for_later sender_user_id sender_demux_id ratchet_counter secret_vec ;;
        request_if_unknown sender_demux_id
      else ret_ok
    else request_if_unknown sender_demux_id
  | _ =>
    match d2d_group_id message, d2d_leaving message with
    | Some group_id, Some (Some leaving_demux_id) =>
      when (bool_decide (group_id = g))
        (handle_leaving_received (Some sender_user_id) leaving_demux_id)
    | _, _ => ret_ok
    end
  end.

Definition handle_heartbeat_received (d : DemuxId) (timestamp : Z) (heartbeat : HeartbeatProto) : GM unit :=
  l ← gets remote_devices;
  match find_by_demux_id l d with
  | None => ret_ok
  | Some device =>
    if timestamp >? default 0 (heartbeat_rtp_timestamp device) then
      modify (fun s => s <| remote_devices :=
        update_device d (fun r => r <| heartbeat_rtp_timestamp := Some timestamp |>) (remote_devices s) |>) ;;
      let new := heartbeat_from heartbeat in
      let old := heartbeat_state device in
      if bool_decide (old = new) then ret_ok
      else
        let clear_height r :=
          if bool_decide (video_muted new = Some true)
          then recalculate_higher_resolution_pending (r <| client_decoded_height := None |>) else r in
        let clear_requesters r :=
          if bool_decide (audio_muted new = Some false) && negb (bool_decide (audio_muted old = Some false))
          then r <| remote_mute_requesters := ∅ |> else r in
        let requesters := remote_mute_requesters (clear_requesters device) in
        let new_source :=
          if bool_decide (muted_by_demux_id new = muted_by_demux_id old) then None
          else muted_by_demux_id new in
        match new_source with
        | Some source =>
          when (bool_decide (audio_muted new = Some true) && bool_decide (audio_muted old = Some false)
                && bool_decide (source ∈ requesters))
            (observe (HandleObservedRemoteMute source d))
        | None => ret_ok
        end ;;
        modify (fun s => s <| remote_devices :=
          update_device d (fun r => clear_requesters (clear_height r) <| heartbeat_state := new |>)
            (remote_devices s) |>) ;;
        l ← gets remote_devices;
        observe (HandleRemoteDevicesChanged l (HeartbeatStateChanged d))
    else ret_ok
  end.

(** [handle_reaction], before it sends the closure. *)
Definition handle_reaction (d : DemuxId) (reaction : option string) : list Task :=
  let value := default EmptyString reaction in
  let len := Z.of_nat (String.length value) in
  if (len =? 0) || (len >? REACTION_STRING_MAX_SIZE) then [] else [TReaction d value].

Definition handle_remote_mute_request (source target : DemuxId) : GM unit :=
  s ← get;
  match local_demux (join_state s) with
  | Some our_demux_id =>
    if our_demux_id =? target then
      when (bool_decide (mute_request s = None) && negb (source =? our_demux_id))
        (modify (fun s => s <| mute_request := Some source |>))
    else
      modify (fun s => s <| remote_devices := update_device target (fun r =>
        if default false (audio_muted (heartbeat_state r)) then r
        else r <| remote_mute_requesters := {[source]} ∪ remote_mute_requesters r |>) (remote_devices s) |>)
  | None => ret_ok
  end.

(** ** Messages of the SFU *)

Definition handle_removed_received : GM unit :=
  j ← gets join_state;
  end_ (if is_joined j then CallEndReason.RemovedFromCall else CallEndReason.DeniedRequestToJoinCall).

Definition handle_speaker_received (timestamp : Z) (d : DemuxId) : GM unit :=
  s ← get;
  if match speaker_rtp_timestamp s with Some t => timestamp <=? t | None => false end then ret_ok
  else
    modify (fun s => s <| speaker_rtp_timestamp := Some timestamp |>) ;;
    match find_by_demux_id (remote_devices s) d with
    | Some device =>
      if bool_decide (latest_speaker_demux_id (remote_devices s) = Some d) then ret_ok
      else
        modify (fun s => s <| remote_devices :=
          update_device d (fun r => r <| speaker_time := Some (env_system_now env) |>) (remote_devices s) |>) ;;
        l ← gets remote_devices;
        observe (HandleRemoteDevicesChanged l (SpeakerTimeChanged d))
    | None => ret_ok
    end.

Definition handle_forwarding_video_received (ids : list DemuxId) (heights : list Z) : GM unit :=
  let videos : gmap DemuxId Z :=
    fold_left (fun m p => <[p.1 := wrap 16 p.2]> m) (zip ids heights) ∅ in
  old ← gets forwarding_videos;
  when (negb (bool_decide (old = videos)))
    (modify (fun s => s <| remote_devices := (fun r =>
         let height := videos !! demux_id r in
         let r := r <| forwarding_video := Some (bool_decide (is_Some height)) |>
                    <| server_allocated_height := default 0 height |> in
         let r := match height with Some _ => r | None => r <| client_decoded_height := None |> end in
         recalculate_higher_resolution_pending r) <$> remote_devices s |>
       <| forwarding_videos := videos |>) ;;
     l ← gets remote_devices;
     observe (HandleRemoteDevicesChanged l ForwardedVideosChanged)).

Definition handle_raised_hands (hands : list DemuxId) (server_seqnum : Z) : GM unit :=
  s ← get;
  let r := raise_hand_state s in
  let announce := modify (fun s => s <| raised_hands := hands |>) ;; observe (HandleRaisedHands hands) in
  if negb (server_seqnum =? 0) then
    when (server_seqnum >=? rh_seqnum r)
      (modify (fun s => s <| raise_hand_state := raise_hand_state s <| rh_seqnum := server_seqnum |> |>) ;;
       if rh_outstanding r then
         modify (fun s => s <| raise_hand_state := raise_hand_state s <| rh_outstanding := false |> |>) ;;
         announce
       else when (negb (bool_decide (raised_hands s = hands))) announce)
  else when ((rh_seqnum r =? 0) && negb (bool_decide (raised_hands s = hands))) announce.

(** *** Endorsements *)

Definition update_cache (f : Endorsements.EndorsementsCache -> Endorsements.EndorsementsCache) : GM unit :=
  modify (fun s => s <| group_send_endorsement_cache := f <$> group_send_endorsement_cache s |>).

Definition endorsements_error (e : Endorsements.EndorsementUpdateError) : GM unit :=
  observe (HandleEndorsementsUpdate (Err e)).

Definition validate_and_cache_endorsements (response : GroupSendEndorsementsResponse)
    (member_ciphertexts : list (list Z)) (now : Z) : GM (option Z) :=
  s ← get;
  match endorsement_public_key s, group_send_endorsement_cache s with
  | Some public_key, Some _ =>
    let expiration := response_expiration response in
    let ciphertexts := omap deserialize_ciphertext member_ciphertexts in
    let member_ids := omap (fun c => resolve (member_resolver s) (hex_encode c)) member_ciphertexts in
    if negb (zlen member_ids =? zlen member_ciphertexts)
       || negb (zlen ciphertexts =? zlen member_ciphertexts) then
      update_cache (Endorsements.set_invalid (env_now env) (Some expiration)
        "Received endorsements with invalid member ciphertexts") ;;
      endorsements_error Endorsements.InvalidEndorsementResponse ;;
      endorsements_error Endorsements.InvalidMemberCiphertexts ;;
      mret None
    else
      match receive_with_ciphertexts response ciphertexts now public_key with
      | Some endorsements =>
        let set := fold_left (fun m p => <[p.1 := p.2]> m) (zip member_ids endorsements) ∅ in
        update_cache (Endorsements.insert_set (env_now env) expiration set) ;;
        c ← gets group_send_endorsement_cache;
        match c ≫= fun c => Endorsements.get_endorsements_for_expiration c expiration with
        | Some update => observe (HandleEndorsementsUpdate (Ok update))
        | None => ret_ok
        end ;;
        mret (Some expiration)
      | None =>
        update_cache (Endorsements.set_invalid (env_now env) (Some expiration)
          "Failed to processing endorsement response in receive_with_ciphertext") ;;
        endorsements_error Endorsements.InvalidEndorsementResponse ;;
        mret None
      end
  | _, _ => mret None
  end.

Definition handle_send_endorsements_response_inner (sys_now : SystemTime)
    (r : SendEndorsementsResponse) : GM (option Z) :=
  c ← gets group_send_endorsement_cache;
  match c with
  | None => mret None
  | Some _ =>
    match ser_serialized r with
    | None => endorsements_error (Endorsements.MissingField "serialized") ;; mret None
    | Some serialized =>
      if bool_decide (ser_member_ciphertexts r = []) then
        endorsements_error (Endorsements.MissingField "member_ciphertexts") ;; mret None
      else match deserialize_response serialized with
      | None => endorsements_error Endorsements.InvalidEndorsementResponseFormat ;; mret None
      | Some response =>
        let now := sys_now / 10 ^ 9 in
        if response_expiration response <? now then
          endorsements_error (Endorsements.ExpiredEndorsements (response_expiration response)) ;; mret None
        else validate_and_cache_endorsements response (ser_member_ciphertexts r) now
      end
    end
  end.

(** The closure of [handle_sfu_to_device_inner]. *)
Definition endorsements_or_devices (sys_now : SystemTime) (endorsements : option SendEndorsementsResponse)
    (device_joined_or_left : option (option ProtoPeekInfo)) : GM unit :=
  expiration ← match endorsements with
    | Some e => handle_send_endorsements_response_inner sys_now e
    | None => mret None
    end;
  match device_joined_or_left with
  | None => ret_ok
  | Some None => request_remote_devices_as_soon_as_possible
  | Some (Some proto) =>
    m ← gets member_resolver;
    match deobfuscate_proto proto m with
    | Ok peek_info => set_peek_result_inner (Ok peek_info) expiration
    | Err _ => request_remote_devices_as_soon_as_possible
    end
  end.

(** The closures that a message of the SFU sends to the actor. *)
Definition handle_sfu_to_device_inner (sys_now : SystemTime) (header : RtpHeader) (msg : SfuToDevice)
  : list Task :=
  match s2d_speaker msg with
  | Some (Some d) => [TSpeaker (rtp_timestamp header) d]
  | _ => []
  end ++
  (if bool_decide (is_Some (s2d_endorsements msg)) || bool_decide (is_Some (s2d_device_joined_or_left msg))
   then [TEndorsementsOrDevices sys_now (s2d_endorsements msg) (s2d_device_joined_or_left msg)] else []) ++
  match s2d_current_devices msg with
  | Some (demux_ids_with_video, _, allocated_heights) => [TForwardingVideo demux_ids_with_video allocated_heights]
  | None => []
  end ++
  (if s2d_removed msg then [TRemoved] else []) ++
  match s2d_raised_hands msg with
  | Some (demux_ids, _, Some target_seqnum) => [TRaisedHands demux_ids target_seqnum]
  | _ => []
  end.

Definition handle_sfu_to_device (sys_now : SystemTime) (header : RtpHeader) (msg : SfuToDevice) : list Task :=
  match s2d_mrp_header msg with
  | Some mrp_header => [TReliableSfuToDevice mrp_header header msg]
  | None => handle_sfu_to_device_inner sys_now header msg
  end.

(** The loop over the packets that are ready: after one with [content] it returns. *)
Fixpoint handle_ready_packets (l : list (RtpHeader * SfuToDevice)) : GM unit :=
  match l with
  | [] => ret_ok
  | (header, msg) :: l =>
    match s2d_content msg with
    | Some content =>
      match pb_decode content with
      | Some msg => for_each (handle_sfu_to_device_inner (env_system_now env) header msg) actor_send
      | None => ret_ok
      end
    | None =>
      for_each (handle_sfu_to_device_inner (env_system_now env) header msg) actor_send ;;
      handle_ready_packets l
    end
  end.

Definition handle_reliable_sfu_to_device (mrp_header : MrpHeader) (header : RtpHeader) (msg : SfuToDevice)
  : GM unit :=
  r ← on_stream (fun s st =>
    r ← Stream.receive_and_merge st mrp_header (header, msg); let '(st, r) := r in Val (s, st, r));
  match r with
  | Ok ready_packets => handle_ready_packets ready_packets
  | Err _ => ret_ok
  end.

(** ** Callbacks of WebRTC *)

Definition handle_ice_connection_state_changed (st : IceConnectionState) : GM unit :=
  c ← gets connection_state;
  match c, st with
  | Connecting, (IceStateDisconnected | IceClosed | IceStateFailed) =>
    end_ CallEndReason.IceFailedWhileConnecting
  | (Connecting | Reconnecting), IceChecking => ret_ok
  | Connecting, (IceStateConnected | IceCompleted) => set_connection_state_and_notify_observer Connected
  | Connected, (IceChecking | IceStateDisconnected) =>
    set_connection_state_and_notify_observer Reconnecting ;;
    peer RegatherOnAllNetworks
  | Reconnecting, (IceStateConnected | IceCompleted) => set_connection_state_and_notify_observer Connected
  | _, (IceStateFailed | IceClosed) => end_ CallEndReason.IceFailedAfterConnected
  | _, _ => ret_ok
  end.

Definition handle_incoming_video_added (d : option DemuxId) : GM unit :=
  match d with
  | Some d => observe (HandleIncomingVideoTrack d)
  | None => ret_ok
  end.

(** The closure of [handle_incoming_video_frame]. *)
Definition handle_video_frame_height (d : DemuxId) (height : Z) : GM unit :=
  l ← gets remote_devices;
  match find_by_demux_id l d with
  | Some device =>
    if negb (bool_decide (client_decoded_height device = Some height))
       && negb (bool_decide (video_muted (heartbeat_state device) = Some true)) then
      let device' := recalculate_higher_resolution_pending (device <| client_decoded_height := Some height |>) in
      modify (fun s => s <| remote_devices := update_device d (fun r =>
        recalculate_higher_resolution_pending (r <| client_decoded_height := Some height |>))
        (remote_devices s) |>) ;;
      when (negb (Bool.eqb (is_higher_resolution_pending device') (is_higher_resolution_pending device)))
        (l ← gets remote_devices; observe (HandleRemoteDevicesChanged l HigherResolutionPendingChanged))
    else ret_ok
  | None => ret_ok
  end.

(** [handle_rtp_received], on a thread of WebRTC: it uses the keys and sends closures
    to the actor. *)
Definition handle_rtp_received (header : RtpHeader) (payload : list Z) : SE (list Task) :=
  if negb (rtp_pt header =? GROUP_RTP_DATA_PAYLOAD_TYPE) then mret []
  else if rtp_ssrc header =? RTP_DATA_TO_SFU_SSRC then
    mret (match pb_decode payload with
          | Some msg => handle_sfu_to_device (env_system_now env) header msg
          | None => []
          end)
  else
    let d := Z.max 0 (rtp_ssrc header - RTP_DATA_THROUGH_SFU_SSRC_OFFSET) in
    r ← attempt (on_crypto (FrameFormat.decrypt_data (env_system_now env) d payload));
    let tasks :=
      match r with
      | Ok payload =>
        match pb_decode payload with
        | Some msg =>
          match d2d_heartbeat msg with
          | Some heartbeat => [THeartbeat d (rtp_timestamp header) heartbeat] | None => [] end ++
          match d2d_leaving msg with Some _ => [TLeaving None d] | None => [] end ++
          match d2d_reaction msg with Some reaction => handle_reaction d reaction | None => [] end ++
          match d2d_remote_mute_request msg with
          | Some (Some target) => [TRemoteMuteRequest d target] | _ => [] end
        | None => []
        end
      | Err _ => []
      end in
    mret (tasks ++ [TRequestIfUnknown d]).

End Operations.

End GroupCall.
End GroupCall.
