(* ===== verification/GroupSystem.v ===== *)
(** * The group call client as a system

    The actor of a client runs closures one by one, while other threads send it
    closures, encrypt and decrypt media, and use the flag [busy].  [Core] is the part
    of the state that the theorems on group calls speak of; most operations do not
    touch it. *)

From S2P Require Import Prelude States Signaling ConnectionTypes Connection ConnectionStart CallManager.
From S2P Require Import MrpWindow MrpMerge MrpStream FrameCrypto FrameFormat Endorsements Actor GroupTypes GroupCall.
Local Open Scope Z_scope.
Local Open Scope ringrtc_scope.

Module GroupSystem.
Import GroupTypes GroupCall.
Section System.
Context `{FrameCipher} `{SrtpCrypto} `{GroupHash} `{ZkEndorsement} `{!ZkResponse}
  `{!Codec DeviceToDevice} `{!Codec DeviceToSfu} `{!Codec SfuToDevice}.

(** ** Running closures *)

Definition perform (env : Env) (t : Task) : ST State Fault unit :=
  match t with
  | TInit => request_remote_devices_as_soon_as_possible env
  | TProvideRingIdIfAbsent ring_id => provide_ring_id_if_absent ring_id
  | TOverrideSendRates rates => override_send_rates env rates
  | TTick => tick env
  | TConnect => connect env
  | TJoin => join env
  | TLeave => leave env
  | TDisconnect => disconnect env
  | TRing recipient => ring_inner recipient
  | TSetOutgoingAudioMuted muted source => set_outgoing_audio_muted_inner env muted source
  | TSendRemoteMuteRequest target => send_remote_mute_request env target
  | TSetOutgoingVideoMuted muted => set_outgoing_video_muted env muted
  | TSetPresenting b => set_presenting env b
  | TSetSharingScreen b => set_sharing_screen env b
  | TResendMediaKeys => resend_media_keys env
  | TSetDataMode mode => set_data_mode env mode
  | TRequestVideo requests height => request_video env requests height
  | TApproveOrDenyUser u approved => approve_or_deny_user env u approved
  | TRemoveClient other => remove_client env other
  | TBlockClient other => block_client env other
  | TSetGroupMembers members => set_group_members env members
  | TSetMembershipProof proof => set_membership_proof env proof
  | TReact value => ignore (send_reaction env value)
  | TRaiseHand raise => raise_hand env raise
  | TEnd reason => finish_end reason
  | TJoinAttemptCompleted result => on_sfu_client_join_attempt_completed env result
  | TSignalingMessageReceived sender message => on_signaling_message_received env sender message
  | TPeekResult result => set_peek_result_inner env result None
  | TSetRtcStatsInterval interval => set_rtc_stats_interval interval
  | TApplySendKey secret expiration => apply_send_key env secret expiration
  | TSendDecryptionStats errors => send_decryption_stats_inner env errors
  | TReliableSfuToDevice mrp_header header msg => handle_reliable_sfu_to_device env mrp_header header msg
  | TEndorsementsOrDevices sys_now endorsements devices =>
    endorsements_or_devices env sys_now endorsements devices
  | TRemoved => handle_removed_received env
  | TSpeaker timestamp d => handle_speaker_received env timestamp d
  | TForwardingVideo ids heights => handle_forwarding_video_received ids heights
  | THeartbeat d timestamp heartbeat => handle_heartbeat_received d timestamp heartbeat
  | TLeaving expected d => handle_leaving_received env expected d
  | TRequestRemoteDevices => request_remote_devices_as_soon_as_possible env
  | TReaction d value => modify (fun s => s <| reactions := reactions s ++ [(d, value)] |>)
  | TRemoteMuteRequest source target => handle_remote_mute_request source target
  | TRaisedHands hands seqnum => handle_raised_hands hands seqnum
  | TRequestIfUnknown d => request_if_unknown env d
  | TIceConnectionState st => handle_ice_connection_state_changed env st
  | TNetworkRoute route => observe (HandleNetworkRouteChanged route) ;; call_summary (OnIceNetworkRouteChanged route)
  | TIncomingVideoTrack d => handle_incoming_video_added d
  | TVideoFrameHeight d height => handle_video_frame_height d height
  | TNothing => ret_ok
  end.

(** A panic ends the thread of the actor. *)
Definition run (env : Env) (t : Task) (s : State) : State * list (Actor.Sent Task) * bool :=
  let '(s, r) := perform env t (s <| sent := [] |> <| stopped := false |>) in
  (s, sent s, stopped s || match r with Err Panicked => true | Ok _ => false end).

(** ** The threads *)

(** Closures that only the actor sends to itself. *)
Definition internal (t : Task) : bool :=
  match t with
  | TInit | TTick | TEnd _ | TApplySendKey _ _ => true
  | _ => false
  end.

(** What the SFU client reports: the device is in the call, or waits to be let in. *)
Definition task_ok (t : Task) : Prop :=
  match t with
  | TJoinAttemptCompleted (Ok j) =>
    j_join_state j = Pending (j_local_demux_id j) \/ j_join_state j = Joined (j_local_demux_id j)
  | _ => True
  end.

(** [others]: the calls that have taken [busy] besides this client and have not released
    it yet.  They are more than one only after the manager has been reset. *)
Record Sys : Type := mkSys {
  client : Actor.Actor State Task;
  others : nat;
}.

Definition on_state (f : State -> State) (a : Actor.Actor State Task) : Actor.Actor State Task :=
  a <| Actor.state := f (Actor.state a) |>.

Definition send_all (l : list Task) (a : Actor.Actor State Task) : Actor.Actor State Task :=
  fold_left (fun a t => Actor.send (Actor.immediate t) a) l a.

(** What the other threads do. *)
Inductive outside : Sys -> Sys -> Prop :=
| out_send t a b : internal t = false -> task_ok t ->
    outside (mkSys a b) (mkSys (Actor.send (Actor.immediate t) a) b)
| out_rtp env header payload a b s' l :
    handle_rtp_received env header payload (Actor.state a) = (s', Ok l) ->
    outside (mkSys a b) (mkSys (send_all l (on_state (fun _ => s') a)) b)
| out_encrypt plaintext buffer a b :
    outside (mkSys a b) (mkSys (on_state (fun s => s <| frame_crypto_context :=
      (FrameFormat.encrypt_media plaintext buffer (frame_crypto_context s)).1.1 |>) a) b)
| out_decrypt now d ciphertext buffer a b :
    outside (mkSys a b) (mkSys (on_state (fun s => s <| frame_crypto_context :=
      (FrameFormat.decrypt_media now d ciphertext buffer (frame_crypto_context s)).1.1 |>) a) b)
| out_self_uuid u a b :
    outside (mkSys a b) (mkSys (on_state (fun s => s <| self_uuid := u |>) a) b)
| out_take a n : busy (Actor.state a) = false ->
    outside (mkSys a n) (mkSys (on_state (fun s => s <| busy := true |>) a) (S n))
| out_release a n :
    outside (mkSys a (S n)) (mkSys (on_state (fun s => s <| busy := false |>) a) n).

(** The manager is reset ([CallManager::handle_reset]): it clears the flag, whoever has it.
    The direct calls end; group calls do not and will release the flag later.  [m]: those
    of the others that go on. *)
Definition reset (m : nat) (y : Sys) : Sys :=
  mkSys (on_state (fun s => s <| busy := false |>) (client y)) m.

(** A step; the manager is reset only as [resets] says. *)
Inductive act_with (resets : Sys -> nat -> Prop) : Sys -> Sys -> Prop :=
| act_actor env a a' n :
    Actor.step run env (env_now env) a a' -> act_with resets (mkSys a n) (mkSys a' n)
| act_outside y y' : outside y y' -> act_with resets y y'
| act_reset y m : resets y m -> (m <= others y)%nat -> act_with resets y (reset m y).

Definition act : Sys -> Sys -> Prop := act_with (fun _ _ => True).

Lemma act_weaken (P Q : Sys -> nat -> Prop) y y' : (forall y m, P y m -> Q y m) -> act_with P y y' -> act_with Q y y'.
Proof. intros HPQ. destruct 1; [by eapply act_actor|by apply act_outside|apply act_reset; auto]. Qed.

(** A client that has just been started with a first secret; if the flag is taken, somebody
    has it. *)
Definition initial (secret : FrameCrypto.Secret) (y : Sys) : Prop :=
  exists now group kind taken ring levels members key cache ufrag pwd uuid s,
    start now group kind taken uuid ring levels members key cache ufrag pwd secret = Val s /\
    client y = Actor.mkActor (s <| sent := [] |>) (sent s) [] false true /\
    (taken = true -> others y <> 0%nat).

Inductive reachable : Sys -> Prop :=
| reach_start secret y : initial secret y -> reachable y
| reach_act y y' : reachable y -> act y y' -> reachable y'.

(** ** The core of the state *)

(** The keys that a call of the observer gives away. *)
Definition media_key_of (m : CallMessage) : list (option Z * option (list Z)) :=
  match group_call_message m with
  | Some d => match d2d_media_key d with
              | Some k => [(mk_ratchet_counter k, mk_secret k)]
              | None => []
              end
  | None => []
  end.
Definition keys_given (o : Output) : list (UserId * (option Z * option (list Z))) :=
  match o with
  | ToObserver (SendSignalingMessage u m _) => (fun k => (u, k)) <$> media_key_of m
  | ToObserver (SendSignalingMessageToGroup _ m _ us) =>
    k ← media_key_of m; (fun u => (u, k)) <$> elements us
  | ToObserver (SendSignalingMessageToAdhocGroup m _ _ us) =>
    k ← media_key_of m; (fun u => (u, k)) <$> elements (dom us)
  | _ => []
  end.

(** What the application learns about the state of the call. *)
Inductive Told : Type :=
| ToldConnection (st : ConnectionState)
| ToldJoin (st : JoinState)
| ToldEnded (reason : CallEndReason.CallEndReason).
Definition told (o : Output) : list Told :=
  match o with
  | ToObserver (HandleConnectionStateChanged st) => [ToldConnection st]
  | ToObserver (HandleJoinStateChanged st) => [ToldJoin st]
  | ToObserver (HandleEnded reason) => [ToldEnded reason]
  | _ => []
  end.

(** The closures that the theorems follow. *)
Definition tracked (t : Task) : bool :=
  match t with
  | TEnd _ | TApplySendKey _ _ | TJoinAttemptCompleted _ => true
  | _ => false
  end.
Definition tracked_sent (t : Actor.Sent Task) : list (Actor.Sent Task) :=
  if tracked (Actor.task t) then [t] else [].

Definition owner (r : RemoteDeviceState) : DemuxId * UserId := (demux_id r, user_id r).

Record Core : Type := mkCore {
  co_busy : bool;
  co_connection : ConnectionState;
  co_join : JoinState;
  co_devices : list (DemuxId * UserId);
  co_members : gset UserId;
  co_dhe : DheState;
  co_sfu : option SfuInfo;
  co_slots : list (option DemuxId);
  co_rotation : KeyRotationState;
  co_key : FrameCrypto.SenderState;
  co_given : list (UserId * (option Z * option (list Z)));
  co_told : list Told;
  co_sent : list (Actor.Sent Task);
  co_stopped : bool;
}.

Definition core (s : State) : Core :=
  mkCore (busy s) (connection_state s) (join_state s) (owner <$> remote_devices s) (joined_members s)
    (dhe_state s) (sfu_info s) (remote_transceiver_demux_ids s) (media_send_key_rotation_state s)
    (FrameCrypto.sender_state (frame_crypto_context s))
    (outputs s ≫= keys_given) (outputs s ≫= told) (sent s ≫= tracked_sent) (stopped s).

(** Code that leaves the core alone. *)
Notation quiet := (respects (same core)).

Definition quiet_output (o : Output) : bool :=
  bool_decide (length (keys_given o) = 0%nat) && bool_decide (length (told o) = 0%nat).

Lemma core_output o s :
  quiet_output o = true -> core (s <| outputs := outputs s ++ [o] |>) = core s.
Proof.
  unfold quiet_output. rewrite andb_true_iff, !bool_decide_eq_true. intros [Hk%nil_length_inv Ht%nil_length_inv].
  unfold core. cbn. by rewrite !bind_app, !bind_singleton, Hk, Ht, !app_nil_r.
Qed.

(** *** Building blocks *)

Lemma respects_ignore {A} R (m : ST State Error A) : respects R m -> respects R (ignore m).
Proof. intros Hm s. apply Hm. Qed.

Lemma respects_is_err {A} R (m : ST State Error A) : respects R m -> respects R (is_err m).
Proof. intros Hm s. apply Hm. Qed.

Lemma respects_when R `{!PreOrder R} b (m : ST State Fault unit) : respects R m -> respects R (when b m).
Proof. intros Hm. destruct b; [done|]. by apply respects_ret_ok. Qed.

Lemma respects_on_stream {A} R (f : State -> _ -> outcome (State * _ * A)) :
  (forall s, R s s) ->
  (forall s st s' st' a, f s st = Val (s', st', a) -> R s (s' <| sfu_reliable_stream := st' |>)) ->
  respects R (on_stream f).
Proof.
  intros Hr Hf s. unfold on_stream. destruct (f s _) as [[[s' st'] a]|] eqn:Heq; cbn; [|done]. eauto.
Qed.

Lemma emit_quiet o : quiet_output o = true -> quiet (emit o).
Proof. intros Ho s. by apply core_output. Qed.

Lemma quiet_peer_result env c : quiet (peer_result env c).
Proof. intros s. by apply core_output. Qed.

Lemma quiet_actor_send t : tracked t = false -> quiet (actor_send t).
Proof.
  intros Ht s. unfold same, core. cbn. rewrite bind_app, bind_singleton. unfold tracked_sent at 2.
  cbn. by rewrite Ht, app_nil_r.
Qed.

Lemma quiet_actor_send_delayed env d t : tracked t = false -> quiet (actor_send_delayed env d t).
Proof.
  intros Ht s. unfold same, core. cbn. rewrite bind_app, bind_singleton. unfold tracked_sent at 2.
  cbn. by rewrite Ht, app_nil_r.
Qed.

Definition keeps_key {E A} (m : ST FrameCrypto.Context E A) : Prop :=
  respects (same FrameCrypto.sender_state) m.

Lemma quiet_on_crypto {E A} (m : ST FrameCrypto.Context E A) : keeps_key m -> quiet (on_crypto m).
Proof.
  intros Hm s. unfold on_crypto. specialize (Hm (frame_crypto_context s)).
  destruct (m _) as [c r]. unfold same, core in *. cbn in *. by rewrite Hm.
Qed.

Lemma quiet_crypto {A} (m : ST FrameCrypto.Context FrameCrypto.Error A) : keeps_key m -> quiet (crypto m).
Proof.
  intros Hm s. unfold crypto. specialize (Hm (frame_crypto_context s)).
  destruct (m _) as [c [a|e]]; unfold same, core in *; cbn in *; by rewrite Hm.
Qed.

(** The state of the callbacks of the reliable stream. *)
Section Callbacks.
Context (R : relation State) `{!PreOrder R}.

Lemma try_send_callback {E SD RD} (f : State -> MrpHeader -> State * result (SD * Z) E) s
    (st : Stream.MrpStream SD RD) s' st' r :
  (forall s h, R s (f s h).1) -> Stream.try_send f s st = Val (s', st', r) -> R s s'.
Proof.
  intros Hf. unfold Stream.try_send. destruct (BufferWindow.is_full _); [by intros [= <- _ _]|].
  specialize (Hf s (mkMrpHeader (Some (Stream.next_seqnum st)) None None)).
  destruct (f s _) as [s1 [[packet t]|e]]; cbn in Hf.
  - destruct (BufferWindow.put _ _ _) as [sb [x|e]]; cbn; [|done]. by intros [= <- _ _].
  - by intros [= <- _ _].
Qed.

Lemma send_fragments_callback {SD RD} n (f : State -> nat -> MrpHeader -> SD -> State * (SD * Z)) idx l s
    (st : Stream.MrpStream SD RD) s' st' :
  (forall s i h x, R s (f s i h x).1) ->
  Stream.send_fragments (E := Error) n f idx l s st = Val (s', st') -> R s s'.
Proof.
  intros Hf. revert idx s st. induction l as [|x l IH]; intros idx s st; cbn [Stream.send_fragments].
  - by intros [= <- _].
  - match goal with |- context [Stream.try_send ?g s st] => set (g0 := g) end.
    destruct (Stream.try_send g0 s st) as [[[s1 st1] r]|] eqn:Ht; [|done].
    cbn. destruct r as [u|e]; [|done]. cbn. intros Hl. etrans; [|by eapply IH].
    eapply try_send_callback; [|exact Ht]. intros s2 h. unfold g0.
    match goal with |- context [f ?a ?b ?c ?d] => pose proof (Hf a b c d) as Hx; by destruct (f a b c d) end.
Qed.

Lemma try_send_fragmented_callback {SD RD} l (f : State -> nat -> MrpHeader -> SD -> State * (SD * Z)) s
    (st : Stream.MrpStream SD RD) s' st' r :
  (forall s i h x, R s (f s i h x).1) ->
  Stream.try_send_fragmented (E := Error) l f s st = Val (s', st', r) -> R s s'.
Proof.
  intros Hf. unfold Stream.try_send_fragmented. destruct (_ <=? _); [by intros [= <- _ _]|].
  destruct (Stream.send_fragments _ f 0 l s st) as [[s1 st1]|] eqn:Hs; [|done].
  intros [= <- _ _]. by eapply send_fragments_callback.
Qed.

Lemma resend_loop_callback {E SD} now (f : State -> SD -> State * result Z E) l s b s' b' r :
  (forall s x, R s (f s x).1) -> Stream.resend_loop now f l s b = (s', b', r) -> R s s'.
Proof.
  intros Hf. revert s b. induction l as [|n l IH]; intros s b; cbn [Stream.resend_loop]; [by intros [= <- _ _]|].
  destruct (BufferWindow.get b n) as [p|]; [|apply IH].
  destruct (should_transmit p now); [|apply IH].
  specialize (Hf s (pp_packet p)). destruct (f s _) as [s1 [t|e]]; cbn in Hf.
  - intros Hl. etrans; [done|]. by eapply IH.
  - by intros [= <- _ _].
Qed.

End Callbacks.

(** *** Frames do not change the key *)

Lemma io_encrypt_key plaintext io :
  FrameCrypto.sender_state (FrameFormat.io_context (FrameFormat.encrypt plaintext io).1) =
    FrameCrypto.sender_state (FrameFormat.io_context io).
Proof.
  set (R := same (FrameCrypto.sender_state ∘ FrameFormat.io_context)).
  assert (PreOrder R) by apply same_preorder.
  assert (forall A (m : ST Writer.Writer Error A), respects R (FrameFormat.on_writer m)) as Hw.
  { intros A m io'. unfold FrameFormat.on_writer. by destruct (m _). }
  assert (respects R (FrameFormat.encrypt plaintext)) as Hr; [|exact (Hr io)].
  unfold FrameFormat.encrypt. apply respects_bind; [apply _|apply Hw|intros start].
  apply respects_bind; [apply _|by intros io'|intros [[data mac] [rc fc]]].
  apply respects_bind; [apply _|apply Hw|intros _]. destruct (_ >? _); [by apply respects_fail|].
  repeat (apply respects_bind; [apply _|apply Hw|intros ?]). by apply respects_ret.
Qed.

Lemma encrypt_media_key plaintext buffer c :
  FrameCrypto.sender_state (FrameFormat.encrypt_media plaintext buffer c).1.1 = FrameCrypto.sender_state c.
Proof.
  unfold FrameFormat.encrypt_media.
  pose proof (io_encrypt_key plaintext (FrameFormat.mkIo c (Writer.new buffer) [])) as Hk.
  by destruct (FrameFormat.encrypt _ _) as [io r].
Qed.

Lemma encrypt_data_key plaintext : keeps_key (FrameFormat.encrypt_data plaintext).
Proof.
  intros c. unfold FrameFormat.encrypt_data, same. rewrite <- (encrypt_media_key plaintext
    (replicate (Z.to_nat (FrameFormat.get_ciphertext_buffer_size (zlen plaintext))) 0) c).
  by destruct (FrameFormat.encrypt_media _ _ _) as [[c' b] r].
Qed.

Lemma crypto_decrypt_key now d rc fc data mac : keeps_key (FrameCrypto.decrypt now d rc fc data mac).
Proof.
  unfold FrameCrypto.decrypt. apply respects_bind; [apply _|by intros c|intros l].
  case_match; [by intros c|]. case_match; [|by intros c].
  case_match. by intros c.
Qed.

Lemma decrypt_media_key now d ciphertext buffer c :
  FrameCrypto.sender_state (FrameFormat.decrypt_media now d ciphertext buffer c).1.1 =
    FrameCrypto.sender_state c.
Proof.
  set (R := same (FrameCrypto.sender_state ∘ FrameFormat.io_context)).
  assert (PreOrder R) by apply same_preorder.
  assert (forall A (m : ST Writer.Writer Error A), respects R (FrameFormat.on_writer m)) as Hw.
  { intros A m io'. unfold FrameFormat.on_writer. by destruct (m _). }
  assert (forall A (m : ST Reader.Reader Error A), respects R (FrameFormat.on_reader m)) as Hrd.
  { intros A m io'. unfold FrameFormat.on_reader. by destruct (m _). }
  assert (respects R (FrameFormat.decrypt now d)) as Hr.
  { unfold FrameFormat.decrypt. repeat (apply respects_bind; [apply _|apply Hrd|intros ?]).
    apply respects_bind; [apply _|apply Hw|intros start].
    apply respects_bind; [apply _| |intros data].
    - intros io. unfold FrameFormat.on_context, R, same, compose.
      pose proof (crypto_decrypt_key now d a1 a0 a2 a (FrameFormat.io_context io)) as Hk.
      by destruct (FrameCrypto.decrypt _ _ _ _ _ _ _) as [c' r].
    - apply respects_bind; [apply _|apply Hw|intros _]. by apply respects_ret. }
  unfold FrameFormat.decrypt_media.
  specialize (Hr (FrameFormat.mkIo c (Writer.new buffer) ciphertext)).
  by destruct (FrameFormat.decrypt _ _ _) as [io r].
Qed.

Lemma decrypt_data_key now d ciphertext : keeps_key (FrameFormat.decrypt_data now d ciphertext).
Proof.
  intros c. unfold FrameFormat.decrypt_data, same. rewrite <- (decrypt_media_key now d ciphertext
    (replicate (Z.to_nat (FrameFormat.get_plaintext_buffer_size (zlen ciphertext))) 0) c).
  by destruct (FrameFormat.decrypt_media _ _ _ _ _) as [[c' b] r].
Qed.

Lemma error_report_key now : keeps_key (FrameCrypto.get_error_report now).
Proof.
  intros c. unfold FrameCrypto.get_error_report, same. by destruct (FrameCrypto.get_report _ _).
Qed.

Lemma add_receive_key d rc secret : keeps_key (FrameCrypto.add_receive_secret d rc secret).
Proof. by intros c. Qed.

End System.
End GroupSystem.
