(* ===== verification/GroupQuiet.v ===== *)
(** * Operations of group calls that leave the core alone

    Requests, messages to the SFU, heartbeats, ticks and most messages of other devices
    change neither the states, the devices and their transceivers, nor the keys. *)

From S2P Require Import Prelude States Signaling ConnectionTypes Connection ConnectionStart CallManager.
From S2P Require Import MrpWindow MrpMerge MrpStream FrameCrypto FrameFormat Endorsements Actor GroupTypes GroupCall.
From S2P Require Import GroupSystem.
Local Open Scope Z_scope.
Local Open Scope ringrtc_scope.

Module GroupQuiet.
Import GroupTypes GroupCall GroupSystem.

Create HintDb quiet.

Ltac quiet_step :=
  lazymatch goal with
  | |- respects _ (mbind _ _) => apply respects_bind; [typeclasses eauto| |intros ?]
  | |- respects _ (match ?x with _ => _ end) => destruct x
  | |- respects _ (attempt _) => apply respects_attempt
  | |- respects _ (for_each _ _) => apply respects_for_each; [typeclasses eauto|intros ?]
  | |- respects _ (when _ _) => apply respects_when; [typeclasses eauto|]
  | |- respects _ (ignore _) => apply respects_ignore
  | |- respects _ (is_err _) => apply respects_is_err
  | |- respects _ (observe _) => unfold observe
  | |- respects _ (peer _) => unfold peer
  | |- respects _ (sfu_client _) => unfold sfu_client
  | |- respects _ (call_summary _) => unfold call_summary
  | |- respects _ (emit _) => apply emit_quiet; reflexivity
  | |- respects _ (peer_result _ _) => apply quiet_peer_result
  | |- respects _ (actor_send_delayed _ _ _) => apply quiet_actor_send_delayed; reflexivity
  | |- respects _ (actor_send _) => apply quiet_actor_send; reflexivity
  | |- respects _ (mret _) => apply respects_ret; typeclasses eauto
  | |- respects _ ret_ok => apply respects_ret_ok; typeclasses eauto
  | |- respects _ (gets _) => apply respects_gets; typeclasses eauto
  | |- respects _ get => apply respects_get; typeclasses eauto
  | |- respects _ (fail _) => apply respects_fail; typeclasses eauto
  | |- respects _ (modify _) => apply respects_modify; intros ?; reflexivity
  | |- respects _ _ => solve [eauto with quiet]
  end.
Ltac solve_quiet := intros; repeat quiet_step.

Section Quiet.
Context `{FrameCipher} `{SrtpCrypto} `{GroupHash} `{ZkEndorsement} `{!ZkResponse}
  `{!Codec DeviceToDevice} `{!Codec DeviceToSfu} `{!Codec SfuToDevice}.

Notation quiet := (respects (same core)).

(** ** Sending *)

Lemma unreliable_send_data_inner_quiet env j ssrc n m : quiet (unreliable_send_data_inner env j ssrc n m).
Proof. unfold unreliable_send_data_inner. solve_quiet. Qed.
Hint Resolve unreliable_send_data_inner_quiet : quiet.

Lemma unreliable_send_data_to_sfu_quiet env m : quiet (unreliable_send_data_to_sfu env m).
Proof. unfold unreliable_send_data_to_sfu. solve_quiet. Qed.
Hint Resolve unreliable_send_data_to_sfu_quiet : quiet.

Lemma broadcast_quiet env m : quiet (broadcast_data_through_sfu env m).
Proof.
  unfold broadcast_data_through_sfu. solve_quiet.
  apply quiet_on_crypto, encrypt_data_key.
Qed.
Hint Resolve broadcast_quiet : quiet.

Lemma stream_quiet {A} (f : State -> _ -> outcome (State * _ * A)) :
  (forall s st s' st' a, f s st = Val (s', st', a) -> same core s s') -> quiet (on_stream f).
Proof. intros Hf. apply respects_on_stream; [done|]. intros s st s' st' a Heq. exact (Hf _ _ _ _ _ Heq). Qed.

Lemma send_data_to_sfu_quiet env m : quiet (send_data_to_sfu env m).
Proof.
  unfold send_data_to_sfu. destruct (_ >? _); [|solve_quiet]. unfold reliable_send_to_sfu_inner. solve_quiet.
  apply stream_quiet. intros s st s' st' r Heq.
  eapply (try_send_fragmented_callback (same core)); [|exact Heq].
  intros s1 i h x. exact (quiet_peer_result env _ s1).
Qed.

Lemma reliable_send_quiet env m : quiet (reliable_send_device_to_sfu env m).
Proof.
  unfold reliable_send_device_to_sfu. solve_quiet. apply stream_quiet. intros s st s' st' r Heq.
  eapply (try_send_callback (same core)); [|exact Heq]. intros s1 h. unfold send_reliable.
  match goal with |- context [unreliable_send_data_to_sfu env ?m s1] =>
    pose proof (unreliable_send_data_to_sfu_quiet env m s1) as Hq;
    destruct (unreliable_send_data_to_sfu env m s1) as [s2 [u|e]] end; exact Hq.
Qed.
Hint Resolve send_data_to_sfu_quiet reliable_send_quiet : quiet.

(** ** Messages *)

Lemma send_heartbeat_quiet env : quiet (send_heartbeat env).
Proof. unfold send_heartbeat. solve_quiet. Qed.
Lemma send_reaction_quiet env v : quiet (send_reaction env v).
Proof. unfold send_reaction. solve_quiet. Qed.
Lemma send_raise_hand_quiet env : quiet (send_raise_hand env).
Proof. unfold send_raise_hand. solve_quiet. Qed.
Lemma send_leave_quiet env : quiet (send_leave_to_sfu env).
Proof. unfold send_leave_to_sfu. solve_quiet. Qed.
Lemma send_stats_quiet env errors : quiet (send_decryption_stats_inner env errors).
Proof. unfold send_decryption_stats_inner. solve_quiet. Qed.
Hint Resolve send_heartbeat_quiet send_reaction_quiet send_raise_hand_quiet send_leave_quiet
  send_stats_quiet : quiet.

(** Messages without a media key. *)
Lemma send_to_each_quiet l m : media_key_of m = [] -> quiet (send_to_each l m).
Proof.
  intros Hm. unfold send_to_each. apply respects_for_each; [apply _|]. intros u. apply emit_quiet.
  unfold quiet_output. cbn. by rewrite Hm.
Qed.

Lemma quiet_group_message g m u us :
  media_key_of m = [] -> quiet (observe (SendSignalingMessageToGroup g m u us)).
Proof. intros Hm. apply emit_quiet. unfold quiet_output. cbn. by rewrite Hm. Qed.

Lemma send_leaving_quiet env d : quiet (send_leaving_through_sfu_and_over_signaling env d).
Proof.
  unfold send_leaving_through_sfu_and_over_signaling. apply respects_bind; [apply _|solve_quiet|intros _].
  apply respects_bind; [apply _|solve_quiet|intros s]. destruct (take_self _ _) as [recipients self].
  apply respects_bind; [apply _| |intros _; solve_quiet].
  destruct (_ && _); [by apply quiet_group_message|by apply send_to_each_quiet].
Qed.

Lemma cancel_ring_quiet : quiet cancel_full_group_ring_if_needed.
Proof.
  unfold cancel_full_group_ring_if_needed. solve_quiet.
Qed.
Hint Resolve send_leaving_quiet cancel_ring_quiet : quiet.

(** ** Asking for devices, rates, the peer connection *)

Lemma maybe_request_quiet env age b : quiet (maybe_request_remote_devices env age b).
Proof. unfold maybe_request_remote_devices. solve_quiet. Qed.
Hint Resolve maybe_request_quiet : quiet.

Lemma request_quiet env : quiet (request_remote_devices_as_soon_as_possible env).
Proof. unfold request_remote_devices_as_soon_as_possible. solve_quiet. Qed.
Lemma request_older_quiet env age : quiet (request_remote_devices_from_sfu_if_older_than env age).
Proof. unfold request_remote_devices_from_sfu_if_older_than. solve_quiet. Qed.
Hint Resolve request_quiet request_older_quiet : quiet.

Lemma set_send_rates_quiet env rates : quiet (set_send_rates_inner env rates).
Proof. unfold set_send_rates_inner. solve_quiet. Qed.
Hint Resolve set_send_rates_quiet : quiet.

Lemma descriptions_quiet env sfu d keys : quiet (set_peer_connection_descriptions env sfu d keys).
Proof. unfold set_peer_connection_descriptions. solve_quiet. Qed.
Hint Resolve descriptions_quiet : quiet.

Lemma start_peer_connection_quiet env sfu d keys : quiet (start_peer_connection env sfu d keys).
Proof. unfold start_peer_connection. solve_quiet. Qed.
Hint Resolve start_peer_connection_quiet : quiet.

(** ** Devices *)

Lemma owners_update d f l : (forall r, owner (f r) = owner r) -> owner <$> update_device d f l = owner <$> l.
Proof.
  intros Hf. unfold update_device. destruct (list_find _ l) as [[i r]|] eqn:Hl; [|done].
  apply list_find_Some in Hl as (Hl & _ & _). rewrite list_fmap_insert, Hf.
  apply list_insert_id. by rewrite list_lookup_fmap, Hl.
Qed.

Lemma quiet_update_device d f :
  (forall r, owner (f r) = owner r) ->
  quiet (modify (fun s => s <| remote_devices := update_device d f (remote_devices s) |>)
    : ST State Fault unit).
Proof.
  intros Hf. apply respects_modify. intros s. unfold same, core. cbn. by rewrite owners_update.
Qed.

Ltac device_update :=
  apply quiet_update_device; intros ?; repeat case_match; reflexivity.

Hint Extern 1 (respects (same core) (modify (fun s => set_field _ s))) => device_update : quiet.

Lemma add_receive_key_quiet u d rc secret :
  quiet (add_media_receive_key_or_store_for_later u d rc secret : ST State Fault unit).
Proof.
  unfold add_media_receive_key_or_store_for_later. apply respects_bind; [apply _|solve_quiet|intros s].
  destruct (find_by_demux_id _ _) as [device|]; [|solve_quiet]. case_bool_decide; [|solve_quiet].
  apply respects_bind; [apply _|apply quiet_crypto, add_receive_key|intros _].
  apply respects_bind; [apply _|device_update|intros _]. solve_quiet.
Qed.

(** ** Requests *)

Lemma override_send_rates_quiet env rates : quiet (override_send_rates env rates).
Proof. unfold override_send_rates. solve_quiet. Qed.

Lemma ring_quiet recipient : quiet (ring_inner recipient).
Proof. unfold ring_inner. solve_quiet. Qed.
Hint Resolve ring_quiet : quiet.

Lemma audio_muted_quiet env muted source : quiet (set_outgoing_audio_muted_inner env muted source).
Proof. unfold set_outgoing_audio_muted_inner. solve_quiet. Qed.

Lemma remote_mute_quiet env target : quiet (send_remote_mute_request env target).
Proof.
  unfold send_remote_mute_request. apply respects_bind; [apply _|solve_quiet|intros s].
  destruct (local_demux _); [|solve_quiet]. destruct (_ =? _); [solve_quiet|].
  apply respects_bind; [apply _|device_update|intros _]. solve_quiet.
Qed.

Lemma change_heartbeat_quiet env f : quiet (change_heartbeat env f).
Proof. unfold change_heartbeat. solve_quiet. Qed.
Hint Resolve change_heartbeat_quiet : quiet.

Lemma sharing_screen_quiet env b : quiet (set_sharing_screen env b).
Proof. unfold set_sharing_screen. solve_quiet. Qed.

Lemma video_requests_quiet env : quiet (send_video_requests_to_sfu env).
Proof. unfold send_video_requests_to_sfu. solve_quiet. Qed.
Hint Resolve video_requests_quiet : quiet.

Lemma on_demand_quiet env : quiet (send_video_requests_on_demand env).
Proof. unfold send_video_requests_on_demand. solve_quiet. Qed.
Hint Resolve on_demand_quiet : quiet.

Lemma data_mode_quiet env mode : quiet (set_data_mode env mode).
Proof. unfold set_data_mode. solve_quiet. Qed.
Lemma request_video_quiet env l h : quiet (request_video env l h).
Proof. unfold request_video. solve_quiet. Qed.
Lemma approve_quiet env u b : quiet (approve_or_deny_user env u b).
Proof. unfold approve_or_deny_user. solve_quiet. Qed.
Lemma group_members_quiet env l : quiet (set_group_members env l).
Proof. unfold set_group_members. solve_quiet. Qed.
Lemma membership_proof_quiet env proof : quiet (set_membership_proof env proof).
Proof. unfold set_membership_proof. solve_quiet. Qed.
Lemma raise_hand_quiet env raise : quiet (raise_hand env raise).
Proof. unfold raise_hand. solve_quiet. Qed.
Lemma stats_interval_quiet n : quiet (set_rtc_stats_interval n).
Proof. unfold set_rtc_stats_interval. solve_quiet. Qed.

(** ** The tick *)

Lemma tick_quiet env : quiet (tick env).
Proof.
  unfold tick, tick_heartbeat, tick_stats, tick_decryption_errors, tick_speaking, tick_audio_levels,
    tick_membership_proof, tick_bwe, tick_notifications, tick_reliable_stream.
  solve_quiet; [apply quiet_crypto, error_report_key|..]; apply stream_quiet; intros s st s' st' r [= Heq].
  - unfold Stream.try_send_ack in Heq. destruct (Stream.should_ack st); [|by simplify_eq].
    unfold send_ack in Heq. match type of Heq with context [unreliable_send_data_to_sfu env ?m s] =>
      pose proof (unreliable_send_data_to_sfu_quiet env m s) as Hq;
      destruct (unreliable_send_data_to_sfu env m s) as [s2 [u|e]] end; by simplify_eq.
  - unfold Stream.try_resend in Heq. destruct (Stream.resend_loop _ _ _ _ _) as [[s2 b] r2] eqn:Hl.
    simplify_eq. eapply (resend_loop_callback (same core)); [|exact Hl]. intros s1 x. unfold resend.
    pose proof (unreliable_send_data_to_sfu_quiet env x s1) as Hq.
    by destruct (unreliable_send_data_to_sfu env x s1) as [s2' [u|e]].
Qed.

(** ** Messages of others *)

Lemma request_if_unknown_quiet env d : quiet (request_if_unknown env d).
Proof. unfold request_if_unknown. solve_quiet. Qed.
Hint Resolve request_if_unknown_quiet : quiet.

Lemma leaving_received_quiet env u d : quiet (handle_leaving_received env u d).
Proof.
  unfold handle_leaving_received. apply respects_bind; [apply _|solve_quiet|intros l].
  destruct (find_by_demux_id _ _); [|solve_quiet]. do 2 (case_match; [solve_quiet|]).
  all: apply respects_bind; [apply _|device_update|intros _]; solve_quiet.
Qed.
Hint Resolve leaving_received_quiet : quiet.

Lemma signaling_message_quiet env u m : quiet (on_signaling_message_received env u m).
Proof.
  unfold on_signaling_message_received. solve_quiet. all: apply add_receive_key_quiet.
Qed.

Lemma heartbeat_quiet d ts h : quiet (handle_heartbeat_received d ts h).
Proof.
  unfold handle_heartbeat_received. apply respects_bind; [apply _|solve_quiet|intros l].
  destruct (find_by_demux_id _ _); [|solve_quiet]. case_match; [|solve_quiet].
  apply respects_bind; [apply _|device_update|intros _]. case_bool_decide; [solve_quiet|].
  apply respects_bind; [apply _|solve_quiet|intros _].
  apply respects_bind; [apply _|device_update|intros _]. solve_quiet.
Qed.

Lemma mute_request_quiet source target : quiet (handle_remote_mute_request source target).
Proof.
  unfold handle_remote_mute_request. apply respects_bind; [apply _|solve_quiet|intros s].
  destruct (local_demux _); [|solve_quiet]. case_match; [solve_quiet|device_update].
Qed.

Lemma speaker_quiet env ts d : quiet (handle_speaker_received env ts d).
Proof.
  unfold handle_speaker_received. apply respects_bind; [apply _|solve_quiet|intros s].
  case_match; [solve_quiet|]. apply respects_bind; [apply _|solve_quiet|intros _].
  destruct (find_by_demux_id _ _); [|solve_quiet]. case_bool_decide; [solve_quiet|].
  apply respects_bind; [apply _|device_update|intros _]. solve_quiet.
Qed.

Lemma forwarding_quiet ids heights : quiet (handle_forwarding_video_received ids heights).
Proof.
  unfold handle_forwarding_video_received. apply respects_bind; [apply _|solve_quiet|intros old].
  apply respects_when; [apply _|]. apply respects_bind; [apply _| |intros _; solve_quiet].
  apply respects_modify. intros s. unfold same, core. cbn. f_equal. rewrite <- list_fmap_compose.
  apply list_fmap_ext. intros i r _. cbn. by destruct (_ !! demux_id r).
Qed.

Lemma raised_hands_quiet hands n : quiet (handle_raised_hands hands n).
Proof. unfold handle_raised_hands. solve_quiet. Qed.

Lemma endorsements_response_quiet env now r : quiet (handle_send_endorsements_response_inner env now r).
Proof.
  unfold handle_send_endorsements_response_inner, validate_and_cache_endorsements, endorsements_error,
    update_cache. solve_quiet.
Qed.
Hint Resolve endorsements_response_quiet : quiet.

Lemma sfu_tasks_external env header msg t :
  t ∈ handle_sfu_to_device_inner env header msg -> internal t = false /\ tracked t = false.
Proof.
  unfold handle_sfu_to_device_inner. rewrite !elem_of_app.
  intros [Ht|[Ht|[Ht|[Ht|Ht]]]]; repeat case_match; set_solver.
Qed.

Lemma send_each_quiet l : (forall t, t ∈ l -> internal t = false /\ tracked t = false) -> quiet (for_each l actor_send).
Proof.
  intros Hl. induction l as [|t l IH]; cbn [for_each]; [solve_quiet|].
  apply respects_bind; [apply _|apply quiet_actor_send, Hl; set_solver|intros _].
  apply IH. set_solver.
Qed.

Lemma ready_packets_quiet env l : quiet (handle_ready_packets env l).
Proof.
  induction l as [|[header msg] l IH]; cbn [handle_ready_packets]; [solve_quiet|].
  destruct (s2d_content msg).
  - destruct (pb_decode _); [|solve_quiet]. apply send_each_quiet. apply sfu_tasks_external.
  - apply respects_bind; [apply _|apply send_each_quiet, sfu_tasks_external|done].
Qed.

Lemma reliable_received_quiet env mrp header msg : quiet (handle_reliable_sfu_to_device env mrp header msg).
Proof.
  unfold handle_reliable_sfu_to_device. apply respects_bind; [apply _| |intros r].
  - apply stream_quiet. intros s st s' st' r. destruct (Stream.receive_and_merge _ _ _) as [[st1 r1]|]; [|done].
    by intros [= <- _ _].
  - destruct r; [apply ready_packets_quiet|solve_quiet].
Qed.

Lemma video_frame_quiet d h : quiet (handle_video_frame_height d h).
Proof.
  unfold handle_video_frame_height. apply respects_bind; [apply _|solve_quiet|intros l].
  destruct (find_by_demux_id l d); [|solve_quiet]. case_match; [|solve_quiet].
  apply respects_bind; [apply _|device_update|intros _]. solve_quiet.
Qed.

(** ** All quiet closures *)

Definition quiet_task (t : Task) : bool :=
  match t with
  | TProvideRingIdIfAbsent _ | TConnect | TJoin | TLeave | TDisconnect | TEnd _
  | TJoinAttemptCompleted _ | TPeekResult _ | TApplySendKey _ _ | TEndorsementsOrDevices _ _ _
  | TRemoved | TResendMediaKeys | TIceConnectionState _ => false
  | _ => true
  end.

Lemma perform_quiet env t : quiet_task t = true -> quiet (perform env t).
Proof.
  destruct t; intros [=]; cbn [perform]; unfold set_outgoing_video_muted, set_presenting, remove_client,
    block_client, handle_incoming_video_added;
    eauto using override_send_rates_quiet, tick_quiet, audio_muted_quiet, remote_mute_quiet,
      sharing_screen_quiet, data_mode_quiet, request_video_quiet, approve_quiet, group_members_quiet,
      membership_proof_quiet, raise_hand_quiet, stats_interval_quiet, signaling_message_quiet,
      heartbeat_quiet, mute_request_quiet, speaker_quiet, forwarding_quiet, raised_hands_quiet,
      reliable_received_quiet, video_frame_quiet with quiet; solve_quiet.
Qed.

(** Received RTP touches the keys of others only. *)
Lemma rtp_quiet env header payload : quiet (handle_rtp_received env header payload).
Proof.
  unfold handle_rtp_received. solve_quiet. apply quiet_on_crypto, decrypt_data_key.
Qed.

Lemma rtp_tasks env header payload s s' l :
  handle_rtp_received env header payload s = (s', Ok l) -> Forall (fun t => internal t = false /\ task_ok t) l.
Proof.
  intros Hl. cut (yields (fun _ => True) (handle_rtp_received env header payload)
    (Forall (fun t => internal t = false /\ task_ok t))).
  { intros Hy. destruct (Hy s I) as [_ Hy']. rewrite Hl in Hy'. by apply Hy'. }
  clear. unfold handle_rtp_received. case_match; [by apply yields_ret|]. case_match.
  - apply yields_ret. destruct (pb_decode payload); [|done]. unfold handle_sfu_to_device.
    destruct (s2d_mrp_header _); [by repeat constructor|]. apply Forall_forall. intros t Ht.
    split; [by eapply sfu_tasks_external|]. revert Ht. unfold handle_sfu_to_device_inner.
    rewrite !elem_of_app. intros [Ht|[Ht|[Ht|[Ht|Ht]]]]; repeat case_match; set_solver.
  - eapply yields_bind; [by apply (yields_attempt _ _ (fun _ => True)); intros s0|]. intros r _.
    apply yields_ret, Forall_app. split; [|by repeat constructor].
    destruct r as [p|]; [|done]. destruct (pb_decode p); [|done]. rewrite !Forall_app. unfold handle_reaction.
    split_and!; repeat case_match; by repeat constructor.
Qed.

(** ** Running code up to the core *)

(** The effect of code on the core, branch by branch; [c] is the core before. *)
Definition wp {A} (m : ST State Fault A) (s : State) (P : result A Fault -> Core -> Prop) : Prop :=
  P (m s).2 (core (m s).1).

Lemma wp_bind {A B} (m : ST State Fault A) (k : A -> ST State Fault B) s P :
  wp m s (fun r c => match r with
                     | Ok a => forall s', core s' = c -> wp (k a) s' P
                     | Err e => P (Err e) c
                     end) -> wp (m ≫= k) s P.
Proof.
  unfold wp, mbind, ST_bind. destruct (m s) as [s1 [a|e]]; cbn; [|done]. intros Hk. by apply Hk.
Qed.

Lemma wp_quiet {A} (m : ST State Fault A) s P : quiet m -> (forall r, P r (core s)) -> wp m s P.
Proof. intros Hm HP. unfold wp. rewrite (Hm s). apply HP. Qed.

Lemma wp_gets {A} (f : State -> A) s (P : result A Fault -> Core -> Prop) :
  P (Ok (f s)) (core s) -> wp (gets f) s P.
Proof. done. Qed.

Lemma wp_modify (f : State -> State) s P : P (Ok tt) (core (f s)) -> wp (modify f) s P.
Proof. done. Qed.

Lemma wp_ret {A} (a : A) s (P : result A Fault -> Core -> Prop) : P (Ok a) (core s) -> wp (mret a) s P.
Proof. done. Qed.

Lemma wp_emit o s (P : result unit Fault -> Core -> Prop) :
  P (Ok tt) (core (s <| outputs := outputs s ++ [o] |>)) -> wp (emit o) s P.
Proof. done. Qed.

Lemma wp_weaken {A} (m : ST State Fault A) s (P Q : result A Fault -> Core -> Prop) :
  wp m s P -> (forall r c, P r c -> Q r c) -> wp m s Q.
Proof. unfold wp. auto. Qed.

End Quiet.

#[export] Hint Resolve
  unreliable_send_data_inner_quiet unreliable_send_data_to_sfu_quiet broadcast_quiet
  send_data_to_sfu_quiet reliable_send_quiet send_heartbeat_quiet send_reaction_quiet
  send_raise_hand_quiet send_leave_quiet send_stats_quiet send_leaving_quiet cancel_ring_quiet
  maybe_request_quiet request_quiet request_older_quiet set_send_rates_quiet descriptions_quiet
  start_peer_connection_quiet add_receive_key_quiet override_send_rates_quiet ring_quiet
  audio_muted_quiet remote_mute_quiet change_heartbeat_quiet sharing_screen_quiet
  video_requests_quiet on_demand_quiet data_mode_quiet request_video_quiet approve_quiet
  group_members_quiet membership_proof_quiet raise_hand_quiet stats_interval_quiet tick_quiet
  request_if_unknown_quiet leaving_received_quiet signaling_message_quiet heartbeat_quiet
  mute_request_quiet speaker_quiet forwarding_quiet raised_hands_quiet endorsements_response_quiet
  ready_packets_quiet reliable_received_quiet video_frame_quiet rtp_quiet : quiet.

End GroupQuiet.
