(* ===== verification/GroupStates.v ===== *)
(** * The states of a group call

    What the application is told about the connection and about joining follows the
    diagrams in the comments of group_call.rs, and [busy] is held while the device is
    in the call. *)

From S2P Require Import Prelude States Signaling ConnectionTypes Connection ConnectionStart CallManager.
From S2P Require Import MrpWindow MrpMerge MrpStream FrameCrypto FrameFormat Endorsements Actor GroupTypes GroupCall.
From S2P Require Import GroupSystem GroupQuiet.
From stdpp Require Import relations.
Local Open Scope Z_scope.
Local Open Scope ringrtc_scope.

Module GroupStates.
Import GroupTypes GroupCall GroupSystem GroupQuiet.

(** ** The diagrams *)

Definition in_call (j : JoinState) : bool := match j with NotJoined _ => false | _ => true end.

Inductive conn_edge : ConnectionState -> ConnectionState -> Prop :=
| edge_connect : conn_edge NotConnected Connecting
| edge_connected : conn_edge Connecting Connected
| edge_problems : conn_edge Connected Reconnecting
| edge_fixed : conn_edge Reconnecting Connected.

(** [Pending] is a state of its own here; a state may be told again, and the ring of a
    call that was not joined does not matter. *)
Inductive join_edge : JoinState -> JoinState -> Prop :=
| edge_join r : join_edge (NotJoined r) Joining
| edge_response_pending d : join_edge Joining (Pending d)
| edge_response_joined d : join_edge Joining (Joined d)
| edge_admitted d : join_edge (Pending d) (Joined d)
| edge_leave j : in_call j = true -> join_edge j (NotJoined None)
| edge_again j : join_edge j j
| edge_ring r r' : join_edge (NotJoined r) (NotJoined r').

Section States.
Context `{FrameCipher} `{SrtpCrypto} `{GroupHash} `{ZkEndorsement} `{!ZkResponse}
  `{!Codec DeviceToDevice} `{!Codec DeviceToSfu} `{!Codec SfuToDevice}.

Notation quiet := (respects (same core)).

(** ** An abstract machine *)

Record View : Type := mkView {
  v_busy : bool;
  v_conn : ConnectionState;
  v_join : JoinState;
  v_told : list Told;
}.

Definition view (c : Core) : View := mkView (co_busy c) (co_connection c) (co_join c) (co_told c).

Inductive vstep : View -> View -> Prop :=
| v_leave b c j l : in_call j = true ->
    vstep (mkView b c j l) (mkView false c (NotJoined None) (l ++ [ToldJoin (NotJoined None)]))
| v_connection b c c' j l : conn_edge c c' ->
    vstep (mkView b c j l) (mkView b c' j (l ++ [ToldConnection c']))
| v_ring b c r l : vstep (mkView b c (NotJoined None) l) (mkView b c (NotJoined (Some r)) l)
| v_take c r l :
    vstep (mkView false c (NotJoined r) l) (mkView true c Joining (l ++ [ToldJoin Joining]))
| v_enter b c d j l : j = Pending d \/ j = Joined d ->
    vstep (mkView b c Joining l) (mkView b c j l)
| v_tell b c j l : vstep (mkView b c j l) (mkView b c j (l ++ [ToldJoin j]))
| v_admit b c d l :
    vstep (mkView b c (Pending d) l) (mkView b c (Joined d) (l ++ [ToldJoin (Joined d)])).

(** The client takes steps of the machine. *)
Definition moves (s s' : State) : Prop := rtc vstep (view (core s)) (view (core s')).

#[export] Instance moves_preorder : PreOrder moves.
Proof. split; [intros s; apply rtc_refl|]. intros s1 s2 s3. unfold moves. apply transitivity. Qed.

Lemma moves_quiet {A} (m : ST State Fault A) : quiet m -> respects moves m.
Proof. intros Hm s. unfold moves. by rewrite (Hm s). Qed.

(** Code with a given effect on the core. *)
Lemma moves_wp {A} (m : ST State Fault A) :
  (forall s, wp m s (fun _ c => rtc vstep (view (core s)) (view c))) -> respects moves m.
Proof. intros Hm s. apply Hm. Qed.

(** ** Leaving *)

Definition left (c : Core) : Core :=
  mkCore false (co_connection c) (NotJoined None) (co_devices c) (co_members c) (co_dhe c) (co_sfu c)
    (co_slots c) (co_rotation c) (co_key c) (co_given c) (co_told c ++ [ToldJoin (NotJoined None)])
    (co_sent c) (co_stopped c).

Lemma core_told s t :
  core (s <| outputs := outputs s ++ [ToObserver t] |>) =
    mkCore (busy s) (connection_state s) (join_state s) (owner <$> remote_devices s) (joined_members s)
      (dhe_state s) (sfu_info s) (remote_transceiver_demux_ids s) (media_send_key_rotation_state s)
      (FrameCrypto.sender_state (frame_crypto_context s)) ((outputs s ≫= keys_given) ++ keys_given (ToObserver t))
      ((outputs s ≫= told) ++ told (ToObserver t)) (sent s ≫= tracked_sent) (stopped s).
Proof. unfold core. cbn. by rewrite !bind_app, !bind_singleton. Qed.

Lemma core_eq_fields s s' :
  core s' = core s -> join_state s' = join_state s /\ connection_state s' = connection_state s /\
    busy s' = busy s.
Proof. unfold core. intros [=]. done. Qed.

(** Quiet code first. *)
Lemma wp_first {A B} (m : ST State Fault A) (k : A -> ST State Fault B) s P :
  quiet m -> (forall e, P (Err e) (core s)) ->
  (forall a s', core s' = core s -> wp (k a) s' P) -> wp (m ≫= k) s P.
Proof.
  intros Hm He Hk. apply wp_bind. unfold wp at 1. rewrite (Hm s). destruct (m s).2; [|done].
  intros s' Hs'. by apply Hk.
Qed.

Lemma leave_inner_core env s :
  wp (leave_inner env) s (fun r c =>
    (r = Ok tt /\ c = if in_call (join_state s) then left (core s) else core s) \/
    (exists e, r = Err e /\ c = core s)).
Proof.
  unfold leave_inner. apply wp_first; [apply cancel_ring_quiet|eauto|intros _ s1 Hc1].
  apply wp_bind, wp_gets. intros s2 Hc2.
  apply wp_first; [apply respects_when; [apply _|apply send_stats_quiet]|rewrite Hc2, Hc1; eauto|intros _ s3 Hc3].
  apply wp_bind, wp_gets. intros s4 Hc4.
  assert (core s4 = core s) as Hs by congruence.
  assert (join_state s3 = join_state s) as -> by (apply core_eq_fields; congruence).
  match goal with |- context [release_busy ;; ?f] => set (finish := (release_busy ;; f)) end.
  assert (forall s5, core s5 = core s -> in_call (join_state s) = true ->
    wp finish s5 (fun r c => (r = Ok tt /\ c = if in_call (join_state s) then left (core s) else core s) \/
      (exists e, r = Err e /\ c = core s))) as Hfinish.
  { intros s5 Hc5 ->. left. split; [done|]. rewrite <- Hc5. unfold finish, wp, left. cbn.
    change (core _) with (core (s5 <| busy := false |> <| join_state := NotJoined None |>
      <| outputs := outputs s5 ++ [ToObserver (HandleJoinStateChanged (NotJoined None))] |>)).
    unfold core. cbn. by rewrite !bind_app, !bind_singleton, app_nil_r. }
  assert (forall {B} (k : ST State Fault B) P, (forall s5, core s5 = core s -> wp k s5 P) ->
    wp ((peer (SetOutgoingMediaEnabled false) ;; peer (SetIncomingMediaEnabled false)) ;; k) s4 P) as Hmedia.
  { intros B k P Hk. apply wp_bind, wp_bind, wp_emit. intros s5 Hc5. apply wp_emit. intros s6 Hc6.
    apply Hk. rewrite Hc6, core_output by done. rewrite Hc5, core_output by done. done. }
  destruct (join_state s) eqn:Hj.
  - by left.
  - apply Hmedia. intros s5 Hc5. by apply Hfinish.
  - apply Hmedia. intros s5 Hc5. apply wp_first; [apply send_leaving_quiet|rewrite Hc5; eauto|intros _ s6 Hc6].
    apply wp_first; [apply send_leave_quiet|rewrite Hc6, Hc5; eauto|intros _ s7 Hc7].
    apply Hfinish; [congruence|done].
  - apply Hmedia. intros s5 Hc5. apply wp_first; [apply send_leaving_quiet|rewrite Hc5; eauto|intros _ s6 Hc6].
    apply wp_first; [apply send_leave_quiet|rewrite Hc6, Hc5; eauto|intros _ s7 Hc7].
    apply Hfinish; [congruence|done].
Qed.

(** [end]: leave, and close the connection a little later. *)
Definition ending (env : Env) (reason : CallEndReason.CallEndReason) (c : Core) : Core :=
  mkCore (co_busy c) (co_connection c) (co_join c) (co_devices c) (co_members c) (co_dhe c) (co_sfu c)
    (co_slots c) (co_rotation c) (co_key c) (co_given c) (co_told c)
    (co_sent c ++ [Actor.delayed (env_now env) (TEnd reason) CLIENT_END_DELAY]) (co_stopped c).

Definition ended (env : Env) (reason : CallEndReason.CallEndReason) (c : Core) : Core :=
  let c := if in_call (co_join c) then left c else c in
  if bool_decide (co_connection c = NotConnected) then c else ending env reason c.

Lemma end_core env reason s :
  wp (end_ env reason) s (fun r c =>
    (r = Ok tt /\ c = ended env reason (core s)) \/ (exists e, r = Err e /\ c = core s)).
Proof.
  unfold end_. apply wp_bind, wp_gets. intros s1 Hc1.
  set (c1 := if in_call (join_state s) then left (core s) else core s).
  set (P := fun r c => (r = Ok tt /\ c = ended env reason (core s)) \/ (exists e, r = Err e /\ c = core s)).
  assert (forall s2, core s2 = c1 -> wp
    (c ← gets connection_state;
     match c with NotConnected => ret_ok | _ => actor_send_delayed env CLIENT_END_DELAY (TEnd reason) end) s2 P)
    as Hrest.
  { intros s2 Hc2. apply wp_bind, wp_gets. intros s3 Hc3. left.
    assert (connection_state s2 = connection_state s) as Hcn.
    { change (co_connection (core s2) = connection_state s). rewrite Hc2. unfold c1. by destruct (in_call _). }
    rewrite Hcn. unfold ended. change (co_join (core s)) with (join_state s). fold c1.
    assert (co_connection c1 = connection_state s) as -> by (unfold c1; by destruct (in_call _)).
    rewrite <- Hc2, <- Hc3. destruct (connection_state s); cbn; (split; [done|]); [done|..];
      unfold ending, core; cbn; by rewrite bind_app, bind_singleton. }
  destruct (join_state s) eqn:Hj.
  { apply wp_bind, wp_ret. intros s2 Hc2. apply Hrest. unfold c1. cbn. congruence. }
  all: apply wp_bind; eapply wp_weaken; [apply leave_inner_core|];
    (intros r c [[-> ->]|(e & -> & ->)]; cbn; [|right; exists e; by rewrite Hc1]);
    intros s2 Hc2; apply Hrest; rewrite Hc2; unfold c1;
    (assert (join_state s1 = join_state s) as -> by (by apply core_eq_fields)); rewrite Hj; cbn; by rewrite Hc1.
Qed.

Lemma left_steps c : in_call (co_join c) = true -> vstep (view c) (view (left c)).
Proof. intros Hj. by apply v_leave. Qed.

Lemma ended_steps env reason c : rtc vstep (view c) (view (ended env reason c)).
Proof.
  unfold ended. destruct (in_call (co_join c)) eqn:Hj.
  - apply rtc_once. case_bool_decide; by apply left_steps.
  - by case_bool_decide.
Qed.

Lemma leave_moves env : respects moves (leave_inner env).
Proof.
  apply moves_wp. intros s. eapply wp_weaken; [apply leave_inner_core|].
  intros r c [[_ ->]|(e & _ & ->)]; [|done]. destruct (in_call (join_state s)) eqn:Hj; [|done].
  by apply rtc_once, left_steps.
Qed.

Lemma end_moves env reason : respects moves (end_ env reason).
Proof.
  apply moves_wp. intros s. eapply wp_weaken; [apply end_core|].
  intros r c [[_ ->]|(e & _ & ->)]; [|done]. apply ended_steps.
Qed.

(** ** Code that keeps the view *)

Create HintDb calm.
Notation calm := (respects (same (fun s => view (core s)))).

Lemma calm_quiet {A} (m : ST State Fault A) : quiet m -> calm m.
Proof. intros Hm s. unfold same. by rewrite (Hm s). Qed.

Lemma calm_emit o : told o = [] -> calm (emit o).
Proof. intros Ho s. unfold same, view. cbn. by rewrite bind_app, bind_singleton, Ho, app_nil_r. Qed.

Lemma moves_calm {A} (m : ST State Fault A) : calm m -> respects moves m.
Proof. intros Hm s. unfold moves. by rewrite (Hm s). Qed.

Ltac calm_step :=
  lazymatch goal with
  | |- respects _ (mbind _ _) => apply respects_bind; [typeclasses eauto| |intros ?]
  | |- respects _ (match ?x with _ => _ end) => destruct x
  | |- respects _ (for_each _ _) => apply respects_for_each; [typeclasses eauto|intros ?]
  | |- respects _ (when _ _) => apply respects_when; [typeclasses eauto|]
  | |- respects _ (observe _) => unfold observe
  | |- respects _ (emit _) => apply calm_emit; reflexivity
  | |- respects _ (mret _) => apply respects_ret; typeclasses eauto
  | |- respects _ ret_ok => apply respects_ret_ok; typeclasses eauto
  | |- respects _ (gets _) => apply respects_gets; typeclasses eauto
  | |- respects _ get => apply respects_get; typeclasses eauto
  | |- respects _ (fail _) => apply respects_fail; typeclasses eauto
  | |- respects _ (modify _) => apply respects_modify; intros ?; reflexivity
  | |- respects _ (crypto _) => intros ?; reflexivity
  | |- respects _ (actor_send_delayed _ _ _) => intros ?; reflexivity
  | |- respects _ _ => solve [eauto with calm|apply calm_quiet; solve_quiet]
  end.
Ltac solve_calm := intros; repeat calm_step.

Lemma send_key_calm env us d rc secret e :
  calm (send_media_send_key_to_users_over_signaling env us d rc secret e).
Proof. unfold send_media_send_key_to_users_over_signaling, send_to_each. solve_calm. Qed.
#[local] Hint Resolve send_key_calm : calm.

Lemma rotate_calm env e : calm (rotate_media_send_key_and_send_to_users_not_removed env e).
Proof. unfold rotate_media_send_key_and_send_to_users_not_removed. solve_calm. Qed.
#[local] Hint Resolve rotate_calm : calm.

Lemma apply_key_calm env secret e : calm (apply_send_key env secret e).
Proof. unfold apply_send_key. solve_calm. Qed.

Lemma advance_calm env us e : calm (advance_media_send_key_and_send_to_users_with_added_devices env us e).
Proof. unfold advance_media_send_key_and_send_to_users_with_added_devices. solve_calm. Qed.
Lemma send_pending_calm env us e : calm (send_pending_media_send_key_to_users_with_added_devices env us e).
Proof. unfold send_pending_media_send_key_to_users_with_added_devices. solve_calm. Qed.
Lemma resend_calm env : calm (resend_media_keys env).
Proof. unfold resend_media_keys. solve_calm. Qed.
#[local] Hint Resolve advance_calm send_pending_calm : calm.

(** Calm code first. *)
Lemma wp_calm {A B} (m : ST State Fault A) (k : A -> ST State Fault B) s v :
  calm m -> view (core s) = v ->
  (forall a s', view (core s') = v -> wp (k a) s' (fun _ c => rtc vstep v (view c))) ->
  wp (m ≫= k) s (fun _ c => rtc vstep v (view c)).
Proof.
  intros Hm Hv Hk. apply wp_bind. unfold wp at 1. specialize (Hm s). unfold same in Hm.
  destruct (m s) as [s1 [a|e]]; cbn in *.
  - intros s' Hs'. apply Hk. rewrite Hs'. congruence.
  - by rewrite Hm, Hv.
Qed.

Lemma wp_moves {A} (m : ST State Fault A) s v :
  respects moves m -> view (core s) = v -> wp m s (fun _ c => rtc vstep v (view c)).
Proof. intros Hm <-. apply Hm. Qed.

Lemma wp_rtc {A} (m : ST State Fault A) s v v' :
  rtc vstep v v' -> wp m s (fun _ c => rtc vstep v' (view c)) -> wp m s (fun _ c => rtc vstep v (view c)).
Proof. intros Hv Hm. eapply wp_weaken; [exact Hm|]. intros r c Hc. by etrans. Qed.

(** ** Connecting *)

Lemma set_connection_moves st s :
  conn_edge (connection_state s) st ->
  vstep (view (core s)) (view (core (set_connection_state_and_notify_observer st s).1)).
Proof.
  intros He.
  set (s1 := s <| connection_state := st |>
    <| outputs := outputs (s <| connection_state := st |>) ++ [ToObserver (HandleConnectionStateChanged st)] |>).
  change (set_connection_state_and_notify_observer st s).1 with
    (s1 <| outputs := outputs s1 ++ [ToSummary (OnConnectionStateChanged st)] |>).
  rewrite core_output by done. unfold s1. rewrite core_told. unfold view. cbn. by apply v_connection.
Qed.

Lemma notify_moves {A} st (m : ST State Fault A) s :
  conn_edge (connection_state s) st -> quiet m ->
  moves s ((set_connection_state_and_notify_observer st ;; m) s).1.
Proof.
  intros He Hm. rewrite (ST_bind_run _ _ _ (set_connection_state_and_notify_observer st s).1 tt) by done.
  etrans; [by apply rtc_once, (set_connection_moves st)|]. by apply moves_quiet.
Qed.

Lemma connect_moves env : respects moves (connect env).
Proof.
  intros s. unfold connect. rewrite ST_gets_bind. destruct (connection_state s) eqn:Hc; try apply rtc_refl.
  apply notify_moves; [rewrite Hc; constructor|]. solve_quiet.
Qed.

Lemma ice_moves env st : respects moves (handle_ice_connection_state_changed env st).
Proof.
  intros s. unfold handle_ice_connection_state_changed. rewrite ST_gets_bind.
  destruct (connection_state s) eqn:Hc, st;
    lazymatch goal with
    | |- moves _ (end_ _ _ _).1 => apply end_moves
    | |- moves _ (set_connection_state_and_notify_observer _ _).1 => apply rtc_once, set_connection_moves; rewrite Hc; constructor
    | |- moves _ ((set_connection_state_and_notify_observer _ ;; _) _).1 => apply notify_moves; [rewrite Hc; constructor|solve_quiet]
    | |- _ => apply rtc_refl
    end.
Qed.

(** ** Joining *)

Lemma core_join s st :
  core (set_join_state_and_notify_observer st s).1 =
    mkCore (busy s) (connection_state s) st (owner <$> remote_devices s) (joined_members s)
      (dhe_state s) (sfu_info s) (remote_transceiver_demux_ids s) (media_send_key_rotation_state s)
      (FrameCrypto.sender_state (frame_crypto_context s)) (outputs s ≫= keys_given)
      ((outputs s ≫= told) ++ [ToldJoin st]) (sent s ≫= tracked_sent) (stopped s).
Proof.
  change (set_join_state_and_notify_observer st s).1 with (s <| join_state := st |>
    <| outputs := outputs (s <| join_state := st |>) ++ [ToObserver (HandleJoinStateChanged st)] |>).
  rewrite core_told. cbn. by rewrite app_nil_r.
Qed.

Lemma provide_ring_moves r : respects moves (provide_ring_id_if_absent r).
Proof.
  intros s. unfold provide_ring_id_if_absent. rewrite ST_gets_bind.
  destruct (join_state s) as [[ring|]| | |] eqn:Hj; try apply rtc_refl.
  apply rtc_once. change (view (core s)) with (mkView (busy s) (connection_state s) (join_state s) (outputs s ≫= told)).
  rewrite Hj. apply v_ring.
Qed.

Lemma join_moves env : respects moves (join env).
Proof.
  intros s. unfold join. rewrite ST_gets_bind. destruct (join_state s) as [ring| | |] eqn:Hj; try apply rtc_refl.
  unfold take_busy. destruct (busy s) eqn:Hb.
  { rewrite (ST_bind_run _ _ _ s false); [apply end_moves|]. rewrite ST_gets_bind, Hb. done. }
  rewrite (ST_bind_run _ _ _ (s <| busy := true |>) true); [|by rewrite ST_gets_bind, Hb].
  set (s1 := s <| busy := true |>).
  rewrite (ST_bind_run _ _ _ (set_join_state_and_notify_observer Joining s1).1 tt) by done.
  transitivity (set_join_state_and_notify_observer Joining s1).1.
  - apply rtc_once. rewrite core_join.
    change (view (core s)) with (mkView (busy s) (connection_state s) (join_state s) (outputs s ≫= told)).
    rewrite Hj, Hb. apply v_take.
  - apply moves_calm. unfold accept_ring_if_needed. solve_calm.
Qed.

(** ** New devices *)

Lemma view_join s v : view (core s) = v -> join_state s = v_join v.
Proof. by intros <-. Qed.

(** Telling the peer connection ends the call if that fails, and otherwise keeps the
    view. *)
Definition calm_if {A} (b : A -> bool) (v : View) (r : result A Fault) (c : Core) : Prop :=
  match r with
  | Ok a => if b a then view c = v else rtc vstep v (view c)
  | Err _ => rtc vstep v (view c)
  end.

Lemma push_moves env d keys new_ids added s :
  wp (push_demux_ids env d keys new_ids added) s (calm_if id (view (core s))).
Proof.
  assert (forall s' v, view (core s') = v ->
    wp (end_ env CallEndReason.FailedToUpdatePeerConnection ;; mret false) s' (calm_if id v)) as Hend.
  { intros s' v <-. apply wp_bind. eapply wp_weaken; [apply end_core|].
    intros r c [[-> ->]|(e & -> & ->)]; [|apply rtc_refl].
    intros s2 Hc2. cbn. rewrite Hc2. apply ended_steps. }
  unfold push_demux_ids. apply wp_bind, wp_gets. intros s1 Hc1.
  destruct (sfu_info s) as [sfu|]; [|apply wp_ret; cbn; by rewrite Hc1].
  apply wp_bind, wp_modify. intros s2 Hc2.
  assert (view (core s2) = view (core s)) as Hv2 by (rewrite Hc2, <- Hc1; done).
  apply wp_bind. apply wp_quiet; [solve_quiet|]. intros [failed|e]; cbn; [|rewrite Hv2; apply rtc_refl].
  intros s3 Hc3. destruct failed; [apply Hend; congruence|].
  case_bool_decide; [apply wp_ret; cbn; congruence|]. apply wp_bind, wp_modify. intros s4 Hc4.
  assert (view (core s4) = view (core s)) as Hv4 by (rewrite Hc4, <- Hv2, <- Hc3; done).
  apply wp_bind. apply wp_quiet; [solve_quiet|]. intros [failed|e]; cbn; [|rewrite Hv4; apply rtc_refl].
  intros s5 Hc5. destruct failed; [apply Hend; congruence|]. apply wp_ret. cbn. congruence.
Qed.

Lemma devices_changed_moves env d b old new added oldu newu e s :
  local_demux (join_state s) = Some d ->
  wp (devices_changed env d b old new added oldu newu e) s (fun _ c => rtc vstep (view (core s)) (view c)).
Proof.
  intros Hd. unfold devices_changed. apply wp_calm; [solve_calm|done|]. intros _ s1 Hv1.
  apply wp_bind, wp_gets. intros s2 Hc2. rewrite (view_join _ _ Hv1). change (v_join _) with (join_state s).
  set (v := view (core s)) in *. assert (view (core s2) = v) as Hv2 by congruence.
  match goal with |- wp (?m ≫= ?k) s2 _ => assert (forall u, calm (k u)) as Hk by solve_calm;
    assert (exists v', (m s2).2 = Ok tt /\ view (core (m s2).1) = v' /\ rtc vstep v v') as (v' & Hm & Hv' & Hvs) end.
  { destruct b; [|by exists v]. destruct (join_state s) as [r| |d'|d'] eqn:Hj; try by exists v.
    injection Hd as [= ->]. eexists. split_and!; [done|done|].
    rewrite (ST_bind_run _ _ _ (set_join_state_and_notify_observer (Joined d) s2).1 tt) by done.
    unfold on_client_joined, peer. rewrite (emit_quiet (ToPeer ConfigureAudio) eq_refl _), core_join.
    apply rtc_once. rewrite <- Hv2. change (view (core s2)) with
      (mkView (busy s2) (connection_state s2) (join_state s2) (outputs s2 ≫= told)).
    rewrite (view_join _ _ Hv2). change (v_join v) with (join_state s). rewrite Hj. apply v_admit. }
  apply wp_bind. unfold wp at 1. rewrite Hm. intros s3 Hs3.
  apply (wp_rtc _ _ _ _ Hvs). apply wp_moves; [apply moves_calm, (Hk tt)|congruence].
Qed.

Lemma update_call_moves env p d keys oldu newu e s :
  local_demux (join_state s) = Some d ->
  wp (update_call env p d keys oldu newu e) s (fun _ c => rtc vstep (view (core s)) (view c)).
Proof.
  intros Hd. unfold update_call. apply wp_bind, wp_gets. intros s1 Hc1.
  destruct (update_devices _ _ _ _) as [ds participant]. apply wp_bind, wp_modify. intros s2 Hc2.
  assert (view (core s2) = view (core s)) as Hv2 by (rewrite Hc2, <- Hc1; done).
  apply wp_bind. eapply wp_weaken with (P := calm_if id (view (core s))).
  { case_bool_decide; [by apply wp_ret|]. rewrite <- Hv2. apply push_moves. }
  intros [[]|err] c Hc; [|intros s3 Hc3; apply wp_ret; by rewrite Hc3|done]. cbn in Hc. intros s3 Hc3.
  apply wp_bind. eapply wp_weaken; [apply devices_changed_moves|].
  - rewrite (view_join s3 (view (core s))); [done|congruence].
  - cbn. intros r c' Hc'. assert (rtc vstep (view (core s)) (view c')) by (rewrite <- Hc, <- Hc3; done).
    destruct r; [|done]. intros s4 Hc4. apply wp_ret. by rewrite Hc4.
Qed.

Lemma peek_moves env r e : respects moves (set_peek_result_inner env r e).
Proof.
  destruct r as [p|status]; [|apply moves_calm; unfold set_peek_result_inner; solve_calm].
  apply moves_wp. intros s. unfold set_peek_result_inner.
  apply wp_bind, wp_gets. intros s1 Hc1.
  apply wp_calm; [solve_calm|by rewrite Hc1|intros _ s2 Hv2].
  apply wp_calm; [solve_calm|done|intros _ s3 Hv3].
  apply wp_calm; [solve_calm|done|intros _ s4 Hv4].
  apply wp_bind. eapply wp_weaken with (P := fun r c => rtc vstep (view (core s)) (view c)).
  - destruct (local_demux (join_state s)) as [d|] eqn:Hd; [|apply wp_ret; by rewrite Hv4].
    destruct (dhe_state s); try (apply wp_ret; by rewrite Hv4).
    rewrite <- Hv4. apply update_call_moves. by rewrite (view_join _ _ Hv4).
  - intros [b|err] c Hc; [|done]. intros s5 Hc5. apply (wp_rtc _ _ _ _ Hc).
    apply wp_moves; [|by rewrite Hc5]. apply moves_calm. destruct b; solve_calm.
Qed.

Lemma endorsements_moves env now x y : respects moves (endorsements_or_devices env now x y).
Proof.
  unfold endorsements_or_devices. apply respects_bind; [apply _|apply moves_quiet; solve_quiet|intros e].
  destruct y as [[proto|]|]; [|apply moves_quiet; solve_quiet..].
  apply respects_bind; [apply _|apply moves_quiet; solve_quiet|intros m].
  destruct (deobfuscate_proto _ _); [apply peek_moves|apply moves_quiet; solve_quiet].
Qed.

(** ** The answer of the SFU *)

Lemma connect_to_sfu_moves env joined : respects moves (connect_to_sfu env joined).
Proof.
  assert (forall reason, respects moves (end_ env reason ;; mret false)) as Hend.
  { intros reason. apply respects_bind; [apply _|apply end_moves|intros _]. by apply respects_ret, _. }
  intros s. unfold connect_to_sfu. rewrite (ST_bind_run get _ s s s) by done.
  destruct (connection_state s) eqn:Hc; try apply rtc_refl.
  destruct (negotiate _ _ _) as [dhe|]; [|apply rtc_refl]. revert s Hc. intros s _. apply respects_bind; [apply _| |intros _].
  { apply moves_calm. solve_calm. }
  destruct dhe; try apply Hend. apply respects_bind; [apply _|apply moves_quiet; solve_quiet|intros failed].
  destruct failed; [apply Hend|]. apply moves_calm. solve_calm.
Qed.

Lemma tell_moves s : moves s (observe (HandleJoinStateChanged (join_state s)) s).1.
Proof.
  change (observe (HandleJoinStateChanged (join_state s)) s).1 with
    (s <| outputs := outputs s ++ [ToObserver (HandleJoinStateChanged (join_state s))] |>).
  apply rtc_once. rewrite core_told. apply v_tell.
Qed.

Lemma enter_call_moves env joined :
  task_ok (TJoinAttemptCompleted (Ok joined)) -> respects moves (enter_call env joined).
Proof.
  intros Hok. apply moves_wp. intros s. unfold enter_call. apply wp_bind, wp_gets. intros s1 Hc1.
  destruct (join_state s) eqn:Hj; try (apply wp_ret; by rewrite Hc1).
  apply wp_calm; [solve_calm|by rewrite Hc1|intros _ s2 Hv2].
  apply wp_bind, wp_modify. intros s3 Hc3.
  apply (wp_rtc _ _ _ (view (core s3))).
  { apply rtc_once. rewrite <- Hv2, Hc3.
    change (view (core s2)) with (mkView (busy s2) (connection_state s2) (join_state s2) (outputs s2 ≫= told)).
    rewrite (view_join _ _ Hv2). change (v_join _) with (join_state s). rewrite Hj.
    by apply (v_enter _ _ (j_local_demux_id joined)). }
  apply wp_moves; [|done].
  apply respects_bind; [apply _|apply moves_quiet; solve_quiet|intros p].
  apply respects_bind; [apply _| |intros _].
  { destruct p; [|apply moves_quiet; solve_quiet].
    apply respects_bind; [apply _|apply peek_moves|intros _]. apply moves_quiet; solve_quiet. }
  intros s4. rewrite ST_gets_bind.
  rewrite (ST_bind_run _ _ _ (observe (HandleJoinStateChanged (join_state s4)) s4).1 tt) by done.
  transitivity (observe (HandleJoinStateChanged (join_state s4)) s4).1; [apply tell_moves|].
  apply moves_quiet. unfold on_client_joined, update_ring_state. solve_quiet.
Qed.

Lemma join_result_moves env r :
  task_ok (TJoinAttemptCompleted r) -> respects moves (on_sfu_client_join_attempt_completed env r).
Proof.
  intros Hok. destruct r as [joined|err]; cbn [on_sfu_client_join_attempt_completed]; [|apply end_moves].
  unfold on_sfu_client_join_success. apply respects_bind; [apply _|apply connect_to_sfu_moves|intros b].
  destruct b; [by apply enter_call_moves|apply moves_quiet; solve_quiet].
Qed.

(** ** All closures but the last *)

Lemma perform_moves env t :
  task_ok t -> (forall reason, t <> TEnd reason) -> respects moves (perform env t).
Proof.
  intros Hok Hend. destruct (quiet_task t) eqn:Hq; [by apply moves_quiet, perform_quiet|].
  destruct t; try discriminate Hq; cbn [perform].
  - apply provide_ring_moves.
  - apply connect_moves.
  - apply join_moves.
  - apply leave_moves.
  - apply end_moves.
  - apply moves_calm, resend_calm.
  - by destruct (Hend reason).
  - by apply join_result_moves.
  - apply peek_moves.
  - apply moves_calm, apply_key_calm.
  - apply endorsements_moves.
  - unfold handle_removed_received. apply respects_bind; [apply _|apply moves_quiet; solve_quiet|intros j].
    apply end_moves.
  - apply ice_moves.
Qed.

End States.
End GroupStates.
