(* ===== verification/GroupDiagram.v ===== *)
(** * What the application is told about a group call

    The closures of a client and the other threads together: every history of
    notifications is a path of the diagrams in group_call.rs, [handle_ended] is the last
    call of the observer, and the flag [busy] is held exactly while the device is in the
    call. *)

From S2P Require Import Prelude States Signaling ConnectionTypes Connection ConnectionStart CallManager.
From S2P Require Import MrpWindow MrpMerge MrpStream FrameCrypto FrameFormat Endorsements Actor GroupTypes GroupCall.
From S2P Require Import GroupSystem GroupQuiet GroupStates.
From stdpp Require Import relations.
Local Open Scope Z_scope.
Local Open Scope ringrtc_scope.

Module GroupDiagram.
Import GroupTypes GroupCall GroupSystem GroupQuiet GroupStates.

(** ** Paths *)

Inductive path {A} (R : A -> A -> Prop) : A -> list A -> A -> Prop :=
| path_nil x : path R x [] x
| path_cons x y l z : R x y -> path R y l z -> path R x (y :: l) z.

Lemma path_snoc {A} (R : A -> A -> Prop) x l y z : path R x l y -> R y z -> path R x (l ++ [z]) z.
Proof. induction 1; cbn; intros Hz; econstructor; eauto. constructor. Qed.

Definition connections (l : list Told) : list ConnectionState :=
  omap (fun t => match t with ToldConnection c => Some c | _ => None end) l.
Definition joins (l : list Told) : list JoinState :=
  omap (fun t => match t with ToldJoin j => Some j | _ => None end) l.
Definition endings (l : list Told) : list CallEndReason.CallEndReason :=
  omap (fun t => match t with ToldEnded reason => Some reason | _ => None end) l.

(** The state that was told last may be older than the state of the client. *)
Inductive follows : JoinState -> JoinState -> Prop :=
| follows_same j : follows j j
| follows_ring r r' : follows (NotJoined r) (NotJoined r')
| follows_pending d : follows Joining (Pending d)
| follows_joined d : follows Joining (Joined d).

Lemma follows_in_call j j' : follows j j' -> in_call j = in_call j'.
Proof. by destruct 1. Qed.

Lemma follows_edge j j' : follows j j' -> join_edge j j'.
Proof. destruct 1; constructor. Qed.

Definition history (v : View) : Prop :=
  path conn_edge NotConnected (connections (v_told v)) (v_conn v) /\
  (exists j, path join_edge (NotJoined None) (joins (v_told v)) j /\ follows j (v_join v)) /\
  endings (v_told v) = [].

Lemma history_join b c l j j' j'' :
  history (mkView b c j l) -> (forall t, follows t j -> join_edge t j') -> follows j' j'' -> 
  forall b', history (mkView b' c j'' (l ++ [ToldJoin j'])).
Proof.
  intros (Hc & (t & Ht & Hf) & He) Hj Hf' b'. unfold history, connections, joins, endings in *. cbn in *.
  rewrite !omap_app, He. cbn. rewrite app_nil_r. split_and!; [done| |done].
  exists j'. split; [|done]. eapply path_snoc; [exact Ht|]. by apply Hj.
Qed.

Lemma history_step v v' : vstep v v' -> history v -> history v'.
Proof.
  intros Hs Hh. destruct Hs as [b c j l Hj|b c c' j l Hc|b c r l|c r l|b c d j l Hj|b c j l|b c d l].
  - eapply history_join; [exact Hh| |constructor]. intros t Ht%follows_in_call. constructor. congruence.
  - destruct Hh as (Hp & Hj & He). unfold history, connections, joins, endings in *. cbn in *.
    rewrite !omap_app, He. cbn. rewrite app_nil_r. split_and!; [by eapply path_snoc|done..].
  - destruct Hh as (Hp & (j & Hj & Hf) & He). split_and!; [done| |done].
    exists j. split; [done|]. cbn in Hf. inversion Hf; subst; constructor.
  - eapply history_join; [exact Hh| |constructor]. intros t Ht. inversion Ht; subst; constructor.
  - destruct Hh as (Hp & (t & Ht & Hf) & He). split_and!; [done| |done].
    exists t. split; [done|]. cbn in Hf. inversion Hf; subst. destruct Hj as [-> | ->]; constructor.
  - apply (history_join _ _ _ _ j j Hh); [|constructor]. intros t. apply follows_edge.
  - eapply history_join; [exact Hh| |constructor]. intros t Ht. inversion Ht; subst; constructor.
Qed.

Lemma history_steps v v' : rtc vstep v v' -> history v -> history v'.
Proof. induction 1; eauto using history_step. Qed.

(** [busy] belongs to the client or to one of the [n] others, who may be several. *)
Definition owned (n : nat) (v : View) : Prop :=
  v_busy v = true -> in_call (v_join v) = true \/ n <> 0%nat.

(** [busy] is taken exactly while the client or somebody else has a call, and only one has. *)
Definition holds (n : nat) (v : View) : Prop :=
  v_busy v = in_call (v_join v) || negb (n =? 0)%nat /\ (Nat.b2n (in_call (v_join v)) + n <= 1)%nat.

Lemma owned_step n v v' : vstep v v' -> owned n v -> owned n v'.
Proof.
  unfold owned. destruct 1 as [b c j l Hj|b c c' j l Hc|b c r l|c r l|b c d j l Hj|b c j l|b c d l];
    cbn; try done; intros Ho Hb; [by left|]. left. by destruct Hj as [-> | ->].
Qed.

Lemma holds_step n v v' : vstep v v' -> holds n v -> holds n v'.
Proof.
  unfold holds. destruct 1 as [b c j l Hj|b c c' j l Hc|b c r l|c r l|b c d j l Hj|b c j l|b c d l];
    cbn; try done; intros [Hb Ho].
  - rewrite Hj in Ho. cbn in Ho. assert (n = 0)%nat as -> by lia. auto.
  - destruct n; [auto|discriminate Hb].
  - by destruct Hj as [-> | ->].
Qed.

Lemma owned_steps n v v' : rtc vstep v v' -> owned n v -> owned n v'.
Proof. induction 1; eauto using owned_step. Qed.
Lemma holds_steps n v v' : rtc vstep v v' -> holds n v -> holds n v'.
Proof. induction 1; eauto using holds_step. Qed.

Section Diagram.
Context `{FrameCipher} `{SrtpCrypto} `{GroupHash} `{ZkEndorsement} `{!ZkResponse}
  `{!Codec DeviceToDevice} `{!Codec DeviceToSfu} `{!Codec SfuToDevice}.

Notation quiet := (respects (same core)).
Notation seen s := (view (core s)).

(** The last closure. *)
Definition over (v : View) (reason : CallEndReason.CallEndReason) : View :=
  mkView (v_busy v) NotConnected (v_join v)
    (v_told v ++ [ToldConnection NotConnected; ToldEnded reason]).

Lemma finish_end_runs reason s :
  (finish_end reason s).2 = Ok tt /\ stopped (finish_end reason s).1 = true /\
  seen (finish_end reason s).1 = over (seen s) reason /\
  outputs (finish_end reason s).1 = outputs s ++
    [ToPeer Close; ToObserver (HandleConnectionStateChanged NotConnected);
     ToSummary (OnConnectionStateChanged NotConnected); ToObserver (HandleEnded reason)].
Proof.
  assert (finish_end reason s = (s <| connection_state := NotConnected |> <| stopped := true |>
    <| sent := sent s ++ [Actor.immediate TNothing] |>
    <| outputs := (((outputs s ++ [ToPeer Close]) ++ [ToObserver (HandleConnectionStateChanged NotConnected)])
         ++ [ToSummary (OnConnectionStateChanged NotConnected)]) ++ [ToObserver (HandleEnded reason)] |>, Ok tt)) as -> by done.
  cbn [fst snd]. rewrite <- !app_assoc. split_and!; [done..| |done].
  unfold over, view, core. cbn. by rewrite bind_app.
Qed.

(** ** Answers of the SFU come from outside *)

Definition no_result (t : Actor.Sent Task) : bool :=
  match Actor.task t with TJoinAttemptCompleted _ => false | _ => true end.

(** The closures that are sent are no answers of the SFU. *)
Definition sends (s s' : State) : Prop :=
  exists l, sent s' ≫= tracked_sent = (sent s ≫= tracked_sent) ++ l /\ forallb no_result l = true.

#[local] Instance sends_preorder : PreOrder sends.
Proof.
  split; [intros s; exists []; by rewrite app_nil_r|].
  intros s1 s2 s3 (l & Hl & Hn) (l' & Hl' & Hn'). exists (l ++ l').
  by rewrite Hl', Hl, app_assoc, forallb_app, Hn, Hn'.
Qed.

Lemma sends_quiet {A} (m : ST State Fault A) : quiet m -> respects sends m.
Proof.
  intros Hm s. exists []. rewrite app_nil_r. split; [|done].
  exact (f_equal co_sent (Hm s)).
Qed.

Lemma sends_same (s s' : State) : sent s' = sent s -> sends s s'.
Proof. intros Hs. exists []. by rewrite Hs, app_nil_r. Qed.

Lemma sends_delayed env d t : no_result (Actor.immediate t) = true -> respects sends (actor_send_delayed env d t).
Proof.
  intros Ht s. eexists. cbn. rewrite bind_app, bind_singleton. split; [done|]. unfold tracked_sent. cbn.
  destruct (tracked t); [|done]. cbn. by rewrite andb_true_r.
Qed.

Create HintDb sends.

Ltac sends_step :=
  lazymatch goal with
  | |- respects _ (mbind _ _) => apply respects_bind; [typeclasses eauto| |intros ?]
  | |- respects _ (match ?x with _ => _ end) => destruct x
  | |- respects _ (for_each _ _) => apply respects_for_each; [typeclasses eauto|intros ?]
  | |- respects _ (when _ _) => apply respects_when; [typeclasses eauto|]
  | |- respects _ (modify _) => apply respects_modify; intros ?; apply sends_same; reflexivity
  | |- respects _ (observe _) => intros ?; apply sends_same; reflexivity
  | |- respects _ (crypto _) => intros ?; apply sends_same; reflexivity
  | |- respects _ (fail _) => apply respects_fail; typeclasses eauto
  | |- respects _ (actor_send_delayed _ _ _) => apply sends_delayed; reflexivity
  | |- respects _ _ => solve [eauto with sends|apply sends_quiet; solve_quiet]
  end.
Ltac solve_sends := intros; repeat sends_step.

Lemma set_connection_sends st : respects sends (set_connection_state_and_notify_observer st).
Proof. unfold set_connection_state_and_notify_observer. solve_sends. Qed.
Lemma set_join_sends st : respects sends (set_join_state_and_notify_observer st).
Proof. unfold set_join_state_and_notify_observer. solve_sends. Qed.
#[local] Hint Resolve set_connection_sends set_join_sends : sends.

Lemma leave_sends env : respects sends (leave_inner env).
Proof. unfold leave_inner, release_busy. solve_sends. Qed.
#[local] Hint Resolve leave_sends : sends.
Lemma end_sends env reason : respects sends (end_ env reason).
Proof. unfold end_. solve_sends. Qed.
#[local] Hint Resolve end_sends : sends.

Lemma send_key_sends env us d rc secret e :
  respects sends (send_media_send_key_to_users_over_signaling env us d rc secret e).
Proof. unfold send_media_send_key_to_users_over_signaling, send_to_each. solve_sends. Qed.
#[local] Hint Resolve send_key_sends : sends.
Lemma rotate_sends env e : respects sends (rotate_media_send_key_and_send_to_users_not_removed env e).
Proof. unfold rotate_media_send_key_and_send_to_users_not_removed. solve_sends. Qed.
#[local] Hint Resolve rotate_sends : sends.
Lemma push_sends env d keys new added : respects sends (push_demux_ids env d keys new added).
Proof. unfold push_demux_ids. solve_sends. Qed.
Lemma changed_sends env d b old new added oldu newu e :
  respects sends (devices_changed env d b old new added oldu newu e).
Proof.
  unfold devices_changed, on_client_joined, advance_media_send_key_and_send_to_users_with_added_devices,
    send_pending_media_send_key_to_users_with_added_devices. solve_sends.
Qed.
#[local] Hint Resolve push_sends changed_sends : sends.
Lemma peek_sends env r e : respects sends (set_peek_result_inner env r e).
Proof. unfold set_peek_result_inner, update_call. solve_sends. Qed.
#[local] Hint Resolve peek_sends : sends.

Lemma perform_sends env t : respects sends (perform env t).
Proof.
  destruct (quiet_task t) eqn:Hq; [by apply sends_quiet, perform_quiet|].
  destruct t; try discriminate Hq; cbn [perform];
    unfold provide_ring_id_if_absent, connect, join, take_busy, accept_ring_if_needed, leave, disconnect,
      resend_media_keys, finish_end, on_sfu_client_join_attempt_completed, on_sfu_client_join_success,
      connect_to_sfu, enter_call, on_client_joined, update_ring_state, on_sfu_client_join_failure, apply_send_key,
      endorsements_or_devices, handle_removed_received, handle_ice_connection_state_changed; solve_sends.
Qed.

(** ** The invariant *)

Record sound (y : Sys) : Prop := mkSound {
  sound_tasks : Forall (fun t => task_ok (Actor.task t)) (Actor.waiting (client y));
  sound_busy : owned (others y) (seen (Actor.state (client y)));
  sound_history :
    history (seen (Actor.state (client y))) \/
    Actor.stopped (client y) = true /\ exists v reason l,
      history v /\ seen (Actor.state (client y)) = over v reason /\
      outputs (Actor.state (client y)) = l ++ [ToObserver (HandleEnded reason)];
}.

(** *** A closure *)

Lemma run_sent env t s s' l stops :
  run env t s = (s', l, stops) -> Forall (fun t => task_ok (Actor.task t)) l.
Proof.
  unfold run. set (s0 := s <| sent := [] |> <| stopped := false |>).
  pose proof (perform_sends env t s0) as (k & Hk & Hn). destruct (perform env t s0) as [s1 r].
  cbn in Hk. intros [= <- <- _]. apply Forall_forall. intros x Hx. destruct x as [x d]. cbn.
  destruct x as [| | | | | | | | | | | | | | | | | | | | | | | | | [joined|] | | | | | | | | | | | | | | | | | | | | | |]; try done.
  exfalso. rewrite forallb_forall in Hn.
  specialize (Hn (Actor.mkSent (TJoinAttemptCompleted (Ok joined)) d)). cbn in Hn.
  discriminate Hn. apply list_elem_of_In. rewrite <- Hk. apply list_elem_of_bind.
  eexists. split; [|exact Hx]. by apply list_elem_of_singleton.
Qed.

Lemma run_seen env t s s' l stops :
  task_ok t -> run env t s = (s', l, stops) ->
  rtc vstep (seen s) (seen s') \/
  exists reason k, stops = true /\ seen s' = over (seen s) reason /\
    outputs s' = k ++ [ToObserver (HandleEnded reason)].
Proof.
  intros Hok. unfold run. set (s0 := s <| sent := [] |> <| stopped := false |>).
  assert ((exists reason, t = TEnd reason) \/ forall reason, t <> TEnd reason) as [[reason ->]|Ht].
  { destruct t; first [by right|left; eauto]. }
  - destruct (finish_end_runs reason s0) as (Hr & Hst & Hv & Ho). cbn [perform].
    destruct (finish_end reason s0) as [s1 r]. cbn in *. intros [= <- _ <-]. right.
    exists reason. eexists (outputs s0 ++ [ToPeer Close; ToObserver (HandleConnectionStateChanged NotConnected);
      ToSummary (OnConnectionStateChanged NotConnected)]).
    rewrite Hst, Ho. split_and!; [done|by rewrite Hv|]. by rewrite <- app_assoc.
  - pose proof (perform_moves env t Hok Ht s0) as Hm. destruct (perform env t s0) as [s1 r].
    intros [= <- _ _]. by left.
Qed.

Lemma run_sound env t a o :
  task_ok t -> Actor.stopped a = false -> sound (mkSys a o) -> sound (mkSys (Actor.run_task run env t a) o).
Proof.
  intros Hok Hst [Ht Hb Hh]. cbn in *. destruct Hh as [Hh|[Hs _]]; [|congruence].
  unfold Actor.run_task. destruct (run env t (Actor.state a)) as [[s' l] stops] eqn:Hrun.
  apply run_sent in Hrun as Hl.
  assert (Forall (fun t => task_ok (Actor.task t)) ((Actor.channel a ++ l) ++ Actor.delayed_tasks a)) as Hw.
  { unfold Actor.waiting in Ht. apply Forall_app in Ht as [Ht1 Ht2]. rewrite !Forall_app. done. }
  destruct (run_seen _ _ _ _ _ _ Hok Hrun) as [Hm|(reason & k & -> & Hv & Ho)].
  - constructor; [exact Hw|exact (owned_steps _ _ _ Hm Hb)|left; exact (history_steps _ _ Hm Hh)].
  - constructor; cbn; [exact Hw| |].
    + rewrite Hv. exact Hb.
    + right. rewrite Hst. split; [done|]. by exists (seen (Actor.state a)), reason, k.
Qed.

(** *** The other threads *)

Lemma send_all_spec l a :
  Actor.state (send_all l a) = Actor.state a /\ Actor.stopped (send_all l a) = Actor.stopped a /\
  Actor.delayed_tasks (send_all l a) = Actor.delayed_tasks a /\
  Actor.channel (send_all l a) = Actor.channel a ++ (Actor.immediate <$> l).
Proof.
  revert a. induction l as [|t l IH]; intros a; [by rewrite app_nil_r|].
  change (send_all (t :: l) a) with (send_all l (Actor.send (Actor.immediate t) a)).
  destruct (IH (Actor.send (Actor.immediate t) a)) as (-> & -> & -> & ->). cbn.
  by rewrite <- app_assoc.
Qed.

(** Changes of the state that neither the machine nor the observer sees. *)
Lemma sound_hidden a b f l :
  (forall s, seen (f s) = seen s) -> (forall s, outputs (f s) = outputs s) ->
  Forall task_ok l -> sound (mkSys a b) -> sound (mkSys (send_all l (on_state f a)) b).
Proof.
  intros Hv Ho Hl [Ht Hb Hh]. cbn in *.
  destruct (send_all_spec l (on_state f a)) as (Hs & Hst & Hd & Hc).
  change (Actor.state (on_state f a)) with (f (Actor.state a)) in Hs.
  constructor; cbn [client others]; rewrite ?Hs, ?Hst.
  - unfold Actor.waiting in *. rewrite Hc, Hd. apply Forall_app in Ht as [Ht1 Ht2].
    rewrite !Forall_app, Forall_fmap. done.
  - by rewrite Hv.
  - by rewrite Hv, Ho.
Qed.

Lemma rtp_outputs env header payload : respects (same outputs) (handle_rtp_received env header payload).
Proof.
  unfold handle_rtp_received. repeat case_match; try (by apply respects_ret, _).
  apply respects_bind; [apply _| |intros r; by apply respects_ret, _].
  apply respects_attempt. intros s. unfold on_crypto. by destruct (FrameFormat.decrypt_data _ _ _ _).
Qed.

Lemma history_any_busy v b : history v -> history (mkView b (v_conn v) (v_join v) (v_told v)).
Proof. done. Qed.

(** Somebody else takes or releases [busy]. *)
Lemma sound_flag a n n' b' :
  (b' = true -> n' <> 0%nat) -> sound (mkSys a n) ->
  sound (mkSys (on_state (fun s => s <| busy := b' |>) a) n').
Proof.
  intros Hj [Ht Hb Hh]. constructor; cbn in *; [done| |].
  - intros Hb'. right. exact (Hj Hb').
  - destruct Hh as [Hh|(Hst & v & reason & l & Hh & Hv & Ho)]; [by left|right]. split; [done|].
    exists (mkView b' (v_conn v) (v_join v) (v_told v)), reason, l. split_and!; [done| |done].
    unfold over, view, core in *. cbn in *. congruence.
Qed.

Lemma sound_act y y' : act y y' -> sound y -> sound y'.
Proof.
  intros Ha Hs. destruct Ha as [env a a' b Hstep|_ _ [t a b Hi Hok|env header payload a b s' l Hrtp|plaintext buffer a b
    |now d ciphertext buffer a b|u a b|a n Hb|a n]|[a n] m _ _].
  - destruct Hs as [Ht Hb Hh]. cbn in *. destruct Hstep as
      [t l Hr Hc Hst|t l Hr Hc Hst Hd|t l Hr Hc Hst Hd|t h1 h2 Hr Hc Hst Hh' He Htm|t h1 h2 Hr Hc Hst Hh' He Htm];
      unfold Actor.waiting in Ht; rewrite Hc in Ht; cbn in Ht.
    + constructor; [by apply Forall_cons in Ht as [_ Ht]|done..].
    + apply Forall_cons in Ht as [Ht1 Ht2]. constructor; [|done..]. unfold Actor.waiting. cbn.
      rewrite app_assoc, Forall_app. split; [done|]. by apply Forall_singleton.
    + apply Forall_cons in Ht as [Ht1 Ht2]. apply run_sound; [done..|]. by constructor.
    + rewrite Hh', Forall_app, Forall_cons in Ht. constructor; [|done..]. unfold Actor.waiting. cbn.
      rewrite Hc, Forall_app. cbn. rewrite Forall_app. naive_solver.
    + rewrite Hh', Forall_app, Forall_cons in Ht. apply run_sound; [naive_solver|done|]. constructor; [|done..].
      unfold Actor.waiting. cbn. rewrite Hc. cbn. rewrite Forall_app. naive_solver.
  - apply (sound_hidden a b id [t]); [done|done|by apply Forall_singleton|by destruct a].
  - pose proof (rtp_quiet env header payload (Actor.state a)) as Hq.
    pose proof (rtp_outputs env header payload (Actor.state a)) as Ho. apply rtp_tasks in Hrtp as Hl.
    rewrite Hrtp in Hq, Ho. unfold same in Hq, Ho. cbn in Hq, Ho.
    assert (sound (mkSys (on_state (fun _ => s') a) b)) as Hs'.
    { destruct Hs as [Ht Hb Hh]. constructor; cbn in *; [done|by rewrite Hq|by rewrite Hq, Ho]. }
    apply (sound_hidden _ b id l) in Hs'; [by destruct a|done|done|].
    eapply Forall_impl; [exact Hl|]. by intros t [_ ?].
  - by apply (sound_hidden a b _ []).
  - by apply (sound_hidden a b _ []).
  - by apply (sound_hidden a b _ []).
  - by apply (sound_flag a n).
  - by apply (sound_flag a (S n)).
  - by apply (sound_flag a n).
Qed.

Lemma reachable_sound y : reachable y -> sound y.
Proof.
  induction 1 as [secret y Hi|y y' _ IH Ha]; [|by eapply sound_act].
  destruct Hi as (now & group & kind & taken & ring & levels & members & key & cache & ufrag & pwd & uuid & s & Hs & Hc & Ht).
  unfold start in Hs. destruct (Stream.with_capacity_limit _) as [st|]; [|done]. cbn in Hs. injection Hs as <-.
  destruct y as [a b]. cbn in *. subst a. constructor.
  - by repeat constructor.
  - intros Hb. right. exact (Ht Hb).
  - left. split_and!; [constructor| |done]. exists (NotJoined None). split; constructor.
Qed.

(** *** After the end *)

(** A stopped actor runs nothing more. *)
Lemma stopped_act y y' :
  act y y' -> Actor.stopped (client y) = true ->
  Actor.stopped (client y') = true /\ outputs (Actor.state (client y')) = outputs (Actor.state (client y)) /\
  join_state (Actor.state (client y')) = join_state (Actor.state (client y)).
Proof.
  destruct 1 as [env a a' b Hstep|_ _ [t a b Hi Hok|env header payload a b s' l Hrtp|plaintext buffer a b
    |now d ciphertext buffer a b|u a b|a n Hb|a n]|[a n] m _ _]; cbn; intros Hst; try done.
  - destruct Hstep; cbn; try done; congruence.
  - pose proof (rtp_outputs env header payload (Actor.state a)) as Ho.
    pose proof (rtp_quiet env header payload (Actor.state a)) as Hq. rewrite Hrtp in Ho, Hq.
    destruct (core_eq_fields _ _ Hq) as (Hj & _). cbn in Hj, Ho.
    destruct (send_all_spec l (on_state (fun _ => s') a)) as (-> & -> & _). by cbn.
Qed.

Lemma stopped_acts y y' :
  rtc act y y' -> Actor.stopped (client y) = true ->
  Actor.stopped (client y') = true /\ outputs (Actor.state (client y')) = outputs (Actor.state (client y)) /\
  join_state (Actor.state (client y')) = join_state (Actor.state (client y)).
Proof.
  induction 1 as [|y1 y2 y3 Ha _ IH]; [done|]. intros Hst. destruct (stopped_act _ _ Ha Hst) as (Hst2 & Ho & Hj).
  destruct (IH Hst2) as (? & -> & ->). done.
Qed.

(** ** The theorems *)

(** The notifications of the client: [l] before the end. *)
Definition told_history (y : Sys) (l : list Told) (c : ConnectionState) (j : JoinState) : Prop :=
  path conn_edge NotConnected (connections l) c /\
  path join_edge (NotJoined None) (joins l) j /\
  follows j (join_state (Actor.state (client y))) /\
  endings l = [].

(** C12. In every run the connection states and the join states that the application is told
    are paths of the two diagrams of group_call.rs and lead to the states of the client.
    The end of the call is told at most once: right after the connection state
    [NotConnected], as the last call of the observer, after which nothing more is ever
    told or sent. *)
Theorem told_states_follow_the_diagrams y :
  reachable y ->
  let s := Actor.state (client y) in
  exists l c j, told_history y l c j /\
    ((outputs s ≫= told) = l /\ connection_state s = c \/
     exists reason k, (outputs s ≫= told) = l ++ [ToldConnection NotConnected; ToldEnded reason] /\
       connection_state s = NotConnected /\ Actor.stopped (client y) = true /\
       outputs s = k ++ [ToObserver (HandleEnded reason)] /\
       forall y', rtc act y y' -> outputs (Actor.state (client y')) = outputs s).
Proof.
  intros Hr. apply reachable_sound in Hr as [_ _ Hh]. cbn zeta.
  destruct Hh as [(Hc & (j & Hj & Hf) & He)|(Hst & v & reason & k & (Hc & (j & Hj & Hf) & He) & Hv & Ho)].
  - eexists _, _, j. split; [by split_and!|]. by left.
  - exists (v_told v), (v_conn v), j. split.
    + split_and!; [done..| |done]. change (join_state _) with (v_join (seen (Actor.state (client y)))). by rewrite Hv.
    + right. exists reason, k. split_and!; [exact (f_equal v_told Hv)|exact (f_equal v_conn Hv)|done..|].
      intros y' Hy. by destruct (stopped_acts y y' Hy Hst) as (_ & -> & _).
Qed.

Definition right (y : Sys) : Prop := holds (others y) (seen (Actor.state (client y))).

(** The manager is reset while no group call goes on. *)
Definition no_group_call (y : Sys) (m : nat) : Prop :=
  in_call (join_state (Actor.state (client y))) = false /\ m = 0%nat.
Definition never (y : Sys) (m : nat) : Prop := False.

Lemma right_hidden a n f l :
  seen (f (Actor.state a)) = seen (Actor.state a) -> right (mkSys a n) -> right (mkSys (send_all l (on_state f a)) n).
Proof.
  intros Hf Hr. unfold right in *. cbn in *. destruct (send_all_spec l (on_state f a)) as (-> & _).
  cbn. by rewrite Hf.
Qed.

Lemma right_run env t a n :
  task_ok t -> right (mkSys a n) -> right (mkSys (Actor.run_task run env t a) n).
Proof.
  intros Hok Hr. unfold Actor.run_task. destruct (run env t (Actor.state a)) as [[s' l] stops] eqn:Hrun.
  unfold right in *. cbn in *. destruct (run_seen _ _ _ _ _ _ Hok Hrun) as [Hm|(reason & k & _ & Hv & _)].
  - exact (holds_steps _ _ _ Hm Hr).
  - by rewrite Hv.
Qed.

Lemma right_act y y' : act_with no_group_call y y' -> sound y -> right y -> right y'.
Proof.
  intros Ha [Ht _ _] Hr. destruct Ha as [env a a' n Hstep|_ _ [t a n Hi Hok|env header payload a n s' l Hrtp|plaintext buffer a n
    |now d ciphertext buffer a n|u a n|a n Hb|a n]|[a n] m Hm _].
  - cbn in Ht. destruct Hstep as [t l _ Hc _|t l _ Hc _ _|t l _ Hc _ _|t h1 h2 _ Hc _ _ _ _|t h1 h2 _ Hc _ Hh _ _]; try done.
    + apply right_run; [|done]. unfold Actor.waiting in Ht. rewrite Hc in Ht. by apply Forall_inv in Ht.
    + apply right_run; [|done]. unfold Actor.waiting in Ht. rewrite Hh, !Forall_app, Forall_cons in Ht. naive_solver.
  - by apply (right_hidden a n id [t]).
  - pose proof (rtp_quiet env header payload (Actor.state a)) as Hq. rewrite Hrtp in Hq.
    apply right_hidden; [exact (f_equal view Hq)|done].
  - by apply (right_hidden a n _ []).
  - by apply (right_hidden a n _ []).
  - by apply (right_hidden a n _ []).
  - destruct Hr as [Hv Ho]. cbn in *. rewrite Hb in Hv. unfold right, holds. cbn.
    destruct (in_call _); [done|]. destruct n; [|discriminate Hv]. auto.
  - destruct Hr as [Hv Ho]. cbn in *. unfold right, holds. cbn. destruct (in_call _); cbn in *; [lia|].
    assert (n = 0)%nat as -> by lia. auto.
  - destruct Hr as [Hv Ho]. unfold no_group_call, right, holds in *. cbn in *. destruct Hm as [-> ->]. auto.
Qed.

(** C7. In every run, resets of the manager included, the flag [busy] is taken only while the
    device joins, waits or is in the call, or somebody else has not released it yet.  If
    the flag is right when the client starts and the manager is never reset during a group
    call, it is taken exactly then, and never for both reasons. *)
Theorem busy_held_while_in_call :
  (forall y, reachable y -> let s := Actor.state (client y) in
     busy s = true -> in_call (join_state s) = true \/ others y <> 0%nat) /\
  (forall secret y0 y, initial secret y0 -> right y0 -> rtc (act_with no_group_call) y0 y ->
     let s := Actor.state (client y) in
     busy s = in_call (join_state s) || negb (others y =? 0)%nat /\
     (in_call (join_state s) = true -> others y = 0%nat)).
Proof.
  split; [intros y Hr; exact (sound_busy _ (reachable_sound _ Hr))|].
  intros secret y0 y Hi Hright Hacts. assert (reachable y0) as Hr by (by eapply reach_start).
  assert (right y) as [Hb Ho].
  { clear Hi. induction Hacts as [|y1 y2 y3 Ha _ IH]; [done|].
    apply IH; [by eapply right_act, Hright; [done|apply reachable_sound]|].
    eapply reach_act; [exact Hr|]. by eapply act_weaken; [|exact Ha]. }
  split; [exact Hb|]. intros Hj. cbn in Ho. rewrite Hj in Ho. cbn in Ho. lia.
Qed.

(** *** Joining while the client is about to stop *)

Lemma run_join env s ring :
  join_state s = NotJoined ring -> busy s = false ->
  exists s', run env TJoin s = (s', [], false) /\ join_state s' = Joining /\ busy s' = true.
Proof.
  intros Hj Hb. unfold run. cbn [perform].
  unfold join, take_busy, accept_ring_if_needed, set_join_state_and_notify_observer, sfu_client, observe, emit,
    when, mbind, ST_bind, gets, get, modify, mret, ST_ret, ret_ok. cbn. rewrite Hj. cbn. rewrite Hb. cbn.
  destruct ring, (self_uuid s); cbn; case_bool_decide; cbn; by eexists.
Qed.

Lemma run_end env reason s :
  exists s' l, run env (TEnd reason) s = (s', l, true) /\ join_state s' = join_state s /\ busy s' = busy s.
Proof.
  unfold run. set (s0 := s <| sent := [] |> <| stopped := false |>).
  destruct (finish_end_runs reason s0) as (_ & Hst & Hv & _). cbn [perform].
  destruct (finish_end reason s0) as [s1 r]. cbn in Hst, Hv. rewrite Hst. exists s1, (sent s1).
  split; [done|]. split; [exact (f_equal v_join Hv)|exact (f_equal v_busy Hv)].
Qed.

(** Nobody takes the flag from a client that has stopped. *)
Definition wedged (y : Sys) : Prop :=
  Actor.stopped (client y) = true /\ busy (Actor.state (client y)) = true /\ others y = 0%nat.

Lemma wedged_act y y' : act_with never y y' -> wedged y -> wedged y'.
Proof.
  intros Ha (Hst & Hb & Hn). destruct Ha as [env a a' n Hstep|_ _ [t a n Hi Hok|env header payload a n s' l Hrtp|plaintext buffer a n
    |now d ciphertext buffer a n|u a n|a n Hb'|a n]|? ? []]; cbn in *; try done.
  - destruct Hstep; try done; congruence.
  - pose proof (rtp_quiet env header payload (Actor.state a)) as Hq. rewrite Hrtp in Hq.
    destruct (send_all_spec l (on_state (fun _ => s') a)) as (Es & Est & _).
    split_and!; cbn; [by rewrite Est| |done]. rewrite Es. cbn. rewrite <- Hb. exact (f_equal co_busy Hq).
  - congruence.
Qed.

Lemma wedged_acts y y' : rtc (act_with never) y y' -> wedged y -> wedged y'.
Proof. induction 1; eauto using wedged_act. Qed.

(** C40. A client that has called [end] and joins again before its delayed closure runs stops in
    the call, without leaving it: it keeps [busy] until the manager is reset, and no other
    call can start. *)
Theorem busy_is_lost_with_a_stopped_client y t reason h1 h2 :
  let a := client y in
  Actor.running a = true -> Actor.stopped a = false -> Actor.channel a = [] ->
  (exists ring, join_state (Actor.state a) = NotJoined ring) -> busy (Actor.state a) = false -> others y = 0%nat ->
  Actor.delayed_tasks a = h1 ++ t :: h2 -> Actor.earliest (Actor.delayed_tasks a) t -> Actor.task t = TEnd reason ->
  forall env env' : Env, Actor.timeout (env_now env') t = 0 ->
  exists y', rtc (act_with never) y y' /\
    Actor.stopped (client y') = true /\ join_state (Actor.state (client y')) = Joining /\
    forall y'', rtc (act_with never) y' y'' -> busy (Actor.state (client y'')) = true.
Proof.
  intros a Hr Hst Hc Hj Hb Hn Hh He Ht env env' Htm. destruct y as [a0 n]. cbn in a, Hn. subst a n.
  destruct Hj as [ring Hj]. destruct (run_join env (Actor.state a0) ring Hj Hb) as (s1 & Hrun1 & Hj1 & Hb1).
  destruct (run_end env' reason s1) as (s2 & l2 & Hrun2 & Hj2 & Hb2).
  set (a1 := a0 <| Actor.state := s1 |>). set (a2 := Actor.mkActor s2 l2 (h1 ++ h2) true true).
  assert (act_with never (mkSys (Actor.send (Actor.immediate TJoin) a0) 0) (mkSys a1 0)) as Hact1.
  { replace a1 with (Actor.run_task run env TJoin (Actor.send (Actor.immediate TJoin) a0 <| Actor.channel := [] |>)).
    - apply act_actor with env. apply (Actor.step_run run env _ _ (Actor.immediate TJoin) []); [done| |done..]. cbn. by rewrite Hc.
    - unfold Actor.run_task. cbn. rewrite Hrun1. unfold a1. destruct a0. cbn in *. by subst. }
  assert (act_with never (mkSys a1 0) (mkSys a2 0)) as Hact2.
  { replace a2 with (Actor.run_task run env' (Actor.task (Actor.into_immediate t)) (a1 <| Actor.delayed_tasks := h1 ++ h2 |>)).
    - apply act_actor with env'. by apply Actor.step_timeout.
    - unfold Actor.run_task. cbn. rewrite Ht, Hrun2. unfold a2. destruct a0. cbn in *. by subst. }
  exists (mkSys a2 0). split_and!; [|done|by cbn; rewrite Hj2|].
  - apply rtc_l with (mkSys (Actor.send (Actor.immediate TJoin) a0) 0); [by apply act_outside, out_send|]. eapply rtc_l; [exact Hact1|]. by apply rtc_once.
  - intros y'' Hacts. assert (wedged (mkSys a2 0)) as Hw by (split_and!; [done|by cbn; rewrite Hb2|done]).
    by destruct (wedged_acts _ _ Hacts Hw) as (_ & ? & _).
Qed.

End Diagram.
End GroupDiagram.
