(* ===== verification/GroupKeys.v ===== *)
(** * Who has the key of a device in a group call

    A device encrypts what it sends with a secret that it gives to the others, ratchets
    when somebody joins and replaces when somebody leaves.  Here: a user who is not in
    the call any more loses the secret, up to the rotation that is under way. *)

From S2P Require Import Prelude States Signaling ConnectionTypes Connection ConnectionStart CallManager.
From S2P Require Import MrpWindow MrpMerge MrpStream FrameCrypto FrameFormat Endorsements Actor GroupTypes GroupCall.
From S2P Require Import GroupSystem GroupQuiet GroupStates GroupDiagram.
From stdpp Require Import relations.
Local Open Scope Z_scope.
Local Open Scope ringrtc_scope.

Module GroupKeys.
Import GroupTypes GroupCall GroupSystem GroupQuiet GroupStates GroupDiagram.

Section Keys.
Context `{FrameCipher} `{SrtpCrypto} `{GroupHash} `{ZkEndorsement} `{!ZkResponse}
  `{!Codec DeviceToDevice} `{!Codec DeviceToSfu} `{!Codec SfuToDevice}.

Notation quiet := (respects (same core)).

#[global] Instance Core_eta : Eta Core := fun r =>
  mkCore (co_busy r) (co_connection r) (co_join r) (co_devices r) (co_members r) (co_dhe r) (co_sfu r)
    (co_slots r) (co_rotation r) (co_key r) (co_given r) (co_told r) (co_sent r) (co_stopped r).

(** ** Chains of secrets *)

Definition ratchet (k : FrameCrypto.Secret) : FrameCrypto.Secret :=
  hkdf_expand k FrameCrypto.RATCHET_INFO_STRING.

(** Who has [a] can compute [b]. *)
Definition chain (a b : FrameCrypto.Secret) : Prop := exists n, Nat.iter n ratchet a = b.

(** The chains of two secrets never meet. *)
Definition apart (a b : FrameCrypto.Secret) : Prop :=
  forall k, chain a k -> chain b k -> False.

Lemma chain_refl a : chain a a.
Proof. by exists 0%nat. Qed.

Lemma chain_ratchet a b : chain a b -> chain a (ratchet b).
Proof. intros [n <-]. by exists (S n). Qed.

Lemma chain_trans a b c : chain a b -> chain b c -> chain a c.
Proof. intros [n <-] [m <-]. exists (m + n)%nat. apply Nat.iter_add. Qed.

Lemma apart_not_in a l : Forall (apart a) l -> a ∉ l.
Proof. rewrite Forall_forall. intros Hl Ha. apply (Hl a Ha a); apply chain_refl. Qed.

(** ** Giving the key away *)

Definition give (us : list UserId) (rc : Z) (k : FrameCrypto.Secret) (c : Core) : Core :=
  c <| co_given := co_given c ++ ((fun u => (u, (Some rc, Some k))) <$> us) |>.

Definition gives (us : list UserId) (rc : Z) (k : FrameCrypto.Secret) (m : ST State Fault unit) : Prop :=
  forall s, (m s).2 = Ok tt /\ core (m s).1 = give us rc k (core s).

Lemma gives_nothing rc k : gives [] rc k ret_ok.
Proof. intros s. split; [done|]. unfold give. by rewrite app_nil_r. Qed.

Lemma gives_bind us1 us2 rc k m1 m2 :
  gives us1 rc k m1 -> gives us2 rc k m2 -> gives (us1 ++ us2) rc k (m1 ;; m2).
Proof.
  intros Hg1 Hg2 s. unfold mbind, ST_bind. destruct (Hg1 s) as [Hr1 Hc1].
  destruct (m1 s) as [s1 r1]. cbn in *. subst r1. destruct (Hg2 s1) as [Hr2 Hc2]. split; [done|].
  rewrite Hc2, Hc1. unfold give. cbn. by rewrite fmap_app, app_assoc.
Qed.

Lemma gives_observe us rc k o :
  told (ToObserver o) = [] -> keys_given (ToObserver o) = (fun u => (u, (Some rc, Some k))) <$> us ->
  gives us rc k (observe o).
Proof.
  intros Ht Hk s. split; [done|]. unfold observe, emit, modify. cbn [fst].
  rewrite core_told, Ht, Hk, app_nil_r. done.
Qed.

Lemma gives_each us rc k m :
  media_key_of m = [(Some rc, Some k)] -> gives us rc k (send_to_each us m).
Proof.
  intros Hm. unfold send_to_each. induction us as [|u us IH]; cbn [for_each]; [apply gives_nothing|].
  apply (gives_bind [u] us); [|done]. apply gives_observe; [done|]. cbn. by rewrite Hm.
Qed.

Lemma find_all_ids (map : gmap UserId GroupSendEndorsement) ids l : Endorsements.find_all map ids = Some l -> fst <$> l = ids.
Proof.
  revert l. induction ids as [|u ids IH]; intros l; cbn [Endorsements.find_all]; [by intros [= <-]|].
  case_match; [|done]. case_match; [|done]. intros [= <-]. cbn. by rewrite IH.
Qed.

Lemma endorsed_users c e ids x m :
  Endorsements.get_endorsements_for_users c e ids = Some (x, m) -> forall u, u ∈ dom m -> u ∈ ids.
Proof.
  unfold Endorsements.get_endorsements_for_users. intros Hm u Hu.
  destruct (match e with Some _ => _ | None => _ end) as [[expiration map]|]; [|done]. cbn in Hm.
  destruct (negb _); [done|]. destruct (Endorsements.find_all map ids) as [l|] eqn:Hl; [|done].
  injection Hm as _ <-. rewrite <- (find_all_ids _ _ _ Hl), dom_list_to_map_L in *. set_solver.
Qed.

Lemma in_order_elements (order : list UserId -> list UserId) (x : gset UserId) (u : UserId) : u ∈ in_order order x -> u ∈ x.
Proof.
  unfold in_order. case_bool_decide as Hp; [|set_solver]. rewrite Hp. set_solver.
Qed.

Lemma take_self_subset (self : option UserId) (R R' : gset UserId) o :
  take_self self R = (R', o) -> R' ⊆ R /\ (forall u, o = Some u -> u ∈ R).
Proof.
  unfold take_self. destruct self as [u|]; [case_bool_decide|]; intros [= <- <-]; set_solver.
Qed.

Lemma send_key_gives env R d rc k e s :
  exists us, (forall u, u ∈ us -> u ∈ R) /\
    (send_media_send_key_to_users_over_signaling env R d rc k e s).2 = Ok tt /\
    core (send_media_send_key_to_users_over_signaling env R d rc k e s).1 = give us rc k (core s).
Proof.
  unfold send_media_send_key_to_users_over_signaling. case_bool_decide as HR.
  { exists []. split; [set_solver|]. apply gives_nothing. }
  rewrite (ST_bind_run get _ s s s) by done.
  set (message := mkCallMessage _ _ _). assert (media_key_of message = [(Some rc, Some k)]) as Hm by done.
  destruct (take_self (self_uuid s) R) as [R' self] eqn:Hself. apply take_self_subset in Hself as [HR' Hu].
  assert (exists us2, (forall u, u ∈ us2 -> u ∈ R) /\ gives us2 rc k (match self with
    | Some u => observe (SendSignalingMessage u message Droppable) | None => ret_ok end)) as (us2 & Hus2 & Hg2).
  { destruct self as [u|]; [|exists []; split; [set_solver|apply gives_nothing]]. exists [u]. split.
    - intros u' ->%list_elem_of_singleton. by apply Hu.
    - by apply gives_observe. }
  assert (forall us, (forall u, u ∈ us -> u ∈ R') -> forall m, gives us rc k m ->
    exists us0, (forall u, u ∈ us0 -> u ∈ R) /\ ((m ;; match self with
    | Some u => observe (SendSignalingMessage u message Droppable) | None => ret_ok end) s).2 = Ok tt /\
    core ((m ;; match self with
    | Some u => observe (SendSignalingMessage u message Droppable) | None => ret_ok end) s).1 = give us0 rc k (core s)) as Hdone.
  { intros us Hus m Hg. exists (us ++ us2). split; [set_solver|]. by apply gives_bind. }
  assert (forall u, u ∈ in_order (env_user_order env) R' -> u ∈ R') as Hord by apply in_order_elements.
  destruct (kind s).
  - destruct (_ >? 1); [apply (Hdone (elements R')); [set_solver|]|by eapply Hdone, gives_each].
    apply gives_observe; [done|]. cbn. by rewrite app_nil_r.
  - destruct (group_send_endorsement_cache s) as [cache|]; [|by eapply Hdone, gives_each].
    destruct (Endorsements.get_endorsements_for_users _ _ _) as [[x m]|] eqn:Hend; [|by eapply Hdone, gives_each].
    apply (Hdone (elements (dom m))).
    + intros u Hu'. apply Hord. eapply endorsed_users; [exact Hend|set_solver].
    + apply gives_observe; [done|]. cbn. by rewrite app_nil_r.
Qed.

(** ** The invariant *)

(** The rotations that wait. *)
Definition applies (l : list (Actor.Sent Task)) : list FrameCrypto.Secret :=
  l ≫= (fun t => match Actor.task t with TApplySendKey k _ => [k] | _ => [] end).

Definition current (c : Core) : FrameCrypto.Secret := FrameCrypto.current_secret (co_key c).

(** [u] has been given a secret of the chain of [o]. *)
Definition knows (c : Core) (o : FrameCrypto.Secret) (u : UserId) : Prop :=
  exists rc k, (u, (rc, Some k)) ∈ co_given c /\ chain o k.

(** [l]: the secrets drawn so far; [w]: the other closures that wait; [M]: the users in
    the call. *)
Record keys_ok (l : list FrameCrypto.Secret) (w : list (Actor.Sent Task)) (M : UserId -> Prop) (c : Core)
  : Prop := mkKeysOk {
  ok_given : forall u rc k, (u, (rc, k)) ∈ co_given c -> exists o k', k = Some k' /\ o ∈ l /\ chain o k';
  ok_rotation : exists o, o ∈ l /\ chain o (current c) /\
    match co_rotation c with
    | Applied => (forall u, knows c o u -> M u) /\ applies (w ++ co_sent c) = []
    | PendingRotation p again => p ∈ l /\ p <> o /\ applies (w ++ co_sent c) = [p] /\
        (again = false -> forall u, knows c p u -> M u)
    end;
}.

Definition devices_ok (M : UserId -> Prop) (c : Core) : Prop := forall d u, (d, u) ∈ co_devices c -> M u.

Definition active (c : Core) : Prop :=
  exists keys d, co_dhe c = Negotiated keys /\ local_demux (co_join c) = Some d.
Definition idle (c : Core) : Prop := co_given c = [] /\ co_devices c = [] /\ co_rotation c = Applied.

Definition member (c : Core) : UserId -> Prop := fun u => u ∈ co_members c.

Record secret_ok (l : list FrameCrypto.Secret) (w : list (Actor.Sent Task)) (c : Core) : Prop := mkSecretOk {
  secret_phase : active c \/ idle c;
  secret_keys : keys_ok l w (member c) c;
  secret_devices : devices_ok (member c) c;
}.

Lemma keys_mono l l' w w' M M' c :
  keys_ok l w M c -> l ⊆ l' -> applies w' = applies w -> (forall u, M u -> M' u) -> keys_ok l' w' M' c.
Proof.
  intros [Hg (o & Ho & Hc & Hr)] Hl Hw HM.
  assert (applies (w' ++ co_sent c) = applies (w ++ co_sent c)) as Ha.
  { unfold applies in *. by rewrite !bind_app, Hw. }
  constructor.
  - intros u rc k Hk. destruct (Hg u rc k Hk) as (o' & k' & -> & Ho' & Hc'). eauto 10.
  - exists o. split_and!; [by apply Hl|done|]. rewrite Ha. destruct (co_rotation c) as [|p again]; [naive_solver|].
    destruct Hr as (Hp & Hne & Hap & Hk). split_and!; [by apply Hl|done..|naive_solver].
Qed.

(** Fields that do not matter. *)
Lemma keys_same l w M c c' :
  keys_ok l w M c -> co_given c' = co_given c -> co_key c' = co_key c -> co_rotation c' = co_rotation c ->
  applies (co_sent c') = applies (co_sent c) -> keys_ok l w M c'.
Proof.
  intros [Hg (o & Ho & Hc & Hr)] Eg Ek Er Es.
  assert (applies (w ++ co_sent c') = applies (w ++ co_sent c)) as Ha.
  { unfold applies in *. by rewrite !bind_app, Es. }
  constructor; [by rewrite Eg|]. exists o. unfold current, knows in *. rewrite Eg, Ek, Er, Ha. done.
Qed.

Lemma keys_give l w (M : UserId -> Prop) c us rc k o :
  keys_ok l w M c -> o ∈ l -> chain o k -> (forall u, u ∈ us -> M u) -> keys_ok l w M (give us rc k c).
Proof.
  intros [Hg (oc & Ho & Hc & Hr)] Hol Hk Hus.
  assert (forall u rc' k', (u, (rc', k')) ∈ co_given (give us rc k c) ->
    (u, (rc', k')) ∈ co_given c \/ u ∈ us /\ k' = Some k) as Hin.
  { intros u rc' k'. unfold give. cbn. rewrite elem_of_app, list_elem_of_fmap. naive_solver. }
  assert (forall x u, knows (give us rc k c) x u -> knows c x u \/ M u) as Hkn.
  { intros x u (rc' & k' & [Hold|[Hu _]]%Hin & Hch); [left; by exists rc', k'|right; by apply Hus]. }
  constructor.
  - intros u rc' k' [Hold|[_ ->]]%Hin; [by eapply Hg|eauto 10].
  - exists oc. split_and!; [done..|]. cbn. destruct (co_rotation c); [naive_solver|].
    destruct Hr as (? & ? & ? & Hk'). split_and!; [done..|]. intros Hb u Hu. destruct (Hkn _ _ Hu); [|done]. by apply Hk'.
Qed.

Lemma keys_advance l w M c :
  keys_ok l w M c -> keys_ok l w M (c <| co_key := FrameCrypto.mut_advance_ratchet (co_key c) |>).
Proof.
  intros [Hg (o & Ho & Hc & Hr)]. constructor; [done|]. exists o. split_and!; [done| |done].
  exact (chain_ratchet _ _ Hc).
Qed.

(** A rotation makes everybody harmless who is not given the new secret. *)
Lemma keys_rotate l w M (M' : UserId -> Prop) c us p t :
  keys_ok l w M c -> co_rotation c = Applied -> Forall (apart p) l -> (forall u, u ∈ us -> M' u) ->
  applies [t] = [p] ->
  keys_ok (p :: l) w M' (give us 0 p c <| co_rotation := PendingRotation p false |> <| co_sent := co_sent c ++ [t] |>).
Proof.
  intros [Hg (o & Ho & Hc & Hr)] Hrot Hp Hus Ht. rewrite Hrot in Hr. destruct Hr as [_ Happ].
  assert (forall u rc k, (u, (rc, k)) ∈ co_given (give us 0 p c) ->
    (u, (rc, k)) ∈ co_given c \/ u ∈ us /\ k = Some p) as Hin.
  { intros u rc k. unfold give. cbn. rewrite elem_of_app, list_elem_of_fmap. naive_solver. }
  constructor.
  - intros u rc k [Hold|[_ ->]]%Hin.
    + destruct (Hg _ _ _ Hold) as (o' & k' & -> & Ho' & Hc'). exists o', k'. split_and!; [done|by right|done].
    + exists p, p. split_and!; [done|by left|apply chain_refl].
  - exists o. split_and!; [by right|done|]. cbn. split_and!; [by left| | |].
    + intros ->. by apply (apart_not_in _ _ Hp).
    + unfold applies in *. rewrite app_assoc, bind_app, Happ, Ht. done.
    + intros _ u (rc & k & [Hold|[Hu _]]%Hin & Hk); [|by apply Hus]. exfalso.
      destruct (Hg _ _ _ Hold) as (o' & k' & [= <-] & Ho' & Hc'). rewrite Forall_forall in Hp.
      by eapply (Hp o' Ho').
Qed.

Lemma keys_again l w M M' c p again :
  keys_ok l w M c -> co_rotation c = PendingRotation p again ->
  keys_ok l w M' (c <| co_rotation := PendingRotation p true |>).
Proof.
  intros [Hg (o & Ho & Hc & Hr)] Hrot. rewrite Hrot in Hr. constructor; [done|]. exists o.
  split_and!; [done..|]. cbn. naive_solver.
Qed.

(** The rotation takes effect. *)
Lemma keys_apply l w M c t p e :
  keys_ok l (t :: w) M c -> Actor.task t = TApplySendKey p e ->
  exists again, co_rotation c = PendingRotation p again /\
    keys_ok l w (fun u => again = false -> M u) (c <| co_key := FrameCrypto.sender_new 0 p |> <| co_rotation := Applied |>).
Proof.
  intros [Hg (o & Ho & Hc & Hr)] Ht.
  assert (applies ((t :: w) ++ co_sent c) = p :: applies (w ++ co_sent c)) as Ha.
  { unfold applies. cbn. by rewrite Ht. }
  rewrite Ha in Hr. destruct (co_rotation c) as [|q again]; [naive_solver|].
  destruct Hr as (Hq & Hne & [= -> Hnil] & Hk). exists again. split; [done|].
  constructor; [done|]. exists q. split_and!; [done|apply chain_refl|]. cbn. split; [|done]. naive_solver.
Qed.

(** ** The part of the core that matters here *)

Record KView : Type := mkKView {
  kv_dhe : DheState;
  kv_local : option DemuxId;
  kv_devices : list (DemuxId * UserId);
  kv_members : gset UserId;
  kv_given : list (UserId * (option Z * option (list Z)));
  kv_key : FrameCrypto.SenderState;
  kv_rotation : KeyRotationState;
  kv_applies : list FrameCrypto.Secret;
}.

Definition kview (c : Core) : KView :=
  mkKView (co_dhe c) (local_demux (co_join c)) (co_devices c) (co_members c) (co_given c) (co_key c)
    (co_rotation c) (applies (co_sent c)).

Lemma keys_kview l w M c c' : kview c' = kview c -> keys_ok l w M c -> keys_ok l w M c'.
Proof. unfold kview. intros [= ? ? ? ? ? ? ? ?] Hk. by eapply keys_same. Qed.

Lemma secret_kview l w c c' : kview c' = kview c -> secret_ok l w c -> secret_ok l w c'.
Proof.
  intros Hv [Hp Hk Hd]. pose proof Hv as Hv'. unfold kview in Hv'. injection Hv' as Ed El Ev Em Eg Ek Er Ea.
  constructor.
  - unfold active, idle in *. by rewrite Ed, El, Eg, Ev, Er.
  - unfold member. rewrite Em. by eapply keys_kview.
  - unfold devices_ok, member. by rewrite Ev, Em.
Qed.

Notation steady := (respects (same (fun s => kview (core s)))).

Lemma steady_quiet {A} (m : ST State Fault A) : quiet m -> steady m.
Proof. intros Hm s. unfold same. by rewrite (Hm s). Qed.

Lemma steady_emit o : keys_given o = [] -> steady (emit o).
Proof. intros Ho s. unfold same, kview, core. cbn. by rewrite bind_app, bind_singleton, Ho, app_nil_r. Qed.

Lemma steady_delayed env d t : (forall k e, t <> TApplySendKey k e) -> steady (actor_send_delayed env d t).
Proof.
  intros Ht s. unfold same, kview, core, applies. cbn. rewrite !bind_app, !bind_singleton. f_equal.
  destruct t; cbn; rewrite ?app_nil_r; try done. by edestruct Ht.
Qed.

Create HintDb steady.

Ltac steady_step :=
  lazymatch goal with
  | |- respects _ (mbind _ _) => apply respects_bind; [typeclasses eauto| |intros ?]
  | |- respects _ (match ?x with _ => _ end) => destruct x
  | |- respects _ (for_each _ _) => apply respects_for_each; [typeclasses eauto|intros ?]
  | |- respects _ (when _ _) => apply respects_when; [typeclasses eauto|]
  | |- respects _ (observe _) => unfold observe
  | |- respects _ (emit _) => apply steady_emit; reflexivity
  | |- respects _ (mret _) => apply respects_ret; typeclasses eauto
  | |- respects _ ret_ok => apply respects_ret_ok; typeclasses eauto
  | |- respects _ (gets _) => apply respects_gets; typeclasses eauto
  | |- respects _ (modify _) => apply respects_modify; intros ?; reflexivity
  | |- respects _ (actor_send_delayed _ _ _) => apply steady_delayed; discriminate
  | |- respects _ _ => solve [eauto with steady|apply steady_quiet; solve_quiet]
  end.
Ltac solve_steady := intros; repeat steady_step.

(** ** The effect of code that does not panic *)

Definition wpo {A} (m : ST State Fault A) (s : State) (Q : A -> Core -> Prop) : Prop :=
  wp m s (fun r c => match r with Ok a => Q a c | Err _ => True end).

Lemma wpo_bind {A B} (m : ST State Fault A) (k : A -> ST State Fault B) s Q :
  wpo m s (fun a c => forall s', core s' = c -> wpo (k a) s' Q) -> wpo (m ≫= k) s Q.
Proof.
  unfold wpo. intros Hm. apply wp_bind. unfold wp at 1. unfold wp in Hm at 1. by destruct (m s) as [s1 [a|e]].
Qed.

Lemma wpo_weaken {A} (m : ST State Fault A) s (P Q : A -> Core -> Prop) :
  wpo m s P -> (forall a c, P a c -> Q a c) -> wpo m s Q.
Proof. unfold wpo, wp. destruct (m s).2; auto. Qed.

Lemma wpo_steady {A} (m : ST State Fault A) s v (Q : A -> Core -> Prop) :
  steady m -> kview (core s) = v -> (forall a c, kview c = v -> Q a c) -> wpo m s Q.
Proof.
  intros Hm Hv HQ. unfold wpo, wp. specialize (Hm s). unfold same in Hm.
  destruct (m s) as [s' [a|e]]; [|done]. apply HQ. etrans; [exact Hm|exact Hv].
Qed.

Lemma wpo_steady_bind {A B} (m : ST State Fault A) (k : A -> ST State Fault B) s v Q :
  steady m -> kview (core s) = v -> (forall a s', kview (core s') = v -> wpo (k a) s' Q) -> wpo (m ≫= k) s Q.
Proof.
  intros Hm Hv Hk. apply wpo_bind. eapply wpo_steady; [exact Hm|exact Hv|]. intros a c Hc s' Hs'.
  apply Hk. congruence.
Qed.

Lemma wpo_gets {A} (f : State -> A) s (Q : A -> Core -> Prop) : Q (f s) (core s) -> wpo (gets f) s Q.
Proof. done. Qed.

Lemma wpo_ret {A} (a : A) s (Q : A -> Core -> Prop) : Q a (core s) -> wpo (mret a) s Q.
Proof. done. Qed.

Lemma wpo_modify (f : State -> State) s Q : Q tt (core (f s)) -> wpo (modify f) s Q.
Proof. done. Qed.

Lemma wpo_quiet_bind {A B} (m : ST State Fault A) (k : A -> ST State Fault B) s Q :
  quiet m -> (forall a s', core s' = core s -> wpo (k a) s' Q) -> wpo (m ≫= k) s Q.
Proof.
  intros Hm Hk. apply wpo_bind. unfold wpo at 1. apply wp_quiet; [done|]. intros [a|]; [|done]. auto.
Qed.

(** ** Rotations *)

Lemma send_key_wpo env R d rc k e s (Q : unit -> Core -> Prop) :
  (forall us, (forall u, u ∈ us -> u ∈ R) -> Q tt (give us rc k (core s))) ->
  wpo (send_media_send_key_to_users_over_signaling env R d rc k e) s Q.
Proof.
  intros HQ. destruct (send_key_gives env R d rc k e s) as (us & Hus & Hr & Hc).
  unfold wpo, wp. rewrite Hr, Hc. by apply HQ.
Qed.

Lemma remote_users_devices s u : u ∈ remote_users s -> exists d, (d, u) ∈ co_devices (core s).
Proof.
  unfold remote_users. rewrite elem_of_list_to_set, list_elem_of_fmap. intros (r & -> & Hr).
  exists (demux_id r). change (co_devices (core s)) with (owner <$> remote_devices s).
  apply list_elem_of_fmap. by exists r.
Qed.

(** What a rotation leaves alone. *)
Definition framed (c c' : Core) : Prop :=
  co_dhe c' = co_dhe c /\ local_demux (co_join c') = local_demux (co_join c) /\ co_devices c' = co_devices c /\
  co_members c' = co_members c.

Lemma framed_kview c c' : kview c' = kview c -> framed c c'.
Proof. unfold kview. by intros [= ? ? ? ? _ _ _ _]. Qed.

Lemma rotate_keys env e s l w M (M' : UserId -> Prop) :
  keys_ok l w M (core s) -> Forall (apart (env_random_secret env)) l -> devices_ok M' (core s) ->
  wpo (rotate_media_send_key_and_send_to_users_not_removed env e) s (fun _ c =>
    keys_ok (env_random_secret env :: l) w M' c /\ framed (core s) c).
Proof.
  intros Hk Hp Hd. unfold rotate_media_send_key_and_send_to_users_not_removed.
  apply wpo_bind, wpo_gets. intros s1 Hc1. destruct (media_send_key_rotation_state s) as [|q again] eqn:Hrot.
  - apply wpo_bind. set (p := env_random_secret env).
    match goal with |- wpo ?m s1 ?Q => assert (forall us, (forall u, u ∈ us -> u ∈ remote_users s) ->
      Q tt (give us 0 p (core s1))) as HQ end.
    { intros us Hus s2 Hc2. apply wpo_bind, wpo_modify. intros s3 Hc3. apply wpo_modify.
      assert (forall d, core (s3 <| sent := sent s3 ++ [Actor.delayed (env_now env) (TApplySendKey p e) d] |>) =
        core s3 <| co_sent := co_sent (core s3) ++ [Actor.delayed (env_now env) (TApplySendKey p e) d] |>) as ->.
      { intros d. unfold core. cbn. by rewrite bind_app, bind_singleton. }
      rewrite Hc3. change (core (s2 <| media_send_key_rotation_state := PendingRotation p false |>)) with
        (core s2 <| co_rotation := PendingRotation p false |>). rewrite Hc2, Hc1. cbn. split; [|done].
      eapply keys_rotate; [exact Hk|done|done| |done]. intros u Hu. destruct (remote_users_devices s u) as [d Hdu]; [auto|].
      by eapply Hd. }
    destruct (local_demux (join_state s)).
    + apply send_key_wpo. exact HQ.
    + intros s2 Hc2. apply (HQ []); [by intros u ?%not_elem_of_nil|].
      rewrite Hc2. unfold give. by rewrite app_nil_r.
  - apply wpo_modify. change (core (s1 <| media_send_key_rotation_state := PendingRotation q true |>)) with
      (core s1 <| co_rotation := PendingRotation q true |>). rewrite Hc1. split; [|done].
    eapply keys_mono; [by eapply keys_again|set_solver|done|done].
Qed.

(** ** New devices get the key *)

Lemma framed_trans c1 c2 c3 : framed c1 c2 -> framed c2 c3 -> framed c1 c3.
Proof. unfold framed. intuition congruence. Qed.

Lemma send_added_keys env us e s l w (M : UserId -> Prop) :
  keys_ok l w M (core s) -> (forall u, u ∈ us -> M u) ->
  wpo (advance_media_send_key_and_send_to_users_with_added_devices env us e ;;
       send_pending_media_send_key_to_users_with_added_devices env us e) s
    (fun _ c => keys_ok l w M c /\ framed (core s) c).
Proof.
  intros Hk Hus. apply wpo_bind. unfold advance_media_send_key_and_send_to_users_with_added_devices.
  apply wpo_bind. unfold wpo at 1, wp. cbn [fst snd crypto FrameCrypto.advance_send_ratchet].
  set (c1 := core s <| co_key := FrameCrypto.mut_advance_ratchet (co_key (core s)) |>).
  change (forall s1, core s1 = c1 -> wpo (j ← gets join_state;
    match local_demux j with
    | Some d => send_media_send_key_to_users_over_signaling env us d
        (FrameCrypto.ratchet_counter (co_key c1)) (FrameCrypto.current_secret (co_key c1)) e
    | None => ret_ok
    end) s1 (fun _ c => forall s2, core s2 = c ->
      wpo (send_pending_media_send_key_to_users_with_added_devices env us e) s2
        (fun _ c => keys_ok l w M c /\ framed (core s) c))).
  apply keys_advance in Hk. fold c1 in Hk. intros s1 Hc1. apply wpo_bind, wpo_gets. intros s2 Hc2.
  assert (forall c2, keys_ok l w M c2 -> framed (core s) c2 -> forall s3, core s3 = c2 ->
    wpo (send_pending_media_send_key_to_users_with_added_devices env us e) s3
        (fun _ c => keys_ok l w M c /\ framed (core s) c)) as Hpending.
  { intros c2 Hk2 Hf2 s3 Hc3. unfold send_pending_media_send_key_to_users_with_added_devices.
    apply wpo_bind, wpo_gets. intros s4 Hc4.
    destruct (local_demux (join_state s3)) as [d|]; [|by unfold wpo, wp; cbn; rewrite Hc4, Hc3].
    destruct (media_send_key_rotation_state s3) as [|p again] eqn:Hrot; [by unfold wpo, wp; cbn; rewrite Hc4, Hc3|].
    apply send_key_wpo. intros us' Hus'. rewrite Hc4, Hc3. split; [|done].
    assert (co_rotation c2 = PendingRotation p again) as Hrot2 by (by rewrite <- Hc3).
    destruct (ok_rotation _ _ _ _ Hk2) as (o & _ & _ & Hr). rewrite Hrot2 in Hr. destruct Hr as (Hp & _).
    apply (keys_give l w M c2 us' 0 p p); [done|done|apply chain_refl|]. intros u Hu. by apply Hus, Hus'. }
  destruct (local_demux (join_state s1)) as [d|].
  - apply send_key_wpo. intros us' Hus' s3 Hs3. apply (Hpending (give us' (FrameCrypto.ratchet_counter (co_key c1)) (FrameCrypto.current_secret (co_key c1)) c1));
      [|split_and!; done|by rewrite Hs3, Hc2, Hc1].
    destruct (ok_rotation _ _ _ _ Hk) as (o & Ho & Hch & _).
    apply (keys_give l w M c1 us' _ _ o); [done..|]. intros u Hu. by apply Hus, Hus'.
  - intros s3 Hs3. apply (Hpending c1); [exact Hk|split_and!; done|].
    etrans; [exact Hs3|]. etrans; [exact Hc2|exact Hc1].
Qed.

Lemma devices_changed_keys (env : Env) (d : DemuxId) (b : bool) (old new added : gset DemuxId) (oldu newu : gset UserId)
    (e : option Z) s l w :
  keys_ok l w (fun u => u ∈ oldu) (core s) -> Forall (apart (env_random_secret env)) l ->
  devices_ok (fun u => u ∈ newu) (core s) -> local_demux (join_state s) = Some d ->
  wpo (devices_changed env d b old new added oldu newu e) s (fun _ c =>
    keys_ok (env_random_secret env :: l) w (fun u => u ∈ newu) c /\ framed (core s) c).
Proof.
  intros Hk Hp Hd Hloc. unfold devices_changed.
  apply (wpo_steady_bind _ _ _ (kview (core s))); [solve_steady|done|intros _ s1 Hv1].
  apply wpo_bind, wpo_gets. intros s2 Hc2.
  assert (local_demux (join_state s1) = Some d) as Hloc1 by (rewrite <- Hloc; exact (f_equal kv_local Hv1)).
  apply wpo_bind. apply (wpo_weaken _ _ (fun _ c => kview c = kview (core s))).
  { assert (kview (core s2) = kview (core s)) as Hv2 by congruence.
    destruct b; [|exact Hv2]. destruct (join_state s1) as [r| |d'|d']; try exact Hv2. injection Hloc1 as ->.
    apply wpo_bind. unfold wpo at 1, wp. rewrite core_join. cbn [snd]. intros s3 Hc3.
    apply (wpo_steady _ _ (kview (core s))); [unfold on_client_joined; solve_steady|rewrite Hc3, <- Hv2|by intros _ c].
    unfold kview at 2. change (co_join (core s2)) with (join_state s2).
    assert (local_demux (join_state s2) = Some d) as -> by (rewrite <- Hloc; exact (f_equal kv_local Hv2)). done. }
  intros _ c Hc s3 Hs3. assert (kview (core s3) = kview (core s)) as Hv3 by congruence.
  apply wpo_bind, wpo_gets. intros s4 Hc4. rewrite <- Hc4 in Hv3. clear c Hc Hs3.
  set (added_users := list_to_set (user_id <$> filter (fun r => demux_id r ∈ added) (remote_devices s3)) : gset UserId).
  assert (forall u, u ∈ added_users -> u ∈ newu) as Hadded.
  { intros u. unfold added_users. rewrite elem_of_list_to_set, list_elem_of_fmap. intros (r & -> & [_ Hr]%list_elem_of_filter).
    apply (Hd (demux_id r)).
    assert (co_devices (core s) = co_devices (core s4)) as -> by (symmetry; exact (f_equal kv_devices Hv3)). rewrite Hc4.
    apply list_elem_of_fmap. by exists r. }
  set (M := fun u => u ∈ oldu \/ u ∈ newu).
  assert (keys_ok l w M (core s4)) as Hk4.
  { eapply keys_kview; [exact Hv3|]. eapply keys_mono; [exact Hk|done|done|by left]. }
  apply wpo_bind. apply (wpo_weaken _ _ (fun _ c => keys_ok l w M c /\ framed (core s) c)).
  { case_bool_decide; [by split; [|apply framed_kview]|].
    eapply wpo_weaken; [apply (send_added_keys _ _ _ _ l w M Hk4); right; auto|]. intros _ c [Hkc Hf]. split; [done|].
    eapply framed_trans; [by apply framed_kview|done]. }
  intros _ c [Hk5 Hf5] s5 Hs5. rewrite <- Hs5 in Hk5, Hf5. clear c Hs5.
  apply wpo_bind. apply (wpo_weaken _ _ (fun _ c =>
    keys_ok (env_random_secret env :: l) w (fun u => u ∈ newu) c /\ framed (core s) c)).
  { case_bool_decide as Hold.
    - split; [|done]. eapply keys_mono; [exact Hk5|set_solver|done|]. unfold M. set_solver.
    - eapply wpo_weaken; [apply (rotate_keys _ _ _ _ _ _ (fun u => u ∈ newu) Hk5 Hp)|].
      + intros x u. destruct Hf5 as (_ & _ & -> & _). apply Hd.
      + intros _ c [Hkc Hf]. split; [done|]. by eapply framed_trans. }
  intros _ c [Hk6 Hf6] s6 Hs6. rewrite <- Hs6 in Hk6, Hf6.
  eapply wpo_steady; [solve_steady|done|]. intros _ c' Hc'. split; [by eapply keys_kview|].
  eapply framed_trans; [exact Hf6|by apply framed_kview].
Qed.

(** ** Leaving *)

Definition departed (c : Core) : Prop := ToldJoin (NotJoined None) ∈ co_told c.

Lemma told_grows v v' : rtc vstep v v' -> forall t, t ∈ v_told v -> t ∈ v_told v'.
Proof. induction 1 as [|v1 v2 v3 Hs _ IH]; [done|]. intros t Ht. apply IH. destruct Hs; cbn in *; set_solver. Qed.

Lemma departed_moves {A} (m : ST State Fault A) s :
  respects moves m -> departed (core s) -> wpo m s (fun _ c => departed c).
Proof.
  intros Hm Hd. unfold wpo, wp. specialize (Hm s). destruct (m s).2; [|done]. by apply (told_grows _ _ Hm).
Qed.

Lemma end_departs env reason s :
  in_call (join_state s) = true -> wpo (end_ env reason) s (fun _ c => departed c).
Proof.
  intros Hj. unfold wpo. eapply wp_weaken; [apply end_core|]. intros r c [[-> ->]|(e & -> & _)]; [|done].
  unfold ended, departed. change (co_join (core s)) with (join_state s). rewrite Hj.
  case_bool_decide; cbn; set_solver.
Qed.

Lemma local_in_call j d : local_demux j = Some d -> in_call j = true.
Proof. by destruct j. Qed.

(** ** A new list of devices *)

Lemma push_keys env d keys new_ids added s :
  in_call (join_state s) = true ->
  wpo (push_demux_ids env d keys new_ids added) s (fun b c =>
    if b then kview c = kview (core s) else departed c).
Proof.
  intros Hj. set (Q := fun (b : bool) c => if b then kview c = kview (core s) else departed c).
  assert (forall s', join_state s' = join_state s ->
    wpo (end_ env CallEndReason.FailedToUpdatePeerConnection ;; mret false) s' Q) as Hend.
  { intros s' Hs'. apply wpo_bind. eapply wpo_weaken; [apply end_departs; by rewrite Hs'|].
    intros a c Hc s2 Hs2. unfold wpo, wp. cbn. by rewrite Hs2. }
  unfold push_demux_ids. apply wpo_bind, wpo_gets. intros s1 Hc1.
  destruct (sfu_info s) as [sfu|]; [|by unfold wpo, wp, Q; cbn; rewrite Hc1].
  assert (forall s2, core s2 = core s <| co_slots := remote_transceiver_demux_ids s2 |> ->
    join_state s2 = join_state s /\ kview (core s2) = kview (core s)) as Hkeep.
  { intros s2 Hs2. split; [exact (f_equal co_join Hs2)|by rewrite Hs2]. }
  apply wpo_bind, wpo_modify. intros s2 Hc2.
  assert (core s2 = core s <| co_slots := remote_transceiver_demux_ids s2 |>) as Hs2.
  { pose proof (f_equal co_slots Hc2 : remote_transceiver_demux_ids s2 = _) as ->.
    rewrite Hc2. change (core (s1 <| remote_transceiver_demux_ids := ?x |>)) with (core s1 <| co_slots := x |>).
    by rewrite Hc1. }
  apply wpo_bind. unfold wpo at 1. apply wp_quiet; [solve_quiet|]. intros [failed|]; [|done]. intros s3 Hs3.
  assert (core s3 = core s <| co_slots := remote_transceiver_demux_ids s3 |>) as Hc3.
  { pose proof (f_equal co_slots Hs3 : remote_transceiver_demux_ids s3 = _) as ->. by rewrite Hs3. }
  destruct failed; [apply Hend, Hkeep, Hc3|].
  case_bool_decide; [unfold wpo, wp, Q; cbn; by apply Hkeep|]. apply wpo_bind, wpo_modify. intros s4 Hs4.
  assert (core s4 = core s <| co_slots := remote_transceiver_demux_ids s4 |>) as Hc4.
  { pose proof (f_equal co_slots Hs4 : remote_transceiver_demux_ids s4 = _) as ->. rewrite Hs4.
    change (core (s3 <| remote_transceiver_demux_ids := ?x |>)) with (core s3 <| co_slots := x |>). by rewrite Hc3. }
  apply wpo_bind. unfold wpo at 1. apply wp_quiet; [solve_quiet|]. intros [failed|]; [|done]. intros s5 Hs5.
  destruct failed.
  - apply Hend. destruct (core_eq_fields _ _ Hs5) as (-> & _). by apply Hkeep.
  - unfold wpo, wp, Q. cbn. rewrite Hs5. by apply Hkeep.
Qed.

Lemma update_devices_users local now old l ds b :
  update_devices local now old l = (ds, b) -> forall r, r ∈ ds -> Some (user_id r) ∈ pd_user_id <$> l.
Proof.
  revert old ds b. induction l as [|device l IH]; intros old ds b; cbn [update_devices].
  { intros [= <- _] r Hr. by apply not_elem_of_nil in Hr. }
  rewrite fmap_cons. destruct (_ =? local).
  { destruct (update_devices _ _ _ l) as [ds' b'] eqn:Hl. intros [= <- _] r Hr. right. by eapply IH. }
  destruct (pd_user_id device) as [u|]; [|intros Hl r Hr; right; by eapply IH].
  destruct (update_devices _ _ (delete _ _) l) as [ds' b'] eqn:Hl. intros [= <- _] r [->|Hr]%elem_of_cons.
  - apply elem_of_cons. left. f_equal. destruct (old !! _) as [x|]; [|done]. by case_bool_decide.
  - right. by eapply IH.
Qed.

Lemma update_call_keys (env : Env) (p : PeekInfo) (d : DemuxId) (keys : SrtpKeys) (oldu : gset UserId) (e : option Z) s l w :
  keys_ok l w (fun u => u ∈ oldu) (core s) -> Forall (apart (env_random_secret env)) l ->
  local_demux (join_state s) = Some d ->
  wpo (update_call env p d keys oldu (unique_users p) e) s (fun b c =>
    if b then keys_ok (env_random_secret env :: l) w (fun u => u ∈ unique_users p) c /\
      devices_ok (fun u => u ∈ unique_users p) c /\ co_dhe c = dhe_state s /\ local_demux (co_join c) = Some d
    else departed c).
Proof.
  intros Hk Hp Hd. unfold update_call. apply wpo_bind, wpo_gets. intros s1 Hc1.
  destruct (update_devices _ _ _ _) as [ds participant] eqn:Hds. apply wpo_bind, wpo_modify. intros s2 Hc2.
  assert (core s2 = core s <| co_devices := owner <$> ds |>) as Hs2 by (rewrite Hc2, <- Hc1; done).
  assert (join_state s2 = join_state s) as Hj2 by exact (f_equal co_join Hs2).
  apply wpo_bind. apply (wpo_weaken _ _ (fun b c => if b : bool then kview c = kview (core s2) else departed c)).
  { case_bool_decide; [done|]. apply push_keys. rewrite Hj2. by eapply local_in_call. }
  intros [] c Hc s3 Hs3; [|unfold wpo, wp; cbn; by rewrite Hs3]. rewrite <- Hs3 in Hc. clear c Hs3.
  assert (devices_ok (fun u => u ∈ unique_users p) (core s3)) as Hd3.
  { intros x u. assert (co_devices (core s3) = owner <$> ds) as ->.
    { etrans; [exact (f_equal kv_devices Hc)|]. change (kv_devices _) with (co_devices (core s2)). by rewrite Hs2. }
    rewrite list_elem_of_fmap. intros (r & [= -> ->] & Hr). unfold unique_users.
    apply elem_of_list_to_set, list_elem_of_omap. eapply update_devices_users in Hds; [|exact Hr].
    apply list_elem_of_fmap in Hds as (x & Hx & Hin). eauto. }
  assert (local_demux (join_state s3) = Some d) as Hl3.
  { rewrite <- Hd, <- Hj2. exact (f_equal kv_local Hc). }
  apply wpo_bind. eapply wpo_weaken; [apply (devices_changed_keys _ _ _ _ _ _ oldu _ _ _ l w)|].
  - eapply keys_kview; [exact Hc|]. rewrite Hs2. by eapply keys_same.
  - done.
  - exact Hd3.
  - exact Hl3.
  - intros _ c [Hkc (Ed & El & Ev & _)] s4 Hs4. apply wpo_ret. rewrite Hs4. split_and!; [done| | |].
    + intros x u. rewrite Ev. apply Hd3.
    + rewrite Ed. etrans; [exact (f_equal kv_dhe Hc)|]. exact (f_equal co_dhe Hs2).
    + by rewrite El.
Qed.

(** The call as the others see it, or it was left. *)
Definition good (l : list FrameCrypto.Secret) (w : list (Actor.Sent Task)) (c : Core) : Prop :=
  departed c \/ secret_ok l w c.

Lemma secret_mono l l' w w' c : secret_ok l w c -> l ⊆ l' -> applies w' = applies w -> secret_ok l' w' c.
Proof. intros [Hp Hk Hd] Hl Hw. constructor; [done| |done]. by eapply keys_mono. Qed.

Lemma idle_any l w M M' c : idle c -> keys_ok l w M c -> keys_ok l w M' c.
Proof.
  intros (Hg & _ & Hr) [Hgiven (o & Ho & Hc & Hrot)]. constructor; [done|]. exists o. split_and!; [done..|].
  rewrite Hr in *. split; [|naive_solver]. intros u (rc & k & Hk & _). rewrite Hg in Hk. set_solver.
Qed.

Lemma peek_keys (env : Env) r (e : option Z) s l w :
  secret_ok l w (core s) -> Forall (apart (env_random_secret env)) l ->
  wpo (set_peek_result_inner env r e) s (fun _ c => good (env_random_secret env :: l) w c).
Proof.
  intros Hs Hp. destruct r as [p|status].
  2: { eapply wpo_steady; [unfold set_peek_result_inner; solve_steady|done|]. intros _ c Hc. right.
       eapply secret_mono; [by eapply secret_kview|set_solver|done]. }
  unfold set_peek_result_inner. apply wpo_bind, wpo_gets. intros s1 Hc1.
  apply wpo_bind, wpo_modify. intros s2 Hc2. apply wpo_bind, wpo_modify. intros s3 Hc3.
  set (v3 := kview (core s <| co_members := ∅ |>)).
  assert (kview (core s3) = v3) as Hv3.
  { rewrite Hc3. change (core (s2 <| joined_members := ∅ |>)) with (core s2 <| co_members := ∅ |>).
    rewrite Hc2. change (core (s1 <| remote_devices_request_state := UpdatedAt (env_now env) |>)) with (core s1). by rewrite Hc1. }
  apply (wpo_steady_bind _ _ _ v3); [solve_steady|done|intros _ s4 Hv4].
  destruct Hs as [Hphase Hk Hd].
  assert (keys_ok l w (fun u => u ∈ joined_members s) (core s4)) as Hk4.
  { eapply keys_kview; [exact Hv4|]. by eapply keys_same. }
  set (Q := fun (b : bool) c => if b then keys_ok (env_random_secret env :: l) w (fun u => u ∈ unique_users p) c /\
    devices_ok (fun u => u ∈ unique_users p) c /\ (active c \/ idle c) else departed c).
  assert (forall c b, Q b c -> forall s', core s' = c -> wpo (when b (modify (fun s => s <| last_peek_info := Some p |>
      <| joined_members := unique_users p |> <| pending_users_signature := new_pending_signature p |>) ;;
      when match remote_devices_request_state s with RequestedAt true _ => true | _ => false end
        (request_remote_devices_as_soon_as_possible env))) s'
      (fun _ c => good (env_random_secret env :: l) w c)) as Hfinish.
  { intros c b Hc s' Hs'. destruct b; [|by left; cbn; rewrite Hs'].
    cbn [when]. apply wpo_bind, wpo_modify. intros s5 Hc5.
    eapply wpo_steady; [solve_steady|done|]. intros _ c' Hc'. right. eapply secret_kview; [exact Hc'|].
    rewrite Hc5. change (secret_ok (env_random_secret env :: l) w (core s' <| co_members := unique_users p |>)).
    rewrite Hs'. destruct Hc as (Hkc & Hdc & Hpc). constructor; [done| |done]. by eapply keys_same. }
  apply wpo_bind. apply (wpo_weaken _ _ Q); [|intros b c Hc; exact (Hfinish c b Hc)].
  assert (idle (core s) -> wpo (mret true) s4 Q) as Hidle.
  { intros Hi. assert (idle (core s4)) as Hi4.
    { destruct Hi as (Ei1 & Ei2 & Ei3). split_and!.
      - rewrite <- Ei1. exact (f_equal kv_given Hv4).
      - rewrite <- Ei2. exact (f_equal kv_devices Hv4).
      - rewrite <- Ei3. exact (f_equal kv_rotation Hv4). }
    apply wpo_ret. split_and!; [|intros x u; destruct Hi4 as (_ & -> & _); set_solver|by right].
    apply (keys_mono l _ w w (fun u => u ∈ unique_users p)); [by eapply idle_any|set_solver|done|done]. }
  destruct (local_demux (join_state s)) as [d|] eqn:Hl.
  2: { apply Hidle. destruct Hphase as [(keys & d & _ & Hd')|]; [|done]. cbn in Hd'. congruence. }
  destruct (dhe_state s) eqn:Hdhe;
    try (apply Hidle; destruct Hphase as [(keys & d' & Hd' & _)|]; [cbn in Hd'; congruence|done]).
  assert (local_demux (join_state s4) = Some d) as Hl4 by (rewrite <- Hl; exact (f_equal kv_local Hv4)).
  eapply wpo_weaken; [by apply (update_call_keys _ _ _ _ _ _ _ l w Hk4)|]. intros [] c Hc; [|done].
  destruct Hc as (Hkc & Hdc & Ed & El). split_and!; [done..|]. left. eexists _, d. split; [|done].
  rewrite Ed, <- Hdhe. exact (f_equal kv_dhe Hv4).
Qed.

(** ** The closures *)

Lemma good_mono l l' w w' c : good l w c -> l ⊆ l' -> applies w' = applies w -> good l' w' c.
Proof. intros [Hd|Hs] Hl Hw; [by left|right]. by eapply secret_mono. Qed.

Lemma good_steady {A} (m : ST State Fault A) s l w :
  steady m -> respects moves m -> good l w (core s) -> wpo m s (fun _ c => good l w c).
Proof.
  intros Hm Hmv [Hd|Hs].
  - eapply wpo_weaken; [by apply departed_moves|]. intros a c Hc. by left.
  - eapply wpo_steady; [done|done|]. intros a c Hc. right. by eapply secret_kview.
Qed.

Lemma good_quiet {A} (m : ST State Fault A) s l w :
  quiet m -> good l w (core s) -> wpo m s (fun _ c => good l w c).
Proof. intros Hm. apply good_steady; [by apply steady_quiet|by apply moves_quiet]. Qed.

Lemma wpo_seq {A B} (m : ST State Fault A) (k : A -> ST State Fault B) s l w Q :
  wpo m s (fun _ c => good l w c) -> (forall a s', good l w (core s') -> wpo (k a) s' Q) -> wpo (m ≫= k) s Q.
Proof.
  intros Hm Hk. apply wpo_bind. eapply wpo_weaken; [exact Hm|]. intros a c Hc s' Hs'. apply Hk. by rewrite Hs'.
Qed.

Lemma end_good env reason s l w :
  good l w (core s) -> wpo (end_ env reason) s (fun _ c => good l w c).
Proof.
  intros Hg. destruct (in_call (join_state s)) eqn:Hj.
  { eapply wpo_weaken; [by apply end_departs|]. intros a c Hc. by left. }
  unfold wpo. eapply wp_weaken; [apply end_core|]. intros r c [[-> ->]|(e & -> & _)]; [|done].
  unfold ended. change (co_join (core s)) with (join_state s). rewrite Hj.
  case_bool_decide; [done|]. destruct Hg as [Hd|Hs]; [by left|right]. eapply secret_kview; [|exact Hs].
  unfold kview, applies. cbn. by rewrite bind_app, app_nil_r.
Qed.

(** Nothing has been given away before the device is in the call. *)
Lemma outside_idle l w c : secret_ok l w c -> local_demux (co_join c) = None -> idle c.
Proof. intros [Hp _ _] Hl. destruct Hp as [(keys & d & _ & Hd)|]; [congruence|done]. Qed.

Lemma idle_dhe l w c dhe j :
  idle c -> secret_ok l w c -> secret_ok l w (c <| co_dhe := dhe |> <| co_join := j |>).
Proof. intros Hi [_ Hk Hd]. constructor; [by right| |done]. by eapply keys_same. Qed.

Lemma join_good env s l w : good l w (core s) -> wpo (join env) s (fun _ c => good l w c).
Proof.
  intros [Hd|Hs]; [eapply wpo_weaken; [by apply departed_moves; [apply join_moves|]|]; intros a c Hc; by left|].
  unfold join. apply wpo_bind, wpo_gets. intros s1 Hc1.
  destruct (join_state s) as [ring| | |] eqn:Hj; try (by apply wpo_ret; rewrite Hc1; right).
  unfold take_busy. apply wpo_bind, wpo_bind, wpo_gets. intros s2 Hc2. destruct (busy s1).
  { apply wpo_ret. intros s3 Hs3. apply end_good. right. by rewrite Hs3, Hc2, Hc1. }
  apply wpo_bind, wpo_modify. intros s3 Hc3. apply wpo_ret. intros s4 Hs4.
  assert (idle (core s)) as Hi by (eapply outside_idle; [done|]; cbn; by rewrite Hj).
  apply wpo_bind. unfold wpo at 1, wp. rewrite core_join. cbn [snd set_join_state_and_notify_observer]. intros s5 Hc5.
  assert (kview (core s5) = kview (core s)) as Hv5.
  { rewrite Hc5. change (mkCore (busy s4) _ _ _ _ _ _ _ _ _ _ _ _ _) with
      (core s4 <| co_join := Joining |> <| co_told := co_told (core s4) ++ [ToldJoin Joining] |>).
    rewrite Hs4, Hc3. change (core (s2 <| busy := true |>)) with (core s2 <| co_busy := true |>). rewrite Hc2, Hc1.
    unfold kview. cbn. by rewrite Hj. }
  apply (wpo_steady_bind _ _ _ (kview (core s))); [unfold accept_ring_if_needed; solve_steady|done|intros _ s6 Hv6].
  apply (wpo_steady_bind _ _ _ (kview (core s))); [solve_steady|done|intros k s7 Hv7].
  apply (wpo_steady_bind _ _ _ (kview (core s))); [solve_steady|done|intros _ s8 Hv8].
  apply wpo_bind, wpo_modify. intros s9 Hc9. eapply wpo_steady; [solve_steady|done|]. intros _ c Hc. right.
  eapply secret_kview; [exact Hc|]. rewrite Hc9.
  change (core (s8 <| dhe_state := ?x |>)) with (core s8 <| co_dhe := x |> <| co_join := co_join (core s8) |>).
  apply idle_dhe; [|by eapply secret_kview]. destruct Hi as (Ei1 & Ei2 & Ei3). split_and!.
  - rewrite <- Ei1. exact (f_equal kv_given Hv8).
  - rewrite <- Ei2. exact (f_equal kv_devices Hv8).
  - rewrite <- Ei3. exact (f_equal kv_rotation Hv8).
Qed.

Lemma resend_good env s l w : good l w (core s) -> wpo (resend_media_keys env) s (fun _ c => good l w c).
Proof.
  intros [Hd|Hs]; [eapply wpo_weaken; [by apply departed_moves; [apply moves_calm, resend_calm|]|]; intros a c Hc; by left|].
  unfold resend_media_keys. apply wpo_bind, wpo_gets. intros s1 Hc1.
  destruct (local_demux (join_state s)) as [d|]; [|by apply wpo_ret; rewrite Hc1; right].
  unfold FrameCrypto.send_state. apply send_key_wpo. intros us Hus. right. rewrite Hc1.
  destruct Hs as [Hp Hk Hd]. destruct (ok_rotation _ _ _ _ Hk) as (o & Ho & Hch & _).
  constructor; [|eapply (keys_give _ _ _ _ _ _ _ o); [done..|]|done].
  - destruct Hp as [Hp|Hi]; [by left|]. right. destruct Hi as (Ei1 & Ei2 & Ei3). split_and!; [|done..].
    unfold give. cbn. change (outputs s ≫= keys_given) with (co_given (core s)). rewrite Ei1.
    destruct us as [|u us]; [done|]. exfalso. destruct (remote_users_devices s u) as [x Hx]; [apply Hus; set_solver|].
    rewrite Ei2 in Hx. set_solver.
  - intros u Hu. destruct (remote_users_devices s u) as [x Hx]; [by apply Hus|]. by eapply Hd.
Qed.

Lemma apply_good env t p e s l w :
  Actor.task t = TApplySendKey p e -> good l (t :: w) (core s) -> Forall (apart (env_random_secret env)) l ->
  wpo (apply_send_key env p e) s (fun _ c => good (env_random_secret env :: l) w c).
Proof.
  intros Ht [Hd|Hs] Hp.
  { eapply wpo_weaken; [by apply departed_moves; [apply moves_calm, apply_key_calm|]|]; intros a c Hc; by left. }
  destruct Hs as [Hphase Hk Hd]. destruct (keys_apply _ _ _ _ _ _ _ Hk Ht) as (again & Hrot & Hk').
  assert (active (core s)) as Hact by (destruct Hphase as [|(_ & _ & ?)]; [done|congruence]).
  unfold apply_send_key. apply wpo_bind. unfold wpo at 1, wp. cbn [fst snd crypto FrameCrypto.reset_send_ratchet].
  change (forall s1, core s1 = core s <| co_key := FrameCrypto.sender_new 0 p |> ->
    wpo (st ← gets media_send_key_rotation_state;
      modify (fun s => s <| media_send_key_rotation_state := Applied |>) ;;
      match st with
      | PendingRotation _ true => rotate_media_send_key_and_send_to_users_not_removed env e
      | _ => ret_ok
      end) s1 (fun _ c => good (env_random_secret env :: l) w c)).
  intros s1 Hc1. apply wpo_bind, wpo_gets. intros s2 Hc2. apply wpo_bind, wpo_modify. intros s3 Hc3.
  assert (core s3 = core s <| co_key := FrameCrypto.sender_new 0 p |> <| co_rotation := Applied |>) as Hs3.
  { rewrite Hc3. change (core (s2 <| media_send_key_rotation_state := Applied |>)) with
      (core s2 <| co_rotation := Applied |>). by rewrite Hc2, Hc1. }
  assert (media_send_key_rotation_state s1 = PendingRotation p again) as ->.
  { change (co_rotation (core s1) = PendingRotation p again). by rewrite Hc1. }
  rewrite <- Hs3 in Hk'. destruct again.
  - eapply wpo_weaken; [apply (rotate_keys _ _ _ _ _ _ (member (core s)) Hk' Hp); rewrite Hs3; exact Hd|].
    intros a c [Hkc (Ed & El & Ev & Em)]. right. rewrite Hs3 in Ed, El, Ev, Em. cbn in Ed, El, Ev, Em.
    constructor.
    + left. destruct Hact as (keys & d & Hd' & Hl'). exists keys, d. cbn in Hd', Hl'. split; congruence.
    + unfold member in *. by rewrite Em.
    + unfold devices_ok, member. rewrite Ev, Em. exact Hd.
  - apply wpo_ret. right. rewrite Hs3 in *. constructor; [by left| |done].
    eapply keys_mono; [exact Hk'|set_solver|done|]. intros u Hu. by apply Hu.
Qed.

Lemma moves_good {A} (m : ST State Fault A) s l w Q :
  respects moves m -> (secret_ok l w (core s) -> wpo m s (fun a c => departed c \/ Q a c)) ->
  good l w (core s) -> wpo m s (fun a c => departed c \/ Q a c).
Proof.
  intros Hm HQ [Hd|Hs]; [|by apply HQ]. eapply wpo_weaken; [by apply departed_moves|]. intros a c Hc. by left.
Qed.

Lemma negotiate_waiting dhe k x dhe' :
  negotiate dhe k x = Some dhe' -> dhe' = dhe \/ exists secret, dhe = WaitingForServerPublicKey secret.
Proof. destruct dhe; cbn; try (intros [= <-]; by left). eauto. Qed.

Lemma connect_to_sfu_good env joined s l w :
  good l w (core s) -> wpo (connect_to_sfu env joined) s (fun _ c => good l w c).
Proof.
  apply moves_good; [apply connect_to_sfu_moves|]. intros Hs.
  unfold connect_to_sfu. apply wpo_bind, wpo_gets. intros s1 Hc1.
  destruct (connection_state s); try (apply wpo_ret; rewrite Hc1; by right).
  destruct (negotiate _ _ _) as [dhe|] eqn:Hneg; [|done].
  apply wpo_bind, wpo_modify. intros s2 Hc2.
  assert (good l w (core s2)) as Hg2.
  { right. rewrite Hc2. change (core (s1 <| dhe_state := dhe |>)) with
      (core s1 <| co_dhe := dhe |> <| co_join := co_join (core s1) |>). rewrite Hc1.
    apply negotiate_waiting in Hneg as [->|[secret Hwait]]; [by eapply secret_kview|].
    apply idle_dhe; [|done]. destruct Hs as [Hp _ _]. destruct Hp as [(keys & d & Hd & _)|]; [|done].
    cbn in Hd. congruence. }
  assert (forall reason s', good l w (core s') -> wpo (end_ env reason ;; mret false) s' (fun _ c => good l w c)) as Hend.
  { intros reason s' Hg. eapply wpo_seq; [by apply end_good|]. intros a s3 Hg3. by apply wpo_ret. }
  destruct dhe; try (by apply Hend).
  eapply wpo_seq; [by apply good_quiet; [solve_quiet|]|]. intros failed s3 Hg3. destruct failed; [by apply Hend|].
  eapply wpo_seq; [by apply good_quiet; [solve_quiet|]|]. intros _ s4 Hg4.
  apply wpo_bind, wpo_modify. intros s5 Hc5. apply wpo_ret. rewrite Hc5.
  destruct Hg4 as [Hd4|Hs4]; [by left|right]. by eapply secret_kview; [|exact Hs4].
Qed.

Lemma enter_call_good env joined s l w :
  task_ok (TJoinAttemptCompleted (Ok joined)) -> good l w (core s) -> Forall (apart (env_random_secret env)) l ->
  wpo (enter_call env joined) s (fun _ c => good (env_random_secret env :: l) w c).
Proof.
  intros Hok Hg Hp. set (l' := env_random_secret env :: l).
  assert (forall c, good l w c -> good l' w c) as Hmono.
  { intros c Hc. eapply good_mono; [done|set_solver|done]. }
  revert Hg. apply moves_good; [by apply enter_call_moves|]. intros Hs. unfold enter_call.
  apply wpo_bind, wpo_gets. intros s1 Hc1.
  destruct (join_state s) as [r| | |] eqn:Hj; try (apply wpo_ret; rewrite Hc1; apply Hmono; by right).
  apply wpo_quiet_bind; [solve_quiet|]. intros _ s2 Hc2. apply wpo_bind, wpo_modify. intros s3 Hc3.
  assert (secret_ok l w (core s3)) as Hs3.
  { rewrite Hc3. change (core (s2 <| join_state := j_join_state joined |>)) with
      (core s2 <| co_dhe := co_dhe (core s2) |> <| co_join := j_join_state joined |>). rewrite Hc2, Hc1.
    apply idle_dhe; [|done]. eapply outside_idle; [done|]. cbn. by rewrite Hj. }
  apply wpo_quiet_bind; [solve_quiet|]. intros p s4 Hc4.
  apply (wpo_seq _ _ _ l' w).
  { destruct p as [peek|]; [|apply good_quiet; [solve_quiet|apply Hmono; right; by rewrite Hc4]].
    apply (wpo_seq _ _ _ l' w); [apply peek_keys; [by rewrite Hc4|done]|]. intros _ s5 Hg5.
    apply good_quiet; [solve_quiet|done]. }
  intros _ s5 Hg5. eapply wpo_weaken; [apply (good_steady _ _ l' w); [| |exact Hg5]|by intros a c Hc].
  - unfold on_client_joined, update_ring_state. solve_steady.
  - intros s6. rewrite ST_gets_bind.
    rewrite (ST_bind_run _ _ _ (observe (HandleJoinStateChanged (join_state s6)) s6).1 tt) by done.
    transitivity (observe (HandleJoinStateChanged (join_state s6)) s6).1; [apply tell_moves|].
    apply moves_quiet. unfold on_client_joined, update_ring_state. solve_quiet.
Qed.

(** All closures but the last. *)
Lemma perform_good env t s l w :
  task_ok (Actor.task t) -> (forall reason, Actor.task t <> TEnd reason) ->
  good l (t :: w) (core s) -> Forall (apart (env_random_secret env)) l ->
  wpo (perform env (Actor.task t)) s (fun _ c => good (env_random_secret env :: l) w c).
Proof.
  intros Hok Hend Hg Hp. set (l' := env_random_secret env :: l).
  destruct (Actor.task t) as [] eqn:Ht; try (
    assert (good l w (core s)) as Hg' by (eapply good_mono; [exact Hg|done|by unfold applies; cbn; rewrite Ht]);
    assert (good l' w (core s)) as Hg'' by (eapply good_mono; [exact Hg'|set_solver|done]);
    rewrite <- Ht in Hok); try (by apply good_quiet; [apply perform_quiet|]); cbn [perform].
  - apply good_steady; [|apply provide_ring_moves|done]. intros s0. unfold provide_ring_id_if_absent.
    rewrite ST_gets_bind. destruct (join_state s0) as [[r|]| | |] eqn:Hj; try done.
    unfold same, kview. cbn. by rewrite Hj.
  - apply good_steady; [|apply connect_moves|done]. unfold connect, set_connection_state_and_notify_observer.
    solve_steady.
  - by apply join_good.
  - unfold leave. unfold wpo. eapply wp_weaken; [apply leave_inner_core|].
    intros r c [[-> ->]|(e & -> & _)]; [|done]. destruct (in_call (join_state s)); [|done].
    left. unfold departed. cbn. set_solver.
  - by apply end_good.
  - by apply resend_good.
  - by destruct (Hend reason).
  - destruct result as [joined|err]; cbn [on_sfu_client_join_attempt_completed]; [|by apply end_good].
    unfold on_sfu_client_join_success. apply (wpo_seq _ _ _ l w); [by apply connect_to_sfu_good|].
    intros b s' Hs'. destruct b; [apply enter_call_good; [by rewrite Ht in Hok|done..]|].
    apply wpo_ret. eapply good_mono; [exact Hs'|set_solver|done].
  - destruct Hg' as [Hd|Hs]; [|by apply peek_keys].
    eapply wpo_weaken; [by apply departed_moves; [apply peek_moves|]|]. intros a c Hc. by left.
  - by eapply apply_good.
  - unfold endorsements_or_devices. apply (wpo_seq _ _ _ l w); [apply good_quiet; [solve_quiet|done]|].
    intros x s1 Hg1. assert (good l' w (core s1)) as Hg1' by (eapply good_mono; [exact Hg1|set_solver|done]).
    destruct device_joined_or_left as [[proto|]|]; [|apply good_quiet; [solve_quiet|done]..].
    apply (wpo_seq _ _ _ l w); [apply good_quiet; [solve_quiet|done]|]. intros m s2 Hg2.
    assert (good l' w (core s2)) as Hg2' by (eapply good_mono; [exact Hg2|set_solver|done]).
    destruct (deobfuscate_proto _ _); [|apply good_quiet; [solve_quiet|done]].
    destruct Hg2 as [Hd|Hs]; [|by apply peek_keys].
    eapply wpo_weaken; [by apply departed_moves; [apply peek_moves|]|]. intros a' c Hc. by left.
  - unfold handle_removed_received. apply wpo_quiet_bind; [solve_quiet|]. intros j s1 Hc1. apply end_good.
    by rewrite Hc1.
  - revert Hg''. apply moves_good; [apply ice_moves|]. intros Hs.
    unfold handle_ice_connection_state_changed. apply wpo_bind, wpo_gets. intros s1 Hc1.
    assert (good l' w (core s1)) as Hg1 by (rewrite Hc1; by right).
    destruct (connection_state s), st; try (by apply end_good); try (by apply wpo_ret);
      (eapply wpo_steady; [unfold set_connection_state_and_notify_observer; solve_steady|by rewrite Hc1|]);
      intros a c Hc; right; by eapply secret_kview.
Qed.

(** ** Runs with fresh secrets *)

(** The secrets that a client draws, the latest first: their chains never meet. *)
Inductive fresh_run : list FrameCrypto.Secret -> Sys -> Prop :=
| fresh_start secret y : initial secret y -> fresh_run [secret] y
| fresh_actor l env a a' b :
    fresh_run l (mkSys a b) -> Actor.step run env (env_now env) a a' ->
    Forall (apart (env_random_secret env)) l -> fresh_run (env_random_secret env :: l) (mkSys a' b)
| fresh_outside l y y' : fresh_run l y -> outside y y' -> fresh_run l y'
| fresh_reset l y m : fresh_run l y -> (m <= others y)%nat -> fresh_run l (reset m y).

Lemma fresh_reachable l y : fresh_run l y -> reachable y.
Proof.
  induction 1; [by eapply reach_start|eapply reach_act; [done|]..]; [by eapply act_actor|by apply act_outside|by apply act_reset].
Qed.

(** The chains of secrets never meet. *)
Definition all_apart (l : list FrameCrypto.Secret) : Prop :=
  forall o o' k, o ∈ l -> o' ∈ l -> chain o k -> chain o' k -> o = o'.

Lemma all_apart_cons p l : Forall (apart p) l -> all_apart l -> all_apart (p :: l).
Proof.
  intros Hp Hl o o' k. rewrite Forall_forall in Hp. unfold apart in Hp.
  rewrite !elem_of_cons. intros [->|Ho] [->|Ho'] Hk Hk'; [done|..]; [| |by eapply Hl].
  - by destruct (Hp o' Ho' k).
  - by destruct (Hp o Ho k).
Qed.

Lemma fresh_apart l y : fresh_run l y -> all_apart l.
Proof.
  induction 1 as [secret y _|l env a a' b _ IH _ Hp|l y y' _ IH _|l y m _ IH _]; [|by apply all_apart_cons|done|done].
  intros o o' k. rewrite !list_elem_of_singleton. congruence.
Qed.

(** The state between two closures. *)
Definition base (s : State) : Core := core (s <| sent := [] |>).

Definition safe (l : list FrameCrypto.Secret) (a : Actor.Actor State Task) : Prop :=
  Actor.stopped a = true \/ good l (Actor.waiting a) (base (Actor.state a)).

(** The closures that were sent wait now. *)
Lemma good_sent l w w' s :
  good l w (core s) -> applies w' ≡ₚ applies w ++ applies (sent s) -> good l w' (base s).
Proof.
  intros [Hd|[Hp Hk Hd]] Hw; [by left|right]. constructor; [done| |done].
  assert (forall k, applies (k ≫= tracked_sent) = applies k) as Ht.
  { clear. unfold applies. induction k as [|x k IH]; [done|]. cbn. rewrite bind_app, IH.
    by destruct x as [[] d]. }
  destruct Hk as [Hg (o & Ho & Hc & Hr)]. constructor; [exact Hg|]. exists o. split_and!; [done..|].
  assert (applies (w ++ co_sent (core s)) ≡ₚ applies (w' ++ co_sent (base s))) as Hperm.
  { assert (applies (w ++ co_sent (core s)) = applies w ++ applies (sent s)) as ->.
    { rewrite <- (Ht (sent s)). unfold applies. by rewrite bind_app. }
    change (co_sent (base s)) with ([] : list (Actor.Sent Task)). by rewrite app_nil_r. }
  change (co_rotation (base s)) with (co_rotation (core s)). destruct (co_rotation (core s)) as [|p again].
  - destruct Hr as [Hm Ha]. rewrite Ha in Hperm. split; [done|]. by apply Permutation_nil.
  - destruct Hr as (Hp' & Hne & Ha & Hm). rewrite Ha in Hperm. split_and!; [done..| |done].
    by apply Permutation_length_1_inv.
Qed.

Lemma good_perm l w w' s : good l w (base s) -> applies w' ≡ₚ applies w -> good l w' (base s).
Proof.
  intros Hg Hw. change (good l w' (base (s <| sent := [] |>))). eapply good_sent; [exact Hg|].
  by rewrite Hw, app_nil_r.
Qed.

Lemma run_safe env t l a w :
  task_ok (Actor.task t) -> Forall (apart (env_random_secret env)) l ->
  good l (t :: w) (base (Actor.state a)) -> Actor.waiting a ≡ₚ w ->
  safe (env_random_secret env :: l) (Actor.run_task run env (Actor.task t) a).
Proof.
  intros Hok Hp Hg Hw. unfold Actor.run_task, run. set (s0 := Actor.state a <| sent := [] |> <| stopped := false |>).
  assert (good l (t :: w) (core s0)) as Hg0.
  { destruct Hg as [Hd|Hs]; [by left|right]. by eapply secret_kview; [|exact Hs]. }
  assert ((exists reason, Actor.task t = TEnd reason) \/ forall reason, Actor.task t <> TEnd reason) as [[reason ->]|Hend].
  { destruct (Actor.task t); first [by right|left; eauto]. }
  { left. destruct (finish_end_runs reason s0) as (_ & Hst & _). cbn [perform].
    destruct (finish_end reason s0) as [s1 r]. cbn in Hst |- *. rewrite Hst. apply orb_true_r. }
  pose proof (perform_good env t s0 l w Hok Hend Hg0 Hp) as Hpost. unfold wpo, wp in Hpost.
  destruct (perform env (Actor.task t) s0) as [s1 [u|[]]]; cbn [fst snd] in Hpost;
    [right|left; cbn; by rewrite !orb_true_r].
  eapply good_sent; [exact Hpost|]. unfold Actor.waiting in *. cbn. unfold applies. rewrite <- Hw, !bind_app.
  solve_Permutation.
Qed.

Lemma applies_external k : Forall (fun t => internal t = false) k -> applies (Actor.immediate <$> k) = [].
Proof. unfold applies. induction 1 as [|t k Ht _ IH]; [done|]. cbn. rewrite IH. by destruct t. Qed.

(** Changes that other threads make. *)
Lemma safe_hidden l a f k :
  safe l a -> base (f (Actor.state a)) = base (Actor.state a) ->
  Forall (fun t => internal t = false) k -> safe l (send_all k (on_state f a)).
Proof.
  intros Hs Hb Hk. destruct (send_all_spec k (on_state f a)) as (Es & Est & Ed & Ec).
  unfold safe. rewrite Est, Es. change (Actor.state (on_state f a)) with (f (Actor.state a)). rewrite Hb.
  destruct Hs as [Hs|Hs]; [by left|right]. eapply good_perm; [exact Hs|]. unfold Actor.waiting. rewrite Ed, Ec.
  pose proof (applies_external k Hk) as Hnil. unfold applies in *. rewrite !bind_app, Hnil, app_nil_r. done.
Qed.

Lemma safe_flag l a b : safe l a -> safe l (on_state (fun s => s <| busy := b |>) a).
Proof.
  intros [Hs|[Hd|Hs]]; [by left|right; by left|right; right]. by eapply secret_kview; [|exact Hs].
Qed.

Lemma fresh_safe l y : fresh_run l y -> safe l (client y).
Proof.
  induction 1 as [secret y Hi|l env a a' b Hf IH Hstep Hp|l y y' Hf IH Hout|l y m Hf IH _].
  - destruct Hi as (now & group & kind & taken & ring & levels & members & key & cache & ufrag & pwd & uuid & s & Hs & -> & _).
    unfold start in Hs. destruct (Stream.with_capacity_limit _) as [st|]; [|done]. cbn in Hs. injection Hs as <-.
    right. right. constructor; [by right| |by intros d u ?%not_elem_of_nil].
    constructor; [by intros u rc k ?%not_elem_of_nil|]. exists secret. split_and!; [set_solver|apply chain_refl|].
    split; [|done]. intros u (rc & k & Hk%not_elem_of_nil & _). done.
  - pose proof (reachable_sound _ (fresh_reachable _ _ Hf)) as [Hok _ _]. cbn in Hok, IH |- *.
    assert (forall a', Actor.stopped a' = Actor.stopped a -> Actor.state a' = Actor.state a ->
      Actor.waiting a' ≡ₚ Actor.waiting a -> safe (env_random_secret env :: l) a') as Hsame.
    { intros a1 Hst Hs Hw. destruct IH as [IH|IH]; [left; congruence|right]. rewrite Hs.
      eapply good_perm; [eapply good_mono; [exact IH|set_solver|done]|]. unfold applies. by rewrite Hw. }
    destruct Hstep as [t k Hr Hc Hst|t k Hr Hc Hst Hd|t k Hr Hc Hst Hd|t h1 h2 Hr Hc Hst Hh He Ht|t h1 h2 Hr Hc Hst Hh He Ht].
    + by left.
    + apply Hsame; [done..|]. unfold Actor.waiting. cbn. rewrite Hc. solve_Permutation.
    + destruct IH as [IH|IH]; [congruence|]. unfold Actor.waiting in IH, Hok. rewrite Hc in IH, Hok.
      apply (run_safe _ _ _ _ (k ++ Actor.delayed_tasks a)); [by apply Forall_inv in Hok|done|done|done].
    + by left.
    + destruct IH as [IH|IH]; [congruence|]. unfold Actor.waiting in IH, Hok. rewrite Hc, Hh in IH, Hok. cbn in IH, Hok.
      apply (run_safe _ t _ _ (h1 ++ h2)); [|done| |by unfold Actor.waiting; cbn; rewrite Hc].
      * rewrite Forall_app, Forall_cons in Hok. naive_solver.
      * eapply good_perm; [exact IH|]. unfold applies. cbn. rewrite !bind_app. cbn. solve_Permutation.
  - destruct Hout as [t a b Hi Hok|env header payload a b s' k Hrtp|plaintext buffer a b
      |now d ciphertext buffer a b|u a b|a n Hb|a n].
    + by apply (safe_hidden l a id [t]); [..|constructor].
    + apply (safe_hidden l a (fun _ => s') k); [done|..].
      * pose proof (rtp_quiet env header payload (Actor.state a)) as Hq. rewrite Hrtp in Hq.
        exact (f_equal (fun c => c <| co_sent := [] |>) Hq).
      * apply rtp_tasks in Hrtp. eapply Forall_impl; [exact Hrtp|]. by intros t [? _].
    + apply (safe_hidden l a _ []); [done| |done]. unfold base, core. cbn. by rewrite encrypt_media_key.
    + apply (safe_hidden l a _ []); [done| |done]. unfold base, core. cbn. by rewrite decrypt_media_key.
    + by apply (safe_hidden l a _ []).
    + by apply (safe_flag l a true).
    + by apply (safe_flag l a false).
  - by apply (safe_flag l (client y) false).
Qed.

(** ** The theorem *)

(** Who can compute [p] from what was given away is in the call. *)
Definition only_members_know (p : FrameCrypto.Secret) (s : State) : Prop :=
  forall u rc k, (u, (rc, Some k)) ∈ (outputs s ≫= keys_given) -> chain k p -> u ∈ joined_members s.

Lemma pending_known l w c s p again :
  all_apart l -> keys_ok l w (member c) c -> co_rotation c = PendingRotation p again -> again = false ->
  co_given c = (outputs s ≫= keys_given) -> co_members c = joined_members s -> only_members_know p s.
Proof.
  intros Hapart [Hg (o & Ho & Hoc & Hr)] Hrot Hb Hgiven Hm u rc k Hk Hch. rewrite Hrot in Hr.
  destruct Hr as (Hp & _ & _ & Hknow). rewrite <- Hgiven in Hk. rewrite <- Hm. apply Hknow; [done|]. exists rc, k. split; [done|].
  destruct (Hg _ _ _ Hk) as (o' & k' & [= <-] & Ho' & Hk').
  assert (o' = p) as ->; [|done]. eapply Hapart; [done..|by eapply chain_trans|apply chain_refl].
Qed.

(** The closure of a rotation that another one follows starts that one. *)
Lemma apply_again env p e s :
  media_send_key_rotation_state s = PendingRotation p true ->
  let (s', r) := apply_send_key env p e s in
  r = Ok tt /\ media_send_key_rotation_state s' = PendingRotation (env_random_secret env) false /\
  stopped s' = stopped s /\ exists t, t ∈ sent s' /\ Actor.task t = TApplySendKey (env_random_secret env) e.
Proof.
  intros Hrot. unfold apply_send_key.
  set (s1 := (crypto (FrameCrypto.reset_send_ratchet p) s).1).
  rewrite (ST_bind_run _ _ s s1 tt), ST_gets_bind by done.
  change (media_send_key_rotation_state s1) with (media_send_key_rotation_state s). rewrite Hrot.
  set (s2 := s1 <| media_send_key_rotation_state := Applied |>). rewrite (ST_bind_run _ _ s1 s2 tt) by done.
  unfold rotate_media_send_key_and_send_to_users_not_removed. rewrite (ST_bind_run get _ s2 s2 s2) by done.
  change (media_send_key_rotation_state s2) with Applied. cbv iota zeta.
  match goal with |- context [(?m ;; _) s2] => assert (exists s3, m s2 = (s3, Ok tt) /\ stopped s3 = stopped s2) as (s3 & Hm & Hs3) end.
  { destruct (local_demux (join_state s2)) as [d|]; [|by exists s2].
    destruct (send_key_gives env (remote_users s2) d 0 (env_random_secret env) e s2) as (us & _ & Hr & Hc).
    destruct (send_media_send_key_to_users_over_signaling _ _ _ _ _ _ _) as [s3 r]. cbn in Hr, Hc. subst r.
    exists s3. split; [done|]. exact (f_equal co_stopped Hc). }
  rewrite (ST_bind_run _ _ _ _ _ Hm). cbn. split_and!; [done..|]. eexists.
  split; [apply elem_of_app; right; by apply list_elem_of_singleton|done].
Qed.

Lemma rotates_again l y t p e env :
  all_apart l ->
  let s := Actor.state (client y) in
  secret_ok l (Actor.waiting (client y)) (base s) -> ToldJoin (NotJoined None) ∉ (outputs s ≫= told) ->
  media_send_key_rotation_state s = PendingRotation p true ->
  t ∈ Actor.waiting (client y) -> Actor.task t = TApplySendKey p e ->
  Forall (apart (env_random_secret env)) l ->
  exists s' sent', run env (TApplySendKey p e) s = (s', sent', false) /\
    media_send_key_rotation_state s' = PendingRotation (env_random_secret env) false /\
    (exists t', t' ∈ sent' /\ Actor.task t' = TApplySendKey (env_random_secret env) e) /\
    only_members_know (env_random_secret env) s'.
Proof.
  intros Hapart s Hok Hd Hrot [w Hw]%elem_of_Permutation Ht Hp.
  unfold run. cbn [perform]. set (s0 := s <| sent := [] |> <| stopped := false |>).
  assert (good l (t :: w) (core s0)) as Hg.
  { destruct (good_perm l (Actor.waiting (client y)) (t :: w) s (or_intror Hok)) as [Hdep|Hs];
      [unfold applies; by rewrite Hw|by left|right; by eapply secret_kview; [|exact Hs]]. }
  pose proof (apply_good env t p e s0 l w Ht Hg Hp) as Hpost. unfold wpo, wp in Hpost.
  pose proof (apply_key_calm env p e s0) as Hcalm.
  pose proof (apply_again env p e s0 Hrot) as Hagain.
  destruct (apply_send_key env p e s0) as [s1 r]. cbn in Hpost, Hcalm, Hagain.
  destruct Hagain as (-> & Hrot1 & Hst1 & Hsent). exists s1, (sent s1). rewrite Hst1. split_and!; [done..|].
  destruct Hpost as [Hdep|Hs1].
  - destruct Hd. change (ToldJoin (NotJoined None) ∈ v_told (view (core s1))) in Hdep. by rewrite Hcalm in Hdep.
  - eapply (pending_known (env_random_secret env :: l) w (core s1)); [by apply all_apart_cons| |done..]. apply Hs1.
Qed.

(** C4. In a call a secret is drawn at random when the client starts and at each rotation; assume that
    the ratchet chains of these secrets never meet.  Until the device leaves the call: a user who has been given
    a secret from which the one in use can be computed is in the call, or a rotation is
    under way, whose closure waits.  If nobody else has left since it began, only users in
    the call can compute its new secret.  Otherwise, as soon as its closure runs, the next
    rotation begins, with a secret that only users in the call can compute. *)
Theorem former_members_lose_the_key l y :
  fresh_run l y -> Actor.stopped (client y) = false ->
  let s := Actor.state (client y) in
  ToldJoin (NotJoined None) ∉ (outputs s ≫= told) ->
  forall u rc k, (u, (rc, Some k)) ∈ (outputs s ≫= keys_given) ->
  chain k (FrameCrypto.send_state (frame_crypto_context s)).2 ->
  u ∈ joined_members s \/
  exists p again e t, media_send_key_rotation_state s = PendingRotation p again /\
    t ∈ Actor.waiting (client y) /\ Actor.task t = TApplySendKey p e /\
    (again = false -> only_members_know p s) /\
    (again = true -> forall env, let p' := env_random_secret env in Forall (apart p') l ->
       exists s' sent', run env (Actor.task t) s = (s', sent', false) /\
         media_send_key_rotation_state s' = PendingRotation p' false /\
         (exists t', t' ∈ sent' /\ Actor.task t' = TApplySendKey p' e) /\
         only_members_know p' s').
Proof.
  intros Hf Hst s Hd u rc k Hk Hch. pose proof (fresh_apart _ _ Hf) as Hapart.
  destruct (fresh_safe _ _ Hf) as [|[Hdep|Hok]]; [congruence|done|]. fold s in Hok.
  pose proof (secret_keys _ _ _ Hok) as Hkeys. pose proof Hkeys as [Hg (o & Ho & Hoc & Hr)].
  destruct (Hg _ _ _ Hk) as (o' & k' & [= <-] & Ho' & Hk').
  assert (o' = o) as -> by (eapply Hapart; [done..|by eapply chain_trans|done]).
  change (co_rotation (base s)) with (media_send_key_rotation_state s) in Hr.
  change (co_sent (base s)) with ([] : list (Actor.Sent Task)) in Hr. rewrite app_nil_r in Hr.
  destruct (media_send_key_rotation_state s) as [|p again] eqn:Hrot; [left; apply Hr; by exists rc, k|right].
  destruct Hr as (Hp & Hne & Ha & _).
  assert (p ∈ applies (Actor.waiting (client y))) as Hin by (rewrite Ha; set_solver).
  unfold applies in Hin. apply list_elem_of_bind in Hin as (t & Hpt & Ht).
  destruct (Actor.task t) eqn:Htask; try (by apply not_elem_of_nil in Hpt).
  apply list_elem_of_singleton in Hpt as <-. eexists _, again, _, t. split_and!; [done..| |].
  - intros Hb. by eapply (pending_known l _ (base s)).
  - intros -> env p' Hp'. rewrite Htask. by apply (rotates_again l y t p).
Qed.

End Keys.
End GroupKeys.
