(* ===== verification/GroupDevices.v ===== *)
(** * Transceivers and reliable messages of a group call

    The transceivers of the peer connection follow the devices of the call, and what
    happens to the messages of the SFU that are ready at the same time. *)

From S2P Require Import Prelude States Signaling ConnectionTypes Connection ConnectionStart CallManager.
From S2P Require Import MrpWindow MrpMerge MrpStream FrameCrypto FrameFormat Endorsements Actor GroupTypes GroupCall.
From S2P Require Import GroupSystem GroupQuiet GroupStates GroupDiagram GroupKeys.
Local Open Scope Z_scope.
Local Open Scope ringrtc_scope.

Module GroupDevices.
Import GroupTypes GroupCall GroupSystem GroupQuiet GroupStates GroupDiagram GroupKeys.

Create HintDb firm.

(** ** Slots *)

(** The devices that have a transceiver. *)
Definition used (slots : list (option DemuxId)) : list DemuxId := omap id slots.

Lemma used_cons o slots : used (o :: slots) = match o with Some d => d :: used slots | None => used slots end.
Proof. by destruct o. Qed.

Lemma used_length slots : (length (used slots) <= length slots)%nat.
Proof. induction slots as [|[x|] slots IH]; [done|..]; rewrite used_cons; cbn; lia. Qed.

Lemma free_slots_used new slots d : d ∈ used (free_slots new slots) <-> d ∈ used slots /\ d ∈ new.
Proof.
  unfold free_slots. induction slots as [|[x|] slots IH]; [set_solver| |exact IH].
  rewrite fmap_cons, !used_cons. case_bool_decide; rewrite ?elem_of_cons; naive_solver.
Qed.

Lemma free_slots_nodup new slots : NoDup (used slots) -> NoDup (used (free_slots new slots)).
Proof.
  induction slots as [|[x|] slots IH]; [done| |exact IH]. rewrite used_cons. intros [Hx Hn]%NoDup_cons.
  unfold free_slots in *. rewrite fmap_cons, used_cons. case_bool_decide; [|auto].
  apply NoDup_cons. split; [|auto]. intros [Hin _]%free_slots_used. done.
Qed.

Lemma free_slots_keep new slots i d :
  slots !! i = Some (Some d) -> d ∈ new -> free_slots new slots !! i = Some (Some d).
Proof. intros Hi Hd. unfold free_slots. rewrite list_lookup_fmap, Hi. cbn. by rewrite bool_decide_true. Qed.

Lemma fill_slots_spec new slots added :
  (forall d, d ∈ used slots -> d ∈ new) ->
  let '(slots', rest) := fill_slots new slots added in
  length slots' = length slots /\ used slots' ++ rest ≡ₚ used slots ++ added /\
  (forall i d, slots !! i = Some (Some d) -> slots' !! i = Some (Some d)) /\
  (rest = [] \/ length (used slots') = length slots').
Proof.
  revert added. induction slots as [|o slots IH]; intros added Hin; cbn [fill_slots]; [by auto|].
  assert (forall d, d ∈ used slots -> d ∈ new) as Hin'.
  { intros d Hd. apply Hin. rewrite used_cons. destruct o; set_solver. }
  destruct o as [x|].
  - rewrite bool_decide_true by (apply Hin; rewrite used_cons; set_solver). specialize (IH added Hin').
    destruct (fill_slots new slots added) as [slots' rest]. destruct IH as (Hl & Hp & Hk & Hr).
    rewrite !used_cons. cbn. split_and!; [lia|by f_equiv| |destruct Hr; [by left|right; lia]].
    intros [|i] d; [done|apply Hk].
  - specialize (IH (tail added) Hin'). destruct (fill_slots new slots (tail added)) as [slots' rest].
    destruct IH as (Hl & Hp & Hk & Hr). rewrite !used_cons. destruct added as [|x added]; cbn in *.
    + assert (rest = []) as ->.
      { destruct Hr as [|Hr]; [done|]. apply Permutation_length in Hp. rewrite !length_app in Hp. cbn in Hp.
        pose proof (used_length slots).
        destruct rest; [done|]. cbn in Hp. lia. }
      split_and!; [lia|done| |by left]. intros [|i] d; [done|apply Hk].
    + split_and!; [lia|rewrite <- Permutation_middle; by f_equiv| |destruct Hr; [by left|right; lia]].
      intros [|i] d; [done|apply Hk].
Qed.

(** The transceivers [slots'] for the devices [new], which were [slots] before. *)
Record follows_devices (slots slots' : list (option DemuxId)) (new : gset DemuxId) : Prop := mkFollowsDevices {
  (** Every device has exactly one transceiver, and no other device has one. *)
  fd_nodup : NoDup (used slots');
  fd_devices : list_to_set (used slots') = new;
  (** A device keeps its transceiver. *)
  fd_stable : forall i d, slots !! i = Some (Some d) -> d ∈ new -> slots' !! i = Some (Some d);
  (** Free transceivers are used before new ones are made. *)
  fd_length : length slots' = Nat.max (length slots) (size new);
}.

Lemma size_used slots (new : gset DemuxId) :
  NoDup (used slots) -> list_to_set (used slots) = new -> size new = length (used slots).
Proof. intros Hn <-. by apply size_list_to_set. Qed.

Lemma free_follows (slots : list (option DemuxId)) (old new : gset DemuxId) :
  NoDup (used slots) -> list_to_set (used slots) = old -> new ⊆ old ->
  follows_devices slots (free_slots new slots) new.
Proof.
  intros Hn Ho Hsub.
  assert (list_to_set (used (free_slots new slots)) = new) as Hset.
  { apply set_eq. intros d. rewrite elem_of_list_to_set, free_slots_used. set_solver. }
  pose proof (free_slots_nodup new slots Hn) as Hn'. constructor; [done|done|apply free_slots_keep|].
  rewrite (size_used _ _ Hn' Hset). pose proof (used_length (free_slots new slots)).
  unfold free_slots in *. rewrite length_fmap in *. lia.
Qed.

Lemma add_follows (slots : list (option DemuxId)) (old new : gset DemuxId) added :
  NoDup (used slots) -> list_to_set (used slots) = old -> added ≡ₚ elements (new ∖ old) ->
  follows_devices slots (add_slots new (free_slots new slots) added) new.
Proof.
  intros Hn Ho Hadd. unfold add_slots.
  pose proof (fill_slots_spec new (free_slots new slots) added) as Hfill.
  destruct (fill_slots _ _ _) as [slots' rest]. destruct Hfill as (Hl & Hp & Hk & Hr).
  { by intros d [_ ?]%free_slots_used. }
  pose proof (free_slots_nodup new slots Hn) as Hn'.
  assert (used (slots' ++ (Some <$> rest)) = used slots' ++ rest) as Hu.
  { unfold used. rewrite omap_app. f_equal. by rewrite list_omap_fmap, list_omap_Some || (clear; induction rest; cbn; congruence). }
  assert (NoDup (used slots' ++ rest)) as Hnd.
  { rewrite Hp. apply NoDup_app. split_and!; [done| |rewrite Hadd; apply NoDup_elements].
    intros d [Hd _]%free_slots_used. rewrite Hadd, elem_of_elements. set_solver. }
  assert (list_to_set (used slots' ++ rest) = new) as Hset.
  { apply set_eq. intros d. rewrite elem_of_list_to_set, Hp, elem_of_app, free_slots_used, Hadd, elem_of_elements,
      elem_of_difference, <- Ho, elem_of_list_to_set. destruct (decide (d ∈ used slots)); tauto. }
  constructor; rewrite ?Hu; [done|done| |].
  - intros i d Hi Hd. apply lookup_app_l_Some, Hk. by apply free_slots_keep.
  - assert (size new = length (used slots' ++ rest)) as -> by (rewrite <- Hset; by apply size_list_to_set).
    pose proof (used_length slots'). unfold free_slots in Hl. rewrite length_fmap in Hl.
    rewrite !length_app, length_fmap. destruct Hr as [->|Hr]; cbn; lia.
Qed.

Section Devices.
Context `{FrameCipher} `{SrtpCrypto} `{GroupHash} `{ZkEndorsement} `{!ZkResponse}
  `{!Codec DeviceToDevice} `{!Codec DeviceToSfu} `{!Codec SfuToDevice}.

Notation quiet := (respects (same core)).

Lemma in_order_perm (order : list DemuxId -> list DemuxId) (x : gset DemuxId) : in_order order x ≡ₚ elements x.
Proof. unfold in_order. by case_bool_decide. Qed.

(** ** Transceivers and devices match *)

(** The closure that stops a client waits, because its peer connection refused a change of
    the devices. *)
Definition failing (l : list (Actor.Sent Task)) : Prop :=
  exists t, t ∈ l /\ Actor.task t = TEnd CallEndReason.FailedToUpdatePeerConnection.

Definition ids (c : Core) : gset DemuxId := list_to_set (co_devices c).*1.

Record matched (c : Core) : Prop := mkMatched {
  m_nodup : NoDup (used (co_slots c));
  m_devices : list_to_set (used (co_slots c)) = ids c;
  (** When devices change, there is a peer connection. *)
  m_sfu : forall keys, co_dhe c = Negotiated keys ->
    co_connection c <> NotConnected /\ (in_call (co_join c) = true -> co_sfu c <> None);
}.

(** What a closure does with a core [c0]. *)
Definition updated (c0 c : Core) : Prop :=
  failing (co_sent c) \/ matched c /\ follows_devices (co_slots c0) (co_slots c) (ids c).

Lemma matched_follows c : matched c -> follows_devices (co_slots c) (co_slots c) (ids c).
Proof.
  intros [Hn Hd _]. constructor; [done..|]. rewrite (size_used _ _ Hn Hd). pose proof (used_length (co_slots c)). lia.
Qed.

Lemma updated_refl c : matched c -> updated c c.
Proof. intros Hm. right. split; [done|by apply matched_follows]. Qed.

(** Code that leaves devices, transceivers and keys of the connection alone, does not join
    and does not close the connection. *)
Definition firm_core (c c' : Core) : Prop :=
  co_slots c' = co_slots c /\ ids c' = ids c /\ co_dhe c' = co_dhe c /\ co_sfu c' = co_sfu c /\
  (in_call (co_join c') = true -> in_call (co_join c) = true) /\
  (co_connection c <> NotConnected -> co_connection c' <> NotConnected) /\
  (failing (co_sent c) -> failing (co_sent c')).
Definition firm (s s' : State) : Prop := firm_core (core s) (core s').

#[local] Instance firm_preorder : PreOrder firm.
Proof.
  split; [by intros s; split_and!|]. intros s1 s2 s3 (E1 & E2 & E3 & E4 & E5 & E6 & E7) (F1 & F2 & F3 & F4 & F5 & F6 & F7).
  split_and!; [congruence..|auto|auto|auto].
Qed.

Lemma firm_matched c c' : firm_core c c' -> matched c -> matched c'.
Proof.
  intros (E1 & E2 & E3 & E4 & E5 & E6 & _) [Hn Hd Hs]. constructor; rewrite ?E1, ?E2, ?E3, ?E4; [done..|].
  intros keys Hk. destruct (Hs keys Hk) as [Hc Hsfu]. auto.
Qed.

Lemma firm_updated c0 c c' : firm_core c c' -> updated c0 c -> updated c0 c'.
Proof.
  intros Hf [Hx|[Hm Hu]].
  - left. by apply Hf.
  - right. split; [by eapply firm_matched|]. destruct Hf as (-> & -> & _). done.
Qed.

Lemma firm_quiet {A} (m : ST State Fault A) : quiet m -> respects firm m.
Proof. intros Hm s. unfold firm. rewrite (Hm s). by split_and!. Qed.

Lemma firm_sent s l : firm s (s <| sent := sent s ++ l |>).
Proof.
  split_and!; [done..|]. cbn. intros (t & Ht & E). exists t. split; [|done]. rewrite bind_app, elem_of_app. by left.
Qed.

Lemma left_firm c : firm_core c (left c).
Proof. by split_and!. Qed.

Lemma ended_firm env reason c : firm_core c (ended env reason c).
Proof.
  assert (forall c, firm_core c (ending env reason c)) as He.
  { intros c'. split_and!; [done..|]. cbn. intros (t & Ht & E). exists t. split; [set_solver|done]. }
  unfold ended. destruct (in_call (co_join c)); case_bool_decide; try apply He; [..|by split_and!]; [by split_and!|].
  pose proof (He (left c)) as Hl. destruct Hl as (?&?&?&?&?&?&?). by split_and!.
Qed.

Lemma leave_firm env : respects firm (leave_inner env).
Proof.
  intros s. pose proof (leave_inner_core env s) as Hw. unfold wp in Hw.
  destruct Hw as [[_ Hc]|(e & _ & Hc)]; unfold firm; rewrite Hc; [|by split_and!].
  destruct (in_call _); [apply left_firm|by split_and!].
Qed.

Lemma end_firm env reason : respects firm (end_ env reason).
Proof.
  intros s. pose proof (end_core env reason s) as Hw. unfold wp in Hw.
  destruct Hw as [[_ Hc]|(e & _ & Hc)]; unfold firm; rewrite Hc; [apply ended_firm|by split_and!].
Qed.

Lemma connection_firm st : st <> NotConnected -> respects firm (set_connection_state_and_notify_observer st).
Proof. intros Hst s. by split_and!. Qed.

Lemma join_firm st s : in_call (join_state s) = in_call st -> firm s (set_join_state_and_notify_observer st s).1.
Proof. intros Hj. split_and!; [done..|cbn; by rewrite Hj|done|done]. Qed.

#[local] Hint Resolve leave_firm end_firm : firm.
Ltac firm_step :=
  lazymatch goal with
  | |- respects _ (mbind _ _) => apply respects_bind; [typeclasses eauto| |intros ?]
  | |- respects _ (match ?x with _ => _ end) => destruct x
  | |- respects _ (for_each _ _) => apply respects_for_each; [typeclasses eauto|intros ?]
  | |- respects _ (when _ _) => apply respects_when; [typeclasses eauto|]
  | |- respects _ (observe _) => intros ?; by split_and!
  | |- respects _ (modify _) => apply respects_modify; intros ?; by split_and!
  | |- respects _ (crypto _) => intros ?; by split_and!
  | |- respects _ (actor_send_delayed _ _ _) => intros ?; apply firm_sent
  | |- respects _ (set_connection_state_and_notify_observer _) => by apply connection_firm
  | |- respects _ _ => solve [eauto with firm|apply firm_quiet; solve_quiet]
  end.
Ltac solve_firm := intros; repeat firm_step.

Lemma send_key_firm env us d rc secret e :
  respects firm (send_media_send_key_to_users_over_signaling env us d rc secret e).
Proof. unfold send_media_send_key_to_users_over_signaling, send_to_each. solve_firm. Qed.
#[local] Hint Resolve send_key_firm : firm.
Lemma rotate_firm env e : respects firm (rotate_media_send_key_and_send_to_users_not_removed env e).
Proof. unfold rotate_media_send_key_and_send_to_users_not_removed. solve_firm. Qed.
#[local] Hint Resolve rotate_firm : firm.

Lemma firm_bind {A B} (m : ST State Fault A) (k : A -> ST State Fault B) s :
  firm s (m s).1 -> (forall a, respects firm (k a)) -> firm s ((m ≫= k) s).1.
Proof.
  intros Hm Hk. unfold mbind, ST_bind. destruct (m s) as [s1 [a|e]]; [|done]. etrans; [exact Hm|apply Hk].
Qed.

Lemma become_joined_firm (b : bool) d s :
  firm s ((match b, join_state s with
    | true, Pending _ => set_join_state_and_notify_observer (Joined d) ;; on_client_joined
    | _, _ => ret_ok
    end : ST State Fault unit) s).1.
Proof.
  destruct b; [|reflexivity]. destruct (join_state s) eqn:Hj; try reflexivity.
  apply firm_bind; [apply (join_firm (Joined d)); by rewrite Hj|intros _].
  apply firm_quiet. unfold on_client_joined. solve_quiet.
Qed.

Lemma changed_firm env d b old new added oldu newu e :
  respects firm (devices_changed env d b old new added oldu newu e).
Proof.
  unfold devices_changed, advance_media_send_key_and_send_to_users_with_added_devices,
    send_pending_media_send_key_to_users_with_added_devices.
  apply respects_bind; [apply _|solve_firm|intros _]. intros s. rewrite ST_gets_bind.
  apply firm_bind; [apply become_joined_firm|]. solve_firm.
Qed.

(** *** A new list of devices *)

Lemma wpo_firm {A} (m : ST State Fault A) s (Q : A -> Core -> Prop) :
  respects firm m -> (forall a c, firm_core (core s) c -> Q a c) -> wpo m s Q.
Proof. intros Hm HQ. unfold wpo, wp. specialize (Hm s). destruct (m s) as [s' [a|e]]; [|done]. by apply HQ. Qed.

(** [end] leaves the call, and the closure that stops the client waits. *)
Lemma end_fails env s :
  connection_state s <> NotConnected ->
  wpo (end_ env CallEndReason.FailedToUpdatePeerConnection ;; mret false) s (fun b c => b = false /\ failing (co_sent c)).
Proof.
  intros Hc. apply wpo_bind. unfold wpo at 1. eapply wp_weaken; [apply end_core|].
  intros r c [[-> ->]|(e & -> & _)]; [|done]. intros s' Hs'. apply wpo_ret. split; [done|]. rewrite Hs'.
  unfold ended. destruct (in_call _); (rewrite bool_decide_false by done); cbn; eexists; (split; [apply elem_of_app; right; by apply list_elem_of_singleton|done]).
Qed.

Lemma push_slots (env : Env) (d : DemuxId) (keys : SrtpKeys) (old new : gset DemuxId) s :
  NoDup (used (remote_transceiver_demux_ids s)) ->
  list_to_set (used (remote_transceiver_demux_ids s)) = old -> sfu_info s <> None ->
  connection_state s <> NotConnected ->
  wpo (push_demux_ids env d keys new (new ∖ old)) s (fun b c =>
    if b then exists slots, c = core s <| co_slots := slots |> /\ follows_devices (remote_transceiver_demux_ids s) slots new
    else failing (co_sent c)).
Proof.
  intros Hn Ho Hsfu Hconn. unfold push_demux_ids. apply wpo_bind, wpo_gets. intros s1 Hc1.
  destruct (sfu_info s) as [sfu|]; [clear Hsfu|done].
  assert (forall s', connection_state s' = connection_state s ->
    wpo (end_ env CallEndReason.FailedToUpdatePeerConnection ;; mret false) s' (fun b c =>
    if b then exists slots, c = core s <| co_slots := slots |> /\ follows_devices (remote_transceiver_demux_ids s) slots new
    else failing (co_sent c))) as Hend.
  { intros s' Hs'. eapply wpo_weaken; [apply end_fails; by rewrite Hs'|]. by intros b c [-> ?]. }
  set (freed := free_slots new (remote_transceiver_demux_ids s)).
  apply wpo_bind, wpo_modify. intros s2 Hc2.
  assert (core s2 = core s <| co_slots := freed |>) as Hs2.
  { rewrite Hc2, <- Hc1. done. }
  apply wpo_quiet_bind; [solve_quiet|]. intros failed s3 Hc3. rewrite Hs2 in Hc3.
  destruct failed; [apply Hend; exact (f_equal co_connection Hc3)|]. case_bool_decide as Hnone.
  { apply wpo_ret. exists freed. split; [done|]. apply (free_follows _ old); [done..|set_solver]. }
  assert (remote_transceiver_demux_ids s3 = freed) as Hs3 by exact (f_equal co_slots Hc3).
  apply wpo_bind, wpo_modify. intros s4 Hc4.
  assert (core s4 = core s <| co_slots := add_slots new freed (in_order (env_demux_order env) (new ∖ old)) |>) as Hs4.
  { rewrite Hc4, <- Hs3. change (core (s3 <| remote_transceiver_demux_ids := ?x |>)) with (core s3 <| co_slots := x |>).
    rewrite Hc3. done. }
  apply wpo_quiet_bind; [solve_quiet|]. intros failed s5 Hc5. rewrite Hs4 in Hc5.
  destruct failed; [apply Hend; exact (f_equal co_connection Hc5)|]. apply wpo_ret. eexists. split; [exact Hc5|].
  apply (add_follows _ old); [done..|apply in_order_perm].
Qed.

Lemma ids_devices s : ids (core s) = demux_id_set (remote_devices s).
Proof. unfold ids, core, demux_id_set. cbn. by rewrite <- list_fmap_compose. Qed.

(** Devices that are the old ones keep their transceivers; for others the peer connection is
    told. *)
Lemma update_call_updated env peek d keys oldu newu e s :
  matched (core s) -> in_call (join_state s) = true -> dhe_state s = Negotiated keys ->
  wpo (update_call env peek d keys oldu newu e) s (fun _ c => updated (core s) c).
Proof.
  intros [Hn Hd Hs] Hj Hdhe. destruct (Hs keys Hdhe) as [Hconn Hsfu]. specialize (Hsfu Hj).
  unfold update_call. apply wpo_bind, wpo_gets. intros s1 Hc1.
  destruct (update_devices _ _ _ _) as [ds p]. apply wpo_bind, wpo_modify. intros s2 Hc2.
  assert (core s2 = core s <| co_devices := owner <$> ds |>) as Hs2 by (rewrite Hc2, <- Hc1; done).
  assert (ids (core s2) = demux_id_set ds) as Hids.
  { rewrite Hs2. unfold ids, demux_id_set. cbn. by rewrite <- list_fmap_compose. }
  rewrite ids_devices in Hd.
  assert (remote_transceiver_demux_ids s2 = remote_transceiver_demux_ids s) as Hslots by exact (f_equal co_slots Hs2).
  assert (forall b s3, (if b : bool then exists slots, core s3 = core s2 <| co_slots := slots |> /\
      follows_devices (remote_transceiver_demux_ids s) slots (demux_id_set ds) else failing (co_sent (core s3))) ->
    forall x y z u v w, wpo (if b then devices_changed env d p x y z u v w ;; mret true else mret false) s3
      (fun _ c => updated (core s) c)) as Hrest.
  { intros b s3 Hb x y z u v w. destruct b; [|apply wpo_ret; by left].
    destruct Hb as (slots & Hc3 & Hf). assert (updated (core s) (core s3)) as Hu.
    { right. rewrite Hc3. assert (ids (core s2 <| co_slots := slots |>) = demux_id_set ds) as Hi by exact Hids.
      split; [|by rewrite Hi]. constructor;
        [exact (fd_nodup _ _ _ Hf)|rewrite Hi; exact (fd_devices _ _ _ Hf)|rewrite Hs2; exact Hs]. }
    apply wpo_bind, wpo_firm; [apply changed_firm|]. intros a c Hc s4 Hc4. apply wpo_ret. rewrite Hc4.
    by eapply firm_updated. }
  apply wpo_bind. case_bool_decide as Hsame.
  - apply wpo_ret. intros s3 Hc3. apply (Hrest true). exists (remote_transceiver_demux_ids s). split.
    + rewrite Hc3, Hs2. done.
    + rewrite <- Hsame, <- ids_devices. apply (matched_follows (core s)). constructor; [done|by rewrite ids_devices|done].
  - eapply wpo_weaken; [apply push_slots|].
    + by rewrite Hslots.
    + rewrite Hslots. exact Hd.
    + change (sfu_info s2) with (co_sfu (core s2)). by rewrite Hs2.
    + change (connection_state s2) with (co_connection (core s2)). by rewrite Hs2.
    + intros b c Hb s3 Hc3. apply Hrest. rewrite Hc3. destruct b; [|done]. rewrite Hslots in Hb. exact Hb.
Qed.

Lemma peek_updated env r e s :
  matched (core s) -> wpo (set_peek_result_inner env r e) s (fun _ c => updated (core s) c).
Proof.
  intros Hm. unfold set_peek_result_inner. destruct r as [peek|]; [|by apply wpo_modify, updated_refl].
  apply wpo_bind, wpo_gets. intros s1 Hc1. apply wpo_quiet_bind; [solve_quiet|]. intros _ s2 Hc2.
  apply wpo_bind, wpo_modify. intros s3 Hc3. apply wpo_quiet_bind; [solve_quiet|]. intros _ s4 Hc4.
  assert (core s4 = core s <| co_members := ∅ |>) as Hs4.
  { rewrite Hc4, Hc3. change (core (s2 <| joined_members := ∅ |>)) with (core s2 <| co_members := ∅ |>). by rewrite Hc2, Hc1. }
  assert (matched (core s4)) as Hm4 by (rewrite Hs4; by eapply firm_matched; [|exact Hm]).
  apply wpo_bind. eapply wpo_weaken.
  - assert (wpo (match local_demux (join_state s), dhe_state s with
      | Some local_demux_id, Negotiated keys =>
        update_call env peek local_demux_id keys (joined_members s) (unique_users peek) e
      | _, _ => mret true
      end) s4 (fun _ c => updated (core s4) c)) as Hx; [|exact Hx].
    destruct (local_demux (join_state s)) eqn:Hl; [|by apply wpo_ret, updated_refl].
    destruct (dhe_state s) eqn:Hdhe; try (by apply wpo_ret, updated_refl).
    apply update_call_updated; [done| |].
    + change (join_state s4) with (co_join (core s4)). rewrite Hs4. cbn. by destruct (join_state s).
    + change (dhe_state s4) with (co_dhe (core s4)). by rewrite Hs4.
  - intros b c Hu s5 Hc5. rewrite <- Hc5 in Hu. apply wpo_firm; [solve_firm|]. intros a c' Hf.
    apply (firm_updated _ _ _ Hf). rewrite Hs4 in Hu. exact Hu.
Qed.

(** *** Joining *)

(** The devices and their transceivers are as before. *)
Definition kept (c0 c : Core) : Prop := matched c /\ co_slots c = co_slots c0 /\ ids c = ids c0.

Lemma kept_updated c0 c c' : kept c0 c -> updated c c' -> updated c0 c'.
Proof. intros (_ & Hs & _) [Hf|Hu]; [by left|right]. by rewrite Hs in Hu. Qed.

Lemma kept_refl c : matched c -> kept c c.
Proof. intros Hm. by split_and!. Qed.

Lemma firm_kept c c' : firm_core c c' -> matched c -> kept c c'.
Proof. intros Hf Hm. split; [by eapply firm_matched|]. destruct Hf as (? & ? & _). done. Qed.

(** Without keys of a connection nothing more is to be shown. *)
Lemma kept_without_keys c0 c :
  matched c0 -> co_slots c = co_slots c0 -> ids c = ids c0 -> (forall keys, co_dhe c <> Negotiated keys) -> kept c0 c.
Proof.
  intros [Hn Hd _] Hs Hi Hk. split_and!; [|done..]. constructor; rewrite ?Hs, ?Hi; [done..|].
  intros keys Hkeys. by destruct (Hk keys).
Qed.

Lemma join_kept env s : matched (core s) -> wpo (join env) s (fun _ c => kept (core s) c).
Proof.
  intros Hm. unfold join. apply wpo_bind, wpo_gets. intros s1 Hc1.
  destruct (join_state s); try (apply wpo_ret; rewrite Hc1; by apply kept_refl).
  apply wpo_bind. unfold take_busy. apply wpo_bind, wpo_gets. intros s2 Hc2. rewrite Hc1 in Hc2. destruct (busy s1).
  { apply wpo_ret. intros s3 Hc3. apply wpo_firm; [apply end_firm|]. rewrite Hc3, Hc2. intros a c Hf. by apply firm_kept. }
  apply wpo_bind, wpo_modify. intros s3 Hc3. apply wpo_ret. intros s4 Hc4.
  apply wpo_bind. unfold wpo at 1, wp. cbn [fst snd]. intros s5 Hc5. rewrite core_join in Hc5.
  apply wpo_quiet_bind; [unfold accept_ring_if_needed; solve_quiet|]. intros _ s6 Hc6.
  apply wpo_quiet_bind; [solve_quiet|]. intros k s7 Hc7. apply wpo_quiet_bind; [solve_quiet|]. intros _ s8 Hc8.
  apply wpo_bind, wpo_modify. intros s9 Hc9.
  assert (kept (core s) (core s9)) as Hk.
  { assert (co_slots (core s4) = co_slots (core s) /\ ids (core s4) = ids (core s)) as [Hsl Hid].
    { rewrite Hc4, Hc3. change (core (s2 <| busy := true |>)) with (core s2 <| co_busy := true |>). by rewrite Hc2. }
    apply kept_without_keys; [done|..].
    - rewrite <- Hsl. rewrite Hc9. transitivity (co_slots (core s8)); [done|]. by rewrite Hc8, Hc7, Hc6, Hc5.
    - rewrite <- Hid. rewrite Hc9. transitivity (ids (core s8)); [done|]. by rewrite Hc8, Hc7, Hc6, Hc5.
    - intros keys. by rewrite Hc9. }
  unfold wpo. apply wp_quiet; [solve_quiet|]. intros [a|]; done.
Qed.

Lemma end_kept env reason s s0 :
  matched (core s0) -> co_slots (core s) = co_slots (core s0) -> ids (core s) = ids (core s0) ->
  connection_state s <> NotConnected ->
  wpo (end_ env reason ;; mret false) s (fun _ c => kept (core s0) c).
Proof.
  intros [Hn Hd _] Hs Hi Hc. apply wpo_bind. unfold wpo at 1. eapply wp_weaken; [apply end_core|].
  intros r c [[-> ->]|(e & -> & _)]; [|done]. intros s' Hs'. apply wpo_ret. rewrite Hs'.
  destruct (ended_firm env reason (core s)) as (E1 & E2 & _ & _ & _ & E6 & _).
  assert (in_call (co_join (ended env reason (core s))) = false) as Hj.
  { unfold ended. destruct (in_call (co_join (core s))) eqn:Hj; by case_bool_decide. }
  split_and!; [|congruence..]. constructor; rewrite ?E1, ?E2, ?Hs, ?Hi; [done..|]. intros keys _.
  split; [by apply E6|]. by rewrite Hj.
Qed.

Lemma connect_to_sfu_kept env joined s :
  matched (core s) -> wpo (connect_to_sfu env joined) s (fun _ c => kept (core s) c).
Proof.
  intros Hm. unfold connect_to_sfu. apply wpo_bind, wpo_gets. intros s1 Hc1.
  destruct (connection_state s) eqn:Hconn; try (apply wpo_ret; rewrite Hc1; by apply kept_refl).
  destruct (negotiate _ _ _) as [dhe|]; [|done].
  apply wpo_bind, wpo_modify. intros s2 Hc2.
  assert (core s2 = core s <| co_dhe := dhe |>) as Hs2 by (rewrite Hc2, <- Hc1; done).
  assert (forall s', core s' = core s2 -> forall reason, wpo (end_ env reason ;; mret false) s' (fun _ c => kept (core s) c)) as Hend.
  { intros s' Hs' reason. apply end_kept; [done|by rewrite Hs', Hs2..|].
    change (co_connection (core s') <> NotConnected). rewrite Hs', Hs2. cbn. by rewrite Hconn. }
  destruct dhe as [| | |keys]; try (by apply Hend).
  apply wpo_quiet_bind; [solve_quiet|]. intros failed s3 Hc3. destruct failed; [by apply Hend|].
  apply wpo_quiet_bind; [solve_quiet|]. intros _ s4 Hc4. apply wpo_bind, wpo_modify. intros s5 Hc5. apply wpo_ret.
  assert (core s5 = core s <| co_dhe := Negotiated keys |> <| co_sfu := Some (j_sfu_info joined) |>) as Hs5.
  { rewrite Hc5. change (core (s4 <| sfu_info := Some (j_sfu_info joined) |>)) with
      (core s4 <| co_sfu := Some (j_sfu_info joined) |>). by rewrite Hc4, Hc3, Hs2. }
  rewrite Hs5. destruct Hm as [Hn Hd _]. split_and!; [|done..]. constructor; [done..|]. intros ? _. cbn. by rewrite Hconn.
Qed.

Lemma enter_call_updated env joined s :
  task_ok (TJoinAttemptCompleted (Ok joined)) -> matched (core s) ->
  wpo (enter_call env joined) s (fun _ c => updated (core s) c).
Proof.
  intros Hok Hm. unfold enter_call. apply wpo_bind, wpo_gets. intros s1 Hc1.
  destruct (join_state s) eqn:Hj; try (apply wpo_ret; rewrite Hc1; by apply updated_refl).
  apply wpo_quiet_bind; [solve_quiet|]. intros _ s2 Hc2. apply wpo_bind, wpo_modify. intros s3 Hc3.
  assert (firm_core (core s) (core s3)) as Hf.
  { rewrite Hc3. change (core (s2 <| join_state := j_join_state joined |>)) with (core s2 <| co_join := j_join_state joined |>).
    rewrite Hc2, Hc1. split_and!; try done. cbn. by rewrite Hj. }
  pose proof (firm_kept _ _ Hf Hm) as Hk. pose proof (proj1 Hk) as Hm3.
  apply wpo_quiet_bind; [solve_quiet|]. intros p s4 Hc4. rewrite <- Hc4 in Hk, Hm3. apply wpo_bind.
  eapply wpo_weaken with (P := fun _ c => updated (core s) c).
  - destruct p as [peek|]; [|by apply wpo_ret, (kept_updated _ _ _ Hk), updated_refl].
    apply wpo_bind. eapply wpo_weaken; [by apply peek_updated|]. intros a c Hu s5 Hc5. apply wpo_firm; [solve_firm|].
    intros a' c' Hf'. apply (kept_updated _ _ _ Hk), (firm_updated _ _ _ Hf'). by rewrite Hc5.
  - intros a c Hu s5 Hc5. apply wpo_firm; [unfold on_client_joined, update_ring_state; solve_firm|].
    intros a' c' Hf'. apply (firm_updated _ _ _ Hf'). by rewrite Hc5.
Qed.

(** All closures but the last. *)
Lemma perform_updated env t s :
  task_ok t -> (forall reason, t <> TEnd reason) -> matched (core s) ->
  wpo (perform env t) s (fun _ c => updated (core s) c).
Proof.
  intros Hok Hend Hm.
  assert (forall (m : ST State Fault unit), respects firm m -> wpo m s (fun _ c => updated (core s) c)) as Hfirm.
  { intros m Hf. apply wpo_firm; [done|]. intros a c Hc. by apply (firm_updated _ _ _ Hc), updated_refl. }
  destruct (quiet_task t) eqn:Hq; [by apply Hfirm, firm_quiet, perform_quiet|].
  destruct t; try discriminate Hq; cbn [perform].
  - apply Hfirm. intros s'. unfold provide_ring_id_if_absent. rewrite ST_gets_bind.
    destruct (join_state s') as [[r|]| | |] eqn:Hj; by split_and!.
  - apply Hfirm. unfold connect. solve_firm.
  - eapply wpo_weaken; [by apply join_kept|]. intros a c Hc. apply (kept_updated _ _ _ Hc), updated_refl, Hc.
  - apply Hfirm, leave_firm.
  - apply Hfirm, end_firm.
  - apply Hfirm. unfold resend_media_keys. solve_firm.
  - by destruct (Hend reason).
  - destruct result as [joined|err]; [|apply Hfirm, end_firm]. cbn [on_sfu_client_join_attempt_completed].
    unfold on_sfu_client_join_success. apply wpo_bind. eapply wpo_weaken; [by apply connect_to_sfu_kept|].
    intros b c Hk s1 Hc1. rewrite <- Hc1 in Hk. destruct b; [|by apply wpo_ret, (kept_updated _ _ _ Hk), updated_refl, Hk].
    eapply wpo_weaken; [by apply enter_call_updated; [|apply Hk]|]. intros a' c' Hu. by apply (kept_updated _ _ _ Hk).
  - by apply peek_updated.
  - apply Hfirm. unfold apply_send_key. solve_firm.
  - unfold endorsements_or_devices. apply wpo_quiet_bind; [solve_quiet|]. intros x s1 Hc1. rewrite <- Hc1 in *.
    destruct device_joined_or_left as [[proto|]|]; [|unfold wpo; apply wp_quiet; [solve_quiet|intros []; [by apply updated_refl|done]]..].
    apply wpo_quiet_bind; [solve_quiet|]. intros m s2 Hc2. rewrite <- Hc2 in *.
    destruct (deobfuscate_proto _ _); [by apply peek_updated|].
    unfold wpo; apply wp_quiet; [solve_quiet|intros []; [by apply updated_refl|done]].
  - apply Hfirm. unfold handle_removed_received. solve_firm.
  - apply Hfirm. unfold handle_ice_connection_state_changed. solve_firm.
Qed.

(** *** The actor *)

(** The client has stopped or is about to, because the peer connection refused a change. *)
Definition gave_up (y : Sys) : Prop := Actor.stopped (client y) = true \/ failing (Actor.waiting (client y)).

Definition slots (y : Sys) : list (option DemuxId) := remote_transceiver_demux_ids (Actor.state (client y)).
Definition device_ids (y : Sys) : gset DemuxId := demux_id_set (remote_devices (Actor.state (client y))).

(** What other threads do. *)
Lemma outside_effect y y' :
  outside y y' \/ (exists m, y' = reset m y) ->
  Actor.stopped (client y') = Actor.stopped (client y) /\
  (forall t, t ∈ Actor.waiting (client y) -> t ∈ Actor.waiting (client y')) /\
  exists b, core (Actor.state (client y')) = core (Actor.state (client y)) <| co_busy := b |>.
Proof.
  assert (forall a f l b, core (f (Actor.state a)) = core (Actor.state a) <| co_busy := b |> ->
    Actor.stopped (send_all l (on_state f a)) = Actor.stopped a /\
    (forall t, t ∈ Actor.waiting a -> t ∈ Actor.waiting (send_all l (on_state f a))) /\
    exists b, core (Actor.state (send_all l (on_state f a))) = core (Actor.state a) <| co_busy := b |>) as Hall.
  { intros a f l b Hb. destruct (send_all_spec l (on_state f a)) as (-> & -> & Hd & Hc). split_and!; [done| |by exists b].
    intros t. unfold Actor.waiting. rewrite Hd, Hc. cbn. set_solver. }
  intros [[t a n Hi Hok|env header payload a n s' l Hrtp|plaintext buffer a n
    |now d ciphertext buffer a n|u a n|a n Hb|a n]|[m ->]]; cbn [client].
  - by apply (Hall a id [t] (busy (Actor.state a))).
  - apply (Hall a (fun _ => s') l (busy (Actor.state a))). pose proof (rtp_quiet env header payload (Actor.state a)) as Hq.
    rewrite Hrtp in Hq. exact Hq.
  - apply (Hall a _ [] (busy (Actor.state a))). unfold core. cbn. by rewrite encrypt_media_key.
  - apply (Hall a _ [] (busy (Actor.state a))). unfold core. cbn. by rewrite decrypt_media_key.
  - by apply (Hall a _ [] (busy (Actor.state a))).
  - by apply (Hall a _ [] true).
  - by apply (Hall a _ [] false).
  - by apply (Hall (client y) _ [] false).
Qed.

Lemma run_updated env t s s' l stops :
  task_ok t -> matched (core s) -> run env t s = (s', l, stops) ->
  stops = true \/ failing l \/
  matched (core s') /\ follows_devices (remote_transceiver_demux_ids s) (remote_transceiver_demux_ids s') (ids (core s')).
Proof.
  intros Hok Hm. unfold run. set (s0 := s <| sent := [] |> <| stopped := false |>).
  assert (matched (core s0)) as Hm0 by (destruct Hm; by constructor).
  assert ((exists reason, t = TEnd reason) \/ forall reason, t <> TEnd reason) as [[reason ->]|Hend].
  { destruct t; first [by right|left; eauto]. }
  { destruct (finish_end_runs reason s0) as (_ & Hst & _). cbn [perform].
    destruct (finish_end reason s0) as [s1 r]. cbn in Hst. intros [= <- <- <-]. left. by rewrite Hst. }
  pose proof (perform_updated env t s0 Hok Hend Hm0) as Hpost. unfold wpo, wp in Hpost.
  destruct (perform env t s0) as [s1 [u|[]]]; cbn [fst snd] in Hpost; intros [= <- <- <-];
    [right|left; by rewrite orb_true_r].
  destruct Hpost as [(x & Hx & Ex)|Hu]; [left|by right]. cbn in Hx.
  apply list_elem_of_bind in Hx as (x' & Hx & Hx'). unfold tracked_sent in Hx. destruct (tracked (Actor.task x')); [|by apply not_elem_of_nil in Hx].
  apply list_elem_of_singleton in Hx as ->. by exists x'.
Qed.

Lemma run_fails env reason s s' l stops : run env (TEnd reason) s = (s', l, stops) -> stops = true.
Proof.
  unfold run. destruct (finish_end_runs reason (s <| sent := [] |> <| stopped := false |>)) as (_ & Hst & _). cbn [perform].
  destruct (finish_end reason _) as [s1 r]. cbn in Hst. intros [= <- <- <-]. by rewrite Hst.
Qed.

Lemma act_gave_up y y' : act y y' -> gave_up y -> gave_up y'.
Proof.
  intros [env a a' n Hstep|? ? Hout|? m _ _] [Hst|(t & Ht & E)].
  - left. destruct Hstep; cbn in *; congruence.
  - unfold gave_up. cbn in *. destruct (Actor.stopped a) eqn:Hst; [left; destruct Hstep; cbn in *; congruence|].
    destruct (Actor.step_effect _ _ _ _ _ Hstep Hst) as [(Hw & _)|(x & w & s & sent & stops & Hw & Hrun & Hs & Hw' & Hst')].
    + right. exists t. by rewrite Hw.
    + rewrite Hw in Ht. apply elem_of_cons in Ht as [->|Ht].
      * left. rewrite Hst'. rewrite E in Hrun. by eapply run_fails.
      * right. exists t. rewrite Hw'. set_solver.
  - left. by rewrite (proj1 (outside_effect _ _ (or_introl Hout))).
  - right. exists t. split; [|done]. by apply (proj1 (proj2 (outside_effect _ _ (or_introl Hout)))).
  - by left.
  - right. by exists t.
Qed.

Lemma act_updated y y' :
  act y y' -> sound y -> matched (core (Actor.state (client y))) ->
  gave_up y' \/ matched (core (Actor.state (client y'))) /\ follows_devices (slots y) (slots y') (device_ids y').
Proof.
  intros Ha [Hok _ _] Hm. pose proof (matched_follows _ Hm) as Hf. unfold device_ids. rewrite <- ids_devices.
  assert (outside y y' \/ (exists m, y' = reset m y) ->
    matched (core (Actor.state (client y'))) /\ follows_devices (slots y) (slots y') (ids (core (Actor.state (client y'))))) as Hout.
  { intros Hout. destruct (outside_effect y y' Hout) as (_ & _ & b & Hc). change (slots y') with (co_slots (core (Actor.state (client y')))).
    rewrite Hc. split; [destruct Hm; by constructor|exact Hf]. }
  destruct Ha as [env a a' n Hstep|? ? Ho|? m _ _]; [|right; apply Hout; by left|right; apply Hout; right; by exists m].
  unfold gave_up, slots. cbn [client] in *. destruct (Actor.stopped a) eqn:Hst; [left; left; destruct Hstep; cbn in *; congruence|].
  destruct (Actor.step_effect _ _ _ _ _ Hstep Hst) as [(_ & -> & _)|(x & w & s & sent & stops & Hw & Hrun & -> & Hw' & ->)]; [by right|].
  rewrite Hw in Hok. apply Forall_cons in Hok as [Hok _].
  destruct (run_updated _ _ _ _ _ _ Hok Hm Hrun) as [->|[(x' & Hx' & E)|Hu]]; [by left; left|left; right|by right].
  exists x'. rewrite Hw'. set_solver.
Qed.

Lemma reachable_matched y : reachable y -> gave_up y \/ matched (core (Actor.state (client y))).
Proof.
  induction 1 as [secret y Hi|y y' Hr [IH|IH] Ha].
  - right. destruct Hi as (now & group & kind & taken & ring & levels & members & key & cache & ufrag & pwd & uuid & s & Hs & -> & _).
    unfold start in Hs. destruct (Stream.with_capacity_limit _) as [st|]; [|done]. cbn in Hs. injection Hs as <-.
    constructor; [constructor|done|done].
  - left. by eapply act_gave_up.
  - destruct (act_updated _ _ Ha (reachable_sound _ Hr) IH) as [|[? _]]; auto.
Qed.

(** C19. In every run of a client, whatever the closures and other threads do: as long as the
    peer connection accepts the changes, so that the client neither stops nor is about to stop for
    this reason, after each step every remote device has exactly one transceiver and no other device has one;
    a device that stays in the call keeps its transceiver, and free transceivers are
    reused before new ones are made. *)
Theorem transceivers_follow_the_devices y y' :
  reachable y -> act y y' ->
  Actor.stopped (client y') = false -> ~ failing (Actor.waiting (client y')) ->
  follows_devices (slots y) (slots y') (device_ids y').
Proof.
  intros Hr Ha Hst Hf.
  assert (~ gave_up y') as Hno by (intros [Hx|Hx]; [congruence|done]).
  destruct (reachable_matched _ Hr) as [Hg|Hm]; [by destruct Hno; eapply act_gave_up|].
  by destruct (act_updated _ _ Ha (reachable_sound _ Hr) Hm) as [|[_ ?]].
Qed.

(** ** Messages that are ready together *)

(** When a reliable message makes several messages ready and one of them carries content,
    the messages behind it are lost: what the closure does does not depend on them, while
    the stream has moved past them. *)
Theorem messages_behind_content_are_lost env mrp header msg s st l1 h m content l2 :
  Stream.receive_and_merge (sfu_reliable_stream s) mrp (header, msg) = Val (st, Ok (l1 ++ (h, m) :: l2)) ->
  Forall (fun p => s2d_content p.2 = None) l1 -> s2d_content m = Some content ->
  handle_reliable_sfu_to_device env mrp header msg s =
    handle_ready_packets env (l1 ++ [(h, m)]) (s <| sfu_reliable_stream := st |>).
Proof.
  intros Hr Hl1 Hm. unfold handle_reliable_sfu_to_device.
  rewrite (ST_bind_run _ _ _ (s <| sfu_reliable_stream := st |>) (Ok (l1 ++ (h, m) :: l2))).
  - clear Hr. generalize (s <| sfu_reliable_stream := st |>). induction Hl1 as [|[h1 m1] l1 Hc _ IH]; intros s1;
      cbn [app handle_ready_packets]; [by rewrite Hm|]. cbn in Hc. rewrite Hc. unfold mbind, ST_bind.
    destruct (for_each _ _ s1) as [s2 [u|e]]; [apply IH|done].
  - unfold on_stream. rewrite Hr. done.
Qed.

End Devices.
End GroupDevices.
