(* ===== verification/GroupExamples.v ===== *)
(** * Group calls that run

    A toy cipher and small calls: the hypotheses of the theorems on group calls hold in
    them, and the two faults that the theorems describe occur in them. *)

From S2P Require Import Prelude States Signaling ConnectionTypes Connection ConnectionStart CallManager.
From S2P Require Import MrpWindow MrpMerge MrpStream FrameCrypto FrameFormat Endorsements Actor GroupTypes GroupCall.
From S2P Require Import GroupSystem GroupQuiet GroupStates GroupDiagram GroupKeys GroupDevices.
From stdpp Require Import relations.
Local Open Scope Z_scope.
Local Open Scope ringrtc_scope.

Module GroupExamples.
Import GroupTypes GroupCall GroupSystem GroupStates GroupDiagram GroupKeys GroupDevices.
Import ConnectionStart.Toy.

(** ** Toy parameters *)

(** A secret keeps its first byte when it is expanded. *)
#[local] Instance chain_cipher : FrameCipher := {|
  FrameCrypto.hkdf_expand secret info := secret ++ [zlen info];
  apply_keystream key iv data := data;
  hmac key data := replicate 32 0;
|}.

#[local] Instance toy_hash : GroupHash := {|
  sha256_as_hexstring _ := ""%string;
  hex_encode _ := ""%string;
  default_hasher u := zlen u;
  truncated_hash _ := 1;
|}.

#[local] Instance toy_zk : ZkEndorsement := {|
  GroupSendEndorsement := unit;
  GroupSendFullToken := unit;
  CallLinkSecretParams := unit;
  full_token _ _ _ := tt;
|}.

#[local] Instance toy_response : ZkResponse := {|
  EndorsementPublicKey := unit;
  GroupSendEndorsementsResponse := unit;
  UuidCiphertext := unit;
  deserialize_response _ := None;
  response_expiration _ := 0;
  deserialize_ciphertext _ := None;
  receive_with_ciphertexts _ _ _ _ := None;
|}.

#[local] Instance d2d_codec : Codec DeviceToDevice := {| pb_encode _ := [1]; pb_decode _ := None |}.
#[local] Instance d2s_codec : Codec DeviceToSfu := {| pb_encode _ := [2]; pb_decode _ := None |}.
#[local] Instance s2d_codec : Codec SfuToDevice :=
  {| pb_encode _ := [3]; pb_decode _ := Some (default_s2d <| s2d_removed := true |>) |}.

(** The secret drawn by the [n]th step starts with [n]. *)
Definition secret_of (n : nat) : FrameCrypto.Secret := [Z.of_nat n].
Definition env_at (now : Z) (n : nat) : Env :=
  mkEnv now 0 (fun _ => Ok tt) (0, []) (DataRate.from_kbps 100) false (secret_of n) 5 (fun l => l) (fun l => l).

Fixpoint secrets (n : nat) : list FrameCrypto.Secret :=
  match n with O => [] | S n => secret_of n :: secrets n end.

Lemma chain_head (a b : FrameCrypto.Secret) x : chain a b -> head a = Some x -> head b = Some x.
Proof.
  intros [n <-] Ha. induction n as [|n IH]; [done|].
  change (head (Nat.iter n ratchet a ++ [zlen FrameCrypto.RATCHET_INFO_STRING]) = Some x).
  by destruct (Nat.iter n ratchet a).
Qed.

Lemma secret_apart n : Forall (apart (secret_of n)) (secrets n).
Proof.
  assert (forall m, (m <= n)%nat -> Forall (apart (secret_of n)) (secrets m)) as Hm; [|by apply Hm].
  induction m as [|m IH]; intros Hle; cbn; constructor; [|apply IH; lia].
  intros k Hn Hk. apply (chain_head _ _ (Z.of_nat n)) in Hn; [|done].
  apply (chain_head _ _ (Z.of_nat m)) in Hk; [|done]. rewrite Hn in Hk. injection Hk. lia.
Qed.

(** ** Running an actor *)

Notation Client := (Actor.Actor State Task).

Definition can_run (a : Client) : bool := Actor.running a && negb (Actor.stopped a).

Definition one (now : Z) (n : nat) (a : Client) : Client :=
  match Actor.channel a with
  | [] => a
  | t :: l =>
    if Actor.is_delayed t then a <| Actor.channel := l |> <| Actor.delayed_tasks := Actor.delayed_tasks a ++ [t] |>
    else Actor.run_task run (env_at now n) (Actor.task t) (a <| Actor.channel := l |>)
  end.

Fixpoint drain (fuel : nat) (now : Z) (n : nat) (a : Client) : Client * nat :=
  match fuel with
  | O => (a, n)
  | S fuel =>
    match Actor.channel a with
    | [] => (a, n)
    | _ => if can_run a then drain fuel now (S n) (one now n a) else (a, n)
    end
  end.

Lemma one_fresh now n a b :
  Actor.channel a <> [] -> can_run a = true -> fresh_run (secrets n) (mkSys a b) ->
  fresh_run (secrets (S n)) (mkSys (one now n a) b).
Proof.
  unfold can_run. intros Hc [Hr Hs%negb_true_iff]%andb_true_iff Hf.
  apply (fresh_actor _ (env_at now n) a); [done| |apply secret_apart].
  unfold one. destruct (Actor.channel a) as [|t l] eqn:Hch; [done|].
  destruct (Actor.is_delayed t) eqn:Hd; [by eapply Actor.step_push|by eapply Actor.step_run].
Qed.

Lemma drain_fresh fuel now n a b :
  fresh_run (secrets n) (mkSys a b) ->
  fresh_run (secrets (drain fuel now n a).2) (mkSys (drain fuel now n a).1 b).
Proof.
  revert n a. induction fuel as [|fuel IH]; intros n a Hf; cbn [drain]; [done|].
  destruct (Actor.channel a) as [|t l] eqn:Hc; [done|]. destruct (can_run a) eqn:Hr; [|done].
  apply IH, one_fresh; [by rewrite Hc|done..].
Qed.

(** Send a closure and run what there is. *)
Definition tell (now : Z) (t : Task) (x : Client * nat) : Client * nat :=
  drain 20 now x.2 (Actor.send (Actor.immediate t) x.1).

Lemma tell_fresh now t x b :
  internal t = false -> task_ok t -> fresh_run (secrets x.2) (mkSys x.1 b) ->
  fresh_run (secrets (tell now t x).2) (mkSys (tell now t x).1 b).
Proof. intros Hi Hok Hf. apply drain_fresh. eapply fresh_outside; [exact Hf|]. by constructor. Qed.

Definition script (l : list Task) (x : Client * nat) : Client * nat := fold_left (fun x t => tell 0 t x) l x.

Lemma script_fresh l x b :
  Forall (fun t => internal t = false /\ task_ok t) l -> fresh_run (secrets x.2) (mkSys x.1 b) ->
  fresh_run (secrets (script l x).2) (mkSys (script l x).1 b).
Proof.
  intros Hl. revert x. induction Hl as [|t l [Hi Ht] _ IH]; intros x Hf; [done|].
  apply IH. by apply tell_fresh.
Qed.

(** The same runs as sequences of steps in which the manager is not reset. *)
Lemma one_acts P now n a b :
  Actor.channel a <> [] -> can_run a = true -> act_with P (mkSys a b) (mkSys (one now n a) b).
Proof.
  unfold can_run, one. intros Hc [Hr Hs%negb_true_iff]%andb_true_iff. apply act_actor with (env_at now n).
  destruct (Actor.channel a) as [|t l] eqn:Hch; [done|].
  destruct (Actor.is_delayed t) eqn:Hd; [by eapply Actor.step_push|by eapply Actor.step_run].
Qed.

Lemma drain_acts P fuel now n a b : rtc (act_with P) (mkSys a b) (mkSys (drain fuel now n a).1 b).
Proof.
  revert n a. induction fuel as [|fuel IH]; intros n a; cbn [drain]; [apply rtc_refl|].
  destruct (Actor.channel a) as [|t l] eqn:Hc; [apply rtc_refl|]. destruct (can_run a) eqn:Hr; [|apply rtc_refl].
  eapply rtc_l; [|apply IH]. apply one_acts; [by rewrite Hc|done].
Qed.

Lemma script_acts P l x b :
  Forall (fun t => internal t = false /\ task_ok t) l -> rtc (act_with P) (mkSys x.1 b) (mkSys (script l x).1 b).
Proof.
  intros Hl. revert x. induction Hl as [|t l [Hi Ht] _ IH]; intros x; [apply rtc_refl|].
  eapply rtc_l; [by apply act_outside, out_send|]. etrans; [apply drain_acts|apply IH].
Qed.

(** ** A call *)

Definition alice : UserId := [1].
Definition bob : UserId := [2].
Definition carol : UserId := [3].

Definition begin_with (n : nat) : outcome State :=
  start 0 [9] SignalGroup false (Some alice) None None [] None None "u" "p" (secret_of n).

Definition value_of {A : Type} (o : outcome A) : match o return Type with Val _ => A | Panic => unit end :=
  match o with Val a => a | Panic => tt end.
Definition first_state : State := value_of (begin_with 0).

Definition first_client : Client := Actor.mkActor (first_state <| sent := [] |>) (sent first_state) [] false true.

Lemma first_initial : initial (secret_of 0) (mkSys first_client 0).
Proof.
  exists 0, [9], SignalGroup, false, None, None, [], None, None, "u"%string, "p"%string, (Some alice), first_state.
  split; [reflexivity|]. split; [reflexivity|]. intros Hx. discriminate Hx.
Qed.

Lemma first_fresh : fresh_run (secrets 1) (mkSys first_client 0).
Proof. apply fresh_start, first_initial. Qed.

Definition sfu : SfuInfo := mkSfuInfo [([1], 2)] [] [] None "u" "p".
Definition response (j : JoinState) (d : DemuxId) : result JoinedInfo Error :=
  Ok (mkJoined sfu d (replicate 32 7) [] None "" j).
Definition peek (l : list (DemuxId * UserId)) : Task :=
  TPeekResult (Ok (mkPeekInfo ((fun '(d, u) => mkPeekDevice d (Some u)) <$> l) [] None None None)).

Definition play (l : list Task) : Client * nat := script l (drain 20 0 1 first_client).
Definition played (l : list Task) : Sys := mkSys (play l).1 0.
Notation state_after l := (Actor.state (client (played l))).

Lemma play_fresh l :
  Forall (fun t => internal t = false /\ task_ok t) l -> fresh_run (secrets (play l).2) (played l).
Proof. intros Hl. apply script_fresh; [done|]. apply drain_fresh, first_fresh. Qed.

Lemma play_acts P l :
  Forall (fun t => internal t = false /\ task_ok t) l -> rtc (act_with P) (mkSys first_client 0) (played l).
Proof. intros Hl. etrans; [apply (drain_acts P 20 0 1)|by apply script_acts]. Qed.

Ltac script_ok := repeat (constructor; [split; [reflexivity|first [exact I|left; reflexivity|right; reflexivity]]|]); constructor.

(** Alice is in the call with Bob and Carol; then Bob is gone. *)
Definition bob_leaves : list Task :=
  [TConnect; TJoin; TJoinAttemptCompleted (response (Joined 11) 11);
   peek [(11, alice); (22, bob); (33, carol)]; peek [(11, alice); (33, carol)]].

Lemma bob_leaves_fresh : fresh_run (secrets (play bob_leaves).2) (played bob_leaves).
Proof. apply play_fresh. script_ok. Qed.

(** Then Carol is gone too, before the rotation is over. *)
Definition carol_leaves : list Task := bob_leaves ++ [peek [(11, alice)]].

Lemma carol_leaves_fresh : fresh_run (secrets (play carol_leaves).2) (played carol_leaves).
Proof. apply play_fresh. script_ok. Qed.

Lemma in_the_call l :
  (outputs (state_after l) ≫= told) = [ToldConnection Connecting; ToldJoin Joining; ToldJoin (Joined 11)] ->
  ToldJoin (NotJoined None) ∉ (outputs (state_after l) ≫= told).
Proof. intros ->. rewrite !elem_of_cons, elem_of_nil. intros [Hx|[Hx|[Hx|Hx]]]; [discriminate Hx..|exact Hx]. Qed.

(** Bob has been given the secret that is in use, and a rotation is under way.  If Carol leaves
    meanwhile, another one follows. *)
Lemma former_members_lose_the_key_witness :
  (let s := state_after bob_leaves in
   bob ∉ joined_members s /\ exists p e t, media_send_key_rotation_state s = PendingRotation p false /\
     t ∈ Actor.waiting (client (played bob_leaves)) /\ Actor.task t = TApplySendKey p e /\ only_members_know p s) /\
  (let s := state_after carol_leaves in let n := (play carol_leaves).2 in
   bob ∉ joined_members s /\ exists p e t s' sent', media_send_key_rotation_state s = PendingRotation p true /\
     t ∈ Actor.waiting (client (played carol_leaves)) /\ Actor.task t = TApplySendKey p e /\
     run (env_at 0 n) (Actor.task t) s = (s', sent', false) /\
     media_send_key_rotation_state s' = PendingRotation (secret_of n) false /\ only_members_know (secret_of n) s').
Proof.
  split; cbv zeta.
  - assert ((bob, (Some 1, Some [0; 15])) ∈ (outputs (state_after bob_leaves) ≫= keys_given)) as Hin.
    { apply (bool_decide_unpack _). vm_compute. exact I. }
    assert (bob ∉ joined_members (state_after bob_leaves)) as Hout.
    { apply (bool_decide_unpack _). vm_compute. exact I. }
    split; [exact Hout|].
    destruct (former_members_lose_the_key _ (played bob_leaves) bob_leaves_fresh ltac:(vm_compute; reflexivity)
      (in_the_call bob_leaves ltac:(vm_compute; reflexivity)) bob (Some 1) [0; 15] Hin
      ltac:(exists 0%nat; vm_compute; reflexivity)) as [Hm|(p & again & e & t & Hrot & Hw & Ht & Hno & _)]; [destruct (Hout Hm)|].
    destruct again; [exfalso; vm_compute in Hrot; discriminate Hrot|].
    exists p, e, t. exact (conj Hrot (conj Hw (conj Ht (Hno eq_refl)))).
  - assert ((bob, (Some 1, Some [0; 15])) ∈ (outputs (state_after carol_leaves) ≫= keys_given)) as Hin.
    { apply (bool_decide_unpack _). vm_compute. exact I. }
    assert (bob ∉ joined_members (state_after carol_leaves)) as Hout.
    { apply (bool_decide_unpack _). vm_compute. exact I. }
    split; [exact Hout|].
    destruct (former_members_lose_the_key _ (played carol_leaves) carol_leaves_fresh ltac:(vm_compute; reflexivity)
      (in_the_call carol_leaves ltac:(vm_compute; reflexivity)) bob (Some 1) [0; 15] Hin
      ltac:(exists 0%nat; vm_compute; reflexivity)) as [Hm|(p & again & e & t & Hrot & Hw & Ht & _ & Hagain)]; [destruct (Hout Hm)|].
    destruct again; [|exfalso; vm_compute in Hrot; discriminate Hrot].
    destruct (Hagain eq_refl (env_at 0 (play carol_leaves).2) (secret_apart _)) as (s' & sent' & Hrun & Hrot' & _ & Honly).
    exists p, e, t, s', sent'. exact (conj Hrot (conj Hw (conj Ht (conj Hrun (conj Hrot' Honly))))).
Defined.

Lemma told_states_follow_the_diagrams_witness :
  let s := state_after bob_leaves in
  exists l c j, told_history (played bob_leaves) l c j /\
    ((outputs s ≫= told) = l /\ connection_state s = c \/
     exists reason k, (outputs s ≫= told) = l ++ [ToldConnection NotConnected; ToldEnded reason] /\
       connection_state s = NotConnected /\ Actor.stopped (client (played bob_leaves)) = true /\
       outputs s = k ++ [ToObserver (HandleEnded reason)] /\
       forall y', rtc act (played bob_leaves) y' -> outputs (Actor.state (client y')) = outputs s).
Proof. exact (told_states_follow_the_diagrams (played bob_leaves) (fresh_reachable _ _ bob_leaves_fresh)). Defined.

(** Alice joins while nobody else has a call. *)
Lemma busy_held_while_in_call_witness :
  let s := state_after bob_leaves in
  (in_call (join_state s) = true \/ others (played bob_leaves) <> 0%nat) /\
  busy s = in_call (join_state s) || negb (others (played bob_leaves) =? 0)%nat /\ join_state s = Joined 11.
Proof.
  cbv zeta. split; [|split; [|vm_compute; reflexivity]].
  - apply (proj1 busy_held_while_in_call (played bob_leaves) (fresh_reachable _ _ bob_leaves_fresh)). vm_compute. reflexivity.
  - apply (proj2 busy_held_while_in_call (secret_of 0) (mkSys first_client 0) (played bob_leaves) first_initial).
    + split; [reflexivity|]. cbn. lia.
    + apply play_acts. script_ok.
Defined.

(** ** Joining again *)

(** Bob is gone while Alice is out of the call for a moment. *)
Definition bob_leaves_meanwhile : list Task :=
  [TConnect; TJoin; TJoinAttemptCompleted (response (Joined 11) 11);
   peek [(11, alice); (22, bob); (33, carol)]; TLeave; peek [(33, carol)];
   TJoin; TJoinAttemptCompleted (response (Joined 12) 12); peek [(12, alice); (33, carol)]].

(** A client that leaves and joins again does not rotate its secret for the users who left
    in between: Bob can still compute the secret in use, he is not in the call, the device
    is, and no rotation is under way. *)
Theorem rejoining_keeps_the_key_of_former_members :
  exists l y u rc k, let s := Actor.state (client y) in
    fresh_run l y /\ Actor.stopped (client y) = false /\ is_joined (join_state s) = true /\
    media_send_key_rotation_state s = Applied /\ u ∉ joined_members s /\
    (u, (rc, Some k)) ∈ (outputs s ≫= keys_given) /\
    chain k (FrameCrypto.send_state (frame_crypto_context s)).2.
Proof.
  exists (secrets (play bob_leaves_meanwhile).2), (played bob_leaves_meanwhile), bob, (Some 1), [0; 15].
  cbv zeta. split_and!.
  - apply play_fresh. script_ok.
  - vm_compute. reflexivity.
  - vm_compute. reflexivity.
  - vm_compute. reflexivity.
  - apply (bool_decide_unpack _). vm_compute. exact I.
  - apply (bool_decide_unpack _). vm_compute. exact I.
  - exists 0%nat. vm_compute. reflexivity.
Qed.

(** Alice disconnects; the closure that stops her client waits behind the next tick in the heap. *)
Definition disconnected : list Task :=
  [TConnect; TJoin; TJoinAttemptCompleted (response (Joined 11) 11); TDisconnect].
Notation last_task := (Actor.delayed 0 (TEnd CallEndReason.DeviceExplicitlyDisconnected) CLIENT_END_DELAY).

Lemma busy_is_lost_with_a_stopped_client_witness :
  exists y', rtc (act_with never) (played disconnected) y' /\
    Actor.stopped (client y') = true /\ join_state (Actor.state (client y')) = Joining /\
    forall y'', rtc (act_with never) y' y'' -> busy (Actor.state (client y'')) = true.
Proof.
  apply (busy_is_lost_with_a_stopped_client (played disconnected) last_task CallEndReason.DeviceExplicitlyDisconnected
    (take 1 (Actor.delayed_tasks (client (played disconnected)))) []) with (env := env_at 0 0) (env' := env_at (ms 20) 0).
  1-3: vm_compute; reflexivity.
  - exists None. vm_compute. reflexivity.
  - vm_compute. reflexivity.
  - reflexivity.
  - vm_compute. reflexivity.
  - split; [apply (list_elem_of_lookup_2 _ 1); vm_compute; reflexivity|]. apply Forall_forall, (bool_decide_unpack _). vm_compute. exact I.
  - reflexivity.
  - vm_compute. reflexivity.
Defined.

(** ** Transceivers *)

Lemma no_end_waits l :
  forallb (fun t => match Actor.task t with TEnd _ => false | _ => true end) l = true -> ~ failing l.
Proof.
  rewrite forallb_forall. intros Hl (t & Ht & E). specialize (Hl t (proj1 (list_elem_of_In _ _) Ht)). by rewrite E in Hl.
Qed.

(** After Bob has left, another device of his is in the call: it gets the free transceiver. *)
Definition before_return : Client :=
  Actor.send (Actor.immediate (peek [(11, alice); (33, carol); (44, bob)])) (play bob_leaves).1.
Definition after_return : Client := one 0 (play bob_leaves).2 before_return.

Lemma transceivers_follow_the_devices_witness :
  slots (mkSys before_return 0) = [Some 33; None] /\ slots (mkSys after_return 0) = [Some 33; Some 44] /\
  follows_devices (slots (mkSys before_return 0)) (slots (mkSys after_return 0)) (device_ids (mkSys after_return 0)).
Proof.
  split; [vm_compute; reflexivity|]. split; [vm_compute; reflexivity|].
  apply transceivers_follow_the_devices.
  - eapply reach_act; [exact (fresh_reachable _ _ bob_leaves_fresh)|]. apply act_outside, out_send; [reflexivity|exact I].
  - apply one_acts; [vm_compute; discriminate|vm_compute; reflexivity].
  - vm_compute. reflexivity.
  - apply no_end_waits. vm_compute. reflexivity.
Defined.

(** ** Reliable messages *)

Definition rtp_header : RtpHeader := mkRtpHeader GROUP_RTP_DATA_PAYLOAD_TYPE 1 1 RTP_DATA_TO_SFU_SSRC.
Definition removed : SfuToDevice := default_s2d <| s2d_removed := true |>.
Definition with_content : SfuToDevice := default_s2d <| s2d_content := Some [3] |>.

(** The second message arrives before the first one, which carries content. *)
Definition out_of_order : list Task :=
  [TReliableSfuToDevice (mkMrpHeader (Some 2) None None) rtp_header removed].
Definition received :=
  Stream.receive_and_merge (sfu_reliable_stream (state_after out_of_order)) (mkMrpHeader (Some 1) None None)
    (rtp_header, with_content).
Definition stream_after := match received with Val (st, _) => st | Panic => sfu_reliable_stream first_state end.

Lemma messages_behind_content_are_lost_witness :
  Stream.ack_seqnum stream_after = 3 /\
  handle_reliable_sfu_to_device (env_at 0 0) (mkMrpHeader (Some 1) None None) rtp_header with_content
    (state_after out_of_order) =
  handle_ready_packets (env_at 0 0) ([] ++ [(rtp_header, with_content)])
    (state_after out_of_order <| sfu_reliable_stream := stream_after |>).
Proof.
  split; [vm_compute; reflexivity|].
  apply (messages_behind_content_are_lost (env_at 0 0) (mkMrpHeader (Some 1) None None) rtp_header with_content
    (state_after out_of_order) stream_after [] rtp_header with_content [3] [(rtp_header, removed)]).
  - vm_compute. reflexivity.
  - constructor.
  - reflexivity.
Defined.

End GroupExamples.
