(* ===== verification/Base16.v ===== *)
(** * Text and "consonant base 16" (src/rust/src/lite/call_links/base16.rs)

    The keys of call links are shown to users in an alphabet of sixteen lowercase
    consonants, two per byte, in groups with a dash in between.  This file has the
    bytes of Rust's strings, the printer and the parser, the grammar of what the
    parser accepts and the proof that it is that. *)

From S2P Require Import Prelude.
From stdpp Require Import strings.
Local Open Scope Z_scope.
Local Open Scope ringrtc_scope.

(** ** Strings

    A [String] or [&str] is its bytes in UTF-8. *)
Module Text.

Definition byte_of_ascii (a : Ascii.ascii) : Z := Z.of_N (Ascii.N_of_ascii a).
Definition ascii_of_byte (b : Z) : Ascii.ascii := Ascii.ascii_of_N (Z.to_N b).

Definition as_bytes (s : string) : list Z := byte_of_ascii <$> String.list_ascii_of_string s.
Definition of_bytes (l : list Z) : string := String.string_of_list_ascii (ascii_of_byte <$> l).

(** A value of [u8]. *)
Definition is_byte (b : Z) : Prop := 0 <= b < 256.

(** [std::str::from_utf8]: which bytes can follow which first byte. *)
Definition is_continuation (b : Z) : bool := (128 <=? b) && (b <? 192).
Definition in_range (lo hi b : Z) : bool := (lo <=? b) && (b <=? hi).

Definition second_byte (first second : Z) : bool :=
  if first =? 0xE0 then in_range 0xA0 0xBF second
  else if first =? 0xED then in_range 0x80 0x9F second
  else if first =? 0xF0 then in_range 0x90 0xBF second
  else if first =? 0xF4 then in_range 0x80 0x8F second
  else is_continuation second.

Fixpoint valid_utf8 (l : list Z) : bool :=
  match l with
  | [] => true
  | b0 :: l =>
    if b0 <? 128 then valid_utf8 l
    else match l with
    | b1 :: l =>
      if negb (second_byte b0 b1) then false
      else if in_range 0xC2 0xDF b0 then valid_utf8 l
      else match l with
      | b2 :: l =>
        if negb (is_continuation b2) then false
        else if in_range 0xE0 0xEF b0 then valid_utf8 l
        else match l with
        | b3 :: l =>
          is_continuation b3 && in_range 0xF0 0xF4 b0 && valid_utf8 l
        | [] => false
        end
      | [] => false
      end
    | [] => false
    end
  end.

(** [String::from_utf8]. *)
Definition from_utf8 (l : list Z) : option string :=
  if valid_utf8 l then Some (of_bytes l) else None.

(** [str::is_char_boundary]. *)
Definition is_char_boundary (l : list Z) (position : Z) : bool :=
  if position =? zlen l then true
  else match l !! Z.to_nat position with
       | Some b => negb (is_continuation b)
       | None => false
       end.

(** The first character, [chars().next()]. *)
Definition first_char (l : list Z) : option Z :=
  match l with
  | [] => None
  | x :: rest =>
    let next i := Z.land (default 0 (rest !! i)) 0x3F in
    Some (if x <? 128 then x
          else if x <? 0xE0 then Z.lor (Z.shiftl (Z.land x 0x1F) 6) (next 0%nat)
          else if x <? 0xF0 then
            Z.lor (Z.shiftl (Z.land x 0x0F) 12) (Z.lor (Z.shiftl (next 0%nat) 6) (next 1%nat))
          else Z.lor (Z.shiftl (Z.land x 0x07) 18)
                 (Z.lor (Z.shiftl (next 0%nat) 12) (Z.lor (Z.shiftl (next 1%nat) 6) (next 2%nat))))
  end.

Lemma byte_ascii b : is_byte b -> byte_of_ascii (ascii_of_byte b) = b.
Proof.
  unfold is_byte, byte_of_ascii, ascii_of_byte. intros. rewrite Ascii.N_ascii_embedding; lia.
Qed.

Lemma as_bytes_of_bytes l : Forall is_byte l -> as_bytes (of_bytes l) = l.
Proof.
  unfold as_bytes, of_bytes. rewrite String.list_ascii_of_string_of_list_ascii.
  induction 1 as [|b l Hb _ IH]; [done|]. rewrite !fmap_cons, byte_ascii, IH by done. done.
Qed.

Lemma of_bytes_as_bytes s : of_bytes (as_bytes s) = s.
Proof.
  unfold as_bytes, of_bytes. rewrite <- list_fmap_compose.
  rewrite (list_fmap_ext _ id); [by rewrite list_fmap_id, String.string_of_list_ascii_of_string|].
  intros i a _. unfold compose, ascii_of_byte, byte_of_ascii.
  by rewrite N2Z.id, Ascii.ascii_N_embedding.
Qed.

Lemma as_bytes_are_bytes s : Forall is_byte (as_bytes s).
Proof.
  unfold as_bytes. apply Forall_fmap, Forall_true. intros a. unfold compose, is_byte, byte_of_ascii.
  pose proof (Ascii.N_ascii_bounded a). lia.
Qed.

Lemma as_bytes_app s1 s2 : as_bytes (s1 +:+ s2) = as_bytes s1 ++ as_bytes s2.
Proof. unfold as_bytes. induction s1 as [|a s1 IH]; [done|].
  change (String a s1 +:+ s2) with (String a (s1 +:+ s2)). cbn. f_equal. exact IH.
Qed.

(** A string that starts with an ASCII character has a character boundary behind it. *)
Lemma valid_utf8_ascii b l : b < 128 -> valid_utf8 (b :: l) = valid_utf8 l.
Proof. intros. cbn. zcases; [done|lia]. Qed.

Lemma valid_utf8_head b l : valid_utf8 (b :: l) = true -> is_continuation b = false.
Proof.
  destruct (is_continuation b) eqn:Hc; [|done]. unfold is_continuation in Hc.
  rewrite andb_true_iff, Z.leb_le, Z.ltb_lt in Hc. cbn.
  assert (Hr : forall lo hi, 192 <= lo -> in_range lo hi b = false).
  { intros. unfold in_range. destruct (Z.leb_spec lo b); [lia|done]. }
  rewrite !(Hr _ _) by lia.
  destruct (Z.ltb_spec b 128); [lia|].
  destruct l as [|b1 [|b2 [|b3 l]]]; try done.
  all: repeat case_match; try done; by rewrite andb_false_r.
Qed.

End Text.

(** ** The printer and the parser *)
Module Base16.
Import Text.

Definition ALPHABET : list Z := as_bytes "bcdfghkmnpqrstxz".
Definition SKIP_ALPHABET : list Z := as_bytes "-".

(** [Base16Table::new]: two nested loops over the alphabet. *)
Definition Base16Table_new (alphabet : list Z) : list (list Z) :=
  i ← seq 0 16; j ← seq 0 16; [[nth i alphabet 0; nth j alphabet 0]].

Definition TABLE : list (list Z) := Base16Table_new ALPHABET.

(** [Index<u8>] of the table, which has 256 entries. *)
Definition index (b : Z) : list Z := nth (Z.to_nat b) TABLE [].

(** [slice::chunks]: pieces of [size] elements, the last one may be shorter.  [room]
    is how many fit into the current piece. *)
Fixpoint chunks_from (size room : Z) (piece l : list Z) : list (list Z) :=
  match l with
  | [] => if bool_decide (piece = []) then [] else [piece]
  | b :: l =>
    if room =? 1 then (piece ++ [b]) :: chunks_from size size [] l
    else chunks_from size (room - 1) (piece ++ [b]) l
  end.
Definition chunks (size : Z) (l : list Z) : list (list Z) := chunks_from size size [] l.

(** The loop of [Display::fmt]. *)
Fixpoint write_chunks (fill : Z) (is_first : bool) (l : list (list Z)) : list Z :=
  match l with
  | [] => []
  | chunk :: l => (if is_first then [] else [fill]) ++ (chunk ≫= index) ++ write_chunks fill false l
  end.

(** [Display::fmt] with a precision and a fill; [chunks] panics if the size is 0. *)
Definition fmt (precision : option Z) (fill : Z) (bytes : list Z) : outcome (list Z) :=
  let size := default USIZE_MAX precision in
  _ ← assert (negb (size =? 0));
  Val (write_chunks fill true (chunks size bytes)).

Inductive DecodeError : Type :=
| OddLengthInput
| MissingSeparator (position : Z)
| UnexpectedSeparator (position : Z)
| BadCharacter (position : Z) (bad_char : Z).

(** The closure [identify_bad_char]; [rest] is what the iterator has left.  Slicing
    panics inside of a character, [expect] at the end of the string. *)
Definition identify_bad_char (string rest : list Z) : outcome DecodeError :=
  let position := zlen string - (zlen rest + 1) in
  _ ← assert (is_char_boundary string position);
  bad_char ← unwrap (first_char (drop (Z.to_nat position) string));
  Val (if (bad_char <? 128) && bool_decide (bad_char ∈ SKIP_ALPHABET)
       then UnexpectedSeparator position
       else BadCharacter position bad_char).

(** [iter().position(|b| b == first)]. *)
Definition position (b : Z) (l : list Z) : option Z :=
  Z.of_nat ∘ fst <$> list_find (eq b) l.

(** The [while] loop: [sizes] and [bytes] are what the two iterators have left. *)
Fixpoint parse_loop (string : list Z) (sizes : list Z) (count_until_separator : Z)
    (result : list Z) (bytes : list Z) : outcome (Prelude.result (list Z) DecodeError) :=
  match bytes with
  | [] => Val (Ok result)
  | first :: bytes =>
    if count_until_separator =? 0 then
      if negb (bool_decide (first ∈ SKIP_ALPHABET)) then
        Val (Err (MissingSeparator (zlen string - (zlen bytes + 1))))
      else if zlen bytes =? 0 then Val (Err (UnexpectedSeparator (zlen string - 1)))
      else match sizes with
           | chunk_size :: sizes => parse_loop string sizes chunk_size result bytes
           | [] => Val (Ok result)
           end
    else
      match position first ALPHABET with
      | None => e ← identify_bad_char string bytes; Val (Err e)
      | Some upper =>
        match bytes with
        | [] => Val (Err OddLengthInput)
        | second :: bytes =>
          match position second ALPHABET with
          | None => e ← identify_bad_char string bytes; Val (Err e)
          | Some lower =>
            parse_loop string sizes (count_until_separator - 1)
              (result ++ [wrap 8 (wrap 8 (Z.shiftl upper 4) + lower)]) bytes
          end
        end
      end
  end.

Definition parse_with_separators (string : string) (chunk_sizes : list Z)
  : outcome (result (list Z) DecodeError) :=
  match chunk_sizes with
  | [] => Val (Ok [])
  | chunk_size :: sizes => parse_loop (as_bytes string) sizes chunk_size [] (as_bytes string)
  end.

Definition parse (string : string) : outcome (result (list Z) DecodeError) :=
  parse_with_separators string [USIZE_MAX].

(** The cases of the tests of base16.rs. *)
Example parse_tests :
  fmt None 32 [0xFE; 0xDC; 0xBA; 0x98; 0x76; 0x54; 0x32; 0x10] = Val (as_bytes "zxtsrqpnmkhgfdcb") /\
  fmt (Some 2) 45 [0xFE; 0xDC; 0xBA; 0x98; 0x76; 0x54; 0x32; 0x10] = Val (as_bytes "zxts-rqpn-mkhg-fdcb") /\
  fmt (Some 6) 45 [0xFE; 0xDC; 0xBA; 0x98; 0x76; 0x54; 0x32; 0x10] = Val (as_bytes "zxtsrqpnmkhg-fdcb") /\
  parse "bcd" = Val (Err OddLengthInput) /\
  parse_with_separators "bc-c" [1; 1] = Val (Err OddLengthInput) /\
  parse_with_separators "bc-dfbc-df" [1; 1; 1] = Val (Err (MissingSeparator 5)) /\
  parse_with_separators "bc-" [1] = Val (Err (UnexpectedSeparator 2)) /\
  parse_with_separators "bc-d-f" [1; 1] = Val (Err (UnexpectedSeparator 4)) /\
  parse_with_separators "bc-df" [2] = Val (Err (UnexpectedSeparator 2)) /\
  parse "ab" = Val (Err (BadCharacter 0 97)) /\
  parse (of_bytes [98; 195; 169; 100; 102]) = Val (Err (BadCharacter 1 0xE9)).
Proof. vm_compute. repeat split; reflexivity. Qed.

(** ** The grammar *)

Definition DASH : Z := 45.
Definition encode (bytes : list Z) : list Z := bytes ≫= index.

(** [Written sizes s bytes]: the text [s] stands for [bytes] in pieces of the given
    sizes.  The last piece of the text may be short.  If all pieces are there, a dash
    and any text that is not empty may follow. *)
Inductive Written : list Z -> list Z -> list Z -> Prop :=
| written_last size sizes bytes :
    Forall is_byte bytes -> zlen bytes <= size -> Written (size :: sizes) (encode bytes) bytes
| written_piece size next sizes piece s bytes :
    Forall is_byte piece -> zlen piece = size -> s <> [] -> Written (next :: sizes) s bytes ->
    Written (size :: next :: sizes) (encode piece ++ DASH :: s) (piece ++ bytes)
| written_trailer size piece s :
    Forall is_byte piece -> zlen piece = size -> s <> [] ->
    Written [size] (encode piece ++ DASH :: s) piece.

(** *** Single bytes *)

Definition digits_ok (b : Z) : bool :=
  match ALPHABET !! Z.to_nat (b / 16), ALPHABET !! Z.to_nat (b mod 16) with
  | Some u, Some l =>
    bool_decide (index b = [u; l]) && bool_decide (position u ALPHABET = Some (b / 16))
    && bool_decide (position l ALPHABET = Some (b mod 16)) && (u <? 128) && (l <? 128)
    && (wrap 8 (wrap 8 (Z.shiftl (b / 16) 4) + b mod 16) =? b)
  | _, _ => false
  end.

Lemma digits_all_ok : forallb digits_ok (seqZ 0 256) = true.
Proof. vm_compute. reflexivity. Qed.

Lemma index_digits b : is_byte b -> exists u l,
  ALPHABET !! Z.to_nat (b / 16) = Some u /\ ALPHABET !! Z.to_nat (b mod 16) = Some l /\
  index b = [u; l] /\ position u ALPHABET = Some (b / 16) /\ position l ALPHABET = Some (b mod 16) /\
  u < 128 /\ l < 128 /\ wrap 8 (wrap 8 (Z.shiftl (b / 16) 4) + b mod 16) = b.
Proof.
  intros Hb. pose proof (proj1 (forallb_forall _ _) digits_all_ok b) as Hd.
  assert (Hin : In b (seqZ 0 256)) by (apply list_elem_of_In, elem_of_seqZ; unfold is_byte in Hb; lia).
  specialize (Hd Hin). unfold digits_ok in Hd.
  destruct (ALPHABET !! Z.to_nat (b / 16)) as [u|]; [|discriminate].
  destruct (ALPHABET !! Z.to_nat (b mod 16)) as [l|]; [|discriminate].
  rewrite !andb_true_iff, !bool_decide_eq_true, !Z.ltb_lt, Z.eqb_eq in Hd.
  destruct Hd as (((((? & ?) & ?) & ?) & ?) & ?). exists u, l. done.
Qed.

Lemma position_lookup c d : position c ALPHABET = Some d -> ALPHABET !! Z.to_nat d = Some c /\ 0 <= d < 16.
Proof.
  unfold position. intros Hp. apply fmap_Some in Hp as ([i y] & Hf & Hd).
  apply list_find_Some in Hf as (Hl & Hy & _). subst y. cbn in Hd. subst d.
  pose proof (lookup_lt_Some _ _ _ Hl) as Hlt. change (length ALPHABET) with 16%nat in Hlt.
  rewrite Nat2Z.id. split; [done|lia].
Qed.

Lemma alphabet_ascii : Forall (fun b => b < 128) ALPHABET.
Proof. apply (bool_decide_unpack _). vm_compute. exact I. Qed.

Lemma dash_is_no_digit : position DASH ALPHABET = None.
Proof. reflexivity. Qed.

(** Two digits that the parser reads are the two digits of the byte. *)
Lemma digits_index c1 c2 u l :
  position c1 ALPHABET = Some u -> position c2 ALPHABET = Some l ->
  let b := wrap 8 (wrap 8 (Z.shiftl u 4) + l) in is_byte b /\ index b = [c1; c2] /\ c1 < 128 /\ c2 < 128.
Proof.
  intros [H1 Hu]%position_lookup [H2 Hl]%position_lookup.
  assert (Hb : is_byte (16 * u + l)) by (unfold is_byte; lia).
  destruct (index_digits _ Hb) as (c1' & c2' & E1 & E2 & E3 & _ & _ & E6 & E7 & E8).
  assert (Hq : (16 * u + l) / 16 = u) by (symmetry; apply (Z.div_unique _ _ _ l); lia).
  assert (Hr : (16 * u + l) mod 16 = l) by (symmetry; apply (Z.mod_unique _ _ u); lia).
  rewrite Hq in E1, E8. rewrite Hr in E2, E8. simplify_eq. cbn zeta. rewrite E8. done.
Qed.

(** *** What is written is read *)

Lemma parse_loop_byte string sizes count r b rest :
  is_byte b -> count <> 0 ->
  parse_loop string sizes count r (index b ++ rest) = parse_loop string sizes (count - 1) (r ++ [b]) rest.
Proof.
  intros Hb Hc. destruct (index_digits b Hb) as (u & l & _ & _ & -> & Hu & Hl & _ & _ & Hv).
  cbn [app parse_loop]. rewrite (proj2 (Z.eqb_neq _ _) Hc), Hu, Hl, Hv. done.
Qed.

Lemma parse_loop_encode string sizes bytes : forall count r rest,
  Forall is_byte bytes -> zlen bytes <= count ->
  parse_loop string sizes count r (encode bytes ++ rest)
  = parse_loop string sizes (count - zlen bytes) (r ++ bytes) rest.
Proof.
  induction bytes as [|b bytes IH]; intros count r rest Hb Hle; len_simpl.
  - rewrite app_nil_r, Z.sub_0_r. done.
  - apply Forall_cons in Hb as [Hb Hbs]. pose proof (zlen_nonneg bytes).
    change (encode (b :: bytes)) with (index b ++ encode bytes).
    rewrite <- app_assoc, parse_loop_byte, IH by (done || lia).
    rewrite <- app_assoc. f_equal. lia.
Qed.

Lemma parse_loop_dash string sizes r s : s <> [] ->
  parse_loop string sizes 0 r (DASH :: s) =
  match sizes with
  | size :: sizes => parse_loop string sizes size r s
  | [] => Val (Ok r)
  end.
Proof.
  intros Hs. cbn [parse_loop]. rewrite (bool_decide_true (DASH ∈ SKIP_ALPHABET)) by (apply list_elem_of_singleton; done).
  destruct s as [|c s]; [done|]. rewrite zlen_cons. pose proof (zlen_nonneg s).
  change (0 =? 0) with true. cbn [negb]. rewrite (proj2 (Z.eqb_neq _ 0)) by lia. done.
Qed.

Lemma written_is_read string sizes s bytes : Written sizes s bytes -> forall r size sizes',
  sizes = size :: sizes' -> parse_loop string sizes' size r s = Val (Ok (r ++ bytes)).
Proof.
  induction 1 as [size0 sizes0 bytes Hb Hl | size0 next sizes0 piece s bytes Hb Hl Hs HW IH | size0 piece s Hb Hl Hs];
    intros r size sizes' [= <- <-].
  - rewrite <- (app_nil_r (encode bytes)), parse_loop_encode by done. done.
  - rewrite parse_loop_encode, Hl, Z.sub_diag, parse_loop_dash by (done || lia).
    rewrite (IH (r ++ piece) _ _ eq_refl), <- app_assoc. done.
  - rewrite parse_loop_encode, Hl, Z.sub_diag, parse_loop_dash by (done || lia). done.
Qed.

(** *** What is read is written *)

Lemma written_byte size sizes s b bytes :
  is_byte b -> Written (size - 1 :: sizes) s bytes -> Written (size :: sizes) (index b ++ s) (b :: bytes).
Proof.
  intros Hb HW. inversion HW as [? ? ? Hf Hl | ? ? ? piece s' bytes' Hf Hl Hs HW' | ? piece s' Hf Hl Hs]; subst.
  - change (index b ++ encode bytes) with (encode (b :: bytes)).
    constructor; [by constructor|]. rewrite zlen_cons. lia.
  - rewrite app_assoc. change (index b ++ encode piece) with (encode (b :: piece)).
    apply (written_piece _ _ _ (b :: piece)); [by constructor| |done|done]. rewrite zlen_cons. lia.
  - rewrite app_assoc. change (index b ++ encode bytes) with (encode (b :: bytes)).
    constructor; [by constructor| |done]. rewrite zlen_cons. lia.
Qed.

Lemma read_is_written string n : forall s sizes count r out,
  (length s < n)%nat -> 0 <= count -> Forall (Z.le 0) sizes ->
  parse_loop string sizes count r s = Val (Ok out) ->
  exists bytes, out = r ++ bytes /\ Written (count :: sizes) s bytes.
Proof.
  induction n as [|n IH]; [lia|]. intros s sizes count r out Hn Hc Hz Hp.
  destruct s as [|c1 s]; cbn [parse_loop] in Hp.
  { simplify_eq. exists []. rewrite app_nil_r. split; [done|]. apply (written_last _ _ []); [done|]. by rewrite zlen_nil. }
  destruct (Z.eqb_spec count 0) as [->|Hc0].
  - case_bool_decide as Hd; [|discriminate]. apply list_elem_of_singleton in Hd. change (c1 = DASH) in Hd. subst c1.
    cbn in Hp. destruct (Z.eqb_spec (zlen s) 0) as [|Hs]; [discriminate|].
    assert (Hs' : s <> []) by (by intros ->).
    destruct sizes as [|size sizes].
    + simplify_eq. exists []. rewrite app_nil_r. split; [done|]. by apply (written_trailer 0 [] s).
    + apply Forall_cons in Hz as [Hz0 Hz]. apply IH in Hp as (bytes & -> & HW); [|cbn in Hn; lia|done|done].
      exists bytes. split; [done|]. by apply (written_piece 0 size sizes [] s bytes).
  - destruct (position c1 ALPHABET) as [u|] eqn:Hu.
    2:{ destruct (identify_bad_char string s); discriminate. }
    destruct s as [|c2 s]; [discriminate|]. destruct (position c2 ALPHABET) as [l|] eqn:Hl.
    2:{ destruct (identify_bad_char string s); discriminate. }
    destruct (digits_index _ _ _ _ Hu Hl) as (Hb & Hi & _).
    apply IH in Hp as (bytes & -> & HW); [|cbn in Hn; lia|lia|done].
    eexists (_ :: bytes). split; [by rewrite <- app_assoc|].
    change (c1 :: c2 :: s) with ([c1; c2] ++ s). rewrite <- Hi. by apply written_byte.
Qed.

Lemma parse_iff_written string sizes bytes :
  sizes <> [] -> Forall (Z.le 0) sizes ->
  (parse_with_separators string sizes = Val (Ok bytes) <-> Written sizes (as_bytes string) bytes).
Proof.
  intros Hs Hz. destruct sizes as [|size sizes]; [done|]. apply Forall_cons in Hz as [H0 Hz]. split.
  - intros (bytes' & -> & HW)%(read_is_written _ (S (length (as_bytes string)))); [done|lia|done|done].
  - intros HW. by apply (written_is_read _ _ _ _ HW [] size sizes).
Qed.

(** *** No panic *)

Lemma identify_bad_char_ok pre first rest :
  Forall (fun b => b < 128) pre -> valid_utf8 (pre ++ first :: rest) = true ->
  exists e, identify_bad_char (pre ++ first :: rest) rest = Val e.
Proof.
  intros Hpre Hv. unfold identify_bad_char.
  assert (Hpos : zlen (pre ++ first :: rest) - (zlen rest + 1) = zlen pre) by (len_simpl; lia).
  assert (Hnat : Z.to_nat (zlen pre) = length pre) by (unfold zlen; lia).
  rewrite Hpos, Hnat, drop_app_length.
  assert (Hh : valid_utf8 (first :: rest) = true).
  { clear Hpos Hnat. induction Hpre as [|b pre Hb _ IH]; [done|]. cbn [app] in Hv. rewrite valid_utf8_ascii in Hv by done. auto. }
  unfold is_char_boundary. destruct (zlen pre =? _); [eexists; reflexivity|].
  rewrite Hnat, list_lookup_middle, (valid_utf8_head _ _ Hh) by done.
  eexists; reflexivity.
Qed.

Lemma parse_loop_total n : forall pre s sizes count r,
  (length s < n)%nat -> Forall (fun b => b < 128) pre -> valid_utf8 (pre ++ s) = true ->
  exists res, parse_loop (pre ++ s) sizes count r s = Val res.
Proof.
  induction n as [|n IH]; [lia|]. intros pre s sizes count r Hn Hpre Hv.
  assert (Hgo : forall more s', s = more ++ s' -> more <> [] -> Forall (fun b => b < 128) more ->
    forall sizes count r, exists res, parse_loop (pre ++ s) sizes count r s' = Val res).
  { intros more s' -> Hm Hmore sizes' count' r'. rewrite app_assoc. apply IH.
    - rewrite length_app in Hn. destruct more; [done|]. cbn in Hn. lia.
    - by apply Forall_app.
    - by rewrite <- app_assoc. }
  destruct s as [|c1 s]; cbn [parse_loop]; [by eexists|].
  destruct (Z.eqb_spec count 0) as [->|Hc0].
  - case_bool_decide as Hd; cbn; [|by eexists]. destruct (zlen s =? 0); [by eexists|].
    destruct sizes as [|size sizes]; [by eexists|]. apply (Hgo [c1]); [done|done|].
    apply list_elem_of_singleton in Hd. change (c1 = DASH) in Hd. subst c1. by repeat constructor.
  - destruct (position c1 ALPHABET) as [u|] eqn:Hu.
    2:{ destruct (identify_bad_char_ok pre c1 s) as [e ->]; [done|done|]. by eexists. }
    destruct s as [|c2 s]; [by eexists|]. destruct (position c2 ALPHABET) as [l|] eqn:Hl.
    2:{ destruct (identify_bad_char_ok (pre ++ [c1]) c2 s) as [e He].
        - apply Forall_app. split; [done|]. constructor; [|done].
          apply position_lookup in Hu as [Hu _]. by apply (Forall_lookup_1 (fun b => b < 128) ALPHABET _ _ alphabet_ascii Hu).
        - by rewrite <- app_assoc.
        - rewrite <- app_assoc in He. cbn in He. rewrite He. by eexists. }
    destruct (digits_index _ _ _ _ Hu Hl) as (_ & _ & H1 & H2).
    apply (Hgo [c1; c2]); [done|done|]. by repeat constructor.
Qed.

Lemma parse_never_panics string sizes :
  valid_utf8 (as_bytes string) = true ->
  exists res, parse_with_separators string sizes = Val res.
Proof.
  intros Hv. destruct sizes as [|size sizes]; [by eexists|].
  apply (parse_loop_total (S (length (as_bytes string))) [] (as_bytes string)); [lia|constructor|done].
Qed.

(** The parser of consonant base 16 implements its grammar: on every string it returns
    without a panic, and it accepts exactly the texts that the grammar gives to some bytes,
    and returns these. *)
Theorem parse_accepts_the_grammar string sizes :
  valid_utf8 (as_bytes string) = true -> sizes <> [] -> Forall (Z.le 0) sizes ->
  exists res, parse_with_separators string sizes = Val res /\
    forall bytes, res = Ok bytes <-> Written sizes (as_bytes string) bytes.
Proof.
  intros Hv Hne Hz. destruct (parse_never_panics string sizes Hv) as [res Hres]. exists res. split; [done|].
  intros bytes. rewrite <- parse_iff_written, Hres by done. split; [by intros ->|by intros [= ->]].
Qed.

(** *** What is printed *)

(** Pieces with a dash in between. *)
Fixpoint join (pieces : list (list Z)) : list Z :=
  match pieces with
  | [] => []
  | [piece] => encode piece
  | piece :: pieces => encode piece ++ DASH :: join pieces
  end.

Lemma encode_nonempty piece : Forall is_byte piece -> piece <> [] -> encode piece <> [].
Proof.
  intros Hb Hp. destruct piece as [|b piece]; [done|]. apply Forall_cons in Hb as [Hb _].
  destruct (index_digits b Hb) as (u & l & _ & _ & Hi & _).
  change (encode (b :: piece)) with (index b ++ encode piece). by rewrite Hi.
Qed.

Lemma join_written pieces : pieces <> [] -> Forall (fun p => Forall is_byte p /\ p <> []) pieces ->
  Written (zlen <$> pieces) (join pieces) (concat pieces) /\ join pieces <> [].
Proof.
  intros Hne Hall. induction Hall as [|piece pieces [Hb Hp] Hall IH]; [done|].
  pose proof (encode_nonempty _ Hb Hp) as He.
  destruct pieces as [|next pieces].
  - cbn. rewrite app_nil_r. split; [|done]. by constructor.
  - destruct IH as [HW Hj]; [done|]. change (join (piece :: next :: pieces)) with (encode piece ++ DASH :: join (next :: pieces)).
    change (concat (piece :: next :: pieces)) with (piece ++ concat (next :: pieces)).
    split; [by apply written_piece|]. by destruct (encode piece).
Qed.

Lemma write_chunks_join pieces : write_chunks DASH true pieces = join pieces.
Proof.
  destruct pieces as [|piece pieces]; [done|]. revert piece.
  induction pieces as [|next pieces IH]; intros piece; [apply app_nil_r|].
  change (join (piece :: next :: pieces)) with (encode piece ++ DASH :: join (next :: pieces)).
  rewrite <- IH. done.
Qed.

Lemma join_app l1 l2 : l1 <> [] -> l2 <> [] -> join (l1 ++ l2) = join l1 ++ DASH :: join l2.
Proof.
  intros H1 H2. destruct l1 as [|piece l1]; [done|]. clear H1. revert piece.
  induction l1 as [|next l1 IH]; intros piece; [by destruct l2|].
  change (join ((piece :: next :: l1) ++ l2)) with (encode piece ++ DASH :: join ((next :: l1) ++ l2)).
  rewrite IH. change (join (piece :: next :: l1)) with (encode piece ++ DASH :: join (next :: l1)).
  by rewrite <- app_assoc.
Qed.

Lemma chunks_from_full size l : forall room piece rest, l <> [] -> zlen l = room ->
  chunks_from size room piece (l ++ rest) = (piece ++ l) :: chunks size rest.
Proof.
  induction l as [|b l IH]; intros room piece rest Hl Hr; [done|]. rewrite zlen_cons in Hr.
  cbn [app chunks_from]. destruct l as [|b' l].
  - rewrite zlen_nil in Hr. rewrite <- Hr. done.
  - rewrite zlen_cons in Hr. pose proof (zlen_nonneg l). rewrite (proj2 (Z.eqb_neq _ _)) by lia.
    rewrite IH by (done || rewrite zlen_cons; lia). by rewrite <- app_assoc.
Qed.

Lemma chunks_full size l rest : l <> [] -> zlen l = size -> chunks size (l ++ rest) = l :: chunks size rest.
Proof. apply chunks_from_full. Qed.

Lemma chunks_short size l : l <> [] -> zlen l < size -> chunks size l = [l].
Proof.
  intros Hl Hs. assert (Hgo : forall room piece, piece ++ l <> [] -> zlen l < room -> chunks_from size room piece l = [piece ++ l]).
  { clear. induction l as [|b l IH]; intros room piece Hne Hr; cbn [chunks_from].
    - rewrite app_nil_r in *. by rewrite bool_decide_false.
    - rewrite zlen_cons in Hr. pose proof (zlen_nonneg l). rewrite (proj2 (Z.eqb_neq _ _)) by lia.
      rewrite IH; [by rewrite <- app_assoc| |lia]. by destruct piece. }
  by apply Hgo.
Qed.

(** The pieces of a whole number of chunks. *)
Lemma chunks_exact_pieces size k : forall l, 0 < size -> zlen l = size * Z.of_nat k ->
  concat (chunks size l) = l /\ (zlen <$> chunks size l) = replicate k size.
Proof.
  induction k as [|k IH]; intros l Hs Hl.
  - rewrite Z.mul_0_r in Hl. destruct l; [done|]. rewrite zlen_cons in Hl. pose proof (zlen_nonneg l). lia.
  - rewrite Nat2Z.inj_succ, Z.mul_succ_r in Hl.
    assert (Hm : 0 <= size * Z.of_nat k) by (apply Z.mul_nonneg_nonneg; lia).
    assert (Ht : zlen (take (Z.to_nat size) l) = size) by (unfold zlen in *; rewrite length_take; lia).
    assert (Hd : zlen (drop (Z.to_nat size) l) = size * Z.of_nat k) by (unfold zlen in *; rewrite length_drop; lia).
    assert (Hne : take (Z.to_nat size) l <> []) by (intros E; rewrite E, zlen_nil in Ht; lia).
    rewrite <- (take_drop (Z.to_nat size) l), chunks_full by done.
    destruct (IH _ Hs Hd) as [IH1 IH2]. cbn [concat replicate fmap list_fmap]. rewrite IH1, Ht. split; [done|].
    f_equal. exact IH2.
Qed.

End Base16.
