(* ===== verification/RootKey.v ===== *)
(** * The root keys of call links (src/rust/src/lite/call_links/root_key.rs)

    Who has the root key of a call link can join the call.  A key of version 0 is 16
    bytes; one of version 1 adds a version byte and the epoch that the server gave the
    link when it was created.  Until then the version byte has its upper bit set and the
    key is not valid.  This file has the keys, their text, what they encrypt and what
    they put into requests; HKDF, AES-GCM-SIV and the random generator are parameters. *)

From S2P Require Import Prelude FrameCrypto Base16.
From stdpp Require Import strings pretty.
Local Open Scope Z_scope.
Local Open Scope ringrtc_scope.
Import Text.

(** [hkdf], [aes_gcm_siv] and [hex]. *)
Class RootKeyCrypto : Type := {
  (** [Hkdf::<Sha256>::new(None, ikm).expand(info, okm)], with the length of [okm]. *)
  hkdf_sha256 : list Z -> list Z -> Z -> option (list Z);
  (** [encrypt_in_place_detached(nonce, ad, buffer)]: the buffer afterwards and the tag. *)
  aes_gcm_siv_encrypt : list Z -> list Z -> list Z -> list Z -> option (list Z * list Z);
  (** [decrypt(nonce, ciphertext)], with the tag at the end of the ciphertext. *)
  aes_gcm_siv_decrypt : list Z -> list Z -> list Z -> option (list Z);
  hex_text : list Z -> string;
}.

(** The longest text of AES-GCM-SIV, RFC 8452. *)
Definition P_MAX : Z := 2 ^ 36.

Class RootKeyCryptoLaws `{RootKeyCrypto} : Prop := {
  hkdf_32 ikm info : exists okm, hkdf_sha256 ikm info 32 = Some okm;
  aes_defined key nonce ad p : zlen p <= P_MAX ->
    exists ct tag, aes_gcm_siv_encrypt key nonce ad p = Some (ct, tag);
  aes_lengths key nonce ad p ct tag : aes_gcm_siv_encrypt key nonce ad p = Some (ct, tag) ->
    zlen ct = zlen p /\ zlen tag = 16;
  aes_bytes key nonce ad p ct tag : aes_gcm_siv_encrypt key nonce ad p = Some (ct, tag) ->
    Forall is_byte p -> Forall is_byte ct /\ Forall is_byte tag;
  aes_inverse key nonce p ct tag : aes_gcm_siv_encrypt key nonce [] p = Some (ct, tag) ->
    aes_gcm_siv_decrypt key nonce (ct ++ tag) = Some p;
}.

(** [RngCore::fill_bytes] on a buffer of the given length. *)
Class RngCore (R : Type) : Type := {
  fill_bytes : R -> Z -> list Z * R;
}.

Class RngLaws (R : Type) `{RngCore R} : Prop := {
  fill_length r n : 0 <= n -> zlen (fill_bytes r n).1 = n;
  fill_are_bytes r n : Forall is_byte (fill_bytes r n).1;
}.

Module RootKey.
Import Base16.

Inductive CallLinkRestrictions : Type := NoRestrictions | AdminApproval | UnknownRestrictions.

Record CallLinkResponse : Type := mkResponse {
  encrypted_name : list Z;
  restrictions : CallLinkRestrictions;
  revoked : bool;
  expiration_unix_timestamp : Z;
  epoch : option Z;
}.

(** [CallLinkSecretParams::ROOT_KEY_MAX_BYTES_FOR_SHO] *)
Definition CRN_LEN : Z := 16.
Definition VERSION_OFFSET : Z := CRN_LEN.

Inductive CallLinkRootKeyError : Type := InvalidServerResponse.

(** [[u8; N]] values are lists of that length. *)
Record CallLinkRootKeyV0 : Type := mkV0 { crn : list Z }.
Record CallLinkRootKeyV1 : Type := mkV1 { v1_bytes : list Z }.

Inductive CallLinkRootKey : Type :=
| V0 (key : CallLinkRootKeyV0)
| V1 (key : CallLinkRootKeyV1).

#[global] Instance CallLinkRootKeyV0_eq_dec : EqDecision CallLinkRootKeyV0.
Proof. solve_decision. Defined.
#[global] Instance CallLinkRootKeyV1_eq_dec : EqDecision CallLinkRootKeyV1.
Proof. solve_decision. Defined.
#[global] Instance CallLinkRootKey_eq_dec : EqDecision CallLinkRootKey.
Proof. solve_decision. Defined.

Definition V0_LEN : Z := CRN_LEN.
Definition VERSION : Z := 1.
Definition EPOCH_LEN : Z := 4.
Definition EPOCH_OFFSET : Z := CRN_LEN + 1.
Definition V1_LEN : Z := CRN_LEN + 1 + EPOCH_LEN.
Definition INVALID_BIT : Z := 0x80.
Definition VERSION_MASK : Z := Z.lxor INVALID_BIT 0xff.
Definition HTTP_EPOCH_HEADER : string := "X-Epoch".
Definition V0_HKDF_INFO_CIPHER : list Z := as_bytes "20230501-Signal-CallLinkRootKey-AES".
Definition V1_HKDF_INFO_CIPHER : list Z := as_bytes "20251219-Signal-CallLinkRootKey-AES".
Definition HKDF_INFO_ROOM_ID : list Z := as_bytes "20230501-Signal-CallLinkRootKey-RoomId".
Definition HTTP_ROOM_ID_HEADER : string := "X-Room-Id".
Definition ENCRYPTION_PADDING_MARKER : Z := 0x80.
Definition ENCRYPTION_BLOCK_SIZE : Z := 32.
Definition NONCE_SIZE : Z := 12.

(** [l[from..to]]. *)
Definition slice (from to : Z) (l : list Z) : list Z :=
  take (Z.to_nat (to - from)) (drop (Z.to_nat from) l).

(** [dest[at..at + src.len()].copy_from_slice(src)] *)
Definition copy_at (offset : Z) (src dest : list Z) : list Z :=
  take (Z.to_nat offset) dest ++ src ++ drop (Z.to_nat (offset + zlen src)) dest.

(** [u16::from_le_bytes(pair) % 0x1111 == 0] for a pair; an odd byte at the end is left out. *)
Fixpoint has_repeated_chunk (bytes : list Z) : bool :=
  match bytes with
  | b0 :: b1 :: bytes =>
    if (b0 + 256 * b1) mod 0x1111 =? 0 then true else has_repeated_chunk bytes
  | _ => false
  end.

(** *** Version 0 *)

Definition V0_to_formatted_string (self : CallLinkRootKeyV0) : outcome string :=
  text ← fmt (Some 2) DASH (crn self); Val (of_bytes text).

Definition V0_try_from (value : list Z) : result CallLinkRootKeyV0 string :=
  if negb (zlen value =? V0_LEN) then Err "could not convert slice to array"%string
  else if has_repeated_chunk value then Err "invalid root key adjacent bytes"%string
  else Ok (mkV0 value).

Definition V0_SEPARATORS : list Z := [2; 2; 2; 2; 2; 2; 2; 2].

Definition V0_try_from_str (value : string) : outcome (result CallLinkRootKeyV0 string) :=
  r ← parse_with_separators value V0_SEPARATORS;
  Val (match r with
       | Ok bytes => V0_try_from bytes
       | Err _ => Err "invalid root key string"%string
       end).

(** *** Version 1 *)

Definition without_epoch (crn : list Z) : CallLinkRootKeyV1 :=
  let bytes := copy_at 0 crn (replicate (Z.to_nat V1_LEN) 0) in
  mkV1 (<[Z.to_nat VERSION_OFFSET := Z.lor VERSION INVALID_BIT]> bytes).

Definition with_epoch (crn : list Z) (epoch : Z) : CallLinkRootKeyV1 :=
  let bytes := copy_at 0 crn (replicate (Z.to_nat V1_LEN) 0) in
  let bytes := <[Z.to_nat VERSION_OFFSET := VERSION]> bytes in
  mkV1 (copy_at EPOCH_OFFSET (be_bytes 4 epoch) bytes).

Definition version_byte (self : CallLinkRootKeyV1) : Z := nth (Z.to_nat VERSION_OFFSET) (v1_bytes self) 0.

Definition V1_is_valid (self : CallLinkRootKeyV1) : bool := Z.land (version_byte self) INVALID_BIT =? 0.

Definition epoch_bytes (self : CallLinkRootKeyV1) : list Z :=
  slice EPOCH_OFFSET (EPOCH_OFFSET + EPOCH_LEN) (v1_bytes self).

Definition V1_prepare_http_headers (self : CallLinkRootKeyV1) (headers : gmap string string)
  : gmap string string :=
  if V1_is_valid self then
    let epoch := from_be_bytes (epoch_bytes self) in
    <[HTTP_EPOCH_HEADER := pretty (Z.to_N epoch)]> headers
  else headers.

Definition V1_process_server_response (self : CallLinkRootKeyV1) (response : CallLinkResponse)
  : result (option CallLinkRootKey) CallLinkRootKeyError :=
  if V1_is_valid self then Ok None
  else
    let crn := slice 0 CRN_LEN (v1_bytes self) in
    Ok (Some (match epoch response with
              | None => V0 (mkV0 crn)
              | Some epoch => V1 (with_epoch crn epoch)
              end)).

Definition V1_to_formatted_string (self : CallLinkRootKeyV1) : outcome string :=
  crn ← fmt (Some 4) DASH (slice 0 CRN_LEN (v1_bytes self));
  version ← fmt None 32 (slice VERSION_OFFSET (VERSION_OFFSET + 1) (v1_bytes self));
  epoch ← fmt None 32 (epoch_bytes self);
  Val (of_bytes (crn ++ [DASH] ++ version ++ [DASH] ++ epoch)).

Definition V1_try_from (value : list Z) : result CallLinkRootKeyV1 string :=
  if negb (zlen value =? V1_LEN) then Err "could not convert slice to array"%string
  else if negb (Z.land (version_byte (mkV1 value)) VERSION_MASK =? VERSION) then
    Err "invalid root key version"%string
  else if has_repeated_chunk (slice 0 CRN_LEN value) then Err "invalid root key adjacent bytes"%string
  else Ok (mkV1 value).

Definition V1_SEPARATORS : list Z := [4; 4; 4; 4; 1; 4].

Definition V1_try_from_str (value : string) : outcome (result CallLinkRootKeyV1 string) :=
  r ← parse_with_separators value V1_SEPARATORS;
  Val (match r with
       | Ok bytes => V1_try_from bytes
       | Err _ => Err "invalid root key string"%string
       end).

(** *** Any version *)

Definition is_valid (self : CallLinkRootKey) : bool :=
  match self with V0 _ => true | V1 key => V1_is_valid key end.

Definition as_slice (self : CallLinkRootKey) : list Z :=
  match self with V0 key => crn key | V1 key => v1_bytes key end.

Definition to_formatted_string (self : CallLinkRootKey) : outcome string :=
  match self with V0 key => V0_to_formatted_string key | V1 key => V1_to_formatted_string key end.

Definition try_from_str (value : string) : outcome (result CallLinkRootKey string) :=
  r0 ← V0_try_from_str value;
  match r0 with
  | Ok inner => Val (Ok (V0 inner))
  | Err _ =>
    r1 ← V1_try_from_str value;
    Val (match r1 with
         | Ok inner => Ok (V1 inner)
         | Err _ => Err "invalid root key string"%string
         end)
  end.

Definition try_from (value : list Z) : result CallLinkRootKey string :=
  if zlen value =? V0_LEN then
    match V0_try_from value with Ok key => Ok (V0 key) | Err e => Err e end
  else if zlen value =? V1_LEN then
    match V1_try_from value with Ok key => Ok (V1 key) | Err e => Err e end
  else Err "invalid root key"%string.

(** Version 0 has the default method of the trait. *)
Definition process_server_response (self : CallLinkRootKey) (response : CallLinkResponse)
  : result (option CallLinkRootKey) CallLinkRootKeyError :=
  match self with V0 _ => Ok None | V1 key => V1_process_server_response key response end.

(** The secret of a key is its first sixteen bytes. *)
Definition secret (self : CallLinkRootKey) : list Z := slice 0 CRN_LEN (as_slice self).

Section Random.
Context {R : Type} `{RngCore R}.

(** The loop of [generate]: [fuel] is how many times the bytes may be drawn again. *)
Fixpoint draw_again (fuel : nat) (rng : R) (crn : list Z) : option (list Z) :=
  if has_repeated_chunk crn then
    match fuel with
    | O => None
    | S fuel => let '(crn, rng) := fill_bytes rng CRN_LEN in draw_again fuel rng crn
    end
  else Some crn.

Definition generate (fuel : nat) (rng : R) : option CallLinkRootKey :=
  let '(crn, rng) := fill_bytes rng CRN_LEN in
  V1 ∘ without_epoch <$> draw_again fuel rng crn.

Definition generate_admin_passkey (rng : R) : list Z := (fill_bytes rng 16).1.

End Random.

Section Crypto.
Context `{RootKeyCrypto}.

Definition make_cipher (self : CallLinkRootKey) : outcome (list Z) :=
  unwrap (match self with
          | V0 key => hkdf_sha256 (crn key) V0_HKDF_INFO_CIPHER 32
          | V1 key => hkdf_sha256 (slice 0 CRN_LEN (v1_bytes key)) V1_HKDF_INFO_CIPHER 32
          end).

Definition derive_room_id (self : CallLinkRootKey) : outcome (list Z) :=
  unwrap (hkdf_sha256 (slice 0 CRN_LEN (as_slice self)) HKDF_INFO_ROOM_ID 32).

(** The buffer that [encrypt] encrypts behind the nonce. *)
Definition pad (nonce plaintext : list Z) : list Z :=
  let buffer := nonce ++ plaintext ++ [ENCRYPTION_PADDING_MARKER] in
  let padding_len := ENCRYPTION_BLOCK_SIZE - zlen buffer mod ENCRYPTION_BLOCK_SIZE in
  if negb (padding_len =? ENCRYPTION_BLOCK_SIZE)
  then buffer ++ replicate (Z.to_nat padding_len) 0
  else buffer.

Definition encrypt {R} `{RngCore R} (self : CallLinkRootKey) (plaintext : list Z) (rng : R)
  : outcome (list Z) :=
  let nonce := (fill_bytes rng NONCE_SIZE).1 in
  let buffer := pad nonce plaintext in
  cipher ← make_cipher self;
  '(ciphertext, tag) ← unwrap (aes_gcm_siv_encrypt cipher nonce [] (drop (length nonce) buffer));
  Val ((take (length nonce) buffer ++ ciphertext) ++ tag).

(** [iter().rposition(..)]: the last place of a byte. *)
Fixpoint rposition (b : Z) (l : list Z) : option nat :=
  match l with
  | [] => None
  | x :: l =>
    match rposition b l with
    | Some i => Some (S i)
    | None => if x =? b then Some O else None
    end
  end.

Inductive FailedToDecrypt : Type := mkFailedToDecrypt.

Definition decrypt (self : CallLinkRootKey) (encrypted : list Z)
  : outcome (result (list Z) FailedToDecrypt) :=
  if zlen encrypted <? NONCE_SIZE then Val (Err mkFailedToDecrypt)
  else
    let nonce := take (Z.to_nat NONCE_SIZE) encrypted in
    let ciphertext := drop (Z.to_nat NONCE_SIZE) encrypted in
    cipher ← make_cipher self;
    Val (match aes_gcm_siv_decrypt cipher nonce ciphertext with
         | None => Err mkFailedToDecrypt
         | Some plaintext =>
           match rposition ENCRYPTION_PADDING_MARKER plaintext with
           | None => Err mkFailedToDecrypt
           | Some padding_marker_position => Ok (take padding_marker_position plaintext)
           end
         end).

Definition prepare_http_headers (self : CallLinkRootKey) (headers : gmap string string)
  : outcome (gmap string string) :=
  room_id ← derive_room_id self;
  let headers := <[HTTP_ROOM_ID_HEADER := hex_text room_id]> headers in
  Val (match self with V0 _ => headers | V1 key => V1_prepare_http_headers key headers end).

End Crypto.

(** The strings of the tests of root_key.rs. *)
Example root_key_tests :
  (exists k, try_from_str "crbn-mxzp-zprt-rxkr-mpqq-rtrr-cddc-bftt" = Val (Ok (V0 k))) /\
  (exists k, try_from_str "crbnmxzp-zprtrxkr-mpqqrtrr-cddcbftt-bc-pprrrrqz" = Val (Ok (V1 k)) /\ V1_is_valid k = true) /\
  (exists k, try_from_str "crbnmxzp-zprtrxkr-mpqqrtrr-cddcbftt-nc-bbbbbbbb" = Val (Ok (V1 k)) /\ V1_is_valid k = false) /\
  has_repeated_chunk [0x23; 0x45; 0x56; 0x11; 0x55; 0x55] = true /\
  has_repeated_chunk [0x11; 0x22; 0x33; 0x44; 0x45; 0x55] = false.
Proof. vm_compute. split_and!; try reflexivity; eexists; try split; reflexivity. Qed.

End RootKey.
