(* ===== verification/CallLinkKeys.v ===== *)
(** * What the root keys of call links promise

    Which keys there are ([well_formed]), that every operation makes such keys, that
    their text and what they encrypt can be read back, and that creating a link keeps
    its secret. *)

From S2P Require Import Prelude FrameCrypto Base16 RootKey.
From stdpp Require Import strings pretty.
Local Open Scope Z_scope.
Local Open Scope ringrtc_scope.
Import Text.

Module CallLinkKeys.
Import Base16 RootKey.

(** ** Well-formed keys *)

(** All four hexadecimal digits of two bytes are the same. *)
Definition same_digits (b0 b1 : Z) : Prop :=
  b0 / 16 = b0 mod 16 /\ b1 / 16 = b0 / 16 /\ b1 mod 16 = b0 / 16.

Definition unrepeated (l : list Z) : Prop := forall i b0 b1,
  l !! (2 * i)%nat = Some b0 -> l !! S (2 * i) = Some b1 -> ~ same_digits b0 b1.

Definition well_formed (key : CallLinkRootKey) : Prop :=
  match key with
  | V0 (mkV0 crn) => zlen crn = 16 /\ Forall is_byte crn /\ unrepeated crn
  | V1 (mkV1 bytes) => exists crn version epoch,
      bytes = crn ++ version :: epoch /\ zlen crn = 16 /\ zlen epoch = 4 /\ Forall is_byte bytes /\
      unrepeated crn /\ (version = 0x01 \/ version = 0x81)
  end.

(** A multiple of 0x1111 that fits into 16 bits has four equal digits. *)
Lemma multiple_has_same_digits b0 b1 : is_byte b0 -> is_byte b1 ->
  ((b0 + 256 * b1) mod 0x1111 = 0 <-> same_digits b0 b1).
Proof.
  unfold is_byte, same_digits. intros H0 H1.
  pose proof (Z.div_mod b0 16). pose proof (Z.div_mod b1 16).
  pose proof (Z.mod_pos_bound b0 16). pose proof (Z.mod_pos_bound b1 16).
  rewrite Z.mod_divide by lia. split.
  - intros [k Hk]. assert (k <= 15) by lia. assert (0 <= k) by lia.
    assert (Hk' : k = 0 \/ k = 1 \/ k = 2 \/ k = 3 \/ k = 4 \/ k = 5 \/ k = 6 \/ k = 7 \/ k = 8 \/ k = 9
      \/ k = 10 \/ k = 11 \/ k = 12 \/ k = 13 \/ k = 14 \/ k = 15) by lia.
    assert (b0 = 17 * k /\ b1 = 17 * k) as [-> ->] by lia.
    repeat (destruct Hk' as [->|Hk']; [vm_compute; done|]). subst. vm_compute. done.
  - intros (E1 & E2 & E3). exists (b0 / 16). lia.
Qed.

Lemma has_repeated_chunk_spec l : Forall is_byte l ->
  (has_repeated_chunk l = false <-> unrepeated l).
Proof.
  remember (length l) as n eqn:Hn. assert (Hle : (length l <= n)%nat) by lia. clear Hn. revert l Hle.
  induction n as [|n IH]; intros l Hle Hb.
  { destruct l; [|cbn in Hle; lia]. split; [|done]. by intros _ i b0 b1 ?. }
  destruct l as [|b0 [|b1 l]].
  - split; [|done]. by intros _ i b0 b1 ?.
  - split; [|done]. intros _ i c0 c1 _. by destruct i.
  - apply Forall_cons in Hb as [H0 [H1 Hb]%Forall_cons].
    cbn [has_repeated_chunk]. pose proof (multiple_has_same_digits _ _ H0 H1) as Hm.
    destruct (Z.eqb_spec ((b0 + 256 * b1) mod 4369) 0) as [Hz|Hz].
    + split; [done|]. intros Hu. by destruct (Hu 0%nat b0 b1 eq_refl eq_refl (proj1 Hm Hz)).
    + rewrite IH by (done || cbn in Hle; lia). split.
      * intros Hu [|i] c0 c1 E0 E1; [cbn in E0, E1; simplify_eq; tauto|].
        rewrite Nat.mul_succ_r, Nat.add_comm in E0, E1. by apply (Hu i).
      * intros Hu i c0 c1 E0 E1. apply (Hu (S i)); rewrite Nat.mul_succ_r, Nat.add_comm; done.
Qed.

(** ** The parts of a key of version 1 *)

Section Parts.
Context (crn epoch : list Z) (version : Z).
Hypothesis (Hcrn : zlen crn = 16) (Hepoch : zlen epoch = 4).

Local Notation key := (mkV1 (crn ++ version :: epoch)).

Lemma crn_length : length crn = 16%nat.
Proof. unfold zlen in Hcrn. lia. Qed.

Lemma crn_of_key : slice 0 CRN_LEN (crn ++ version :: epoch) = crn.
Proof.
  change (take 16 (crn ++ version :: epoch) = crn). rewrite <- crn_length at 1. apply take_app_length.
Qed.

Lemma version_of_key : version_byte key = version.
Proof. unfold version_byte. cbn [v1_bytes]. change (Z.to_nat VERSION_OFFSET) with 16%nat. rewrite app_nth2; rewrite crn_length; [done|lia]. Qed.

Lemma drop_crn n : drop (16 + n) (crn ++ version :: epoch) = drop n (version :: epoch).
Proof. rewrite <- crn_length. apply drop_app_add. Qed.

Lemma version_slice : slice VERSION_OFFSET (VERSION_OFFSET + 1) (crn ++ version :: epoch) = [version].
Proof. unfold slice. change (Z.to_nat VERSION_OFFSET) with (16 + 0)%nat. rewrite drop_crn. done. Qed.

Lemma epoch_of_key : epoch_bytes key = epoch.
Proof.
  unfold epoch_bytes, slice. change (Z.to_nat EPOCH_OFFSET) with (16 + 1)%nat. cbn [v1_bytes].
  rewrite drop_crn. cbn [drop]. apply take_ge. change (length epoch <= 4)%nat. unfold zlen in Hepoch. lia.
Qed.

End Parts.

Lemma split_v1 (bytes : list Z) : zlen bytes = V1_LEN -> exists (crn : list Z) (version : Z) (epoch : list Z),
  bytes = crn ++ version :: epoch /\ zlen crn = 16 /\ zlen epoch = 4.
Proof.
  intros Hl. assert (Hn : length bytes = 21%nat) by (change (zlen bytes = 21) in Hl; unfold zlen in Hl; lia).
  destruct (drop 16 bytes) as [|version epoch] eqn:Hd.
  { apply (f_equal length) in Hd. rewrite length_drop in Hd. cbn in Hd. lia. }
  exists (take 16 bytes), version, epoch. rewrite <- Hd, take_drop. split; [done|].
  apply (f_equal length) in Hd. rewrite length_drop in Hd. cbn in Hd.
  unfold zlen. rewrite length_take. lia.
Qed.

Lemma copy_crn crn : zlen crn = 16 -> copy_at 0 crn (replicate (Z.to_nat V1_LEN) 0) = crn ++ [0; 0; 0; 0; 0].
Proof. intros Hl. unfold copy_at. rewrite Hl. done. Qed.

Lemma without_epoch_parts crn : zlen crn = 16 -> without_epoch crn = mkV1 (crn ++ 0x81 :: [0; 0; 0; 0]).
Proof.
  intros Hl. unfold without_epoch. rewrite copy_crn by done.
  assert (Hn : length crn = 16%nat) by (unfold zlen in Hl; lia).
  change (Z.to_nat VERSION_OFFSET) with (16 + 0)%nat. rewrite <- Hn, insert_app_r. done.
Qed.

Lemma with_epoch_parts crn epoch : zlen crn = 16 -> with_epoch crn epoch = mkV1 (crn ++ 0x01 :: be_bytes 4 epoch).
Proof.
  intros Hl. unfold with_epoch. rewrite copy_crn by done.
  assert (Hn : length crn = 16%nat) by (unfold zlen in Hl; lia).
  change (Z.to_nat VERSION_OFFSET) with (16 + 0)%nat. rewrite <- Hn at 1. rewrite insert_app_r.
  unfold copy_at, zlen. rewrite be_bytes_length. f_equal.
  change (Z.to_nat EPOCH_OFFSET) with (16 + 1)%nat.
  change (Z.to_nat (EPOCH_OFFSET + Z.of_nat 4)) with (16 + 5)%nat.
  rewrite <- Hn, take_app_add, drop_app_add. cbn [insert list_insert take drop].
  rewrite app_nil_r, <- app_assoc. done.
Qed.

Definition version_ok (v : Z) : bool :=
  Bool.eqb (Z.land v VERSION_MASK =? VERSION) ((v =? 0x01) || (v =? 0x81)).

Lemma versions_all_ok : forallb version_ok (seqZ 0 256) = true.
Proof. vm_compute. reflexivity. Qed.

Lemma version_spec v : is_byte v -> (Z.land v VERSION_MASK =? VERSION) = true <-> v = 0x01 \/ v = 0x81.
Proof.
  intros Hv. assert (Hin : In v (seqZ 0 256)) by (apply list_elem_of_In, elem_of_seqZ; unfold is_byte in Hv; lia).
  pose proof (proj1 (forallb_forall _ _) versions_all_ok v Hin) as Ho.
  apply eqb_prop in Ho. rewrite Ho, orb_true_iff, !Z.eqb_eq. done.
Qed.

Lemma be_bytes_are_bytes n v : Forall is_byte (be_bytes n v).
Proof.
  revert v. induction n as [|n IH]; intros v; [constructor|]. cbn [be_bytes]. apply Forall_app. split; [done|].
  repeat constructor; apply Z.mod_pos_bound; lia.
Qed.

(** ** Every key is well-formed *)

Lemma V0_try_from_spec value key : Forall is_byte value ->
  (V0_try_from value = Ok key <-> well_formed (V0 key) /\ crn key = value).
Proof.
  intros Hb. unfold V0_try_from. pose proof (has_repeated_chunk_spec _ Hb) as Hr. split.
  - destruct (Z.eqb_spec (zlen value) V0_LEN) as [Hl|]; [|discriminate]. cbn [negb].
    destruct (has_repeated_chunk value) eqn:E; [discriminate|]. intros [= <-].
    cbn. split; [|done]. split_and!; [done|done|]. tauto.
  - destruct key as [c]. cbn. intros [(Hl & _ & Hu) ->]. rewrite Hl. cbn.
    destruct (has_repeated_chunk value); [|done]. by apply Hr in Hu.
Qed.

Lemma V1_try_from_spec value key : Forall is_byte value ->
  (V1_try_from value = Ok key <-> well_formed (V1 key) /\ v1_bytes key = value).
Proof.
  intros Hb. unfold V1_try_from.
  assert (Hparts : forall crn version epoch, value = crn ++ version :: epoch -> zlen crn = 16 -> zlen epoch = 4 ->
    Forall is_byte crn /\ is_byte version).
  { intros crn version epoch -> _ _. apply Forall_app in Hb as [? [??]%Forall_cons]. done. }
  split.
  - destruct (Z.eqb_spec (zlen value) V1_LEN) as [Hl|]; [|discriminate]. cbn [negb].
    destruct (split_v1 _ Hl) as (crn & version & epoch & E & Hc & He).
    destruct (Hparts _ _ _ E Hc He) as [Hbc Hbv]. rewrite E, version_of_key, crn_of_key by done.
    destruct (Z.land version VERSION_MASK =? VERSION) eqn:Hv; [|discriminate]. apply version_spec in Hv; [|done].
    cbn [negb]. destruct (has_repeated_chunk crn) eqn:Hr; [discriminate|]. intros [= <-]. cbn [v1_bytes].
    split; [|done]. exists crn, version, epoch. rewrite E in Hb. apply has_repeated_chunk_spec in Hr; done.
  - destruct key as [bytes]. cbn [well_formed v1_bytes]. intros [(crn & version & epoch & E & Hc & He & _ & Hu & Hv) ->].
    destruct (Hparts _ _ _ E Hc He) as [Hbc Hbv]. rewrite E, version_of_key, crn_of_key by done.
    assert (Hl : zlen (crn ++ version :: epoch) = V1_LEN) by (len_simpl; rewrite Hc, He; done).
    rewrite Hl, (proj2 (version_spec _ Hbv) Hv), (proj2 (has_repeated_chunk_spec _ Hbc) Hu). done.
Qed.

Lemma try_from_spec value key : Forall is_byte value ->
  (try_from value = Ok key <-> well_formed key /\ as_slice key = value).
Proof.
  intros Hb. unfold try_from. split.
  - destruct (Z.eqb_spec (zlen value) V0_LEN).
    { destruct (V0_try_from value) eqn:E; [|discriminate]. intros [= <-]. by apply V0_try_from_spec in E. }
    destruct (Z.eqb_spec (zlen value) V1_LEN); [|discriminate].
    destruct (V1_try_from value) eqn:E; [|discriminate]. intros [= <-]. by apply V1_try_from_spec in E.
  - destruct key as [key|key]; cbn [as_slice]; intros [Hw Hv].
    + rewrite (proj2 (V0_try_from_spec value key Hb)) by done. destruct key as [c]. cbn in Hw, Hv. subst c.
      rewrite (proj1 Hw). done.
    + rewrite (proj2 (V1_try_from_spec value key Hb)) by done. destruct key as [bytes]. cbn [v1_bytes] in Hv. subst bytes.
      destruct Hw as (crn & version & epoch & -> & Hc & He & _). len_simpl. rewrite Hc, He. done.
Qed.

Lemma written_bytes sizes text bytes : Written sizes text bytes -> Forall is_byte bytes.
Proof. induction 1 as [|????????? IH|]; [done| |done]. by apply Forall_app. Qed.

Lemma parsed_bytes text sizes bytes : sizes <> [] -> Forall (Z.le 0) sizes ->
  parse_with_separators text sizes = Val (Ok bytes) -> Forall is_byte bytes.
Proof. intros Hne Hz Hp. apply parse_iff_written in Hp; [|done|done]. by apply written_bytes in Hp. Qed.

Lemma V0_separators_ok : V0_SEPARATORS <> [] /\ Forall (Z.le 0) V0_SEPARATORS.
Proof. split; [done|]. by repeat constructor. Qed.

Lemma V1_separators_ok : V1_SEPARATORS <> [] /\ Forall (Z.le 0) V1_SEPARATORS.
Proof. split; [done|]. by repeat constructor. Qed.

Lemma V0_try_from_str_ok text key : V0_try_from_str text = Val (Ok key) -> well_formed (V0 key).
Proof.
  unfold V0_try_from_str, mbind, outcome_bind. destruct (parse_with_separators text V0_SEPARATORS) as [[bytes|]|] eqn:Hp; cbn; try done.
  intros [= Hk]. apply V0_try_from_spec in Hk; [tauto|]. by apply parsed_bytes in Hp; try apply V0_separators_ok.
Qed.

Lemma V1_try_from_str_ok text key : V1_try_from_str text = Val (Ok key) -> well_formed (V1 key).
Proof.
  unfold V1_try_from_str, mbind, outcome_bind. destruct (parse_with_separators text V1_SEPARATORS) as [[bytes|]|] eqn:Hp; cbn; try done.
  intros [= Hk]. apply V1_try_from_spec in Hk; [tauto|]. by apply parsed_bytes in Hp; try apply V1_separators_ok.
Qed.

Lemma try_from_str_ok text key : try_from_str text = Val (Ok key) -> well_formed key.
Proof.
  unfold try_from_str, mbind, outcome_bind. destruct (V0_try_from_str text) as [[key0|]|] eqn:E0; try done.
  { intros [= <-]. by apply V0_try_from_str_ok in E0. }
  destruct (V1_try_from_str text) as [[key1|]|] eqn:E1; try done.
  intros [= <-]. by apply V1_try_from_str_ok in E1.
Qed.

Lemma without_epoch_ok crn : zlen crn = 16 -> Forall is_byte crn -> unrepeated crn ->
  well_formed (V1 (without_epoch crn)) /\ V1_is_valid (without_epoch crn) = false.
Proof.
  intros Hl Hb Hu. rewrite without_epoch_parts by done. split.
  - exists crn, 0x81, [0; 0; 0; 0]. split_and!; try done; [|by right].
    apply Forall_app. split; [done|]. repeat constructor; done.
  - unfold V1_is_valid. rewrite version_of_key; done.
Qed.

Lemma with_epoch_ok crn epoch : zlen crn = 16 -> Forall is_byte crn -> unrepeated crn ->
  well_formed (V1 (with_epoch crn epoch)) /\ V1_is_valid (with_epoch crn epoch) = true.
Proof.
  intros Hl Hb Hu. rewrite with_epoch_parts by done.
  assert (He : zlen (be_bytes 4 epoch) = 4) by (unfold zlen; by rewrite be_bytes_length). split.
  - exists crn, 0x01, (be_bytes 4 epoch). split_and!; try done; [|by left].
    apply Forall_app. split; [done|]. constructor; [done|]. apply be_bytes_are_bytes.
  - unfold V1_is_valid. rewrite version_of_key; done.
Qed.

Lemma V1_parts key : well_formed (V1 key) -> exists crn version epoch,
  key = mkV1 (crn ++ version :: epoch) /\ zlen crn = 16 /\ zlen epoch = 4 /\
  Forall is_byte crn /\ is_byte version /\ Forall is_byte epoch /\ unrepeated crn.
Proof.
  destruct key as [bytes]. intros (crn & version & epoch & -> & Hc & He & Hb & Hu & _).
  apply Forall_app in Hb as [Hb [Hv Hbe]%Forall_cons]. by exists crn, version, epoch.
Qed.

Lemma process_server_response_ok key response key' :
  well_formed key -> process_server_response key response = Ok (Some key') ->
  well_formed key' /\ is_valid key' = true /\ is_valid key = false /\ secret key' = secret key.
Proof.
  destruct key as [key|key]; [discriminate|]. intros (crn & version & epoch & -> & Hc & He & Hb & _ & _ & Hu)%V1_parts.
  cbn [process_server_response is_valid]. unfold V1_process_server_response.
  destruct (V1_is_valid _); [discriminate|]. unfold secret at 2. cbn [as_slice v1_bytes]. rewrite crn_of_key by done.
  destruct (RootKey.epoch response) as [e|]; intros [= <-]; unfold secret; cbn [is_valid as_slice RootKey.crn].
  - pose proof (with_epoch_ok crn e Hc Hb Hu) as [Hw Hv]. split_and!; try done.
    rewrite with_epoch_parts by done. apply crn_of_key. done.
  - split_and!; try done. change (take 16 crn = crn). apply take_ge. unfold zlen in Hc. lia.
Qed.

Section Generate.
Context {R : Type} `{RngLaws R}.

(** What is drawn for the first time, the second time and so on. *)
Fixpoint nth_draw (n : nat) (rng : R) : list Z :=
  match n with
  | O => (fill_bytes rng CRN_LEN).1
  | S n => nth_draw n (fill_bytes rng CRN_LEN).2
  end.

Lemma draw_again_ok fuel : forall rng crn crn', zlen crn = 16 -> Forall is_byte crn ->
  draw_again fuel rng crn = Some crn' -> zlen crn' = 16 /\ Forall is_byte crn' /\ unrepeated crn'.
Proof.
  induction fuel as [|fuel IH]; intros rng crn crn' Hl Hb; cbn [draw_again];
    (destruct (has_repeated_chunk crn) eqn:Hr; [|intros [= <-]; split_and!; [done|done|by apply has_repeated_chunk_spec]]).
  - discriminate.
  - pose proof (fill_length rng CRN_LEN) as Hfl. pose proof (fill_are_bytes rng CRN_LEN) as Hfb.
    destruct (fill_bytes rng CRN_LEN) as [c rng']. cbn [fst] in *. by apply IH; [apply Hfl|].
Qed.

Lemma generate_ok fuel rng key : generate fuel rng = Some key -> well_formed key /\ is_valid key = false.
Proof.
  unfold generate. pose proof (fill_length rng CRN_LEN) as Hfl. pose proof (fill_are_bytes rng CRN_LEN) as Hfb.
  destruct (fill_bytes rng CRN_LEN) as [c rng']. cbn [fst] in *.
  intros (crn & Hd & ->)%fmap_Some. apply draw_again_ok in Hd as (Hl & Hb & Hu); [|by apply Hfl|done].
  by apply without_epoch_ok.
Qed.

Lemma draw_again_ends n : forall fuel rng crn, (n <= fuel)%nat ->
  has_repeated_chunk (match n with O => crn | S n => nth_draw n rng end) = false ->
  exists crn', draw_again fuel rng crn = Some crn'.
Proof.
  induction n as [|n IH]; intros fuel rng crn Hle Hr; [destruct fuel; cbn; rewrite Hr; by eexists|].
  destruct fuel as [|fuel]; [lia|]. cbn [draw_again]. destruct (has_repeated_chunk crn); [|by eexists].
  destruct n; cbn [nth_draw] in Hr; destruct (fill_bytes rng CRN_LEN) as [c rng']; apply IH; done || lia.
Qed.

(** [generate] ends as soon as one of the draws has no repeated digits. *)
Lemma generate_ends n fuel rng : (n <= fuel)%nat -> unrepeated (nth_draw n rng) ->
  exists key, generate fuel rng = Some key.
Proof.
  intros Hle Hu. apply has_repeated_chunk_spec in Hu.
  2:{ clear Hle. revert rng Hu. induction n as [|n IH]; intros rng Hu; [apply fill_are_bytes|]. by apply IH. }
  unfold generate. destruct (draw_again_ends n fuel (fill_bytes rng CRN_LEN).2 (fill_bytes rng CRN_LEN).1 Hle) as [c Hc].
  { by destruct n. }
  destruct (fill_bytes rng CRN_LEN) as [c0 rng']. cbn [fst snd] in Hc. rewrite Hc. by eexists.
Qed.

(** C24. The root keys of call links are well-formed: the bytes that are accepted as a key are
    exactly those of the well-formed keys; what is read from text, generated or given out
    when the link is created is well-formed; a generated key is not valid until then, and
    one draw without repeated digits is enough for the generator to come to an end. *)
Theorem root_keys_are_well_formed :
  (forall value key, Forall is_byte value ->
     try_from value = Ok key <-> well_formed key /\ as_slice key = value) /\
  (forall text key, try_from_str text = Val (Ok key) -> well_formed key) /\
  (forall fuel rng key, generate fuel rng = Some key -> well_formed key /\ is_valid key = false) /\
  (forall n fuel rng, (n <= fuel)%nat -> unrepeated (nth_draw n rng) -> is_Some (generate fuel rng)) /\
  (forall key response key', well_formed key -> process_server_response key response = Ok (Some key') ->
     well_formed key' /\ is_valid key' = true).
Proof.
  split_and!.
  - intros. by apply try_from_spec.
  - apply try_from_str_ok.
  - apply generate_ok.
  - intros n fuel rng Hle Hu. destruct (generate_ends n fuel rng Hle Hu) as [key ->]. by eexists.
  - intros key response key' Hw Hp. by destruct (process_server_response_ok _ _ _ Hw Hp) as (? & ? & _).
Qed.

End Generate.

(** ** The text of a key *)

Lemma index_are_bytes b : is_byte b -> Forall is_byte (index b).
Proof.
  intros Hb. destruct (index_digits b Hb) as (u & l & Hu & Hl & -> & _).
  assert (Ha : Forall is_byte ALPHABET) by apply as_bytes_are_bytes.
  repeat constructor; [apply (Forall_lookup_1 _ _ _ _ Ha Hu)..|apply (Forall_lookup_1 _ _ _ _ Ha Hl)|apply (Forall_lookup_1 _ _ _ _ Ha Hl)].
Qed.

Lemma encode_are_bytes l : Forall is_byte l -> Forall is_byte (encode l).
Proof.
  induction 1 as [|b l Hb _ IH]; [constructor|]. change (encode (b :: l)) with (index b ++ encode l).
  apply Forall_app. split; [by apply index_are_bytes|done].
Qed.

Lemma join_are_bytes pieces : Forall (Forall is_byte) pieces -> Forall is_byte (join pieces).
Proof.
  induction 1 as [|piece pieces Hp _ IH]; [constructor|]. destruct pieces as [|next pieces]; [by apply encode_are_bytes|].
  change (join (piece :: next :: pieces)) with (encode piece ++ DASH :: join (next :: pieces)).
  apply Forall_app. split; [by apply encode_are_bytes|]. by constructor.
Qed.

(** The pieces that are printed. *)
Definition pieces (key : CallLinkRootKey) : list (list Z) :=
  match key with
  | V0 key => chunks 2 (crn key)
  | V1 key => chunks 4 (slice 0 CRN_LEN (v1_bytes key)) ++ [[version_byte key]; epoch_bytes key]
  end.

Definition separators (key : CallLinkRootKey) : list Z :=
  match key with V0 _ => V0_SEPARATORS | V1 _ => V1_SEPARATORS end.

Definition pieces_ok (sizes : list Z) (l : list (list Z)) (bytes : list Z) : Prop :=
  l <> [] /\ Forall (fun p => Forall is_byte p /\ p <> []) l /\ (zlen <$> l) = sizes /\ concat l = bytes.

Lemma pieces_by_size sizes (l : list (list Z)) bytes :
  (zlen <$> l) = sizes -> concat l = bytes -> Forall is_byte bytes -> sizes <> [] -> Forall (Z.lt 0) sizes ->
  pieces_ok sizes l bytes.
Proof.
  intros Hs Hc Hb Hne Hpos. split_and!; try done.
  - intros ->. by subst sizes.
  - subst sizes bytes. clear Hne. induction l as [|p l IH]; [constructor|]. cbn [concat] in Hb. rewrite fmap_cons in Hpos.
    apply Forall_app in Hb as [Hp Hb]. apply Forall_cons in Hpos as [Hz Hpos]. constructor; [|by apply IH].
    split; [done|]. intros ->. exact (Z.lt_irrefl 0 Hz).
Qed.

Lemma pieces_well_formed key : well_formed key -> pieces_ok (separators key) (pieces key) (as_slice key).
Proof.
  destruct key as [[crn]|key].
  - intros (Hl & Hb & _). destruct (chunks_exact_pieces 2 8 crn) as [Hc Hs]; [lia|done|].
    apply pieces_by_size; try done. by repeat constructor.
  - intros (crn & version & epoch & -> & Hc & He & Hb & Hv & Hbe & _)%V1_parts.
    destruct (chunks_exact_pieces 4 4 crn) as [Hcc Hs]; [lia|done|].
    apply pieces_by_size; try done.
    + cbn [pieces v1_bytes]. rewrite crn_of_key, version_of_key, epoch_of_key, fmap_app, Hs by done.
      cbn. rewrite He. done.
    + cbn [pieces v1_bytes as_slice]. rewrite crn_of_key, version_of_key, epoch_of_key, concat_app, Hcc by done.
      cbn. by rewrite app_nil_r.
    + cbn. apply Forall_app. split; [done|]. by constructor.
    + by repeat constructor.
Qed.

Lemma formatted_pieces key : well_formed key -> to_formatted_string key = Val (of_bytes (join (pieces key))).
Proof.
  destruct key as [key|key].
  - intros _. cbn [to_formatted_string pieces]. unfold V0_to_formatted_string, fmt. cbn -[write_chunks chunks].
    by rewrite write_chunks_join.
  - intros Hw. pose proof (pieces_well_formed _ Hw) as (_ & _ & Hs & _).
    apply V1_parts in Hw as (crn & version & epoch & -> & Hc & He & Hb & Hv & Hbe & _).
    cbn [to_formatted_string pieces v1_bytes] in *. unfold V1_to_formatted_string, fmt. cbn [v1_bytes].
    rewrite version_slice, epoch_of_key, crn_of_key, version_of_key in * by done.
    unfold mbind, outcome_bind. cbn -[write_chunks chunks join USIZE_MAX].
    rewrite (chunks_short USIZE_MAX [version]), (chunks_short USIZE_MAX epoch) by (done || (intros ->; done) || rewrite ?He; done).
    rewrite write_chunks_join, join_app; [| |done].
    2:{ intros E. rewrite E in Hs. discriminate. }
    cbn. rewrite !app_nil_r. done.
Qed.

Lemma join_written_trailer l sizes bytes more : pieces_ok sizes l bytes -> more <> [] ->
  Written sizes (join l ++ DASH :: more) bytes.
Proof.
  intros (Hne & Hall & <- & <-) Hm. induction Hall as [|piece l [Hb Hp] Hall IH]; [done|].
  destruct l as [|next l].
  - cbn. rewrite app_nil_r. by constructor.
  - change (join (piece :: next :: l)) with (encode piece ++ DASH :: join (next :: l)).
    rewrite <- app_assoc. apply (written_piece (zlen piece) (zlen next)); [done|done| |by apply IH].
    by destruct (join (next :: l)).
Qed.

(** A text in pieces of four bytes is not a key of version 0. *)
Lemma V1_text_is_not_V0 text b0 b1 b2 rest : is_byte b0 -> is_byte b1 -> is_byte b2 ->
  as_bytes text = encode [b0; b1] ++ index b2 ++ rest ->
  V0_try_from_str text = Val (Err "invalid root key string"%string).
Proof.
  intros H0 H1 H2 E. unfold V0_try_from_str, parse_with_separators, V0_SEPARATORS. rewrite E.
  rewrite parse_loop_encode; [|by apply Forall_cons; split; [|apply Forall_cons]|done].
  destruct (index_digits b2 H2) as (u & l & Hu & _ & -> & Hpu & _).
  change (2 - zlen [b0; b1]) with 0. cbn [app parse_loop]. change (0 =? 0) with true.
  rewrite bool_decide_false; [done|]. intros Hd%list_elem_of_singleton. change (u = DASH) in Hd. by subst u.
Qed.

Lemma try_from_str_written key text : well_formed key ->
  (exists more, as_bytes text = join (pieces key) ++ more) ->
  Written (separators key) (as_bytes text) (as_slice key) ->
  try_from_str text = Val (Ok key).
Proof.
  intros Hw [more Hmore] HW. pose proof (written_bytes _ _ _ HW) as Hbytes. pose proof (pieces_well_formed _ Hw) as (_ & Hall & Hs & Hcat).
  destruct key as [key|key]; cbn [separators as_slice pieces] in *; unfold try_from_str.
  - apply parse_iff_written in HW; [|apply V0_separators_ok..].
    unfold V0_try_from_str. rewrite HW. cbn. rewrite (proj2 (V0_try_from_spec (crn key) key Hbytes)); done.
  - assert (Hfirst : exists b0 b1 b2 b3 l, chunks 4 (slice 0 CRN_LEN (v1_bytes key)) ++ [[version_byte key]; epoch_bytes key]
      = [b0; b1; b2; b3] :: l).
    { destruct (chunks 4 _ ++ _) as [|p l]; [discriminate|]. cbn in Hs. injection Hs as Hp _.
      destruct p as [|b0 [|b1 [|b2 [|b3 [|]]]]]; try discriminate; [by exists b0, b1, b2, b3, l|].
      unfold zlen in Hp. cbn in Hp. lia. }
    destruct Hfirst as (b0 & b1 & b2 & b3 & l & Hl).
    rewrite (V1_text_is_not_V0 text b0 b1 b2 (index b3 ++ (match l with [] => [] | _ => DASH :: join l end) ++ more)).
    + apply parse_iff_written in HW; [|apply V1_separators_ok..].
      unfold V1_try_from_str, mbind, outcome_bind. rewrite HW,  (proj2 (V1_try_from_spec (v1_bytes key) key Hbytes)); done.
    + rewrite Hl in Hall. by apply Forall_cons in Hall as [[(? & ?)%Forall_cons _] _].
    + rewrite Hl in Hall. by apply Forall_cons in Hall as [[(? & (? & ?)%Forall_cons)%Forall_cons _] _].
    + rewrite Hl in Hall. by apply Forall_cons in Hall as [[(? & (? & (? & ?)%Forall_cons)%Forall_cons)%Forall_cons _] _].
    + rewrite Hmore, Hl. destruct l; cbn; rewrite <- ?app_assoc; done.
Qed.

(** C23. The text of a root key can be read back: every well-formed key is printed, and what
    is printed is read as the same key, of the same version. *)
Theorem root_key_text_roundtrip key : well_formed key ->
  exists text, to_formatted_string key = Val text /\ try_from_str text = Val (Ok key).
Proof.
  intros Hw. exists (of_bytes (join (pieces key))). split; [by apply formatted_pieces|].
  destruct (pieces_well_formed _ Hw) as (Hne & Hall & Hs & Hc).
  assert (Hb : as_bytes (of_bytes (join (pieces key))) = join (pieces key)).
  { apply as_bytes_of_bytes, join_are_bytes. by eapply Forall_impl; [exact Hall|intros ? []]. }
  apply try_from_str_written; [done|exists []; by rewrite app_nil_r|]. rewrite Hb, <- Hs, <- Hc. by apply join_written.
Qed.

(** Any text behind a dash is accepted and ignored behind the text of a key: reading the
    text of a key is not injective. *)
Theorem text_behind_a_key_is_ignored key more : well_formed key -> more <> ""%string ->
  exists text, to_formatted_string key = Val text /\ try_from_str (text +:+ "-" +:+ more) = Val (Ok key).
Proof.
  intros Hw Hm. exists (of_bytes (join (pieces key))). split; [by apply formatted_pieces|].
  pose proof (pieces_well_formed _ Hw) as Hp. destruct Hp as (Hne & Hall & Hs & Hc).
  assert (Hb : as_bytes (of_bytes (join (pieces key)) +:+ "-" +:+ more) = join (pieces key) ++ DASH :: as_bytes more).
  { rewrite as_bytes_app, as_bytes_of_bytes, as_bytes_app; [done|].
    apply join_are_bytes. by eapply Forall_impl; [exact Hall|intros ? []]. }
  apply try_from_str_written; [done|rewrite Hb; by eexists|]. rewrite Hb.
  apply join_written_trailer; [by apply pieces_well_formed|]. by destruct more.
Qed.

(** ** Encryption *)

Lemma rposition_app b l1 l2 : rposition b l2 = None -> rposition b (l1 ++ b :: l2) = Some (length l1).
Proof.
  intros Hn. induction l1 as [|x l1 IH]; cbn; [by rewrite Hn, Z.eqb_refl|]. by rewrite IH.
Qed.

Lemma rposition_zeros n : rposition ENCRYPTION_PADDING_MARKER (replicate n 0) = None.
Proof. induction n as [|n IH]; cbn; [done|]. by rewrite IH. Qed.

(** The padding is the marker and zeros, and fills up a block. *)
Lemma pad_spec nonce plaintext : exists n,
  pad nonce plaintext = nonce ++ plaintext ++ ENCRYPTION_PADDING_MARKER :: replicate n 0 /\
  (n < 32)%nat /\ zlen (pad nonce plaintext) mod 32 = 0.
Proof.
  unfold pad. set (buffer := nonce ++ plaintext ++ [ENCRYPTION_PADDING_MARKER]).
  change ENCRYPTION_BLOCK_SIZE with 32. pose proof (Z.mod_pos_bound (zlen buffer) 32 ltac:(lia)) as Hm.
  pose proof (Z.div_mod (zlen buffer) 32 ltac:(lia)) as Hd.
  destruct (Z.eqb_spec (32 - zlen buffer mod 32) 32) as [E|E]; cbn [negb].
  - exists 0%nat. split_and!; [done|lia|lia].
  - exists (Z.to_nat (32 - zlen buffer mod 32)). split_and!; [|lia|].
    + unfold buffer. rewrite <- !app_assoc. done.
    + rewrite zlen_app. unfold zlen at 2. rewrite length_replicate, Z2Nat.id by lia.
      replace (zlen buffer + (32 - zlen buffer mod 32)) with ((zlen buffer / 32 + 1) * 32) by lia. apply Z.mod_mul. lia.
Qed.

Section Encryption.
Context `{RootKeyCryptoLaws} {R : Type} `{RngLaws R}.

Lemma make_cipher_returns key : exists cipher, make_cipher key = Val cipher.
Proof.
  destruct key as [key|key]; unfold make_cipher.
  - destruct (hkdf_32 (crn key) V0_HKDF_INFO_CIPHER) as [okm ->]. by eexists.
  - destruct (hkdf_32 (slice 0 CRN_LEN (v1_bytes key)) V1_HKDF_INFO_CIPHER) as [okm ->]. by eexists.
Qed.

(** What a key encrypts it decrypts, the padding marker included; the ciphertext has a
    whole number of blocks and the tag. *)
Lemma encrypt_decrypt key plaintext (rng : R) : zlen plaintext + 64 <= P_MAX ->
  exists encrypted, encrypt key plaintext rng = Val encrypted /\ decrypt key encrypted = Val (Ok plaintext) /\
    (zlen encrypted - 16) mod 32 = 0 /\ zlen encrypted <= zlen plaintext + 60 /\
    (Forall is_byte plaintext -> Forall is_byte encrypted).
Proof.
  intros Hlen. unfold encrypt, decrypt. pose proof (fill_length rng NONCE_SIZE ltac:(done)) as Hn.
  set (nonce := (fill_bytes rng NONCE_SIZE).1) in *. assert (Hn' : length nonce = 12%nat) by (unfold zlen, NONCE_SIZE in Hn; lia).
  destruct (pad_spec nonce plaintext) as (n & Hp & Hlt & Hmod). rewrite Hp in *.
  destruct (make_cipher_returns key) as [cipher ->]. rewrite drop_app_length, take_app_length.
  set (padded := plaintext ++ ENCRYPTION_PADDING_MARKER :: replicate n 0) in *.
  assert (Hpl : zlen padded = zlen plaintext + 1 + Z.of_nat n).
  { unfold padded. rewrite zlen_app, zlen_cons. unfold zlen at 2. rewrite length_replicate. lia. }
  destruct (aes_defined cipher nonce [] padded) as (ct & tag & Hc); [lia|].
  destruct (aes_lengths _ _ _ _ _ _ Hc) as [Hct Htag]. unfold mbind, outcome_bind. cbn [unwrap]. rewrite Hc.
  exists ((nonce ++ ct) ++ tag). rewrite zlen_app in Hmod.
  assert (Hl : zlen ((nonce ++ ct) ++ tag) = 28 + zlen padded) by (rewrite !zlen_app, Hct, Htag, Hn; done || (unfold NONCE_SIZE; lia)).
  rewrite Hl. split; [done|]. pose proof (zlen_nonneg padded).
  destruct (Z.ltb_spec (28 + zlen padded) NONCE_SIZE); [unfold NONCE_SIZE in *; lia|].
  rewrite <- app_assoc. change (Z.to_nat NONCE_SIZE) with 12%nat. rewrite <- Hn', take_app_length, drop_app_length.
  rewrite (aes_inverse _ _ _ _ _ Hc). unfold padded. rewrite rposition_app by apply rposition_zeros.
  rewrite take_app_length. split_and!; [done| | |].
  - fold padded. replace (28 + zlen padded - 16) with (zlen nonce + zlen padded) by (rewrite Hn; unfold NONCE_SIZE; lia). done.
  - fold padded. lia.
  - intros Hbytes. destruct (aes_bytes _ _ _ _ _ _ Hc) as [Hbc Hbt].
    + unfold padded. apply Forall_app. split; [done|]. constructor; [done|]. by apply Forall_replicate.
    + rewrite !Forall_app. split; [|done]. apply fill_are_bytes.
Qed.

(** Creating a link keeps its secret: the key that is kept from the answer of the server is
    valid and has the secret and the room of the key that the link was created with; with an
    epoch it also has the same cipher and tells the server the epoch in every request. *)
Theorem creation_keeps_the_secret key response key' headers :
  well_formed key -> process_server_response key response = Ok (Some key') ->
  is_valid key = false /\ is_valid key' = true /\ secret key' = secret key /\
  derive_room_id key' = derive_room_id key /\
  match epoch response with
  | Some e => make_cipher key' = make_cipher key /\
      (0 <= e < 2 ^ 32 -> exists h, prepare_http_headers key' headers = Val h /\ h !! HTTP_EPOCH_HEADER = Some (pretty (Z.to_N e)))
  | None => exists c, key' = V0 (mkV0 c)
  end.
Proof.
  intros Hw Hp. destruct (process_server_response_ok _ _ _ Hw Hp) as (Hw' & Hv' & Hv & Hs).
  split_and!; try done; [by unfold derive_room_id; fold (secret key'); rewrite Hs|].
  destruct key as [key|key]; [discriminate|]. apply V1_parts in Hw as (crn & version & ep & -> & Hc & He & Hb & _ & _ & Hu).
  cbn [process_server_response is_valid] in *. unfold V1_process_server_response in Hp. rewrite Hv in Hp.
  cbn [v1_bytes] in Hp. rewrite crn_of_key in Hp by done.
  destruct (epoch response) as [e|]; injection Hp as <-; [|by eexists]. cbn [is_valid] in Hv'.
  rewrite with_epoch_parts in * by done. split.
  - unfold make_cipher. cbn [v1_bytes]. rewrite !crn_of_key; done.
  - intros Hr. unfold prepare_http_headers, derive_room_id.
    destruct (hkdf_32 (slice 0 CRN_LEN (as_slice (V1 (mkV1 (crn ++ 1 :: be_bytes 4 e))))) HKDF_INFO_ROOM_ID) as [okm ->].
    cbn [unwrap]. unfold mbind, outcome_bind, V1_prepare_http_headers. rewrite Hv'.
    eexists. split; [done|]. rewrite lookup_insert_eq, epoch_of_key, from_be_bytes_be_bytes; try done.
Qed.

End Encryption.

End CallLinkKeys.
