(* ===== verification/Http.v ===== *)
(** * HTTP through the application (src/rust/src/lite/http.rs)

    RingRTC has no HTTP client of its own: the application sends the requests and brings
    the responses back under the number of the request.  This file has requests and
    responses, and the table of callbacks with the proof that a response reaches the
    callback of its request, once. *)

From S2P Require Import Prelude.
From stdpp Require Import strings.
Local Open Scope Z_scope.
Local Open Scope ringrtc_scope.

Module Http.

Inductive Method : Type := Get | Put | Post | Delete.

Record Request : Type := mkRequest {
  method : Method;
  url : string;
  headers : gmap string string;
  body : option (list Z);
}.

Record ResponseStatus : Type := mkStatus { code : Z }.

Record Response : Type := mkHttpResponse {
  status : ResponseStatus;
  response_body : list Z;
}.

#[global] Instance ResponseStatus_eq_dec : EqDecision ResponseStatus.
Proof. solve_decision. Defined.

Definition GROUP_CALL_NOT_STARTED : ResponseStatus := mkStatus 404.
Definition GROUP_CALL_FULL : ResponseStatus := mkStatus 413.
Definition INVALID_CLIENT_AUTH : ResponseStatus := mkStatus 601.
Definition REQUEST_FAILED : ResponseStatus := mkStatus 602.
Definition INVALID_RESPONSE_BODY_JSON : ResponseStatus := mkStatus 702.
Definition CALL_LINK_EXPIRED : ResponseStatus := mkStatus 703.
Definition CALL_LINK_INVALID : ResponseStatus := mkStatus 704.
Definition CALL_LINK_ALREADY_CREATED : ResponseStatus := mkStatus 705.

Inductive ResponseStatusType : Type :=
| Unknown | Informational | Success | Redirection | ClientError | ServerError | RequestError | ResponseError.

Definition between (lo hi c : Z) : bool := (lo <=? c) && (c <=? hi).

Definition from_code (code : Z) : ResponseStatusType :=
  if between 100 199 code then Informational
  else if between 200 299 code then Success
  else if between 300 399 code then Redirection
  else if between 400 499 code then ClientError
  else if between 500 599 code then ServerError
  else if between 600 699 code then RequestError
  else if between 700 799 code then ResponseError
  else Unknown.

Definition is_success (s : ResponseStatus) : bool :=
  match from_code (code s) with Success => true | _ => false end.

Definition is_error (s : ResponseStatus) : bool :=
  match from_code (code s) with
  | ClientError | ServerError | RequestError | ResponseError => true
  | _ => false
  end.

(** [from_slice] is serde's deserializer for the type [D]. *)
Definition parse_json_response {D : Type} (from_slice : list Z -> option D) (response : option Response)
  : result D ResponseStatus :=
  match response with
  | None => Err REQUEST_FAILED
  | Some response =>
    if negb (is_success (status response)) then Err (status response)
    else match from_slice (response_body response) with
         | Some deserialized => Ok deserialized
         | None => Err INVALID_RESPONSE_BODY_JSON
         end
  end.

(** What a function does with an [http::Client] and a callback: it calls the callback at
    once, or sends a request and calls it with a function of the response. *)
Inductive Exchange (A : Type) : Type :=
| Done (result : A)
| Send (request : Request) (on_response : option Response -> outcome A).
Arguments Done {A} _.
Arguments Send {A} _ _.

(** ** [DelegatingClient]

    [C] is the type of callbacks. *)
Section Client.
Context {C : Type}.

Record ResponseCallbacks : Type := mkCallbacks {
  response_callback_by_request_id : gmap Z C;
  next_request_id : Z;
}.

#[global] Instance ResponseCallbacks_eta : Eta ResponseCallbacks := fun r =>
  mkCallbacks (response_callback_by_request_id r) (next_request_id r).

Definition default_callbacks : ResponseCallbacks := mkCallbacks ∅ 0.

Definition push (response_callback : C) (s : ResponseCallbacks) : ResponseCallbacks * Z :=
  let request_id := next_request_id s in
  let s := s <| next_request_id := wrap 32 (next_request_id s + 1) |> in
  (s <| response_callback_by_request_id := <[request_id := response_callback]> (response_callback_by_request_id s) |>,
   request_id).

Definition pop (request_id : Z) (s : ResponseCallbacks) : ResponseCallbacks * option C :=
  (s <| response_callback_by_request_id := delete request_id (response_callback_by_request_id s) |>,
   response_callback_by_request_id s !! request_id).

(** What the client does to the outside. *)
Inductive Event : Type :=
| RequestSent (request_id : Z) (request : Request)
| CallbackCalled (callback : C) (response : option Response)
| UnknownRequest (request_id : Z).

Definition send_request (request : Request) (callback : C) (s : ResponseCallbacks) : ResponseCallbacks * Event :=
  let '(s, request_id) := push callback s in (s, RequestSent request_id request).

Definition received_response (request_id : Z) (response : option Response) (s : ResponseCallbacks)
  : ResponseCallbacks * Event :=
  let '(s, callback) := pop request_id s in
  (s, match callback with
      | Some callback => CallbackCalled callback response
      | None => UnknownRequest request_id
      end).

(** ** Runs

    The two tables are locked for [push] and [pop], so that runs are sequences of these;
    responses come in any order, for any number, and more than once. *)
Inductive Op : Type :=
| OpSend (request : Request) (callback : C)
| OpReceive (request_id : Z) (response : option Response).

Definition step (op : Op) (s : ResponseCallbacks) : ResponseCallbacks * Event :=
  match op with
  | OpSend request callback => send_request request callback s
  | OpReceive request_id response => received_response request_id response s
  end.

Fixpoint run (ops : list Op) (s : ResponseCallbacks) : list Event :=
  match ops with
  | [] => []
  | op :: ops => let '(s, e) := step op s in e :: run ops s
  end.

(** The specification: the callbacks in the order of their requests, with a mark for those
    that were called.  A request is numbered by its place. *)
Local Notation SpecState := (list (C * bool)).

Definition spec_step (op : Op) (s : SpecState) : SpecState * Event :=
  match op with
  | OpSend request callback => (s ++ [(callback, false)], RequestSent (zlen s) request)
  | OpReceive request_id response =>
    match s !! Z.to_nat request_id with
    | Some (callback, false) =>
      (<[Z.to_nat request_id := (callback, true)]> s, CallbackCalled callback response)
    | _ => (s, UnknownRequest request_id)
    end
  end.

Fixpoint spec_run (ops : list Op) (s : SpecState) : list Event :=
  match ops with
  | [] => []
  | op :: ops => let '(s, e) := spec_step op s in e :: spec_run ops s
  end.

Fixpoint sends (ops : list Op) : Z :=
  match ops with
  | [] => 0
  | OpSend _ _ :: ops => sends ops + 1
  | OpReceive _ _ :: ops => sends ops
  end.

Lemma sends_nonneg ops : 0 <= sends ops.
Proof. induction ops as [|[] ops IH]; cbn; lia. Qed.

(** The numbers of responses are [u32]. *)
Definition op_ok (op : Op) : Prop :=
  match op with OpReceive id _ => 0 <= id | OpSend _ _ => True end.

Record represents (spec : SpecState) (s : ResponseCallbacks) : Prop := {
  rep_next : next_request_id s = wrap 32 (zlen spec);
  rep_lookup id : 0 <= id -> response_callback_by_request_id s !! id =
    match spec !! Z.to_nat id with Some (c, false) => Some c | _ => None end;
}.

Lemma represents_send spec s request callback : zlen spec < 2 ^ 32 -> represents spec s ->
  (step (OpSend request callback) s).2 = (spec_step (OpSend request callback) spec).2 /\
  represents (spec_step (OpSend request callback) spec).1 (step (OpSend request callback) s).1.
Proof.
  intros Hl [Hn Hlk]. pose proof (zlen_nonneg spec). rewrite wrap_small in Hn by lia.
  cbn. rewrite Hn. split; [done|]. constructor; cbn.
  - by rewrite zlen_app.
  - intros id Hid. destruct (decide (id = zlen spec)) as [->|Hne].
    + rewrite lookup_insert_eq. unfold zlen. rewrite Nat2Z.id, list_lookup_middle; done.
    + rewrite lookup_insert_ne, Hlk by done. destruct (decide (id < zlen spec)) as [Hlt|Hge].
      * rewrite lookup_app_l; [done|]. unfold zlen in Hlt. lia.
      * rewrite (lookup_ge_None_2 spec), (lookup_ge_None_2 (spec ++ _)); [done| |].
        { rewrite length_app. cbn. unfold zlen in *. lia. }
        { unfold zlen in *. lia. }
Qed.

Lemma represents_receive spec s id response : 0 <= id -> represents spec s ->
  (step (OpReceive id response) s).2 = (spec_step (OpReceive id response) spec).2 /\
  represents (spec_step (OpReceive id response) spec).1 (step (OpReceive id response) s).1.
Proof.
  intros Hid [Hn Hlk]. cbn. rewrite (Hlk id Hid).
  assert (Hsame : match spec !! Z.to_nat id with Some (_, false) => False | _ => True end ->
    represents spec (s <| response_callback_by_request_id := delete id (response_callback_by_request_id s) |>)).
  { intros Hno. constructor; cbn; [done|]. intros id' Hid'. destruct (decide (id' = id)) as [->|].
    - rewrite lookup_delete_eq. by destruct (spec !! Z.to_nat id) as [[? []]|].
    - rewrite lookup_delete_ne by done. by apply Hlk. }
  destruct (spec !! Z.to_nat id) as [[c []]|] eqn:E; cbn; [split; [done|by apply Hsame]| |split; [done|by apply Hsame]].
  split; [done|]. constructor; cbn; [by rewrite zlen_insert|].
  intros id' Hid'. destruct (decide (id' = id)) as [->|].
  - rewrite lookup_delete_eq, list_lookup_insert_eq; [done|]. by apply lookup_lt_Some in E.
  - rewrite lookup_delete_ne, list_lookup_insert_ne by lia. by apply Hlk.
Qed.

Lemma run_refines ops : forall spec s, Forall op_ok ops -> zlen spec + sends ops <= 2 ^ 32 -> represents spec s ->
  run ops s = spec_run ops spec.
Proof.
  induction ops as [|op ops IH]; intros spec s Hok Hl Hr; [done|]. apply Forall_cons in Hok as [Ho Hok].
  assert (Hstep : (step op s).2 = (spec_step op spec).2 /\ represents (spec_step op spec).1 (step op s).1 /\
    zlen (spec_step op spec).1 + sends ops <= 2 ^ 32).
  { pose proof (sends_nonneg ops). destruct op as [request callback|id response]; cbn [sends] in Hl.
    - destruct (represents_send spec s request callback) as [H1 H2]; [lia|done|]. split_and!; [done|done|].
      cbn. rewrite zlen_app, zlen_cons, zlen_nil. lia.
    - destruct (represents_receive spec s id response) as [H1 H2]; [done|done|].
      split_and!; [done|done|]. cbn. destruct (spec !! Z.to_nat id) as [[c []]|]; cbn; rewrite ?zlen_insert; lia. }
  cbn. destruct (step op s) as [s' e], (spec_step op spec) as [spec' e']. cbn in Hstep.
  destruct Hstep as (-> & Hr' & Hl'). f_equal. by apply IH.
Qed.

(** C26. Up to 2^32 requests, the client refines a list of callbacks: requests are numbered
    from 0 on, a response with the number of a request calls the callback of this request,
    and only the first one does; other responses call nothing. *)
Theorem responses_reach_their_requests ops : Forall op_ok ops -> sends ops <= 2 ^ 32 ->
  run ops default_callbacks = spec_run ops [].
Proof. intros Hok Hl. apply run_refines; [done|by rewrite zlen_nil|]. by constructor. Qed.

End Client.
End Http.
