(* ===== verification/CallLinks.v ===== *)
(** * Call links (src/rust/src/lite/call_links.rs and call_links/member_resolver.rs)

    The requests that read, create, update and delete a call link, the state that comes
    back, and the resolver that finds the user behind an identifier of the server.
    Base64, JSON, hexadecimal and zkgroup are parameters. *)

From S2P Require Import Prelude Base16 RootKey CallLinkKeys Http.
From stdpp Require Import strings pretty.
Local Open Scope Z_scope.
Local Open Scope ringrtc_scope.
Import Text.
Import RootKey.

(** ** Requests *)

Record CallLinkCreateRequest : Type := mkCreateRequest {
  create_admin_passkey : list Z;
  create_restrictions : option CallLinkRestrictions;
  create_zkparams : list Z;
}.

Record CallLinkUpdateRequest : Type := mkUpdateRequest {
  update_admin_passkey : list Z;
  update_encrypted_name : option (list Z);
  update_restrictions : option CallLinkRestrictions;
  update_revoked : option bool;
}.

Record CallLinkDeleteRequest : Type := mkDeleteRequest { delete_admin_passkey : list Z }.

(** [base64] and the code that serde derives. *)
Class CallLinkCodec : Type := {
  base64_encode : list Z -> string;
  base64_decode : list Z -> option (list Z);
  call_link_response_from_json : list Z -> option CallLinkResponse;
  empty_from_json : list Z -> option unit;
  create_request_to_json : CallLinkCreateRequest -> list Z;
  update_request_to_json : CallLinkUpdateRequest -> list Z;
  delete_request_to_json : CallLinkDeleteRequest -> list Z;
}.

Class CallLinkCodecLaws `{CallLinkCodec} : Prop := {
  base64_inverse l : Forall is_byte l -> base64_decode (as_bytes (base64_encode l)) = Some l;
  base64_nonempty l : l <> [] -> as_bytes (base64_encode l) <> [];
}.

Module CallLinks.
Import Http.

Record CallLinkState : Type := mkCallLinkState {
  name : string;
  state_restrictions : CallLinkRestrictions;
  state_revoked : bool;
  expiration : Z;
  root_key : CallLinkRootKey;
}.

(** [TryFrom] of the protobuf message, with [None] for the fields that are missing. *)
Definition response_of_proto (proto_name : option string) (proto_restrictions : option CallLinkRestrictions)
    (proto_revoked : option bool) (proto_expiration : option Z) : result CallLinkResponse string :=
  match proto_name, proto_restrictions, proto_revoked, proto_expiration with
  | Some name, Some restrictions, Some revoked, Some expiration =>
    Ok (mkResponse (as_bytes name) restrictions revoked expiration None)
  | _, _, _, _ => Err "Missing required fields in CallLinkState"%string
  end.

(** [SystemTime] on unix: signed 64-bit seconds; adding a [Duration] panics on overflow. *)
Definition SYSTEM_TIME_MAX : Z := 2 ^ 63 - 1.
Definition system_time_from_unix (secs : Z) : outcome Z :=
  if secs <=? SYSTEM_TIME_MAX then Val secs else Panic.

(** [str::trim_end_matches('/')]. *)
Fixpoint trim_slashes (l : list Z) : list Z :=
  match l with
  | [] => []
  | b :: l =>
    match trim_slashes l with
    | [] => if b =? 47 then [] else [b]
    | l => b :: l
    end
  end.
Definition trim_end_slashes (s : string) : string := of_bytes (trim_slashes (as_bytes s)).

Definition call_link_url_from_sfu_url (sfu_url : string) : string :=
  trim_end_slashes sfu_url +:+ "/v1/call-link".

Section CallLinks.
Context `{RootKeyCrypto, CallLinkCodec}.

(** The name is empty if any step fails. *)
Definition decrypt_name (root_key : CallLinkRootKey) (encoded : list Z) : outcome string :=
  match base64_decode encoded with
  | None => Val ""%string
  | Some encrypted_bytes =>
    decrypted ← decrypt root_key encrypted_bytes;
    Val (match decrypted with
         | Ok name_bytes => default ""%string (from_utf8 name_bytes)
         | Err _ => ""%string
         end)
  end.

Definition from_serialized (deserialized : CallLinkResponse) (key : CallLinkRootKey) : outcome CallLinkState :=
  name ← (if bool_decide (encrypted_name deserialized = []) then Val ""%string
          else decrypt_name key (encrypted_name deserialized));
  expiration ← system_time_from_unix (expiration_unix_timestamp deserialized);
  Val (mkCallLinkState name (restrictions deserialized) (revoked deserialized) expiration key).

Definition auth_header_from_auth_credential (auth_presentation : list Z) : string :=
  "Bearer auth." +:+ base64_encode auth_presentation.

Definition create_http_request_headers (create_flag : bool) (auth_presentation : list Z)
    (key : CallLinkRootKey) (content_type : string) : outcome (gmap string string) :=
  let auth_header_value :=
    if create_flag then "Bearer create." +:+ base64_encode auth_presentation
    else auth_header_from_auth_credential auth_presentation in
  prepare_http_headers key
    (<["Content-Type"%string := content_type]> (<["Authorization"%string := auth_header_value]> ∅)).

Definition state_of_response (key : CallLinkRootKey) (http_response : option Response)
  : outcome (result CallLinkState ResponseStatus) :=
  match parse_json_response call_link_response_from_json http_response with
  | Ok response => s ← from_serialized response key; Val (Ok s)
  | Err status => Val (Err status)
  end.

Definition read_call_link (sfu_url : string) (key : CallLinkRootKey) (auth_presentation : list Z)
  : outcome (Exchange (result CallLinkState ResponseStatus)) :=
  if negb (is_valid key) then Val (Done (Err CALL_LINK_INVALID))
  else
    headers ← create_http_request_headers false auth_presentation key "application/json";
    Val (Send (mkRequest Get (call_link_url_from_sfu_url sfu_url) headers None) (state_of_response key)).

Definition created_state (key : CallLinkRootKey) (http_response : option Response)
  : outcome (result CallLinkState ResponseStatus) :=
  match parse_json_response call_link_response_from_json http_response with
  | Ok response =>
    match process_server_response key response with
    | Ok updated_root_key => s ← from_serialized response (default key updated_root_key); Val (Ok s)
    | Err _ => Val (Err REQUEST_FAILED)
    end
  | Err status => Val (Err status)
  end.

Definition create_call_link (sfu_url : string) (key : CallLinkRootKey)
    (auth_presentation admin_passkey public_zkparams : list Z) (restrictions : option CallLinkRestrictions)
  : outcome (Exchange (result CallLinkState ResponseStatus)) :=
  if is_valid key then Val (Done (Err CALL_LINK_ALREADY_CREATED))
  else
    headers ← create_http_request_headers true auth_presentation key "application/json";
    Val (Send (mkRequest Put (call_link_url_from_sfu_url sfu_url) headers
                 (Some (create_request_to_json (mkCreateRequest admin_passkey restrictions public_zkparams))))
           (created_state key)).

Definition update_call_link (sfu_url : string) (key : CallLinkRootKey) (auth_presentation : list Z)
    (update_request : CallLinkUpdateRequest) : outcome (Exchange (result CallLinkState ResponseStatus)) :=
  if negb (is_valid key) then Val (Done (Err CALL_LINK_INVALID))
  else
    headers ← create_http_request_headers false auth_presentation key "application/json";
    Val (Send (mkRequest Put (call_link_url_from_sfu_url sfu_url) headers
                 (Some (update_request_to_json update_request))) (state_of_response key)).

Definition delete_call_link (sfu_url : string) (key : CallLinkRootKey) (auth_presentation : list Z)
    (delete_request : CallLinkDeleteRequest) : outcome (Exchange (result unit ResponseStatus)) :=
  if negb (is_valid key) then Val (Done (Err CALL_LINK_INVALID))
  else
    headers ← create_http_request_headers false auth_presentation key "application/json";
    Val (Send (mkRequest Delete (call_link_url_from_sfu_url sfu_url) headers
                 (Some (delete_request_to_json delete_request)))
           (fun http_response => Val (parse_json_response empty_from_json http_response))).

End CallLinks.

(** ** The resolver of members *)

(** zkgroup and [hex]: the secret parameters of a root key, decoding and decryption of an
    identifier ([bincode::deserialize], [decrypt_uid], [service_id_binary]). *)
Section Resolver.
Context {CallLinkSecretParams : Type} (derive_from_root_key : list Z -> CallLinkSecretParams)
  (from_hex : string -> option (list Z)) (decrypt_uid : CallLinkSecretParams -> list Z -> option (list Z)).

Record CallLinkMemberResolver : Type := mkResolver {
  zkparams : CallLinkSecretParams;
  cache : list (string * list Z);
  bytes_cache : list (list Z * list Z);
}.

#[global] Instance CallLinkMemberResolver_eta : Eta CallLinkMemberResolver := fun r =>
  mkResolver (zkparams r) (cache r) (bytes_cache r).

Definition MAX_CACHE_ENTRIES : Z := 16.

Definition resolver_of (key : CallLinkRootKey) : CallLinkMemberResolver :=
  mkResolver (derive_from_root_key (as_slice key)) [] [].

(** [iter().find(..)] and the [user_id] of what is found. *)
Definition find_cached {K} `{EqDecision K} (k : K) (l : list (K * list Z)) : option (list Z) :=
  snd ∘ snd <$> list_find (fun e => e.1 = k) l.

Definition push_cache {K} (k : K) (user_id : list Z) (l : list (K * list Z)) : list (K * list Z) :=
  (if MAX_CACHE_ENTRIES <? zlen l then tail l else l) ++ [(k, user_id)].

Definition resolve_bytes (opaque_user_id : list Z) (s : CallLinkMemberResolver)
  : CallLinkMemberResolver * option (list Z) :=
  match find_cached opaque_user_id (bytes_cache s) with
  | Some user_id => (s, Some user_id)
  | None =>
    match decrypt_uid (zkparams s) opaque_user_id with
    | None => (s, None)
    | Some user_id =>
      (s <| bytes_cache := push_cache opaque_user_id user_id (bytes_cache s) |>, Some user_id)
    end
  end.

Definition resolve (opaque_user_id : string) (s : CallLinkMemberResolver)
  : CallLinkMemberResolver * option (list Z) :=
  match find_cached opaque_user_id (cache s) with
  | Some user_id => (s, Some user_id)
  | None =>
    match from_hex opaque_user_id with
    | None => (s, None)
    | Some ciphertext_bytes =>
      match resolve_bytes ciphertext_bytes s with
      | (s, None) => (s, None)
      | (s, Some user_id) => (s <| cache := push_cache opaque_user_id user_id (cache s) |>, Some user_id)
      end
    end
  end.

(** Any use of a resolver: the two methods, and a lock that another thread poisoned, which
    empties the cache under it ([lock_or_reset]). *)
Inductive ResolverOp : Type :=
| Resolve (opaque_user_id : string)
| ResolveBytes (opaque_user_id : list Z)
| PoisonedCache
| PoisonedBytesCache.

Definition resolver_step (op : ResolverOp) (s : CallLinkMemberResolver)
  : CallLinkMemberResolver * option (list Z) :=
  match op with
  | Resolve id => resolve id s
  | ResolveBytes id => resolve_bytes id s
  | PoisonedCache => (s <| cache := [] |>, None)
  | PoisonedBytesCache => (s <| bytes_cache := [] |>, None)
  end.

Fixpoint resolver_run (ops : list ResolverOp) (s : CallLinkMemberResolver)
  : CallLinkMemberResolver * list (option (list Z)) :=
  match ops with
  | [] => (s, [])
  | op :: ops =>
    let '(s, answer) := resolver_step op s in
    let '(s, answers) := resolver_run ops s in
    (s, answer :: answers)
  end.

(** A resolver without caches. *)
Definition direct (params : CallLinkSecretParams) (op : ResolverOp) : option (list Z) :=
  match op with
  | Resolve id => from_hex id ≫= decrypt_uid params
  | ResolveBytes id => decrypt_uid params id
  | PoisonedCache | PoisonedBytesCache => None
  end.

Definition agrees {K} (f : K -> option (list Z)) (l : list (K * list Z)) : Prop :=
  Forall (fun e => f e.1 = Some e.2) l /\ zlen l <= MAX_CACHE_ENTRIES + 1.

Lemma find_cached_agrees {K} `{EqDecision K} (f : K -> option (list Z)) k l user_id :
  agrees f l -> find_cached k l = Some user_id -> f k = Some user_id.
Proof.
  intros [Hf _] Hl. unfold find_cached in Hl. apply fmap_Some in Hl as ([i [k' u]] & Hl & ->).
  apply list_find_Some in Hl as (Hl & Hk & _). cbn in Hk. subst k'. exact (Forall_lookup_1 _ _ _ _ Hf Hl).
Qed.

Lemma push_cache_agrees {K} (f : K -> option (list Z)) k l user_id :
  agrees f l -> f k = Some user_id -> agrees f (push_cache k user_id l).
Proof.
  intros [Hf Hl] Hk. unfold push_cache. split.
  - apply Forall_app. split; [|by repeat constructor]. destruct (_ <? _); [|done]. by destruct Hf.
  - rewrite zlen_app, zlen_cons, zlen_nil. unfold MAX_CACHE_ENTRIES in *. destruct (Z.ltb_spec 16 (zlen l)) as [Hgt|]; [|lia].
    destruct l as [|e l]; [change (16 < 0) in Hgt; lia|]. rewrite zlen_cons in Hl. cbn [tail]. lia.
Qed.

Record resolver_ok (params : CallLinkSecretParams) (s : CallLinkMemberResolver) : Prop := {
  ok_params : zkparams s = params;
  ok_cache : agrees (fun id => from_hex id ≫= decrypt_uid params) (cache s);
  ok_bytes_cache : agrees (decrypt_uid params) (bytes_cache s);
}.

Lemma resolve_bytes_ok params id s : resolver_ok params s ->
  (resolve_bytes id s).2 = decrypt_uid params id /\ resolver_ok params (resolve_bytes id s).1.
Proof.
  intros [Hp Hc Hb]. unfold resolve_bytes. destruct (find_cached id (bytes_cache s)) as [u|] eqn:E.
  { by rewrite (find_cached_agrees _ _ _ _ Hb E). }
  rewrite Hp. destruct (decrypt_uid params id) as [u|] eqn:Hd; [|done].
  split; [done|]. constructor; cbn; [done|done|]. by apply push_cache_agrees.
Qed.

Lemma resolve_ok params id s : resolver_ok params s ->
  (resolve id s).2 = (from_hex id ≫= decrypt_uid params) /\ resolver_ok params (resolve id s).1.
Proof.
  intros Hok. pose proof Hok as [Hp Hc Hb]. unfold resolve. destruct (find_cached id (cache s)) as [u|] eqn:E.
  { by rewrite <- (find_cached_agrees _ _ _ _ Hc E). }
  destruct (from_hex id) as [bytes|] eqn:Hh; [|done]. cbn [mbind option_bind].
  destruct (resolve_bytes_ok params bytes s Hok) as [Hr [Hp' Hc' Hb']]. rewrite <- Hr.
  destruct (resolve_bytes bytes s) as [s' [u|]]; cbn in *; [|done]. split; [done|]. constructor; cbn; [done| |done].
  apply push_cache_agrees; [done|]. by rewrite Hh.
Qed.

Lemma resolver_step_ok params op s : resolver_ok params s ->
  (resolver_step op s).2 = direct params op /\ resolver_ok params (resolver_step op s).1.
Proof.
  intros Hok. destruct op; [by apply resolve_ok|by apply resolve_bytes_ok| |].
  all: destruct Hok as [Hp Hc Hb]; split; [done|]; constructor; cbn; try done.
Qed.

Lemma resolver_run_ok params ops : forall s, resolver_ok params s ->
  (resolver_run ops s).2 = direct params <$> ops /\ resolver_ok params (resolver_run ops s).1.
Proof.
  induction ops as [|op ops IH]; intros s Hok; [done|]. cbn.
  destruct (resolver_step_ok params op s Hok) as [H1 H2]. destruct (resolver_step op s) as [s1 answer].
  destruct (IH s1 H2) as [H3 H4]. destruct (resolver_run ops s1) as [s2 answers]. cbn in *. by rewrite H1, H3.
Qed.

(** The caches of the resolver do not change what it answers: however its methods are
    called, the answers are those of decoding and decrypting each time; a cache never has
    more than seventeen entries. *)
Theorem resolver_caches_are_transparent key ops :
  let '(s, answers) := resolver_run ops (resolver_of key) in
  answers = direct (derive_from_root_key (as_slice key)) <$> ops /\
  zlen (cache s) <= 17 /\ zlen (bytes_cache s) <= 17.
Proof.
  destruct (resolver_run_ok (derive_from_root_key (as_slice key)) ops (resolver_of key)) as [H1 [_ [_ H2] [_ H3]]].
  { by constructor; cbn; [|split; [constructor|]|split; [constructor|]]. }
  destruct (resolver_run ops (resolver_of key)) as [s answers]. done.
Qed.

End Resolver.

(** ** The life of a call link *)

Section Lifecycle.
Context `{RootKeyCryptoLaws, CallLinkCodecLaws}.

Lemma decrypt_returns key encrypted : exists r, decrypt key encrypted = Val r.
Proof.
  unfold decrypt. destruct (zlen encrypted <? NONCE_SIZE); [by eexists|].
  destruct (CallLinkKeys.make_cipher_returns key) as [cipher ->]. by eexists.
Qed.

Lemma decrypt_name_returns key encoded : exists n, decrypt_name key encoded = Val n.
Proof.
  unfold decrypt_name. destruct (base64_decode encoded) as [bytes|]; [|by eexists].
  destruct (decrypt_returns key bytes) as [r ->]. by eexists.
Qed.

Lemma from_serialized_spec response key : expiration_unix_timestamp response <= SYSTEM_TIME_MAX ->
  exists n, from_serialized response key = Val (mkCallLinkState n (restrictions response) (revoked response)
    (expiration_unix_timestamp response) key) /\
  (encrypted_name response <> [] -> decrypt_name key (encrypted_name response) = Val n).
Proof.
  intros He. unfold from_serialized, system_time_from_unix. rewrite (proj2 (Z.leb_le _ _) He).
  case_bool_decide as Hn; [by exists ""%string|].
  destruct (decrypt_name_returns key (encrypted_name response)) as [n Hd]. exists n. by rewrite Hd.
Qed.

Lemma request_headers_spec create auth key content_type : exists h room,
  create_http_request_headers create auth key content_type = Val h /\
  derive_room_id key = Val room /\ h !! HTTP_ROOM_ID_HEADER = Some (hex_text room).
Proof.
  unfold create_http_request_headers, prepare_http_headers. unfold derive_room_id.
  destruct (hkdf_32 (slice 0 CRN_LEN (as_slice key)) HKDF_INFO_ROOM_ID) as [okm ->]. eexists _, okm.
  split; [reflexivity|]. split; [done|]. destruct key as [key|key]; [apply lookup_insert_eq|].
  unfold V1_prepare_http_headers. destruct (V1_is_valid key); [|apply lookup_insert_eq].
  rewrite lookup_insert_ne by done. apply lookup_insert_eq.
Qed.

(** C22. The life of a call link.  With a generated key, nothing but the creation of the link
    is sent to the server.  When the server has created the link, the state has a valid key
    with the secret of the old one; this key is refused for another creation, and reading
    the link with it asks for the room that was created. *)
Theorem call_link_lifecycle sfu_url key auth passkey zk restr :
  CallLinkKeys.well_formed key -> is_valid key = false ->
  read_call_link sfu_url key auth = Val (Done (Err CALL_LINK_INVALID)) /\
  (forall u, update_call_link sfu_url key auth u = Val (Done (Err CALL_LINK_INVALID))) /\
  (forall d, delete_call_link sfu_url key auth d = Val (Done (Err CALL_LINK_INVALID))) /\
  exists request k, create_call_link sfu_url key auth passkey zk restr = Val (Send request k) /\
    k None = Val (Err REQUEST_FAILED) /\
    forall code body r, is_success (mkStatus code) = true -> call_link_response_from_json body = Some r ->
      expiration_unix_timestamp r <= SYSTEM_TIME_MAX ->
      exists st request' k', k (Some (mkHttpResponse (mkStatus code) body)) = Val (Ok st) /\
        CallLinkKeys.well_formed (root_key st) /\ secret (root_key st) = secret key /\
        create_call_link sfu_url (root_key st) auth passkey zk restr = Val (Done (Err CALL_LINK_ALREADY_CREATED)) /\
        read_call_link sfu_url (root_key st) auth = Val (Send request' k') /\
        headers request' !! HTTP_ROOM_ID_HEADER = headers request !! HTTP_ROOM_ID_HEADER.
Proof.
  intros Hw Hv. unfold read_call_link, update_call_link, delete_call_link, create_call_link. rewrite Hv.
  split_and!; [done|done|done|].
  destruct (request_headers_spec true auth key "application/json") as (h & room & Hh & Hroom & Hl). rewrite Hh.
  eexists _, _. split; [reflexivity|]. split; [done|]. intros code body r Hs Hr He.
  assert (Hp : exists key', process_server_response key r = Ok (Some key')).
  { destruct key as [key|key]; [discriminate|]. cbn in Hv |- *. unfold V1_process_server_response. rewrite Hv. by eexists. }
  destruct Hp as [key' Hp]. destruct (CallLinkKeys.process_server_response_ok _ _ _ Hw Hp) as (Hw' & Hv' & _ & Hsec).
  destruct (from_serialized_spec r key' He) as (n & Hst & _).
  destruct (request_headers_spec false auth key' "application/json") as (h' & room' & Hh' & Hroom' & Hl').
  eexists (mkCallLinkState n (restrictions r) (revoked r) _ key'), _, _.
  unfold created_state, parse_json_response. cbn [status response_body root_key]. rewrite Hs, Hr. cbn [negb].
  rewrite Hp. cbn [default from_option id]. rewrite Hst, Hv', Hh'. cbn [negb].
  split_and!; try reflexivity; try done. cbn [headers]. rewrite Hl, Hl'.
  unfold derive_room_id in Hroom, Hroom'. fold (secret key) in Hroom. fold (secret key') in Hroom'.
  rewrite Hsec, Hroom in Hroom'. by injection Hroom' as ->.
Qed.

(** A name that is encrypted with the root key, sent to the server and sent back is shown
    unchanged; the server sees its length up to a block of 32 bytes only. *)
Theorem call_link_name_roundtrip {R} `{RngLaws R} key n (rng : R) :
  valid_utf8 (as_bytes n) = true -> zlen (as_bytes n) + 64 <= P_MAX ->
  exists encrypted, encrypt key (as_bytes n) rng = Val encrypted /\ (zlen encrypted - 16) mod 32 = 0 /\
    forall response, encrypted_name response = as_bytes (base64_encode encrypted) ->
      expiration_unix_timestamp response <= SYSTEM_TIME_MAX ->
      exists st, from_serialized response key = Val st /\ name st = n.
Proof.
  intros Hv Hl. destruct (CallLinkKeys.encrypt_decrypt key (as_bytes n) rng Hl) as (enc & He & Hd & Hm & _ & Hb).
  specialize (Hb (as_bytes_are_bytes n)).
  exists enc. split_and!; [done|done|]. intros response Hn Hx.
  destruct (from_serialized_spec response key Hx) as (n' & Hst & Hname).
  assert (Hne : enc <> []) by (intros ->; vm_compute in Hm; discriminate).
  rewrite Hn in Hname. specialize (Hname (base64_nonempty _ Hne)).
  eexists. split; [exact Hst|]. cbn. unfold decrypt_name in Hname. rewrite base64_inverse, Hd in Hname by done. cbn in Hname.
  unfold from_utf8 in Hname. rewrite Hv in Hname. injection Hname as <-. cbn. by rewrite of_bytes_as_bytes.
Qed.

(** The answer of the server can make the client panic: an expiration above the greatest
    time of the platform overflows when the state of the link is read. *)
Theorem far_expiration_panics sfu_url key auth request k code body r :
  read_call_link sfu_url key auth = Val (Send request k) ->
  is_success (mkStatus code) = true -> call_link_response_from_json body = Some r ->
  SYSTEM_TIME_MAX < expiration_unix_timestamp r ->
  k (Some (mkHttpResponse (mkStatus code) body)) = Panic.
Proof.
  intros Hread Hs Hr Hx. unfold read_call_link in Hread. destruct (is_valid key); [|discriminate]. cbn [negb] in Hread.
  destruct (create_http_request_headers false auth key "application/json") as [h|]; [|discriminate].
  injection Hread as _ <-. unfold state_of_response, parse_json_response. cbn [status response_body]. rewrite Hs, Hr.
  cbn [negb]. unfold from_serialized, system_time_from_unix. rewrite (proj2 (Z.leb_gt _ _) Hx).
  case_bool_decide; [done|]. by destruct (decrypt_name key (encrypted_name r)).
Qed.

End Lifecycle.
End CallLinks.
