(* ===== verification/SfuClient.v ===== *)
(** * Requests to the SFU over HTTP (src/rust/src/lite/sfu.rs, [HttpSfuClient] of core/group_call.rs)

    The client of a group call asks the SFU who is in the call ("peek") and to join it.
    A join needs the proof that the user is a member; one that comes too early waits for it.
    The client uses this component through [GroupCall.SfuCall] and gets the answers as
    closures.  JSON and base64 are parameters. *)

From S2P Require Import Prelude States Base16 RootKey CallLinkKeys Http CallLinks GroupTypes GroupCall.
From stdpp Require Import strings pretty.
Local Open Scope Z_scope.
Local Open Scope ringrtc_scope.
Import Text.
Import RootKey.

(** ** What the SFU answers *)

Record SerializedPeekInfo : Type := mkSerializedPeek {
  sp_era_id : option string;
  sp_max_devices : option Z;
  sp_devices : list (option string * Z);
  sp_creator : option string;
  sp_pending_clients : list (option string * Z);
  sp_call_link_state : option CallLinkResponse;
}.

Record SerializedJoinResponse : Type := mkSerializedJoin {
  sj_client_demux_id : Z;
  sj_server_ips : list (list Z);
  sj_server_port : Z;
  sj_server_port_tcp : Z;
  sj_server_port_tls : option Z;
  sj_server_hostname : option string;
  sj_server_ice_ufrag : string;
  sj_server_ice_pwd : string;
  sj_server_dhe_pub_key : list Z;
  sj_call_creator : string;
  sj_era_id : string;
  sj_client_status : string;
}.

Record JoinRequest : Type := mkJoinRequest {
  jr_admin_passkey : option (list Z);
  jr_ice_ufrag : string;
  jr_ice_pwd : string;
  jr_dhe_public_key : list Z;
  jr_hkdf_extra_info : list Z;
}.

(** The code that serde derives. *)
Class SfuCodec : Type := {
  peek_info_from_json : list Z -> option SerializedPeekInfo;
  reason_from_json : list Z -> option string;
  join_response_from_json : list Z -> option SerializedJoinResponse;
  join_request_to_json : JoinRequest -> list Z;
}.

Module SfuClient.
Import Http GroupTypes.

Definition UserId : Type := list Z.

(** [dyn MemberResolver]. *)
Definition Resolver : Type := string -> option UserId.

Inductive ClientStatus : Type := Active | Pending | Blocked.

Definition client_status_from_str (s : string) : option ClientStatus :=
  if bool_decide (s = "ACTIVE"%string) then Some Active
  else if bool_decide (s = "PENDING"%string) then Some Pending
  else if bool_decide (s = "BLOCKED"%string) then Some Blocked
  else None.

Record JoinResponse : Type := mkJoinResponse {
  client_demux_id : Z;
  server_udp_addresses : list (list Z * Z);
  server_tcp_addresses : list (list Z * Z);
  server_tls_addresses : list (list Z * Z);
  server_hostname : option string;
  server_ice_ufrag : string;
  server_ice_pwd : string;
  server_dhe_pub_key : list Z;
  call_creator : option UserId;
  join_era_id : string;
  client_status : ClientStatus;
}.

Definition join_response_from (d : SerializedJoinResponse) (resolver : Resolver) : JoinResponse := {|
  client_demux_id := sj_client_demux_id d;
  server_udp_addresses := (fun ip => (ip, sj_server_port d)) <$> sj_server_ips d;
  server_tcp_addresses := (fun ip => (ip, sj_server_port_tcp d)) <$> sj_server_ips d;
  server_tls_addresses :=
    match sj_server_port_tls d with
    | None => []
    | Some port => (fun ip => (ip, port)) <$> sj_server_ips d
    end;
  server_hostname := sj_server_hostname d;
  server_ice_ufrag := sj_server_ice_ufrag d;
  server_ice_pwd := sj_server_ice_pwd d;
  server_dhe_pub_key := sj_server_dhe_pub_key d;
  call_creator := resolver (sj_call_creator d);
  join_era_id := sj_era_id d;
  client_status := default Pending (client_status_from_str (sj_client_status d));
|}.

Definition deobfuscate_device (resolver : Resolver) (d : option string * Z) : PeekDeviceInfo :=
  mkPeekDevice d.2 (d.1 ≫= resolver).

(** [PeekInfo::default()] *)
Definition default_peek_info : PeekInfo := mkPeekInfo [] [] None None None.

Definition participants_url_from_sfu_url (sfu_url : string) : string :=
  CallLinks.trim_end_slashes sfu_url +:+ "/v2/conference/participants".

(** [token.split(':').next()]: what is before the first colon. *)
Fixpoint before_colon (l : list Z) : list Z :=
  match l with
  | [] => []
  | b :: l => if b =? 58 then [] else b :: before_colon l
  end.

Section Sfu.
Context `{RootKeyCrypto, CallLinkCodec, SfuCodec}.

(** The state of the call link is beside the [PeekInfo] of GroupTypes.v, which has the fields
    that the client of the group call uses. *)
Definition deobfuscate (s : SerializedPeekInfo) (resolver : Resolver) (key : option CallLinkRootKey)
  : outcome (PeekInfo * option CallLinks.CallLinkState) :=
  state ← match sp_call_link_state s, key with
          | Some link, Some key => st ← CallLinks.from_serialized link key; Val (Some st)
          | _, _ => Val None
          end;
  Val (mkPeekInfo (deobfuscate_device resolver <$> sp_devices s) (deobfuscate_device resolver <$> sp_pending_clients s)
         (sp_creator s ≫= resolver) (sp_era_id s) (sp_max_devices s), state).

Definition auth_header_from_membership_proof (proof : list Z) : option string :=
  if valid_utf8 proof then
    Some ("Basic " +:+ base64_encode (before_colon proof ++ [58] ++ proof))
  else None.

Definition classify_not_found (body : list Z) : option ResponseStatus :=
  reason ← reason_from_json body;
  if bool_decide (reason = "expired"%string) then Some CALL_LINK_EXPIRED
  else if bool_decide (reason = "invalid"%string) then Some CALL_LINK_INVALID
  else None.

Definition http_request_headers (authorization : string) (room_id_header : option string)
    (key : option CallLinkRootKey) (content_type : option string) : outcome (gmap string string) :=
  let headers := <["Authorization"%string := authorization]> ∅ in
  let headers := match content_type with
                 | Some content_type => <["Content-Type"%string := content_type]> headers
                 | None => headers
                 end in
  match key, room_id_header with
  | Some key, _ => prepare_http_headers key headers
  | None, Some room_id => Val (<[HTTP_ROOM_ID_HEADER := room_id]> headers)
  | None, None => Val headers
  end.

Definition key_is_invalid (key : option CallLinkRootKey) : bool :=
  match key with Some key => negb (is_valid key) | None => false end.

Definition PeekResult : Type := result (PeekInfo * option CallLinks.CallLinkState) ResponseStatus.

Definition on_peek_response (resolver : Resolver) (key : option CallLinkRootKey) (http_response : option Response)
  : outcome PeekResult :=
  match parse_json_response peek_info_from_json http_response with
  | Ok deserialized => p ← deobfuscate deserialized resolver key; Val (Ok p)
  | Err status =>
    if bool_decide (status = GROUP_CALL_NOT_STARTED) then
      match response_body <$> http_response with
      | Some (b :: body) => Val (Err (default status (classify_not_found (b :: body))))
      | _ => Val (Ok (default_peek_info, None))
      end
    else Val (Err status)
  end.

Definition peek (sfu_url : string) (room_id_header : option string) (auth_header : string)
    (resolver : Resolver) (key : option CallLinkRootKey) : outcome (Exchange PeekResult) :=
  if key_is_invalid key then Val (Done (Err CALL_LINK_INVALID))
  else
    headers ← http_request_headers auth_header room_id_header key None;
    Val (Send (mkRequest Get (participants_url_from_sfu_url sfu_url) headers None) (on_peek_response resolver key)).

Definition join (sfu_url : string) (room_id_header : option string) (key : option CallLinkRootKey)
    (auth_header : string) (request : JoinRequest) (resolver : Resolver)
  : outcome (Exchange (result JoinResponse ResponseStatus)) :=
  if key_is_invalid key then Val (Done (Err CALL_LINK_INVALID))
  else
    headers ← http_request_headers auth_header room_id_header key (Some "application/json"%string);
    Val (Send (mkRequest Put (participants_url_from_sfu_url sfu_url) headers (Some (join_request_to_json request)))
           (fun http_response =>
              Val (match parse_json_response join_response_from_json http_response with
                   | Ok deserialized => Ok (join_response_from deserialized resolver)
                   | Err status => Err status
                   end))).

(** ** [HttpSfuClient] *)

Record HttpSfuClient : Type := mkHttpSfuClient {
  sfu_url : string;
  room_id_header : option string;
  call_link_root_key : option CallLinkRootKey;
  admin_passkey : option (list Z);
  hkdf_extra_info : list Z;
  auth_header : option string;
  member_resolver : Resolver;
  deferred_join : option (string * string * list Z);
}.

#[global] Instance HttpSfuClient_eta : Eta HttpSfuClient := fun r =>
  mkHttpSfuClient (sfu_url r) (room_id_header r) (call_link_root_key r) (admin_passkey r) (hkdf_extra_info r)
    (auth_header r) (member_resolver r) (deferred_join r).

Definition new (url : string) (room_id_for_header : option (list Z)) (key : option CallLinkRootKey)
    (passkey : option (list Z)) (extra_info : list Z) : HttpSfuClient :=
  mkHttpSfuClient url (hex_text <$> room_id_for_header) key passkey extra_info None (fun _ => None) None.

Definition set_auth_header (header : string) (s : HttpSfuClient) : HttpSfuClient :=
  s <| auth_header := Some header |>.

Definition set_member_resolver (resolver : Resolver) (s : HttpSfuClient) : HttpSfuClient :=
  s <| member_resolver := resolver |>.

(** The closure that [join_with_header] gives to [sfu::join]. *)
Definition join_result (extra_info : list Z) (join_response : result JoinResponse ResponseStatus)
  : result JoinedInfo Error :=
  match join_response with
  | Ok r => Ok {|
      j_sfu_info := mkSfuInfo (server_udp_addresses r) (server_tcp_addresses r) (server_tls_addresses r)
                      (server_hostname r) (server_ice_ufrag r) (server_ice_pwd r);
      j_local_demux_id := client_demux_id r;
      j_server_dhe_pub_key := server_dhe_pub_key r;
      j_hkdf_extra_info := extra_info;
      j_creator := call_creator r;
      j_era_id := join_era_id r;
      j_join_state := match client_status r with
                      | Active => GroupTypes.Joined (client_demux_id r)
                      | Pending | Blocked => GroupTypes.Pending (client_demux_id r)
                      end |}
  | Err status =>
    if bool_decide (status = REQUEST_FAILED) then Err RingRtcError.SfuClientRequestFailed
    else if bool_decide (status = GROUP_CALL_FULL) then Err RingRtcError.GroupCallFull
    else Err (RingRtcError.UnexpectedResponseCodeFromSFu (code status))
  end.

(** What goes back to the client: an answer, or a request with what to do with its response. *)
Inductive Reply : Type :=
| JoinAttemptCompleted (result : result JoinedInfo Error)
| PeekCompleted (result : PeekResult).

Definition map_exchange {A B} (f : A -> B) (e : Exchange A) : Exchange B :=
  match e with
  | Done a => Done (f a)
  | Send request k => Send request (fun response => a ← k response; Val (f a))
  end.

Definition join_with_header (header ice_ufrag ice_pwd : string) (dhe_pub_key : list Z) (s : HttpSfuClient)
  : outcome (Exchange Reply) :=
  e ← join (sfu_url s) (room_id_header s) (call_link_root_key s) header
        (mkJoinRequest (admin_passkey s) ice_ufrag ice_pwd dhe_pub_key (hkdf_extra_info s)) (member_resolver s);
  Val (map_exchange (fun r => JoinAttemptCompleted (join_result (hkdf_extra_info s) r)) e).

Definition set_membership_proof (proof : list Z) (s : HttpSfuClient)
  : outcome (HttpSfuClient * option (Exchange Reply)) :=
  match auth_header_from_membership_proof proof with
  | None => Val (s, None)
  | Some header =>
    let s := s <| auth_header := Some header |> in
    match deferred_join s with
    | None => Val (s, None)
    | Some (ice_ufrag, ice_pwd, dhe_pub_key) =>
      let s := s <| deferred_join := None |> in
      e ← join_with_header header ice_ufrag ice_pwd dhe_pub_key s;
      Val (s, Some e)
    end
  end.

Definition client_join (ice_ufrag ice_pwd : string) (dhe_pub_key : list Z) (s : HttpSfuClient)
  : outcome (HttpSfuClient * option (Exchange Reply)) :=
  match auth_header s with
  | Some h => e ← join_with_header h ice_ufrag ice_pwd dhe_pub_key s; Val (s, Some e)
  | None => Val (s <| deferred_join := Some (ice_ufrag, ice_pwd, dhe_pub_key) |>, None)
  end.

Definition client_peek (s : HttpSfuClient) : outcome (HttpSfuClient * option (Exchange Reply)) :=
  match auth_header s with
  | Some header =>
    e ← peek (sfu_url s) (room_id_header s) header (member_resolver s) (call_link_root_key s);
    Val (s, Some (map_exchange PeekCompleted e))
  | None => Val (s, Some (Done (PeekCompleted (Err INVALID_CLIENT_AUTH))))
  end.

Section Calls.
Context `{GroupHash}.

Definition set_group_members (members : list (UserId * list Z)) (s : HttpSfuClient) : HttpSfuClient :=
  set_member_resolver (GroupTypes.resolve (GroupCall.new_member_map members)) s.

(** The trait [SfuClient], by the calls that the client of a group call makes. *)
Definition sfu_call (c : GroupCall.SfuCall) (s : HttpSfuClient) : outcome (HttpSfuClient * option (Exchange Reply)) :=
  match c with
  | GroupCall.SfuJoin ice_ufrag ice_pwd dhe_pub_key => client_join ice_ufrag ice_pwd dhe_pub_key s
  | GroupCall.SfuPeek => client_peek s
  | GroupCall.SfuSetMembershipProof proof => set_membership_proof proof s
  | GroupCall.SfuSetGroupMembers members => Val (set_group_members members s, None)
  end.

(** ** Runs *)

Fixpoint run_calls (calls : list GroupCall.SfuCall) (s : HttpSfuClient)
  : outcome (HttpSfuClient * list (Exchange Reply)) :=
  match calls with
  | [] => Val (s, [])
  | c :: calls =>
    '(s, e) ← sfu_call c s;
    '(s, es) ← run_calls calls s;
    Val (s, option_list e ++ es)
  end.

(** The joins among the requests: their authorization and their body. *)
Definition put_request (e : Exchange Reply) : option (option string * option (list Z)) :=
  match e with
  | Send request _ =>
    match method request with
    | Put => Some (headers request !! "Authorization"%string, body request)
    | _ => None
    end
  | Done _ => None
  end.

(** Which joins are asked for, and with which proof after a proof is there. *)
Definition Join : Type := (string * string * list Z)%type.

Fixpoint joins_of (calls : list GroupCall.SfuCall) : list Join :=
  match calls with
  | [] => []
  | GroupCall.SfuJoin ufrag pwd key :: calls => (ufrag, pwd, key) :: joins_of calls
  | _ :: calls => joins_of calls
  end.

Fixpoint joins_with (header : string) (calls : list GroupCall.SfuCall) : list (string * Join) :=
  match calls with
  | [] => []
  | GroupCall.SfuJoin ufrag pwd key :: calls => (header, (ufrag, pwd, key)) :: joins_with header calls
  | GroupCall.SfuSetMembershipProof proof :: calls =>
    joins_with (default header (auth_header_from_membership_proof proof)) calls
  | _ :: calls => joins_with header calls
  end.

(** A call that brings no usable proof. *)
Definition no_proof (c : GroupCall.SfuCall) : Prop :=
  match c with GroupCall.SfuSetMembershipProof proof => auth_header_from_membership_proof proof = None | _ => True end.

Definition request_of (s : HttpSfuClient) (j : string * Join) : option string * option (list Z) :=
  let '(header, (ufrag, pwd, key)) := j in
  (Some header, Some (join_request_to_json (mkJoinRequest (admin_passkey s) ufrag pwd key (hkdf_extra_info s)))).

(** The fields that only the constructor sets. *)
Definition settings (s : HttpSfuClient) : string * option string * option CallLinkRootKey * option (list Z) * list Z :=
  (sfu_url s, room_id_header s, call_link_root_key s, admin_passkey s, hkdf_extra_info s).

Lemma request_of_settings s s' j : settings s' = settings s -> request_of s' j = request_of s j.
Proof. unfold settings. intros [= _ _ _ Hp Hx]. destruct j as [h [[u p] k]]. cbn. by rewrite Hp, Hx. Qed.

Section Proofs.
Context `{!RootKeyCryptoLaws}.

Lemma headers_authorization header room key content_type : exists h,
  http_request_headers header room key content_type = Val h /\ h !! "Authorization"%string = Some header.
Proof.
  assert (Hbase : forall m : gmap string string, m = match content_type with
    | Some c => <["Content-Type"%string := c]> (<["Authorization"%string := header]> ∅)
    | None => <["Authorization"%string := header]> ∅ end -> m !! "Authorization"%string = Some header).
  { intros m ->. destruct content_type; [rewrite lookup_insert_ne by done|]; apply lookup_insert_eq. }
  unfold http_request_headers. destruct key as [key|].
  - unfold prepare_http_headers, derive_room_id.
    destruct (hkdf_32 (slice 0 CRN_LEN (as_slice key)) HKDF_INFO_ROOM_ID) as [okm ->]. eexists. split; [reflexivity|].
    destruct key as [key|key]; [|unfold V1_prepare_http_headers; destruct (V1_is_valid key); [rewrite lookup_insert_ne by done|]].
    all: rewrite lookup_insert_ne by done; by apply Hbase.
  - destruct room as [room|]; eexists; (split; [reflexivity|]); [rewrite lookup_insert_ne by done|]; by apply Hbase.
Qed.

Lemma join_sends header ufrag pwd key s : key_is_invalid (call_link_root_key s) = false ->
  exists e, join_with_header header ufrag pwd key s = Val e /\ put_request e = Some (request_of s (header, (ufrag, pwd, key))).
Proof.
  intros Hk. unfold join_with_header, join. rewrite Hk.
  destruct (headers_authorization header (room_id_header s) (call_link_root_key s) (Some "application/json"%string)) as (h & -> & Ha).
  eexists. split; [reflexivity|]. cbn. by rewrite Ha.
Qed.

Lemma peek_sends_no_join s : key_is_invalid (call_link_root_key s) = false ->
  exists e, client_peek s = Val (s, Some e) /\ put_request e = None.
Proof.
  intros Hk. unfold client_peek, peek. destruct (auth_header s) as [header|]; [|by eexists]. rewrite Hk.
  destruct (headers_authorization header (room_id_header s) (call_link_root_key s) None) as (h & -> & _). by eexists.
Qed.

(** With a proof, every join is sent at once. *)
Lemma joins_are_sent calls : forall s header, key_is_invalid (call_link_root_key s) = false ->
  auth_header s = Some header -> deferred_join s = None ->
  exists s' es, run_calls calls s = Val (s', es) /\ omap put_request es = request_of s <$> joins_with header calls.
Proof.
  induction calls as [|c calls IH]; intros s header Hk Ha Hd; [by eexists _, _|]. cbn [run_calls].
  destruct c as [ufrag pwd key| |proof|members]; cbn [sfu_call joins_with].
  - unfold client_join. rewrite Ha. destruct (join_sends header ufrag pwd key s Hk) as (e & -> & He).
    destruct (IH s header Hk Ha Hd) as (s' & es & Hr & Hes). cbn. rewrite Hr. eexists _, _. split; [reflexivity|].
    cbn. by rewrite He, Hes.
  - destruct (peek_sends_no_join s Hk) as (e & -> & He). destruct (IH s header Hk Ha Hd) as (s' & es & Hr & Hes).
    cbn. rewrite Hr. eexists _, _. split; [reflexivity|]. cbn. by rewrite He, Hes.
  - unfold set_membership_proof. destruct (auth_header_from_membership_proof proof) as [header'|].
    + cbn [default from_option id].
      destruct (IH (s <| auth_header := Some header' |>) header') as (s' & es & Hr & Hes); [done..|].
      cbn in Hd |- *. rewrite Hd. cbn. rewrite Hr. eexists _, _. split; [reflexivity|]. done.
    + destruct (IH s header Hk Ha Hd) as (s' & es & Hr & Hes). cbn. rewrite Hr. by eexists _, _.
  - destruct (IH (set_group_members members s) header) as (s' & es & Hr & Hes); [done..|].
    cbn. cbn in Hr. rewrite Hr. by eexists _, _.
Qed.

(** Without one, nothing but the last join is kept. *)
Lemma joins_are_kept calls : forall s, key_is_invalid (call_link_root_key s) = false ->
  auth_header s = None -> Forall no_proof calls ->
  exists s' es, run_calls calls s = Val (s', es) /\ omap put_request es = [] /\ settings s' = settings s /\
    auth_header s' = None /\ deferred_join s' = from_option Some (deferred_join s) (last (joins_of calls)).
Proof.
  induction calls as [|c calls IH]; intros s Hk Ha Hn; [by eexists _, _|]. apply Forall_cons in Hn as [Hc Hn]. cbn [run_calls].
  destruct c as [ufrag pwd key| |proof|members]; cbn [sfu_call joins_of].
  - unfold client_join. rewrite Ha.
    destruct (IH (s <| deferred_join := Some (ufrag, pwd, key) |>)) as (s' & es & Hr & He & Hs & Ha' & Hd); [done..|].
    cbn. cbn in Hr. rewrite Hr. eexists _, _. split; [reflexivity|]. split_and!; try done.
    rewrite Hd. destruct (joins_of calls); [done|]. rewrite last_cons_cons. by destruct (last (_ :: _)) eqn:E; [|apply last_None in E].
  - destruct (peek_sends_no_join s Hk) as (e & -> & He0). destruct (IH s Hk Ha Hn) as (s' & es & Hr & He & Hs & Ha' & Hd).
    cbn. rewrite Hr. eexists _, _. split; [reflexivity|]. cbn. by rewrite He0.
  - unfold set_membership_proof. cbn in Hc. rewrite Hc. destruct (IH s Hk Ha Hn) as (s' & es & Hr & He).
    cbn. rewrite Hr. by eexists _, _.
  - destruct (IH (set_group_members members s)) as (s' & es & Hr & He); [done..|]. cbn. cbn in Hr. rewrite Hr. by eexists _, _.
Qed.

Lemma run_calls_app l1 l2 s s1 es1 s2 es2 : run_calls l1 s = Val (s1, es1) -> run_calls l2 s1 = Val (s2, es2) ->
  run_calls (l1 ++ l2) s = Val (s2, es1 ++ es2).
Proof.
  revert s es1. induction l1 as [|c l1 IH]; intros s es1 Hc1 Hc2; [cbn in Hc1; simplify_eq; done|].
  cbn [run_calls app] in *. destruct (sfu_call c s) as [[s' e]|]; [|discriminate]. cbn in *.
  destruct (run_calls l1 s') as [[s'' es]|] eqn:E; [|discriminate]. cbn in Hc1. simplify_eq.
  rewrite (IH _ _ E Hc2). cbn. by rewrite app_assoc.
Qed.

(** C25. For a group, or a call link with a valid key: joins wait for the proof of membership.  Before there is one, none is sent to the
    SFU and only the last one is kept; the first usable proof sends it, once and with this
    proof; from then on every join is sent at once, with the newest proof. *)
Theorem joins_wait_for_the_proof url room key passkey info before proof after header :
  key_is_invalid key = false -> Forall no_proof before ->
  auth_header_from_membership_proof proof = Some header ->
  let client := new url room key passkey info in
  exists s1 es1 s2 es2,
    run_calls before client = Val (s1, es1) /\ omap put_request es1 = [] /\
    run_calls (before ++ GroupCall.SfuSetMembershipProof proof :: after) client = Val (s2, es1 ++ es2) /\
    omap put_request es2 =
      request_of client <$> option_list (pair header <$> last (joins_of before)) ++ joins_with header after.
Proof.
  intros Hk Hn Hp client.
  destruct (joins_are_kept before client) as (s1 & es1 & Hr1 & He1 & Hs1 & Ha1 & Hd1); [done..|].
  set (s1' := s1 <| auth_header := Some header |> <| deferred_join := None |>).
  assert (Hset : settings s1' = settings client) by exact Hs1.
  assert (Hkey : key_is_invalid (call_link_root_key s1') = false).
  { unfold settings in Hs1. injection Hs1 as _ _ Hc _ _. change (key_is_invalid (call_link_root_key s1) = false). by rewrite Hc. }
  destruct (joins_are_sent after s1' header Hkey eq_refl eq_refl) as (s2 & es & Hr2 & He2).
  assert (Hstep : exists e, sfu_call (GroupCall.SfuSetMembershipProof proof) s1 = Val (s1', e) /\
    omap put_request (option_list e) = request_of client <$> option_list (pair header <$> last (joins_of before))).
  { cbn [sfu_call]. unfold set_membership_proof. rewrite Hp. cbn. rewrite Hd1. destruct (last (joins_of before)) as [[[ufrag pwd] k]|] eqn:El.
    - cbn. destruct (join_sends header ufrag pwd k s1' Hkey) as (e & Hj & He). unfold s1' in Hj. rewrite Hj.
      eexists. split; [reflexivity|]. cbn. rewrite He. by rewrite (request_of_settings client s1').
    - eexists None. split; [|done]. cbn. f_equal. f_equal. unfold s1'. destruct s1; cbn in *. by subst. }
  destruct Hstep as (e & Hstep & He). exists s1, es1, s2, (option_list e ++ es). split_and!; try done.
  - eapply run_calls_app; [exact Hr1|]. cbn [run_calls]. rewrite Hstep. cbn. by rewrite Hr2.
  - rewrite omap_app, He, He2, fmap_app. f_equal. apply list_fmap_ext. intros i j _. by apply request_of_settings.
Qed.

End Proofs.
End Calls.
End Sfu.
End SfuClient.
