(* ===== verification/CallLinkExamples.v ===== *)
(** * Call links on concrete inputs

    Instances of the parameters of the call links, and runs: keys with their text, a link
    that is created and read, and a client that joins before it has a proof. *)

From S2P Require Import Prelude States Base16 RootKey CallLinkKeys Http CallLinks GroupTypes GroupCall SfuClient.
From stdpp Require Import strings pretty.
Local Open Scope Z_scope.
Local Open Scope ringrtc_scope.
Import Text.

Module CallLinkExamples.
Import Base16 RootKey CallLinkKeys Http CallLinks SfuClient.

(** ** Instances *)

(** Lowercase hexadecimal. *)
Definition hex (l : list Z) : string :=
  of_bytes (l ≫= fun b => nth (Z.to_nat b) (Base16Table_new (as_bytes "0123456789abcdef")) []).

Definition toy_tag : list Z := replicate 16 0.

(** A cipher that reverses the text. *)
#[local] Instance ToyCrypto : RootKeyCrypto := {|
  hkdf_sha256 ikm info n := Some (take (Z.to_nat n) (ikm ++ info ++ replicate (Z.to_nat n) 0));
  aes_gcm_siv_encrypt key nonce ad p := if zlen p <=? P_MAX then Some (reverse p, toy_tag) else None;
  aes_gcm_siv_decrypt key nonce c := Some (reverse (take (length c - 16) c));
  hex_text := hex;
|}.

#[local] Instance ToyCryptoLaws : RootKeyCryptoLaws.
Proof.
  split.
  - intros. by eexists.
  - intros key nonce ad p Hp. cbn. rewrite (proj2 (Z.leb_le _ _) Hp). by eexists _, _.
  - intros key nonce ad p ct tag. cbn. destruct (zlen p <=? P_MAX); [|discriminate]. intros [= <- <-].
    unfold zlen. by rewrite length_reverse.
  - intros key nonce ad p ct tag. cbn. destruct (zlen p <=? P_MAX); [|discriminate]. intros [= <- <-] Hb.
    split; [by apply Forall_reverse|]. apply (Forall_replicate is_byte 16 0). done.
  - intros key nonce p ct tag. cbn. destruct (zlen p <=? P_MAX); [|discriminate]. intros [= <- <-].
    rewrite length_app. change (length toy_tag) with 16%nat. rewrite Nat.add_sub, take_app_length, reverse_involutive. done.
Qed.

(** A counter as random generator. *)
#[local] Instance ToyRng : RngCore Z := {| fill_bytes r n := ((fun i => (r + i) mod 256) <$> seqZ 0 n, r + 1) |}.

#[local] Instance ToyRngLaws : RngLaws Z.
Proof.
  split.
  - intros r n Hn. unfold zlen. cbn. rewrite length_fmap, length_seqZ. lia.
  - intros r n. cbn. apply Forall_fmap, Forall_true. intros i. apply Z.mod_pos_bound. lia.
Qed.

(** JSON of one byte: the epoch of the link; [0] for none, and 255 for an expiration that is
    far away. *)
#[local] Instance ToyCodec : CallLinkCodec := {|
  base64_encode := of_bytes;
  base64_decode := Some;
  call_link_response_from_json body :=
    match body with
    | [e] => Some (mkResponse [] NoRestrictions false (if e =? 255 then 2 ^ 63 else 1000)
                     (if e =? 0 then None else Some e))
    | _ => None
    end;
  empty_from_json body := match body with [] => Some tt | _ => None end;
  create_request_to_json r := create_admin_passkey r ++ create_zkparams r;
  update_request_to_json r := update_admin_passkey r;
  delete_request_to_json r := delete_admin_passkey r;
|}.

#[local] Instance ToyCodecLaws : CallLinkCodecLaws.
Proof.
  split.
  - intros l Hb. change (Some (as_bytes (of_bytes l)) = Some l). by rewrite as_bytes_of_bytes.
  - intros l Hl. by destruct l.
Qed.

#[local] Instance ToySfuCodec : SfuCodec := {|
  peek_info_from_json _ := None;
  reason_from_json _ := None;
  join_response_from_json _ := None;
  join_request_to_json r := as_bytes (jr_ice_ufrag r);
|}.

#[local] Instance ToyHash : GroupHash := {|
  sha256_as_hexstring := hex;
  hex_encode := hex;
  default_hasher _ := 0;
  truncated_hash _ := 0;
|}.

(** ** Keys *)

Definition toy_crn : list Z := [0x18; 0xA0; 0x7E; 0xF9; 0xF9; 0xBC; 0xBE; 0x6B; 0x79; 0xAA; 0xBC; 0xBB; 0x12; 0x21; 0x03; 0xCC].
Definition toy_key : CallLinkRootKey := V1 (without_epoch toy_crn).

Lemma toy_crn_bytes : Forall is_byte toy_crn.
Proof. repeat constructor; unfold is_byte; lia. Qed.

Lemma toy_crn_unrepeated : unrepeated toy_crn.
Proof. apply has_repeated_chunk_spec; [apply toy_crn_bytes|reflexivity]. Qed.

Lemma toy_key_ok : well_formed toy_key.
Proof. by apply without_epoch_ok; [|apply toy_crn_bytes|apply toy_crn_unrepeated]. Qed.

Lemma parse_accepts_the_grammar_witness : exists res, parse_with_separators "bc-df" [1; 1] = Val res /\
  forall bytes, res = Ok bytes <-> Written [1; 1] (as_bytes "bc-df") bytes.
Proof. apply parse_accepts_the_grammar; [reflexivity|done|by repeat constructor]. Defined.

Lemma root_keys_are_well_formed_witness : exists key, generate 3 7 = Some key /\ well_formed key.
Proof.
  eexists. split; [reflexivity|].
  exact (proj1 (proj1 (proj2 (proj2 (root_keys_are_well_formed (R := Z)))) 3%nat 7 _ eq_refl)).
Defined.

Example a_key_is_generated : generate 3 7 = Some (V1 (without_epoch [7; 8; 9; 10; 11; 12; 13; 14; 15; 16; 17; 18; 19; 20; 21; 22])).
Proof. reflexivity. Qed.

Lemma root_key_text_roundtrip_witness :
  exists text, to_formatted_string toy_key = Val text /\ try_from_str text = Val (Ok toy_key).
Proof. exact (root_key_text_roundtrip toy_key toy_key_ok). Defined.

Lemma text_behind_a_key_is_ignored_witness : exists text, to_formatted_string toy_key = Val text /\
  try_from_str (text +:+ "-" +:+ "anything at all") = Val (Ok toy_key).
Proof. apply (text_behind_a_key_is_ignored toy_key "anything at all" toy_key_ok). discriminate. Defined.

(** ** A link *)

Lemma toy_key_invalid : is_valid toy_key = false.
Proof. reflexivity. Qed.

Lemma creation_keeps_the_secret_witness : exists key',
  process_server_response toy_key (mkResponse [] NoRestrictions false 0 (Some 9)) = Ok (Some key') /\
  secret key' = toy_crn.
Proof.
  eexists. split; [reflexivity|].
  exact (proj1 (proj2 (proj2 (creation_keeps_the_secret toy_key (mkResponse [] NoRestrictions false 0 (Some 9)) _ ∅ toy_key_ok eq_refl)))).
Defined.

Lemma call_link_lifecycle_witness :
  read_call_link "https://sfu.example/" toy_key [1] = Val (Done (Err CALL_LINK_INVALID)).
Proof.
  exact (proj1 (call_link_lifecycle "https://sfu.example/" toy_key [1] [2] [3] None toy_key_ok toy_key_invalid)).
Defined.

(** The request that creates the link, and the state that an answer with epoch 9 gives. *)
Example a_link_is_created :
  match create_call_link "https://sfu.example//" toy_key [65] [2] [3] None with
  | Val (Send request k) =>
    url request = "https://sfu.example/v1/call-link"%string /\ body request = Some [2; 3] /\
    headers request !! "Authorization"%string = Some "Bearer create.A"%string /\
    headers request !! HTTP_EPOCH_HEADER = None /\
    match k (Some (mkHttpResponse (mkStatus 200) [9])) with
    | Val (Ok st) =>
      root_key st = V1 (with_epoch toy_crn 9) /\
      match read_call_link "https://sfu.example" (root_key st) [65] with
      | Val (Send request' _) => headers request' !! HTTP_EPOCH_HEADER = Some "9"%string
      | _ => False
      end
    | _ => False
    end
  | _ => False
  end.
Proof. vm_compute. repeat split. Qed.

Lemma call_link_name_roundtrip_witness : exists encrypted,
  encrypt toy_key (as_bytes "Secret Hideout") 5 = Val encrypted /\
  (zlen encrypted - 16) mod 32 = 0 /\
  forall response, encrypted_name response = as_bytes (base64_encode encrypted) ->
    expiration_unix_timestamp response <= SYSTEM_TIME_MAX ->
    exists st, from_serialized response toy_key = Val st /\ name st = "Secret Hideout"%string.
Proof.
  assert (Hl : zlen (as_bytes "Secret Hideout") + 64 <= P_MAX) by (vm_compute; discriminate).
  exact (call_link_name_roundtrip toy_key "Secret Hideout" 5 eq_refl Hl).
Defined.

Lemma far_expiration_panics_witness : exists request k,
  read_call_link "" (V1 (with_epoch toy_crn 9)) [1] = Val (Send request k) /\
  k (Some (mkHttpResponse (mkStatus 200) [255])) = Panic.
Proof.
  eexists _, _. split; [reflexivity|].
  exact (far_expiration_panics "" (V1 (with_epoch toy_crn 9)) [1] _ _ 200 [255] _ eq_refl eq_refl eq_refl eq_refl).
Defined.

(** ** HTTP *)

Definition toy_request : Request := mkRequest Get ""%string ∅ None.

(** Two requests; the second is answered first, and twice. *)
Definition toy_ops : list (Op (C := nat)) :=
  [OpSend toy_request 10%nat; OpSend toy_request 11%nat; OpReceive 1 None; OpReceive 1 None; OpReceive 0 None; OpReceive 5 None].

Lemma responses_reach_their_requests_witness :
  run toy_ops default_callbacks = spec_run toy_ops [] /\
  run toy_ops default_callbacks =
    [RequestSent 0 toy_request; RequestSent 1 toy_request; CallbackCalled 11%nat None; UnknownRequest 1;
     CallbackCalled 10%nat None; UnknownRequest 5].
Proof.
  split; [|reflexivity]. apply responses_reach_their_requests; [|vm_compute; discriminate].
  repeat constructor; cbn; lia.
Defined.

(** ** The resolver *)

(** The cache holds seventeen entries, one more than [MAX_CACHE_ENTRIES]. *)
Example cache_grows_to_seventeen :
  zlen (bytes_cache (resolver_run (fun _ : string => None) (fun (_ : unit) l => Some l)
    ((fun i => ResolveBytes [i]) <$> seqZ 0 40) (resolver_of (fun _ => tt) toy_key)).1) = 17.
Proof. vm_compute. reflexivity. Qed.

(** ** Joining *)

Definition toy_calls : list GroupCall.SfuCall :=
  [GroupCall.SfuJoin "a" "p" [1]; GroupCall.SfuSetMembershipProof [255]; GroupCall.SfuPeek; GroupCall.SfuJoin "b" "p" [1]].

Lemma toy_calls_ok : Forall no_proof toy_calls.
Proof. by repeat constructor. Qed.

Lemma joins_wait_for_the_proof_witness : exists s1 es1 s2 es2,
  run_calls toy_calls (new "u" None None None []) = Val (s1, es1) /\ omap put_request es1 = [] /\
  run_calls (toy_calls ++ [GroupCall.SfuSetMembershipProof [65]; GroupCall.SfuJoin "c" "p" [1]]) (new "u" None None None [])
    = Val (s2, es1 ++ es2) /\
  omap put_request es2 = [(Some "Basic A:A"%string, Some (as_bytes "b")); (Some "Basic A:A"%string, Some (as_bytes "c"))].
Proof.
  exact (joins_wait_for_the_proof "u" None None None [] toy_calls [65] [GroupCall.SfuJoin "c" "p" [1]] "Basic A:A"
    eq_refl toy_calls_ok eq_refl).
Defined.

End CallLinkExamples.
