(* ===== verification/StatsObserver.v ===== *)
(** * The observer of statistics (src/rust/src/webrtc/stats_observer.rs)

    WebRTC reports the counters of every stream from time to time.  The observer keeps the
    last report, derives from the differences what happened in between, and hands these
    snapshots to a consumer, which is the call summary.  Numbers of Rust's floating point
    types are a parameter. *)

From S2P Require Import Prelude States ConnectionTypes.
From stdpp Require Import strings pretty.
Local Open Scope Z_scope.
Local Open Scope ringrtc_scope.

(** A floating point type; [fl_of_Z] is [as] from an integer, and a literal. *)
Class Float (T : Type) : Type := {
  fl_of_Z : Z -> T;
  fl_MAX : T;
  fl_MIN : T;
  (** neither NaN nor infinite *)
  fl_is_finite : T -> bool;
  fl_lt : T -> T -> bool;
  fl_add : T -> T -> T;
  fl_sub : T -> T -> T;
  fl_mul : T -> T -> T;
  fl_div : T -> T -> T;
  fl_max : T -> T -> T;
}.

(** [f32] and [f64], and [DDSketch]. *)
Class Floats : Type := {
  f32 : Type;
  f64 : Type;
  f32_Float :: Float f32;
  f64_Float :: Float f64;
  f32_of_f64 : f64 -> f32;
  f64_of_f32 : f32 -> f64;
  f32_sqrt : f32 -> f32;
  Sketch : Type;
  sketch_new : Sketch;
  sketch_add : f64 -> Sketch -> Sketch;
  (** [quantile(0.5)], with [None] for an error. *)
  sketch_median : Sketch -> option f64;
}.

Module StatsObserver.

(** Every 60 reports; ten minutes, in nanoseconds. *)
Definition CLEAN_UP_STATS_TICKS : Z := 60.
Definition MAX_STATS_AGE : Z := 60 * 10 * 1000000000.

Inductive StatsVideoCodecType : Type := CodecInvalid | CodecVp8 | CodecVp9.

(** Arithmetic of [i32] wraps around. *)
Definition as_i32 (z : Z) : Z := wrap 32 (z + 2 ^ 31) - 2 ^ 31.

(** ** Arithmetic *)

Definition naive_checked_div {T} `{Float T} (numerator denominator : T) : option T :=
  let r := fl_div numerator denominator in
  if fl_is_finite r then Some r else None.

(** [delta_fn] for integers, for [i32] and for floating point numbers. *)
Definition delta (l_val r_val : Z) : Z := if r_val <? l_val then l_val - r_val else 0.
Definition delta_i32 (l_val r_val : Z) : Z := if r_val <? l_val then as_i32 (l_val - r_val) else 0.
Definition delta_fl {T} `{Float T} (l_val r_val : T) : T :=
  if fl_lt r_val l_val then fl_sub l_val r_val else fl_of_Z 0.

Definition signed_delta (l_val r_val : Z) : Z := as_i32 (l_val - r_val).

Section Stats.
Context `{Floats}.

Definition compute_packets_lost_pct (packets_lost packets_total : Z) : f32 :=
  default (fl_of_Z 0) (naive_checked_div (fl_mul (fl_of_Z packets_lost) (fl_of_Z 100)) (fl_of_Z packets_total)).
Definition compute_bitrate (byte_count : Z) (seconds_elapsed : f32) : f32 :=
  default (fl_of_Z 0) (naive_checked_div (fl_mul (fl_of_Z byte_count) (fl_of_Z 8)) seconds_elapsed).
Definition compute_packets_per_second (packet_count : Z) (seconds_elapsed : f32) : f32 :=
  default (fl_of_Z 0) (naive_checked_div (fl_of_Z packet_count) seconds_elapsed).

(** Seconds as milliseconds. *)
Definition in_ms (x : f64) : f64 := fl_mul (fl_of_Z 1000) x.

(** ** Reports of WebRTC; a null pointer to a text is [None] *)

Record AudioSenderStatistics : Type := mkSA {
  sa_ssrc : Z; sa_packets_sent : Z; sa_bytes_sent : Z; sa_remote_fraction_lost : f64; sa_remote_packets_lost : Z;
  sa_remote_jitter : f64; sa_remote_round_trip_time : f64; sa_total_audio_energy : f64;
}.

Record VideoSenderStatistics : Type := mkSV {
  sv_ssrc : Z; sv_packets_sent : Z; sv_bytes_sent : Z; sv_frames_encoded : Z; sv_key_frames_encoded : Z;
  sv_total_encode_time : f64; sv_frame_width : Z; sv_frame_height : Z; sv_retransmitted_packets_sent : Z;
  sv_retransmitted_bytes_sent : Z; sv_total_packet_send_delay : f64; sv_nack_count : Z; sv_pli_count : Z;
  sv_quality_limitation_reason : Z; sv_quality_limitation_resolution_changes : Z; sv_remote_fraction_lost : f64;
  sv_remote_packets_lost : Z; sv_remote_jitter : f64; sv_remote_round_trip_time : f64;
  sv_codec : StatsVideoCodecType; sv_encoder_implementation : option string;
}.

Record AudioReceiverStatistics : Type := mkRA {
  ra_ssrc : Z; ra_packets_received : Z; ra_packets_lost : Z; ra_bytes_received : Z; ra_jitter : f64;
  ra_total_audio_energy : f64; ra_jitter_buffer_delay : f64; ra_jitter_buffer_target_delay : f64;
  ra_jitter_buffer_emitted_count : Z; ra_jitter_buffer_flushes : Z; ra_estimated_playout_timestamp : f64;
  ra_total_samples_received : Z; ra_concealed_samples : Z; ra_silent_concealed_samples : Z;
  ra_fec_packets_received : Z; ra_packets_discarded : Z; ra_relative_packet_arrival_delay : f64;
}.

Record VideoReceiverStatistics : Type := mkRV {
  rv_ssrc : Z; rv_packets_received : Z; rv_packets_lost : Z; rv_bytes_received : Z; rv_frames_received : Z;
  rv_frames_decoded : Z; rv_key_frames_decoded : Z; rv_total_decode_time : f64; rv_frame_width : Z;
  rv_frame_height : Z; rv_freeze_count : Z; rv_total_freezes_duration : f64; rv_jitter : f64;
  rv_jitter_buffer_delay : f64; rv_jitter_buffer_emitted_count : Z; rv_jitter_buffer_flushes : Z;
  rv_estimated_playout_timestamp : f64; rv_codec : StatsVideoCodecType; rv_decoder_implementation : option string;
}.

Record ConnectionStatistics : Type := mkCS {
  cs_candidate_pair_id : option string; cs_current_round_trip_time : f64; cs_available_outgoing_bitrate : f64;
  cs_requests_sent : Z; cs_responses_received : Z; cs_requests_received : Z; cs_responses_sent : Z;
}.

(** The arrays behind the pointers are lists. *)
Record MediaStatistics : Type := mkMedia {
  m_timestamp_us : Z;
  m_audio_sender_statistics : list AudioSenderStatistics;
  m_video_sender_statistics : list VideoSenderStatistics;
  m_audio_receiver_statistics : list AudioReceiverStatistics;
  m_video_receiver_statistics : list VideoReceiverStatistics;
  m_nominated_connection_statistics : ConnectionStatistics;
  m_connection_statistics : list ConnectionStatistics;
}.

Definition default_audio_sender : AudioSenderStatistics :=
  let z := fl_of_Z 0 in mkSA 0 0 0 z 0 z z z.
Definition default_video_sender : VideoSenderStatistics :=
  let z := fl_of_Z 0 in mkSV 0 0 0 0 0 z 0 0 0 0 z 0 0 0 0 z 0 z z CodecInvalid None.
Definition default_audio_receiver : AudioReceiverStatistics :=
  let z := fl_of_Z 0 in mkRA 0 0 0 0 z z z z 0 0 z 0 0 0 0 0 z.
Definition default_video_receiver : VideoReceiverStatistics :=
  let z := fl_of_Z 0 in mkRV 0 0 0 0 0 0 0 z 0 0 0 z z z 0 0 z CodecInvalid None.

Definition is_new_stream (self prev_stats : VideoSenderStatistics) : bool :=
  (sv_packets_sent self <? sv_packets_sent prev_stats)
  || (sv_bytes_sent self <? sv_bytes_sent prev_stats)
  || (sv_frames_encoded self <? sv_frames_encoded prev_stats)
  || (sv_key_frames_encoded self <? sv_key_frames_encoded prev_stats)
  || (sv_nack_count self <? sv_nack_count prev_stats)
  || (sv_pli_count self <? sv_pli_count prev_stats).

Definition quality_limitation_reason_description (self : VideoSenderStatistics) : string :=
  let x := sv_quality_limitation_reason self in
  if x =? 0 then "none" else if x =? 1 then "cpu" else if x =? 2 then "bandwidth" else if x =? 3 then "other"
  else pretty (Z.to_N x).

Definition clone_without_ptr (c : ConnectionStatistics) : ConnectionStatistics :=
  mkCS None (cs_current_round_trip_time c) (cs_available_outgoing_bitrate c) (cs_requests_sent c)
    (cs_responses_received c) (cs_requests_received c) (cs_responses_sent c).

(** ** Snapshots *)

Record AudioSenderStatsSnapshot : Type := mkAudioSender {
  as_ssrc : Z; as_packets_per_second : f32; as_average_packet_size : f32; as_bitrate : f32;
  as_remote_packets_lost_pct : f64; as_remote_jitter : f64; as_remote_rtt : f64; as_audio_energy : f64;
}.

Definition derive_audio_sender (curr_stats prev_stats : AudioSenderStatistics) (seconds_elapsed : f32)
  : AudioSenderStatsSnapshot :=
  let packets_sent_delta := delta (sa_packets_sent curr_stats) (sa_packets_sent prev_stats) in
  let audio_energy_delta := delta_fl (sa_total_audio_energy curr_stats) (sa_total_audio_energy prev_stats) in
  let bytes_sent_delta := delta (sa_bytes_sent curr_stats) (sa_bytes_sent prev_stats) in
  let packets_per_second := compute_packets_per_second packets_sent_delta seconds_elapsed in
  let average_packet_size := default (fl_of_Z 0) (naive_checked_div (fl_of_Z bytes_sent_delta) (fl_of_Z packets_sent_delta)) in
  let bitrate := compute_bitrate bytes_sent_delta seconds_elapsed in
  let remote_packets_lost_pct := fl_mul (sa_remote_fraction_lost curr_stats) (fl_of_Z 100) in
  mkAudioSender (sa_ssrc curr_stats) packets_per_second average_packet_size bitrate remote_packets_lost_pct
    (in_ms (sa_remote_jitter curr_stats)) (in_ms (sa_remote_round_trip_time curr_stats)) audio_energy_delta.

Record AudioReceiverStatsSnapshot : Type := mkAudioReceiver {
  ar_ssrc : Z; ar_packets_per_second : f32; ar_packets_lost_pct : f32; ar_bitrate : f32; ar_jitter : f64;
  ar_jitter_buffer_delay : f64; ar_jitter_buffer_target_delay : f64; ar_jitter_buffer_flushes : Z;
  ar_audio_energy : f64; ar_concealed_samples_pct : f32; ar_fec_packets_received : Z;
  ar_relative_arrival_delay_per_packet : f64;
}.

Definition derive_audio_receiver (curr_stats prev_stats : AudioReceiverStatistics) (seconds_elapsed : f32)
    (prev_jitter_buffer_delay prev_jitter_buffer_target_delay : f64) : AudioReceiverStatsSnapshot :=
  let d f := delta (f curr_stats) (f prev_stats) in
  let d_fl f := delta_fl (f curr_stats) (f prev_stats) in
  let signed_packets_lost_delta := signed_delta (ra_packets_lost curr_stats) (ra_packets_lost prev_stats) in
  let packets_received_delta := d ra_packets_received in
  let jitter_buffer_emitted_delta := d ra_jitter_buffer_emitted_count in
  let packets_lost_pct :=
    let numerator := as_i32 (signed_packets_lost_delta + as_i32 (d ra_packets_discarded)) in
    let denominator := as_i32 (as_i32 packets_received_delta + signed_packets_lost_delta) in
    if 0 <? denominator then
      fl_max (fl_div (fl_mul (fl_of_Z numerator) (fl_of_Z 100)) (fl_of_Z denominator)) (fl_of_Z 0)
    else fl_of_Z 0 in
  let per_emitted f prev :=
    default prev ((fun ratio => fl_mul ratio (fl_of_Z 1000)) <$>
                  naive_checked_div (d_fl f) (fl_of_Z jitter_buffer_emitted_delta)) in
  let concealed := Z.max 0 (d ra_concealed_samples - d ra_silent_concealed_samples) in
  mkAudioReceiver (ra_ssrc curr_stats) (compute_packets_per_second packets_received_delta seconds_elapsed)
    packets_lost_pct (compute_bitrate (d ra_bytes_received) seconds_elapsed) (in_ms (ra_jitter curr_stats))
    (per_emitted ra_jitter_buffer_delay prev_jitter_buffer_delay)
    (per_emitted ra_jitter_buffer_target_delay prev_jitter_buffer_target_delay)
    (d ra_jitter_buffer_flushes) (d_fl ra_total_audio_energy)
    (default (fl_of_Z 0) (naive_checked_div (fl_mul (fl_of_Z concealed) (fl_of_Z 100)) (fl_of_Z (d ra_total_samples_received))))
    (d ra_fec_packets_received)
    (default (fl_of_Z 0) (naive_checked_div (in_ms (d_fl ra_relative_packet_arrival_delay)) (fl_of_Z packets_received_delta))).

Record VideoSenderStatsSnapshot : Type := mkVideoSender {
  vs_ssrc : Z; vs_packets_per_second : f32; vs_average_packet_size : f32; vs_bitrate : f32; vs_framerate : f32;
  vs_key_frames_encoded : Z; vs_encode_time_per_frame : f64; vs_width : Z; vs_height : Z;
  vs_retransmitted_packets_sent : Z; vs_retransmitted_bitrate : f32; vs_send_delay_per_packet : f64;
  vs_nack_count : Z; vs_pli_count : Z; vs_quality_limitation_reason : string;
  vs_quality_limitation_resolution_changes : Z; vs_remote_packets_lost_pct : f64; vs_remote_jitter : f64;
  vs_remote_round_trip_time : f64; vs_codec : StatsVideoCodecType; vs_encoder_implementation : option string;
}.

Definition derive_video_sender (curr_stats prev_stats : VideoSenderStatistics) (seconds_elapsed : f32)
  : VideoSenderStatsSnapshot :=
  let d f := delta (f curr_stats) (f prev_stats) in
  let d_fl f := delta_fl (f curr_stats) (f prev_stats) in
  let packets_sent_delta := d sv_packets_sent in
  let bytes_sent_delta := d sv_bytes_sent in
  let frames_encoded_delta := d sv_frames_encoded in
  let per_frame f := in_ms (default (fl_of_Z 0) (naive_checked_div (d_fl f) (fl_of_Z frames_encoded_delta))) in
  mkVideoSender (sv_ssrc curr_stats) (compute_packets_per_second packets_sent_delta seconds_elapsed)
    (default (fl_of_Z 0) (naive_checked_div (fl_of_Z bytes_sent_delta) (fl_of_Z packets_sent_delta)))
    (compute_bitrate bytes_sent_delta seconds_elapsed)
    (default (fl_of_Z 0) (naive_checked_div (fl_of_Z frames_encoded_delta) seconds_elapsed))
    (d sv_key_frames_encoded) (per_frame sv_total_encode_time) (sv_frame_width curr_stats) (sv_frame_height curr_stats)
    (d sv_retransmitted_packets_sent) (compute_bitrate (d sv_retransmitted_bytes_sent) seconds_elapsed)
    (per_frame sv_total_packet_send_delay) (d sv_nack_count) (d sv_pli_count)
    (quality_limitation_reason_description curr_stats) (d sv_quality_limitation_resolution_changes)
    (fl_mul (sv_remote_fraction_lost curr_stats) (fl_of_Z 100)) (in_ms (sv_remote_jitter curr_stats))
    (in_ms (sv_remote_round_trip_time curr_stats)) (sv_codec curr_stats) (sv_encoder_implementation curr_stats).

Record VideoReceiverStatsSnapshot : Type := mkVideoReceiver {
  vr_ssrc : Z; vr_packets_per_second : f32; vr_packets_lost_pct : f32; vr_bitrate : f32; vr_framerate : f32;
  vr_key_frames_decoded : Z; vr_decode_time_per_frame : f64; vr_width : Z; vr_height : Z; vr_jitter : f64;
  vr_freeze_count : Z; vr_codec : StatsVideoCodecType; vr_decoder_implementation : option string;
}.

Definition derive_video_receiver (curr_stats prev_stats : VideoReceiverStatistics) (seconds_elapsed : f32)
  : VideoReceiverStatsSnapshot :=
  let d f := delta (f curr_stats) (f prev_stats) in
  let packets_received_delta := d rv_packets_received in
  let frames_decoded_delta := d rv_frames_decoded in
  let packets_lost := Z.max 0 (delta_i32 (rv_packets_lost curr_stats) (rv_packets_lost prev_stats)) in
  mkVideoReceiver (rv_ssrc curr_stats) (compute_packets_per_second packets_received_delta seconds_elapsed)
    (compute_packets_lost_pct packets_lost (as_u32 (packets_received_delta + packets_lost)))
    (compute_bitrate (d rv_bytes_received) seconds_elapsed)
    (fl_div (fl_of_Z frames_decoded_delta) seconds_elapsed)
    (d rv_key_frames_decoded)
    (in_ms (default (fl_of_Z 0)
       (naive_checked_div (delta_fl (rv_total_decode_time curr_stats) (rv_total_decode_time prev_stats)) (fl_of_Z frames_decoded_delta))))
    (rv_frame_width curr_stats) (rv_frame_height curr_stats)
    (delta_fl (rv_jitter curr_stats) (rv_jitter prev_stats))
    (d rv_freeze_count) (rv_codec curr_stats) (rv_decoder_implementation curr_stats).

Record ConnectionStatsSnapshot : Type := mkConnectionSnapshot {
  cn_call_id : CallId; cn_timestamp_us : Z; cn_current_round_trip_time : f64; cn_available_outgoing_bitrate : f64;
  cn_requests_sent : Z; cn_responses_received : Z; cn_requests_received : Z; cn_responses_sent : Z;
  cn_network_route : option NetworkRoute;
}.

Definition derive_connection (call_id : CallId) (timestamp_us : Z) (stats : ConnectionStatistics)
    (network_route : option NetworkRoute) : ConnectionStatsSnapshot :=
  mkConnectionSnapshot call_id timestamp_us (in_ms (cs_current_round_trip_time stats)) (cs_available_outgoing_bitrate stats)
    (cs_requests_sent stats) (cs_responses_received stats) (cs_requests_received stats) (cs_responses_sent stats)
    network_route.

Inductive StatsSnapshot : Type :=
| SnapshotBegin
| SnapshotEnd
| AudioSender (snapshot : AudioSenderStatsSnapshot)
| AudioReceiver (snapshot : AudioReceiverStatsSnapshot)
| VideoSender (snapshot : VideoSenderStatsSnapshot)
| VideoReceiver (snapshot : VideoReceiverStatsSnapshot)
| ConnectionStats (snapshot : ConnectionStatsSnapshot)
| SystemStats (cpu_pct : f32).

(** ** The observer *)

Record Stats : Type := mkStats {
  timestamp_us : Z;
  audio_send : gmap Z AudioSenderStatistics;
  video_send : gmap Z VideoSenderStatistics;
  audio_recv : gmap Z (Z * AudioReceiverStatistics * f64 * f64);
  video_recv : gmap Z (Z * VideoReceiverStatistics);
  connections : gmap string (Z * ConnectionStatistics);
  report_json : string;
}.

#[global] Instance Stats_eta : Eta Stats := fun r =>
  mkStats (timestamp_us r) (audio_send r) (video_send r) (audio_recv r) (video_recv r) (connections r) (report_json r).

Record StatsObserver : Type := mkObserver {
  call_id : CallId;
  stats : Stats;
  stats_initial_offset : Z;
  stats_received_count : Z;
  to_report_network_route : option NetworkRoute;
  next_network_route : option NetworkRoute;
}.

#[global] Instance StatsObserver_eta : Eta StatsObserver := fun r =>
  mkObserver (call_id r) (stats r) (stats_initial_offset r) (stats_received_count r) (to_report_network_route r) (next_network_route r).

(** The offset is in seconds. *)
Definition new (call_id : CallId) (stats_initial_offset : Z) : StatsObserver :=
  mkObserver call_id (mkStats 0 ∅ ∅ ∅ ∅ ∅ EmptyString) stats_initial_offset 0 None None.

Definition set_network_route (route : NetworkRoute) (o : StatsObserver) : StatsObserver :=
  o <| next_network_route := Some route |>.

Definition take_stats_report (o : StatsObserver) : StatsObserver * option string :=
  match report_json (stats o) with
  | EmptyString => (o, None)
  | report => (o <| stats := stats o <| report_json := EmptyString |> |>, Some report)
  end.

(** One round of each of the four loops: the new table and what the consumer is given. *)

Definition on_audio_sender (secs : f32) (x : AudioSenderStatistics) (s : Stats) : Stats * StatsSnapshot :=
  let prev := default default_audio_sender (audio_send s !! sa_ssrc x) in
  (s <| audio_send := <[sa_ssrc x := x]> (audio_send s) |>, AudioSender (derive_audio_sender x prev secs)).

Definition on_video_sender (secs : f32) (x : VideoSenderStatistics) (s : Stats) : Stats * StatsSnapshot :=
  let prev := default default_video_sender (video_send s !! sv_ssrc x) in
  let prev := if is_new_stream x prev then default_video_sender else prev in
  (s <| video_send := <[sv_ssrc x := x]> (video_send s) |>, VideoSender (derive_video_sender x prev secs)).

Definition on_audio_receiver (now : Z) (secs : f32) (x : AudioReceiverStatistics) (s : Stats) : Stats * StatsSnapshot :=
  let '(_, prev, prev_jb_delay, prev_jb_target_delay) :=
    default (now, default_audio_receiver, fl_of_Z 0, fl_of_Z 0) (audio_recv s !! ra_ssrc x) in
  let snapshot := derive_audio_receiver x prev secs prev_jb_delay prev_jb_target_delay in
  (s <| audio_recv := <[ra_ssrc x := (now, x, ar_jitter_buffer_delay snapshot, ar_jitter_buffer_target_delay snapshot)]>
                        (audio_recv s) |>, AudioReceiver snapshot).

Definition on_video_receiver (now : Z) (secs : f32) (x : VideoReceiverStatistics) (s : Stats) : Stats * StatsSnapshot :=
  let '(_, prev) := default (now, default_video_receiver) (video_recv s !! rv_ssrc x) in
  (s <| video_recv := <[rv_ssrc x := (now, x)]> (video_recv s) |>, VideoReceiver (derive_video_receiver x prev secs)).

Fixpoint for_each {A} (f : A -> Stats -> Stats * StatsSnapshot) (l : list A) (s : Stats) : Stats * list StatsSnapshot :=
  match l with
  | [] => (s, [])
  | x :: l =>
    let '(s, snapshot) := f x s in
    let '(s, snapshots) := for_each f l s in
    (s, snapshot :: snapshots)
  end.

Definition connections_of (now : Z) (l : list ConnectionStatistics) : gmap string (Z * ConnectionStatistics) :=
  foldl (fun m c => match cs_candidate_pair_id c with
                    | Some pair_id => <[pair_id := (now, clone_without_ptr c)]> m
                    | None => m
                    end) ∅ l.

Definition remove_old_stats (now : Z) (s : Stats) : Stats :=
  s <| audio_recv := filter (fun kv => now - (kv.2).1.1.1 < MAX_STATS_AGE) (audio_recv s) |>
    <| video_recv := filter (fun kv => now - (kv.2).1 < MAX_STATS_AGE) (video_recv s) |>.

(** What the consumer is given, in order; [cpu_pct] is the answer of the system, and the
    clock is read once. *)
Definition on_stats_complete (now : Z) (cpu_pct : f32) (media_statistics : MediaStatistics) (report : string)
    (o : StatsObserver) : StatsObserver * list StatsSnapshot :=
  let m := media_statistics in
  let secs := if 0 <? timestamp_us (stats o)
              then fl_div (fl_of_Z (m_timestamp_us m - timestamp_us (stats o))) (fl_of_Z 1000000)
              else fl_of_Z (stats_initial_offset o) in
  let s := stats o <| report_json := report |> in
  let to_report := match to_report_network_route o with None => next_network_route o | Some r => Some r end in
  let connection := ConnectionStats
    (derive_connection (call_id o) (m_timestamp_us m) (m_nominated_connection_statistics m) to_report) in
  let '(s, audio_senders) := for_each (on_audio_sender secs) (m_audio_sender_statistics m) s in
  let '(s, video_senders) := for_each (on_video_sender secs) (m_video_sender_statistics m) s in
  let '(s, audio_receivers) := for_each (on_audio_receiver now secs) (m_audio_receiver_statistics m) s in
  let '(s, video_receivers) := for_each (on_video_receiver now secs) (m_video_receiver_statistics m) s in
  let s := s <| timestamp_us := m_timestamp_us m |> in
  let count := as_u32 (stats_received_count o + 1) in
  let s := s <| connections := connections_of now (m_connection_statistics m) |> in
  let s := if count mod CLEAN_UP_STATS_TICKS =? 0 then remove_old_stats now s else s in
  (o <| stats := s |> <| stats_received_count := count |> <| to_report_network_route := next_network_route o |>,
   [SnapshotBegin; SystemStats cpu_pct; connection] ++ audio_senders ++ video_senders ++ audio_receivers ++
   video_receivers ++ [SnapshotEnd]).

End Stats.
End StatsObserver.
