(* ===== verification/CallSummary.v ===== *)
(** * The call summary (src/rust/src/core/call_summary.rs)

    During a call the events and the statistics of WebRTC are collected; at its end they
    become a summary for the application and a blob of telemetry whose size is limited.
    This file has the collection and the summary of direct and of group calls.  The quantile
    sketches and the encoding of the blob are parameters. *)

From S2P Require Import Prelude States Signaling ConnectionTypes Connection Call GroupTypes StatsObserver.
From stdpp Require Import strings.
Local Open Scope Z_scope.
Local Open Scope ringrtc_scope.

(** [Sample], with the operators that it requires. *)
Class Sample (T : Type) : Type := {
  sample_ZERO : T;
  sample_MAX : T;
  sample_MIN : T;
  sample_is_valid : T -> bool;
  sample_lt : T -> T -> bool;
  sample_add : T -> T -> T;
  sample_sub : T -> T -> T;
  sample_mul : T -> T -> T;
  sample_div : T -> T -> T;
  (** [count as T] *)
  sample_of_count : Z -> T;
}.

(** [impl_sample_trait!] *)
#[global] Instance Float_Sample {T} `{Float T} : Sample T := {|
  sample_ZERO := fl_of_Z 0;
  sample_MAX := fl_MAX;
  sample_MIN := fl_MIN;
  sample_is_valid := fl_is_finite;
  sample_lt := fl_lt;
  sample_add := fl_add;
  sample_sub := fl_sub;
  sample_mul := fl_mul;
  sample_div := fl_div;
  sample_of_count := fl_of_Z;
|}.

Module Distribution.
Section Distribution.
Context {T : Type} `{Sample T}.

(** Running variance and mean (Welford's method). *)
Definition variance_step (variance mean : T) (count : Z) (sample : T) : T * T :=
  let n := sample_of_count count in
  let new_mean := sample_add mean (sample_div (sample_sub sample mean) n) in
  let new_variance :=
    sample_add variance
      (sample_div (sample_sub (sample_mul (sample_sub sample mean) (sample_sub sample new_mean)) variance) n) in
  (new_variance, new_mean).

Record DistributionSummary : Type := mkDistribution {
  mean : T;
  variance : T;
  min_val : T;
  max_val : T;
  count : Z;
}.

Definition default_distribution : DistributionSummary :=
  mkDistribution sample_ZERO sample_ZERO sample_MAX sample_MIN 0.

Definition push (sample : T) (s : DistributionSummary) : DistributionSummary :=
  if sample_is_valid sample then
    let min_val := if sample_lt sample (min_val s) then sample else min_val s in
    let max_val := if sample_lt (max_val s) sample then sample else max_val s in
    let count := u64_add (count s) 1 in
    let '(variance, mean) := variance_step (variance s) (mean s) count sample in
    mkDistribution mean variance min_val max_val count
  else s.

End Distribution.
Arguments DistributionSummary T : clear implicits.
End Distribution.

Module CallSummary.
Import Distribution StatsObserver.

(** ** Limits *)

Definition CALL_TELEMETRY_VERSION : Z := 1.
Definition MAX_STREAM_SUMMARIES : Z := 500.
Definition MAX_TELEMETRY_ENCODED_SIZE : Z := 65536.
Definition DEFAULT_MAX_STATS_SETS : Z := 30.
Definition MIN_RELAYED_FRACTION : Z := 8.
Definition MIN_CALL_TIME_IGNORE_RELAY_FRACTION_MILLIS : Z := 30 * 1000.

(** Milliseconds since 1970; times of the system are nanoseconds, negative before 1970. *)
Definition from_system_time (time : Z) : option Z :=
  if time <? 0 then None else Some (wrap 64 (time / 1000000)).

Definition is_cellular (a : NetworkAdapterType) : bool :=
  match a with
  | Cellular | Cellular2G | Cellular3G | Cellular4G | Cellular5G => true
  | _ => false
  end.

Inductive Event : Type :=
| EventIceConnected | EventIceDisconnected | EventIceFailed | EventIceNetworkRouteChanged
| EventGroupCallDisconnected | EventGroupCallConnecting | EventGroupCallConnected | EventGroupCallReconnecting.

Section Summary.
Context `{Floats}.

(** ** Summaries of streams *)

Record StreamSummary : Type := mkStreamSummary {
  bitrate : DistributionSummary f32;
  packet_loss : DistributionSummary f32;
  jitter : DistributionSummary f32;
  freeze_count : DistributionSummary f32;
  video_codec : StatsVideoCodecType;
  codec_implementation : option string;
  audio_concealed_samples : DistributionSummary f32;
  audio_redundant_packets : option Z;
  audio_jitter_buffer_flushes : option Z;
  audio_relative_arrival_delay : DistributionSummary f32;
}.

#[global] Instance StreamSummary_eta : Eta StreamSummary := fun r =>
  mkStreamSummary (bitrate r) (packet_loss r) (jitter r) (freeze_count r) (video_codec r) (codec_implementation r)
    (audio_concealed_samples r) (audio_redundant_packets r) (audio_jitter_buffer_flushes r) (audio_relative_arrival_delay r).

Definition default_stream_summary : StreamSummary :=
  mkStreamSummary default_distribution default_distribution default_distribution default_distribution
    CodecInvalid None default_distribution None None default_distribution.

Record StreamSummaries : Type := mkStreamSummaries {
  audio_recv_stream_summaries : gmap Z StreamSummary;
  audio_send_stream_summaries : gmap Z StreamSummary;
  video_recv_stream_summaries : gmap Z StreamSummary;
  video_send_stream_summaries : gmap Z StreamSummary;
}.

#[global] Instance StreamSummaries_eta : Eta StreamSummaries := fun r =>
  mkStreamSummaries (audio_recv_stream_summaries r) (audio_send_stream_summaries r)
    (video_recv_stream_summaries r) (video_send_stream_summaries r).

(** The common body of the four [update_*_stream_summary]. *)
Definition update_stream_summary (ssrc : Z) (func : StreamSummary -> StreamSummary) (m : gmap Z StreamSummary)
  : gmap Z StreamSummary :=
  if Z.of_nat (size m) <=? MAX_STREAM_SUMMARIES then
    <[ssrc := func (default default_stream_summary (m !! ssrc))]> m
  else match m !! ssrc with
       | Some summary => <[ssrc := func summary]> m
       | None => m
       end.

Definition update_audio_recv_stream_summary ssrc func (s : StreamSummaries) : StreamSummaries :=
  s <| audio_recv_stream_summaries := update_stream_summary ssrc func (audio_recv_stream_summaries s) |>.
Definition update_audio_send_stream_summary ssrc func (s : StreamSummaries) : StreamSummaries :=
  s <| audio_send_stream_summaries := update_stream_summary ssrc func (audio_send_stream_summaries s) |>.
Definition update_video_recv_stream_summary ssrc func (s : StreamSummaries) : StreamSummaries :=
  s <| video_recv_stream_summaries := update_stream_summary ssrc func (video_recv_stream_summaries s) |>.
Definition update_video_send_stream_summary ssrc func (s : StreamSummaries) : StreamSummaries :=
  s <| video_send_stream_summaries := update_stream_summary ssrc func (video_send_stream_summaries s) |>.

(** ** The ring buffer of stats sets *)

Record StreamStats : Type := mkStreamStats {
  st_ssrc : option Z; st_bitrate : option f32; st_packet_loss : option f32; st_jitter : option f32;
  st_rtt : option f32; st_jitter_buffer_delay : option f32; st_framerate : option f32;
}.

Definition stats_of_audio_receiver (s : AudioReceiverStatsSnapshot) : StreamStats :=
  mkStreamStats (Some (ar_ssrc s)) (Some (ar_bitrate s)) (Some (ar_packets_lost_pct s)) (Some (f32_of_f64 (ar_jitter s)))
    None (Some (f32_of_f64 (ar_jitter_buffer_delay s))) None.
Definition stats_of_audio_sender (s : AudioSenderStatsSnapshot) : StreamStats :=
  mkStreamStats (Some (as_ssrc s)) (Some (as_bitrate s)) (Some (f32_of_f64 (as_remote_packets_lost_pct s)))
    (Some (f32_of_f64 (as_remote_jitter s))) (Some (f32_of_f64 (as_remote_rtt s))) None None.
Definition stats_of_video_receiver (s : VideoReceiverStatsSnapshot) : StreamStats :=
  mkStreamStats (Some (vr_ssrc s)) (Some (vr_bitrate s)) (Some (vr_packets_lost_pct s)) (Some (f32_of_f64 (vr_jitter s)))
    None None (Some (vr_framerate s)).
Definition stats_of_video_sender (s : VideoSenderStatsSnapshot) : StreamStats :=
  mkStreamStats (Some (vs_ssrc s)) (Some (vs_bitrate s)) (Some (f32_of_f64 (vs_remote_packets_lost_pct s)))
    (Some (f32_of_f64 (vs_remote_jitter s))) (Some (f32_of_f64 (vs_remote_round_trip_time s))) None (Some (vs_framerate s)).

Record StatsSet : Type := mkStatsSet {
  timestamp : option Z;
  audio_recv_stats : list StreamStats;
  audio_send_stats : list StreamStats;
  video_recv_stats : list StreamStats;
  video_send_stats : list StreamStats;
  events : list Event;
  rtt_stun : list f32;
  set_relayed_field : option bool;
}.

#[global] Instance StatsSet_eta : Eta StatsSet := fun r =>
  mkStatsSet (timestamp r) (audio_recv_stats r) (audio_send_stats r) (video_recv_stats r) (video_send_stats r)
    (events r) (rtt_stun r) (set_relayed_field r).

Record StatsSets : Type := mkStatsSets {
  stats_sets : list StatsSet;
  max_stats_sets : Z;
}.

#[global] Instance StatsSets_eta : Eta StatsSets := fun r => mkStatsSets (stats_sets r) (max_stats_sets r).

Definition default_stats_sets : StatsSets := mkStatsSets [] DEFAULT_MAX_STATS_SETS.

(** Durations are in milliseconds. *)
Definition calculate_max_stats_sets (time_limit_millis stats_period_millis : Z) : result Z string :=
  if (time_limit_millis =? 0) || (stats_period_millis =? 0) then
    Err "time limit/stats period must be greater than 0 ms"%string
  else if time_limit_millis <=? stats_period_millis then Err "time limit too short for stats period"%string
  else Ok (wrap 64 (time_limit_millis / stats_period_millis)).

Definition new_stats_sets (time_limit stats_period : Z) : result StatsSets string :=
  match calculate_max_stats_sets time_limit stats_period with
  | Ok max => Ok (mkStatsSets [] max)
  | Err e => Err e
  end.

Definition establish_current_stats_set (now : Z) (s : StatsSets) : StatsSets :=
  let sets := if zlen (stats_sets s) =? max_stats_sets s then tail (stats_sets s) else stats_sets s in
  s <| stats_sets := sets ++ [mkStatsSet (from_system_time now) [] [] [] [] [] [] None] |>.

(** [rotate_left(k)] and [truncate(n)] of a deque. *)
Definition rotate_left {A} (k : Z) (l : list A) : list A := drop (Z.to_nat k) l ++ take (Z.to_nat k) l.

Definition update_limits (time_limit stats_period : Z) (s : StatsSets) : StatsSets * result unit string :=
  match calculate_max_stats_sets time_limit stats_period with
  | Err e => (s, Err e)
  | Ok max =>
    let s := if max <? zlen (stats_sets s) then
               s <| stats_sets := take (Z.to_nat max) (rotate_left (zlen (stats_sets s) - max) (stats_sets s)) |>
             else s in
    (s <| max_stats_sets := max |>, Ok tt)
  end.

(** [let last = self.stats_sets.len() - 1; self.stats_sets[last]...]: there must be one. *)
Fixpoint modify_last {A} (f : A -> A) (l : list A) : outcome (list A) :=
  match l with
  | [] => Panic
  | [x] => Val [f x]
  | x :: l => l' ← modify_last f l; Val (x :: l')
  end.

Definition on_last (f : StatsSet -> StatsSet) (s : StatsSets) : outcome StatsSets :=
  sets ← modify_last f (stats_sets s); Val (s <| stats_sets := sets |>).

Definition push_audio_recv_stream_stats (stats : StreamStats) : StatsSets -> outcome StatsSets :=
  on_last (fun set => set <| audio_recv_stats := audio_recv_stats set ++ [stats] |>).
Definition push_audio_send_stream_stats (stats : StreamStats) : StatsSets -> outcome StatsSets :=
  on_last (fun set => set <| audio_send_stats := audio_send_stats set ++ [stats] |>).
Definition push_video_recv_stream_stats (stats : StreamStats) : StatsSets -> outcome StatsSets :=
  on_last (fun set => set <| video_recv_stats := video_recv_stats set ++ [stats] |>).
Definition push_video_send_stream_stats (stats : StreamStats) : StatsSets -> outcome StatsSets :=
  on_last (fun set => set <| video_send_stats := video_send_stats set ++ [stats] |>).
Definition push_event (event : Event) : StatsSets -> outcome StatsSets :=
  on_last (fun set => set <| events := events set ++ [event] |>).
Definition push_stun_rtt (rtt : f32) : StatsSets -> outcome StatsSets :=
  on_last (fun set => set <| rtt_stun := rtt_stun set ++ [rtt] |>).

(** [back_mut()]: nothing if there is none. *)
Definition set_relayed (relayed : bool) (s : StatsSets) : StatsSets :=
  match on_last (fun set => set <| set_relayed_field := Some relayed |>) s with
  | Val s => s
  | Panic => s
  end.

(** ** Quantile sketches *)

Record MediaQualityStatsSketches : Type := mkMediaSketches {
  jitter_send : Sketch; jitter_recv : Sketch; packet_loss_send : Sketch; packet_loss_recv : Sketch; rtt : Sketch;
}.
#[global] Instance MediaQualityStatsSketches_eta : Eta MediaQualityStatsSketches := fun r =>
  mkMediaSketches (jitter_send r) (jitter_recv r) (packet_loss_send r) (packet_loss_recv r) (rtt r).
Definition default_media_sketches : MediaQualityStatsSketches :=
  mkMediaSketches sketch_new sketch_new sketch_new sketch_new sketch_new.

Record QualityStatsSketches : Type := mkSketches {
  stun_rtt : Sketch;
  audio : MediaQualityStatsSketches;
  video : MediaQualityStatsSketches;
}.
#[global] Instance QualityStatsSketches_eta : Eta QualityStatsSketches := fun r => mkSketches (stun_rtt r) (audio r) (video r).
Definition default_sketches : QualityStatsSketches := mkSketches sketch_new default_media_sketches default_media_sketches.

Record MediaQualityStats : Type := mkMediaStats {
  rtt_median : option f32; jitter_median_send : option f32; jitter_median_recv : option f32;
  packet_loss_fraction_send : option f32; packet_loss_fraction_recv : option f32;
}.
Record QualityStats : Type := mkQualityStats {
  rtt_median_connection : option f32; audio_stats : MediaQualityStats; video_stats : MediaQualityStats;
}.

Definition get_median (sketch : Sketch) : option f32 := f32_of_f64 <$> sketch_median sketch.
Definition media_stats_of (m : MediaQualityStatsSketches) : MediaQualityStats :=
  mkMediaStats (get_median (rtt m)) (get_median (jitter_send m)) (get_median (jitter_recv m))
    ((fun v => fl_div v (fl_of_Z 100)) <$> get_median (packet_loss_send m)) ((fun v => fl_div v (fl_of_Z 100)) <$> get_median (packet_loss_recv m)).
Definition quality_stats_of (s : QualityStatsSketches) : QualityStats :=
  mkQualityStats (get_median (stun_rtt s)) (media_stats_of (audio s)) (media_stats_of (video s)).

(** ** What is collected about a call *)

Record CallInfo : Type := mkCallInfo {
  start_time : Z;
  connect_time : option Z;
  stream_summaries : StreamSummaries;
  cellular : bool;
  info_stats_sets : StatsSets;
  needs_stats_set : bool;
  quality_stats_sketches : QualityStatsSketches;
}.

#[global] Instance CallInfo_eta : Eta CallInfo := fun r =>
  mkCallInfo (start_time r) (connect_time r) (stream_summaries r) (cellular r) (info_stats_sets r)
    (needs_stats_set r) (quality_stats_sketches r).

Definition default_call_info (now : Z) : CallInfo :=
  mkCallInfo now None (mkStreamSummaries ∅ ∅ ∅ ∅) false default_stats_sets false default_sketches.

Definition establish_if_needed (now : Z) (c : CallInfo) : CallInfo :=
  if needs_stats_set c then
    c <| info_stats_sets := establish_current_stats_set now (info_stats_sets c) |> <| needs_stats_set := false |>
  else c.

Definition with_sets (f : StatsSets -> outcome StatsSets) (c : CallInfo) : outcome CallInfo :=
  s ← f (info_stats_sets c); Val (c <| info_stats_sets := s |>).

Definition on_event (now : Z) (event : Event) (c : CallInfo) : outcome CallInfo :=
  with_sets (push_event event) (establish_if_needed now c).

Definition set_connect_time (now : Z) (c : CallInfo) : CallInfo :=
  match connect_time c with
  | None => c <| connect_time := Some now |>
  | Some _ => c
  end.

Definition on_audio (f : MediaQualityStatsSketches -> MediaQualityStatsSketches) (c : CallInfo) : CallInfo :=
  c <| quality_stats_sketches := quality_stats_sketches c <| audio := f (audio (quality_stats_sketches c)) |> |>.
Definition on_video (f : MediaQualityStatsSketches -> MediaQualityStatsSketches) (c : CallInfo) : CallInfo :=
  c <| quality_stats_sketches := quality_stats_sketches c <| video := f (video (quality_stats_sketches c)) |> |>.
Definition on_streams (f : StreamSummaries -> StreamSummaries) (c : CallInfo) : CallInfo :=
  c <| stream_summaries := f (stream_summaries c) |>.

(** [*field.get_or_insert(0) += n] *)
Definition accumulate (n : Z) (o : option Z) : option Z := Some (u64_add (default 0 o) n).

Definition audio_send_summary (x : AudioSenderStatsSnapshot) (y : StreamSummary) : StreamSummary :=
  y <| bitrate := push (as_bitrate x) (bitrate y) |>
    <| packet_loss := push (f32_of_f64 (as_remote_packets_lost_pct x)) (packet_loss y) |>
    <| jitter := push (f32_of_f64 (as_remote_jitter x)) (jitter y) |>.

Definition audio_recv_summary (x : AudioReceiverStatsSnapshot) (y : StreamSummary) : StreamSummary :=
  y <| bitrate := push (ar_bitrate x) (bitrate y) |>
    <| packet_loss := push (ar_packets_lost_pct x) (packet_loss y) |>
    <| jitter := push (f32_of_f64 (ar_jitter x)) (jitter y) |>
    <| audio_concealed_samples := push (ar_concealed_samples_pct x) (audio_concealed_samples y) |>
    <| audio_redundant_packets := accumulate (ar_fec_packets_received x) (audio_redundant_packets y) |>
    <| audio_jitter_buffer_flushes := accumulate (ar_jitter_buffer_flushes x) (audio_jitter_buffer_flushes y) |>
    <| audio_relative_arrival_delay :=
         push (f32_of_f64 (ar_relative_arrival_delay_per_packet x)) (audio_relative_arrival_delay y) |>.

Definition video_send_summary (x : VideoSenderStatsSnapshot) (y : StreamSummary) : StreamSummary :=
  y <| bitrate := push (vs_bitrate x) (bitrate y) |>
    <| packet_loss := push (f32_of_f64 (vs_remote_packets_lost_pct x)) (packet_loss y) |>
    <| jitter := push (f32_of_f64 (vs_remote_jitter x)) (jitter y) |>
    <| video_codec := vs_codec x |>
    <| codec_implementation := vs_encoder_implementation x |>.

Definition video_recv_summary (x : VideoReceiverStatsSnapshot) (y : StreamSummary) : StreamSummary :=
  y <| bitrate := push (vr_bitrate x) (bitrate y) |>
    <| packet_loss := push (vr_packets_lost_pct x) (packet_loss y) |>
    <| jitter := push (f32_of_f64 (vr_jitter x)) (jitter y) |>
    <| freeze_count := push (fl_of_Z (vr_freeze_count x)) (freeze_count y) |>
    <| video_codec := vr_codec x |>
    <| codec_implementation := vr_decoder_implementation x |>.

Definition on_stats_snapshot_ready (now : Z) (stats : StatsSnapshot) (c : CallInfo) : outcome CallInfo :=
  let c := establish_if_needed now c in
  match stats with
  | SnapshotBegin | SystemStats _ => Val c
  | SnapshotEnd => Val (c <| needs_stats_set := true |>)
  | ConnectionStats snapshot =>
    let current_round_trip_time := cn_current_round_trip_time snapshot in
    let c := c <| quality_stats_sketches :=
                    quality_stats_sketches c <| stun_rtt := sketch_add current_round_trip_time (stun_rtt (quality_stats_sketches c)) |> |> in
    c ← with_sets (push_stun_rtt (f32_of_f64 current_round_trip_time)) c;
    let relayed := match cn_network_route snapshot with
                   | Some network => local_relayed network || remote_relayed network
                   | None => false
                   end in
    Val (c <| info_stats_sets := set_relayed relayed (info_stats_sets c) |>)
  | AudioSender x =>
    let c := on_audio (fun m => m <| jitter_send := sketch_add (as_remote_jitter x) (jitter_send m) |>
                                  <| packet_loss_send := sketch_add (as_remote_packets_lost_pct x) (packet_loss_send m) |>
                                  <| rtt := sketch_add (as_remote_rtt x) (rtt m) |>) c in
    let c := on_streams (update_audio_send_stream_summary (as_ssrc x) (audio_send_summary x)) c in
    with_sets (push_audio_send_stream_stats (stats_of_audio_sender x)) c
  | AudioReceiver x =>
    let c := on_audio (fun m => m <| jitter_recv := sketch_add (ar_jitter x) (jitter_recv m) |>
                                  <| packet_loss_recv := sketch_add (f64_of_f32 (ar_packets_lost_pct x)) (packet_loss_recv m) |>) c in
    let c := on_streams (update_audio_recv_stream_summary (ar_ssrc x) (audio_recv_summary x)) c in
    with_sets (push_audio_recv_stream_stats (stats_of_audio_receiver x)) c
  | VideoSender x =>
    let c := on_video (fun m => m <| jitter_send := sketch_add (vs_remote_jitter x) (jitter_send m) |>
                                  <| packet_loss_send := sketch_add (vs_remote_packets_lost_pct x) (packet_loss_send m) |>
                                  <| rtt := sketch_add (vs_remote_round_trip_time x) (rtt m) |>) c in
    let c := on_streams (update_video_send_stream_summary (vs_ssrc x) (video_send_summary x)) c in
    with_sets (push_video_send_stream_stats (stats_of_video_sender x)) c
  | VideoReceiver x =>
    let c := on_video (fun m => m <| jitter_recv := sketch_add (vr_jitter x) (jitter_recv m) |>
                                  <| packet_loss_recv := sketch_add (f64_of_f32 (vr_packets_lost_pct x)) (packet_loss_recv m) |>) c in
    let c := on_streams (update_video_recv_stream_summary (vr_ssrc x) (video_recv_summary x)) c in
    with_sets (push_video_recv_stream_stats (stats_of_video_receiver x)) c
  end.

(** ** Telemetry *)

Record DistributionProto : Type := mkDistributionProto {
  dp_mean : f32; dp_std_dev : f32; dp_min_val : f32; dp_max_val : f32; dp_sample_count : Z;
}.

Definition distribution_to_proto (d : DistributionSummary f32) : option DistributionProto :=
  if count d =? 0 then None
  else Some (mkDistributionProto (mean d) (f32_sqrt (variance d)) (min_val d) (max_val d) (as_u32 (count d))).

Record StreamSummaryProto : Type := mkStreamSummaryProto {
  sp_bitrate : option DistributionProto; sp_packet_loss_pct : option DistributionProto;
  sp_jitter : option DistributionProto; sp_freeze_count : option DistributionProto;
  sp_video_codec : option StatsVideoCodecType; sp_codec_implementation : option string; sp_ssrc : Z;
  sp_audio_concealment_pct : option DistributionProto; sp_audio_redundant_packets : option Z;
  sp_audio_jitter_buffer_flushes : option Z; sp_audio_relative_arrival_delay : option DistributionProto;
}.

Definition stream_summary_to_proto (ssrc : Z) (y : StreamSummary) : StreamSummaryProto :=
  mkStreamSummaryProto (distribution_to_proto (bitrate y)) (distribution_to_proto (packet_loss y))
    (distribution_to_proto (jitter y)) (distribution_to_proto (freeze_count y))
    (match video_codec y with CodecInvalid => None | c => Some c end) (codec_implementation y) ssrc
    (distribution_to_proto (audio_concealed_samples y)) (audio_redundant_packets y)
    (audio_jitter_buffer_flushes y) (distribution_to_proto (audio_relative_arrival_delay y)).

(** The repeated fields are in the order of a [HashMap], which is left open: they stay maps. *)
Record StreamSummariesProto : Type := mkStreamSummariesProto {
  p_audio_send : gmap Z StreamSummaryProto; p_audio_recv : gmap Z StreamSummaryProto;
  p_video_send : gmap Z StreamSummaryProto; p_video_recv : gmap Z StreamSummaryProto;
}.

Definition stream_summaries_to_proto (s : StreamSummaries) : StreamSummariesProto :=
  mkStreamSummariesProto (map_imap (fun k y => Some (stream_summary_to_proto k y)) (audio_send_stream_summaries s))
    (map_imap (fun k y => Some (stream_summary_to_proto k y)) (audio_recv_stream_summaries s))
    (map_imap (fun k y => Some (stream_summary_to_proto k y)) (video_send_stream_summaries s))
    (map_imap (fun k y => Some (stream_summary_to_proto k y)) (video_recv_stream_summaries s)).

Record DirectCallSummaryProto : Type := mkDirectProto {
  dc_stream_summaries : StreamSummariesProto;
  dc_ice_candidate_switch_count : Z;
  dc_ice_reconnect_count : Z;
  dc_relayed : bool;
  dc_offer_sent_time : option Z;
  dc_answer_sent_time : option Z;
  dc_answer_received_time : option Z;
  dc_ice_connected_time : option Z;
}.

Record CallTelemetry : Type := mkTelemetry {
  t_version : Z;
  t_start_time : Z;
  t_connect_time : option Z;
  t_end_time : Z;
  t_cellular : bool;
  t_direct_call_summary : option DirectCallSummaryProto;
  t_group_call_summary : option StreamSummariesProto;
  t_stats_sets : list StatsSet;
}.

#[global] Instance CallTelemetry_eta : Eta CallTelemetry := fun r =>
  mkTelemetry (t_version r) (t_start_time r) (t_connect_time r) (t_end_time r) (t_cellular r)
    (t_direct_call_summary r) (t_group_call_summary r) (t_stats_sets r).

Section Telemetry.
(** prost and serde_json. *)
Context (encoded_len : CallTelemetry -> Z) (encode_to_vec : CallTelemetry -> list Z)
  (to_json : CallTelemetry -> option string).

(** The [while] loop, over the sets that are left. *)
Fixpoint prune_loop (sets : list StatsSet) (t : CallTelemetry) : CallTelemetry * bool :=
  match sets with
  | [] => (t <| t_stats_sets := [] |>, false)
  | _ :: rest =>
    let t := t <| t_stats_sets := sets |> in
    if encoded_len t <=? MAX_TELEMETRY_ENCODED_SIZE then (t, true) else prune_loop rest t
  end.

Definition prune_if_too_large (t : CallTelemetry) : CallTelemetry * result Z string :=
  let stats_set_count := zlen (t_stats_sets t) in
  match prune_loop (t_stats_sets t) t with
  | (t, true) => (t, Ok (stats_set_count - zlen (t_stats_sets t)))
  | (t, false) =>
    let t := t <| t_group_call_summary := None |> <| t_direct_call_summary := None |> in
    if encoded_len t <=? MAX_TELEMETRY_ENCODED_SIZE then (t, Ok stats_set_count)
    else (t, Err "Telemetry message large after pruning."%string)
  end.

Definition generate_blob_and_description (t : CallTelemetry) : option (list Z) * option string :=
  match prune_if_too_large t with
  | (_, Err _) => (None, None)
  | (t, Ok _) => (Some (encode_to_vec t), to_json t)
  end.

(** ** Summaries *)

Record Summary : Type := mkSummary {
  call_id_hash : option (list Z);
  summary_start_time : Z;
  summary_end_time : Z;
  quality_stats : QualityStats;
  raw_stats : option (list Z);
  raw_stats_text : option string;
  is_survey_candidate : bool;
  call_end_reason : CallEndReason.CallEndReason;
}.

Record DirectCallSummaryInner : Type := mkDirect {
  call_info : CallInfo;
  relayed : bool;
  ice_candidate_switch_count : Z;
  ice_reconnect_count : Z;
  offer_sent_time : option Z;
  answer_sent_time : option Z;
  answer_received_time : option Z;
  ice_connected_time : option Z;
  relayed_time_this_call : Z;
  last_relay_start_time : option Z;
}.

#[global] Instance DirectCallSummaryInner_eta : Eta DirectCallSummaryInner := fun r =>
  mkDirect (call_info r) (relayed r) (ice_candidate_switch_count r) (ice_reconnect_count r) (offer_sent_time r)
    (answer_sent_time r) (answer_received_time r) (ice_connected_time r) (relayed_time_this_call r) (last_relay_start_time r).

(** [DirectCallSummary::default]; the first set is made when something comes. *)
Definition default_direct (now : Z) : DirectCallSummaryInner :=
  mkDirect (default_call_info now <| needs_stats_set := true |>) false 0 0 None None None None 0 None.

Definition new_direct (now time_limit stats_period : Z) : result DirectCallSummaryInner string :=
  match new_stats_sets time_limit stats_period with
  | Err e => Err e
  | Ok sets =>
    Ok (mkDirect (default_call_info now <| info_stats_sets := sets |> <| needs_stats_set := true |>)
          false 0 0 None None None None 0 None)
  end.

Definition direct_update_limits (time_limit stats_period : Z) (s : DirectCallSummaryInner)
  : DirectCallSummaryInner * result unit string :=
  let '(sets, r) := update_limits time_limit stats_period (info_stats_sets (call_info s)) in
  (s <| call_info := call_info s <| info_stats_sets := sets |> |>, r).

Definition set_if_none (now : Z) (o : option Z) : option Z :=
  match o with None => from_system_time now | Some _ => o end.

Definition set_ice_connected_time (now : Z) (s : DirectCallSummaryInner) : DirectCallSummaryInner :=
  s <| ice_connected_time := set_if_none now (ice_connected_time s) |>.

Definition note_cellular (route : NetworkRoute) (c : CallInfo) : CallInfo :=
  if negb (cellular c) && is_cellular (local_adapter_type route) then c <| cellular := true |> else c.

(** The bookkeeping of relayed time; [now] is an [Instant] in nanoseconds. *)
Definition note_route (now : Z) (route : NetworkRoute) (s : DirectCallSummaryInner) : DirectCallSummaryInner :=
  let s := s <| ice_candidate_switch_count := wrap 32 (ice_candidate_switch_count s + 1) |> in
  let relayed_now := local_relayed route || remote_relayed route in
  let s := if negb relayed_now && relayed s then
             match last_relay_start_time s with
             | Some last => s <| relayed_time_this_call := relayed_time_this_call s + Z.max 0 (now - last) |>
             | None => s
             end
           else s in
  let s := if relayed_now && (negb (relayed s) || bool_decide (last_relay_start_time s = None))
           then s <| last_relay_start_time := Some now |> else s in
  let s := s <| relayed := relayed_now |> in
  s <| call_info := note_cellular route (call_info s) |>.

(** The clocks: [sys] is the time of the system, [inst] an [Instant]. *)
Definition process_connection_observer_event (sys inst : Z) (event : ObserverEvent) (s : DirectCallSummaryInner)
  : outcome DirectCallSummaryInner :=
  match event with
  | ConnectionObserverEvent.IceConnected =>
    c ← on_event sys EventIceConnected (call_info s); Val (s <| call_info := c |>)
  | ConnectionObserverEvent.IceDisconnected =>
    c ← on_event sys EventIceDisconnected (call_info s); Val (s <| call_info := c |>)
  | ConnectionObserverEvent.IceNetworkRouteChanged route =>
    c ← on_event sys EventIceNetworkRouteChanged (call_info s);
    Val (note_route inst route (s <| call_info := c |>))
  | ConnectionObserverEvent.StateChanged connection_state =>
    Val (match connection_state with
         | ConnectionState.ConnectedBeforeAccepted => set_ice_connected_time sys s
         | ConnectionState.ConnectedAndAccepted | ConnectionState.ConnectingAfterAccepted =>
           let s := set_ice_connected_time sys s in
           s <| call_info := set_connect_time sys (call_info s) |>
         | ConnectionState.ReconnectingAfterAccepted =>
           s <| ice_reconnect_count := wrap 32 (ice_reconnect_count s + 1) |>
         | _ => s
         end)
  | _ => Val s
  end.

Definition on_call_event (sys inst : Z) (event : CallEvent.CallEvent) (s : DirectCallSummaryInner)
  : outcome DirectCallSummaryInner :=
  match event with
  | CallEvent.ConnectionObserverEvent event _ => process_connection_observer_event sys inst event s
  | CallEvent.SendingOffer => Val (s <| offer_sent_time := set_if_none sys (offer_sent_time s) |>)
  | CallEvent.SendingAnswer => Val (s <| answer_sent_time := set_if_none sys (answer_sent_time s) |>)
  | CallEvent.ReceivedAnswer _ => Val (s <| answer_received_time := set_if_none sys (answer_received_time s) |>)
  | _ => Val s
  end.

Definition direct_on_stats_snapshot_ready (sys : Z) (stats : StatsSnapshot) (s : DirectCallSummaryInner)
  : outcome DirectCallSummaryInner :=
  c ← on_stats_snapshot_ready sys stats (call_info s); Val (s <| call_info := c |>).

(** Whether the summary says that the call was relayed; times are in milliseconds. *)
Definition summary_relayed (relayed_time_ms call_length_ms : Z) : bool :=
  (call_length_ms / MIN_RELAYED_FRACTION <? relayed_time_ms)
  || ((0 <? relayed_time_ms) && (call_length_ms <=? MIN_CALL_TIME_IGNORE_RELAY_FRACTION_MILLIS)).

Definition direct_telemetry (now : Z) (s : DirectCallSummaryInner) : CallTelemetry :=
  let c := call_info s in
  let start_time := default 0 (from_system_time (start_time c)) in
  let end_time := default 0 (from_system_time now) in
  let call_length_ms := u64_sub end_time start_time in
  let relayed_time_ms := relayed_time_this_call s / 1000000 in
  mkTelemetry CALL_TELEMETRY_VERSION start_time (connect_time c ≫= from_system_time) end_time (cellular c)
    (Some (mkDirectProto (stream_summaries_to_proto (stream_summaries c)) (ice_candidate_switch_count s)
             (ice_reconnect_count s) (summary_relayed relayed_time_ms call_length_ms) (offer_sent_time s)
             (answer_sent_time s) (answer_received_time s) (ice_connected_time s)))
    None (stats_sets (info_stats_sets c)).

(** The times that the application is shown. *)
Definition shown_times (connect_time : option Z) (start_time end_time : Z) : Z * Z :=
  match connect_time with
  | Some connect_time => (connect_time, end_time)
  | None => (start_time, start_time)
  end.

Definition direct_build_call_summary (now : Z) (id_hash : option (list Z)) (reason : CallEndReason.CallEndReason)
    (s : DirectCallSummaryInner) : Summary :=
  let t := direct_telemetry now s in
  let '(raw, text) := generate_blob_and_description t in
  let '(start_time, end_time) := shown_times (t_connect_time t) (t_start_time t) (t_end_time t) in
  let candidate := bool_decide (is_Some (connect_time (call_info s)))
                   && negb (bool_decide (reason = CallEndReason.AppDroppedCall))
                   && negb (bool_decide (reason = CallEndReason.RemoteReCall)) in
  mkSummary id_hash start_time end_time (quality_stats_of (quality_stats_sketches (call_info s))) raw text candidate reason.

(** *** Group calls *)

Record GroupCallSummaryInner : Type := mkGroup {
  group_call_info : CallInfo;
  remote_device_count_max : Z;
}.

#[global] Instance GroupCallSummaryInner_eta : Eta GroupCallSummaryInner := fun r =>
  mkGroup (group_call_info r) (remote_device_count_max r).

Definition new_group (now time_limit stats_period : Z) : result GroupCallSummaryInner string :=
  match new_stats_sets time_limit stats_period with
  | Err e => Err e
  | Ok sets => Ok (mkGroup (default_call_info now <| info_stats_sets := sets |> <| needs_stats_set := true |>) 0)
  end.

Definition on_connection_state_changed (now : Z) (state : GroupTypes.ConnectionState) (s : GroupCallSummaryInner)
  : outcome GroupCallSummaryInner :=
  let '(s, event) :=
    match state with
    | GroupTypes.NotConnected => (s, EventGroupCallDisconnected)
    | GroupTypes.Connected =>
      (s <| group_call_info := set_connect_time now (group_call_info s) |>, EventGroupCallConnected)
    | GroupTypes.Reconnecting => (s, EventGroupCallReconnecting)
    | GroupTypes.Connecting => (s, EventGroupCallConnecting)
    end in
  c ← on_event now event (group_call_info s); Val (s <| group_call_info := c |>).

Definition group_on_ice_network_route_changed (route : NetworkRoute) (s : GroupCallSummaryInner) : GroupCallSummaryInner :=
  s <| group_call_info := note_cellular route (group_call_info s) |>.

Definition group_on_stats_snapshot_ready (now : Z) (stats : StatsSnapshot) (s : GroupCallSummaryInner)
  : outcome GroupCallSummaryInner :=
  c ← on_stats_snapshot_ready now stats (group_call_info s); Val (s <| group_call_info := c |>).

Definition on_remote_devices_changed (device_count : Z) (s : GroupCallSummaryInner) : GroupCallSummaryInner :=
  if remote_device_count_max s <? device_count then s <| remote_device_count_max := device_count |> else s.

Definition group_telemetry (now : Z) (s : GroupCallSummaryInner) : CallTelemetry :=
  let c := group_call_info s in
  mkTelemetry CALL_TELEMETRY_VERSION (default 0 (from_system_time (start_time c))) (connect_time c ≫= from_system_time)
    (default 0 (from_system_time now)) (cellular c) None (Some (stream_summaries_to_proto (stream_summaries c)))
    (stats_sets (info_stats_sets c)).

Definition group_build_call_summary (now : Z) (reason : CallEndReason.CallEndReason) (s : GroupCallSummaryInner) : Summary :=
  let t := group_telemetry now s in
  let '(raw, text) := generate_blob_and_description t in
  let '(start_time, end_time) := shown_times (t_connect_time t) (t_start_time t) (t_end_time t) in
  let candidate := bool_decide (is_Some raw) && bool_decide (is_Some (connect_time (group_call_info s)))
                   && (0 <? remote_device_count_max s) in
  mkSummary None start_time end_time (quality_stats_of (quality_stats_sketches (group_call_info s))) raw text candidate reason.

End Telemetry.
End Summary.
End CallSummary.
