(* ===== verification/SummaryLimits.v ===== *)
(** * What the call summary promises

    Collecting does not panic and keeps its limits, whatever comes and whenever the limits
    change; the telemetry is pruned to its greatest size; the relayed time is counted; and two
    places where the summary says less than it should. *)

From S2P Require Import Prelude States Signaling ConnectionTypes Connection Call GroupTypes StatsObserver CallSummary.
From stdpp Require Import strings sorting.
Local Open Scope Z_scope.
Local Open Scope ringrtc_scope.

Module SummaryLimits.
Import StatsObserver CallSummary.

Section Limits.
Context `{Floats}.

(** ** Any use of a summary *)

(** [sys] is the time of the system, [inst] an [Instant]. *)
Inductive Op : Type :=
| OpCallEvent (sys inst : Z) (event : CallEvent.CallEvent)
| OpSnapshot (sys : Z) (stats : StatsSnapshot)
| OpUpdateLimits (time_limit stats_period : Z).

Definition step (op : Op) (s : DirectCallSummaryInner) : outcome DirectCallSummaryInner :=
  match op with
  | OpCallEvent sys inst event => on_call_event sys inst event s
  | OpSnapshot sys stats => direct_on_stats_snapshot_ready sys stats s
  | OpUpdateLimits time_limit stats_period => Val (direct_update_limits time_limit stats_period s).1
  end.

Fixpoint run (ops : list Op) (s : DirectCallSummaryInner) : outcome DirectCallSummaryInner :=
  match ops with
  | [] => Val s
  | op :: ops => s ← step op s; run ops s
  end.

(** Limits that a [Duration] in seconds can give. *)
Definition op_ok (op : Op) : Prop :=
  match op with
  | OpUpdateLimits time_limit stats_period => 0 <= time_limit < 2 ^ 64 /\ 0 <= stats_period
  | _ => True
  end.

(** ** Which sets there are

    The times of the sets that are kept, and those of the sets that were made. *)

Definition times (s : StatsSets) : list (option Z) := timestamp <$> stats_sets s.

Definition made_if_needed (now : Z) (c : CallInfo) : list (option Z) :=
  if needs_stats_set c then [from_system_time now] else [].

Definition made (op : Op) (s : DirectCallSummaryInner) : list (option Z) :=
  match op with
  | OpSnapshot sys _ => made_if_needed sys (call_info s)
  | OpCallEvent sys _ (CallEvent.ConnectionObserverEvent event _) =>
    match event with
    | ConnectionObserverEvent.IceConnected | ConnectionObserverEvent.IceDisconnected
    | ConnectionObserverEvent.IceNetworkRouteChanged _ => made_if_needed sys (call_info s)
    | _ => []
    end
  | _ => []
  end.

Fixpoint all_made (ops : list Op) (s : DirectCallSummaryInner) : list (option Z) :=
  match ops with
  | [] => []
  | op :: ops => made op s ++ match step op s with Val s => all_made ops s | Panic => [] end
  end.

(** ** Limits *)

Record sets_ok (needs : bool) (s : StatsSets) : Prop := {
  ok_max : 1 <= max_stats_sets s;
  ok_len : zlen (stats_sets s) <= max_stats_sets s;
  ok_last : needs = true \/ stats_sets s <> [];
}.

Record streams_ok (s : StreamSummaries) : Prop := {
  ok_ar : Z.of_nat (size (audio_recv_stream_summaries s)) <= 501;
  ok_as : Z.of_nat (size (audio_send_stream_summaries s)) <= 501;
  ok_vr : Z.of_nat (size (video_recv_stream_summaries s)) <= 501;
  ok_vs : Z.of_nat (size (video_send_stream_summaries s)) <= 501;
}.

Record info_ok (c : CallInfo) : Prop := {
  ok_sets : sets_ok (needs_stats_set c) (info_stats_sets c);
  ok_streams : streams_ok (stream_summaries c);
}.

Lemma size_insert_le {A} (m : gmap Z A) k x : (size (<[k := x]> m) <= S (size m))%nat.
Proof.
  destruct (m !! k) eqn:E; [rewrite map_size_insert_Some by done|rewrite map_size_insert_None by done]; lia.
Qed.

Lemma update_stream_summary_size ssrc f m : Z.of_nat (size m) <= 501 ->
  Z.of_nat (size (update_stream_summary ssrc f m)) <= 501.
Proof.
  intros Hm. unfold update_stream_summary, MAX_STREAM_SUMMARIES. destruct (Z.leb_spec (Z.of_nat (size m)) 500).
  - pose proof (size_insert_le m ssrc (f (default default_stream_summary (m !! ssrc)))). lia.
  - destruct (m !! ssrc) as [y|] eqn:E; [|done]. rewrite map_size_insert_Some by done. done.
Qed.

Lemma calculate_max_ok time_limit stats_period max :
  0 <= time_limit < 2 ^ 64 -> 0 <= stats_period ->
  calculate_max_stats_sets time_limit stats_period = Ok max -> 1 <= max.
Proof.
  unfold calculate_max_stats_sets. intros Ht Hp.
  destruct (Z.eqb_spec time_limit 0), (Z.eqb_spec stats_period 0); cbn [orb]; try discriminate.
  destruct (Z.leb_spec time_limit stats_period); [discriminate|]. intros [= <-].
  assert (1 <= time_limit / stats_period) by (apply Z.div_le_lower_bound; lia).
  assert (time_limit / stats_period <= time_limit) by (apply Z.div_le_upper_bound; nia).
  rewrite wrap_small; lia.
Qed.

Lemma establish_ok now needs s : sets_ok needs s -> sets_ok false (establish_current_stats_set now s).
Proof.
  intros [Hm Hl _]. unfold establish_current_stats_set. split; cbn; [done| |right; by destruct (_ =? _), (stats_sets s) as [|? []]].
  rewrite zlen_app, zlen_cons, zlen_nil. destruct (Z.eqb_spec (zlen (stats_sets s)) (max_stats_sets s)) as [E|E]; [|lia].
  destruct (stats_sets s) as [|x l]; [rewrite zlen_nil in E; lia|]. rewrite zlen_cons in E. cbn [tail]. lia.
Qed.

Lemma establish_info_ok now c : info_ok c ->
  info_ok (establish_if_needed now c) /\ needs_stats_set (establish_if_needed now c) = false /\
  times (info_stats_sets (establish_if_needed now c)) `suffix_of` times (info_stats_sets c) ++ made_if_needed now c.
Proof.
  intros [Hs Hst]. unfold establish_if_needed, made_if_needed. destruct (needs_stats_set c) eqn:E.
  - split_and!; [split; cbn; [by eapply establish_ok|done]|done|]. unfold times, establish_current_stats_set. cbn.
    rewrite fmap_app. apply suffix_app. destruct (_ =? _); [|reflexivity].
    destruct (stats_sets _); [reflexivity|]. apply suffix_cons_r. reflexivity.
  - rewrite app_nil_r. split_and!; [split; by rewrite ?E|done|reflexivity].
Qed.

Lemma modify_last_ok {A B} (g : A -> B) (f : A -> A) l : (forall x, g (f x) = g x) -> l <> [] ->
  exists l', modify_last f l = Val l' /\ length l' = length l /\ l' <> [] /\ (g <$> l') = (g <$> l).
Proof.
  intros Hg. induction l as [|x l IH]; [done|]. intros _.
  destruct l as [|y l]; [exists [f x]; split_and!; try done; cbn; by rewrite Hg|].
  destruct IH as (l' & Hl & Hn & _ & Hgl); [done|].
  exists (x :: l'). split_and!; [|cbn in *; lia|done|by rewrite !fmap_cons, Hgl].
  change (modify_last f (x :: y :: l)) with (l' ← modify_last f (y :: l); Val (x :: l')). by rewrite Hl.
Qed.

(** What is added to a set does not change its time. *)
Definition keeps_time (f : StatsSet -> StatsSet) : Prop := forall set, timestamp (f set) = timestamp set.

Lemma on_last_ok f s : keeps_time f -> sets_ok false s ->
  exists s', on_last f s = Val s' /\ sets_ok false s' /\ times s' = times s.
Proof.
  intros Hf [Hm Hl [|Hne]]; [done|]. destruct (modify_last_ok timestamp f (stats_sets s) Hf Hne) as (l' & Hx & Hn & Hne' & Ht).
  unfold on_last. rewrite Hx. eexists. split; [reflexivity|]. split; [|done]. split; cbn; [done| |by right]. unfold zlen in *. lia.
Qed.

Lemma with_sets_ok f c : keeps_time f -> info_ok c -> needs_stats_set c = false ->
  exists c', with_sets (on_last f) c = Val c' /\ info_ok c' /\ needs_stats_set c' = false /\
    times (info_stats_sets c') = times (info_stats_sets c).
Proof.
  intros Hf [Hs Hst] Hn. rewrite Hn in Hs. destruct (on_last_ok f _ Hf Hs) as (s' & Hx & Hs' & Ht).
  unfold with_sets. rewrite Hx. eexists. split; [reflexivity|]. split_and!; [|done|done]. split; cbn; [by rewrite Hn|done].
Qed.

(** The sets afterwards are the newest ones. *)
Definition newest (now : Z) (c c' : CallInfo) : Prop :=
  times (info_stats_sets c') `suffix_of` times (info_stats_sets c) ++ made_if_needed now c.

Lemma on_event_ok now event c : info_ok c -> exists c', on_event now event c = Val c' /\ info_ok c' /\ newest now c c'.
Proof.
  intros Hc. destruct (establish_info_ok now c Hc) as (Hi & Hn & Ht).
  assert (Hf : keeps_time (fun set => set <| events := events set ++ [event] |>)) by done.
  destruct (with_sets_ok _ _ Hf Hi Hn) as (c' & Hx & Hok & _ & Ht').
  exists c'. split_and!; [exact Hx|done|]. unfold newest. by rewrite Ht'.
Qed.

Lemma set_relayed_ok b s : sets_ok false s -> sets_ok false (set_relayed b s) /\ times (set_relayed b s) = times s.
Proof.
  intros Hs. unfold set_relayed.
  assert (Hf : keeps_time (fun set => set <| set_relayed_field := Some b |>)) by done.
  destruct (on_last_ok _ s Hf Hs) as (s' & -> & ?). done.
Qed.

Lemma streams_update_ok (c : CallInfo) (f : StreamSummaries -> StreamSummaries) :
  (forall s, streams_ok s -> streams_ok (f s)) -> info_ok c -> info_ok (on_streams f c).
Proof. intros Hf [Hs Hst]. split; [done|]. by apply Hf. Qed.

Lemma sketches_ok (c : CallInfo) q : info_ok c -> info_ok (c <| quality_stats_sketches := q |>).
Proof. intros [Hs Hst]. by split. Qed.

Ltac solve_streams := intros ? [? ? ? ?]; split; cbn; auto using update_stream_summary_size.

Lemma on_stats_snapshot_ready_ok now stats c : info_ok c ->
  exists c', on_stats_snapshot_ready now stats c = Val c' /\ info_ok c' /\ newest now c c'.
Proof.
  intros Hc. destruct (establish_info_ok now c Hc) as (Hi & Hn & Ht). unfold on_stats_snapshot_ready.
  set (c1 := establish_if_needed now c) in *.
  assert (Hpush : forall f c2, keeps_time f -> info_ok c2 -> needs_stats_set c2 = false ->
    info_stats_sets c2 = info_stats_sets c1 ->
    exists c', with_sets (on_last f) c2 = Val c' /\ info_ok c' /\ newest now c c').
  { intros f c2 Hf H2 Hn2 Hs2. destruct (with_sets_ok f c2 Hf H2 Hn2) as (c' & ? & ? & _ & Ht').
    exists c'. split_and!; [done|done|]. unfold newest. by rewrite Ht', Hs2. }
  destruct stats as [| |x|x|x|x|x|cpu].
  - by exists c1.
  - eexists. split; [reflexivity|]. split; [|done]. destruct Hi as [[? ? ?] ?]. split; [|done]. split; cbn; [done|done|by left].
  - apply Hpush; [by intros ?| |done|done]. apply streams_update_ok; [solve_streams|]. by apply sketches_ok.
  - apply Hpush; [by intros ?| |done|done]. apply streams_update_ok; [solve_streams|]. by apply sketches_ok.
  - apply Hpush; [by intros ?| |done|done]. apply streams_update_ok; [solve_streams|]. by apply sketches_ok.
  - apply Hpush; [by intros ?| |done|done]. apply streams_update_ok; [solve_streams|]. by apply sketches_ok.
  - set (c2 := c1 <| quality_stats_sketches := _ |>).
    destruct (with_sets_ok (fun set => set <| rtt_stun := rtt_stun set ++ [f32_of_f64 (cn_current_round_trip_time x)] |>) c2) as (c3 & Hx & [Hs3 Hst3] & Hn3 & Ht3);
      [by intros ?|by apply sketches_ok|done|].
    unfold push_stun_rtt. rewrite Hx. eexists. split; [reflexivity|]. rewrite Hn3 in Hs3.
    match goal with |- context [set_relayed ?b _] => destruct (set_relayed_ok b _ Hs3) as [Hrel Htr] end. split.
    + split; cbn; [by rewrite Hn3|done].
    + unfold newest. cbn. rewrite Htr, Ht3. done.
  - by exists c1.
Qed.

Lemma update_limits_ok time_limit stats_period needs s :
  0 <= time_limit < 2 ^ 64 -> 0 <= stats_period -> sets_ok needs s ->
  sets_ok needs (update_limits time_limit stats_period s).1 /\
  times (update_limits time_limit stats_period s).1 `suffix_of` times s.
Proof.
  intros Ht Hp [Hm Hl Hlast]. unfold update_limits.
  destruct (calculate_max_stats_sets time_limit stats_period) as [max|] eqn:E; [|by split; [split|]].
  apply calculate_max_ok in E; [|done|done]. destruct (Z.ltb_spec max (zlen (stats_sets s))) as [Hlt|Hge]; cbn.
  - set (rot := rotate_left (zlen (stats_sets s) - max) (stats_sets s)).
    assert (Hr : length rot = length (stats_sets s)).
    { unfold rot, rotate_left. rewrite length_app, length_drop, length_take. lia. }
    assert (Hlen : length (take (Z.to_nat max) rot) = Z.to_nat max).
    { rewrite length_take, Hr. unfold zlen in Hlt. lia. }
    split.
    + split; cbn; [done|unfold zlen; lia|]. right. intros En. rewrite En in Hlen. cbn in Hlen. lia.
    + unfold times. cbn. unfold rot, rotate_left. rewrite take_app_le, take_ge.
      * rewrite fmap_drop. apply suffix_drop.
      * rewrite length_drop. unfold zlen in *. lia.
      * rewrite length_drop. unfold zlen in *. lia.
  - split; [|reflexivity]. split; cbn; [done|done|]. tauto.
Qed.

Lemma set_connect_time_ok now c : info_ok c ->
  info_ok (set_connect_time now c) /\ info_stats_sets (set_connect_time now c) = info_stats_sets c.
Proof. intros [Hs Hst]. unfold set_connect_time. by destruct (connect_time c). Qed.

Definition all_times (s : DirectCallSummaryInner) : list (option Z) := times (info_stats_sets (call_info s)).

Lemma step_ok op s : op_ok op -> info_ok (call_info s) ->
  exists s', step op s = Val s' /\ info_ok (call_info s') /\ all_times s' `suffix_of` all_times s ++ made op s.
Proof.
  intros Hop Hs. assert (Hev : forall now event f,
    (forall c, info_ok c -> info_ok (call_info (f c)) /\ info_stats_sets (call_info (f c)) = info_stats_sets c) ->
    exists s', (c ← on_event now event (call_info s); Val (f c)) = Val s' /\ info_ok (call_info s') /\
      all_times s' `suffix_of` all_times s ++ made_if_needed now (call_info s)).
  { intros now event f Hf. destruct (on_event_ok now event _ Hs) as (c & -> & Hc & Hnew). destruct (Hf c Hc) as [Hok Hsets].
    eexists. split; [reflexivity|]. split; [done|]. unfold all_times. by rewrite Hsets. }
  assert (Hsame : forall s', info_ok (call_info s') -> info_stats_sets (call_info s') = info_stats_sets (call_info s) ->
    info_ok (call_info s') /\ all_times s' `suffix_of` all_times s ++ []).
  { intros s' Hok Hsets. split; [done|]. unfold all_times. rewrite Hsets, app_nil_r. reflexivity. }
  destruct op as [sys inst event|sys stats|tl sp].
  - destruct event; cbn [step on_call_event made]; try (eexists; split; [reflexivity|]; by apply Hsame).
    destruct event; cbn [process_connection_observer_event]; try (eexists; split; [reflexivity|]; by apply Hsame).
    + eexists. split; [reflexivity|]. destruct (set_connect_time_ok sys _ Hs).
      destruct state; (apply Hsame; [|done]); done.
    + apply Hev. intros c Hc. unfold note_route, note_cellular. cbn.
      repeat case_match; cbn in *; (split; [|done]); try exact Hc; destruct Hc as [[? ? ?] [? ? ? ?]]; split; done.
    + by apply Hev.
    + by apply Hev.
  - cbn. unfold direct_on_stats_snapshot_ready. destruct (on_stats_snapshot_ready_ok sys stats _ Hs) as (c & -> & Hc & Hnew).
    by eexists.
  - eexists. split; [reflexivity|]. destruct Hop as [Htl Hsp], Hs as [Hs Hst]. unfold direct_update_limits, all_times.
    destruct (update_limits_ok tl sp _ _ Htl Hsp Hs) as [Hok Hsuf]. destruct (update_limits tl sp _) as [sets r].
    cbn [made]. rewrite app_nil_r. split; [|done]. by split.
Qed.

Lemma run_ok ops : Forall op_ok ops -> forall s, info_ok (call_info s) ->
  exists s', run ops s = Val s' /\ info_ok (call_info s') /\ all_times s' `suffix_of` all_times s ++ all_made ops s.
Proof.
  induction 1 as [|op ops Hop _ IH]; intros s Hs; cbn; [exists s; split_and!; [done|done|rewrite app_nil_r; reflexivity]|].
  destruct (step_ok op s Hop Hs) as (s1 & Hst & Hs1 & Hsuf). rewrite Hst.
  destruct (IH s1 Hs1) as (s2 & Hr & Hs2 & Hsuf2). exists s2. split_and!; [done|done|].
  etrans; [exact Hsuf2|]. rewrite app_assoc. by apply suffix_app.
Qed.

(** C27. Collecting data for the summary of a direct call never panics and keeps its limits:
    from the start of the call, whatever events and statistics come in whatever order, and
    whenever the limits are changed, there is a stats set to add to, there are not more
    than the limit in force, the ones that are kept are the newest ones that were made, and
    there are not more than 501 summaries of streams of a kind. *)
Theorem collecting_is_safe now ops : Forall op_ok ops ->
  exists s, run ops (default_direct now) = Val s /\
    zlen (stats_sets (info_stats_sets (call_info s))) <= max_stats_sets (info_stats_sets (call_info s)) /\
    all_times s `suffix_of` all_made ops (default_direct now) /\
    streams_ok (stream_summaries (call_info s)).
Proof.
  intros Hops. destruct (run_ok ops Hops (default_direct now)) as (s & Hr & [[_ Hl _] Hst] & Hsuf); [|by exists s].
  split; split; cbn; try done. by left.
Qed.

(** ** Pruning *)

Section Pruning.
Context (encoded_len : CallTelemetry -> Z).

(** The telemetry without its [n] oldest sets, and without its summaries. *)
Definition without_oldest (n : Z) (t : CallTelemetry) : CallTelemetry :=
  t <| t_stats_sets := drop (Z.to_nat n) (t_stats_sets t) |>.
Definition without_summaries (t : CallTelemetry) : CallTelemetry :=
  t <| t_stats_sets := [] |> <| t_group_call_summary := None |> <| t_direct_call_summary := None |>.

Definition fits (t : CallTelemetry) : Prop := encoded_len t <= MAX_TELEMETRY_ENCODED_SIZE.

(** No number of oldest sets less than [n] is enough. *)
Definition needed (n : Z) (t : CallTelemetry) : Prop := forall k, 0 <= k < n -> ~ fits (without_oldest k t).

Lemma prune_loop_spec sets t :
  match prune_loop encoded_len sets t with
  | (t', true) => exists n, 0 <= n < zlen sets /\ t' = t <| t_stats_sets := drop (Z.to_nat n) sets |> /\ fits t' /\
      needed n (t <| t_stats_sets := sets |>)
  | (t', false) => t' = t <| t_stats_sets := [] |> /\ needed (zlen sets) (t <| t_stats_sets := sets |>)
  end.
Proof.
  revert t. induction sets as [|x sets IH]; intros t; cbn [prune_loop].
  { split; [done|]. intros k Hk. change (0 <= k < 0) in Hk. lia. }
  pose proof (zlen_nonneg sets). rewrite zlen_cons.
  destruct (Z.leb_spec (encoded_len (t <| t_stats_sets := x :: sets |>)) MAX_TELEMETRY_ENCODED_SIZE) as [Hle|Hgt].
  { exists 0. split_and!; [lia..|done|done|]. intros k Hk. lia. }
  assert (Hneed : forall n, needed n (t <| t_stats_sets := sets |>) -> needed (n + 1) (t <| t_stats_sets := x :: sets |>)).
  { intros n Hn k Hk. destruct (decide (k = 0)) as [->|Hk0]; [exact (proj1 (Z.lt_nge _ _) Hgt)|].
    specialize (Hn (k - 1) ltac:(lia)). unfold without_oldest in *. cbn in *.
    replace (Z.to_nat k) with (S (Z.to_nat (k - 1))) by lia. exact Hn. }
  specialize (IH (t <| t_stats_sets := x :: sets |>)).
  destruct (prune_loop encoded_len sets (t <| t_stats_sets := x :: sets |>)) as [t' []].
  - destruct IH as (n & Hn & -> & Hfit & Hmin). exists (n + 1). split_and!; [lia..| |done|by apply Hneed].
    cbn. replace (Z.to_nat (n + 1)) with (S (Z.to_nat n)) by lia. done.
  - destruct IH as [-> Hmin]. split; [done|]. replace (1 + zlen sets) with (zlen sets + 1) by lia. by apply Hneed.
Qed.

(** C28. Pruning keeps the telemetry within its greatest size and removes no more than it
    must: it ends with [Ok n] after the [n] oldest stats sets were removed, with no fewer
    being enough; as long as a set is left, everything else is kept, and otherwise the
    summaries are removed too.  It fails only if that is still too large. *)
Theorem pruning_keeps_the_limit t :
  match prune_if_too_large encoded_len t with
  | (t', Ok n) => fits t' /\ 0 <= n <= zlen (t_stats_sets t) /\ needed n t /\
      (n < zlen (t_stats_sets t) -> t' = without_oldest n t) /\
      (n = zlen (t_stats_sets t) -> t' = without_summaries t)
  | (t', Err _) => needed (zlen (t_stats_sets t)) t /\ t' = without_summaries t /\ ~ fits t'
  end.
Proof.
  unfold prune_if_too_large. pose proof (prune_loop_spec (t_stats_sets t) t) as Hspec.
  assert (Eta : t <| t_stats_sets := t_stats_sets t |> = t) by (by destruct t). rewrite Eta in Hspec.
  destruct (prune_loop encoded_len (t_stats_sets t) t) as [t' []].
  - destruct Hspec as (n & Hn & -> & Hfit & Hmin). cbn.
    assert (E : zlen (t_stats_sets t) - zlen (drop (Z.to_nat n) (t_stats_sets t)) = n).
    { unfold zlen in *. rewrite length_drop. lia. }
    rewrite E. split_and!; [done|lia|lia|done|done|lia].
  - destruct Hspec as [-> Hmin]. pose proof (zlen_nonneg (t_stats_sets t)). fold (without_summaries t).
    change (t <| t_stats_sets := [] |> <| t_group_call_summary := None |> <| t_direct_call_summary := None |>)
      with (without_summaries t).
    destruct (Z.leb_spec (encoded_len (without_summaries t)) MAX_TELEMETRY_ENCODED_SIZE).
    + split_and!; [done|lia|lia|done|lia|done].
    + split_and!; [done|done|unfold fits; lia].
Qed.

(** A call without stats sets loses its summary: if no event of the network and no
    statistics came, as for a call that was never answered, the telemetry has no summary of
    the call, also if it is well within the limit. *)
Theorem summary_without_sets_is_dropped t : t_stats_sets t = [] ->
  (prune_if_too_large encoded_len t).1 = without_summaries t.
Proof.
  intros E. unfold prune_if_too_large. rewrite E. cbn [prune_loop]. by destruct (_ <=? _).
Qed.

End Pruning.

(** ** The time that a call was relayed *)

(** The changes of the route: when, and whether it is relayed from then on. *)
Definition route_of (op : Op) : list (Z * bool) :=
  match op with
  | OpCallEvent _ inst (CallEvent.ConnectionObserverEvent (ConnectionObserverEvent.IceNetworkRouteChanged route) _) =>
    [(inst, local_relayed route || remote_relayed route)]
  | _ => []
  end.

(** The time that was relayed between the first and the last of them. *)
Fixpoint relayed_between (l : list (Z * bool)) : Z :=
  match l with
  | (t, b) :: ((t', _) :: _) as rest => (if b then t' - t else 0) + relayed_between rest
  | _ => 0
  end.

Record relay_state : Type := mkRelay { r_relayed : bool; r_start : option Z; r_time : Z }.

Definition relay_of (s : DirectCallSummaryInner) : relay_state :=
  mkRelay (relayed s) (last_relay_start_time s) (relayed_time_this_call s).

Definition relay_step (st : relay_state) (change : Z * bool) : relay_state :=
  let '(now, b) := change in
  mkRelay b
    (if b && (negb (r_relayed st) || bool_decide (r_start st = None)) then Some now else r_start st)
    (if negb b && r_relayed st then
       match r_start st with Some last => r_time st + Z.max 0 (now - last) | None => r_time st end
     else r_time st).

Lemma step_relay op s s' : step op s = Val s' -> relay_of s' = foldl relay_step (relay_of s) (route_of op).
Proof.
  destruct op as [sys inst event|sys stats|tl sp]; cbn [step route_of].
  - destruct event; cbn [on_call_event]; try (intros [= <-]; reflexivity).
    destruct event as [state|?|?|route| | |? ?|?]; cbn [process_connection_observer_event];
      try (intros [= <-]; reflexivity); [intros [= <-]; by destruct state| | |].
    all: destruct (on_event _ _ _) as [c|]; cbn; try discriminate; intros [= <-]; try reflexivity.
    unfold note_route, relay_of, relay_step. cbn.
    destruct (relayed s) eqn:Er, (local_relayed route || remote_relayed route) eqn:Eb, (last_relay_start_time s) eqn:El;
      cbn; rewrite ?Er, ?El; cbn; rewrite ?El; reflexivity.
  - unfold direct_on_stats_snapshot_ready. destruct (on_stats_snapshot_ready _ _ _); cbn; [|discriminate].
    intros [= <-]. reflexivity.
  - intros [= <-]. unfold direct_update_limits. by destruct (update_limits _ _ _).
Qed.

Lemma run_relay ops s s' : run ops s = Val s' -> relay_of s' = foldl relay_step (relay_of s) (ops ≫= route_of).
Proof.
  revert s. induction ops as [|op ops IH]; intros s; cbn [run]; [by intros [= <-]|].
  destruct (step op s) as [s1|] eqn:E; cbn; [|discriminate]. intros Hr.
  rewrite foldl_app, <-(step_relay op s s1 E). by apply IH.
Qed.

(** The changes come in the order of their times. *)
Definition in_order (l : list (Z * bool)) : Prop := StronglySorted Z.le (fst <$> l).

(** The period that has not ended at the last of the changes. *)
Definition open_period (st : relay_state) (l : list (Z * bool)) : Z :=
  match last l with
  | Some (t, true) => t - default 0 (r_start st)
  | _ => 0
  end.

(** The state after the changes [l]. *)
Definition relay_ok (l : list (Z * bool)) (st : relay_state) : Prop :=
  r_relayed st = match last l with Some (_, b) => b | None => false end /\
  (forall t, last l = Some (t, true) -> exists start, r_start st = Some start /\ start <= t) /\
  r_time st + open_period st l = relayed_between l.

Lemma relayed_between_snoc l t b t' b' :
  relayed_between (l ++ [(t, b); (t', b')]) = relayed_between (l ++ [(t, b)]) + (if b then t' - t else 0).
Proof.
  induction l as [|[u c] l IH]; cbn [app relayed_between]; [destruct b; lia|].
  destruct l as [|[v d] l]; cbn [app relayed_between] in *; [destruct b, c; lia|]. lia.
Qed.

Lemma relay_step_ok l t b st : in_order (l ++ [(t, b)]) -> relay_ok l st -> relay_ok (l ++ [(t, b)]) (relay_step st (t, b)).
Proof.
  intros Hord (Hrel & Hstart & Hsum). unfold relay_ok, open_period in *. rewrite last_snoc. cbn [relay_step r_relayed r_start r_time].
  destruct (last l) as [[t0 b0]|] eqn:El.
  - apply last_Some in El as [l0 ->]. rewrite <-app_assoc in *. cbn [app] in *. rewrite relayed_between_snoc.
    assert (t0 <= t).
    { unfold in_order in Hord. rewrite fmap_app in Hord. apply StronglySorted_app_1_r in Hord. cbn in Hord.
      inversion Hord as [|? ? _ Hall]; subst. by inversion Hall. }
    destruct b0.
    + destruct (Hstart t0 eq_refl) as (start & Es & Hle). rewrite Hrel, Es in *. cbn in *.
      destruct b; cbn; split_and!; try done; try (intros ? [= <-]; eexists; split; [done|lia]); lia.
    + rewrite Hrel. cbn. destruct b; cbn; split_and!; try done; try (intros ? [= <-]; eexists; split; [done|lia]); lia.
  - apply last_None in El as ->. cbn in *. rewrite Hrel. cbn.
    destruct b; cbn; split_and!; try done; try (intros ? [= <-]; eexists; split; [done|lia]); lia.
Qed.

Lemma relay_steps_ok l st : in_order l -> relay_ok [] st -> relay_ok l (foldl relay_step st l).
Proof.
  intros Hord Hst. induction l as [|[t b] l IH] using rev_ind; [done|]. rewrite foldl_app. apply relay_step_ok; [done|].
  apply IH. unfold in_order in *. rewrite fmap_app in Hord. by apply StronglySorted_app_1_l in Hord.
Qed.

(** The relayed time of a call is the time that it was relayed, but for the period
    that has not ended: whatever else comes in between, what is counted and the time since
    the last switch to a relay add up to the time that was relayed between the first and
    the last change of the route. *)
Theorem relayed_time_is_counted_at_the_end_of_a_period now ops s :
  run ops (default_direct now) = Val s -> in_order (ops ≫= route_of) ->
  relayed_time_this_call s + open_period (relay_of s) (ops ≫= route_of) = relayed_between (ops ≫= route_of).
Proof.
  intros Hr Hord. pose proof (run_relay _ _ _ Hr) as E.
  destruct (relay_steps_ok _ (relay_of (default_direct now)) Hord) as (_ & _ & Hsum); [split_and!; done|].
  rewrite <-E in Hsum. exact Hsum.
Qed.

(** No change of the route leaves the relay. *)
Lemma all_relayed_time l st : Forall (fun change => snd change = true) l -> r_time (foldl relay_step st l) = r_time st.
Proof.
  intros Hall. revert st. induction Hall as [|[t b] l Hb _ IH]; intros st; [done|]. cbn in Hb. subst b.
  cbn [foldl]. rewrite IH. reflexivity.
Qed.

(** A call that is relayed from its first route to its end is not reported as relayed:
    the last period is never counted, as only a switch away from the relay counts one. *)
Theorem relay_until_the_end_is_not_reported now now_end ops s :
  run ops (default_direct now) = Val s -> Forall (fun change => snd change = true) (ops ≫= route_of) ->
  dc_relayed <$> t_direct_call_summary (direct_telemetry now_end s) = Some false.
Proof.
  intros Hr Hall. pose proof (run_relay _ _ _ Hr) as E. apply (f_equal r_time) in E.
  rewrite all_relayed_time in E by done. change (relayed_time_this_call s = 0) in E.
  unfold direct_telemetry. cbn [t_direct_call_summary fmap option_fmap option_map dc_relayed]. rewrite E. f_equal.
  unfold summary_relayed. set (len := u64_sub _ _). assert (0 <= len).
  { unfold len, u64_sub, wrap. apply Z.mod_pos_bound. lia. }
  change (0 / 1000000) with 0. assert (0 <= len / MIN_RELAYED_FRACTION) by (apply Z.div_pos; [done|vm_compute; reflexivity]).
  destruct (Z.ltb_spec (len / MIN_RELAYED_FRACTION) 0); [lia|]. reflexivity.
Qed.

(** ** Group calls *)

Inductive GroupOp : Type :=
| GroupConnection (sys : Z) (state : GroupTypes.ConnectionState)
| GroupRoute (route : NetworkRoute)
| GroupSnapshot (sys : Z) (stats : StatsSnapshot)
| GroupDevices (device_count : Z).

Definition group_step (op : GroupOp) (s : GroupCallSummaryInner) : outcome GroupCallSummaryInner :=
  match op with
  | GroupConnection sys state => on_connection_state_changed sys state s
  | GroupRoute route => Val (group_on_ice_network_route_changed route s)
  | GroupSnapshot sys stats => group_on_stats_snapshot_ready sys stats s
  | GroupDevices n => Val (on_remote_devices_changed n s)
  end.

Fixpoint group_run (ops : list GroupOp) (s : GroupCallSummaryInner) : outcome GroupCallSummaryInner :=
  match ops with
  | [] => Val s
  | op :: ops => s ← group_step op s; group_run ops s
  end.

Lemma group_step_ok op s : info_ok (group_call_info s) ->
  exists s', group_step op s = Val s' /\ info_ok (group_call_info s').
Proof.
  intros Hs. destruct op as [sys state|route|sys stats|n]; cbn [group_step].
  - unfold on_connection_state_changed.
    destruct (set_connect_time_ok sys _ Hs) as [Hconn _].
    destruct state; cbn; [destruct (on_event_ok sys EventGroupCallDisconnected _ Hs) as (c & -> & Hc & _)
      |destruct (on_event_ok sys EventGroupCallConnecting _ Hs) as (c & -> & Hc & _)
      |destruct (on_event_ok sys EventGroupCallConnected _ Hconn) as (c & -> & Hc & _)
      |destruct (on_event_ok sys EventGroupCallReconnecting _ Hs) as (c & -> & Hc & _)]; by eexists.
  - eexists. split; [reflexivity|]. cbn. unfold note_cellular. destruct (_ && _); [|done]. destruct Hs as [? ?]. by split.
  - unfold group_on_stats_snapshot_ready. destruct (on_stats_snapshot_ready_ok sys stats _ Hs) as (c & -> & Hc & _). by eexists.
  - eexists. split; [reflexivity|]. unfold on_remote_devices_changed. by destruct (_ <? _).
Qed.

(** The same for a group call, whose limits are fixed when it starts. *)
Theorem group_collecting_is_safe now time_limit stats_period s ops :
  0 <= time_limit < 2 ^ 64 -> 0 <= stats_period -> new_group now time_limit stats_period = Ok s ->
  exists s', group_run ops s = Val s' /\ info_ok (group_call_info s').
Proof.
  intros Ht Hp Hnew. assert (Hs : info_ok (group_call_info s)).
  { revert Hnew. unfold new_group, new_stats_sets.
    destruct (calculate_max_stats_sets time_limit stats_period) as [max|] eqn:E; [|discriminate]. intros [= <-].
    apply calculate_max_ok in E; [|done|done]. split; split; cbn; try done; [|by left]. change (0 <= max). lia. }
  clear Hnew. revert s Hs. induction ops as [|op ops IH]; intros s Hs; cbn [group_run]; [by exists s|].
  destruct (group_step_ok op s Hs) as (s1 & -> & Hs1). apply IH. exact Hs1.
Qed.

End Limits.
End SummaryLimits.
