(* ===== verification/Welford.v ===== *)
(** * The running mean and variance (src/rust/src/core/call_summary.rs)

    [DistributionSummary::push] over exact numbers: the running values are those that a
    second pass over all the samples would give.  What rounding does to the floating point
    numbers of the code is not part of this. *)

From S2P Require Import Prelude CallSummary.
From Stdlib Require Import QArith Qcanon Field.
From stdpp Require Import numbers list.
Local Open Scope Qc_scope.

Module Welford.
Import Distribution.

(** ** Exact samples *)

Section Exact.
(** The greatest and the least valid sample. *)
Context (top bottom : Qc).

Definition qc_of_count (n : Z) : Qc := Q2Qc (inject_Z n).

Instance Qc_Sample : Sample Qc := {|
  sample_ZERO := 0;
  sample_MAX := top;
  sample_MIN := bottom;
  sample_is_valid x := bool_decide (bottom <= x) && bool_decide (x <= top);
  sample_lt x y := bool_decide (x < y);
  sample_add := Qcplus;
  sample_sub := Qcminus;
  sample_mul := Qcmult;
  sample_div := Qcdiv;
  sample_of_count := qc_of_count;
|}.

Definition push_all (l : list Qc) : DistributionSummary Qc := foldl (fun s x => push x s) default_distribution l.

(** ** The definitions from the text book *)

Fixpoint sum (f : Qc -> Qc) (l : list Qc) : Qc :=
  match l with
  | [] => 0
  | x :: l => f x + sum f l
  end.

Definition valid (l : list Qc) : list Qc := filter (fun x => sample_is_valid x = true) l.

Definition qlen (l : list Qc) : Qc := qc_of_count (Z.of_nat (length l)).
Definition mean_of (l : list Qc) : Qc := sum id l / qlen l.
Definition variance_of (l : list Qc) : Qc := sum (fun x => (x - mean_of l) * (x - mean_of l)) l / qlen l.

Definition least (l : list Qc) (m : Qc) : Prop := m ∈ l /\ Forall (fun x => m <= x) l.
Definition greatest (l : list Qc) (m : Qc) : Prop := m ∈ l /\ Forall (fun x => x <= m) l.

(** ** Numbers *)

Lemma qc_of_count_succ n : qc_of_count (n + 1) = qc_of_count n + 1.
Proof.
  unfold qc_of_count, Qcplus. apply Qc_is_canon. cbn [this Q2Qc]. rewrite !Qred_correct.
  rewrite inject_Z_plus. reflexivity.
Qed.

Lemma qc_of_count_pos n : (0 < n)%Z -> qc_of_count n <> 0.
Proof.
  intros Hn E. apply (f_equal this) in E. unfold qc_of_count in E. cbn [this Q2Qc] in E.
  assert (Hq : inject_Z n == 0) by (rewrite <-(Qred_correct (inject_Z n)), E; reflexivity).
  unfold Qeq in Hq. cbn in Hq. lia.
Qed.

Lemma sum_snoc f l x : sum f (l ++ [x]) = sum f l + f x.
Proof. induction l as [|y l IH]; cbn [sum app]; [ring|]. rewrite IH. ring. Qed.

Lemma sum_squares m l :
  sum (fun x => (x - m) * (x - m)) l = sum (fun x => x * x) l - (m + m) * sum id l + qlen l * m * m.
Proof.
  unfold qlen. induction l as [|x l IH]; cbn [sum length]; [change (qc_of_count (Z.of_nat 0)) with 0; ring|].
  rewrite Nat2Z.inj_succ, <-Z.add_1_r, qc_of_count_succ, IH. unfold id at 2. ring.
Qed.

(** ** The running values *)

(** What holds after the samples [l], all of them valid. *)
Record running (l : list Qc) (s : DistributionSummary Qc) : Prop := {
  run_count : count s = Z.of_nat (length l);
  run_mean : qlen l * mean s = sum id l;
  run_variance : qlen l * variance s = sum (fun x => x * x) l - qlen l * mean s * mean s;
  run_min : (l = [] /\ min_val s = top) \/ least l (min_val s);
  run_max : (l = [] /\ max_val s = bottom) \/ greatest l (max_val s);
}.

Lemma least_step l x m : x <= top -> (l = [] /\ m = top) \/ least l m ->
  least (l ++ [x]) (if bool_decide (x < m) then x else m).
Proof.
  intros Hx [[-> ->]|[Hin Hall]]; unfold least; case_bool_decide as Hlt; rewrite Forall_app, Forall_singleton.
  - split; [left|]. split; [constructor|apply Qcle_refl].
  - assert (x = top) as -> by (apply Qcle_antisym; [done|by apply Qcnot_lt_le]).
    split; [left|]. split; [constructor|apply Qcle_refl].
  - split; [apply elem_of_app; right; left|]. split; [|apply Qcle_refl].
    revert Hall. apply List.Forall_impl. intros y Hy. eapply Qcle_trans; [apply Qclt_le_weak; exact Hlt|exact Hy].
  - split; [apply elem_of_app; by left|]. split; [done|]. by apply Qcnot_lt_le.
Qed.

Lemma greatest_step l x m : bottom <= x -> (l = [] /\ m = bottom) \/ greatest l m ->
  greatest (l ++ [x]) (if bool_decide (m < x) then x else m).
Proof.
  intros Hx [[-> ->]|[Hin Hall]]; unfold greatest; case_bool_decide as Hlt; rewrite Forall_app, Forall_singleton.
  - split; [left|]. split; [constructor|apply Qcle_refl].
  - assert (x = bottom) as -> by (apply Qcle_antisym; [by apply Qcnot_lt_le|done]).
    split; [left|]. split; [constructor|apply Qcle_refl].
  - split; [apply elem_of_app; right; left|]. split; [|apply Qcle_refl].
    revert Hall. apply List.Forall_impl. intros y Hy. eapply Qcle_trans; [exact Hy|apply Qclt_le_weak; exact Hlt].
  - split; [apply elem_of_app; by left|]. split; [done|]. by apply Qcnot_lt_le.
Qed.

(** One step of Welford's method. *)
Lemma variance_step_ok n x m v s1 s2 : (0 < n + 1)%Z ->
  qc_of_count n * m = s1 -> qc_of_count n * v = s2 - qc_of_count n * m * m ->
  let '(v', m') := variance_step v m (n + 1) x in
  qc_of_count (n + 1) * m' = s1 + x /\
  qc_of_count (n + 1) * v' = s2 + x * x - qc_of_count (n + 1) * m' * m'.
Proof.
  intros Hn Hm Hv. pose proof (qc_of_count_pos _ Hn) as Hne. unfold variance_step. cbn.
  rewrite qc_of_count_succ in *. set (q := qc_of_count n) in *. set (m' := m + (x - m) / (q + 1)).
  assert (Hm' : (q + 1) * m' = q * m + x) by (unfold m'; field; done).
  split; [by rewrite Hm', Hm|].
  assert (Hv' : (q + 1) * (v + ((x - m) * (x - m') - v) / (q + 1)) = q * v + (x - m) * (x - m')) by (field; done).
  rewrite Hv', Hv, Hm'. replace ((x - m) * (x - m')) with (x * x - x * m - x * m' + m * m') by ring.
  assert (E : m * (q * m + x) = m * ((q + 1) * m')) by (by rewrite Hm').
  replace (s2 - q * m * m + (x * x - x * m - x * m' + m * m')) with
    (s2 + x * x - m * (q * m + x) - x * m' + m * m') by ring.
  rewrite E. ring.
Qed.

Lemma push_running l x s : (Z.of_nat (length l) + 1 < 2 ^ 64)%Z -> sample_is_valid x = true ->
  running l s -> running (l ++ [x]) (push x s).
Proof.
  intros Hlen Hx [Hc Hm Hv Hmin Hmax]. unfold push. rewrite Hx.
  cbn [sample_is_valid Qc_Sample] in Hx. apply andb_prop in Hx as [Hlo Hhi].
  apply bool_decide_eq_true in Hlo, Hhi.
  assert (Ecount : u64_add (count s) 1 = (Z.of_nat (length l) + 1)%Z).
  { rewrite Hc. unfold u64_add. apply wrap_small. lia. }
  rewrite Ecount. pose proof (variance_step_ok (Z.of_nat (length l)) x (mean s) (variance s) (sum id l)
    (sum (fun x => x * x) l) ltac:(lia) Hm Hv) as Hstep.
  destruct (variance_step (variance s) (mean s) (Z.of_nat (length l) + 1) x) as [v' m'] eqn:E. destruct Hstep as [Hm' Hv'].
  assert (Eq : qlen (l ++ [x]) = qc_of_count (Z.of_nat (length l) + 1)).
  { unfold qlen. rewrite length_app. f_equal. cbn [length]. lia. }
  split; cbn [count mean variance min_val max_val]; rewrite ?sum_snoc, ?Eq.
  - rewrite length_app. cbn [length]. lia.
  - exact Hm'.
  - exact Hv'.
  - right. by apply least_step.
  - right. by apply greatest_step.
Qed.

Lemma push_all_running l : (Z.of_nat (length l) < 2 ^ 64)%Z -> running (valid l) (push_all l).
Proof.
  induction l as [|x l IH] using rev_ind; intros Hlen.
  - split; cbn; [done|ring..|by left|by left].
  - rewrite length_app in Hlen. cbn [length] in Hlen. specialize (IH ltac:(lia)).
    unfold push_all, valid. rewrite foldl_app, list.filter_app. cbn [foldl].
    fold (push_all l). fold (valid l). destruct (sample_is_valid x) eqn:Hx.
    + rewrite filter_cons_True, filter_nil by done. apply push_running; [|done|done].
      assert (length (valid l) <= length l)%nat by apply length_filter. lia.
    + rewrite filter_cons_False, filter_nil, app_nil_r by (by rewrite Hx).
      unfold push. by rewrite Hx.
Qed.

(** C29. The running values that a distribution keeps are the ones of its definition: over
    exact numbers, after any samples the count is the number of valid ones, the mean is
    their sum over the count, the variance is the mean of the squared distances from that
    mean, and the least and the greatest value are the least and the greatest valid sample;
    invalid samples change nothing. *)
Theorem running_values_are_exact l : (Z.of_nat (length l) < 2 ^ 64)%Z -> valid l <> [] ->
  let s := push_all l in
  count s = Z.of_nat (length (valid l)) /\
  mean s = mean_of (valid l) /\
  variance s = variance_of (valid l) /\
  least (valid l) (min_val s) /\
  greatest (valid l) (max_val s).
Proof.
  intros Hlen Hne s. destruct (push_all_running l Hlen) as [Hc Hm Hv Hmin Hmax]. fold s in Hc, Hm, Hv, Hmin, Hmax.
  assert (Hpos : qlen (valid l) <> 0).
  { apply qc_of_count_pos. destruct (valid l); [done|]. cbn [length]. lia. }
  assert (Hmean : mean s = mean_of (valid l)) by (unfold mean_of; rewrite <-Hm; field; done).
  split_and!; [done|done| |by destruct Hmin as [[? _]|]|by destruct Hmax as [[? _]|]].
  unfold variance_of. rewrite <-Hmean, sum_squares, <-Hm. set (n := qlen (valid l)) in *.
  replace (sum (fun x => x * x) (valid l)) with (n * variance s + n * mean s * mean s) by (rewrite Hv; ring).
  field. done.
Qed.

End Exact.

Lemma running_values_are_exact_witness :
  mean (push_all (Q2Qc 100) 0 [Q2Qc 2; Q2Qc 200; Q2Qc 4; Q2Qc 9]) = Q2Qc 5 /\
  variance (push_all (Q2Qc 100) 0 [Q2Qc 2; Q2Qc 200; Q2Qc 4; Q2Qc 9]) = Q2Qc (26 # 3).
Proof.
  destruct (running_values_are_exact (Q2Qc 100) 0 [Q2Qc 2; Q2Qc 200; Q2Qc 4; Q2Qc 9]) as (_ & -> & -> & _);
    [vm_compute; reflexivity|vm_compute; discriminate|].
  split; apply Qc_is_canon; vm_compute; reflexivity.
Defined.

End Welford.
