(* ===== verification/StatsReports.v ===== *)
(** * From the reports of WebRTC to the call summary

    The observer of statistics feeding a summary: a report becomes one stats set with an
    entry per stream, and the totals that the summary adds up are the counters of WebRTC. *)

From S2P Require Import Prelude States Signaling ConnectionTypes Connection Call GroupTypes StatsObserver CallSummary SummaryLimits.
From stdpp Require Import strings.
Local Open Scope Z_scope.
Local Open Scope ringrtc_scope.

Module StatsReports.
Import StatsObserver CallSummary SummaryLimits.

Section Reports.
Context `{Floats}.

(** ** The two together *)

(** [r_sys] is the time of the system, [r_now] an [Instant]. *)
Record Report : Type := mkReport {
  r_sys : Z;
  r_now : Z;
  r_cpu : f32;
  r_media : MediaStatistics;
  r_json : string;
}.

Fixpoint consume (sys : Z) (snapshots : list StatsSnapshot) (c : CallInfo) : outcome CallInfo :=
  match snapshots with
  | [] => Val c
  | x :: snapshots => c ← on_stats_snapshot_ready sys x c; consume sys snapshots c
  end.

Definition feed (r : Report) (s : StatsObserver * CallInfo) : outcome (StatsObserver * CallInfo) :=
  let '(o, snapshots) := on_stats_complete (r_now r) (r_cpu r) (r_media r) (r_json r) s.1 in
  c ← consume (r_sys r) snapshots s.2; Val (o, c).

Fixpoint feed_all (l : list Report) (s : StatsObserver * CallInfo) : outcome (StatsObserver * CallInfo) :=
  match l with
  | [] => Val s
  | r :: l => s ← feed r s; feed_all l s
  end.

Lemma consume_ok sys snapshots c : info_ok c -> exists c', consume sys snapshots c = Val c' /\ info_ok c'.
Proof.
  revert c. induction snapshots as [|x l IH]; intros c Hc; cbn [consume]; [by exists c|].
  destruct (on_stats_snapshot_ready_ok sys x c Hc) as (c1 & -> & Hc1 & _). by apply IH.
Qed.

Lemma consume_app sys l1 l2 c :
  consume sys (l1 ++ l2) c = match consume sys l1 c with Val c => consume sys l2 c | Panic => Panic end.
Proof.
  revert c. induction l1 as [|x l1 IH]; intros c; cbn [consume app]; [done|].
  destruct (on_stats_snapshot_ready sys x c) as [c1|]; [apply IH|done].
Qed.

Lemma feed_all_ok l o c : info_ok c -> exists o' c', feed_all l (o, c) = Val (o', c') /\ info_ok c'.
Proof.
  revert o c. induction l as [|r l IH]; intros o c Hc; cbn [feed_all]; [by exists o, c|].
  unfold feed. destruct (on_stats_complete _ _ _ _ _) as [o1 snapshots].
  destruct (consume_ok (r_sys r) snapshots c Hc) as (c1 & Hx & Hc1). cbn [snd]. rewrite Hx. by apply IH.
Qed.

(** ** The loops of the observer *)

Lemma for_each_snapshots {A} (f : A -> Stats -> Stats * StatsSnapshot) (P : StatsSnapshot -> Prop) l s :
  (forall x s, P (f x s).2) -> Forall P (for_each f l s).2.
Proof.
  intros Hf. revert s. induction l as [|x l IH]; intros s; cbn [for_each]; [constructor|].
  pose proof (Hf x s) as Hx. destruct (f x s) as [s1 snapshot]. pose proof (IH s1) as Hl.
  destruct (for_each f l s1). by constructor.
Qed.

Lemma for_each_keeps {A B} (f : A -> Stats -> Stats * StatsSnapshot) (g : Stats -> B) l s :
  (forall x s, g (f x s).1 = g s) -> g (for_each f l s).1 = g s.
Proof.
  intros Hf. revert s. induction l as [|x l IH]; intros s; cbn [for_each]; [done|].
  pose proof (Hf x s) as Hx. destruct (f x s) as [s1 snapshot]. pose proof (IH s1) as Hl.
  destruct (for_each f l s1). cbn in *. congruence.
Qed.

(** ** Streams of received audio in the summary *)

Definition recv_of (c : CallInfo) : gmap Z StreamSummary := audio_recv_stream_summaries (stream_summaries c).

Definition note_snapshot (x : StatsSnapshot) (m : gmap Z StreamSummary) : gmap Z StreamSummary :=
  match x with
  | AudioReceiver y => update_stream_summary (ar_ssrc y) (audio_recv_summary y) m
  | _ => m
  end.

Lemma with_sets_streams f c c' : with_sets f c = Val c' -> stream_summaries c' = stream_summaries c.
Proof. unfold with_sets. destruct (f _); cbn; [|discriminate]. by intros [= <-]. Qed.

Lemma snapshot_recv sys x c c' : on_stats_snapshot_ready sys x c = Val c' -> recv_of c' = note_snapshot x (recv_of c).
Proof.
  unfold on_stats_snapshot_ready, recv_of.
  assert (E : stream_summaries (establish_if_needed sys c) = stream_summaries c)
    by (unfold establish_if_needed; by destruct (needs_stats_set c)).
  destruct x as [| |y|y|y|y|y|?]; cbn [note_snapshot].
  - intros [= <-]. by rewrite E.
  - intros [= <-]. cbn. by rewrite E.
  - intros Hx. apply with_sets_streams in Hx. rewrite Hx. cbn. by rewrite E.
  - intros Hx. apply with_sets_streams in Hx. rewrite Hx. cbn. by rewrite E.
  - intros Hx. apply with_sets_streams in Hx. rewrite Hx. cbn. by rewrite E.
  - intros Hx. apply with_sets_streams in Hx. rewrite Hx. cbn. by rewrite E.
  - destruct (with_sets _ _) as [c1|] eqn:Hx; [|discriminate]. apply with_sets_streams in Hx. cbn.
    intros [= <-]. cbn. rewrite Hx. cbn. by rewrite E.
  - intros [= <-]. by rewrite E.
Qed.

Lemma consume_recv sys l c c' : consume sys l c = Val c' -> recv_of c' = foldl (fun m x => note_snapshot x m) (recv_of c) l.
Proof.
  revert c. induction l as [|x l IH]; intros c; cbn [consume foldl]; [by intros [= <-]|].
  destruct (on_stats_snapshot_ready sys x c) as [c1|] eqn:E; [|discriminate]. cbn. intros Hl.
  rewrite (IH _ Hl). by rewrite (snapshot_recv _ _ _ _ E).
Qed.

Definition not_received (x : StatsSnapshot) : Prop := match x with AudioReceiver _ => False | _ => True end.

Lemma notes_skip l m : Forall not_received l -> foldl (fun m x => note_snapshot x m) m l = m.
Proof. intros Hl. revert m. induction Hl as [|x l Hx _ IH]; intros m; cbn [foldl]; [done|]. rewrite IH. by destruct x. Qed.

(** ** One stream *)

(** What is known of the stream [k]: when it was last reported, and its counters. *)
Definition known (k : Z) (last : option (Z * AudioReceiverStatistics)) (s : Stats) (m : gmap Z StreamSummary) : Prop :=
  match last with
  | None => audio_recv s !! k = None /\ m !! k = None
  | Some (t, x) =>
    (exists d1 d2, audio_recv s !! k = Some (t, x, d1, d2)) /\
    (forall y, m !! k = Some y ->
       audio_jitter_buffer_flushes y = Some (ra_jitter_buffer_flushes x) /\
       audio_redundant_packets y = Some (ra_fec_packets_received x)) /\
    (m !! k = None -> MAX_STREAM_SUMMARIES < Z.of_nat (size m))
  end.

(** Counters do not go back, from one report of the stream to the next. *)
Definition counts_on (last : option (Z * AudioReceiverStatistics)) (x : AudioReceiverStatistics) : Prop :=
  match last with
  | None => 0 <= ra_jitter_buffer_flushes x < 2 ^ 64 /\ 0 <= ra_fec_packets_received x < 2 ^ 64
  | Some (_, prev) => 0 <= ra_jitter_buffer_flushes prev <= ra_jitter_buffer_flushes x /\ ra_jitter_buffer_flushes x < 2 ^ 64 /\
      0 <= ra_fec_packets_received prev <= ra_fec_packets_received x /\ ra_fec_packets_received x < 2 ^ 64
  end.

Lemma accumulate_delta prev next o : 0 <= prev <= next -> next < 2 ^ 64 -> default 0 o = prev ->
  accumulate (delta next prev) o = Some next.
Proof.
  intros Hp Hn Ho. unfold accumulate, delta. rewrite Ho. f_equal.
  destruct (Z.ltb_spec prev next); rewrite u64_add_small; lia.
Qed.

Lemma update_lookup_ne k ssrc f (m : gmap Z StreamSummary) : ssrc <> k -> update_stream_summary ssrc f m !! k = m !! k.
Proof.
  intros Hne. unfold update_stream_summary. destruct (_ <=? _); [by rewrite lookup_insert_ne|].
  destruct (m !! ssrc); [by rewrite lookup_insert_ne|done].
Qed.

Lemma update_lookup_eq k f (m : gmap Z StreamSummary) y : update_stream_summary k f m !! k = Some y ->
  y = f (default default_stream_summary (m !! k)).
Proof.
  unfold update_stream_summary. destruct (_ <=? _); [rewrite lookup_insert_eq; by intros [= <-]|].
  destruct (m !! k) eqn:E; [rewrite lookup_insert_eq; by intros [= <-]|by rewrite E].
Qed.

Lemma update_full k f (m : gmap Z StreamSummary) :
  MAX_STREAM_SUMMARIES < Z.of_nat (size m) -> m !! k = None -> update_stream_summary k f m = m.
Proof.
  intros Hm Hk. unfold update_stream_summary. destruct (Z.leb_spec (Z.of_nat (size m)) MAX_STREAM_SUMMARIES); [lia|].
  by rewrite Hk.
Qed.

Lemma update_room k f (m : gmap Z StreamSummary) :
  update_stream_summary k f m !! k = None -> update_stream_summary k f m = m /\ MAX_STREAM_SUMMARIES < Z.of_nat (size m).
Proof.
  unfold update_stream_summary. destruct (Z.leb_spec (Z.of_nat (size m)) MAX_STREAM_SUMMARIES); [by rewrite lookup_insert_eq|].
  destruct (m !! k); [by rewrite lookup_insert_eq|done].
Qed.

Lemma update_size k f (m : gmap Z StreamSummary) : (size m <= size (update_stream_summary k f m))%nat.
Proof.
  unfold update_stream_summary. destruct (m !! k) eqn:E.
  - destruct (_ <=? _); rewrite map_size_insert_Some by done; lia.
  - destruct (_ <=? _); [rewrite map_size_insert_None by done|]; lia.
Qed.

Lemma known_step k last now secs x s m : known k last s m -> ra_ssrc x = k -> counts_on last x ->
  known k (Some (now, x)) (on_audio_receiver now secs x s).1 (note_snapshot (on_audio_receiver now secs x s).2 m).
Proof.
  intros Hk Hssrc Hcount. unfold on_audio_receiver. destruct last as [[t prev]|]; cbn in Hk.
  - destruct Hk as [(d1 & d2 & Hs) [Hm Hfull]]. rewrite Hssrc, Hs. cbn. rewrite Hssrc.
    split; [eexists _, _; apply lookup_insert_eq|]. split; [|intros Hnone; by destruct (update_room _ _ _ Hnone) as [-> ?]].
    intros y Hy. destruct (m !! k) as [z|] eqn:Ek; [|by rewrite update_full, Ek in Hy by auto].
    apply update_lookup_eq in Hy as ->. destruct Hcount as (Hf & Hf' & He & He'), (Hm z eq_refl) as [Hz1 Hz2]. cbn.
    rewrite Ek. cbn. split; apply accumulate_delta; rewrite ?Hz1, ?Hz2; done.
  - destruct Hk as [Hs Hm]. rewrite Hssrc, Hs. cbn. rewrite Hssrc.
    split; [eexists _, _; apply lookup_insert_eq|]. split; [|intros Hnone; by destruct (update_room _ _ _ Hnone) as [-> ?]].
    intros y Hy. apply update_lookup_eq in Hy as ->. rewrite Hm. cbn. destruct Hcount as [Hf He].
    split; apply accumulate_delta; cbn; lia.
Qed.

Lemma known_other k last now secs x s m : known k last s m -> ra_ssrc x <> k ->
  known k last (on_audio_receiver now secs x s).1 (note_snapshot (on_audio_receiver now secs x s).2 m).
Proof.
  intros Hk Hssrc. unfold on_audio_receiver. destruct (default _ _) as [[[t0 prev] d1] d2].
  cbn [fst snd note_snapshot derive_audio_receiver ar_ssrc]. destruct last as [[t y]|]; cbn in *.
  - destruct Hk as [(e1 & e2 & Hs) [Hm Hfull]]. rewrite lookup_insert_ne by done. split; [by eexists _, _|].
    rewrite !update_lookup_ne by done. split; [done|]. intros Hnone. specialize (Hfull Hnone).
    match goal with |- context [update_stream_summary ?a ?f m] => pose proof (update_size a f m) end. lia.
  - by rewrite lookup_insert_ne, update_lookup_ne.
Qed.

(** ** A report, and many of them *)

(** The statistics of the stream [k] in a report, which has them once at most. *)
Definition find_stream (k : Z) (l : list AudioReceiverStatistics) : option AudioReceiverStatistics :=
  snd <$> list_find (fun x => ra_ssrc x = k) l.

Definition next_known (k : Z) (now : Z) (l : list AudioReceiverStatistics) (last : option (Z * AudioReceiverStatistics)) :=
  match find_stream k l with Some x => Some (now, x) | None => last end.

Lemma find_stream_cons k x l : find_stream k (x :: l) = if decide (ra_ssrc x = k) then Some x else find_stream k l.
Proof. unfold find_stream. cbn. destruct (decide _); [done|]. by destruct (list_find _ l) as [[]|]. Qed.

Lemma find_stream_None k l : k ∉ (ra_ssrc <$> l) -> find_stream k l = None.
Proof.
  induction l as [|x l IH]; [done|]. rewrite fmap_cons, not_elem_of_cons, find_stream_cons. intros [Hne Hl].
  rewrite decide_False by done. by apply IH.
Qed.

Lemma known_loop k last now secs l s m : known k last s m -> NoDup (ra_ssrc <$> l) ->
  (forall x, find_stream k l = Some x -> counts_on last x) ->
  let '(s', snapshots) := for_each (on_audio_receiver now secs) l s in
  known k (next_known k now l last) s' (foldl (fun m x => note_snapshot x m) m snapshots).
Proof.
  revert last s m. induction l as [|x l IH]; intros last s m Hk Hnd Hcount; [done|]. cbn [for_each].
  rewrite fmap_cons in Hnd. apply NoDup_cons in Hnd as [Hx Hnd].
  unfold next_known. setoid_rewrite find_stream_cons in Hcount. rewrite find_stream_cons.
  destruct (decide (ra_ssrc x = k)) as [Ek|Ek].
  - pose proof (known_step k last now secs x s m Hk Ek (Hcount x eq_refl)) as Hk1.
    destruct (on_audio_receiver now secs x s) as [s1 snapshot]. cbn [fst snd] in Hk1.
    assert (Hnone : find_stream k l = None) by (apply find_stream_None; by rewrite <-Ek).
    specialize (IH _ _ _ Hk1 Hnd). rewrite Hnone in IH. specialize (IH ltac:(discriminate)).
    destruct (for_each _ l s1) as [s2 snapshots]. unfold next_known in IH. by rewrite Hnone in IH.
  - pose proof (known_other k last now secs x s m Hk Ek) as Hk1.
    destruct (on_audio_receiver now secs x s) as [s1 snapshot]. cbn [fst snd] in Hk1.
    specialize (IH _ _ _ Hk1 Hnd Hcount). by destruct (for_each _ l s1) as [s2 snapshots].
Qed.

Lemma known_ext k last s s' m : audio_recv s' = audio_recv s -> known k last s m -> known k last s' m.
Proof. unfold known. intros ->. done. Qed.

Lemma known_kept k last now s m : (forall t x, last = Some (t, x) -> now - t < MAX_STATS_AGE) ->
  known k last s m -> known k last (remove_old_stats now s) m.
Proof.
  intros Hage. destruct last as [[t x]|]; cbn.
  - intros [(d1 & d2 & Hs) Hm]. split; [|done]. exists d1, d2. apply map_lookup_filter_Some. split; [done|].
    cbn. by apply (Hage t x).
  - intros [Hs Hm]. split; [|done]. apply map_lookup_filter_None. by left.
Qed.

(** The report has the stream once at most, its counters do not go back, and it is not
    longer than ten minutes since it was reported. *)
Definition report_ok (k : Z) (last : option (Z * AudioReceiverStatistics)) (r : Report) : Prop :=
  let l := m_audio_receiver_statistics (r_media r) in
  NoDup (ra_ssrc <$> l) /\
  (forall x, find_stream k l = Some x -> counts_on last x) /\
  (forall t x, next_known k (r_now r) l last = Some (t, x) -> r_now r - t < MAX_STATS_AGE).

Lemma report_known k last r o m : known k last (stats o) m -> report_ok k last r ->
  let '(o', snapshots) := on_stats_complete (r_now r) (r_cpu r) (r_media r) (r_json r) o in
  known k (next_known k (r_now r) (m_audio_receiver_statistics (r_media r)) last) (stats o')
    (foldl (fun m x => note_snapshot x m) m snapshots).
Proof.
  intros Hk (Hnd & Hcount & Hage). unfold on_stats_complete. set (secs := if _ <? _ then _ else _).
  set (s0 := stats o <| report_json := r_json r |>).
  pose proof (for_each_keeps (on_audio_sender secs) audio_recv (m_audio_sender_statistics (r_media r)) s0 ltac:(done)) as E1.
  pose proof (for_each_snapshots (on_audio_sender secs) not_received (m_audio_sender_statistics (r_media r)) s0 ltac:(done)) as N1.
  destruct (for_each (on_audio_sender secs) _ s0) as [s1 l1]. cbn [fst snd] in E1, N1.
  pose proof (for_each_keeps (on_video_sender secs) audio_recv (m_video_sender_statistics (r_media r)) s1 ltac:(done)) as E2.
  pose proof (for_each_snapshots (on_video_sender secs) not_received (m_video_sender_statistics (r_media r)) s1 ltac:(done)) as N2.
  destruct (for_each (on_video_sender secs) _ s1) as [s2 l2]. cbn [fst snd] in E2, N2.
  pose proof (known_loop k last (r_now r) secs (m_audio_receiver_statistics (r_media r)) s2 m) as Hloop.
  destruct (for_each (on_audio_receiver _ secs) _ s2) as [s3 l3].
  pose proof (for_each_keeps (on_video_receiver (r_now r) secs) audio_recv (m_video_receiver_statistics (r_media r)) s3) as E4.
  pose proof (for_each_snapshots (on_video_receiver (r_now r) secs) not_received (m_video_receiver_statistics (r_media r)) s3) as N4.
  destruct (for_each (on_video_receiver _ secs) _ s3) as [s4 l4]. cbn [fst snd] in E4, N4.
  rewrite !foldl_app. cbn [foldl note_snapshot]. rewrite (notes_skip l1), (notes_skip l2) by done.
  rewrite (notes_skip l4) by (apply N4; intros x s; unfold on_video_receiver; by destruct (default _ _)).
  assert (H3 : known k (next_known k (r_now r) (m_audio_receiver_statistics (r_media r)) last) s3
                 (foldl (fun m x => note_snapshot x m) m l3)).
  { apply Hloop; [|done|done]. eapply known_ext; [|exact Hk]. rewrite E2, E1. done. }
  assert (H4 : forall s', audio_recv s' = audio_recv s4 -> known k (next_known k (r_now r) (m_audio_receiver_statistics (r_media r)) last) s'
                 (foldl (fun m x => note_snapshot x m) m l3)).
  { intros s' Es. eapply known_ext; [|exact H3]. rewrite Es. apply E4. intros x s. unfold on_video_receiver. by destruct (default _ _). }
  cbn. destruct (_ =? 0); [apply known_kept; [done|]|]; by apply H4.
Qed.

Fixpoint reports_ok (k : Z) (last : option (Z * AudioReceiverStatistics)) (l : list Report) : Prop :=
  match l with
  | [] => True
  | r :: l => report_ok k last r /\ reports_ok k (next_known k (r_now r) (m_audio_receiver_statistics (r_media r)) last) l
  end.

Definition last_known (k : Z) (last : option (Z * AudioReceiverStatistics)) (l : list Report) : option (Z * AudioReceiverStatistics) :=
  foldl (fun last r => next_known k (r_now r) (m_audio_receiver_statistics (r_media r)) last) last l.

Lemma reports_known k l : forall last o c o' c', known k last (stats o) (recv_of c) -> reports_ok k last l ->
  feed_all l (o, c) = Val (o', c') -> known k (last_known k last l) (stats o') (recv_of c').
Proof.
  induction l as [|r l IH]; intros last o c o' c' Hk Hok; cbn [feed_all]; [by intros [= <- <-]|].
  destruct Hok as [Hr Hl]. pose proof (report_known k last r o (recv_of c) Hk Hr) as Hnext. unfold feed. cbn [fst snd].
  destruct (on_stats_complete _ _ _ _ o) as [o1 snapshots]. destruct (consume (r_sys r) snapshots c) as [c1|] eqn:E; [|discriminate].
  apply consume_recv in E. rewrite <-E in Hnext. cbn. by apply IH.
Qed.

(** C30. The totals of a summary are the counters of WebRTC: however many reports come and
    whatever else is in them, the jitter buffer flushes and the redundant packets that the
    summary has added up for a received audio stream are the values of the last report of
    the stream, as long as its counters do not go back and it is reported every ten
    minutes.  A stream without a summary was never reported or came after 500 others. *)
Theorem totals_reach_the_summary k l now id offset :
  reports_ok k None l ->
  exists o c, feed_all l (new id offset, default_call_info now <| needs_stats_set := true |>) = Val (o, c) /\
    match recv_of c !! k, last_known k None l with
    | Some y, Some (_, x) =>
      audio_jitter_buffer_flushes y = Some (ra_jitter_buffer_flushes x) /\
      audio_redundant_packets y = Some (ra_fec_packets_received x)
    | Some _, None => False
    | None, Some _ => MAX_STREAM_SUMMARIES < Z.of_nat (size (recv_of c))
    | None, None => True
    end.
Proof.
  intros Hok. set (c0 := default_call_info now <| needs_stats_set := true |>).
  destruct (feed_all_ok l (new id offset) c0) as (o & c & Hr & _); [split; split; cbn; try done; by left|].
  exists o, c. split; [done|]. pose proof (reports_known k l None (new id offset) c0 o c) as Hk.
  specialize (Hk ltac:(done) Hok Hr). unfold known in Hk.
  destruct (last_known k None l) as [[t x]|], (recv_of c !! k) as [y|]; [|by apply Hk|by destruct Hk|done].
  by apply Hk.
Qed.

(** ** A report and its stats set *)

Definition new_set (sys : Z) : StatsSet := mkStatsSet (from_system_time sys) [] [] [] [] [] [] None.

(** The set that the next data goes to. *)
Definition current_set (sys : Z) (c : CallInfo) : StatsSet :=
  if needs_stats_set c then new_set sys else default (new_set sys) (last (stats_sets (info_stats_sets c))).

Definition note_set (x : StatsSnapshot) (set : StatsSet) : StatsSet :=
  match x with
  | AudioSender y => set <| audio_send_stats := audio_send_stats set ++ [stats_of_audio_sender y] |>
  | AudioReceiver y => set <| audio_recv_stats := audio_recv_stats set ++ [stats_of_audio_receiver y] |>
  | VideoSender y => set <| video_send_stats := video_send_stats set ++ [stats_of_video_sender y] |>
  | VideoReceiver y => set <| video_recv_stats := video_recv_stats set ++ [stats_of_video_receiver y] |>
  | ConnectionStats y =>
    set <| rtt_stun := rtt_stun set ++ [f32_of_f64 (cn_current_round_trip_time y)] |>
        <| set_relayed_field :=
             Some (match cn_network_route y with Some r => local_relayed r || remote_relayed r | None => false end) |>
  | _ => set
  end.

Definition is_end (x : StatsSnapshot) : bool := match x with SnapshotEnd => true | _ => false end.

Lemma modify_last_last {A} (f : A -> A) l l' : modify_last f l = Val l' -> last l' = f <$> last l.
Proof.
  revert l'. induction l as [|x l IH]; intros l'; [discriminate|]. destruct l as [|y l]; [by intros [= <-]|].
  change (modify_last f (x :: y :: l)) with (l' ← modify_last f (y :: l); Val (x :: l')).
  destruct (modify_last f (y :: l)) as [l1|]; [|discriminate]. intros [= <-]. specialize (IH l1 eq_refl).
  destruct l1 as [|z l1]; [by destruct (last (y :: l)) eqn:E; [discriminate|apply last_None in E]|]. exact IH.
Qed.

Lemma on_last_last f s s' : on_last f s = Val s' -> last (stats_sets s') = f <$> last (stats_sets s).
Proof.
  unfold on_last. destruct (modify_last f (stats_sets s)) as [l|] eqn:E; [|discriminate]. intros [= <-].
  by apply modify_last_last.
Qed.

Lemma establish_current sys c : info_ok c ->
  last (stats_sets (info_stats_sets (establish_if_needed sys c))) = Some (current_set sys c) /\
  needs_stats_set (establish_if_needed sys c) = false.
Proof.
  intros [[_ _ Hlast] _]. unfold establish_if_needed, current_set. destruct (needs_stats_set c) eqn:E.
  - split; [|done]. cbn. by rewrite last_snoc.
  - split; [|done]. destruct Hlast as [|Hne]; [done|]. by destruct (last (stats_sets _)) eqn:El; [|apply last_None in El].
Qed.

Lemma with_last f c c' set : with_sets (on_last f) c = Val c' -> last (stats_sets (info_stats_sets c)) = Some set ->
  last (stats_sets (info_stats_sets c')) = Some (f set) /\ needs_stats_set c' = needs_stats_set c.
Proof.
  unfold with_sets. destruct (on_last f _) as [s|] eqn:E; [|discriminate]. intros [= <-] Hset. cbn.
  by rewrite (on_last_last _ _ _ E), Hset.
Qed.

Lemma snapshot_set sys x c c' : info_ok c -> on_stats_snapshot_ready sys x c = Val c' ->
  last (stats_sets (info_stats_sets c')) = Some (note_set x (current_set sys c)) /\ needs_stats_set c' = is_end x.
Proof.
  intros Hc. destruct (establish_current sys c Hc) as [Hl Hn]. unfold on_stats_snapshot_ready.
  set (c1 := establish_if_needed sys c) in *. set (set := current_set sys c) in *.
  destruct x as [| |y|y|y|y|y|?]; cbn [note_set is_end]; try (by intros [= <-]).
  all: try (intros Hx; eapply with_last in Hx as [-> ->]; [done|exact Hl]).
  destruct (with_sets _ _) as [c2|] eqn:Hx; [|discriminate]. eapply with_last in Hx as [Hl2 Hn2]; [|exact Hl].
  cbn. intros [= <-]. cbn. rewrite Hn2. split; [|done]. unfold set_relayed.
  destruct (on_last _ (info_stats_sets c2)) as [s|] eqn:E.
  - rewrite (on_last_last _ _ _ E), Hl2. done.
  - exfalso. unfold on_last in E. destruct (modify_last_ok timestamp (fun set => set <| set_relayed_field :=
      Some (match cn_network_route y with Some r => local_relayed r || remote_relayed r | None => false end) |>)
      (stats_sets (info_stats_sets c2)) ltac:(done)) as (l' & Hl' & _); [by intros En; rewrite En in Hl2|].
    rewrite Hl' in E. discriminate.
Qed.

Lemma consume_set sys l c c' : info_ok c -> Forall (fun x => is_end x = false) l -> needs_stats_set c = false ->
  consume sys l c = Val c' ->
  current_set sys c' = foldl (fun set x => note_set x set) (current_set sys c) l /\ needs_stats_set c' = false /\ info_ok c'.
Proof.
  intros Hc Hl. revert c Hc. induction Hl as [|x l Hx _ IH]; intros c Hc Hn; cbn [consume foldl]; [by intros [= <-]|].
  destruct (on_stats_snapshot_ready_ok sys x c Hc) as (c1 & E & Hc1 & _). rewrite E. cbn. intros Hr.
  destruct (snapshot_set sys x c c1 Hc E) as [Hs Hn1]. rewrite Hx in Hn1. destruct (IH c1 Hc1 Hn1 Hr) as [-> ?].
  split; [|done]. f_equal. unfold current_set at 1. by rewrite Hn1, Hs.
Qed.

Definition add_audio_send (ys : list StreamStats) (set : StatsSet) := set <| audio_send_stats := audio_send_stats set ++ ys |>.
Definition add_video_send (ys : list StreamStats) (set : StatsSet) := set <| video_send_stats := video_send_stats set ++ ys |>.
Definition add_audio_recv (ys : list StreamStats) (set : StatsSet) := set <| audio_recv_stats := audio_recv_stats set ++ ys |>.
Definition add_video_recv (ys : list StreamStats) (set : StatsSet) := set <| video_recv_stats := video_recv_stats set ++ ys |>.

(** Adding one entry after the other. *)
Definition adds (add : list StreamStats -> StatsSet -> StatsSet) : Prop :=
  (forall set, add [] set = set) /\ (forall y ys set, add ys (add [y] set) = add (y :: ys) set).

Ltac solve_adds := split; [intros []; cbn; by rewrite app_nil_r|intros y ys []; cbn; by rewrite <-app_assoc].

Lemma add_audio_send_adds : adds add_audio_send.
Proof. unfold add_audio_send. solve_adds. Qed.
Lemma add_video_send_adds : adds add_video_send.
Proof. unfold add_video_send. solve_adds. Qed.
Lemma add_audio_recv_adds : adds add_audio_recv.
Proof. unfold add_audio_recv. solve_adds. Qed.
Lemma add_video_recv_adds : adds add_video_recv.
Proof. unfold add_video_recv. solve_adds. Qed.

(** A loop adds an entry per stream, in order. *)
Lemma loop_set {A} (f : A -> Stats -> Stats * StatsSnapshot) (ssrc : A -> Z) add : adds add ->
  (forall x s set, exists y, st_ssrc y = Some (ssrc x) /\ note_set (f x s).2 set = add [y] set) ->
  forall l s set, exists ys, (st_ssrc <$> ys) = (Some <$> (ssrc <$> l)) /\
    foldl (fun set x => note_set x set) set (for_each f l s).2 = add ys set.
Proof.
  intros [Hnil Hcons] Hf. induction l as [|x l IH]; intros s set; cbn [for_each]; [by exists []|].
  destruct (Hf x s set) as (y & Hy & Hset). destruct (f x s) as [s1 snapshot].
  destruct (IH s1 (add [y] set)) as (ys & Hys & E). destruct (for_each f l s1) as [s2 snapshots]. cbn [snd] in *.
  exists (y :: ys). split; [by rewrite !fmap_cons, Hys, Hy|]. cbn [foldl]. by rewrite Hset, E, Hcons.
Qed.

(** The streams of a list of entries. *)
Definition ssrcs (l : list StreamStats) : list (option Z) := st_ssrc <$> l.

Ltac solve_entry := eexists; split; [|reflexivity]; reflexivity.

Lemma report_set r o set :
  let m := r_media r in
  exists o' body, on_stats_complete (r_now r) (r_cpu r) m (r_json r) o = (o', SnapshotBegin :: body ++ [SnapshotEnd]) /\
    Forall (fun x => is_end x = false) body /\
    let set' := foldl (fun set x => note_set x set) set body in
    timestamp set' = timestamp set /\ events set' = events set /\
    ssrcs (audio_send_stats set') = ssrcs (audio_send_stats set) ++ (Some <$> (sa_ssrc <$> m_audio_sender_statistics m)) /\
    ssrcs (video_send_stats set') = ssrcs (video_send_stats set) ++ (Some <$> (sv_ssrc <$> m_video_sender_statistics m)) /\
    ssrcs (audio_recv_stats set') = ssrcs (audio_recv_stats set) ++ (Some <$> (ra_ssrc <$> m_audio_receiver_statistics m)) /\
    ssrcs (video_recv_stats set') = ssrcs (video_recv_stats set) ++ (Some <$> (rv_ssrc <$> m_video_receiver_statistics m)) /\
    length (rtt_stun set') = S (length (rtt_stun set)).
Proof.
  intros m. unfold on_stats_complete. fold m. set (secs := if _ <? _ then _ else _). set (s0 := stats o <| report_json := r_json r |>).
  set (conn := ConnectionStats _). set (set0 := note_set conn set).
  pose proof (for_each_snapshots (on_audio_sender secs) (fun x => is_end x = false) (m_audio_sender_statistics m) s0 ltac:(done)) as N1.
  destruct (loop_set (on_audio_sender secs) sa_ssrc _ add_audio_send_adds
    ltac:(intros x s set1; solve_entry) (m_audio_sender_statistics m) s0 set0) as (y1 & Hy1 & E1).
  destruct (for_each (on_audio_sender secs) _ s0) as [s1 l1]. cbn [snd] in N1, E1.
  pose proof (for_each_snapshots (on_video_sender secs) (fun x => is_end x = false) (m_video_sender_statistics m) s1 ltac:(done)) as N2.
  destruct (loop_set (on_video_sender secs) sv_ssrc _ add_video_send_adds
    ltac:(intros x s set1; solve_entry) (m_video_sender_statistics m) s1 (add_audio_send y1 set0)) as (y2 & Hy2 & E2).
  destruct (for_each (on_video_sender secs) _ s1) as [s2 l2]. cbn [snd] in N2, E2.
  pose proof (for_each_snapshots (on_audio_receiver (r_now r) secs) (fun x => is_end x = false) (m_audio_receiver_statistics m) s2
    ltac:(intros x s; unfold on_audio_receiver; by destruct (default _ _) as [[[]]])) as N3.
  destruct (loop_set (on_audio_receiver (r_now r) secs) ra_ssrc _ add_audio_recv_adds
    ltac:(intros x s set1; unfold on_audio_receiver; destruct (default _ _) as [[[]]]; solve_entry)
    (m_audio_receiver_statistics m) s2 (add_video_send y2 (add_audio_send y1 set0))) as (y3 & Hy3 & E3).
  destruct (for_each (on_audio_receiver _ secs) _ s2) as [s3 l3]. cbn [snd] in N3, E3.
  pose proof (for_each_snapshots (on_video_receiver (r_now r) secs) (fun x => is_end x = false) (m_video_receiver_statistics m) s3
    ltac:(intros x s; unfold on_video_receiver; by destruct (default _ _))) as N4.
  destruct (loop_set (on_video_receiver (r_now r) secs) rv_ssrc _ add_video_recv_adds
    ltac:(intros x s set1; unfold on_video_receiver; destruct (default _ _); solve_entry)
    (m_video_receiver_statistics m) s3 (add_audio_recv y3 (add_video_send y2 (add_audio_send y1 set0)))) as (y4 & Hy4 & E4).
  destruct (for_each (on_video_receiver _ secs) _ s3) as [s4 l4]. cbn [snd] in N4, E4.
  eexists _, ([SystemStats (r_cpu r); conn] ++ l1 ++ l2 ++ l3 ++ l4). split.
  { rewrite <-!app_assoc. reflexivity. }
  split. { rewrite !Forall_app. split_and!; try done. by repeat constructor. }
  rewrite !foldl_app. cbn [foldl]. change (note_set (SystemStats (r_cpu r)) set) with set. fold set0.
  rewrite E1, E2, E3, E4. unfold ssrcs, set0. cbn. rewrite !fmap_app, Hy1, Hy2, Hy3, Hy4, length_app.
  split_and!; try done. cbn. lia.
Qed.

(** A report of WebRTC becomes one stats set: when it has been consumed the newest set has
    the events that came since the last report, an entry for each stream of the report in
    its order, and one round trip time, and whatever comes next opens a new set. *)
Theorem report_fills_one_set r o c o' c' : info_ok c -> feed r (o, c) = Val (o', c') ->
  let m := r_media r in let base := current_set (r_sys r) c in
  needs_stats_set c' = true /\
  exists set, last (stats_sets (info_stats_sets c')) = Some set /\
    timestamp set = timestamp base /\ events set = events base /\
    ssrcs (audio_send_stats set) = ssrcs (audio_send_stats base) ++ (Some <$> (sa_ssrc <$> m_audio_sender_statistics m)) /\
    ssrcs (video_send_stats set) = ssrcs (video_send_stats base) ++ (Some <$> (sv_ssrc <$> m_video_sender_statistics m)) /\
    ssrcs (audio_recv_stats set) = ssrcs (audio_recv_stats base) ++ (Some <$> (ra_ssrc <$> m_audio_receiver_statistics m)) /\
    ssrcs (video_recv_stats set) = ssrcs (video_recv_stats base) ++ (Some <$> (rv_ssrc <$> m_video_receiver_statistics m)) /\
    length (rtt_stun set) = S (length (rtt_stun base)).
Proof.
  intros Hc Hfeed m base. destruct (report_set r o base) as (o1 & body & E & Hbody & Hset). fold m in E, Hset.
  revert Hfeed. unfold feed. cbn [fst snd]. fold m. rewrite E. cbn [consume].
  destruct (on_stats_snapshot_ready_ok (r_sys r) SnapshotBegin c Hc) as (c1 & E1 & Hc1 & _). rewrite E1.
  destruct (snapshot_set _ _ _ _ Hc E1) as [Hl1 Hn1]. cbn [note_set is_end] in Hl1, Hn1.
  unfold mbind, outcome_bind. rewrite consume_app. destruct (consume (r_sys r) body c1) as [c2|] eqn:E2; [|discriminate].
  destruct (consume_set _ _ _ _ Hc1 Hbody Hn1 E2) as (Hcur & Hn2 & Hc2).
  assert (Hbase : current_set (r_sys r) c1 = base) by (unfold current_set at 1; by rewrite Hn1, Hl1).
  rewrite Hbase in Hcur. cbn [consume].
  destruct (on_stats_snapshot_ready_ok (r_sys r) SnapshotEnd c2 Hc2) as (c3 & E3 & _). rewrite E3.
  destruct (snapshot_set _ _ _ _ Hc2 E3) as [Hl3 Hn3]. cbn [note_set is_end] in Hl3, Hn3. rewrite Hcur in Hl3.
  intros [= _ <-]. split; [done|]. eexists. split; [exact Hl3|exact Hset].
Qed.

End Reports.
End StatsReports.
