(* ===== verification/SummaryExamples.v ===== *)
(** * Call summaries on concrete inputs

    Integers stand for the floating point numbers and a list of samples for a sketch; the
    size of telemetry is proportional to the sets and summaries it has. *)

From S2P Require Import Prelude States Signaling ConnectionTypes Connection Call GroupTypes StatsObserver CallSummary SummaryLimits StatsReports.
From stdpp Require Import strings sorting.
Local Open Scope Z_scope.
Local Open Scope ringrtc_scope.

Module SummaryExamples.
Import StatsObserver CallSummary SummaryLimits StatsReports.

Instance Z_Float : Float Z := {|
  fl_of_Z := id; fl_MAX := 2 ^ 24; fl_MIN := - 2 ^ 24;
  fl_is_finite x := (- 2 ^ 24 <=? x) && (x <=? 2 ^ 24);
  fl_lt := Z.ltb; fl_add := Z.add; fl_sub := Z.sub; fl_mul := Z.mul; fl_div := Z.div; fl_max := Z.max;
|}.

Instance Z_Floats : Floats := {|
  f32 := Z; f64 := Z; f32_Float := Z_Float; f64_Float := Z_Float; f32_of_f64 := id; f64_of_f32 := id;
  f32_sqrt := Z.sqrt;
  Sketch := list Z; sketch_new := []; sketch_add := cons; sketch_median l := l !! (length l / 2)%nat;
|}.

Definition direct_route : NetworkRoute := mkNetworkRoute Wifi AdapterUnknown false Udp false.
Definition relayed_route : NetworkRoute := mkNetworkRoute Cellular4G AdapterUnknown true Udp false.
Definition route_change (ms : Z) (route : NetworkRoute) : Op :=
  OpCallEvent (ms * 1000000) (ms * 1000000)
    (CallEvent.ConnectionObserverEvent (ConnectionObserverEvent.IceNetworkRouteChanged route) 1).

(** Five periods of statistics with limits that leave room for three sets. *)
Definition some_ops : list Op :=
  [OpUpdateLimits 3000 1000; route_change 10 direct_route] ++
  (seq 1 5 ≫= fun i =>
     [OpSnapshot (Z.of_nat i * 1000000000) SnapshotBegin;
      OpSnapshot (Z.of_nat i * 1000000000) (AudioSender (mkAudioSender 7 1 1 (Z.of_nat i) 2 3 4 1));
      OpSnapshot (Z.of_nat i * 1000000000) SnapshotEnd]) ++
  [route_change 6000 relayed_route].

Definition after (ops : list Op) : DirectCallSummaryInner :=
  match run ops (default_direct 0) with Val s => s | Panic => default_direct 0 end.

Definition returns (ops : list Op) : bool :=
  match run ops (default_direct 0) with Val _ => true | Panic => false end.

Lemma run_after ops : returns ops = true -> run ops (default_direct 0) = Val (after ops).
Proof. unfold returns, after. by destruct (run ops (default_direct 0)). Qed.

Lemma some_ops_ok : Forall op_ok some_ops.
Proof.
  unfold some_ops. rewrite !Forall_app. split_and!; [|apply Forall_bind, Forall_forall; intros i _|]; repeat apply List.Forall_cons;
    try apply List.Forall_nil; try exact I. split; [split; [lia|reflexivity]|lia].
Qed.

Lemma some_ops_times : all_times (after some_ops) = [Some 4000; Some 5000; Some 6000].
Proof. vm_compute. reflexivity. Qed.

Lemma after_run ops s : run ops (default_direct 0) = Val s -> s = after ops.
Proof. unfold after. by intros ->. Qed.

Lemma collecting_is_safe_witness :
  exists s, run some_ops (default_direct 0) = Val s /\
    all_times s = [Some 4000; Some 5000; Some 6000] /\
    all_times s `suffix_of` all_made some_ops (default_direct 0).
Proof.
  destruct (collecting_is_safe 0 some_ops some_ops_ok) as (s & Hs & _ & Hsuf & _).
  exists s. split; [exact Hs|]. split; [|exact Hsuf]. rewrite (after_run _ _ Hs). exact some_ops_times.
Defined.

Definition relay_twice : list Op :=
  [route_change 10 relayed_route; route_change 40 direct_route; route_change 50 relayed_route;
   route_change 90 relayed_route].

(** The second period has not ended: its 40 ms are not counted. *)
Lemma relayed_time_witness :
  relayed_time_this_call (after relay_twice) = 30000000 /\
  relayed_time_this_call (after relay_twice) + open_period (relay_of (after relay_twice)) (relay_twice ≫= route_of) = 70000000.
Proof.
  split; [vm_compute; reflexivity|].
  rewrite (relayed_time_is_counted_at_the_end_of_a_period 0 relay_twice (after relay_twice)).
  - vm_compute. reflexivity.
  - apply run_after. vm_compute. reflexivity.
  - repeat constructor; vm_compute; discriminate.
Defined.

(** A call that is relayed for the whole of its minute. *)
Lemma relay_until_the_end_witness :
  (dc_relayed <$> t_direct_call_summary (direct_telemetry 60000000000 (after [route_change 10 relayed_route]))) = Some false.
Proof.
  apply (relay_until_the_end_is_not_reported 0 60000000000 [route_change 10 relayed_route]).
  - apply run_after. vm_compute. reflexivity.
  - repeat constructor.
Defined.

Definition toy_len (t : CallTelemetry) : Z :=
  30000 * zlen (t_stats_sets t) + match t_direct_call_summary t with Some _ => 1000 | None => 0 end.

(** The telemetry of a call that ends before anything was heard of the network. *)
Lemma summary_without_sets_witness :
  exists t, t = direct_telemetry 5000000000 (default_direct 0) /\
    toy_len t = 1000 /\ t_direct_call_summary (prune_if_too_large toy_len t).1 = None.
Proof.
  eexists. split; [reflexivity|]. split; [reflexivity|].
  rewrite (summary_without_sets_is_dropped toy_len (direct_telemetry 5000000000 (default_direct 0)) eq_refl). reflexivity.
Defined.

(** Three sets are too many, two are not. *)
Definition some_telemetry : CallTelemetry := direct_telemetry 7000000000 (after some_ops).

Example pruning_removes_the_oldest :
  (let '(t, r) := prune_if_too_large toy_len some_telemetry in
   (r, timestamp <$> t_stats_sets t, bool_decide (is_Some (t_direct_call_summary t)))) =
  (Ok 1, [Some 5000; Some 6000], true).
Proof. vm_compute. reflexivity. Qed.

Lemma pruning_succeeds : is_ok (prune_if_too_large toy_len some_telemetry).2 = true.
Proof. vm_compute. reflexivity. Qed.

Lemma pruning_keeps_the_limit_witness :
  fits toy_len (prune_if_too_large toy_len some_telemetry).1.
Proof.
  pose proof (pruning_keeps_the_limit toy_len some_telemetry) as Hspec. pose proof pruning_succeeds as Hok.
  destruct (prune_if_too_large toy_len some_telemetry) as [t [n|e]]; [apply Hspec|discriminate].
Defined.

(** ** Reports of WebRTC *)

Definition received (ssrc flushes fec : Z) : AudioReceiverStatistics :=
  mkRA ssrc 100 0 20000 5 1 1 1 50 flushes 0 4800 0 0 fec 0 1.
Definition seen (jitter : Z) : VideoReceiverStatistics :=
  mkRV 4 100 0 90000 30 30 1 1 640 480 0 0 jitter 1 30 0 0 CodecVp8 None.
Definition media (seconds : Z) (audio : list AudioReceiverStatistics) (video : list VideoReceiverStatistics) : MediaStatistics :=
  mkMedia (seconds * 1000000) [] [] audio video (mkCS None 1 1 0 0 0 0) [].
Definition report (seconds : Z) (audio : list AudioReceiverStatistics) : Report :=
  mkReport (seconds * 1000000000) (seconds * 1000000000) 10 (media seconds audio []) "{}".

(** The stream 9 is missing from the second report, as another one joins. *)
Definition some_reports : list Report :=
  [report 10 [received 9 3 20]; report 20 [received 5 1 1]; report 30 [received 5 1 7; received 9 8 21]].

Lemma report_ok_intro k last r o :
  NoDup (ra_ssrc <$> m_audio_receiver_statistics (r_media r)) ->
  find_stream k (m_audio_receiver_statistics (r_media r)) = o ->
  match o with Some x => counts_on last x | None => True end ->
  match (match o with Some x => Some (r_now r, x) | None => last end) with
  | Some (t, _) => r_now r - t < MAX_STATS_AGE
  | None => True
  end -> report_ok k last r.
Proof.
  intros Hnd Hf Hcount Hage. split; [done|]. unfold next_known. rewrite Hf. split.
  - intros x ->. done.
  - intros t x Hx. by rewrite Hx in Hage.
Qed.

Lemma some_reports_ok : reports_ok 9 None some_reports.
Proof.
  split; [|split; [|split; [|done]]]; (eapply report_ok_intro; [|reflexivity|..]).
  all: try (apply (bool_decide_unpack _); vm_compute; exact I).
  all: try exact I.
  all: try (unfold counts_on; cbn; lia).
  all: vm_compute; reflexivity.
Qed.

Lemma totals_reach_the_summary_witness :
  last_known 9 None some_reports = Some (30000000000, received 9 8 21) /\
  exists o c, feed_all some_reports (new 1 10, default_call_info 0 <| needs_stats_set := true |>) = Val (o, c) /\
    (forall y, recv_of c !! 9 = Some y ->
       audio_jitter_buffer_flushes y = Some 8 /\ audio_redundant_packets y = Some 21).
Proof.
  split; [reflexivity|].
  destruct (totals_reach_the_summary 9 some_reports 0 1 10 some_reports_ok) as (o & c & Hr & Hk).
  exists o, c. split; [exact Hr|]. intros y Hy. rewrite Hy in Hk. exact Hk.
Defined.

(** The entry is there. *)
Example stream_is_summarized :
  match feed_all some_reports (new 1 10, default_call_info 0 <| needs_stats_set := true |>) with
  | Val (_, c) => (audio_jitter_buffer_flushes <$> recv_of c !! 9) = Some (Some 8)
  | Panic => False
  end.
Proof. vm_compute. reflexivity. Qed.

(** The jitter of received video is taken for a counter: if it stays at 30 it is reported
    as zero from the second report on. *)
Example constant_video_jitter_is_reported_as_zero :
  let '(o, _) := on_stats_complete 10 10 (media 10 [] [seen 30]) "{}" (new 1 10) in
  let '(_, snapshots) := on_stats_complete 20 10 (media 20 [] [seen 30]) "{}" o in
  (snapshots ≫= fun x => match x with VideoReceiver y => [vr_jitter y] | _ => [] end) = [0].
Proof. vm_compute. reflexivity. Qed.

End SummaryExamples.
