(* ===== verification/AudioDevices.v ===== *)
(** * Audio devices and their names (src/rust/src/webrtc/audio_device_module_utils.rs)

    The list of devices of cubeb with the default devices that the application sees in front
    of it, the copy of a name into memory of C++, and the redaction of names in log lines.
    A text is its bytes; cubeb and regular expressions are parameters. *)

From S2P Require Import Prelude Base16.
From stdpp Require Import strings pretty.
Local Open Scope Z_scope.
Local Open Scope ringrtc_scope.

Module AudioDevices.
Import Text.

(** [target_os] *)
Inductive Target : Type := Windows | MacOs | Linux.
#[global] Instance Target_eq_dec : EqDecision Target.
Proof. solve_decision. Defined.

(** ** Devices of cubeb *)

Inductive DeviceState : Type := StateDisabled | StateUnplugged | StateEnabled.
#[global] Instance DeviceState_eq_dec : EqDecision DeviceState.
Proof. solve_decision. Defined.

(** [DevicePref] and [DeviceType] of cubeb are flags. *)
Definition PREF_MULTIMEDIA : Z := 1.
Definition PREF_VOICE : Z := 2.
Definition TYPE_INPUT : Z := 1.
Definition contains (flags flag : Z) : bool := Z.land flags flag =? flag.

(** [cubeb::DeviceInfo], what is read of it *)
Record DeviceInfo : Type := mkDeviceInfo {
  di_devid : Z;
  di_device_id : option string;
  di_friendly_name : option string;
  di_device_type : Z;
  di_preferred : Z;
  di_state : DeviceState;
}.

Record MinimalDeviceInfo : Type := mkMinimal {
  devid : Z;
  device_id : option string;
  friendly_name : string;
  device_type : Z;
  preferred : Z;
  state : DeviceState;
}.
#[global] Instance MinimalDeviceInfo_eq_dec : EqDecision MinimalDeviceInfo.
Proof. solve_decision. Defined.

Record AudioDevice : Type := mkAudioDevice {
  name : string;
  unique_id : string;
  i18n_key : string;
}.
#[global] Instance AudioDevice_eq_dec : EqDecision AudioDevice.
Proof. solve_decision. Defined.

Definition ends_with (s suffix : list Z) : bool :=
  bool_decide (drop (length s - length suffix) s = suffix).

Definition device_is_monitor (device : MinimalDeviceInfo) : bool :=
  (device_type device =? TYPE_INPUT) &&
  match device_id device with
  | Some s => ends_with (as_bytes s) (as_bytes ".monitor")
  | None => false
  end.

(** ** [DeviceCollectionWrapper] *)

Definition DeviceCollection : Type := list MinimalDeviceInfo.

(** The type is a field on Linux only. *)
Definition new_collection (target : Target) (device_collection : list DeviceInfo) : DeviceCollection :=
  omap (fun d => match di_friendly_name d with
                 | Some friendly =>
                   Some (mkMinimal (di_devid d) (di_device_id d) friendly
                           (match target with Linux => di_device_type d | _ => 0 end) (di_preferred d) (di_state d))
                 | None => None
                 end) device_collection.

Definition is_enabled (d : MinimalDeviceInfo) : bool := bool_decide (state d = StateEnabled).

Definition iter (c : DeviceCollection) : list MinimalDeviceInfo := List.filter is_enabled c.
Definition iter_non_monitor (c : DeviceCollection) : list MinimalDeviceInfo :=
  List.filter (fun d => is_enabled d && negb (device_is_monitor d)) c.

Section Target.
Context (target : Target).

(** The devices that an index behind the default devices refers to. *)
Definition listed (c : DeviceCollection) : list MinimalDeviceInfo :=
  match target with Linux => iter_non_monitor c | _ => iter c end.

Definition count (c : DeviceCollection) : Z :=
  match target with
  | Windows => zlen (iter c)
  | MacOs => if zlen (iter c) =? 0 then 0 else zlen (iter c) + 1
  | Linux =>
    if zlen (iter_non_monitor c) =? 0 then
      if existsb (fun d => contains (preferred d) PREF_VOICE) (iter c) then 1 else 0
    else zlen (iter_non_monitor c) + 1
  end.

Definition get (idx : Z) (c : DeviceCollection) : option MinimalDeviceInfo :=
  if count c =? 0 then None
  else match target with
  | Windows =>
    if 1 <? idx then iter c !! Z.to_nat (idx - 2)
    else if idx =? 1 then List.find (fun d => contains (preferred d) PREF_VOICE) (iter c)
    else List.find (fun d => contains (preferred d) PREF_MULTIMEDIA) (iter c)
  | _ =>
    if 0 <? idx then listed c !! Z.to_nat (idx - 1)
    else List.find (fun d => contains (preferred d) PREF_VOICE) (iter c)
  end.

(** How many indices there are. *)
Definition addressable (c : DeviceCollection) : Z :=
  match target with Windows => count c + 2 | _ => count c end.

Definition shown_name (i : Z) (friendly : string) : string :=
  match target with
  | Windows => if i =? 0 then "Default - " +:+ friendly
               else if i =? 1 then "Communication - " +:+ friendly else friendly
  | _ => if i =? 0 then "default (" +:+ friendly +:+ ")" else friendly
  end.

Definition shown_id (i : Z) (info : MinimalDeviceInfo) : string :=
  match device_id info with
  | Some id => id
  | None => friendly_name info +:+ "-" +:+ pretty (Z.to_N i)
  end.

Definition extract_name (c : DeviceCollection) (i : Z) : option AudioDevice :=
  match get i c with
  | Some info => Some (mkAudioDevice (shown_name i (friendly_name info)) (shown_id i info) "")
  | None => None
  end.

Definition extract_names (c : DeviceCollection) : list (option AudioDevice) :=
  extract_name c <$> seqZ 0 (addressable c).

End Target.

(** ** Copying a name to C++ *)

(** [str::get(0..size)] *)
Definition get_prefix (src : list Z) (size : Z) : option (list Z) :=
  if (0 <=? size) && (size <=? zlen src) && is_char_boundary src size then Some (take (Z.to_nat size) src) else None.

(** [CString::new(...).as_bytes_with_nul()] *)
Definition with_nul (s : list Z) : option (list Z) :=
  if bool_decide (0 ∈ s) then None else Some (s ++ [0]).

(** [std::ptr::copy] to memory that is allocated: writing behind it must not happen. *)
Definition write (dest bytes : list Z) : outcome (list Z) :=
  if zlen bytes <=? zlen dest then Val (bytes ++ drop (length bytes) dest) else Panic.

Inductive CopyError : Type := NoSubstring | InteriorNul | NullPointer.

(** [dest] is the memory behind the pointer, [None] for null. *)
Definition copy_and_truncate_string (src : list Z) (dest : option (list Z)) (dest_size : Z)
  : outcome (option (list Z) * result unit CopyError) :=
  let size := Z.min (zlen src) (u64_sub dest_size 1) in
  match get_prefix src size with
  | None => Val (dest, Err NoSubstring)
  | Some prefix =>
    match with_nul prefix with
    | None => Val (dest, Err InteriorNul)
    | Some c_str_bytes =>
      match dest with
      | None => Val (dest, Err NullPointer)
      | Some memory => memory ← write memory c_str_bytes; Val (Some memory, Ok tt)
      end
    end
  end.

(** ** Redaction *)

Definition is_ascii (s : list Z) : bool := forallb (fun b => b <? 128) s.

(** The bytes of the first character, and the number of characters. *)
Fixpoint continuation (s : list Z) : list Z :=
  match s with
  | b :: s => if is_continuation b then b :: continuation s else []
  | [] => []
  end.
Definition first_char_bytes (s : list Z) : list Z :=
  match s with [] => [] | b :: s => b :: continuation s end.
Definition char_count (s : list Z) : Z := zlen (List.filter (fun b => negb (is_continuation b)) s).

Definition dots : list Z := as_bytes "...".

(** [debug] is [cfg!(debug_assertions) && !cfg!(test)]. *)
Definition redact_for_logging (debug : bool) (s : list Z) : list Z :=
  if debug then s
  else if is_ascii s then
    let n := zlen s in
    if n <=? 4 then s
    else take 2 s ++ dots ++ drop (Z.to_nat (n - 4)) (drop 2 s)
  else if char_count s <=? 1 then s
  else first_char_bytes s ++ dots.

(** A regular expression: where it first matches. *)
Definition Regex : Type := list Z -> option (Z * Z).

Inductive AppliesToLine : Type :=
| AppliesRegex (re : Regex)
| LiteralPrefix (prefix : list Z).

Record RedactionSpec : Type := mkSpec {
  applies_to_line : AppliesToLine;
  segments_to_keep : list Regex;
}.

(** [&text[start..end]] *)
Definition slice (text : list Z) (first last : Z) : outcome (list Z) :=
  if (0 <=? first) && (first <=? last) && (last <=? zlen text) && is_char_boundary text first && is_char_boundary text last
  then Val (take (Z.to_nat (last - first)) (drop (Z.to_nat first) text))
  else Panic.

Definition applies (spec : RedactionSpec) (text : list Z) : bool :=
  match applies_to_line spec with
  | AppliesRegex re => bool_decide (is_Some (re text))
  | LiteralPrefix prefix => bool_decide (take (length prefix) text = prefix)
  end.

(** The loop over the segments, with what follows it. *)
Fixpoint redact_segments (debug : bool) (segments : list Regex) (text : list Z) (end_of_previous_match : Z) (result : list Z)
  : outcome (list Z) :=
  let rest :=
    if end_of_previous_match =? zlen text then Val result
    else tail ← slice text end_of_previous_match (zlen text); Val (result ++ redact_for_logging debug tail) in
  match segments with
  | [] => rest
  | segment_re :: segments =>
    match segment_re (drop (Z.to_nat end_of_previous_match) text) with
    | None => rest
    | Some (m_start, m_end) =>
      let start := m_start + end_of_previous_match in
      let stop := m_end + end_of_previous_match in
      result ← (if start =? end_of_previous_match then Val result
                else gap ← slice text end_of_previous_match start; Val (result ++ redact_for_logging debug gap));
      kept ← slice text start stop;
      redact_segments debug segments text stop (result ++ kept)
    end
  end.

Definition redact_if_matching (debug : bool) (spec : RedactionSpec) (text : list Z) : outcome (list Z) :=
  if applies spec text then redact_segments debug (segments_to_keep spec) text 0 [] else Val text.

Fixpoint do_cubeb_redactions (debug : bool) (specs : list RedactionSpec) (text : list Z) : outcome (list Z) :=
  match specs with
  | [] => Val text
  | re :: specs => redacted ← redact_if_matching debug re text; do_cubeb_redactions debug specs redacted
  end.

(** [str::contains] *)
Fixpoint contains_text (s pattern : list Z) : bool :=
  bool_decide (take (length pattern) s = pattern) ||
  match s with [] => false | _ :: s => contains_text s pattern end.

(** What is logged of a message of cubeb, if anything; [paused] is [PAUSE_LOGGING] and
    [identifier_re] finds a file with a line number. *)
Definition log_c_str (debug paused : bool) (identifier_re : Regex) (specs : list RedactionSpec) (msg : list Z)
  : outcome (option (list Z)) :=
  if paused || negb (valid_utf8 msg) then Val None
  else if contains_text msg (as_bytes "DeviceID") && contains_text msg (as_bytes "Name") then Val None
  else match identifier_re msg with
  | None => Val None
  | Some (m_start, m_end) =>
    ident ← slice msg m_start m_end;
    contents ← slice msg m_end (zlen msg);
    redacted ← do_cubeb_redactions debug specs contents;
    Val (Some (as_bytes "cubeb: " ++ ident ++ redacted))
  end.

End AudioDevices.
