(* ===== verification/AudioNames.v ===== *)
(** * What the application and the log see of audio devices

    Indices and names agree with the devices; names are copied within their memory; a log
    line tells the first two and the last two characters of a name at most. *)

From S2P Require Import Prelude Base16 AudioDevices.
From stdpp Require Import strings pretty.
Local Open Scope Z_scope.
Local Open Scope ringrtc_scope.

Module AudioNames.
Import Text AudioDevices.

(** ** Indices *)

(** The default devices come first. *)
Definition defaults (target : Target) : Z := match target with Windows => 2 | _ => 1 end.

Lemma iter_non_monitor_iter c : iter_non_monitor c ⊆ iter c.
Proof.
  intros d. unfold iter_non_monitor, iter. rewrite !list_elem_of_In, !List.filter_In.
  intros [? [? _]%andb_prop]. done.
Qed.

Lemma listed_iter target c : listed target c ⊆ iter c.
Proof. destruct target; cbn; [done|done|apply iter_non_monitor_iter]. Qed.

Lemma find_elem {A} (f : A -> bool) l x : List.find f l = Some x -> x ∈ l.
Proof. intros [? _]%List.find_some. by apply list_elem_of_In. Qed.

(** Whatever an index refers to is enabled. *)
Lemma get_enabled target i c d : get target i c = Some d -> d ∈ iter c.
Proof.
  unfold get. destruct (count target c =? 0); [discriminate|].
  destruct target; zcases; intros Hd.
  all: try (by apply find_elem in Hd).
  all: apply list_elem_of_lookup_2 in Hd; try done.
  all: by apply (listed_iter MacOs) in Hd || apply (listed_iter Linux) in Hd.
Qed.

Lemma zlen_0 {A} (l : list A) : zlen l = 0 -> l = [].
Proof. destruct l; [done|]. rewrite zlen_cons. pose proof (zlen_nonneg l). lia. Qed.

Lemma lookup_zlen {A} (l : list A) i : 0 <= i -> is_Some (l !! Z.to_nat i) <-> i < zlen l.
Proof. intros Hi. rewrite lookup_lt_is_Some. unfold zlen. lia. Qed.

(** Behind the default devices there is a device for each index. *)
Lemma get_listed target i c : defaults target <= i ->
  get target i c = if count target c =? 0 then None else listed target c !! Z.to_nat (i - defaults target).
Proof.
  intros Hi. unfold get. destruct (count target c =? 0); [done|]. destruct target; cbn [defaults listed] in *; zcases; try lia; done.
Qed.

Lemma count_listed target c : count target c <> 0 ->
  addressable target c = zlen (listed target c) + defaults target.
Proof.
  unfold addressable, count. destruct target; cbn [defaults listed]; [done|..].
  - destruct (Z.eqb_spec (zlen (iter c)) 0); [done|lia].
  - destruct (Z.eqb_spec (zlen (iter_non_monitor c)) 0) as [E|E]; [|lia].
    destruct (existsb _ _); [|done]. lia.
Qed.

Lemma extract_names_lookup target c i : 0 <= i ->
  extract_names target c !! Z.to_nat i = if i <? addressable target c then Some (extract_name target c i) else None.
Proof.
  intros Hi. unfold extract_names. rewrite list_lookup_fmap. destruct (Z.ltb_spec i (addressable target c)).
  - rewrite lookup_seqZ_lt by lia. cbn. do 2 f_equal. lia.
  - by rewrite lookup_seqZ_ge by lia.
Qed.

(** The list of devices that is shown agrees with the devices that its indices select,
    on every operating system: an index selects a device only within the list, which says
    its name and its id; what it selects is enabled; behind the default devices every entry
    is one, and only an entry of a default device can be empty. *)
Theorem indices_select_what_is_shown target c i : 0 <= i ->
  (extract_names target c !! Z.to_nat i =
     if i <? addressable target c then Some (extract_name target c i) else None) /\
  (forall d, get target i c = Some d ->
     i < addressable target c /\ d ∈ iter c /\
     extract_name target c i = Some (mkAudioDevice (shown_name target i (friendly_name d)) (shown_id i d) "")) /\
  (defaults target <= i < addressable target c -> is_Some (get target i c)).
Proof.
  intros Hi. split_and!.
  - by apply extract_names_lookup.
  - intros d Hd. split_and!; [|by eapply get_enabled|unfold extract_name; by rewrite Hd].
    assert (Hc : count target c <> 0) by (unfold get in Hd; by destruct (Z.eqb_spec (count target c) 0)).
    rewrite (count_listed _ _ Hc). destruct (Z.le_gt_cases (defaults target) i) as [Hle|Hlt].
    + rewrite get_listed in Hd by done. destruct (_ =? 0); [discriminate|].
      assert (Hs : is_Some (listed target c !! Z.to_nat (i - defaults target))) by (by eexists).
      apply lookup_zlen in Hs; lia.
    + pose proof (zlen_nonneg (listed target c)). lia.
  - intros [Hle Hlt]. destruct (Z.eqb_spec (count target c) 0) as [E|E].
    + exfalso. revert Hlt Hle. unfold addressable. destruct target; cbn [defaults]; rewrite E; lia.
    + rewrite get_listed by done. apply Z.eqb_neq in E as E'. rewrite E'. apply lookup_zlen; [lia|].
      rewrite (count_listed _ _ E) in Hlt. lia.
Qed.

(** ** Copies *)

(** What C reads: the bytes up to the first zero. *)
Fixpoint c_string (memory : list Z) : list Z :=
  match memory with
  | b :: memory => if b =? 0 then [] else b :: c_string memory
  | [] => []
  end.

Lemma c_string_nul s rest : 0 ∉ s -> c_string (s ++ 0 :: rest) = s.
Proof.
  induction s as [|b s IH]; [done|]. rewrite not_elem_of_cons. intros [Hb Hs]. cbn.
  destruct (Z.eqb_spec b 0); [done|]. by rewrite IH.
Qed.

Lemma copy_spec src memory dest_size :
  1 <= dest_size < 2 ^ 64 -> dest_size <= zlen memory ->
  let size := Z.to_nat (Z.min (zlen src) (dest_size - 1)) in
  exists memory' r, copy_and_truncate_string src (Some memory) dest_size = Val (Some memory', r) /\
    match r with
    | Ok _ => memory' = take size src ++ 0 :: drop (S size) memory /\ c_string memory' = take size src
    | Err e => memory' = memory /\
        (is_char_boundary src (Z.of_nat size) = false \/ 0 ∈ take size src) /\
        (0 ∉ src -> dest_size <= zlen src)
    end.
Proof.
  intros Hsize Hmem size. pose proof (zlen_nonneg src). unfold copy_and_truncate_string.
  rewrite u64_sub_small by lia. set (z := Z.min (zlen src) (dest_size - 1)). unfold get_prefix.
  assert (Hz : (0 <=? z) && (z <=? zlen src) = true) by lia. rewrite Hz. cbn [andb].
  assert (Es : Z.of_nat size = z) by (unfold size, z; lia).
  destruct (is_char_boundary src z) eqn:Eb.
  - unfold with_nul. fold z in size. change (Z.to_nat z) with size. case_bool_decide as Hnul.
    + eexists _, _. split; [reflexivity|]. cbn. split_and!; [done|by right|]. intros Hno. exfalso. apply Hno.
      by apply elem_of_take in Hnul as (i & Hi & _); eapply list_elem_of_lookup_2.
    + assert (Hlen : length (take size src ++ [0]) = S size).
      { rewrite length_app, length_take. unfold zlen in *. cbn. lia. }
      unfold write. assert (Hfit : (zlen (take size src ++ [0]) <=? zlen memory) = true) by (unfold zlen in *; lia).
      rewrite Hfit. eexists _, _. split; [reflexivity|]. cbn. rewrite Hlen, <-app_assoc. split; [done|].
      by apply c_string_nul.
  - eexists _, _. split; [reflexivity|]. cbn. split_and!; [done|left; by rewrite Es|].
    intros _. destruct (Z.le_gt_cases dest_size (zlen src)) as [|Hgt]; [done|]. exfalso.
    unfold is_char_boundary in Eb. assert (Ez : z = zlen src) by lia. rewrite Ez, Z.eqb_refl in Eb. discriminate.
Qed.

(** A name is copied within the memory of the caller: with room for [dest_size] bytes
    no byte behind them changes; the caller reads the name, or as much of it as fits before
    a zero; and if there is an error the memory is as before.  A name that fits and has no
    zero in it is read back unchanged. *)
Theorem names_are_copied_within_bounds src memory dest_size :
  1 <= dest_size < 2 ^ 64 -> dest_size <= zlen memory ->
  let size := Z.to_nat (Z.min (zlen src) (dest_size - 1)) in
  exists memory' r, copy_and_truncate_string src (Some memory) dest_size = Val (Some memory', r) /\
    match r with
    | Ok _ => memory' = take size src ++ 0 :: drop (S size) memory /\ c_string memory' = take size src
    | Err e => memory' = memory /\
        (is_char_boundary src (Z.of_nat size) = false \/ 0 ∈ take size src) /\
        (0 ∉ src -> dest_size <= zlen src)
    end.
Proof. apply copy_spec. Qed.

(** ** Character boundaries *)

Lemma boundary_cons b l p : 0 <= p -> is_char_boundary (b :: l) (p + 1) = is_char_boundary l p.
Proof.
  intros Hp. unfold is_char_boundary. rewrite zlen_cons.
  destruct (Z.eqb_spec (p + 1) (zlen l + 1)), (Z.eqb_spec p (zlen l)); try lia.
  replace (Z.to_nat (p + 1)) with (S (Z.to_nat p)) by lia. done.
Qed.

Lemma boundary_drop l pos p : 0 <= pos <= zlen l -> 0 <= p ->
  is_char_boundary (drop (Z.to_nat pos) l) p = is_char_boundary l (pos + p).
Proof.
  intros Hpos Hp. unfold is_char_boundary. unfold zlen in *. rewrite length_drop, lookup_drop.
  replace (Z.to_nat pos + Z.to_nat p)%nat with (Z.to_nat (pos + p)) by lia.
  destruct (Z.eqb_spec p (Z.of_nat (length l - Z.to_nat pos))), (Z.eqb_spec (pos + p) (Z.of_nat (length l))); try lia; done.
Qed.

Lemma boundary_not_continuation b l : is_continuation b = true -> is_char_boundary (b :: l) 0 = true -> False.
Proof.
  intros Hb. unfold is_char_boundary. rewrite zlen_cons. pose proof (zlen_nonneg l).
  destruct (Z.eqb_spec 0 (zlen l + 1)); [lia|]. change (negb (is_continuation b) = true -> False). by rewrite Hb.
Qed.

(** Continuation bytes in front of a text that is cut at a boundary belong to the part
    that is dropped. *)
Lemma second_is_continuation b0 b1 : second_byte b0 b1 = true -> is_continuation b1 = true.
Proof. unfold second_byte, is_continuation, in_range. repeat case_match; lia. Qed.

Lemma valid_utf8_drop n : forall l p, (length l < n)%nat -> valid_utf8 l = true -> 0 <= p <= zlen l ->
  is_char_boundary l p = true -> valid_utf8 (drop (Z.to_nat p) l) = true.
Proof.
  induction n as [|n IH]; [lia|]. intros l p Hn Hv Hp Hb.
  destruct (Z.eq_dec p 0) as [->|Hp0]; [done|].
  destruct l as [|b0 l]; [rewrite drop_nil; done|]. cbn [length] in Hn. rewrite zlen_cons in Hp.
  assert (Hcut : forall b l' q, 0 < q <= zlen (b :: l') -> is_char_boundary (b :: l') q = true ->
    drop (Z.to_nat q) (b :: l') = drop (Z.to_nat (q - 1)) l' /\ 0 <= q - 1 <= zlen l' /\ is_char_boundary l' (q - 1) = true).
  { intros b l' q Hq Hbq. rewrite zlen_cons in Hq. replace (Z.to_nat q) with (S (Z.to_nat (q - 1))) by lia.
    split; [done|]. split; [lia|]. rewrite <-(boundary_cons b) by lia. by replace (q - 1 + 1) with q by lia. }
  destruct (Hcut b0 l p ltac:(rewrite zlen_cons; lia) Hb) as (-> & Hp1 & Hb1). cbn [valid_utf8] in Hv.
  destruct (b0 <? 128); [apply IH; [lia|done|done|done]|].
  destruct l as [|b1 l]; [discriminate|]. cbn [length] in Hn.
  destruct (second_byte b0 b1) eqn:E1; cbn [negb] in Hv; [|discriminate].
  destruct (Z.eq_dec (p - 1) 0) as [E|E];
    [rewrite E in Hb1; destruct (boundary_not_continuation _ _ (second_is_continuation _ _ E1) Hb1)|].
  destruct (Hcut b1 l (p - 1) ltac:(lia) Hb1) as (-> & Hp2 & Hb2).
  destruct (in_range 0xC2 0xDF b0); [apply IH; [lia|done|done|done]|].
  destruct l as [|b2 l]; [discriminate|]. cbn [length] in Hn.
  destruct (is_continuation b2) eqn:E2; cbn [negb] in Hv; [|discriminate].
  destruct (Z.eq_dec (p - 1 - 1) 0) as [E'|E']; [rewrite E' in Hb2; destruct (boundary_not_continuation _ _ E2 Hb2)|].
  destruct (Hcut b2 l (p - 1 - 1) ltac:(lia) Hb2) as (-> & Hp3 & Hb3).
  destruct (in_range 0xE0 0xEF b0); [apply IH; [lia|done|done|done]|].
  destruct l as [|b3 l]; [discriminate|]. cbn [length] in Hn.
  apply andb_prop in Hv as [[E3 _]%andb_prop Hv].
  destruct (Z.eq_dec (p - 1 - 1 - 1) 0) as [E''|E'']; [rewrite E'' in Hb3; destruct (boundary_not_continuation _ _ E3 Hb3)|].
  destruct (Hcut b3 l (p - 1 - 1 - 1) ltac:(lia) Hb3) as (-> & Hp4 & Hb4). apply IH; [lia|done|done|done].
Qed.

(** ** Redaction *)

(** The matches of a regular expression in a text are within it, and do not cut a character. *)
Definition regex_ok (re : Regex) : Prop := forall h a b, valid_utf8 h = true -> re h = Some (a, b) ->
  0 <= a <= b /\ b <= zlen h /\ is_char_boundary h a = true /\ is_char_boundary h b = true.

(** A line in pieces: what is kept, and the gaps in between. *)
Inductive Piece : Type :=
| Gap (s : list Z)
| Kept (s : list Z).

Definition bytes_of (piece : Piece) : list Z := match piece with Gap s | Kept s => s end.

Fixpoint pieces (segments : list Regex) (text : list Z) : list Piece :=
  match segments with
  | [] => [Gap text]
  | re :: segments =>
    match re text with
    | None => [Gap text]
    | Some (a, b) =>
      Gap (take (Z.to_nat a) text) :: Kept (take (Z.to_nat (b - a)) (drop (Z.to_nat a) text))
        :: pieces segments (drop (Z.to_nat b) text)
    end
  end.

Definition redacted (debug : bool) (piece : Piece) : list Z :=
  match piece with
  | Gap s => redact_for_logging debug s
  | Kept s => s
  end.

Lemma redact_nil debug : redact_for_logging debug [] = [].
Proof. by destruct debug. Qed.

Lemma slice_ok text a b : 0 <= a <= b -> b <= zlen text -> is_char_boundary text a = true -> is_char_boundary text b = true ->
  slice text a b = Val (take (Z.to_nat (b - a)) (drop (Z.to_nat a) text)).
Proof.
  intros Hab Hb Ha' Hb'. unfold slice. rewrite Ha', Hb'.
  by assert ((0 <=? a) && (a <=? b) && (b <=? zlen text) = true) as -> by lia.
Qed.

Lemma boundary_end text : is_char_boundary text (zlen text) = true.
Proof. unfold is_char_boundary. by rewrite Z.eqb_refl. Qed.

(** The loop gives the pieces, redacted. *)
Lemma redact_segments_spec debug segments : Forall regex_ok segments -> forall text pos result,
  valid_utf8 text = true -> 0 <= pos <= zlen text -> is_char_boundary text pos = true ->
  redact_segments debug segments text pos result =
    Val (result ++ concat (redacted debug <$> pieces segments (drop (Z.to_nat pos) text))).
Proof.
  intros Hall. induction Hall as [|re segments Hre _ IH]; intros text pos result Hv Hpos Hb.
  all: assert (Hrest : (if pos =? zlen text then Val result
         else tail ← slice text pos (zlen text); Val (result ++ redact_for_logging debug tail)) =
         Val (result ++ redact_for_logging debug (drop (Z.to_nat pos) text))).
  1, 3: destruct (Z.eqb_spec pos (zlen text)) as [->|Hne];
    [unfold zlen; rewrite Nat2Z.id, drop_all, redact_nil, app_nil_r; done|];
    rewrite slice_ok by (done || lia || apply boundary_end); cbn; do 3 f_equal; apply take_ge; rewrite length_drop; unfold zlen; lia.
  - cbn [redact_segments pieces fmap list_fmap concat redacted]. rewrite Hrest, app_nil_r. done.
  - cbn [redact_segments pieces]. set (h := drop (Z.to_nat pos) text) in *.
    assert (Hvh : valid_utf8 h = true) by (eapply (valid_utf8_drop (S (length text))); [lia|done..]).
    destruct (re h) as [[a b]|] eqn:Ere; [|rewrite Hrest; cbn; by rewrite app_nil_r].
    destruct (Hre h a b Hvh Ere) as (Hab & Hbl & Hba & Hbb).
    assert (Hlen : zlen h = zlen text - pos) by (unfold h, zlen in *; rewrite length_drop; lia).
    unfold h in Hba, Hbb. rewrite boundary_drop in Hba, Hbb by lia. rewrite (Z.add_comm a), (Z.add_comm b).
    assert (Hgap : (if pos + a =? pos then Val result
      else gap ← slice text pos (pos + a); Val (result ++ redact_for_logging debug gap)) =
      Val (result ++ redact_for_logging debug (take (Z.to_nat a) h))).
    { destruct (Z.eqb_spec (pos + a) pos) as [E|E].
      - assert (a = 0) as -> by lia. rewrite take_0, redact_nil, app_nil_r. done.
      - rewrite slice_ok by (done || lia). by replace (pos + a - pos) with a by lia. }
    rewrite Hgap. unfold mbind, outcome_bind. rewrite slice_ok by (done || lia).
    rewrite IH by (done || lia). cbn [fmap list_fmap concat redacted]. f_equal.
    unfold h. rewrite !drop_drop. rewrite <-!app_assoc. do 2 f_equal.
    replace (pos + b - (pos + a)) with (b - a) by lia.
    replace (Z.to_nat pos + Z.to_nat a)%nat with (Z.to_nat (pos + a)) by lia.
    by replace (Z.to_nat pos + Z.to_nat b)%nat with (Z.to_nat (pos + b)) by lia.
Qed.

(** The last [n] bytes. *)
Definition last_bytes (n : nat) (s : list Z) : list Z := drop (length s - n) s.

(** Two names that a log line does not tell apart: long enough, of the same kind, with the
    same ends or the same first character. *)
Definition alike (s1 s2 : list Z) : Prop :=
  s1 = s2 \/
  (is_ascii s1 = true /\ is_ascii s2 = true /\ 4 < zlen s1 /\ 4 < zlen s2 /\
   take 2 s1 = take 2 s2 /\ last_bytes 2 s1 = last_bytes 2 s2) \/
  (is_ascii s1 = false /\ is_ascii s2 = false /\ 1 < char_count s1 /\ 1 < char_count s2 /\
   first_char_bytes s1 = first_char_bytes s2).

Definition pieces_alike (p1 p2 : Piece) : Prop :=
  match p1, p2 with
  | Gap s1, Gap s2 => alike s1 s2
  | Kept s1, Kept s2 => s1 = s2
  | _, _ => False
  end.

Lemma last_two s : 4 < zlen s -> drop (Z.to_nat (zlen s - 4)) (drop 2 s) = last_bytes 2 s.
Proof. intros Hs. rewrite drop_drop. unfold last_bytes, zlen in *. f_equal. lia. Qed.

Lemma alike_redacted s1 s2 : alike s1 s2 -> redact_for_logging false s1 = redact_for_logging false s2.
Proof.
  unfold redact_for_logging.
  intros [->|[(H1 & H2 & L1 & L2 & Ht & Hl)|(H1 & H2 & C1 & C2 & Hf)]]; [done|..]; rewrite H1, H2.
  - destruct (Z.leb_spec (zlen s1) 4), (Z.leb_spec (zlen s2) 4); try lia. by rewrite Ht, !last_two, Hl.
  - destruct (Z.leb_spec (char_count s1) 1), (Z.leb_spec (char_count s2) 1); try lia. by rewrite Hf.
Qed.

Lemma pieces_cover segments text : Forall regex_ok segments -> valid_utf8 text = true ->
  concat (bytes_of <$> pieces segments text) = text.
Proof.
  intros Hall. revert text. induction Hall as [|re segments Hre _ IH]; intros text Hv; cbn [pieces]; [cbn; by rewrite app_nil_r|].
  destruct (re text) as [[a b]|] eqn:E; [|cbn; by rewrite app_nil_r]. destruct (Hre _ _ _ Hv E) as (Hab & Hb & Ha' & Hb').
  rewrite !fmap_cons. cbn [concat bytes_of]. rewrite IH by (by apply (valid_utf8_drop (S (length text))); [lia| |lia|]).
  rewrite <-(take_drop (Z.to_nat a) text) at 4. f_equal.
  rewrite <-(take_drop (Z.to_nat (b - a)) (drop (Z.to_nat a) text)) at 2. f_equal. rewrite drop_drop. f_equal. lia.
Qed.

(** What a redacted log line tells of the names in it: a line falls into the segments
    that are kept and the gaps between them, which make up the line; redaction does not
    panic; and two lines with the same segments whose gaps are alike, that is of more than
    four characters with the same first two and last two ones, are redacted to the same
    line.  Not even the length of a name can be seen. *)
Theorem redaction_hides_names spec text1 text2 :
  Forall regex_ok (segments_to_keep spec) ->
  valid_utf8 text1 = true -> valid_utf8 text2 = true ->
  applies spec text1 = true -> applies spec text2 = true ->
  Forall2 pieces_alike (pieces (segments_to_keep spec) text1) (pieces (segments_to_keep spec) text2) ->
  concat (bytes_of <$> pieces (segments_to_keep spec) text1) = text1 /\
  exists line, redact_if_matching false spec text1 = Val line /\ redact_if_matching false spec text2 = Val line.
Proof.
  intros Hre Hv1 Hv2 Ha1 Ha2 Hal. split; [by apply pieces_cover|]. unfold redact_if_matching. rewrite Ha1, Ha2.
  assert (Hb : forall text, valid_utf8 text = true -> is_char_boundary text 0 = true).
  { intros [|b text] Hv; [done|]. unfold is_char_boundary. rewrite zlen_cons. pose proof (zlen_nonneg text).
    destruct (Z.eqb_spec 0 (zlen text + 1)); [lia|]. change (negb (is_continuation b) = true).
    by rewrite (valid_utf8_head _ _ Hv). }
  pose proof (zlen_nonneg text1). pose proof (zlen_nonneg text2).
  rewrite !redact_segments_spec by (try apply Hb; done || lia). change (Z.to_nat 0) with O. rewrite !drop_0.
  eexists. split; [reflexivity|]. do 3 f_equal.
  symmetry. induction Hal as [|p1 p2 l1 l2 Hp _ IH]; [done|]. rewrite !fmap_cons, IH. f_equal.
  destruct p1, p2; cbn in Hp; try contradiction; [exact (alike_redacted _ _ Hp)|by subst].
Qed.

(** ** On concrete inputs *)

Definition search (pattern : list Z) : Regex := fun h =>
  (fun i => (Z.of_nat i, Z.of_nat i + zlen pattern)) <$>
  List.find (fun i => bool_decide (take (length pattern) (drop i h) = pattern)) (seq 0 (S (length h))).

(** The specification for [Found matching device for ...: ...]. *)
Definition matching_device : RedactionSpec :=
  mkSpec (LiteralPrefix (as_bytes "Found matching device for "))
    [search (as_bytes "Found matching device for "); search (as_bytes ": ")].

Example redaction_of_a_line :
  redact_if_matching false matching_device (as_bytes "Found matching device for Friendly Name: Other Friendly Name") =
  Val (as_bytes "Found matching device for Fr...me: Ot...me").
Proof. vm_compute. reflexivity. Qed.

(** A message as it is logged, and one that lists devices, which is not. *)
Example messages_of_cubeb :
  (log_c_str false false (search (as_bytes "cubeb.c:12")) [matching_device] (as_bytes "cubeb.c:12Found matching device for Friendly Name: Other"),
   log_c_str false false (search (as_bytes "cubeb.c:12")) [matching_device] (as_bytes "cubeb.c:12 DeviceID: 1 Name: Mic")) =
  (Val (Some (as_bytes "cubeb: cubeb.c:12Found matching device for Fr...me: Ot...er")), Val None).
Proof. vm_compute. reflexivity. Qed.

Lemma search_ok pattern : valid_utf8 pattern = true -> Forall (fun b => b < 128) pattern -> pattern <> [] -> regex_ok (search pattern).
Proof.
  intros Hp Hascii Hne h a b Hv. unfold search. destruct (List.find _ _) as [i|] eqn:E; [|discriminate]. cbn. intros [= <- <-].
  apply List.find_some in E as [Hin%List.in_seq Heq%bool_decide_eq_true].
  assert (Hlen : (i + length pattern <= length h)%nat).
  { apply (f_equal length) in Heq. rewrite length_take, length_drop in Heq. lia. }
  assert (Hdrop : drop i h = pattern ++ drop (i + length pattern) h).
  { rewrite <-(take_drop (length pattern) (drop i h)), Heq, drop_drop. done. }
  destruct pattern as [|c pattern]; [done|]. apply Forall_cons in Hascii as [Hc Hascii].
  assert (Hi : h !! i = Some c).
  { rewrite <-(Nat.add_0_r i), <-lookup_drop, Hdrop. done. }
  assert (Hbi : is_char_boundary h (Z.of_nat i) = true).
  { unfold is_char_boundary. rewrite Nat2Z.id, Hi. destruct (_ =? _); [done|]. unfold is_continuation. lia. }
  split_and!; [lia|unfold zlen; lia|unfold zlen in *; lia|done|].
  assert (Hvi : valid_utf8 (drop i h) = true).
  { rewrite <-(Nat2Z.id i). apply (valid_utf8_drop (S (length h))); [lia|done|unfold zlen; lia|done]. }
  rewrite Hdrop in Hvi. set (rest := drop (i + length (c :: pattern)) h) in Hvi, Hdrop.
  assert (Hr : valid_utf8 rest = true).
  { clear -Hvi Hc Hascii. assert (Hall : Forall (fun b => b < 128) (c :: pattern)) by (by constructor).
    revert Hvi. generalize rest. clear -Hall. intros r. induction Hall as [|x l Hx _ IH]; [done|]. cbn [app]. rewrite valid_utf8_ascii by done. apply IH. }
  unfold is_char_boundary. destruct (Z.eqb_spec (Z.of_nat i + zlen (c :: pattern)) (zlen h)) as [|Hend]; [done|].
  replace (Z.to_nat (Z.of_nat i + zlen (c :: pattern))) with (i + length (c :: pattern) + 0)%nat by (unfold zlen; lia).
  rewrite <-lookup_drop. fold rest. destruct rest as [|x rest0] eqn:Er.
  - exfalso. apply Hend. apply (f_equal length) in Hdrop. rewrite app_nil_r, length_drop in Hdrop. unfold zlen. lia.
  - cbn. by rewrite (valid_utf8_head _ _ Hr).
Qed.

Lemma matching_device_ok : Forall regex_ok (segments_to_keep matching_device).
Proof.
  repeat apply List.Forall_cons; try apply List.Forall_nil; apply search_ok; try (vm_compute; reflexivity); try done.
  all: repeat constructor; vm_compute; reflexivity.
Qed.

Lemma redaction_hides_names_witness :
  exists line,
    redact_if_matching false matching_device (as_bytes "Found matching device for Friendly Name: Other Friendly Name") = Val line /\
    redact_if_matching false matching_device (as_bytes "Found matching device for Frozen home: Otters in some") = Val line.
Proof.
  apply (redaction_hides_names matching_device
    (as_bytes "Found matching device for Friendly Name: Other Friendly Name")
    (as_bytes "Found matching device for Frozen home: Otters in some") matching_device_ok).
  1, 2, 3, 4: vm_compute; reflexivity.
  vm_compute. repeat apply List.Forall2_cons; try apply List.Forall2_nil.
  all: first [reflexivity | left; reflexivity | right; left; split_and!; reflexivity].
Defined.

Lemma names_are_copied_within_bounds_witness :
  exists memory' r, copy_and_truncate_string (as_bytes "USB mic") (Some (replicate 10 170)) 5 = Val (Some memory', r) /\
    memory' = [85; 83; 66; 32; 0; 170; 170; 170; 170; 170].
Proof.
  destruct (names_are_copied_within_bounds (as_bytes "USB mic") (replicate 10 170) 5) as (memory' & r & E & Hr); [lia|vm_compute; discriminate|].
  exists memory', r. split; [exact E|]. vm_compute in E. injection E as <- <-. reflexivity.
Defined.

(** Four bytes of room cut the second character of this name in two: it is not copied at
    all, not even in part. *)
Example cut_characters_are_an_error :
  copy_and_truncate_string [65; 227; 129; 130; 66; 67] (Some (replicate 10 170)) 4 = Val (Some (replicate 10 170), Err NoSubstring).
Proof. reflexivity. Qed.

Lemma indices_select_what_is_shown_witness :
  extract_names Linux [mkMinimal 7 (Some "mic"%string) "Mic" TYPE_INPUT 0 StateEnabled;
                       mkMinimal 8 (Some "out.monitor"%string) "Monitor" TYPE_INPUT PREF_VOICE StateEnabled] !! 1%nat =
  Some (Some (mkAudioDevice "Mic" "mic" "")).
Proof.
  destruct (indices_select_what_is_shown Linux
    [mkMinimal 7 (Some "mic"%string) "Mic" TYPE_INPUT 0 StateEnabled;
     mkMinimal 8 (Some "out.monitor"%string) "Monitor" TYPE_INPUT PREF_VOICE StateEnabled] 1 ltac:(lia)) as (E & _ & _).
  change (Z.to_nat 1) with 1%nat in E. rewrite E.
  vm_compute. reflexivity.
Defined.

End AudioNames.
