(* ===== verification/AudioStreams.v ===== *)
(** * The samples of audio streams (src/rust/src/webrtc/audio_device_module.rs)

    The data callbacks that cubeb calls for its output and input streams.  WebRTC gives and
    takes samples in windows of ten milliseconds, cubeb in any number; the callbacks keep the
    difference in a buffer.  What WebRTC answers is a parameter. *)

From S2P Require Import Prelude.
Local Open Scope Z_scope.
Local Open Scope ringrtc_scope.

Module AudioStreams.

Definition SAMPLE_FREQUENCY : Z := 48000.
Definition SAMPLE_LATENCY : Z := SAMPLE_FREQUENCY / 100.
Definition WEBRTC_WINDOW : Z := SAMPLE_FREQUENCY / 100.
Definition NUM_CHANNELS : Z := 1.

(** [StereoFrame<i16>] *)
Record OutFrame : Type := mkFrame { l : Z; r : Z }.

Definition mono (data : Z) : OutFrame := mkFrame data data.

(** ** Playout *)

(** What [Rust_needMorePlayData] does: its result, the samples it writes to the memory it is
    given, and the values it stores behind the pointers. *)
Record Reply : Type := mkReply {
  reply_ret : Z;
  reply_samples : list Z;
  reply_samples_out : Z;
  reply_elapsed_time_ms : Z;
  reply_ntp_time_ms : Z;
}.

Record PlayData : Type := mkPlayData {
  success : Z;
  data : list Z;
  elapsed_time : option Z;
  ntp_time : option Z;
}.

(** [i64::try_into::<u64>().ok()] *)
Definition to_u64 (z : Z) : option Z := if 0 <=? z then Some z else None.

(** Memory of [length memory] samples after its beginning was written. *)
Definition overwrite (memory samples : list Z) : list Z :=
  take (length memory) samples ++ drop (length samples) memory.

Definition need_more_play_data (reply : Reply) (samples : Z) : PlayData :=
  let data := overwrite (replicate (Z.to_nat samples) 0) (reply_samples reply) in
  let samples_out := if reply_ret reply =? 0 then reply_samples_out reply else 0 in
  mkPlayData (reply_ret reply) (take (Z.to_nat samples_out) data)
    (to_u64 (reply_elapsed_time_ms reply)) (to_u64 (reply_ntp_time_ms reply)).

(** The memory of a playout callback: the buffer it keeps from call to call, and how often
    WebRTC was asked. *)
Record Playout : Type := mkPlayout {
  buffer : list Z;
  asked : nat;
}.

Section Playout.
Context (webrtc : nat -> Reply).

(** [while let Some(data) = buffer.pop_front()]: the output, how much of it is written, the
    buffer, and whether the callback returns. *)
Fixpoint copy_leftover (buffer : list Z) (output : list OutFrame) (written : nat)
  : list OutFrame * nat * list Z * bool :=
  match buffer with
  | [] => (output, written, [], false)
  | data :: buffer =>
    let output := <[written := mono data]> output in
    let written := S written in
    if (length output <=? written)%nat then (output, written, buffer, true)
    else copy_leftover buffer output written
  end.

(** [for data in play_data.data.iter()] *)
Fixpoint distribute (samples : list Z) (output : list OutFrame) (written : nat) (buffer : list Z)
  : list OutFrame * nat * list Z :=
  match samples with
  | [] => (output, written, buffer)
  | data :: samples =>
    if (written <? length output)%nat then distribute samples (<[written := mono data]> output) (S written) buffer
    else distribute samples output written (buffer ++ [data])
  end.

(** [while written < output.len()], in at most [fuel] rounds; [None] if they are not enough. *)
Fixpoint request_more (fuel : nat) (output : list OutFrame) (written : nat) (s : Playout)
  : option (Z * list OutFrame * Playout) :=
  if (written <? length output)%nat then
    match fuel with
    | O => None
    | S fuel =>
      let play_data := need_more_play_data (webrtc (asked s)) WEBRTC_WINDOW in
      let s := mkPlayout (buffer s) (S (asked s)) in
      if success play_data <? 0 then Some (success play_data, output, s)
      else if WEBRTC_WINDOW <? zlen (data play_data) then Some (-1, output, s)
      else match data play_data with
      | [] => Some (Z.of_nat written, output, s)
      | _ =>
        let '(output, written, buffer) := distribute (data play_data) output written (buffer s) in
        request_more fuel output written (mkPlayout buffer (asked s))
      end
    end
  else Some (Z.of_nat written, output, s).

(** The [data_callback] of [init_playout]: what it returns, the output and its memory.  Each
    round writes a frame, so the length of the output bounds the rounds. *)
Definition playout_callback (s : Playout) (output : list OutFrame) : option (Z * list OutFrame * Playout) :=
  match output with
  | [] => Some (0, output, s)
  | _ =>
    let '(output, written, rest, full) := copy_leftover (buffer s) output 0 in
    let s := mkPlayout rest (asked s) in
    if full then Some (zlen output, output, s) else request_more (length output) output written s
  end.

(** A stream that plays: the callbacks for outputs of the given sizes, each filled with
    silence before, until one returns an error. *)
Fixpoint play (s : Playout) (outputs : list nat) : option (list OutFrame * Playout) :=
  match outputs with
  | [] => Some ([], s)
  | n :: outputs =>
    match playout_callback s (replicate n (mono 0)) with
    | None => None
    | Some (res, output, s) =>
      if res <? 0 then Some ([], s)
      else match play s outputs with
           | None => None
           | Some (rest, s) => Some (take (Z.to_nat res) output ++ rest, s)
           end
    end
  end.

End Playout.

(** ** Recording *)

(** [slice::chunks] *)
Fixpoint chunks_of (fuel size : nat) (data : list Z) : list (list Z) :=
  match fuel, data with
  | S fuel, _ :: _ => take size data :: chunks_of fuel size (drop size data)
  | _, _ => []
  end.
Definition chunks (size : nat) (data : list Z) : list (list Z) := chunks_of (length data) size data.

(** The memory of a recording callback: the buffer, and the windows that WebRTC was given. *)
Record Recording : Type := mkRecording {
  rest : list Z;
  reported : list (list Z);
}.

Section Recording.
(** What [Rust_recordedDataIsAvailable] returns for the window it is given as the [n]-th. *)
Context (webrtc : nat -> list Z -> Z).

Definition recorded_data_is_available (s : Recording) (samples : list Z) : Z * Recording :=
  (webrtc (length (reported s)) samples, mkRecording (rest s) (reported s ++ [samples])).

(** [for chunk in input_chunks]: the error, if there is one. *)
Fixpoint report (windows : list (list Z)) (s : Recording) : option Z * Recording :=
  match windows with
  | [] => (None, s)
  | chunk :: windows =>
    if zlen chunk <? WEBRTC_WINDOW then (None, mkRecording (rest s ++ chunk) (reported s))
    else
      let '(ret, s) := recorded_data_is_available s chunk in
      if ret <? 0 then (Some ret, s) else report windows s
  end.

(** The [data_callback] of [init_recording]. *)
Definition recording_callback (send_to_webrtc : bool) (input : list Z) (s : Recording) : Z * Recording :=
  if negb send_to_webrtc then (zlen input, s)
  else
    let data := rest s ++ input in
    let '(e, s) := report (chunks (Z.to_nat WEBRTC_WINDOW) data) (mkRecording [] (reported s)) in
    match e with
    | Some ret => (ret, s)
    | None => (zlen input, s)
    end.

(** A stream that records: the inputs of the callbacks, each with what [send_to_webrtc] is
    then, until one returns an error. *)
Fixpoint record (s : Recording) (inputs : list (bool * list Z)) : Z * Recording :=
  match inputs with
  | [] => (0, s)
  | (send_to_webrtc, input) :: inputs =>
    let '(res, s) := recording_callback send_to_webrtc input s in
    if res <? 0 then (res, s) else record s inputs
  end.

End Recording.

(** ** What the callbacks promise *)

(** *** Playout *)

Section PlayoutFacts.
Context (webrtc : nat -> Reply).

Definition window (n : nat) : list Z := data (need_more_play_data (webrtc n) WEBRTC_WINDOW).

(** All samples that WebRTC gave in answer to the requests from the [n]-th on. *)
Definition given (n k : nat) : list Z := concat (window <$> seq n k).

Lemma given_S n k : given n (S k) = window n ++ given (S n) k.
Proof. done. Qed.

Lemma given_add n k j : given n (k + j) = given n k ++ given (n + k) j.
Proof. unfold given. by rewrite seq_app, fmap_app, concat_app. Qed.

Lemma length_overwrite (memory samples : list Z) : length (overwrite memory samples) = length memory.
Proof. unfold overwrite. rewrite length_app, length_take, length_drop. lia. Qed.

Lemma window_bound n : (length (window n) <= 480)%nat.
Proof.
  unfold window, need_more_play_data. cbn [data]. rewrite length_take, length_overwrite, length_replicate. apply Nat.le_min_r.
Qed.

(** The frames written so far carry these samples. *)
Definition carries (output : list OutFrame) (written : nat) (samples : list Z) : Prop :=
  take written output = mono <$> samples.

Lemma carries_snoc (output : list OutFrame) (written : nat) samples x :
  (written < length output)%nat -> carries output written samples ->
  carries (<[written := mono x]> output) (S written) (samples ++ [x]).
Proof.
  unfold carries. intros Hw Hc. rewrite (take_S_r _ _ (mono x)) by by apply list_lookup_insert_eq.
  rewrite take_insert_ge, Hc by lia. by rewrite fmap_app.
Qed.

Lemma copy_leftover_spec b (output : list OutFrame) (written : nat) samples :
  (written < length output)%nat -> carries output written samples ->
  match copy_leftover b output written with
  | (output', written', b', full) =>
    length output' = length output /\ (length b' <= length b)%nat /\
    (exists more, carries output' written' (samples ++ more) /\ b = more ++ b' /\ written' = (written + length more)%nat) /\
    (if full then written' = length output else b' = [] /\ (written' < length output)%nat)
  end.
Proof.
  revert output written samples. induction b as [|x b IH]; intros output written samples Hw Hc; cbn [copy_leftover].
  - split_and!; [done|done| |done|done]. exists []. rewrite app_nil_r. cbn. split_and!; [done|done|lia].
  - pose proof (carries_snoc _ _ _ x Hw Hc) as Hc'. rewrite length_insert.
    destruct (Nat.leb_spec (length output) (S written)) as [Hf|Hf].
    + rewrite length_insert. split_and!; [done|cbn; lia| |lia]. exists [x]. split_and!; [done|done|cbn; lia].
    + specialize (IH (<[written := mono x]> output) (S written) (samples ++ [x])).
      rewrite length_insert in IH. specialize (IH Hf Hc').
      destruct (copy_leftover b _ _) as [[[output' written'] b'] full].
      destruct IH as (Hl & Hb & (more & Hm & -> & ->) & Hfull). split_and!; [done|cbn; lia| |done].
      exists (x :: more). rewrite <-app_assoc in Hm. split_and!; [done|done|cbn; lia].
Qed.

Lemma distribute_spec w (output : list OutFrame) (written : nat) b samples :
  carries output written samples -> (written <= length output)%nat ->
  match distribute w output written b with
  | (output', written', b') =>
    length output' = length output /\
    exists more extra, w = more ++ extra /\ carries output' written' (samples ++ more) /\ b' = b ++ extra /\
      written' = (written + length more)%nat /\ (written' <= length output)%nat /\ (extra <> [] -> written' = length output)
  end.
Proof.
  revert output written b samples. induction w as [|x w IH]; intros output written b samples Hc Hw; cbn [distribute].
  - split; [done|]. exists [], []. rewrite !app_nil_r. cbn. split_and!; try done; lia.
  - destruct (Nat.ltb_spec written (length output)) as [Hlt|Hge].
    + specialize (IH (<[written := mono x]> output) (S written) b (samples ++ [x]) (carries_snoc _ _ _ x Hlt Hc)).
      rewrite length_insert in IH. specialize (IH ltac:(lia)).
      destruct (distribute w _ _ _) as [[output' written'] b'].
      destruct IH as (Hl & more & extra & -> & Hm & -> & -> & Hle & Hx). split; [done|].
      exists (x :: more), extra. rewrite <-app_assoc in Hm. split_and!; try done; cbn; lia.
    + specialize (IH output written (b ++ [x]) samples Hc Hw).
      destruct (distribute w _ _ _) as [[output' written'] b'].
      destruct IH as (Hl & more & extra & -> & Hm & -> & -> & Hle & Hx). split; [done|].
      assert (length more = 0%nat) as Hm0 by lia. apply length_zero_iff_nil in Hm0 as ->. cbn in *.
      exists [], (x :: extra). rewrite <-app_assoc. split_and!; try done; cbn; lia.
Qed.

(** What a call of the loop, or of the callback, leads to from [s]: everything that was
    carried before and that WebRTC gave is in the output or in the buffer. *)
Definition conveyed (samples : list Z) (size : nat) (s : Playout) (res : Z) (output' : list OutFrame) (s' : Playout) : Prop :=
  length output' = size /\ exists k : nat, asked s' = (asked s + k)%nat /\
  if 0 <=? res then
    exists samples', carries output' (Z.to_nat res) samples' /\
      samples' ++ buffer s' = samples ++ buffer s ++ given (asked s) k /\
      zlen (buffer s') < WEBRTC_WINDOW /\ length samples' = Z.to_nat res /\
      (res = Z.of_nat size \/ (0 <= res < Z.of_nat size /\ buffer s' = [] /\ (0 < k)%nat /\ window (pred (asked s')) = []))
  else (0 < k)%nat /\ reply_ret (webrtc (pred (asked s'))) = res.

Lemma length_carried (output : list OutFrame) (written : nat) samples :
  carries output written samples -> (written <= length output)%nat -> length samples = written.
Proof. unfold carries. intros Hc Hw. apply (f_equal length) in Hc. rewrite length_take, length_fmap in Hc. lia. Qed.

Lemma request_more_spec fuel (output : list OutFrame) (written : nat) s samples :
  carries output written samples -> (written <= length output)%nat -> (length output <= written + fuel)%nat ->
  zlen (buffer s) < WEBRTC_WINDOW -> (buffer s <> [] -> written = length output) ->
  exists res output' s', request_more webrtc fuel output written s = Some (res, output', s') /\
    conveyed samples (length output) s res output' s'.
Proof.
  revert output written s samples.
  induction fuel as [|fuel IH]; intros output written s samples Hc Hw Hf Hb Hfull; cbn [request_more];
    destruct (Nat.ltb_spec written (length output)) as [Hlt|Hge]; try lia.
  1, 3: exists (Z.of_nat written), output, s; split; [done|]; split; [done|]; exists 0%nat; split; [lia|];
    rewrite (proj2 (Z.leb_le 0 (Z.of_nat written))) by lia; rewrite Nat2Z.id; exists samples;
    cbn; rewrite app_nil_r; split_and!; try done; [by eapply length_carried|lia].
  assert (Hnil : buffer s = []) by (destruct (buffer s) as [|x b]; [done|]; specialize (Hfull ltac:(done)); lia).
  change (data (need_more_play_data (webrtc (asked s)) WEBRTC_WINDOW)) with (window (asked s)).
  change (success (need_more_play_data (webrtc (asked s)) WEBRTC_WINDOW)) with (reply_ret (webrtc (asked s))).
  pose proof (window_bound (asked s)) as Hwb.
  destruct (Z.ltb_spec (reply_ret (webrtc (asked s))) 0) as [Hneg|Hpos].
  { eexists _, _, _. split; [done|]. split; [done|]. exists 1%nat. cbn [asked]. split; [lia|].
    rewrite (proj2 (Z.leb_gt 0 _)) by lia. by split; [lia|]. }
  destruct (Z.ltb_spec WEBRTC_WINDOW (zlen (window (asked s)))) as [Hbig|_]; [change WEBRTC_WINDOW with 480 in Hbig; unfold zlen in Hbig; lia|].
  destruct (window (asked s)) as [|x w] eqn:Ew.
  { eexists _, _, _. split; [done|]. split; [done|]. exists 1%nat. cbn [asked buffer]. split; [lia|].
    rewrite (proj2 (Z.leb_le 0 (Z.of_nat written))) by lia. rewrite Nat2Z.id. exists samples.
    rewrite given_S, Ew, Hnil. cbn. split_and!; try done; [by eapply length_carried|]. right. split_and!; try done; lia. }
  pose proof (distribute_spec (x :: w) output written (buffer s) samples Hc Hw) as Hd. cbn [buffer].
  destruct (distribute (x :: w) output written (buffer s)) as [[output1 written1] b1].
  destruct Hd as (Hl1 & more & extra & Hsplit & Hc1 & -> & -> & Hle & Hx). rewrite Hnil. cbn [app].
  assert (Hmore : (0 < length more)%nat).
  { destruct more; [|cbn; lia]. cbn in *. assert (extra <> []) as He by (by rewrite <-Hsplit). specialize (Hx He). lia. }
  destruct (IH output1 (written + length more)%nat (mkPlayout extra (S (asked s))) (samples ++ more) Hc1)
    as (res & output' & s' & E & Hl & k & Ha & Hres); cbn [buffer asked] in *.
  - lia.
  - lia.
  - rewrite Hsplit, length_app in Hwb. change WEBRTC_WINDOW with 480. unfold zlen. lia.
  - rewrite Hl1. done.
  - exists res, output', s'. split; [done|]. split; [lia|]. exists (S k). split; [lia|].
    destruct (0 <=? res).
    + destruct Hres as (samples' & Hc' & Heq & Hb' & Hlen & Hend). exists samples'. split_and!; try done.
      * rewrite Heq, given_S, Ew, Hsplit, <-!app_assoc. by rewrite Hnil.
      * rewrite Hl1 in Hend. destruct Hend as [?|(? & ? & ? & ?)]; [by left|right]. split_and!; try done; lia.
    + destruct Hres as [_ Hres]. by split; [lia|].
Qed.

Lemma playout_callback_spec s (output : list OutFrame) :
  zlen (buffer s) < WEBRTC_WINDOW ->
  exists res output' s', playout_callback webrtc s output = Some (res, output', s') /\
    conveyed [] (length output) s res output' s'.
Proof.
  intros Hb. unfold playout_callback. destruct output as [|f output0] eqn:Eo; [|rewrite <-Eo].
  { eexists _, _, _. split; [done|]. split; [done|]. exists 0%nat. split; [lia|]. exists []. cbn.
    rewrite app_nil_r. split_and!; [done..|by left]. }
  assert (Hlen : (0 < length output)%nat) by (subst; cbn; lia). clear f output0 Eo.
  pose proof (copy_leftover_spec (buffer s) output 0 [] Hlen eq_refl) as Hcl.
  destruct (copy_leftover (buffer s) output 0) as [[[output1 written] b1] full].
  destruct Hcl as (Hl1 & Hb1 & (more & Hc & Hsplit & Hwr) & Hfull). cbn in Hc, Hwr. destruct full.
  - eexists _, _, _. split; [done|]. split; [done|]. exists 0%nat. cbn [asked buffer]. split; [lia|].
    rewrite (proj2 (Z.leb_le 0 (zlen output1))) by apply zlen_nonneg. exists more. unfold zlen in *.
    rewrite Nat2Z.id. subst written. cbn. rewrite app_nil_r, Hl1. rewrite <-Hfull.
    split_and!; [done|done|lia|done|left; lia].
  - destruct Hfull as [-> Hlt]. rewrite app_nil_r in Hsplit. subst more.
    destruct (request_more_spec (length output1) output1 written (mkPlayout [] (asked s)) (buffer s) Hc)
      as (res & output' & s' & E & Hl & k & Ha & Hres); cbn [asked buffer] in *; [lia|lia|done|done|].
    exists res, output', s'. split; [done|]. split; [lia|]. exists k. split; [done|].
    rewrite Hl1 in Hres. destruct (0 <=? res); [|done]. by destruct Hres as (samples' & Hres); exists samples'.
Qed.

Lemma play_spec s outputs :
  zlen (buffer s) < WEBRTC_WINDOW ->
  exists samples s' k lost, play webrtc s outputs = Some (mono <$> samples, s') /\ asked s' = (asked s + k)%nat /\
    samples ++ lost = buffer s ++ given (asked s) k /\
    ((lost = buffer s' /\ zlen (buffer s') < WEBRTC_WINDOW) \/ reply_ret (webrtc (pred (asked s'))) < 0) /\
    ((forall n, reply_ret (webrtc n) = 0 /\ window n <> []) -> length samples = sum_list outputs).
Proof.
  revert s. induction outputs as [|n outputs IH]; intros s Hb; cbn [play].
  { exists [], s, 0%nat, (buffer s). split_and!; [done|lia|cbn; by rewrite app_nil_r|by left|done]. }
  destruct (playout_callback_spec s (replicate n (mono 0)) Hb) as (res & output & s1 & E & Hl & k & Ha & Hres).
  rewrite E. rewrite length_replicate in Hl, Hres. destruct (Z.leb_spec 0 res) as [Hpos|Hneg].
  - rewrite (proj2 (Z.ltb_ge res 0)) by lia. destruct Hres as (samples & Hc & Heq & Hb1 & Hlen & Hend).
    destruct (IH s1 Hb1) as (more & s' & j & lost & -> & Ha' & Heq' & Hlost & Hall).
    exists (samples ++ more), s', (k + j)%nat, lost. split_and!; [|lia| |done|].
    + by rewrite fmap_app, Hc.
    + rewrite <-app_assoc, Heq', Ha, given_add, !app_assoc. by rewrite Heq.
    + intros Hgood. change (sum_list (n :: outputs)) with (n + sum_list outputs)%nat. rewrite length_app, Hall by done.
      destruct Hend as [->|(_ & _ & _ & Hw)]; [lia|]. exfalso. by apply (Hgood (pred (asked s1))).
  - rewrite (proj2 (Z.ltb_lt res 0)) by lia. destruct Hres as [Hk Hret].
    exists [], s1, k, (buffer s ++ given (asked s) k). split_and!; [done|done|done|right; lia|].
    intros Hgood. destruct (Hgood (pred (asked s1))) as [H0 _]. lia.
Qed.

Lemma window_given n : reply_ret (webrtc n) = 0 -> 0 < reply_samples_out (webrtc n) -> window n <> [].
Proof.
  intros Hret Hout Hw. apply (f_equal length) in Hw. unfold window, need_more_play_data in Hw. cbn [data] in Hw.
  rewrite Hret in Hw. change (0 =? 0) with true in Hw. cbv iota in Hw.
  rewrite length_take, length_overwrite, length_replicate in Hw. change (Z.to_nat WEBRTC_WINDOW) with 480%nat in Hw.
  change (length (@nil Z)) with 0%nat in Hw. lia.
Qed.

End PlayoutFacts.

(** C33. What is heard is what WebRTC gives, sample by sample and in order: a stream plays on
    both channels, for outputs of any sizes, and what it does not play of the samples that
    WebRTC gave is less than one window and kept for the next output, unless WebRTC failed.
    As long as WebRTC gives samples every output is filled. *)
Theorem played_samples_are_webrtcs webrtc outputs :
  exists samples s lost, play webrtc (mkPlayout [] 0) outputs = Some (mono <$> samples, s) /\
    samples ++ lost = given webrtc 0 (asked s) /\
    ((lost = buffer s /\ zlen lost < WEBRTC_WINDOW) \/ reply_ret (webrtc (pred (asked s))) < 0) /\
    ((forall n, reply_ret (webrtc n) = 0 /\ 0 < reply_samples_out (webrtc n)) -> length samples = sum_list outputs).
Proof.
  destruct (play_spec webrtc (mkPlayout [] 0) outputs) as (samples & s & k & lost & E & Ha & Heq & Hlost & Hall); [done|].
  cbn in Ha, Heq. subst k. exists samples, s, lost. split_and!; [done|done| |].
  - destruct Hlost as [[-> ?]|?]; [by left|by right].
  - intros Hgood. apply Hall. intros n. destruct (Hgood n) as [H1 H2]. split; [done|]. by apply window_given.
Qed.

(** *** Recording *)

Lemma chunks_of_spec fuel data : (length data <= fuel)%nat ->
  exists full last, chunks_of fuel 480 data = full ++ last /\ concat full ++ concat last = data /\
    Forall (fun w => length w = 480%nat) full /\
    (last = [] \/ exists w, last = [w] /\ (0 < length w < 480)%nat).
Proof.
  revert data. induction fuel as [|fuel IH]; intros data Hf.
  { destruct data; [|cbn in Hf; lia]. exists [], []. split_and!; [done|done|constructor|by left]. }
  destruct data as [|x data0] eqn:E; [exists [], []; split_and!; [done|done|constructor|by left]|].
  change (chunks_of (S fuel) 480 (x :: data0)) with (take 480 (x :: data0) :: chunks_of fuel 480 (drop 480 (x :: data0))).
  rewrite <-E in *. assert (Hlen : (0 < length data)%nat) by (subst; cbn; lia). clear x data0 E.
  destruct (decide (length data < 480)%nat) as [Hs|Hs].
  - exists [], [data]. rewrite take_ge, drop_ge by lia. cbn [concat app]. rewrite app_nil_r.
    split_and!; [by destruct fuel|done|constructor|right; exists data; split_and!; [done|lia|lia]].
  - destruct (IH (drop 480 data)) as (full & last & -> & Hc & Hall & Hl); [rewrite length_drop; lia|].
    exists (take 480 data :: full), last. split_and!; [done| |constructor; [rewrite length_take; lia|done]|done].
    cbn [concat]. rewrite <-app_assoc, Hc. apply take_drop.
Qed.

Lemma chunks_spec data :
  exists full last, chunks 480 data = full ++ last /\ concat full ++ concat last = data /\
    Forall (fun w => length w = 480%nat) full /\ (last = [] \/ exists w, last = [w] /\ (0 < length w < 480)%nat).
Proof. by apply chunks_of_spec. Qed.

Section RecordingFacts.
Context (webrtc : nat -> list Z -> Z).

Definition whole (w : list Z) : Prop := zlen w = WEBRTC_WINDOW.

Lemma report_spec full last s :
  Forall (fun w => length w = 480%nat) full -> (last = [] \/ exists w, last = [w] /\ (0 < length w < 480)%nat) -> rest s = [] ->
  match report webrtc (full ++ last) s with
  | (None, s') => reported s' = reported s ++ full /\ rest s' = concat last
  | (Some ret, s') => ret < 0 /\ rest s' = [] /\
      exists sent unsent, full = sent ++ unsent /\ sent <> [] /\ reported s' = reported s ++ sent /\
        webrtc (pred (length (reported s'))) (List.last sent []) = ret
  end.
Proof.
  intros Hfull Hlast. revert s. induction Hfull as [|w full Hw _ IH]; intros s Hr; cbn [app report].
  - rewrite app_nil_r. destruct Hlast as [->|(w & -> & Hw)]; cbn [report concat]; [done|].
    rewrite (proj2 (Z.ltb_lt (zlen w) WEBRTC_WINDOW)) by (change WEBRTC_WINDOW with 480; unfold zlen; lia).
    cbn. rewrite Hr, app_nil_r. done.
  - rewrite (proj2 (Z.ltb_ge (zlen w) WEBRTC_WINDOW)) by (change WEBRTC_WINDOW with 480; unfold zlen; lia).
    cbn [recorded_data_is_available]. destruct (Z.ltb_spec (webrtc (length (reported s)) w) 0) as [Hneg|Hpos].
    + cbn [rest reported]. split_and!; [done|done|]. exists [w], full. split_and!; [done|done|done|].
      rewrite length_app. cbn. by replace (pred (length (reported s) + 1)) with (length (reported s)) by lia.
    + specialize (IH (mkRecording (rest s) (reported s ++ [w])) Hr). cbn [rest reported] in *.
      destruct (report webrtc (full ++ last) _) as [[ret|] s'].
      * destruct IH as (Hret & Hr' & sent & unsent & -> & Hne & Heq & Hcode). split_and!; [done|done|].
        exists (w :: sent), unsent. rewrite <-app_assoc in Heq. split_and!; [done|done|done|].
        by destruct sent.
      * destruct IH as [Heq Hr']. rewrite <-app_assoc in Heq. done.
Qed.

(** The samples that are recorded while they are sent to WebRTC. *)
Definition wanted (inputs : list (bool * list Z)) : list Z :=
  concat ((fun i : bool * list Z => if i.1 then i.2 else []) <$> inputs).

Lemma recording_callback_spec input s :
  Forall whole (reported s) ->
  match recording_callback webrtc true input s with
  | (res, s') => Forall whole (reported s') /\
    if res <? 0 then
      concat (reported s') `prefix_of` concat (reported s) ++ rest s ++ input /\
      webrtc (pred (length (reported s'))) (List.last (reported s') []) = res
    else res = zlen input /\ zlen (rest s') < WEBRTC_WINDOW /\
      concat (reported s') ++ rest s' = concat (reported s) ++ rest s ++ input
  end.
Proof.
  intros Hs. unfold recording_callback. cbn [negb]. change (Z.to_nat WEBRTC_WINDOW) with 480%nat.
  destruct (chunks_spec (rest s ++ input)) as (full & last & -> & Hdata & Hfull & Hlast).
  assert (Hwhole : Forall whole full) by (eapply List.Forall_impl; [|exact Hfull]; unfold whole, zlen; intros w ->; done).
  pose proof (report_spec full last (mkRecording [] (reported s)) Hfull Hlast eq_refl) as Hr. cbn [rest reported] in Hr.
  destruct (report webrtc (full ++ last) _) as [[ret|] s'].
  - destruct Hr as (Hneg & _ & sent & unsent & -> & Hne & Heq & Hcode). rewrite (proj2 (Z.ltb_lt ret 0)) by done.
    apply Forall_app in Hwhole as [Hsent _]. rewrite Heq. split; [by apply Forall_app|]. split.
    + rewrite concat_app. apply prefix_app. rewrite <-Hdata, concat_app, <-app_assoc. by eexists.
    + rewrite Heq in Hcode. rewrite <-Hcode. f_equal. destruct sent as [|w sent] using rev_ind; [done|].
      by rewrite app_assoc, !List.last_last.
  - destruct Hr as [Heq Hrest]. rewrite (proj2 (Z.ltb_ge (zlen input) 0)) by apply zlen_nonneg.
    rewrite Heq, Hrest. split; [by apply Forall_app|]. split_and!; [done| |].
    + destruct Hlast as [->|(w & -> & Hw)]; [done|]. cbn [concat]. rewrite app_nil_r.
      change WEBRTC_WINDOW with 480. unfold zlen. lia.
    + by rewrite concat_app, <-app_assoc, Hdata.
Qed.

Lemma record_spec inputs s :
  Forall whole (reported s) -> zlen (rest s) < WEBRTC_WINDOW ->
  match record webrtc s inputs with
  | (res, s') => Forall whole (reported s') /\
    concat (reported s') `prefix_of` concat (reported s) ++ rest s ++ wanted inputs /\
    if res <? 0 then webrtc (pred (length (reported s'))) (List.last (reported s') []) = res
    else zlen (rest s') < WEBRTC_WINDOW /\
      concat (reported s') ++ rest s' = concat (reported s) ++ rest s ++ wanted inputs
  end.
Proof.
  revert s. induction inputs as [|[send input] inputs IH]; intros s Hs Hb; cbn [record].
  { unfold wanted. cbn. rewrite app_nil_r. split_and!; [done|by eexists|done|done]. }
  destruct send; cbn [recording_callback].
  - pose proof (recording_callback_spec input s Hs) as Hc. destruct (recording_callback webrtc true input s) as [res s1].
    destruct Hc as [Hs1 Hres]. change (wanted ((true, input) :: inputs)) with (input ++ wanted inputs).
    destruct (Z.ltb_spec res 0) as [Hneg|Hpos].
    + rewrite (proj2 (Z.ltb_lt res 0)) by done. destruct Hres as [[k Hp] Hcode]. split_and!; [done| |done].
      exists (k ++ wanted inputs). by rewrite (app_assoc (rest s)), app_assoc, Hp, <-app_assoc.
    + destruct Hres as (_ & Hb1 & Heq). specialize (IH s1 Hs1 Hb1).
      rewrite app_assoc, Heq, <-!app_assoc in IH. done.
  - unfold recording_callback. cbn [negb]. rewrite (proj2 (Z.ltb_ge (zlen input) 0)) by apply zlen_nonneg.
    by apply IH.
Qed.

End RecordingFacts.

(** C34. Everything that is recorded for WebRTC reaches it, in order and in whole windows:
    after callbacks with inputs of any sizes, what WebRTC was given is a beginning of what
    was recorded while [send_to_webrtc] was set, and of that less than a window remains in
    the buffer, unless WebRTC returned an error.  Nothing else is given to it. *)
Theorem recorded_samples_reach_webrtc webrtc inputs :
  let '(res, s) := record webrtc (mkRecording [] []) inputs in
  Forall whole (reported s) /\ concat (reported s) `prefix_of` wanted inputs /\
  if res <? 0 then webrtc (pred (length (reported s))) (List.last (reported s) []) = res
  else concat (reported s) ++ rest s = wanted inputs /\ zlen (rest s) < WEBRTC_WINDOW.
Proof.
  pose proof (record_spec webrtc inputs (mkRecording [] []) (List.Forall_nil _) eq_refl) as H.
  destruct (record webrtc _ inputs) as [res s]. cbn [reported rest concat app] in H.
  destruct H as (H1 & H2 & H3). split_and!; [done|done|]. destruct (res <? 0); [done|]. by destruct H3.
Qed.


End AudioStreams.
