(* ===== verification/AudioWorker.v ===== *)
(** * The thread that owns the audio devices (src/rust/src/webrtc/audio_device_module.rs)

    [Worker] with its events.  cubeb is outside: an event is handled with the answers that
    cubeb gives meanwhile.  The samples of the streams are the subject of [AudioStreams]. *)

From S2P Require Import Prelude AudioDevices AudioStreams.
Local Open Scope Z_scope.
Local Open Scope ringrtc_scope.

Module AudioWorker.
Import AudioDevices.
Import AudioStreams.

Inductive DeviceType : Type := Input | Output.
#[global] Instance DeviceType_eq_dec : EqDecision DeviceType.
Proof. solve_decision. Defined.

Inductive Event : Type :=
| RefreshCache (device_type : DeviceType)
| SetPlayoutDevice (index : Z)
| SetPlayoutDeviceById (id : string)
| SetRecordingDevice (index : Z)
| SetRecordingDeviceById (id : string)
| InitPlayout
| StartPlayout
| StopPlayout
| InitRecording
| StartRecording
| WarmupRecording
| SetInputProcessing (enabled : bool)
| StopRecording
| PlayoutDelay
| Terminate
| RegisterAudioObserver.

(** The parameters of a stream that depend on the state. *)
Record StreamParams : Type := mkParams {
  channels : Z;
  voice : bool;
}.

Definition AUTOMATIC_GAIN_CONTROL : Z := 4.
Definition ECHO_CANCELLATION : Z := 1.
Definition NOISE_SUPPRESSION : Z := 2.

(** The answers of cubeb. *)
Record Cubeb : Type := mkCubeb {
  enumerate_devices : DeviceType -> option (list DeviceInfo);
  min_latency : StreamParams -> option Z;
  init_stream : DeviceType -> Z -> bool;
  start_stream : DeviceType -> bool;
  stop_stream : DeviceType -> bool;
  stream_latency : option Z;
  supported_input_processing_params : option Z;
}.

(** A stream of cubeb: how it was made, and whether it was started since. *)
Record Stream : Type := mkStream {
  stream_device : Z;
  stream_params : StreamParams;
  latency : Z;
  input_processing_params : option Z; (* asked for *)
  started : bool;
}.
#[global] Instance Stream_eta : Eta Stream :=
  fun s => mkStream (stream_device s) (stream_params s) (latency s) (input_processing_params s) (started s).

Record Worker : Type := mkWorker {
  playout_device : option Z;
  recording_device : option Z;
  output_stream : option Stream;
  input_stream : option Stream;
  voice_processing_enabled : bool;
  input_device_cache : DeviceCollection;
  output_device_cache : DeviceCollection;
  input_device_names : list (option AudioDevice);
  output_device_names : list (option AudioDevice);
  audio_device_observer : bool;
  send_to_webrtc : bool;
  should_play : bool;
  should_record : bool;
  (* what the observer was told, and the delays sent back *)
  changes : list (DeviceType * list (option AudioDevice));
  delays : list (option Z);
}.
#[global] Instance Worker_eta : Eta Worker :=
  fun w => mkWorker (playout_device w) (recording_device w) (output_stream w) (input_stream w)
    (voice_processing_enabled w) (input_device_cache w) (output_device_cache w) (input_device_names w)
    (output_device_names w) (audio_device_observer w) (send_to_webrtc w) (should_play w) (should_record w)
    (changes w) (delays w).

Inductive AudioError : Type :=
| EnumerationFailed | NoDevice | InitFailed | StartFailed | StopFailed | NoStream | InvalidIndex | InvalidId.

Notation WM := (ST Worker AudioError).

Section Worker.
Context (target : Target) (cubeb : Cubeb).

Definition check (b : bool) (e : AudioError) : WM unit := if b then ret_ok else fail e.

Definition notify (device_type : DeviceType) (names : list (option AudioDevice)) : WM unit :=
  w ← Prelude.get;
  if audio_device_observer w then modify (fun w => w <| changes := changes w ++ [(device_type, names)] |>) else ret_ok.

(** A device that is not in the collection is not selected any more. *)
Definition still_available (collection : DeviceCollection) (selected : option Z) : option Z :=
  match selected with
  | Some id => if existsb (fun d => devid d =? id) (iter collection) then Some id else None
  | None => None
  end.

Definition refresh_device_cache (device_type : DeviceType) : WM unit :=
  match enumerate_devices cubeb device_type with
  | None => fail EnumerationFailed
  | Some devices =>
    w ← Prelude.get;
    let last := match device_type with Input => input_device_cache w | Output => output_device_cache w end in
    let collection := new_collection target devices in
    if bool_decide (collection = last) then ret_ok
    else
      let names := extract_names target collection in
      notify device_type names;;
      match device_type with
      | Input =>
        modify (fun w => w <| recording_device := still_available collection (recording_device w) |>
                           <| input_device_cache := collection |> <| input_device_names := names |>)
      | Output =>
        modify (fun w => w <| playout_device := still_available collection (playout_device w) |>
                           <| output_device_cache := collection |> <| output_device_names := names |>)
      end
  end.

(** The device to use: the one that is selected, or the first one. *)
Definition choose_playout_device : WM Z :=
  w ← Prelude.get;
  match playout_device w with
  | Some device => mret device
  | None =>
    match AudioDevices.get target 0 (output_device_cache w) with
    | Some d => modify (fun w => w <| playout_device := Some (devid d) |>);; mret (devid d)
    | None => fail NoDevice
    end
  end.

Definition choose_recording_device : WM Z :=
  w ← Prelude.get;
  match recording_device w with
  | Some device => mret device
  | None =>
    match AudioDevices.get target 0 (input_device_cache w) with
    | Some d => modify (fun w => w <| recording_device := Some (devid d) |>);; mret (devid d)
    | None => fail NoDevice
    end
  end.

Definition target_latency (params : StreamParams) : Z :=
  Z.max SAMPLE_LATENCY (default SAMPLE_LATENCY (min_latency cubeb params)).

Definition init_playout : WM unit :=
  out_device ← choose_playout_device;
  let params := mkParams 2 true in
  if init_stream cubeb Output out_device then
    modify (fun w => w <| output_stream := Some (mkStream out_device params (target_latency params) None false) |>)
  else fail InitFailed.

Definition start_playout : WM unit :=
  modify (fun w => w <| should_play := true |>);;
  w ← Prelude.get;
  match output_stream w with
  | Some s =>
    check (start_stream cubeb Output) StartFailed;;
    modify (fun w => w <| output_stream := Some (s <| started := true |>) |>)
  | None => fail NoStream
  end.

Definition stop_playout : WM unit :=
  modify (fun w => w <| should_play := false |>);;
  w ← Prelude.get;
  match output_stream w with
  | Some _ =>
    check (stop_stream cubeb Output) StopFailed;;
    modify (fun w => w <| output_stream := None |>)
  | None => ret_ok
  end.

Definition when (b : bool) (m : WM unit) : WM unit := if b then m else ret_ok.

Definition update_playout_device (id : Z) : WM unit :=
  w ← Prelude.get;
  let was_initialized := bool_decide (is_Some (output_stream w)) in
  let was_playing := should_play w in
  when was_initialized stop_playout;;
  modify (fun w => w <| playout_device := Some id |>);;
  when was_initialized init_playout;;
  when was_playing start_playout.

(** The parameters that [init_recording] asks of the voice processing. *)
Definition desired_params (params : Z) (enabled : bool) : Z :=
  let agc := if contains params AUTOMATIC_GAIN_CONTROL && enabled then AUTOMATIC_GAIN_CONTROL else 0 in
  if contains params (Z.lor ECHO_CANCELLATION NOISE_SUPPRESSION) && enabled
  then Z.lor agc (Z.lor ECHO_CANCELLATION NOISE_SUPPRESSION) else agc.

Definition init_recording : WM unit :=
  w ← Prelude.get;
  if negb (send_to_webrtc w) && bool_decide (is_Some (input_stream w)) then ret_ok
  else
    device ← choose_recording_device;
    let params := mkParams NUM_CHANNELS (negb (bool_decide (target = MacOs)) || voice_processing_enabled w) in
    modify (fun w => w <| send_to_webrtc := true |>);;
    if init_stream cubeb Input device then
      let processing :=
        if bool_decide (target = MacOs) && voice_processing_enabled w then
          match supported_input_processing_params cubeb with
          | Some params => Some (desired_params params (voice_processing_enabled w))
          | None => None
          end
        else None in
      modify (fun w => w <| input_stream := Some (mkStream device params (target_latency params) processing false) |>)
    else fail InitFailed.

Definition start_recording (send : bool) : WM unit :=
  modify (fun w => w <| should_record := true |>);;
  w ← Prelude.get;
  let was_sending := send_to_webrtc w in
  modify (fun w => w <| send_to_webrtc := send |>);;
  if negb was_sending then ret_ok
  else match input_stream w with
  | Some s =>
    check (start_stream cubeb Input) StartFailed;;
    modify (fun w => w <| input_stream := Some (s <| started := true |>) |>)
  | None => fail NoStream
  end.

Definition stop_recording : WM unit :=
  modify (fun w => w <| should_record := false |>);;
  w ← Prelude.get;
  match input_stream w with
  | Some _ =>
    modify (fun w => w <| send_to_webrtc := true |>);;
    check (stop_stream cubeb Input) StopFailed;;
    modify (fun w => w <| input_stream := None |>)
  | None => ret_ok
  end.

Definition update_recording_device (id : Z) : WM unit :=
  w ← Prelude.get;
  let was_initialized := bool_decide (is_Some (input_stream w)) in
  let was_playing := should_record w in
  let was_sending_webrtc := send_to_webrtc w in
  when was_initialized stop_recording;;
  modify (fun w => w <| recording_device := Some id |>);;
  when was_initialized init_recording;;
  when was_playing (start_recording was_sending_webrtc).

Definition set_input_processing_enabled (enabled : bool) : WM unit :=
  w ← Prelude.get;
  if Bool.eqb enabled (voice_processing_enabled w) then ret_ok
  else
    modify (fun w => w <| voice_processing_enabled := enabled |>);;
    match recording_device w with
    | Some device => update_recording_device device
    | None => ret_ok
    end.

(** In milliseconds, as a [u16]. *)
Definition playout_delay (w : Worker) : option Z :=
  match output_stream w with
  | Some _ =>
    match stream_latency cubeb with
    | Some latency_samples => Some (wrap 16 (latency_samples / (SAMPLE_FREQUENCY / 1000)))
    | None => None
    end
  | None => None
  end.

(** cubeb destroys a stream that is dropped, whether it could be stopped or not. *)
Definition terminate : WM unit :=
  modify (fun w => w <| input_stream := None |> <| output_stream := None |> <| playout_device := None |>
    <| recording_device := None |> <| input_device_cache := [] |> <| output_device_cache := [] |>
    <| input_device_names := [] |> <| output_device_names := [] |>).

Definition find_by_id (id : string) (c : DeviceCollection) : option MinimalDeviceInfo :=
  List.find (fun d => bool_decide (device_id d = Some id)) (iter c).

(** What [work] does with an event, [Terminate] excepted. *)
Definition handle (received : Event) : WM unit :=
  w ← Prelude.get;
  match received with
  | RefreshCache d => refresh_device_cache d
  | SetPlayoutDevice index =>
    match AudioDevices.get target index (output_device_cache w) with
    | Some d => update_playout_device (devid d)
    | None => fail InvalidIndex
    end
  | SetPlayoutDeviceById id =>
    match find_by_id id (output_device_cache w) with
    | Some d => update_playout_device (devid d)
    | None => fail InvalidId
    end
  | SetRecordingDevice index =>
    match AudioDevices.get target index (input_device_cache w) with
    | Some d => update_recording_device (devid d)
    | None => fail InvalidIndex
    end
  | SetRecordingDeviceById id =>
    match find_by_id id (input_device_cache w) with
    | Some d => update_recording_device (devid d)
    | None => fail InvalidId
    end
  | InitPlayout => init_playout
  | StartPlayout => start_playout
  | StopPlayout => stop_playout
  | InitRecording => init_recording
  | StartRecording => start_recording true
  | WarmupRecording => start_recording false
  | SetInputProcessing enabled => set_input_processing_enabled enabled
  | StopRecording => stop_recording
  | PlayoutDelay => modify (fun w => w <| delays := delays w ++ [playout_delay w] |>)
  | Terminate => terminate
  | RegisterAudioObserver => modify (fun w => w <| audio_device_observer := true |>)
  end.

(** The worker when it starts. *)
Definition new_worker : Worker :=
  mkWorker None None None None false [] [] [] [] false true false false [] [].

End Worker.

(** [work]: the events with the answers of cubeb for each, until [Terminate]; the errors are
    only logged. *)
Fixpoint work (target : Target) (events : list (Event * Cubeb)) (w : Worker) : Worker * list (result unit AudioError) :=
  match events with
  | [] => (w, [])
  | (received, cubeb) :: events =>
    let '(w, r) := handle target cubeb received w in
    match received with
    | Terminate => (w, [r])
    | _ => let '(w, rs) := work target events w in (w, r :: rs)
    end
  end.

End AudioWorker.
