(* ===== verification/AudioRequests.v ===== *)
(** * What the audio thread makes of its requests

    Theorems about [AudioWorker]: which devices it uses and shows, when the microphone is
    heard by WebRTC, and what a change of the device keeps. *)

From S2P Require Import Prelude AudioDevices AudioStreams AudioNames AudioWorker.
Local Open Scope Z_scope.
Local Open Scope ringrtc_scope.

Module AudioRequests.
Import AudioDevices.
Import AudioWorker.

(** ** The microphone *)

(** What the microphone does: there is no stream; there is one that was not started; it runs
    to warm up; it runs for WebRTC; it should run for WebRTC but its stream was made anew
    and not started yet. *)
Inductive Mic : Type := Off | Ready | Warming | Sending | Remade.
#[global] Instance Mic_eq_dec : EqDecision Mic.
Proof. solve_decision. Defined.

Definition changes_microphone (e : Event) : bool :=
  match e with
  | SetRecordingDevice _ | SetRecordingDeviceById _ | SetInputProcessing _ => true
  | _ => false
  end.

(** What requests that succeed do to the microphone.  Other requests do nothing to it. *)
Inductive mic_step : Mic -> Event -> Mic -> Prop :=
| InitOff : mic_step Off InitRecording Ready
| InitReady : mic_step Ready InitRecording Ready
| InitWarming : mic_step Warming InitRecording Warming
| InitSending : mic_step Sending InitRecording Remade
| InitRemade : mic_step Remade InitRecording Remade
| StartMic m : m <> Off -> mic_step m StartRecording Sending
| WarmupMic m : m <> Off -> mic_step m WarmupRecording Warming
| StopMic m : mic_step m StopRecording Off
| ChangeMic m e : changes_microphone e = true -> mic_step m e m
| ChangeRemade e : changes_microphone e = true -> mic_step Remade e Sending
| OtherMic m e : changes_microphone e = false ->
    e ∉ [InitRecording; StartRecording; WarmupRecording; StopRecording] -> mic_step m e m.

Inductive mic_run : Mic -> list Event -> Mic -> Prop :=
| mic_run_nil m : mic_run m [] m
| mic_run_cons m1 e m2 es m3 : mic_step m1 e m2 -> mic_run m2 es m3 -> mic_run m1 (e :: es) m3.

(** How the state of the worker says it. *)
Definition mic_view (w : Worker) : option bool * bool * bool :=
  (started <$> input_stream w, send_to_webrtc w, should_record w).

Definition runs (m : Mic) : option bool :=
  match m with Off => None | Ready | Remade => Some false | Warming | Sending => Some true end.
Definition sends (m : Mic) : bool := match m with Warming => false | _ => true end.
Definition records (m : Mic) : bool := match m with Off | Ready => false | _ => true end.
Definition view_of (m : Mic) : option bool * bool * bool := (runs m, sends m, records m).

(** What was last asked of the microphone. *)
Definition request (last : option Event) (e : Event) : option Event :=
  match e with StartRecording | WarmupRecording | StopRecording => Some e | _ => last end.
Definition last_request (es : list Event) : option Event := fold_left request es None.

Definition in_accord (m : Mic) (last : option Event) : Prop :=
  match m with
  | Off | Ready => last = None \/ last = Some StopRecording
  | Warming => last = Some WarmupRecording
  | Sending | Remade => last = Some StartRecording
  end.

Lemma mic_step_accord m e m' last : mic_step m e m' -> in_accord m last -> in_accord m' (request last e).
Proof.
  intros Hstep Hm. destruct Hstep as [| | | | |m|m|m|m e He|e He|m e _ He]; cbn in *; try done.
  - by right.
  - by destruct e.
  - by destruct e.
  - assert (request last e = last) as ->; [|done]. destruct e; try done; exfalso; apply He; set_solver.
Qed.

Lemma mic_run_accord m es m' last : mic_run m es m' -> in_accord m last -> in_accord m' (fold_left request es last).
Proof. intros Hrun. revert last. induction Hrun as [|m1 e m2 es m3 Hs _ IH]; intros last Hm; [done|]. cbn. apply IH. by eapply mic_step_accord. Qed.

(** WebRTC is given what the microphone records. *)
Definition heard (w : Worker) : bool :=
  match input_stream w with Some s => started s && send_to_webrtc w | None => false end.

Lemma heard_view w m : mic_view w = view_of m -> heard w = bool_decide (m = Sending).
Proof.
  unfold mic_view, heard. intros [= Es Ew _]. rewrite Ew.
  destruct (input_stream w) as [s|], m; cbn in Es; try discriminate Es; try (injection Es as ->); done.
Qed.

Ltac st_unfold := unfold mbind, ST_bind, Prelude.get, modify, check, when, ret_ok, fail, mret, ST_ret in *.

Section Steps.
Context (target : Target) (cubeb : Cubeb).

Lemma choose_recording_device_view w w' d : choose_recording_device target w = (w', Ok d) -> mic_view w' = mic_view w.
Proof.
  unfold choose_recording_device. st_unfold. destruct (recording_device w); [by intros [= <- _]|].
  destruct (AudioDevices.get _ _ _); [by intros [= <- _]|done].
Qed.

Lemma init_recording_view w w' :
  init_recording target cubeb w = (w', Ok tt) ->
  mic_view w' = if negb (send_to_webrtc w) && bool_decide (is_Some (input_stream w)) then mic_view w
                else (Some false, true, should_record w).
Proof.
  unfold init_recording. unfold mbind, ST_bind, Prelude.get. destruct (_ && _); [by intros [= <-]|].
  destruct (choose_recording_device target w) as [w1 [d|e]] eqn:E; [|done].
  apply choose_recording_device_view in E. unfold mic_view in E. injection E as E1 E2 E3.
  unfold modify, fail. destruct (init_stream cubeb Input d); [|done]. intros [= <-]. cbn. by rewrite <-E3.
Qed.

Lemma start_recording_view send w w' :
  start_recording cubeb send w = (w', Ok tt) ->
  mic_view w' = (if send_to_webrtc w then Some true else started <$> input_stream w, send, true) /\
  (send_to_webrtc w = true -> is_Some (input_stream w)).
Proof.
  unfold start_recording. st_unfold. cbn. destruct (send_to_webrtc w); cbn; [|by intros [= <-]].
  destruct (input_stream w) as [s|]; [|done]. destruct (start_stream cubeb Input); [|done]. intros [= <-]. by split; [|eexists].
Qed.

Lemma stop_recording_view w w' :
  stop_recording cubeb w = (w', Ok tt) ->
  mic_view w' = (None, match input_stream w with Some _ => true | None => send_to_webrtc w end, false).
Proof.
  unfold stop_recording. st_unfold. cbn. destruct (input_stream w) as [s|] eqn:E; cbn.
  - destruct (stop_stream cubeb Input); [|done]. by intros [= <-].
  - intros [= <-]. unfold mic_view. cbn. by rewrite E.
Qed.

Definition changed (m : Mic) : Mic := match m with Remade => Sending | m => m end.

Lemma view_stream w m : mic_view w = view_of m -> (is_Some (input_stream w) <-> m <> Off).
Proof.
  unfold mic_view. intros [= E _ _].
  destruct (input_stream w), m; cbn in E; try discriminate E; (split; intros H; [by destruct H|]); first [by destruct H | by eexists].
Qed.

Lemma update_recording_device_view id w w' m :
  mic_view w = view_of m -> update_recording_device target cubeb id w = (w', Ok tt) -> mic_view w' = view_of (changed m).
Proof.
  intros Hm. pose proof (view_stream _ _ Hm) as Hs. unfold update_recording_device.
  rewrite (ST_bind_run _ _ _ w w eq_refl). intros H.
  apply ST_bind_ok in H as (w1 & [] & H1 & H). apply ST_bind_ok in H as (w2 & [] & H2 & H). apply ST_bind_ok in H as (w3 & [] & H3 & H4).
  injection H2 as <-. unfold mic_view in Hm. injection Hm as Hst Hsend Hrec. unfold when in *.
  destruct (bool_decide_reflect (is_Some (input_stream w))) as [Hsome|Hnone].
  - apply stop_recording_view in H1. destruct Hsome as [s Es]. rewrite Es in H1, Hst. unfold mic_view in H1. injection H1 as H1a H1b H1c.
    apply init_recording_view in H3. cbn [send_to_webrtc set_field should_record] in H3. rewrite H1b, H1c in H3. cbn [negb andb] in H3.
    destruct (should_record w) eqn:Er.
    + apply start_recording_view in H4 as [-> _]. injection H3 as H3a H3b H3c. rewrite H3b, Hsend. unfold view_of; destruct m; cbn in *; congruence.
    + injection H4 as <-. rewrite H3. unfold view_of; destruct m; cbn in *; congruence.
  - injection H1 as <-. injection H3 as <-. assert (m = Off) as -> by (destruct m; [done|exfalso; apply Hnone, Hs; done..]).
    cbn in Hrec. rewrite Hrec in H4. injection H4 as <-. unfold mic_view, view_of. cbn in *. by rewrite Hst, Hsend, Hrec.
Qed.

Hint Extern 1 (respects (same _) (modify _)) => apply respects_modify; intros ?; reflexivity : respects.

Lemma playout_keeps_view id :
  respects (same mic_view) (init_playout target cubeb) /\ respects (same mic_view) (start_playout cubeb) /\
  respects (same mic_view) (stop_playout cubeb) /\ respects (same mic_view) (update_playout_device target cubeb id).
Proof.
  unfold update_playout_device, init_playout, start_playout, stop_playout, choose_playout_device, check, when.
  split_and!; solve_respects.
Qed.

Lemma refresh_keeps_view d : respects (same mic_view) (refresh_device_cache target cubeb d).
Proof. unfold refresh_device_cache, notify. solve_respects. Qed.

Lemma kept_view (x : ST Worker AudioError unit) w w' m e :
  respects (same mic_view) x -> x w = (w', Ok tt) -> mic_view w = view_of m -> changes_microphone e = false ->
  e ∉ [InitRecording; StartRecording; WarmupRecording; StopRecording] ->
  exists m', mic_step m e m' /\ mic_view w' = view_of m'.
Proof.
  intros Hx H Hm Hc He. exists m. split; [by constructor|]. rewrite <-Hm. specialize (Hx w). by rewrite H in Hx.
Qed.

Lemma changed_view id w w' m e :
  mic_view w = view_of m -> update_recording_device target cubeb id w = (w', Ok tt) -> changes_microphone e = true ->
  exists m', mic_step m e m' /\ mic_view w' = view_of m'.
Proof.
  intros Hm H He. exists (changed m). split; [|by eapply update_recording_device_view].
  destruct m; cbn; by constructor.
Qed.

Lemma handle_view e w w' m :
  mic_view w = view_of m -> handle target cubeb e w = (w', Ok tt) -> e <> Terminate ->
  exists m', mic_step m e m' /\ mic_view w' = view_of m'.
Proof.
  intros Hm. unfold handle. rewrite (ST_bind_run _ _ _ w w eq_refl).
  pose proof (view_stream _ _ Hm) as Hs. pose proof Hm as Hv. unfold mic_view in Hv. injection Hv as Hst Hsend Hrec.
  destruct (playout_keeps_view 0) as (Hinit & Hstart & Hstop & _).
  assert (Hupdate : forall id, respects (same mic_view) (update_playout_device target cubeb id)) by (intros id; apply (playout_keeps_view id)).
  destruct e; intros H Hne; try (destruct (AudioDevices.get _ _ _) as [d|]; [|done]); try (destruct (find_by_id _ _) as [d|]; [|done]).
  1-3, 6-8: eapply kept_view; [|exact H|done|done|set_solver]; first [apply refresh_keeps_view | apply Hupdate | done].
  1, 2: by eapply changed_view.
  - apply init_recording_view in H. rewrite H, Hsend, Hrec.
    exists (match m with Off | Ready => Ready | Warming => Warming | _ => Remade end).
    destruct m; (split; [by constructor|]); try done. rewrite bool_decide_true by by apply Hs. exact Hm.
  - apply start_recording_view in H as [-> Hsome]. exists Sending. rewrite Hsend in *. split.
    + constructor. destruct m; try done. apply Hs, Hsome. done.
    + rewrite Hst. by destruct m.
  - apply start_recording_view in H as [-> Hsome]. exists Warming. rewrite Hsend in *. split.
    + constructor. destruct m; try done. apply Hs, Hsome. done.
    + rewrite Hst. by destruct m.
  - unfold set_input_processing_enabled in H. rewrite (ST_bind_run _ _ _ w w eq_refl) in H.
    destruct (Bool.eqb _ _); [injection H as <-; exists m; by split; [constructor|]|].
    apply ST_bind_ok in H as (w1 & [] & H1 & H). injection H1 as <-.
    destruct (recording_device w) as [d|]; [|injection H as <-; exists m; by split; [constructor|]].
    eapply (changed_view d); [|exact H|done]. exact Hm.
  - apply stop_recording_view in H. exists Off. split; [constructor|]. rewrite H, Hsend.
    destruct (input_stream w); [done|]. destruct m; try done.
  - injection H as <-. exists m. by split; [constructor; [done|set_solver]|].
  - done.
  - injection H as <-. exists m. by split; [constructor; [done|set_solver]|].
Qed.

End Steps.

Definition succeeded (r : result unit AudioError) : Prop := r = Ok tt.

Lemma work_view target events w m w' rs :
  work target events w = (w', rs) -> Forall succeeded rs -> Terminate ∉ events.*1 -> mic_view w = view_of m ->
  exists m', mic_run m events.*1 m' /\ mic_view w' = view_of m'.
Proof.
  revert w m w' rs. induction events as [|[e cubeb] events IH]; intros w m w' rs; cbn [work].
  { intros [= <- <-] _ _ Hm. exists m. by split; [constructor|]. }
  destruct (handle target cubeb e w) as [w1 r] eqn:Eh. rewrite fmap_cons. cbn [fst]. intros Hw Hok Hnt Hm.
  assert (He : e <> Terminate) by (intros ->; apply Hnt; by left).
  assert (Hw' : (let '(w, rs) := work target events w1 in (w, r :: rs)) = (w', rs)) by (by destruct e).
  destruct (work target events w1) as [w2 rs2] eqn:Ew. injection Hw' as -> <-. apply Forall_cons in Hok as [-> Hok].
  destruct (handle_view target cubeb e w w1 m Hm Eh He) as (m1 & Hs & Hm1).
  destruct (IH w1 m1 w' rs2 Ew Hok) as (m' & Hrun & Hm'); [set_solver|done|]. exists m'. by split; [econstructor|].
Qed.

(** C31. When the microphone is heard.  As long as requests do not fail the audio thread
    follows the states [Mic]: WebRTC is given samples only if [StartRecording] was the last
    request for the microphone, after warming up it is not, and after [StopRecording] no
    stream runs; changes of the device or of the voice processing in between, and how the
    devices are plugged in and out, do not change it.  After [StartRecording] WebRTC is
    given samples, unless the stream was made anew since. *)
Theorem microphone_obeys_requests target events w rs :
  work target events new_worker = (w, rs) -> Forall succeeded rs -> Terminate ∉ events.*1 ->
  exists m, mic_run Off events.*1 m /\ mic_view w = view_of m /\
    (heard w = true -> last_request events.*1 = Some StartRecording) /\
    (last_request events.*1 = Some StartRecording -> heard w = true \/ m = Remade) /\
    (last_request events.*1 = Some WarmupRecording -> heard w = false /\ started <$> input_stream w = Some true) /\
    (last_request events.*1 ∈ [None; Some StopRecording] -> started <$> input_stream w <> Some true).
Proof.
  intros Hw Hok Hnt. destruct (work_view target events new_worker Off w rs Hw Hok Hnt eq_refl) as (m & Hrun & Hm).
  pose proof (mic_run_accord _ _ _ None Hrun (or_introl eq_refl)) as Ha. fold (last_request events.*1) in Ha.
  exists m. rewrite (heard_view _ _ Hm). pose proof Hm as Hv. unfold mic_view in Hv. injection Hv as Hst _ _. rewrite Hst.
  split_and!; [done|done|..].
  - rewrite bool_decide_eq_true. by intros ->.
  - intros E. rewrite E in Ha. destruct m; cbn in Ha; try (by destruct Ha); try done; [by left|by right].
  - intros E. rewrite E in Ha. destruct m; cbn in Ha; try (by destruct Ha); done.
  - intros [E|[E|[]%elem_of_nil]%elem_of_cons]%elem_of_cons; rewrite E in Ha; destruct m; done.
Qed.

(** An error that stays: if the microphone cannot be started to warm it up, the
    requests that follow for a call, [InitRecording] and [StartRecording], succeed without
    starting it, whatever cubeb answers by then. *)
Theorem failed_warmup_blocks_recording target w cubeb1 cubeb2 cubeb3 :
  started <$> input_stream w = Some false -> send_to_webrtc w = true -> start_stream cubeb1 Input = false ->
  let '(w', rs) := work target [(WarmupRecording, cubeb1); (InitRecording, cubeb2); (StartRecording, cubeb3)] w in
  rs = [Err StartFailed; Ok tt; Ok tt] /\ started <$> input_stream w' = Some false /\ heard w' = false /\ should_record w' = true.
Proof.
  intros Hst Hsend Hfail. destruct (input_stream w) as [s|] eqn:Es; [|done]. injection Hst as Hst.
  set (w1 := w <| should_record := true |> <| send_to_webrtc := false |>).
  assert (H1 : handle target cubeb1 WarmupRecording w = (w1, Err StartFailed)).
  { unfold handle, start_recording. st_unfold. cbn. by rewrite Hsend, Es, Hfail. }
  assert (H2 : handle target cubeb2 InitRecording w1 = (w1, Ok tt)).
  { unfold handle, init_recording. st_unfold. cbn. by rewrite Es. }
  assert (H3 : handle target cubeb3 StartRecording w1 = (w1 <| send_to_webrtc := true |>, Ok tt)) by done.
  cbn [work]. rewrite H1. cbn [work]. rewrite H2. cbn [work]. rewrite H3. subst w1. unfold heard. cbn. rewrite Es. cbn. by rewrite Hst.
Qed.

(** ** The output device *)

(** A change of the output device, step by step: the sound goes on at the new device
    if it was playing, and if not it does not begin; if cubeb cannot stop the old stream
    that one stays in use, and nothing should play any more; if it cannot make the new one
    there is none, and nothing should play; if it cannot start it, it is there to be
    started. *)
Theorem output_device_change target cubeb w s id :
  output_stream w = Some s ->
  let '(w', r) := update_playout_device target cubeb id w in
  if stop_stream cubeb Output then
    playout_device w' = Some id /\
    if init_stream cubeb Output id then
      should_play w' = should_play w /\
      exists s', output_stream w' = Some s' /\ stream_device s' = id /\ AudioStreams.SAMPLE_LATENCY <= latency s' /\
        r = (if should_play w && negb (start_stream cubeb Output) then Err StartFailed else Ok tt) /\
        started s' = should_play w && start_stream cubeb Output
    else r = Err InitFailed /\ output_stream w' = None /\ should_play w' = false
  else r = Err StopFailed /\ output_stream w' = Some s /\ should_play w' = false /\ playout_device w' = playout_device w.
Proof.
  intros Es. unfold update_playout_device. rewrite (ST_bind_run _ _ _ w w eq_refl). rewrite Es. rewrite bool_decide_true by by eexists.
  unfold when, stop_playout, init_playout, choose_playout_device, start_playout. st_unfold. cbn. rewrite Es.
  destruct (stop_stream cubeb Output); cbn; [|done]. destruct (init_stream cubeb Output id); cbn; [|done].
  assert (Hl : AudioStreams.SAMPLE_LATENCY <= target_latency cubeb (mkParams 2 true)) by apply Z.le_max_l.
  destruct (should_play w); cbn; [destruct (start_stream cubeb Output); cbn|]; (split; [done|]); (split; [done|]); eexists; done.
Qed.

(** ** Devices and their names *)

Definition selectable (c : DeviceCollection) (selected : option Z) : Prop :=
  match selected with Some id => id ∈ (devid <$> iter c) | None => True end.

(** The names are those of the devices; at the beginning there are none of both. *)
Definition named (target : Target) (c : DeviceCollection) (names : list (option AudioDevice)) : Prop :=
  names = extract_names target c \/ (c = [] /\ names = []).

Definition devices_ok (target : Target) (w : Worker) : Prop :=
  selectable (output_device_cache w) (playout_device w) /\ selectable (input_device_cache w) (recording_device w) /\
  named target (output_device_cache w) (output_device_names w) /\ named target (input_device_cache w) (input_device_names w).

Lemma selectable_in c d : In d (iter c) -> selectable c (Some (devid d)).
Proof. intros Hd. apply list_elem_of_fmap. exists d. by split; [|apply list_elem_of_In]. Qed.

Lemma still_available_ok c selected : selectable c (still_available c selected).
Proof.
  destruct selected as [id|]; [|done]. cbn. destruct (existsb _ _) eqn:E; [|done]. cbn.
  apply List.existsb_exists in E as (d & Hd & Hid). apply Z.eqb_eq in Hid as <-.
  by apply selectable_in.
Qed.

Lemma get_selectable target c i d : AudioDevices.get target i c = Some d -> selectable c (Some (devid d)).
Proof. intros H. apply selectable_in, list_elem_of_In. by eapply AudioNames.get_enabled. Qed.

Lemma find_selectable c id d : find_by_id id c = Some d -> selectable c (Some (devid d)).
Proof. intros H. apply selectable_in. by apply List.find_some in H as [H _]. Qed.

Section Devices.
Context (target : Target) (cubeb : Cubeb).

(** The same with the devices known. *)
Definition devices_at (ci co : DeviceCollection) (w : Worker) : Prop :=
  input_device_cache w = ci /\ output_device_cache w = co /\ devices_ok target w.

Notation keeps ci co m := (yields (devices_at ci co) (m : ST Worker AudioError _) (fun _ => True)).

Create HintDb devices.
Hint Resolve yields_ret_ok yields_fail : devices.
Hint Extern 1 (yields _ (mret _) _) => by apply yields_ret : devices.
Hint Extern 1 (yields _ Prelude.get _) => apply yields_get : devices.
Hint Extern 1 (yields _ (modify _) _) => (apply yields_modify; [|done]; by intros ?) : devices.

(** Take code apart; what reads the state knows that it is in order. *)
Ltac keeps_step :=
  lazymatch goal with
  | |- yields _ (Prelude.get ≫= _) _ => eapply yields_bind; [apply yields_get|intros ? ?]
  | |- yields _ (_ ≫= _) _ => eapply (yields_bind _ _ _ (fun _ => True)); [|intros ? _]
  | |- yields _ (match ?x with _ => _ end) _ => destruct x eqn:?
  | |- yields _ _ _ => solve [eauto with devices]
  end.

Lemma stop_playout_keeps ci co : keeps ci co (stop_playout cubeb).
Proof. unfold stop_playout, check. repeat keeps_step. Qed.

Lemma start_playout_keeps ci co : keeps ci co (start_playout cubeb).
Proof. unfold start_playout, check. repeat keeps_step. Qed.

Lemma select_playout_keeps ci co id : selectable co (Some id) -> keeps ci co (modify (fun w => w <| playout_device := Some id |>)).
Proof.
  intros Hid. apply yields_modify; [|done]. intros w (Hi & Ho & Hp & Hr & Hn). split_and!; [done|done|]. cbn.
  split; [|done]. cbn. by rewrite Ho.
Qed.

Lemma select_recording_keeps ci co id : selectable ci (Some id) -> keeps ci co (modify (fun w => w <| recording_device := Some id |>)).
Proof.
  intros Hid. apply yields_modify; [|done]. intros w (Hi & Ho & Hp & Hr & Hn). split_and!; [done|done|]. cbn.
  split_and!; [done| |apply Hn..]. cbn. by rewrite Hi.
Qed.

Lemma default_playout_selectable ci co w d :
  devices_at ci co w -> AudioDevices.get target 0 (output_device_cache w) = Some d -> selectable co (Some (devid d)).
Proof. intros (_ & <- & _) H. by eapply get_selectable. Qed.

Lemma default_recording_selectable ci co w d :
  devices_at ci co w -> AudioDevices.get target 0 (input_device_cache w) = Some d -> selectable ci (Some (devid d)).
Proof. intros (<- & _) H. by eapply get_selectable. Qed.

Hint Resolve stop_playout_keeps start_playout_keeps : devices.
Hint Extern 2 (yields _ (modify _) _) =>
  solve [apply select_playout_keeps; eauto using default_playout_selectable
        |apply select_recording_keeps; eauto using default_recording_selectable] : devices.

Lemma init_playout_keeps ci co : keeps ci co (init_playout target cubeb).
Proof. unfold init_playout, choose_playout_device. repeat keeps_step. Qed.

Lemma update_playout_device_keeps ci co id : selectable co (Some id) -> keeps ci co (update_playout_device target cubeb id).
Proof. intros Hid. unfold update_playout_device, when. repeat (keeps_step || apply init_playout_keeps). Qed.

Lemma stop_recording_keeps ci co : keeps ci co (stop_recording cubeb).
Proof. unfold stop_recording, check. repeat keeps_step. Qed.

Lemma start_recording_keeps ci co send : keeps ci co (start_recording cubeb send).
Proof. unfold start_recording, check. repeat keeps_step. Qed.

Lemma init_recording_keeps ci co : keeps ci co (init_recording target cubeb).
Proof. unfold init_recording, choose_recording_device. repeat keeps_step. Qed.

Hint Resolve stop_recording_keeps start_recording_keeps init_recording_keeps init_playout_keeps : devices.

Lemma update_recording_device_keeps ci co id : selectable ci (Some id) -> keeps ci co (update_recording_device target cubeb id).
Proof. intros Hid. unfold update_recording_device, when. repeat keeps_step. Qed.

Lemma set_input_processing_keeps ci co enabled : keeps ci co (set_input_processing_enabled target cubeb enabled).
Proof.
  unfold set_input_processing_enabled. eapply yields_bind; [apply yields_get|]. intros w (Hi & _ & _ & Hr & _).
  destruct (Bool.eqb _ _); [eauto with devices|]. keeps_step; [eauto with devices|].
  destruct (recording_device w) as [d|] eqn:E; [|eauto with devices]. apply update_recording_device_keeps. by rewrite <-Hi.
Qed.

Lemma refresh_ok d w : devices_ok target w -> devices_ok target (refresh_device_cache target cubeb d w).1.
Proof.
  intros (Hp & Hr & Hno & Hni). unfold refresh_device_cache. destruct (enumerate_devices cubeb d) as [devices|]; [|done].
  unfold notify. st_unfold. destruct (bool_decide _); [done|].
  pose proof (still_available_ok (new_collection target devices)).
  destruct (audio_device_observer w), d; unfold devices_ok; cbn; split_and!; try done; try (by left); auto.
Qed.

Lemma handle_ok e w : devices_ok target w -> devices_ok target (handle target cubeb e w).1.
Proof.
  intros Hw. unfold handle. rewrite (ST_bind_run _ _ _ w w eq_refl).
  assert (Hk : forall m : ST Worker AudioError unit, keeps (input_device_cache w) (output_device_cache w) m -> devices_ok target (m w).1).
  { intros m Hm. by apply Hm. }
  destruct e as [d|i|id|i|id| | | | | | | | | | |].
  1: by apply refresh_ok.
  1, 3: destruct (AudioDevices.get _ _ _) eqn:E; [|done]; apply get_selectable in E; apply Hk.
  3, 4: destruct (find_by_id _ _) eqn:E; [|done]; apply find_selectable in E; apply Hk.
  all: eauto using update_playout_device_keeps, update_recording_device_keeps, set_input_processing_keeps with devices.
  by repeat split; right.
Qed.

End Devices.

Lemma work_ok target events w : devices_ok target w -> devices_ok target (work target events w).1.
Proof.
  revert w. induction events as [|[e cubeb] events IH]; intros w Hw; cbn [work]; [done|].
  pose proof (handle_ok target cubeb e w Hw) as H1. destruct (handle target cubeb e w) as [w1 r]. cbn in H1.
  specialize (IH w1 H1). destruct (work target events w1) as [w2 rs]. by destruct e.
Qed.

End AudioRequests.
