(* ===== verification/AudioModule.v ===== *)
(** * The audio device module that WebRTC calls (src/rust/src/webrtc/audio_device_module.rs)

    [AudioDeviceModule]: its functions answer from flags and from the names that the audio
    thread shares, and send their requests to that thread.  A run interleaves calls of
    WebRTC and of the application with the events that the thread handles and with devices
    that come and go. *)

From S2P Require Import Prelude Base16 AudioDevices AudioStreams AudioNames AudioWorker AudioRequests.
Local Open Scope Z_scope.
Local Open Scope ringrtc_scope.

Module AudioModule.
Import AudioDevices.
Import AudioWorker.

(** What belongs to the module itself. *)
Record AudioDeviceModule : Type := mkModule {
  backend_name : string;
  attempted_playout_init : bool;
  attempted_recording_init : bool;
  attempted_playout_start : bool;
  attempted_recording_start : bool;
  has_playout_device : bool;
  has_recording_device : bool;
}.
#[global] Instance AudioDeviceModule_eta : Eta AudioDeviceModule :=
  fun a => mkModule (backend_name a) (attempted_playout_init a) (attempted_recording_init a) (attempted_playout_start a)
    (attempted_recording_start a) (has_playout_device a) (has_recording_device a).

(** With the thread: the names behind the pointers that are shared, the events in the
    channel, whether the thread still receives them, and the delays that were sent back and
    not received yet. *)
Record Sys : Type := mkSys {
  adm : AudioDeviceModule;
  worker : Worker;
  input_names : list (option AudioDevice);
  output_names : list (option AudioDevice);
  queue : list Event;
  receiving : bool;
  replies : list (option Z);
}.
#[global] Instance Sys_eta : Eta Sys :=
  fun s => mkSys (adm s) (worker s) (input_names s) (output_names s) (queue s) (receiving s) (replies s).

Inductive ModuleError : Type :=
| SendFailed | UnknownDevice | InvalidDeviceIndex | NullPointerError | CopyFailed (e : CopyError) | FailedToInitialize.

Notation AM := (ST Sys ModuleError).

(** [mpsc::Sender::send] *)
Definition send (e : Event) : AM unit :=
  s ← Prelude.get;
  if receiving s then modify (fun s => s <| queue := queue s ++ [e] |>) else fail SendFailed.

Definition on_adm (f : AudioDeviceModule -> AudioDeviceModule) : AM unit := modify (fun s => s <| adm := f (adm s) |>).

(** An [i32] for C++: 0, or -1 for an error. *)
Definition code {A} (m : AM A) : AM Z :=
  r ← attempt m;
  mret (match r with Ok _ => 0 | Err _ => -1 end).

(** ** The thread *)

(** The next event: the names that the worker has are those behind the shared pointers,
    until it gives them up when it terminates. *)
Definition work_one (target : Target) (cubeb : Cubeb) (s : Sys) : Sys :=
  match receiving s, queue s with
  | true, e :: queue =>
    let w := (handle target cubeb e (worker s)).1 in
    match e with
    | Terminate => mkSys (adm s) w (input_names s) (output_names s) [] false (replies s)
    | _ => mkSys (adm s) (w <| delays := [] |>) (input_device_names w) (output_device_names w) queue true (replies s ++ delays w)
    end
  | _, _ => s
  end.

(** [device_changed], the callback that cubeb has for each type of device. *)
Definition device_changed (d : DeviceType) (s : Sys) : Sys := (send (RefreshCache d) s).1.

(** [Worker::spawn]: what can fail are COM on Windows, the context of cubeb, which otherwise
    says its name, and the registration of callbacks.  The name is the signal that the
    thread started; the first events are in the channel by then. *)
Definition spawn (target : Target) (com : bool) (ctx : option string) (register : DeviceType -> bool)
  : option (string * Worker * list Event) :=
  if bool_decide (target = Windows) && negb com then None
  else match ctx with
  | None => None
  | Some name =>
    if negb (register Input) then None
    else if negb (register Output) then None
    else Some (name, new_worker, [RefreshCache Input; RefreshCache Output])
  end.

Definition new (target : Target) (com : bool) (ctx : option string) (register : DeviceType -> bool) : result Sys ModuleError :=
  match spawn target com ctx register with
  | None => Err FailedToInitialize
  | Some (name, worker, events) => Ok (mkSys (mkModule name false false false false false false) worker [] [] events true [])
  end.

Definition drop_module : AM unit :=
  modify (fun s => s <| input_names := [] |> <| output_names := [] |>);;
  on_adm (fun a => a <| has_playout_device := false |> <| has_recording_device := false |>);;
  _ ← attempt (send Terminate);
  ret_ok.

(** ** Devices *)

Definition enumerate_devices (d : DeviceType) (s : Sys) : list (option AudioDevice) :=
  match d with Input => input_names s | Output => output_names s end.

(** [usize::try_into::<i16>().unwrap_or(-1)], and [i16] subtraction. *)
Definition to_i16 (n : Z) : Z := if n <=? 32767 then n else -1.

Definition device_count (target : Target) (d : DeviceType) (s : Sys) : Z :=
  let raw := to_i16 (zlen (enumerate_devices d s)) in
  match target with Windows => raw - 2 | _ => raw end.
Definition playout_devices (target : Target) (s : Sys) : Z := device_count target Output s.
Definition recording_devices (target : Target) (s : Sys) : Z := device_count target Input s.

Definition ADM_MAX_DEVICE_NAME_SIZE : Z := 128.
Definition ADM_MAX_GUID_SIZE : Z := 128.

(** The memory of the caller for a name and for a GUID. *)
Definition Buffers : Type := option (list Z) * option (list Z).

Definition copy_name_and_id (index : Z) (devices : list (option AudioDevice)) (out : Buffers)
  : outcome (Buffers * result unit ModuleError) :=
  match devices !! Z.to_nat index with
  | Some (Some d) =>
    '(name_out, r) ← copy_and_truncate_string (Text.as_bytes (name d)) out.1 ADM_MAX_DEVICE_NAME_SIZE;
    match r with
    | Err e => Val ((name_out, out.2), Err (CopyFailed e))
    | Ok _ =>
      '(guid_out, r) ← copy_and_truncate_string (Text.as_bytes (unique_id d)) out.2 ADM_MAX_GUID_SIZE;
      match r with
      | Err e => Val ((name_out, guid_out), Err (CopyFailed e))
      | Ok _ => Val ((name_out, guid_out), Ok tt)
      end
    end
  | _ => Val (out, Err InvalidDeviceIndex)
  end.

Definition device_name (d : DeviceType) (index : Z) (out : Buffers) (s : Sys) : outcome (Buffers * Z) :=
  '(out, r) ← copy_name_and_id index (enumerate_devices d s) out;
  Val (out, match r with Ok _ => 0 | Err _ => -1 end).
Definition playout_device_name (index : Z) (out : Buffers) (s : Sys) : outcome (Buffers * Z) := device_name Output index out s.
Definition recording_device_name (index : Z) (out : Buffers) (s : Sys) : outcome (Buffers * Z) := device_name Input index out s.

Definition set_device_by_id (id : string) (d : DeviceType) : AM unit :=
  s ← Prelude.get;
  let devices := enumerate_devices d s in
  if existsb (fun dopt => match dopt with Some a => bool_decide (unique_id a = id) | None => false end) devices then
    send (match d with Output => SetPlayoutDeviceById id | Input => SetRecordingDeviceById id end)
  else if bool_decide (devices = []) then ret_ok
  else fail UnknownDevice.

Definition set_playout_device_by_id (id : string) : AM unit := set_device_by_id id Output.
Definition set_recording_device_by_id (id : string) : AM unit := set_device_by_id id Input.

Definition set_device_by_index (index : Z) (d : DeviceType) : AM unit :=
  s ← Prelude.get;
  let devices := enumerate_devices d s in
  match devices !! Z.to_nat index with
  | Some _ => send (match d with Input => SetRecordingDevice index | Output => SetPlayoutDevice index end)
  | None => if bool_decide (devices = []) then ret_ok else fail InvalidDeviceIndex
  end.

Definition set_playout_device (index : Z) : AM unit :=
  out ← attempt (set_device_by_index index Output);
  (if is_ok out then on_adm (fun a => a <| has_playout_device := true |>) else ret_ok);;
  of_result out.

Definition set_recording_device (index : Z) : AM unit :=
  out ← attempt (set_device_by_index index Input);
  (if is_ok out then on_adm (fun a => a <| has_recording_device := true |>) else ret_ok);;
  of_result out.

(** ** Control *)

Definition init_playout : AM Z :=
  on_adm (fun a => a <| attempted_playout_init := true |>);; code (send InitPlayout).
Definition init_recording : AM Z :=
  on_adm (fun a => a <| attempted_recording_init := true |>);; code (send InitRecording).
Definition start_playout : AM Z :=
  on_adm (fun a => a <| attempted_playout_start := true |>);; code (send StartPlayout).
Definition start_recording : AM Z :=
  on_adm (fun a => a <| attempted_recording_start := true |>);; code (send StartRecording).
Definition stop_playout : AM Z :=
  on_adm (fun a => a <| attempted_playout_init := false |> <| attempted_playout_start := false |>);; code (send StopPlayout).
Definition stop_recording : AM Z :=
  on_adm (fun a => a <| attempted_recording_init := false |> <| attempted_recording_start := false |>);; code (send StopRecording).

Definition playout_is_initialized (s : Sys) : bool := attempted_playout_init (adm s).
Definition recording_is_initialized (s : Sys) : bool := attempted_recording_init (adm s).
Definition playing (s : Sys) : bool := attempted_playout_start (adm s).
Definition recording (s : Sys) : bool := attempted_recording_start (adm s).

Definition register_audio_device_callback : AM unit := send RegisterAudioObserver.
Definition warmup_recording : AM unit := send WarmupRecording.
Definition set_input_processing_enabled (enabled : bool) : AM unit := send (SetInputProcessing enabled).

(** [set_audio_warmup] of the peer connection factory *)
Definition set_audio_warmup (enable : bool) : AM unit :=
  if enable then
    r ← init_recording;
    if r =? 0 then warmup_recording else fail SendFailed
  else
    r ← stop_recording;
    if r =? 0 then ret_ok else fail SendFailed.

(** The request for the delay, and what is done when a reply arrives or, without one, the
    time is over. *)
Definition playout_delay_request : AM unit := send PlayoutDelay.

Definition write_to_null_or_valid_pointer {A} (ptr : option A) (v : A) : option A * result unit ModuleError :=
  match ptr with Some _ => (Some v, Ok tt) | None => (None, Err NullPointerError) end.

Definition playout_delay_reply (delay_ms : option Z) : AM (option Z * Z) := fun s =>
  match replies s with
  | [] => (s, Ok (delay_ms, -1))
  | reply :: rest =>
    let s := s <| replies := rest |> in
    match reply with
    | Some latency_ms =>
      let '(delay_ms, r) := write_to_null_or_valid_pointer delay_ms latency_ms in
      (s, Ok (delay_ms, match r with Ok _ => 0 | Err _ => -1 end))
    | None => (s, Ok (delay_ms, -1))
    end
  end.

(** Whether a device can be used at all, behind a pointer of C++. *)
Definition is_available (d : DeviceType) (available_out : option bool) (s : Sys) : option bool * Z :=
  let available := match d with Input => has_recording_device (adm s) | Output => has_playout_device (adm s) end in
  let '(out, r) := write_to_null_or_valid_pointer available_out available in
  (out, match r with Ok _ => 0 | Err _ => -1 end).

(** What the module does not offer: volumes, muting and stereo. *)
Inductive Feature : Type := SpeakerVolume | MicrophoneVolume | SpeakerMute | MicrophoneMute | StereoPlayout | StereoRecording.
Inductive FeatureCall : Type := IsAvailable (available : option bool) | SetValue (v : Z) | GetValue (v : option Z) | GetMax (v : option Z) | GetMin (v : option Z).

Definition feature_call (f : Feature) (c : FeatureCall) : FeatureCall * Z :=
  match c with
  | IsAvailable available =>
    let '(out, r) := write_to_null_or_valid_pointer available false in
    (IsAvailable out, match r with Ok _ => 0 | Err _ => -1 end)
  | SetValue _ | GetValue _ | GetMax _ | GetMin _ => (c, -1)
  end.

End AudioModule.
