(* ===== verification/AudioSystem.v ===== *)
(** * Runs of the audio device module

    Theorems about [AudioModule] with its thread: what WebRTC and the application see and
    what the thread does agree, however their steps interleave. *)

From S2P Require Import Prelude Base16 AudioDevices AudioStreams AudioNames AudioWorker AudioRequests AudioModule.
Local Open Scope Z_scope.
Local Open Scope ringrtc_scope.

Module AudioSystem.
Import AudioDevices.
Import AudioWorker.
Import AudioModule.

(** ** Runs *)

Inductive Call : Type :=
| CallInitPlayout | CallStartPlayout | CallStopPlayout
| CallInitRecording | CallStartRecording | CallStopRecording
| CallWarmup (enable : bool)
| CallSetPlayoutDevice (index : Z) | CallSetRecordingDevice (index : Z)
| CallSetPlayoutDeviceById (id : string) | CallSetRecordingDeviceById (id : string)
| CallSetInputProcessing (enabled : bool)
| CallRegister | CallDelayRequest | CallDelayReply (delay_ms : option Z).

Definition call (c : Call) (s : Sys) : Sys :=
  match c with
  | CallInitPlayout => (init_playout s).1
  | CallStartPlayout => (start_playout s).1
  | CallStopPlayout => (stop_playout s).1
  | CallInitRecording => (init_recording s).1
  | CallStartRecording => (start_recording s).1
  | CallStopRecording => (stop_recording s).1
  | CallWarmup enable => (set_audio_warmup enable s).1
  | CallSetPlayoutDevice index => (set_playout_device index s).1
  | CallSetRecordingDevice index => (set_recording_device index s).1
  | CallSetPlayoutDeviceById id => (set_playout_device_by_id id s).1
  | CallSetRecordingDeviceById id => (set_recording_device_by_id id s).1
  | CallSetInputProcessing enabled => (set_input_processing_enabled enabled s).1
  | CallRegister => (register_audio_device_callback s).1
  | CallDelayRequest => (playout_delay_request s).1
  | CallDelayReply delay_ms => (playout_delay_reply delay_ms s).1
  end.

(** A call, an event that the thread handles, or a device that comes or goes. *)
Inductive Step : Type := Client (c : Call) | Thread (cubeb : Cubeb) | Changed (d : DeviceType).

Section Runs.
Context (target : Target).

Definition step (x : Step) (s : Sys) : Sys :=
  match x with
  | Client c => call c s
  | Thread cubeb => work_one target cubeb s
  | Changed d => device_changed d s
  end.

Definition run (steps : list Step) (s : Sys) : Sys := fold_left (fun s x => step x s) steps s.

(** ** What the clients see *)

(** While the module is not dropped. *)
Definition alive (s : Sys) : Prop :=
  receiving s = true /\ Terminate ∉ queue s /\ AudioRequests.devices_ok target (worker s) /\
  input_names s = input_device_names (worker s) /\ output_names s = output_device_names (worker s).

(** What a call changes: flags, and it adds requests for the thread. *)
Definition asks (es : list Event) (s s' : Sys) : Prop :=
  worker s' = worker s /\ input_names s' = input_names s /\ output_names s' = output_names s /\
  receiving s' = receiving s /\ queue s' = queue s ++ es.

Definition requests (c : Call) (s : Sys) : list Event :=
  match c with
  | CallInitPlayout => [InitPlayout]
  | CallStartPlayout => [StartPlayout]
  | CallStopPlayout => [StopPlayout]
  | CallInitRecording => [InitRecording]
  | CallStartRecording => [StartRecording]
  | CallStopRecording => [StopRecording]
  | CallWarmup true => [InitRecording; WarmupRecording]
  | CallWarmup false => [StopRecording]
  | CallSetPlayoutDevice index => match output_names s !! Z.to_nat index with Some _ => [SetPlayoutDevice index] | None => [] end
  | CallSetRecordingDevice index => match input_names s !! Z.to_nat index with Some _ => [SetRecordingDevice index] | None => [] end
  | CallSetPlayoutDeviceById id =>
    if existsb (fun dopt => match dopt with Some a => bool_decide (unique_id a = id) | None => false end) (output_names s)
    then [SetPlayoutDeviceById id] else []
  | CallSetRecordingDeviceById id =>
    if existsb (fun dopt => match dopt with Some a => bool_decide (unique_id a = id) | None => false end) (input_names s)
    then [SetRecordingDeviceById id] else []
  | CallSetInputProcessing enabled => [SetInputProcessing enabled]
  | CallRegister => [RegisterAudioObserver]
  | CallDelayRequest => [PlayoutDelay]
  | CallDelayReply _ => []
  end.

Lemma call_asks c s : receiving s = true -> asks (requests c s) s (call c s).
Proof.
  intros Hr. unfold asks. destruct c as [| | | | | |enable|i|i|id|id|enabled| | |p]; cbn [call requests];
    unfold set_audio_warmup, init_playout, start_playout, stop_playout, init_recording, start_recording, stop_recording,
      set_playout_device, set_recording_device, set_playout_device_by_id, set_recording_device_by_id,
      set_input_processing_enabled, register_audio_device_callback, playout_delay_request, playout_delay_reply,
      set_device_by_index, set_device_by_id, warmup_recording, code, send, on_adm, attempt, modify, fail, of_result,
      Prelude.get, mbind, ST_bind, mret, ST_ret, ret_ok, enumerate_devices.
  all: try destruct enable; cbn; rewrite ?Hr; cbn; rewrite ?Hr; cbn; try done.
  - split_and!; try done. by rewrite <-app_assoc.
  - destruct (output_names s !! Z.to_nat i); rewrite ?Hr; cbn; [done|]. destruct (bool_decide _); cbn; rewrite ?app_nil_r; done.
  - destruct (input_names s !! Z.to_nat i); rewrite ?Hr; cbn; [done|]. destruct (bool_decide _); cbn; rewrite ?app_nil_r; done.
  - destruct (existsb _ _); rewrite ?Hr; cbn; [done|]. destruct (bool_decide _); cbn; rewrite ?app_nil_r; done.
  - destruct (existsb _ _); rewrite ?Hr; cbn; [done|]. destruct (bool_decide _); cbn; rewrite ?app_nil_r; done.
  - destruct (replies s) as [|[l|] rs]; [cbn; by rewrite app_nil_r| |cbn; by rewrite app_nil_r].
    destruct (write_to_null_or_valid_pointer p l); cbn; by rewrite app_nil_r.
Qed.

Lemma requests_go_on c s : Terminate ∉ requests c s.
Proof.
  destruct c as [| | | | | |[]|i|i|id|id|enabled| | |p]; cbn; try set_solver; by case_match; set_solver.
Qed.

Lemma step_alive x s : alive s -> alive (step x s).
Proof.
  intros (Hr & Hq & Hw & Hi & Ho). destruct x as [c|cubeb|d]; cbn [step].
  - destruct (call_asks c s Hr) as (Ew & Ei & Eo & Er & Eq). unfold alive. rewrite Ew, Ei, Eo, Er, Eq.
    split_and!; try done. pose proof (requests_go_on c s). set_solver.
  - unfold work_one. rewrite Hr. destruct (queue s) as [|e q] eqn:Eq; [split_and!; try done; rewrite Eq; set_solver|].
    pose proof (AudioRequests.handle_ok target cubeb e _ Hw) as Hw'. set (w := (handle _ _ _ _).1) in *.
    assert (e <> Terminate) by set_solver. destruct e; try done; (split_and!; [done|set_solver|exact Hw'|done|done]).
  - unfold device_changed, send. unfold mbind, ST_bind, Prelude.get, modify. rewrite Hr. cbn. split_and!; try done. cbn. set_solver.
Qed.

Lemma run_alive steps s : alive s -> alive (run steps s).
Proof. revert s. induction steps as [|x steps IH]; intros s Hs; [done|]. cbn. by apply IH, step_alive. Qed.

Lemma new_alive com ctx register s : new target com ctx register = Ok s -> alive s.
Proof.
  unfold new, spawn. destruct (_ && negb com); [done|]. destruct ctx; [|done]. destruct (register Input), (register Output); try done. intros [= <-].
  split_and!; [done|set_solver| |done|done]. split_and!; [done|done|by right|by right].
Qed.

(** ** Inputs and outputs alike *)

Definition cache (d : DeviceType) (w : Worker) : DeviceCollection :=
  match d with Input => input_device_cache w | Output => output_device_cache w end.
Definition selected (d : DeviceType) (w : Worker) : option Z :=
  match d with Input => recording_device w | Output => playout_device w end.
Definition stream (d : DeviceType) (w : Worker) : option Stream :=
  match d with Input => input_stream w | Output => output_stream w end.
Definition set_device (d : DeviceType) (index : Z) : AM unit :=
  match d with Input => set_recording_device index | Output => set_playout_device index end.
Definition has_device (d : DeviceType) (a : AudioDeviceModule) : bool :=
  match d with Input => has_recording_device a | Output => has_playout_device a end.
Definition set_event (d : DeviceType) (index : Z) : Event :=
  match d with Input => SetRecordingDevice index | Output => SetPlayoutDevice index end.

(** cubeb stops the stream that is to be replaced, if there is one. *)
Definition stops (cubeb : Cubeb) (d : DeviceType) (w : Worker) : Prop :=
  stream d w = None \/ stop_stream cubeb d = true.

Lemma update_playout_device_selects cubeb id w :
  stops cubeb Output w -> playout_device (update_playout_device target cubeb id w).1 = Some id.
Proof.
  intros Hstop. unfold stops in Hstop. cbn in Hstop. unfold update_playout_device, when, AudioWorker.stop_playout,
    AudioWorker.init_playout, AudioWorker.start_playout, choose_playout_device, check. AudioRequests.st_unfold.
  destruct (output_stream w) eqn:Es; cbn.
  - destruct Hstop as [|Hstop]; [done|].
    rewrite Es, Hstop. cbn. destruct (init_stream cubeb Output id); cbn; [|done].
    destruct (should_play w); cbn; [|done]. by destruct (start_stream cubeb Output).
  - destruct (should_play w); cbn; [|done]. by rewrite Es.
Qed.

Lemma update_recording_device_selects cubeb id w :
  stops cubeb Input w -> recording_device (update_recording_device target cubeb id w).1 = Some id.
Proof.
  intros Hstop. unfold stops in Hstop. cbn in Hstop. unfold update_recording_device, when, AudioWorker.stop_recording,
    AudioWorker.init_recording, AudioWorker.start_recording, choose_recording_device, check. AudioRequests.st_unfold.
  destruct (input_stream w) eqn:Es; cbn.
  - destruct Hstop as [|Hstop]; [done|]. rewrite Es, Hstop. cbn.
    destruct (init_stream cubeb Input id); cbn; [|done].
    destruct (should_record w); cbn; [|done]. by destruct (start_stream cubeb Input).
  - destruct (should_record w); cbn; [|done]. destruct (negb (send_to_webrtc w)); cbn; [done|]. by rewrite Es.
Qed.

(** What the thread makes of the request. *)
Lemma set_event_selects cubeb d index w :
  match AudioDevices.get target index (cache d w) with
  | Some x => stops cubeb d w -> selected d (handle target cubeb (set_event d index) w).1 = Some (devid x)
  | None => (handle target cubeb (set_event d index) w).1 = w
  end.
Proof.
  destruct d; cbn [cache set_event selected]; unfold handle; rewrite (ST_bind_run _ _ _ w w eq_refl);
    destruct (AudioDevices.get _ _ _); try done; [apply update_recording_device_selects|apply update_playout_device_selects].
Qed.

(** ** Requests are handled in order *)

Fixpoint thread_steps (steps : list Step) : nat :=
  match steps with
  | [] => 0
  | Thread _ :: steps => S (thread_steps steps)
  | _ :: steps => thread_steps steps
  end.

(** When the thread has handled as many events as were in front, the next one is at the
    head, whatever was sent meanwhile. *)
Lemma queue_after steps front back s :
  alive s -> queue s = front ++ back -> thread_steps steps = length front ->
  exists more, queue (run steps s) = back ++ more.
Proof.
  revert front back s. induction steps as [|x steps IH]; intros front back s Hs Hq Hn.
  { destruct front; [|done]. exists []. by rewrite app_nil_r. }
  pose proof (step_alive x s Hs) as Hs'. cbn [run fold_left]. change (fold_left _ steps (step x s)) with (run steps (step x s)).
  destruct x as [c|cubeb|d]; cbn [thread_steps] in Hn.
  - destruct Hs as [Hr _]. destruct (call_asks c s Hr) as (_ & _ & _ & _ & Eq).
    destruct (IH front (back ++ requests c s) (step (Client c) s) Hs') as [more Hm]; [cbn; by rewrite Eq, Hq, app_assoc|done|].
    exists (requests c s ++ more). by rewrite Hm, app_assoc.
  - destruct front as [|e front]; [done|]. destruct Hs as (Hr & Ht & _).
    apply (IH front back (step (Thread cubeb) s) Hs'); [|by injection Hn]. cbn. unfold work_one. rewrite Hr, Hq. cbn.
    destruct e; try done. exfalso. apply Ht. rewrite Hq. by left.
  - destruct Hs as [Hr _].
    destruct (IH front (back ++ [RefreshCache d]) (step (Changed d) s) Hs') as [more Hm]; [|done|].
    { cbn. unfold device_changed, send, mbind, ST_bind, Prelude.get, modify. rewrite Hr. cbn. by rewrite Hq, app_assoc. }
    exists (RefreshCache d :: more). by rewrite Hm, <- app_assoc.
Qed.

(** A name that is shown belongs to a device of the list. *)
Lemma shown_is_listed t s index a :
  alive s -> 0 <= index -> AudioModule.enumerate_devices t s !! Z.to_nat index = Some (Some a) ->
  exists d, AudioDevices.get target index (cache t (worker s)) = Some d /\ d ∈ iter (cache t (worker s)) /\
    a = mkAudioDevice (shown_name target index (friendly_name d)) (shown_id index d) "".
Proof.
  intros (_ & _ & (_ & _ & Hno & Hni) & Hi' & Ho) Hi.
  assert (AudioModule.enumerate_devices t s = extract_names target (cache t (worker s)) \/
          AudioModule.enumerate_devices t s = []) as [->| ->].
  { destruct t; cbn; [rewrite Hi'; destruct Hni as [->|[_ ->]]|rewrite Ho; destruct Hno as [->|[_ ->]]]; auto. }
  2: done.
  rewrite AudioNames.extract_names_lookup by done. destruct (_ <? _); [|done]. unfold extract_name. intros [= H].
  destruct (AudioDevices.get target index _) as [d|] eqn:E; [|done]. injection H as <-.
  exists d. split_and!; [done|by eapply AudioNames.get_enabled|done].
Qed.

Lemma copy_name_and_id_spec index devices name_out guid_out out' :
  128 <= zlen name_out -> 128 <= zlen guid_out ->
  copy_name_and_id index devices (Some name_out, Some guid_out) = Val (out', Ok tt) ->
  exists a m1 m2, devices !! Z.to_nat index = Some (Some a) /\ out' = (Some m1, Some m2) /\
    AudioNames.c_string m1 = take 127 (Text.as_bytes (name a)) /\ AudioNames.c_string m2 = take 127 (Text.as_bytes (unique_id a)).
Proof.
  intros H1 H2. unfold copy_name_and_id. destruct (devices !! _) as [[a|]|]; [|done..].
  assert (Htake : forall src : list Z, take (Z.to_nat (Z.min (zlen src) (128 - 1))) src = take 127 src).
  { intros src. unfold zlen. destruct (decide (length src <= 127)%nat); [rewrite !take_ge by lia; done|f_equal; lia]. }
  destruct (AudioNames.copy_spec (Text.as_bytes (name a)) name_out 128 ltac:(lia) H1) as (m1 & r1 & E1 & Hr1).
  destruct (AudioNames.copy_spec (Text.as_bytes (unique_id a)) guid_out 128 ltac:(lia) H2) as (m2 & r2 & E2 & Hr2).
  unfold ADM_MAX_DEVICE_NAME_SIZE, ADM_MAX_GUID_SIZE. cbn [fst snd]. rewrite E1. unfold mbind, outcome_bind. destruct r1; [|done].
  rewrite E2. destruct r2; [|done]. intros [= <-]. exists a, m1, m2. rewrite !Htake in *. destruct Hr1, Hr2. done.
Qed.

End Runs.

(** A request to use a device that is listed is queued. *)
Lemma set_device_queues t index a s :
  receiving s = true -> AudioModule.enumerate_devices t s !! Z.to_nat index = Some (Some a) ->
  (set_device t index s).2 = Ok tt /\ has_device t (adm (set_device t index s).1) = true /\
  queue (set_device t index s).1 = queue s ++ [set_event t index] /\
  worker (set_device t index s).1 = worker s.
Proof.
  intros Hr Ha. destruct t; cbn [set_device set_event has_device];
    unfold set_playout_device, set_recording_device, set_device_by_index, attempt, send, mbind, ST_bind, Prelude.get, modify;
    cbn -[AudioModule.enumerate_devices]; rewrite Ha, Hr; done.
Qed.

Lemma set_device_call t index s :
  (set_device t index s).1 = call (match t with Input => CallSetRecordingDevice index | Output => CallSetPlayoutDevice index end) s.
Proof. by destruct t. Qed.

(** C32. What is shown is what is selected, for inputs and outputs, however calls, the audio
    thread and changes of the devices interleave.  If the module gives name and id of
    a device to C++, they are those of a device that is enabled, up to what fits.
    To set the device with the same index succeeds and queues a request.  When the thread comes to it, after the
    events that were queued before and whatever is called meanwhile, it looks for the index in
    the list that it has by then and uses the device there, provided that cubeb stops the
    stream that is in use.  This is the device that was shown, unless the list has changed in between; then it
    may be another one, or none, and then the device stays what it was. *)
Theorem shown_device_is_selected target com ctx register s0 steps t index name_out guid_out out' :
  new target com ctx register = Ok s0 -> 0 <= index -> 128 <= zlen name_out -> 128 <= zlen guid_out ->
  let s := run target steps s0 in
  device_name t index (Some name_out, Some guid_out) s = Val (out', 0) ->
  exists d m1 m2, d ∈ iter (cache t (worker s)) /\ out' = (Some m1, Some m2) /\
    AudioNames.c_string m1 = take 127 (Text.as_bytes (shown_name target index (friendly_name d))) /\
    AudioNames.c_string m2 = take 127 (Text.as_bytes (shown_id index d)) /\
    (set_device t index s).2 = Ok tt /\ has_device t (adm (set_device t index s).1) = true /\
    forall rest cubeb, thread_steps rest = length (queue s) ->
      let w1 := worker (run target rest (set_device t index s).1) in
      let w2 := worker (work_one target cubeb (run target rest (set_device t index s).1)) in
      match AudioDevices.get target index (cache t w1) with
      | Some d1 => stops cubeb t w1 -> selected t w2 = Some (devid d1)
      | None => selected t w2 = selected t w1
      end /\
      (cache t w1 = cache t (worker s) -> stops cubeb t w1 -> selected t w2 = Some (devid d)).
Proof.
  intros Hnew Hi H1 H2 s Hname. pose proof (run_alive target steps s0 (new_alive target _ _ _ _ Hnew)) as Hs. fold s in Hs.
  unfold device_name in Hname.
  destruct (copy_name_and_id index (AudioModule.enumerate_devices t s) (Some name_out, Some guid_out)) as [[o r]|] eqn:Ec; [|done].
  cbn in Hname. injection Hname as -> Hr. destruct r as [[]|e]; [|done].
  apply copy_name_and_id_spec in Ec as (a & m1 & m2 & Ha & -> & Hm1 & Hm2); [|done..].
  destruct (shown_is_listed target t s index a Hs Hi Ha) as (d & Hget & Hd & ->). cbn in Hm1, Hm2.
  destruct (set_device_queues t index _ s (proj1 Hs) Ha) as (Hok & Hhas & Hq & _).
  exists d, m1, m2. split_and!; [done..|]. intros rest cubeb Hn. cbn zeta.
  pose proof (step_alive target (Client (match t with Input => CallSetRecordingDevice index | Output => CallSetPlayoutDevice index end)) s Hs) as Hs'.
  cbn [step] in Hs'. rewrite <- set_device_call in Hs'.
  destruct (queue_after target rest (queue s) [set_event t index] _ Hs' Hq Hn) as [more Hmore].
  pose proof (run_alive target rest _ Hs') as (Hr1 & _).
  set (s1 := run target rest (set_device t index s).1) in *.
  assert (worker (work_one target cubeb s1) = ((handle target cubeb (set_event t index) (worker s1)).1) <| delays := [] |>) as Hw.
  { unfold work_one. rewrite Hr1, Hmore. by destruct t. }
  pose proof (set_event_selects target cubeb t index (worker s1)) as Hsel.
  assert (forall w, selected t (w <| delays := [] |>) = selected t w) as Hdel by (by destruct t).
  rewrite Hw, Hdel. split.
  - destruct (AudioDevices.get target index (cache t (worker s1))) as [x|]; [exact Hsel|exact (f_equal (selected t) Hsel)].
  - intros Hc. rewrite Hc, Hget in Hsel. exact Hsel.
Qed.

(** The ids that are made up cannot be used: a device without an id is shown with its name
    and index instead, and to set the output device by that id succeeds, but the thread
    finds no such device and uses the one it used before, whatever cubeb answers. *)
Theorem made_up_ids_select_nothing target com ctx register s0 steps index d :
  new target com ctx register = Ok s0 -> 0 <= index ->
  let s := run target steps s0 in
  queue s = [] -> index < zlen (output_names s) ->
  AudioDevices.get target index (output_device_cache (worker s)) = Some d -> device_id d = None ->
  Forall (fun d' => device_id d' <> Some (shown_id index d)) (output_device_cache (worker s)) ->
  (set_playout_device_by_id (shown_id index d) s).2 = Ok tt /\
  forall cubeb,
    let s' := work_one target cubeb (set_playout_device_by_id (shown_id index d) s).1 in
    queue s' = [] /\ playout_device (worker s') = playout_device (worker s).
Proof.
  intros Hnew Hi s Hq Hlen Hget Hnone Hall.
  pose proof (run_alive target steps s0 (new_alive target _ _ _ _ Hnew)) as (Hr & _ & (_ & _ & Hn & _) & _ & Ho). fold s in Hr, Hn, Ho.
  set (id := shown_id index d) in *.
  assert (Hfind : find_by_id id (output_device_cache (worker s)) = None).
  { destruct (find_by_id id _) as [d'|] eqn:E; [|done]. apply List.find_some in E as [Hin Hid%bool_decide_eq_true].
    unfold iter in Hin. apply List.filter_In in Hin as [Hin _]. rewrite Forall_forall in Hall.
    by destruct (Hall d' (proj2 (list_elem_of_In _ _) Hin)). }
  assert (Hshown : existsb (fun dopt => match dopt with Some a => bool_decide (unique_id a = id) | None => false end) (output_names s) = true).
  { apply List.existsb_exists. exists (Some (mkAudioDevice (shown_name target index (friendly_name d)) id "")).
    split; [|by rewrite bool_decide_true]. apply list_elem_of_In, list_elem_of_lookup. exists (Z.to_nat index).
    destruct Hn as [Hn|[_ Hn]]; rewrite Ho, Hn in *; [|change (zlen (@nil (option AudioDevice))) with 0 in Hlen; lia].
    assert (Ha : index < addressable target (output_device_cache (worker s))) by (unfold extract_names, zlen in Hlen; rewrite length_fmap, length_seqZ in Hlen; lia).
    rewrite AudioNames.extract_names_lookup by done. rewrite (proj2 (Z.ltb_lt _ _)) by done. unfold extract_name. by rewrite Hget. }
  assert (Hset : set_playout_device_by_id id s = (s <| queue := [SetPlayoutDeviceById id] |>, Ok tt)).
  { unfold set_playout_device_by_id, set_device_by_id, send, mbind, ST_bind, Prelude.get, modify. cbn. rewrite Hshown, Hr. by rewrite Hq. }
  rewrite Hset. split; [done|]. intros cubeb. unfold work_one. cbn [receiving queue set_field fst worker].
  rewrite Hr. cbn. unfold handle. rewrite (ST_bind_run _ _ _ (worker s) (worker s) eq_refl). by rewrite Hfind.
Qed.

(** ** What the flags say *)

Definition play_request (plays : bool) (e : Event) : bool :=
  match e with StartPlayout => true | StopPlayout => false | _ => plays end.

Section Playing.
Context (target : Target).

Hint Extern 1 (respects (same _) (modify _)) => apply respects_modify; intros ?; reflexivity : respects.

Lemma recording_keeps_playing cubeb id send :
  respects (same should_play) (AudioWorker.init_recording target cubeb) /\
  respects (same should_play) (AudioWorker.start_recording cubeb send) /\
  respects (same should_play) (AudioWorker.stop_recording cubeb) /\
  respects (same should_play) (update_recording_device target cubeb id) /\
  respects (same should_play) (AudioWorker.set_input_processing_enabled target cubeb send).
Proof.
  unfold AudioWorker.set_input_processing_enabled, update_recording_device, AudioWorker.init_recording,
    AudioWorker.start_recording, AudioWorker.stop_recording, choose_recording_device, check, when.
  split_and!; solve_respects.
Qed.

Lemma choose_playout_keeps : respects (same should_play) (choose_playout_device target).
Proof. unfold choose_playout_device. solve_respects. Qed.

Lemma refresh_keeps_playing cubeb d : respects (same should_play) (refresh_device_cache target cubeb d).
Proof. unfold refresh_device_cache, notify. solve_respects. Qed.

Lemma init_playout_keeps_playing cubeb : respects (same should_play) (AudioWorker.init_playout target cubeb).
Proof. unfold AudioWorker.init_playout, choose_playout_device. solve_respects. Qed.

Lemma start_playout_plays cubeb w : should_play (AudioWorker.start_playout cubeb w).1 = true.
Proof. unfold AudioWorker.start_playout, check. AudioRequests.st_unfold. cbn. destruct (output_stream w); [|done]. by destruct (start_stream cubeb Output). Qed.

Lemma stop_playout_stops cubeb w : should_play (AudioWorker.stop_playout cubeb w).1 = false.
Proof. unfold AudioWorker.stop_playout, check. AudioRequests.st_unfold. cbn. destruct (output_stream w); [|done]. by destruct (stop_stream cubeb Output). Qed.

Lemma update_playout_device_playing cubeb id w w' :
  update_playout_device target cubeb id w = (w', Ok tt) -> should_play w' = should_play w.
Proof.
  unfold update_playout_device. rewrite (ST_bind_run _ _ _ w w eq_refl). intros H.
  apply ST_bind_ok in H as (w1 & [] & H1 & H). apply ST_bind_ok in H as (w2 & [] & H2 & H). apply ST_bind_ok in H as (w3 & [] & H3 & H4).
  unfold when in *. pose proof (start_playout_plays cubeb w3) as Hstart. destruct (should_play w) eqn:E.
  - by rewrite H4 in Hstart.
  - injection H4 as <-. injection H2 as <-. destruct (bool_decide _).
    + pose proof (init_playout_keeps_playing cubeb (w1 <| playout_device := Some id |>)) as Hk. rewrite H3 in Hk. unfold same in Hk. cbn in Hk. rewrite Hk.
      pose proof (stop_playout_stops cubeb w) as Hs. by rewrite H1 in Hs.
    + injection H3 as <-. injection H1 as <-. done.
Qed.

Lemma kept_playing (m : ST Worker AudioError unit) w w' : respects (same should_play) m -> m w = (w', Ok tt) -> should_play w' = should_play w.
Proof. intros Hm H. specialize (Hm w). by rewrite H in Hm. Qed.

Lemma handle_playing cubeb e w w' :
  handle target cubeb e w = (w', Ok tt) -> should_play w' = play_request (should_play w) e.
Proof.
  unfold handle. rewrite (ST_bind_run _ _ _ w w eq_refl).
  pose proof (start_playout_plays cubeb w) as Hstart. pose proof (stop_playout_stops cubeb w) as Hstop.
  destruct (recording_keeps_playing cubeb 0 true) as (Hinit & Hrec & Hstoprec & _).
  destruct (recording_keeps_playing cubeb 0 false) as (_ & Hwarm & _).
  destruct e as [d|i|id|i|id| | | | | | |enabled| | | |]; intros H; cbn [play_request];
    try (destruct (AudioDevices.get _ _ _) as [d|]; [|done]); try (destruct (find_by_id _ _) as [d|]; [|done]);
    try (eapply kept_playing; [|exact H]; done); try (by eapply update_playout_device_playing); try (by rewrite H in *); try (by injection H as <-).
  - eapply kept_playing; [|exact H]. apply refresh_keeps_playing.
  - eapply kept_playing; [|exact H]. apply (recording_keeps_playing cubeb (devid d) true).
  - eapply kept_playing; [|exact H]. apply (recording_keeps_playing cubeb (devid d) true).
  - eapply kept_playing; [|exact H]. apply init_playout_keeps_playing.
  - eapply kept_playing; [|exact H]. apply (recording_keeps_playing cubeb 0 enabled).
Qed.

(** The thread could do what it was asked in each step of a run. *)
Fixpoint undisturbed (steps : list Step) (s : Sys) : Prop :=
  match steps with
  | [] => True
  | x :: steps =>
    match x, queue s with
    | Thread cubeb, e :: _ => (handle target cubeb e (worker s)).2 = Ok tt
    | _, _ => True
    end /\ undisturbed steps (step target x s)
  end.

Definition flag_agrees (s : Sys) : Prop := playing s = fold_left play_request (queue s) (should_play (worker s)).

Lemma call_flag c s : receiving s = true -> playing (call c s) = fold_left play_request (requests c s) (playing s).
Proof.
  intros Hr. destruct c as [| | | | | |enable|i|i|id|id|enabled| | |p]; cbn [call requests];
    unfold set_audio_warmup, init_playout, start_playout, stop_playout, init_recording, start_recording, stop_recording,
      set_playout_device, set_recording_device, set_playout_device_by_id, set_recording_device_by_id,
      AudioModule.set_input_processing_enabled, register_audio_device_callback, playout_delay_request, playout_delay_reply,
      set_device_by_index, set_device_by_id, warmup_recording, code, send, on_adm, attempt, modify, fail, of_result,
      Prelude.get, mbind, ST_bind, mret, ST_ret, ret_ok, AudioModule.enumerate_devices.
  all: try destruct enable; cbn; rewrite ?Hr; cbn; rewrite ?Hr; cbn; try done.
  - destruct (output_names s !! Z.to_nat i); rewrite ?Hr; cbn; [done|]. by destruct (bool_decide _).
  - destruct (input_names s !! Z.to_nat i); rewrite ?Hr; cbn; [done|]. by destruct (bool_decide _).
  - destruct (existsb _ _); rewrite ?Hr; cbn; [done|]. by destruct (bool_decide _).
  - destruct (existsb _ _); rewrite ?Hr; cbn; [done|]. by destruct (bool_decide _).
  - destruct (replies s) as [|[l|] rs]; [done| |done]. by destruct (write_to_null_or_valid_pointer p l).
Qed.

Lemma step_flag x s :
  alive target s -> flag_agrees s ->
  (match x, queue s with Thread cubeb, e :: _ => (handle target cubeb e (worker s)).2 = Ok tt | _, _ => True end) ->
  flag_agrees (step target x s).
Proof.
  intros Hs Hf Hok. pose proof Hs as (Hr & Hq & _). unfold flag_agrees in *. destruct x as [c|cubeb|d]; cbn [step].
  - rewrite call_flag by done. destruct (call_asks c s Hr) as (-> & _ & _ & _ & ->). by rewrite fold_left_app, Hf.
  - unfold work_one. rewrite Hr. destruct (queue s) as [|e q] eqn:Eq; [by rewrite Eq|].
    destruct (handle target cubeb e (worker s)) as [w r] eqn:Eh. cbn in Hok. subst r. apply handle_playing in Eh.
    assert (e <> Terminate) by set_solver. cbn [fold_left] in Hf. rewrite <-Eh in Hf. by destruct e.
  - unfold device_changed, send. unfold mbind, ST_bind, Prelude.get, modify. rewrite Hr. cbn. by rewrite fold_left_app.
Qed.

End Playing.

(** What [playing] says is true as soon as the audio thread has caught up: after any
    run in which the thread could do what it was asked, the flag of the module is what the
    thread wants, with the requests still on their way taken into account. *)
Theorem playing_is_what_the_thread_does target com ctx register s0 steps :
  new target com ctx register = Ok s0 -> undisturbed target steps s0 ->
  let s := run target steps s0 in
  playing s = fold_left play_request (queue s) (should_play (worker s)) /\ (queue s = [] -> playing s = should_play (worker s)).
Proof.
  intros Hnew Hok. assert (Hf : flag_agrees s0).
  { unfold new, spawn in Hnew. destruct (_ && negb com); [done|]. destruct ctx; [|done]. destruct (register Input), (register Output); try done. by injection Hnew as <-. }
  pose proof (new_alive target _ _ _ _ Hnew) as Hs. clear Hnew. revert s0 Hs Hf Hok.
  induction steps as [|x steps IH]; intros s0 Hs Hf Hok.
  - cbn. split; [done|]. intros Hq. unfold flag_agrees in Hf. by rewrite Hq in Hf.
  - destruct Hok as [H1 H2]. cbn. apply IH; [by apply step_alive|by apply step_flag|done].
Qed.

End AudioSystem.
