(* ===== verification/AudioExamples.v ===== *)
(** * The audio device module on concrete inputs

    The theorems of [AudioRequests] and [AudioSystem] at runs with two output devices, and
    runs that show what happens at the beginning and after failures. *)

From S2P Require Import Prelude Base16 AudioDevices AudioStreams AudioNames AudioWorker AudioRequests AudioModule AudioSystem.
Local Open Scope Z_scope.
Local Open Scope ringrtc_scope.

Module AudioExamples.
Import AudioDevices.
Import AudioWorker.
Import AudioRequests.
Import AudioModule.
Import AudioSystem.

Definition usb : DeviceInfo := mkDeviceInfo 7 (Some "usb"%string) (Some "USB headset"%string) 2 PREF_VOICE StateEnabled.
Definition line_out : DeviceInfo := mkDeviceInfo 8 None (Some "Line out"%string) 2 0 StateEnabled.

Definition cubeb : Cubeb :=
  mkCubeb (fun _ => Some [usb; line_out]) (fun _ => Some 960) (fun _ _ => true) (fun _ => true) (fun _ => true) (Some 4800) None.
(** A device that is in use elsewhere. *)
Definition busy : Cubeb :=
  mkCubeb (fun _ => Some [usb; line_out]) (fun _ => None) (fun _ _ => false) (fun _ => false) (fun _ => true) None None.

Definition fresh : Sys :=
  mkSys (mkModule "pulse-rust" false false false false false false) new_worker [] [] [RefreshCache Input; RefreshCache Output] true [].

Lemma fresh_is_new target : new target true (Some "pulse-rust"%string) (fun _ => true) = Ok fresh.
Proof. by destruct target. Qed.

(** Before the thread has handled its first events no device is known. *)
Example devices_at_the_beginning :
  (playout_devices Linux fresh, playout_devices Windows fresh,
   playout_devices Linux (run Linux [Thread cubeb; Thread cubeb] fresh),
   playout_devices Windows (run Windows [Thread cubeb; Thread cubeb] fresh)) = (0, -2, 3, 2).
Proof. vm_compute. reflexivity. Qed.

Lemma shown_device_is_selected_witness :
  exists d m1 m2,
    d ∈ iter (output_device_cache (worker (run Linux [Thread cubeb; Thread cubeb] fresh))) /\
    device_name Output 2 (Some (replicate 128 170), Some (replicate 128 170)) (run Linux [Thread cubeb; Thread cubeb] fresh) =
      Val ((Some m1, Some m2), 0) /\
    AudioNames.c_string m1 = take 127 (Text.as_bytes (friendly_name d)) /\
    playout_device (worker (work_one Linux cubeb (run Linux [Client CallInitPlayout; Changed Output]
      (set_device Output 2 (run Linux [Thread cubeb; Thread cubeb] fresh)).1))) = Some (devid d).
Proof.
  destruct (device_name Output 2 (Some (replicate 128 170), Some (replicate 128 170)) (run Linux [Thread cubeb; Thread cubeb] fresh))
    as [[out' r]|] eqn:E; [|discriminate E].
  assert (r = 0) as -> by (vm_compute in E; congruence).
  destruct (shown_device_is_selected Linux true (Some "pulse-rust"%string) (fun _ => true) fresh [Thread cubeb; Thread cubeb] Output 2
    (replicate 128 170) (replicate 128 170) out' (fresh_is_new Linux) ltac:(lia) ltac:(vm_compute; discriminate) ltac:(vm_compute; discriminate)
    E) as (d & m1 & m2 & Hd & -> & Hm1 & _ & _ & _ & Hsel).
  exists d, m1, m2. split_and!; [exact Hd|reflexivity|exact Hm1|].
  destruct (Hsel [Client CallInitPlayout; Changed Output] cubeb) as [_ Hshown]; [vm_compute; reflexivity|].
  apply Hshown; [vm_compute; reflexivity|]. by right.
Defined.

Lemma playing_is_what_the_thread_does_witness :
  playing (run Linux [Thread cubeb; Thread cubeb; Client CallInitPlayout; Client CallStartPlayout; Thread cubeb; Thread cubeb] fresh) =
  should_play (worker (run Linux [Thread cubeb; Thread cubeb; Client CallInitPlayout; Client CallStartPlayout; Thread cubeb; Thread cubeb] fresh)).
Proof.
  apply (playing_is_what_the_thread_does Linux true (Some "pulse-rust"%string) (fun _ => true) fresh
    [Thread cubeb; Thread cubeb; Client CallInitPlayout; Client CallStartPlayout; Thread cubeb; Thread cubeb] (fresh_is_new Linux)).
  - vm_compute. repeat split.
  - vm_compute. reflexivity.
Defined.

Lemma made_up_ids_select_nothing_witness :
  (set_playout_device_by_id "Line out-2" (run Linux [Thread cubeb; Thread cubeb] fresh)).2 = Ok tt.
Proof.
  apply (made_up_ids_select_nothing Linux true (Some "pulse-rust"%string) (fun _ => true) fresh [Thread cubeb; Thread cubeb] 2
    (mkMinimal 8 None "Line out" 2 0 StateEnabled) (fresh_is_new Linux)); try (vm_compute; reflexivity); [lia|].
  vm_compute. repeat constructor; discriminate.
Defined.

Definition recording_events : list (Event * Cubeb) :=
  [(RefreshCache Input, cubeb); (InitRecording, cubeb); (WarmupRecording, cubeb); (SetRecordingDevice 2, cubeb);
   (InitRecording, cubeb); (StartRecording, cubeb)].

Lemma microphone_obeys_requests_witness :
  exists m, mic_run Off recording_events.*1 m /\ (heard (work Linux recording_events new_worker).1 = true \/ m = Remade).
Proof.
  destruct (microphone_obeys_requests Linux recording_events (work Linux recording_events new_worker).1
    (work Linux recording_events new_worker).2 (surjective_pairing _)) as (m & Hrun & _ & _ & Hstart & _).
  - vm_compute. repeat constructor.
  - vm_compute. set_solver.
  - exists m. split; [exact Hrun|]. apply Hstart. reflexivity.
Defined.

Definition ready : Worker := (work Linux [(RefreshCache Input, cubeb); (InitRecording, cubeb)] new_worker).1.

Lemma failed_warmup_blocks_recording_witness :
  (work Linux [(WarmupRecording, busy); (InitRecording, cubeb); (StartRecording, cubeb)] ready).2 = [Err StartFailed; Ok tt; Ok tt].
Proof.
  pose proof (failed_warmup_blocks_recording Linux ready busy cubeb cubeb eq_refl eq_refl eq_refl) as H.
  destruct (work Linux _ ready) as [w rs]. exact (proj1 H).
Defined.

Lemma output_device_change_witness :
  exists w s, output_stream w = Some s /\ started s = true /\
    should_play (update_playout_device Linux cubeb 8 w).1 = true.
Proof.
  pose (w := (work Linux [(RefreshCache Output, cubeb); (InitPlayout, cubeb); (StartPlayout, cubeb)] new_worker).1).
  exists w, (mkStream 7 (mkParams 2 true) 960 None true). split_and!; [reflexivity|reflexivity|].
  pose proof (output_device_change Linux cubeb w (mkStream 7 (mkParams 2 true) 960 None true) 8 eq_refl) as H.
  destruct (update_playout_device Linux cubeb 8 w) as [w' r]. destruct H as (_ & H & _). exact H.
Defined.

(** If the microphone cannot be opened to warm it up, and later it can, then a change of the
    device lets WebRTC hear it although nobody asked for it. *)
Example heard_without_a_request :
  let '(w, rs) := work Linux [(RefreshCache Input, cubeb); (InitRecording, busy); (WarmupRecording, cubeb);
                              (InitRecording, cubeb); (SetRecordingDevice 1, cubeb)] new_worker in
  (heard w, rs) = (true, [Ok tt; Err InitFailed; Err NoStream; Ok tt; Ok tt]).
Proof. vm_compute. reflexivity. Qed.

(** A reply that came too late for a call is taken for the reply to the next one: first no
    stream, then 100 ms, but the second call still fails. *)
Example late_delays :
  let s := run Linux [Thread cubeb; Thread cubeb; Client CallDelayRequest; Client (CallDelayReply (Some 0)); Thread cubeb;
                      Client CallInitPlayout; Thread cubeb; Client CallDelayRequest; Thread cubeb] fresh in
  (replies s, (playout_delay_reply (Some 0) s).2) = ([None; Some 100], Ok (Some 0, -1)).
Proof. vm_compute. reflexivity. Qed.

(** The samples of two windows for outputs of 300 and 700 frames. *)
Example two_outputs :
  let webrtc := fun n : nat => AudioStreams.mkReply 0 (replicate 480 (Z.of_nat n)) 480 0 0 in
  match AudioStreams.play webrtc (AudioStreams.mkPlayout [] 0) [300%nat; 700%nat] with
  | Some (frames, s) => (length frames, AudioStreams.asked s, length (AudioStreams.buffer s))
  | None => (0%nat, 0%nat, 0%nat)
  end = (1000%nat, 3%nat, 440%nat).
Proof. vm_compute. reflexivity. Qed.

End AudioExamples.
