(* ===== verification/Simnet.v ===== *)
(** * The simulated network (src/rust/src/simnet/router.rs)

    A router between interfaces, each with a link that sends and one that receives.  A link
    loses and delays packets at random and then has a bucket of limited size that passes
    them on at a rate.  Router, links and buckets are actors, so their steps interleave; what
    is random is chosen freely within what the probabilities allow.  A panic ends the thread
    of an actor: the packet at hand is lost, and what waits is never run. *)

From S2P Require Import Prelude Actor.
From stdpp Require Import countable gmap.
From Stdlib Require Import QArith.
Local Open Scope Z_scope.
Local Open Scope ringrtc_scope.

Module Simnet.

Inductive IpAddr : Type := V4 (address : Z) | V6 (address : Z).
#[global] Instance IpAddr_eq_dec : EqDecision IpAddr.
Proof. solve_decision. Defined.
#[global] Instance IpAddr_countable : Countable IpAddr.
Proof.
  refine (inj_countable' (fun a => match a with V4 x => inl x | V6 x => inr x end)
    (fun s => match s with inl x => V4 x | inr x => V6 x end) _).
  by intros [].
Defined.

Definition OVERHEAD_IN_BYTES_IPV4 : Z := 20.
Definition OVERHEAD_IN_BYTES_IPV6 : Z := 40.
Definition OVERHEAD_IN_BYTES_UDP : Z := 8.

(** An address and a port *)
Definition SocketAddr : Type := IpAddr * Z.

Record Packet : Type := mkPacket {
  source : SocketAddr;
  dest : SocketAddr;
  payload : list Z;
}.
#[global] Instance Packet_eq_dec : EqDecision Packet.
Proof. solve_decision. Defined.

(** [DataSize::from_bytes] and [as_bytes]: a [DataSize] counts bits. *)
Definition from_bytes (bytes : Z) : Z := bytes * 8.
Definition as_bytes (bits : Z) : Z := bits / 8.

Definition size (p : Packet) : Z := from_bytes (zlen (payload p)).
Definition overhead (p : Packet) : Z :=
  from_bytes (match (source p).1 with V4 _ => OVERHEAD_IN_BYTES_IPV4 | V6 _ => OVERHEAD_IN_BYTES_IPV6 end) +
  from_bytes OVERHEAD_IN_BYTES_UDP.
Definition reliable (p : Packet) : bool := false.

(** Times are in milliseconds here, the queue size in bits. *)
Record LinkConfig : Type := mkLinkConfig {
  delay_min : Z;
  delay_max : Z;
  loss_probability : Q;
  repeated_loss_probability : Q;
  rate : Z;
  queue_size : Z;
}.

(** ** A bucket *)

(** What waits in the actor of a bucket: a packet with its size in bytes and the rate.  What the
    last task passed on is kept until the receiver has it, and what it lost in a panic
    until it is counted. *)
Record BucketTask : Type := mkTransmit { transmitted : Packet; taken : Z; at_rate : Z }.
Fixpoint total (l : list BucketTask) : Z := match l with [] => 0 | t :: l => taken t + total l end.
Record BucketState : Type := mkBucket { passed : list BucketTask; crashed : list BucketTask }.

(** The time to sleep is a quotient of floating-point numbers; with a rate of 0 it is infinite,
    and [Duration::from_secs_f64] panics. *)
Definition bucket_run (env : unit) (t : BucketTask) (s : BucketState) : BucketState * list (Actor.Sent BucketTask) * bool :=
  if at_rate t =? 0 then (mkBucket (passed s) (crashed s ++ [t]), [], false)
  else (mkBucket (passed s ++ [t]) (crashed s), [], false).

(** ** A link *)

Inductive LinkTask : Type :=
| SendPacket (packet : Packet)
| ToBucket (packet : Packet).

Record LinkState : Type := mkLinkState {
  config : LinkConfig;
  previous_packet_dropped : bool;
  handed : list Packet; (* to the bucket, by the last task *)
  lost : list Packet;   (* likewise *)
  panicked : bool;
}.

(** What is random: whether [gen_bool] is true, and the delay. *)
Record LinkEnv : Type := mkLinkEnv {
  env_now : Z;
  env_lose : bool;
  env_delay : Z;
}.

Definition probability (s : LinkState) : Q :=
  if previous_packet_dropped s then repeated_loss_probability (config s) else loss_probability (config s).

(** [gen_bool] is never true with probability 0 and always with 1; the delay is from the
    range, whose end does not belong to it. *)
Definition allowed (env : LinkEnv) (s : LinkState) : Prop :=
  (env_lose env = true -> (0 < probability s)%Q) /\ (env_lose env = false -> (probability s < 1)%Q) /\
  delay_min (config s) <= env_delay env < delay_max (config s).

(** [gen_bool] panics when its argument is no probability. *)
Definition is_probability (q : Q) : bool := Qle_bool 0 q && Qle_bool q 1.

Definition link_run (env : LinkEnv) (t : LinkTask) (s : LinkState) : LinkState * list (Actor.Sent LinkTask) * bool :=
  match t with
  | SendPacket packet =>
    if negb (reliable packet) && negb (is_probability (probability s)) then
      (mkLinkState (config s) (previous_packet_dropped s) (handed s) (lost s ++ [packet]) true, [], false)
    else if negb (reliable packet) && env_lose env then
      (mkLinkState (config s) true (handed s) (lost s ++ [packet]) (panicked s), [], false)
    else
      (mkLinkState (config s) false (handed s) (lost s) (panicked s),
       [Actor.delayed (env_now env) (ToBucket packet) (env_delay env * 1000000)], false)
  | ToBucket packet =>
    (mkLinkState (config s) (previous_packet_dropped s) (handed s ++ [packet]) (lost s) (panicked s), [], false)
  end.

(** A link with its bucket; where it leads to: [None] is the router, otherwise the
    receiver of an interface. *)
Record Link : Type := mkLink {
  receiver : option IpAddr;
  link_actor : Actor.Actor LinkState LinkTask;
  bucket_config : LinkConfig;
  bucket_actor : Actor.Actor BucketState BucketTask;
  queued_size : Z;
}.
#[global] Instance Link_eta : Eta Link :=
  fun l => mkLink (receiver l) (link_actor l) (bucket_config l) (bucket_actor l) (queued_size l).

(** [Link::start]; [Uniform::from] panics on an empty range. *)
Definition link_start (c : LinkConfig) (receiver : option IpAddr) : outcome Link :=
  assert (delay_min c <? delay_max c);;
  Val (mkLink receiver (Actor.start (mkLinkState c false [] [] false)) c (Actor.start (mkBucket [] [])) 0).

(** [LeakyBucket::send_packet], on the thread of the link: whether the packet fits. [seen]
    is what it read of [queued_size]; meanwhile the bucket may have taken packets out. *)
Definition bucket_send_packet (seen : Z) (packet : Packet) (l : Link) : Link * bool :=
  let packet_size_with_overhead := size packet + overhead packet in
  if queue_size (bucket_config l) <? from_bytes seen + packet_size_with_overhead then (l, false)
  else
    (l <| queued_size := queued_size l + as_bytes packet_size_with_overhead |>
       <| bucket_actor := Actor.send (Actor.immediate (mkTransmit packet (as_bytes packet_size_with_overhead) (rate (bucket_config l)))) (bucket_actor l) |>,
     true).

(** ** The router *)

Inductive RouterTask : Type :=
| AddInterface (ip : IpAddr) (send_link receive_link : nat)
| RouteSend (packet : Packet)
| RouteReceive (packet : Packet).

Record RouterState : Type := mkRouterState {
  send_link_by_ip : gmap IpAddr nat;
  receive_link_by_ip : gmap IpAddr nat;
  routed : list (nat * Packet); (* to links, by the last task *)
  unknown : list Packet;        (* likewise *)
}.

Definition route (links : gmap IpAddr nat) (ip : IpAddr) (packet : Packet) (s : RouterState) : RouterState :=
  match links !! ip with
  | Some link => mkRouterState (send_link_by_ip s) (receive_link_by_ip s) (routed s ++ [(link, packet)]) (unknown s)
  | None => mkRouterState (send_link_by_ip s) (receive_link_by_ip s) (routed s) (unknown s ++ [packet])
  end.

Definition router_run (env : unit) (t : RouterTask) (s : RouterState) : RouterState * list (Actor.Sent RouterTask) * bool :=
  match t with
  | AddInterface ip send_link receive_link =>
    (mkRouterState (<[ip := send_link]> (send_link_by_ip s)) (<[ip := receive_link]> (receive_link_by_ip s)) (routed s) (unknown s), [], false)
  | RouteSend packet => (route (send_link_by_ip s) (source packet).1 packet s, [], false)
  | RouteReceive packet => (route (receive_link_by_ip s) (dest packet).1 packet s, [], false)
  end.

(** ** The network *)

(** With what was sent, what was received at which interface, and what was dropped. *)
Record Net : Type := mkNet {
  router : Actor.Actor RouterState RouterTask;
  links : list Link;
  sent : list Packet;
  delivered : list (IpAddr * Packet);
  dropped : list Packet;
}.
#[global] Instance Net_eta : Eta Net :=
  fun n => mkNet (router n) (links n) (sent n) (delivered n) (dropped n).

Definition net_start : Net := mkNet (Actor.start (mkRouterState ∅ ∅ [] [])) [] [] [] [].

Definition add_interface (ip : IpAddr) (send_config receive_config : LinkConfig) (n : Net) : outcome Net :=
  send_link ← link_start send_config None;
  receive_link ← link_start receive_config (Some ip);
  Val (n <| links := links n ++ [send_link; receive_link] |>
         <| router := Actor.send (Actor.immediate (AddInterface ip (length (links n)) (S (length (links n))))) (router n) |>).

Definition send_packet (p : Packet) (n : Net) : Net :=
  n <| router := Actor.send (Actor.immediate (RouteSend p)) (router n) |> <| sent := sent n ++ [p] |>.

(** [Router::receive_packet] *)
Definition receive_packet (p : Packet) (n : Net) : Net :=
  n <| router := Actor.send (Actor.immediate (RouteReceive p)) (router n) |>.

Definition to_link (x : nat * Packet) (ls : list Link) : list Link :=
  alter (fun l => l <| link_actor := Actor.send (Actor.immediate (SendPacket x.2)) (link_actor l) |>) x.1 ls.

(** After a step of the router: what it routed goes to the links. *)
Definition after_router (a : Actor.Actor RouterState RouterTask) (n : Net) : Net :=
  let s := Actor.state a in
  n <| router := Actor.mkActor (mkRouterState (send_link_by_ip s) (receive_link_by_ip s) [] [])
                   (Actor.channel a) (Actor.delayed_tasks a) (Actor.stopped a) (Actor.running a) |>
    <| links := fold_left (fun ls x => to_link x ls) (routed s) (links n) |>
    <| dropped := dropped n ++ unknown s |>.

(** After a step of a link: what it handed on is offered to the bucket.  A panic ends the thread. *)
Fixpoint offer_to_bucket (seen : Z) (packets : list Packet) (l : Link) : Link * list Packet :=
  match packets with
  | [] => (l, [])
  | p :: packets =>
    let '(l, fits) := bucket_send_packet seen p l in
    let '(l, overflow) := offer_to_bucket seen packets l in
    (l, if fits then overflow else p :: overflow)
  end.

Definition after_link (seen : Z) (i : nat) (l : Link) (a : Actor.Actor LinkState LinkTask) (n : Net) : Net :=
  let s := Actor.state a in
  let a' := Actor.mkActor (mkLinkState (config s) (previous_packet_dropped s) [] [] (panicked s))
              (Actor.channel a) (Actor.delayed_tasks a) (Actor.stopped a) (Actor.running a && negb (panicked s)) in
  let '(l, overflow) := offer_to_bucket seen (handed s) (l <| link_actor := a' |>) in
  n <| links := <[i := l]> (links n) |> <| dropped := dropped n ++ lost s ++ overflow |>.

(** After a step of a bucket: what it passed on goes to the receiver.  A panic ends the thread. *)
Definition pass_on (receiver : option IpAddr) (t : BucketTask) (n : Net) : Net :=
  match receiver with
  | None => receive_packet (transmitted t) n
  | Some ip => n <| delivered := delivered n ++ [(ip, transmitted t)] |>
  end.

Definition after_bucket (i : nat) (l : Link) (a : Actor.Actor BucketState BucketTask) (n : Net) : Net :=
  let out := passed (Actor.state a) in
  let gone := crashed (Actor.state a) in
  let a' := Actor.mkActor (mkBucket [] []) (Actor.channel a) (Actor.delayed_tasks a) (Actor.stopped a)
              (Actor.running a && bool_decide (length gone = 0%nat)) in
  let l := l <| bucket_actor := a' |> <| queued_size := queued_size l - total out - total gone |> in
  fold_left (fun n t => pass_on (receiver l) t n) out
    (n <| links := <[i := l]> (links n) |> <| dropped := dropped n ++ (transmitted <$> gone) |>).

Inductive act : Net -> Net -> Prop :=
| act_add ip sc rc n n' : add_interface ip sc rc n = Val n' -> act n n'
| act_send p n : act n (send_packet p n)
| act_router now n a : Actor.step router_run tt now (router n) a -> act n (after_router a n)
| act_link seen i l env n a : links n !! i = Some l -> allowed env (Actor.state (link_actor l)) ->
    queued_size l <= seen -> Actor.step link_run env (env_now env) (link_actor l) a -> act n (after_link seen i l a n)
| act_bucket i l now n a : links n !! i = Some l -> Actor.step bucket_run tt now (bucket_actor l) a -> act n (after_bucket i l a n).

Definition reachable (n : Net) : Prop := rtc act net_start n.

End Simnet.
