(* ===== verification/SimnetPackets.v ===== *)
(** * Packets in the simulated network

    Theorems about [Simnet]: no packet is made up, doubled or brought to the wrong place, and
    the buckets keep their size, however the actors interleave. *)

From S2P Require Import Prelude Actor Simnet.
From stdpp Require Import gmap.
Local Open Scope Z_scope.
Local Open Scope ringrtc_scope.

Module SimnetPackets.
Import Simnet.

(** ** Packets on their way *)

Definition router_packet (t : RouterTask) : option Packet :=
  match t with AddInterface _ _ _ => None | RouteSend p | RouteReceive p => Some p end.
Definition link_packet (t : LinkTask) : Packet := match t with SendPacket p | ToBucket p => p end.

Definition tasks {State Task : Type} (a : Actor.Actor State Task) : list Task := Actor.task <$> Actor.waiting a.

Definition in_router (a : Actor.Actor RouterState RouterTask) : list Packet := omap router_packet (tasks a).
Definition in_link (l : Link) : list Packet := (link_packet <$> tasks (link_actor l)) ++ (transmitted <$> tasks (bucket_actor l)).
Definition in_links (ls : list Link) : list Packet := concat (in_link <$> ls).
Definition in_transit (n : Net) : list Packet := in_router (router n) ++ in_links (links n).

(** How often a packet occurs. *)
Definition cnt (p : Packet) (l : list Packet) : nat := count_occ Packet_eq_dec l p.
#[local] Arguments cnt : simpl never.
#[local] Arguments in_transit : simpl never.
#[local] Arguments in_router : simpl never.
#[local] Arguments in_links : simpl never.
#[local] Arguments in_link : simpl never.
#[local] Arguments tasks : simpl never.
#[local] Arguments Actor.send : simpl never.

Lemma cnt_app p l k : cnt p (l ++ k) = (cnt p l + cnt p k)%nat.
Proof. apply count_occ_app. Qed.

Lemma cnt_perm p l k : l ≡ₚ k -> cnt p l = cnt p k.
Proof. intros H. by apply (Permutation_count_occ Packet_eq_dec). Qed.

#[local] Instance cnt_proper p : Proper ((≡ₚ) ==> eq) (cnt p).
Proof. intros l k H. by apply cnt_perm. Qed.

Lemma in_links_app ls ls' : in_links (ls ++ ls') = in_links ls ++ in_links ls'.
Proof. unfold in_links. by rewrite fmap_app, concat_app. Qed.

Lemma cnt_in_links_insert p ls i l l' :
  ls !! i = Some l -> (cnt p (in_links (<[i := l']> ls)) + cnt p (in_link l) = cnt p (in_links ls) + cnt p (in_link l'))%nat.
Proof.
  intros Hi. rewrite <-(take_drop_middle ls i l Hi) at 2. rewrite insert_take_drop by by eapply lookup_lt_Some.
  unfold in_links. rewrite !fmap_app, !concat_app, !fmap_cons. cbn [concat]. rewrite !cnt_app. lia.
Qed.

Lemma tasks_send {State Task : Type} (t : Task) (a : Actor.Actor State Task) :
  tasks (Actor.send (Actor.immediate t) a) ≡ₚ t :: tasks a.
Proof.
  unfold tasks, Actor.waiting, Actor.send. cbn. rewrite !fmap_app. cbn. rewrite <-app_assoc. cbn. symmetry. apply Permutation_middle.
Qed.

(** A step of an actor, seen from its tasks. *)
Lemma step_tasks {State Env Task : Type} (run : Env -> Task -> State -> State * list (Actor.Sent Task) * bool) env now a a' :
  Actor.step run env now a a' -> Actor.stopped a = false ->
  (tasks a' ≡ₚ tasks a /\ Actor.state a' = Actor.state a /\ Actor.stopped a' = false) \/
  (exists t w s out stops, tasks a ≡ₚ t :: w /\ run env t (Actor.state a) = (s, out, stops) /\
     Actor.state a' = s /\ tasks a' ≡ₚ (Actor.task <$> out) ++ w /\ Actor.stopped a' = stops).
Proof.
  intros Hs Hst. destruct (Actor.step_effect run env now a a' Hs Hst) as [(Hw & E1 & E2)|(t & w & s & out & stops & Hw & Hrun & Es & Hw' & Est)].
  - left. split_and!; [by unfold tasks; rewrite Hw|done|done].
  - right. exists (Actor.task t), (Actor.task <$> w), s, out, stops. unfold tasks. rewrite Hw, Hw', fmap_app. done.
Qed.

(** ** What holds in every state *)

Definition fits (l : Link) : Prop :=
  queued_size l = total (tasks (bucket_actor l)) /\ Forall (fun t => 0 <= taken t) (tasks (bucket_actor l)) /\
  from_bytes (queued_size l) <= Z.max 0 (queue_size (bucket_config l)).

Record link_ok (l : Link) : Prop := mkLinkOk {
  link_lives : Actor.stopped (link_actor l) = false;
  bucket_lives : Actor.stopped (bucket_actor l) = false;
  link_flushed : handed (Actor.state (link_actor l)) = [] /\ lost (Actor.state (link_actor l)) = [];
  bucket_flushed : passed (Actor.state (bucket_actor l)) = [] /\ crashed (Actor.state (bucket_actor l)) = [];
  bucket_fits : fits l;
  link_leads : forall ip, receiver l = Some ip -> Forall (fun p => (dest p).1 = ip) (in_link l);
}.

(** The tables, and the interfaces that the router does not know yet, are about links. *)
Definition leads_to (ls : list Link) (i : nat) (r : option IpAddr) : Prop := receiver <$> ls !! i = Some r.

Definition task_ok (ls : list Link) (t : RouterTask) : Prop :=
  match t with AddInterface ip i j => leads_to ls i None /\ leads_to ls j (Some ip) | _ => True end.

Record router_ok (a : Actor.Actor RouterState RouterTask) (ls : list Link) : Prop := mkRouterOk {
  router_lives : Actor.stopped a = false;
  router_flushed : routed (Actor.state a) = [] /\ unknown (Actor.state a) = [];
  send_table : forall ip i, send_link_by_ip (Actor.state a) !! ip = Some i -> leads_to ls i None;
  receive_table : forall ip i, receive_link_by_ip (Actor.state a) !! ip = Some i -> leads_to ls i (Some ip);
  router_tasks : Forall (task_ok ls) (tasks a);
}.

Record net_ok (n : Net) : Prop := mkNetOk {
  net_router : router_ok (router n) (links n);
  net_links : Forall link_ok (links n);
  net_flow : forall p, cnt p (sent n) = (cnt p (delivered n).*2 + cnt p (dropped n) + cnt p (in_transit n))%nat;
  net_right : Forall (fun d : IpAddr * Packet => (dest d.2).1 = d.1) (delivered n);
}.

Lemma total_perm l k : l ≡ₚ k -> total l = total k.
Proof. intros H. induction H as [|x l k H IH|x y l|l k m _ IH1 _ IH2]; cbn; lia. Qed.

Lemma total_nonneg l : Forall (fun t => 0 <= taken t) l -> 0 <= total l.
Proof. intros H. induction H as [|t l Ht _ IH]; [done|]. change (total (t :: l)) with (taken t + total l). lia. Qed.

(** Lists of links that lead to the same places. *)
Definition alike (ls ls' : list Link) : Prop := forall i r, leads_to ls i r -> leads_to ls' i r.

Lemma router_ok_alike a ls ls' : alike ls ls' -> router_ok a ls -> router_ok a ls'.
Proof.
  intros Ha [H1 H2 H3 H4 H5]. constructor; [done|done|by eauto|by eauto|].
  eapply List.Forall_impl; [|exact H5]. intros [ip i j|p|p] Ht; [|done..]. destruct Ht. by split; apply Ha.
Qed.

Lemma alike_insert ls i l l' : ls !! i = Some l -> receiver l' = receiver l -> alike ls (<[i := l']> ls).
Proof.
  intros Hi Hr j r. unfold leads_to. destruct (decide (i = j)) as [<-|Hne].
  - rewrite Hi. rewrite list_lookup_insert_eq by by eapply lookup_lt_Some. cbn. by rewrite Hr.
  - by rewrite list_lookup_insert_ne.
Qed.

Lemma router_send t a ls : task_ok ls t -> router_ok a ls -> router_ok (Actor.send (Actor.immediate t) a) ls.
Proof. intros Ht [H1 H2 H3 H4 H5]. constructor; [done..|]. rewrite tasks_send. by constructor. Qed.

Lemma cnt_router_send p t a :
  cnt p (in_router (Actor.send (Actor.immediate t) a)) = (cnt p (option_list (router_packet t)) + cnt p (in_router a))%nat.
Proof.
  unfold in_router. rewrite <-cnt_app. apply cnt_perm. rewrite tasks_send. cbn. by destruct (router_packet t).
Qed.

Lemma start_ok : net_ok net_start.
Proof. constructor; [constructor; try done; by intros ? ?; cbn; rewrite lookup_empty|constructor|done|constructor]. Qed.

(** ** The steps *)

Lemma add_ok ip sc rc n n' : net_ok n -> add_interface ip sc rc n = Val n' -> net_ok n'.
Proof.
  intros [Hr Hl Hf Hd]. unfold add_interface, link_start, mbind, outcome_bind, assert.
  destruct (_ <? _); [|done]. destruct (_ <? _); [|done]. intros [= <-].
  set (l1 := mkLink None _ _ _ _). set (l2 := mkLink (Some ip) _ _ _ _).
  assert (H1 : link_ok l1) by (constructor; try done; split_and!; [done|constructor|apply Z.le_max_l]).
  assert (H2 : link_ok l2) by (constructor; try done; split_and!; [done|constructor|apply Z.le_max_l]).
  constructor; cbn.
  - apply router_send.
    + cbn. unfold leads_to. split; [by rewrite list_lookup_middle|]. rewrite (lookup_app_r _ _ (S _)) by lia.
      by replace (S (length (links n)) - length (links n))%nat with 1%nat by lia.
    + eapply router_ok_alike; [|exact Hr]. intros i r. unfold leads_to.
      destruct (links n !! i) as [l|] eqn:E; [|done]. by rewrite (lookup_app_l_Some _ _ _ _ E).
  - apply Forall_app. split; [done|]. apply List.Forall_cons; [done|]. apply List.Forall_cons; [done|apply List.Forall_nil].
  - intros p. rewrite Hf. unfold in_transit. cbn. rewrite in_links_app, !cnt_app, cnt_router_send.
    change (in_links [l1; l2]) with (@nil Packet). change (cnt p []) with 0%nat. cbn. change (cnt p []) with 0%nat. lia.
  - done.
Qed.

Lemma send_ok p n : net_ok n -> net_ok (send_packet p n).
Proof.
  intros [Hr Hl Hf Hd]. constructor; cbn; [by apply router_send|done| |done].
  intros q. unfold in_transit. cbn. rewrite !cnt_app, cnt_router_send, Hf. unfold in_transit. rewrite cnt_app.
  change (option_list (router_packet (RouteSend p))) with [p]. lia.
Qed.

Lemma receive_ok p n : router_ok (router n) (links n) -> router_ok (router (receive_packet p n)) (links n).
Proof. by apply router_send. Qed.

(** A link is replaced by one that leads to the same place. *)
Lemma links_ok ls i l' : Forall link_ok ls -> link_ok l' -> Forall link_ok (<[i := l']> ls).
Proof. intros. by apply Forall_insert. Qed.

Lemma link_send_ok p l :
  link_ok l -> (forall ip, receiver l = Some ip -> (dest p).1 = ip) ->
  link_ok (l <| link_actor := Actor.send (Actor.immediate (SendPacket p)) (link_actor l) |>).
Proof.
  intros [H1 H2 H3 H4 H5 H6] Hp. constructor; try done. cbn. intros ip Hip. unfold in_link. cbn.
  rewrite tasks_send. rewrite fmap_cons. cbn [link_packet app]. constructor; [by apply Hp|]. by apply H6.
Qed.

Lemma cnt_link_send q p l :
  cnt q (in_link (l <| link_actor := Actor.send (Actor.immediate (SendPacket p)) (link_actor l) |>)) = (cnt q [p] + cnt q (in_link l))%nat.
Proof. unfold in_link. rewrite <-cnt_app. apply cnt_perm. cbn. by rewrite tasks_send. Qed.

(** The router gives a packet to a link that its table names. *)
Lemma to_link_ok i p r n :
  Forall link_ok (links n) -> leads_to (links n) i r -> (forall ip, r = Some ip -> (dest p).1 = ip) ->
  Forall link_ok (to_link (i, p) (links n)) /\ alike (links n) (to_link (i, p) (links n)) /\
  forall q, cnt q (in_links (to_link (i, p) (links n))) = (cnt q [p] + cnt q (in_links (links n)))%nat.
Proof.
  intros Hl Hi Hp. unfold leads_to in Hi. destruct (links n !! i) as [l|] eqn:E; [|done]. injection Hi as Hi.
  unfold to_link. cbn [fst snd]. set (l' := l <| link_actor := Actor.send (Actor.immediate (SendPacket p)) (link_actor l) |>).
  assert (Ha : alter (fun l0 : Link => l0 <| link_actor := Actor.send (Actor.immediate (SendPacket p)) (link_actor l0) |>) i (links n) = <[i := l']> (links n)).
  { apply list_eq. intros j. destruct (decide (i = j)) as [<-|Hne].
    - rewrite list_lookup_alter_eq, E. by rewrite list_lookup_insert_eq by by eapply lookup_lt_Some.
    - by rewrite list_lookup_alter_ne, list_lookup_insert_ne. }
  rewrite Ha. assert (Hlok : link_ok l) by (by eapply Forall_lookup_1 in Hl). split_and!.
  - eapply links_ok; [done|]. apply link_send_ok; [done|]. intros ip Hip. apply Hp. congruence.
  - by eapply alike_insert.
  - intros q. pose proof (cnt_in_links_insert q (links n) i l l' E) as Hc. unfold l' in Hc at 2. rewrite cnt_link_send in Hc. lia.
Qed.

Lemma cnt_in_router p a a' : tasks a' ≡ₚ tasks a -> cnt p (in_router a') = cnt p (in_router a).
Proof. intros H. apply cnt_perm. unfold in_router. by rewrite H. Qed.

(** The router after a step, before its packets go on. *)
Definition emptied (a : Actor.Actor RouterState RouterTask) : Actor.Actor RouterState RouterTask :=
  Actor.mkActor (mkRouterState (send_link_by_ip (Actor.state a)) (receive_link_by_ip (Actor.state a)) [] [])
    (Actor.channel a) (Actor.delayed_tasks a) (Actor.stopped a) (Actor.running a).

(** What the router did not route, or routed to one link, or dropped. *)
Lemma after_router_ok a n out gone :
  router_ok (emptied a) (links n) -> Forall link_ok (links n) -> Forall (fun d : IpAddr * Packet => (dest d.2).1 = d.1) (delivered n) ->
  routed (Actor.state a) = out -> unknown (Actor.state a) = gone -> (length out <= 1)%nat ->
  Forall (fun x : nat * Packet => exists r, leads_to (links n) x.1 r /\ forall ip, r = Some ip -> (dest x.2).1 = ip) out ->
  (forall p, cnt p (in_router (router n)) = (cnt p (in_router a) + cnt p out.*2 + cnt p gone)%nat) ->
  (forall p, cnt p (sent n) = (cnt p (delivered n).*2 + cnt p (dropped n) + cnt p (in_transit n))%nat) ->
  net_ok (after_router a n).
Proof.
  intros Hr Hl Hd Eout Egone Hlen Hout Hc Hf. unfold after_router. rewrite Eout, Egone.
  assert (Hin : forall p, cnt p (in_router (emptied a)) = cnt p (in_router a)) by done.
  destruct out as [|[i q] [|]]; [| |cbn in Hlen; lia].
  - constructor; cbn; [exact Hr|done| |done]. intros p. rewrite Hf, !cnt_app. unfold in_transit. cbn. rewrite !cnt_app.
    change (cnt p (in_router _)) with (cnt p (in_router (emptied a))) at 2. rewrite Hin, Hc. change (cnt p ([].*2)) with 0%nat. lia.
  - apply Forall_cons in Hout as [(r & Hi & Hq) _]. destruct (to_link_ok i q r n Hl Hi Hq) as (H1 & H2 & H3).
    constructor; cbn; [by eapply router_ok_alike|done| |done]. intros p. rewrite Hf, !cnt_app. unfold in_transit. cbn. rewrite !cnt_app.
    change (cnt p (in_router _)) with (cnt p (in_router (emptied a))) at 2. rewrite Hin, Hc, H3. change (([(i, q)].*2)) with [q]. lia.
Qed.

Lemma route_ok a n q table ip r :
  net_ok n -> Actor.state a = route table ip q (Actor.state (router n)) -> Actor.stopped a = false ->
  Forall (task_ok (links n)) (tasks a) -> (forall i, table !! ip = Some i -> leads_to (links n) i r) ->
  (forall ip', r = Some ip' -> (dest q).1 = ip') ->
  (forall p, cnt p (in_router (router n)) = (cnt p [q] + cnt p (in_router a))%nat) -> net_ok (after_router a n).
Proof.
  intros [[R1 [R2 R3] R4 R5 R6] Hl Hf Hd] Es Hst Ht Hi Hq Hc.
  assert (Hr : router_ok (emptied a) (links n)).
  { constructor; [done|done| | |exact Ht]; cbn; rewrite Es; unfold route; destruct (table !! ip); [exact R4|exact R4|exact R5|exact R5]. }
  unfold route in Es. destruct (table !! ip) as [i|] eqn:E.
  - refine (after_router_ok a n [(i, q)] [] Hr Hl Hd _ _ _ _ _ Hf); rewrite ?Es; cbn; [by rewrite R2|by rewrite R3|lia| |].
    + apply List.Forall_cons; [|apply List.Forall_nil]. exists r. split; [by apply Hi|done].
    + intros p. rewrite Hc. change (cnt p []) with 0%nat. lia.
  - refine (after_router_ok a n [] [q] Hr Hl Hd _ _ _ _ _ Hf); rewrite ?Es; cbn; [by rewrite R2|by rewrite R3|lia|apply List.Forall_nil|].
    intros p. rewrite Hc. change (cnt p []) with 0%nat. lia.
Qed.

Lemma router_step_ok now n a : net_ok n -> Actor.step router_run tt now (router n) a -> net_ok (after_router a n).
Proof.
  intros [Hr Hl Hf Hd] Hs. pose proof Hr as [R1 [R2 R3] R4 R5 R6].
  destruct (step_tasks _ _ _ _ _ Hs R1) as [(Ht & Es & Est)|(t & w & s & out & stops & Ht & Hrun & Es & Hw & Est)].
  - refine (after_router_ok a n [] [] _ Hl Hd _ _ _ _ _ Hf); [|by rewrite Es|by rewrite Es|cbn; lia|apply List.Forall_nil|].
    + constructor; cbn; [done|done|by rewrite Es|by rewrite Es|]. change (tasks (emptied a)) with (tasks a). by rewrite Ht.
    + intros p. rewrite (cnt_in_router p _ _ Ht). change (cnt p ([].*2)) with 0%nat. change (cnt p []) with 0%nat. lia.
  - rewrite Ht in R6. apply Forall_cons in R6 as [Rt Rw].
    assert (Hcnt : forall p, cnt p (in_router (router n)) = (cnt p (option_list (router_packet t)) + cnt p (omap router_packet w))%nat).
    { intros p. rewrite <-cnt_app. apply cnt_perm. unfold in_router. rewrite Ht. cbn. by destruct (router_packet t). }
    assert (Hrouter : (forall ip i, send_link_by_ip (Actor.state a) !! ip = Some i -> leads_to (links n) i None) ->
      (forall ip i, receive_link_by_ip (Actor.state a) !! ip = Some i -> leads_to (links n) i (Some ip)) -> stops = false -> out = [] -> router_ok (emptied a) (links n)).
    { intros H1 H2 -> ->. constructor; [done|done|exact H1|exact H2|]. change (tasks (emptied a)) with (tasks a). by rewrite Hw. }
    assert (Hw' : forall p, out = [] -> cnt p (in_router a) = cnt p (omap router_packet w)).
    { intros p ->. apply cnt_perm. unfold in_router. by rewrite Hw. }
    assert (Hnil : forall p, cnt p (([] : list (nat * Packet)).*2) = 0%nat /\ cnt p [] = 0%nat) by done.
    destruct t as [ip i j|q|q]; cbn [router_run] in Hrun; injection Hrun as <- <- <-.
    + refine (after_router_ok a n [] [] (Hrouter _ _ eq_refl eq_refl) Hl Hd _ _ _ _ _ Hf); [| |by rewrite Es|by rewrite Es|cbn; lia|apply List.Forall_nil|].
      * rewrite Es. cbn. intros ip' k [[<- <-]|[_ H]]%lookup_insert_Some; [apply Rt|by eapply R4].
      * rewrite Es. cbn. intros ip' k [[<- <-]|[_ H]]%lookup_insert_Some; [apply Rt|by eapply R5].
      * intros p. rewrite Hcnt, Hw' by done. destruct (Hnil p) as [-> ->]. change (option_list _) with (@nil Packet). change (cnt p []) with 0%nat. lia.
    + eapply (route_ok a n q _ _ None); [by constructor|exact Es|done|by rewrite Hw|intros i; apply R4|done|].
      intros p. by rewrite Hcnt, Hw'.
    + eapply (route_ok a n q _ _ (Some (dest q).1)); [by constructor|exact Es|done|by rewrite Hw|intros i; apply R5|by intros ip [= <-]|].
      intros p. by rewrite Hcnt, Hw'.
Qed.

Lemma cnt_elem p l : p ∈ l <-> (0 < cnt p l)%nat.
Proof. rewrite list_elem_of_In. apply (count_occ_In Packet_eq_dec). Qed.

(** Fewer packets lead to the same place. *)
Lemma leads_sub (P : Packet -> Prop) (k k' gone : list Packet) :
  (forall p, cnt p k = (cnt p k' + cnt p gone)%nat) -> Forall P k -> Forall P k'.
Proof.
  intros Hc. rewrite !Forall_forall. intros H p Hp. apply H. rewrite cnt_elem in *. rewrite Hc. lia.
Qed.

(** A link is replaced, and some of its packets are gone. *)
Lemma replace_ok n i l l' gone :
  net_ok n -> links n !! i = Some l -> link_ok l' -> receiver l' = receiver l ->
  (forall p, cnt p (in_link l) = (cnt p (in_link l') + cnt p gone)%nat) ->
  net_ok (n <| links := <[i := l']> (links n) |> <| dropped := dropped n ++ gone |>).
Proof.
  intros [Hr Hl Hf Hd] Hi Hl' Hrec Hc. constructor; cbn; [|by apply links_ok| |done].
  - eapply router_ok_alike; [by eapply alike_insert|done].
  - intros p. rewrite Hf. unfold in_transit. cbn. rewrite !cnt_app. pose proof (cnt_in_links_insert p _ _ _ l' Hi) as H.
    specialize (Hc p). lia.
Qed.

(** The link after a step of its actor. *)
Definition flushed (l : Link) (a : Actor.Actor LinkState LinkTask) : Link :=
  l <| link_actor := Actor.mkActor (mkLinkState (config (Actor.state a)) (previous_packet_dropped (Actor.state a)) [] [] (panicked (Actor.state a)))
         (Actor.channel a) (Actor.delayed_tasks a) (Actor.stopped a) (Actor.running a && negb (panicked (Actor.state a))) |>.

Lemma flushed_ok l a gone :
  link_ok l -> Actor.stopped a = false ->
  (forall p, cnt p (link_packet <$> tasks (link_actor l)) = (cnt p (link_packet <$> tasks a) + cnt p gone)%nat) ->
  link_ok (flushed l a) /\ forall p, cnt p (in_link l) = (cnt p (in_link (flushed l a)) + cnt p gone)%nat.
Proof.
  intros [H1 H2 H3 H4 H5 H6] Hst Hc.
  assert (Hc' : forall p, cnt p (in_link l) = (cnt p (in_link (flushed l a)) + cnt p gone)%nat).
  { intros p. unfold in_link. change (tasks (link_actor (flushed l a))) with (tasks a).
    change (tasks (bucket_actor (flushed l a))) with (tasks (bucket_actor l)). rewrite !cnt_app, Hc. lia. }
  split; [|done]. constructor; try done. intros ip Hip. eapply leads_sub; [exact Hc'|by apply H6].
Qed.

Lemma packet_size_bytes p : 0 <= as_bytes (size p + overhead p) /\ from_bytes (as_bytes (size p + overhead p)) = size p + overhead p.
Proof.
  unfold as_bytes, size, overhead, from_bytes. pose proof (zlen_nonneg (payload p)).
  assert (Hsum : exists k, 0 <= k /\ zlen (payload p) * 8 + ((match (source p).1 with V4 _ => OVERHEAD_IN_BYTES_IPV4 | V6 _ => OVERHEAD_IN_BYTES_IPV6 end) * 8 + OVERHEAD_IN_BYTES_UDP * 8) = k * 8).
  { destruct (source p).1; [exists (zlen (payload p) + 28)|exists (zlen (payload p) + 48)]; cbv [OVERHEAD_IN_BYTES_IPV4 OVERHEAD_IN_BYTES_IPV6 OVERHEAD_IN_BYTES_UDP]; lia. }
  destruct Hsum as (k & Hk & ->). rewrite Z.div_mul by lia. lia.
Qed.

(** A packet that fits into the bucket. *)
Lemma bucket_accepts seen q l l' :
  link_ok l -> queued_size l <= seen -> (forall ip, receiver l = Some ip -> (dest q).1 = ip) -> bucket_send_packet seen q l = (l', true) ->
  link_ok l' /\ receiver l' = receiver l /\ forall p, cnt p (in_link l') = (cnt p [q] + cnt p (in_link l))%nat.
Proof.
  intros [H1 H2 H3 H4 (Hq & Hpos & Hmax) H6] Hseen Hdest. unfold bucket_send_packet.
  destruct (Z.ltb_spec (queue_size (bucket_config l)) (from_bytes seen + (size q + overhead q))) as [|Hfit]; [done|].
  intros [= <-]. destruct (packet_size_bytes q) as [Hb Heq].
  assert (Hc : forall p, cnt p (in_link (l <| queued_size := queued_size l + as_bytes (size q + overhead q) |>
       <| bucket_actor := Actor.send (Actor.immediate (mkTransmit q (as_bytes (size q + overhead q)) (rate (bucket_config l)))) (bucket_actor l) |>)) = (cnt p [q] + cnt p (in_link l))%nat).
  { intros p. rewrite <-cnt_app. apply cnt_perm. unfold in_link. cbn. rewrite tasks_send. cbn. symmetry. apply Permutation_middle. }
  split_and!; [|done|exact Hc]. constructor; try done.
  - unfold fits. cbn. split_and!; [|rewrite tasks_send; by constructor|].
    + rewrite (total_perm _ _ (tasks_send _ _)). cbn. lia.
    + unfold from_bytes in *. lia.
  - cbn. intros ip Hip. apply (leads_sub _ ([q] ++ in_link l) _ []).
    + intros p. rewrite Hc, cnt_app. change (cnt p []) with 0%nat. lia.
    + constructor; [by apply Hdest|by apply H6].
Qed.

Lemma link_step_ok seen i l env n a :
  net_ok n -> links n !! i = Some l -> queued_size l <= seen ->
  Actor.step link_run env (env_now env) (link_actor l) a -> net_ok (after_link seen i l a n).
Proof.
  intros Hn Hi Hseen Hs. pose proof Hn as [_ Hl _ _]. assert (Hlok : link_ok l) by (by eapply Forall_lookup_1 in Hl).
  pose proof Hlok as [L1 _ [L2 L3] _ _ L6]. unfold after_link. fold (flushed l a).
  assert (Hkeep : handed (Actor.state a) = [] -> forall gone, lost (Actor.state a) = gone -> Actor.stopped a = false ->
    (forall p, cnt p (link_packet <$> tasks (link_actor l)) = (cnt p (link_packet <$> tasks a) + cnt p gone)%nat) ->
    net_ok (let '(l, overflow) := offer_to_bucket seen (handed (Actor.state a)) (flushed l a) in
      n <| links := <[i := l]> (links n) |> <| dropped := dropped n ++ lost (Actor.state a) ++ overflow |>)).
  { intros -> gone -> Hst Hc. cbn [offer_to_bucket]. rewrite app_nil_r. destruct (flushed_ok l a gone Hlok Hst Hc). by eapply replace_ok. }
  destruct (step_tasks _ _ _ _ _ Hs L1) as [(Ht & Es & Est)|(t & w & s & out & stops & Ht & Hrun & Es & Hw & Est)].
  - apply (Hkeep ltac:(by rewrite Es) []); [by rewrite Es|done|]. intros p. rewrite Ht. change (cnt p []) with 0%nat. lia.
  - assert (Hc : forall p, cnt p (link_packet <$> tasks (link_actor l)) = (cnt p [link_packet t] + cnt p (link_packet <$> w))%nat).
    { intros p. rewrite <-cnt_app. apply cnt_perm. by rewrite Ht. }
    destruct t as [q|q]; cbn [link_run] in Hrun;
      [destruct (negb (reliable q) && negb _); [|destruct (negb (reliable q) && env_lose env)]|]; injection Hrun as <- <- <-.
    + apply (Hkeep ltac:(by rewrite Es) [q]); [rewrite Es; cbn; by rewrite L3|done|]. intros p. rewrite Hc, Hw. cbn. lia.
    + apply (Hkeep ltac:(by rewrite Es) [q]); [rewrite Es; cbn; by rewrite L3|done|]. intros p. rewrite Hc, Hw. cbn. lia.
    + apply (Hkeep ltac:(by rewrite Es) []); [by rewrite Es|done|]. intros p. rewrite Hc, Hw, <-cnt_app. cbn. change (cnt p []) with 0%nat. lia.
    + assert (Eh : handed (Actor.state a) = [q]) by (rewrite Es; cbn; by rewrite L2).
      assert (El : lost (Actor.state a) = []) by (by rewrite Es). rewrite Eh, El. cbn [offer_to_bucket].
      destruct (flushed_ok l a [q] Hlok Est) as [Hok Hcf]; [intros p; rewrite Hc, Hw; cbn; lia|].
      destruct (bucket_send_packet seen q (flushed l a)) as [l' fit] eqn:Eb. destruct fit.
      * destruct (bucket_accepts seen q (flushed l a) l' Hok Hseen) as (Hok' & Hrec & Hc').
        -- intros ip Hip. specialize (L6 ip Hip). rewrite Forall_forall in L6. apply L6. rewrite cnt_elem, Hcf.
           assert (0 < cnt q [q])%nat by (apply cnt_elem; by left). lia.
        -- done.
        -- cbn. eapply replace_ok; [done..|]. intros p. rewrite Hcf, Hc'. change (cnt p []) with 0%nat. lia.
      * assert (l' = flushed l a) as ->. { unfold bucket_send_packet in Eb. destruct (_ <? _); by injection Eb as <-. }
        cbn. by eapply replace_ok.
Qed.

(** The bucket after a step of its actor, which passed [out] on and lost [gone]. *)
Definition drained (l : Link) (a : Actor.Actor BucketState BucketTask) (out gone : list BucketTask) : Link :=
  l <| bucket_actor := Actor.mkActor (mkBucket [] []) (Actor.channel a) (Actor.delayed_tasks a) (Actor.stopped a)
         (Actor.running a && bool_decide (length gone = 0%nat)) |>
    <| queued_size := queued_size l - total out - total gone |>.

Lemma total_app l k : total (l ++ k) = total l + total k.
Proof. induction l as [|t l IH]; cbn; lia. Qed.

Lemma drained_ok l a out gone :
  link_ok l -> Actor.stopped a = false -> tasks (bucket_actor l) ≡ₚ (out ++ gone) ++ tasks a ->
  link_ok (drained l a out gone) /\
  forall p, cnt p (in_link l) = (cnt p (in_link (drained l a out gone)) + cnt p (transmitted <$> out) + cnt p (transmitted <$> gone))%nat.
Proof.
  intros [H1 H2 H3 H4 (Hq & Hpos & Hmax) H6] Hst Ht.
  assert (Hc : forall p, cnt p (in_link l) =
    (cnt p (in_link (drained l a out gone)) + cnt p (transmitted <$> out) + cnt p (transmitted <$> gone))%nat).
  { intros p. unfold in_link. change (tasks (link_actor (drained l a out gone))) with (tasks (link_actor l)).
    change (tasks (bucket_actor (drained l a out gone))) with (tasks a). rewrite Ht, !fmap_app, !cnt_app. lia. }
  split; [|exact Hc]. rewrite Ht in Hpos. apply Forall_app in Hpos as [Hout Ha].
  assert (Htotal : total (tasks (bucket_actor l)) = total out + total gone + total (tasks a)).
  { rewrite (total_perm _ _ Ht), !total_app. lia. }
  constructor; try done.
  - pose proof (total_nonneg _ Hout) as Hn. rewrite total_app in Hn.
    unfold fits, drained. cbn. change (tasks (Actor.mkActor _ (Actor.channel a) _ _ _)) with (tasks a).
    unfold from_bytes in *. split_and!; [lia|done|lia].
  - intros ip Hip. apply (leads_sub _ (in_link l) _ ((transmitted <$> out) ++ (transmitted <$> gone))); [|by apply H6].
    intros p. rewrite Hc, cnt_app. lia.
Qed.

(** The link is replaced, what its bucket lost is dropped, and what it passed on is about to arrive. *)
Lemma bucket_step_ok i l now n a :
  net_ok n -> links n !! i = Some l -> Actor.step bucket_run tt now (bucket_actor l) a -> net_ok (after_bucket i l a n).
Proof.
  intros Hn Hi Hs. pose proof Hn as [Hr Hl Hf Hd]. assert (Hlok : link_ok l) by (by eapply Forall_lookup_1 in Hl).
  pose proof Hlok as [_ L1 _ [L2 L3] _ L6]. unfold after_bucket. fold (drained l a (passed (Actor.state a)) (crashed (Actor.state a))).
  assert (Hgone : forall gone, passed (Actor.state a) = [] -> crashed (Actor.state a) = gone -> Actor.stopped a = false ->
    tasks (bucket_actor l) ≡ₚ gone ++ tasks a ->
    net_ok (n <| links := <[i := drained l a [] gone]> (links n) |> <| dropped := dropped n ++ (transmitted <$> gone) |>)).
  { intros gone _ _ Hst Ht. destruct (drained_ok l a [] gone Hlok Hst) as [Hok Hc]; [by rewrite Ht|].
    eapply replace_ok; [done..|]. intros p. rewrite Hc. change (cnt p (transmitted <$> [])) with 0%nat. lia. }
  destruct (step_tasks _ _ _ _ _ Hs L1) as [(Ht & Es & Est)|(t & w & s & out & stops & Ht & Hrun & Es & Hw & Est)].
  { rewrite Es, L2, L3. cbn [fold_left]. apply Hgone; [by rewrite Es|by rewrite Es|done|by rewrite Ht]. }
  unfold bucket_run in Hrun. destruct (at_rate t =? 0); injection Hrun as <- <- <-; rewrite Es; cbn [passed crashed]; rewrite L2, L3; cbn [app fold_left].
  { apply Hgone; [by rewrite Es; cbn|by rewrite Es; cbn; rewrite L3|done|by rewrite Ht, Hw]. }
  destruct (drained_ok l a [t] [] Hlok Est) as [Hok Hc]; [by rewrite Ht, Hw|].
  assert (Hin : transmitted t ∈ in_link l). { rewrite cnt_elem, Hc. assert (0 < cnt (transmitted t) (transmitted <$> [t]))%nat by (apply cnt_elem; by left). lia. }
  assert (Halike : router_ok (router n) (<[i := drained l a [t] []]> (links n))).
  { eapply router_ok_alike; [by eapply alike_insert|done]. }
  change (transmitted <$> []) with (@nil Packet) in *. change (transmitted <$> [t]) with [transmitted t] in *.
  unfold pass_on. change (receiver (drained l a [t] [])) with (receiver l). destruct (receiver l) as [ip|] eqn:Erec.
  - specialize (L6 ip eq_refl). rewrite Forall_forall in L6. constructor; cbn; [done|by apply links_ok| |].
    + intros p. rewrite Hf. unfold in_transit. cbn. rewrite fmap_app, !cnt_app.
      pose proof (cnt_in_links_insert p _ _ _ (drained l a [t] []) Hi) as H. specialize (Hc p).
      change ([(ip, transmitted t)].*2) with [transmitted t]. change (cnt p []) with 0%nat in *. lia.
    + apply Forall_app. split; [done|]. apply List.Forall_cons; [by apply L6|apply List.Forall_nil].
  - constructor; cbn; [by apply router_send|by apply links_ok| |done].
    intros p. rewrite Hf. unfold in_transit. cbn. rewrite !cnt_app, cnt_router_send.
    change (option_list (router_packet (RouteReceive (transmitted t)))) with [transmitted t].
    pose proof (cnt_in_links_insert p _ _ _ (drained l a [t] []) Hi) as H. specialize (Hc p). change (cnt p []) with 0%nat in *. lia.
Qed.

Lemma act_ok n n' : act n n' -> net_ok n -> net_ok n'.
Proof.
  intros Ha Hn. destruct Ha; [by eapply add_ok|by apply send_ok|by eapply router_step_ok|by eapply link_step_ok|by eapply bucket_step_ok].
Qed.

Lemma reachable_ok n : reachable n -> net_ok n.
Proof.
  intros Hr. assert (H : forall m, net_ok m -> rtc act m n -> net_ok n); [|exact (H _ start_ok Hr)].
  clear Hr. intros m Hm Hmn. induction Hmn as [|x y z Hxy _ IH]; [done|]. apply IH. by eapply act_ok.
Qed.

(** C35. The simulated network neither makes up packets nor doubles them: in every
    interleaving of its actors, panics included, each packet that was sent was delivered, dropped, or is on its
    way (if only to a thread that has ended), exactly once; and an interface receives only what is
    addressed to it. *)
Theorem packets_are_conserved n :
  reachable n ->
  sent n ≡ₚ (delivered n).*2 ++ dropped n ++ in_transit n /\
  forall ip p, (ip, p) ∈ delivered n -> (dest p).1 = ip.
Proof.
  intros [_ _ Hf Hd]%reachable_ok. split.
  - apply (Permutation_count_occ Packet_eq_dec). intros p. change (cnt p (sent n) = cnt p ((delivered n).*2 ++ dropped n ++ in_transit n)).
    rewrite Hf, !cnt_app. lia.
  - intros ip p Hp. rewrite Forall_forall in Hd. exact (Hd (ip, p) Hp).
Qed.

(** A bucket never holds more than its size, though its size is read and changed by two
    threads without a lock: the counter is what the waiting packets need, overhead
    included, and never goes below zero. *)
Theorem buckets_keep_their_size n i l :
  reachable n -> links n !! i = Some l ->
  0 <= queued_size l /\ queued_size l = total (tasks (bucket_actor l)) /\ from_bytes (queued_size l) <= Z.max 0 (queue_size (bucket_config l)).
Proof.
  intros [_ Hl _ _]%reachable_ok Hi. assert (Hlok : link_ok l) by (by eapply Forall_lookup_1 in Hl).
  destruct Hlok as [_ _ _ _ (Hq & Hpos & Hmax) _]. apply total_nonneg in Hpos. split_and!; [lia|done|done].
Qed.

End SimnetPackets.
