(* ===== verification/SimnetExamples.v ===== *)
(** * A packet through the simulated network

    The theorems of [SimnetPackets] at a run with two interfaces. *)

From S2P Require Import Prelude Actor Simnet SimnetPackets.
From Stdlib Require Import QArith.
Local Open Scope Z_scope.
Local Open Scope ringrtc_scope.

Module SimnetExamples.
Import Simnet.
Import SimnetPackets.

Definition good_link : LinkConfig := mkLinkConfig 10 20 0 0 5000000 2500000.
Definition here : IpAddr := V4 1.
Definition there : IpAddr := V4 2.
Definition hello : Packet := mkPacket (here, 1000) (there, 2000) [104; 105].

(** What an actor does next: the first task of its channel, or else of its heap. *)
Definition turn {State Env Task : Type} (run : Env -> Task -> State -> State * list (Actor.Sent Task) * bool) (env : Env)
  (a : Actor.Actor State Task) : Actor.Actor State Task :=
  match Actor.channel a with
  | t :: l =>
    if Actor.is_delayed t then a <| Actor.channel := l |> <| Actor.delayed_tasks := Actor.delayed_tasks a ++ [t] |>
    else Actor.run_task run env (Actor.task t) (a <| Actor.channel := l |>)
  | [] =>
    match Actor.delayed_tasks a with
    | t :: h => Actor.run_task run env (Actor.task t) (a <| Actor.delayed_tasks := h |>)
    | [] => a
    end
  end.

(** There is such a task, and the time of the only one in the heap has come. *)
Definition has_turn {State Task : Type} (now : Z) (a : Actor.Actor State Task) : bool :=
  Actor.running a && negb (Actor.stopped a) &&
  match Actor.channel a, Actor.delayed_tasks a with
  | _ :: _, _ => true
  | [], [t] => Actor.timeout now t =? 0
  | _, _ => false
  end.

Lemma turn_step {State Env Task : Type} (run : Env -> Task -> State -> State * list (Actor.Sent Task) * bool) env now a :
  has_turn now a = true -> Actor.step run env now a (turn run env a).
Proof.
  unfold has_turn, turn. intros [[Hr Hs%negb_true_iff]%andb_true_iff H]%andb_true_iff.
  destruct (Actor.channel a) as [|t l] eqn:Ec.
  - destruct (Actor.delayed_tasks a) as [|t [|]] eqn:Eh; try done. apply Z.eqb_eq in H.
    refine (Actor.step_timeout run env now a t [] [] Hr Ec Hs Eh _ H). rewrite Eh. split; [by left|].
    intros t' ->%list_elem_of_singleton. done.
  - destruct (Actor.is_delayed t) eqn:Ed; [by eapply Actor.step_push|by eapply Actor.step_run].
Qed.

(** One step of an actor of the network. *)
Inductive Turn : Type := RouterTurn | LinkTurn (i : nat) (env : LinkEnv) | BucketTurn (i : nat).

Definition take_turn (x : Turn) (n : Net) : Net :=
  match x with
  | RouterTurn => after_router (turn router_run tt (router n)) n
  | LinkTurn i env =>
    match links n !! i with Some l => after_link (queued_size l) i l (turn link_run env (link_actor l)) n | None => n end
  | BucketTurn i =>
    match links n !! i with Some l => after_bucket i l (turn bucket_run tt (bucket_actor l)) n | None => n end
  end.

Definition possible (x : Turn) (n : Net) : bool :=
  match x with
  | RouterTurn => has_turn 0 (router n)
  | LinkTurn i env =>
    match links n !! i with
    | Some l =>
      let s := Actor.state (link_actor l) in
      has_turn (env_now env) (link_actor l) && negb (env_lose env) && Qeq_bool (probability s) 0 &&
      (delay_min (config s) <=? env_delay env) && (env_delay env <? delay_max (config s))
    | None => false
    end
  | BucketTurn i => match links n !! i with Some l => has_turn 0 (bucket_actor l) | None => false end
  end.

Lemma possible_act x n : possible x n = true -> act n (take_turn x n).
Proof.
  destruct x as [|i env|i]; cbn [possible take_turn].
  - intros H. eapply act_router. by apply turn_step.
  - destruct (links n !! i) as [l|] eqn:E; [|done]. intros [[[[H1 H2%negb_true_iff]%andb_true_iff H3]%andb_true_iff H4]%andb_true_iff H5]%andb_true_iff.
    apply (act_link (queued_size l) i l env n); [done| |lia|by apply turn_step]. unfold allowed. rewrite H2.
    apply Qeq_bool_eq in H3. split_and!; [done|intros _; by rewrite H3|lia|lia].
  - destruct (links n !! i) as [l|] eqn:E; [|done]. intros H. apply (act_bucket i l 0 n); [done|by apply turn_step].
Qed.

Fixpoint take_turns (xs : list Turn) (n : Net) : option Net :=
  match xs with
  | [] => Some n
  | x :: xs => if possible x n then take_turns xs (take_turn x n) else None
  end.

Lemma take_turns_act xs n n' : take_turns xs n = Some n' -> rtc act n n'.
Proof.
  revert n. induction xs as [|x xs IH]; intros n; cbn; [by intros [= ->]|].
  destruct (possible x n) eqn:E; [|done]. intros H. eapply rtc_l; [by apply possible_act|by apply IH].
Qed.

(** Two interfaces, and a packet from one to the other. *)
Definition two_interfaces : Net :=
  match add_interface here good_link good_link net_start with
  | Val n => match add_interface there good_link good_link n with Val n => send_packet hello n | Panic => n end
  | Panic => net_start
  end.

Definition at_time (now : Z) : LinkEnv := mkLinkEnv now false 15.

Definition journey : list Turn :=
  [RouterTurn; RouterTurn; RouterTurn; LinkTurn 0 (at_time 0); LinkTurn 0 (at_time 0); LinkTurn 0 (at_time 15000000); BucketTurn 0;
   RouterTurn; LinkTurn 3 (at_time 16000000); LinkTurn 3 (at_time 16000000); LinkTurn 3 (at_time 31000000)].

Definition halfway : Net := default net_start (take_turns journey two_interfaces).

Lemma two_interfaces_reachable : rtc act net_start two_interfaces.
Proof.
  unfold two_interfaces. destruct (add_interface here good_link good_link net_start) as [n|] eqn:E1; [|apply rtc_refl].
  eapply rtc_l; [by eapply act_add|]. destruct (add_interface there good_link good_link n) as [n'|] eqn:E2; [|apply rtc_refl].
  eapply rtc_l; [by eapply act_add|]. apply rtc_once, act_send.
Qed.

Lemma journey_possible : match take_turns journey two_interfaces with Some _ => true | None => false end = true.
Proof. vm_compute. reflexivity. Qed.

Lemma halfway_reachable : reachable halfway.
Proof.
  unfold reachable, halfway. pose proof journey_possible as H. destruct (take_turns journey two_interfaces) as [n|] eqn:E; [|done]. cbn.
  etrans; [exact two_interfaces_reachable|by eapply take_turns_act].
Qed.

(** The packet waits in the second bucket, then it is delivered. *)
Example hello_arrives :
  (delivered halfway, zlen (in_transit halfway), queued_size <$> (links halfway !! 3%nat)) = ([], 1, Some 30) /\
  (delivered (take_turn (BucketTurn 3) halfway), queued_size <$> (links (take_turn (BucketTurn 3) halfway) !! 3%nat)) = ([(there, hello)], Some 0).
Proof. split; vm_compute; reflexivity. Qed.

Lemma packets_are_conserved_witness : sent halfway ≡ₚ (delivered halfway).*2 ++ dropped halfway ++ in_transit halfway.
Proof. apply (packets_are_conserved halfway halfway_reachable). Defined.

Lemma buckets_keep_their_size_witness : exists l, links halfway !! 3%nat = Some l /\ queued_size l = total (tasks (bucket_actor l)).
Proof.
  destruct (links halfway !! 3%nat) as [l|] eqn:E; [|exfalso; assert (H : is_Some (links halfway !! 3%nat)) by (vm_compute; by eexists); rewrite E in H; by destruct H].
  exists l. split; [reflexivity|]. apply (buckets_keep_their_size halfway 3 l halfway_reachable E).
Defined.

(** With a rate of 0 the first packet that gets to the bucket ends its thread, and is lost.  A loss
    of more than 100 percent does the same to the link. *)
Definition one_interface (c : LinkConfig) : Net :=
  match add_interface here c good_link net_start with Val n => send_packet hello n | Panic => net_start end.

Definition outcome_of (n : option Net) : option (list Packet * option (bool * bool)) :=
  (fun n => (dropped n, (fun l => (Actor.running (link_actor l), Actor.running (bucket_actor l))) <$> links n !! 0%nat)) <$> n.

Example panics_lose_packets :
  outcome_of (take_turns [RouterTurn; RouterTurn; LinkTurn 0 (at_time 0); LinkTurn 0 (at_time 0); LinkTurn 0 (at_time 15000000); BucketTurn 0]
    (one_interface (mkLinkConfig 10 20 0 0 0 2500000))) = Some ([hello], Some (true, false)) /\
  outcome_of (Some (take_turn (LinkTurn 0 (at_time 0)) (take_turn RouterTurn (take_turn RouterTurn
    (one_interface (mkLinkConfig 10 20 (2 # 1) 0 5000000 2500000)))))) = Some ([hello], Some (false, true)).
Proof. split; vm_compute; reflexivity. Qed.

(** A link whose delay does not vary cannot be made: the range of delays is empty. *)
Example fixed_delays_panic : add_interface here (mkLinkConfig 10 10 0 0 5000000 2500000) good_link net_start = Panic.
Proof. reflexivity. Qed.

End SimnetExamples.
