(* ===== verification/Native.v ===== *)
(** * The native platform (src/rust/src/native.rs)

    What desktop applications see of the call manager: calls of its [Platform], among them
    those that its clients of group calls make through their observer (the implementation of
    [group_call::Observer] in src/rust/src/core/call_manager.rs), become calls of three
    handlers of the application. *)

From S2P Require Import Prelude States Signaling ConnectionTypes Connection ConnectionStart CallManager.
From S2P Require Import MrpWindow MrpMerge MrpStream FrameCrypto FrameFormat Endorsements Actor GroupTypes GroupCall.
From S2P Require Import GroupSystem GroupQuiet GroupStates GroupDiagram.
From stdpp Require Import relations.
Local Open Scope Z_scope.
Local Open Scope ringrtc_scope.

Module Native.
Import GroupTypes.

Section Native.
Context {Peer K : Type} `{!CallApi Peer K}.
Context `{FrameCipher} `{SrtpCrypto} `{GroupHash} `{ZkEndorsement} `{!ZkResponse}
  `{!Codec DeviceToDevice} `{!Codec DeviceToSfu} `{!Codec SfuToDevice} `{!Codec CallMessage}.

Inductive RejectReason : Type :=
| GlareHandlingFailure
| ReceivedOfferExpired (age : Z)
| ReceivedOfferWhileActive
| ReceivedOfferWithGlare.

Inductive CallState : Type :=
| CallIncoming (mt : CallMediaType)
| CallOutgoing (mt : CallMediaType)
| CallRinging
| CallConnected
| CallConnecting
| CallEnded (reason : CallEndReason.CallEndReason)
| CallRejected (reason : RejectReason)
| CallConcluded.

Inductive GroupUpdate : Type :=
| RequestMembershipProof (client : ClientId)
| RequestGroupMembers (client : ClientId)
| ConnectionStateChanged (client : ClientId) (st : ConnectionState)
| JoinStateChanged (client : ClientId) (st : JoinState)
| RemoteDeviceStatesChanged (client : ClientId) (devices : list RemoteDeviceState)
| PeekChanged (client : ClientId) (peek_info : PeekInfo)
| Ended (client : ClientId) (reason : CallEndReason.CallEndReason)
| Ring (group : GroupId) (ring : RingId) (sender : UserId) (update : RingUpdate)
| NetworkRouteChanged (client : ClientId) (route : NetworkRoute)
| AudioLevels (client : ClientId) (captured : Z) (received : list (Z * Z))
| LowBandwidthForVideo (client : ClientId) (recovered : bool)
| Reactions (client : ClientId) (reactions : list (DemuxId * string))
| RaisedHands (client : ClientId) (raised_hands : list DemuxId)
| RtcStatsReportComplete
| SpeechEventUpdate (client : ClientId) (event : SpeechEvent)
| RemoteMute (client : ClientId) (source : DemuxId)
| ObservedRemoteMute (client : ClientId) (source target : DemuxId).

(** Calls of [SignalingSender], [CallStateHandler] and [GroupUpdateHandler] *)
Inductive AppCall : Type :=
| SendSignaling (recipient : Peer) (id : CallId) (receiver : option DeviceId) (message : Message)
| SendCallMessage (recipient : UserId) (message : list Z) (urgency : SignalingMessageUrgency)
| SendCallMessageToGroup (group : GroupId) (message : list Z) (urgency : SignalingMessageUrgency) (recipients : gset UserId)
| SendCallMessageToAdhocGroup (message : list Z) (urgency : SignalingMessageUrgency) (expiration : Z)
    (recipients_to_endorsements : gmap UserId GroupSendEndorsement)
| HandleCallState (peer : Peer) (id : CallId) (state : CallState)
| HandleRemoteAudioState (peer : Peer) (enabled : bool)
| HandleRemoteVideoState (peer : Peer) (enabled : bool)
| HandleRemoteSharingScreen (peer : Peer) (enabled : bool)
| HandleNetworkRoute (peer : Peer) (route : NetworkRoute)
| HandleAudioLevels (peer : Peer) (captured received : Z)
| HandleLowBandwidthForVideo (peer : Peer) (recovered : bool)
| HandleGroupUpdate (update : GroupUpdate).

(** ** Direct calls *)

Definition on_start_call (direction : CallDirection) (mt : CallMediaType) : CallState :=
  match direction with Outgoing => CallOutgoing mt | Incoming => CallIncoming mt end.

(** [on_event]; [ReceivedOfferExpired] fails an assertion in a debug build. *)
Definition on_event (peer : Peer) (id : CallId) (event : ApplicationEvent.ApplicationEvent) : AppCall :=
  match event with
  | ApplicationEvent.LocalRinging | ApplicationEvent.RemoteRinging => HandleCallState peer id CallRinging
  | ApplicationEvent.LocalAccepted | ApplicationEvent.RemoteAccepted | ApplicationEvent.Reconnected =>
    HandleCallState peer id CallConnected
  | ApplicationEvent.Reconnecting => HandleCallState peer id CallConnecting
  | ApplicationEvent.RemoteAudioEnable => HandleRemoteAudioState peer true
  | ApplicationEvent.RemoteAudioDisable => HandleRemoteAudioState peer false
  | ApplicationEvent.RemoteVideoEnable => HandleRemoteVideoState peer true
  | ApplicationEvent.RemoteVideoDisable => HandleRemoteVideoState peer false
  | ApplicationEvent.RemoteSharingScreenEnable => HandleRemoteSharingScreen peer true
  | ApplicationEvent.RemoteSharingScreenDisable => HandleRemoteSharingScreen peer false
  | ApplicationEvent.GlareHandlingFailure => HandleCallState peer id (CallRejected GlareHandlingFailure)
  | ApplicationEvent.ReceivedOfferExpired => HandleCallState peer id (CallRejected (ReceivedOfferExpired 0))
  | ApplicationEvent.ReceivedOfferWhileActive => HandleCallState peer id (CallRejected ReceivedOfferWhileActive)
  | ApplicationEvent.ReceivedOfferWithGlare => HandleCallState peer id (CallRejected ReceivedOfferWithGlare)
  end.


(** What the application is told about direct calls. *)
Definition on_notification (o : CallManager.Output) : option AppCall :=
  match o with
  | CallManager.OnStartCall peer id direction mt => Some (HandleCallState peer id (on_start_call direction mt))
  | CallManager.OnCallEnded peer id reason => Some (HandleCallState peer id (CallEnded reason))
  | CallManager.OnEvent peer id event => Some (on_event peer id event)
  | CallManager.OnNetworkRouteChanged peer route => Some (HandleNetworkRoute peer route)
  | CallManager.OnAudioLevels peer captured received => Some (HandleAudioLevels peer captured received)
  | CallManager.OnLowBandwidthForVideo peer recovered => Some (HandleLowBandwidthForVideo peer recovered)
  | CallManager.OnOfferExpired peer id age => Some (HandleCallState peer id (CallRejected (ReceivedOfferExpired age)))
  | CallManager.OnCallConcluded peer id => Some (HandleCallState peer id CallConcluded)
  | _ => None
  end.

(** Messages: offers, hangups and busy messages go to all devices. *)
Definition on_send (o : CallManager.Output) : option AppCall :=
  match o with
  | CallManager.OnSendOffer peer id offer => Some (SendSignaling peer id None (MOffer offer))
  | CallManager.OnSendAnswer peer id send => Some (SendSignaling peer id (Some (sa_receiver_device_id send)) (MAnswer (sa_answer send)))
  | CallManager.OnSendIce peer id send => Some (SendSignaling peer id (si_receiver_device_id send) (MIce (si_ice send)))
  | CallManager.OnSendHangup peer id send => Some (SendSignaling peer id None (MHangup (sh_hangup send)))
  | CallManager.OnSendBusy peer id => Some (SendSignaling peer id None MBusy)
  | CallManager.SendCallMessage recipient message urgency => Some (SendCallMessage recipient message urgency)
  | _ => None
  end.

Definition group_call_ring_update (group : GroupId) (ring : RingId) (sender : UserId) (update : RingUpdate) : AppCall :=
  HandleGroupUpdate (Ring group ring sender update).

(** What the call manager calls, and what it gets back: the result of the handler, except
    for the updates of a ring, whose errors are only logged.  Connections and the media of
    calls do not reach a handler. *)
Definition on_platform (o : CallManager.Output) : option AppCall :=
  match o with
  | CallManager.GroupCallRingUpdate group ring sender update => Some (group_call_ring_update group ring sender update)
  | _ => match on_notification o with Some c => Some c | None => on_send o end
  end.

Definition platform_result (handlers : AppCall -> result unit Error) (o : CallManager.Output) : result unit Error :=
  match o with
  | CallManager.GroupCallRingUpdate _ _ _ _ => Ok tt
  | _ => match on_platform o with Some c => handlers c | None => Ok tt end
  end.

(** ** Group calls *)

(** The observer of a client is the call manager: it encodes the messages, and passes
    everything else on to the platform except send rates and endorsements. *)
Definition observer_message (c : GroupCall.ObserverCall) : option AppCall :=
  match c with
  | GroupCall.SendSignalingMessage recipient message urgency => Some (SendCallMessage recipient (pb_encode message) urgency)
  | GroupCall.SendSignalingMessageToGroup group message urgency recipients =>
    Some (SendCallMessageToGroup group (pb_encode message) urgency recipients)
  | GroupCall.SendSignalingMessageToAdhocGroup message urgency expiration recipients =>
    Some (SendCallMessageToAdhocGroup (pb_encode message) urgency expiration recipients)
  | _ => None
  end.

Definition passed_on (c : GroupCall.ObserverCall) : bool :=
  match c with
  | GroupCall.HandleSendRatesChanged _ | GroupCall.HandleEndorsementsUpdate _ => false
  | GroupCall.SendSignalingMessage _ _ _ | GroupCall.SendSignalingMessageToGroup _ _ _ _
  | GroupCall.SendSignalingMessageToAdhocGroup _ _ _ _ => false
  | _ => true
  end.

(** The platform makes an update of it; the reason why devices changed, the members that
    joined and video tracks are of no use to it. *)
Definition group_update (client : ClientId) (c : GroupCall.ObserverCall) : option GroupUpdate :=
  match c with
  | GroupCall.RequestMembershipProof => Some (RequestMembershipProof client)
  | GroupCall.RequestGroupMembers => Some (RequestGroupMembers client)
  | GroupCall.HandleConnectionStateChanged st => Some (ConnectionStateChanged client st)
  | GroupCall.HandleNetworkRouteChanged route => Some (NetworkRouteChanged client route)
  | GroupCall.HandleSpeakingNotification event => Some (SpeechEventUpdate client event)
  | GroupCall.HandleAudioLevels captured received => Some (AudioLevels client captured received)
  | GroupCall.HandleLowBandwidthForVideo recovered => Some (LowBandwidthForVideo client recovered)
  | GroupCall.HandleReactions reactions => Some (Reactions client reactions)
  | GroupCall.HandleRaisedHands raised_hands => Some (RaisedHands client raised_hands)
  | GroupCall.HandleJoinStateChanged st => Some (JoinStateChanged client st)
  | GroupCall.HandleRemoteDevicesChanged devices _ => Some (RemoteDeviceStatesChanged client devices)
  | GroupCall.HandlePeekChanged peek_info _ => Some (PeekChanged client peek_info)
  | GroupCall.HandleRemoteMuteRequest source => Some (RemoteMute client source)
  | GroupCall.HandleObservedRemoteMute source target => Some (ObservedRemoteMute client source target)
  | GroupCall.HandleRtcStatsReport => Some RtcStatsReportComplete
  | GroupCall.HandleEnded reason => Some (Ended client reason)
  | _ => None
  end.

Definition on_observer (client : ClientId) (c : GroupCall.ObserverCall) : option AppCall :=
  match observer_message c with
  | Some m => Some m
  | None => if passed_on c then HandleGroupUpdate <$> group_update client c else None
  end.

(** All calls of the handlers that a client of a group call has caused. *)
Definition app_calls (client : ClientId) (outputs : list GroupCall.Output) : list AppCall :=
  omap (fun o => match o with GroupCall.ToObserver c => on_observer client c | _ => None end) outputs.

(** ** What the application sees of a group call *)

Definition connection_updates (client : ClientId) (calls : list AppCall) : list ConnectionState :=
  omap (fun c => match c with
                 | HandleGroupUpdate (ConnectionStateChanged c st) => if bool_decide (c = client) then Some st else None
                 | _ => None
                 end) calls.
Definition join_updates (client : ClientId) (calls : list AppCall) : list JoinState :=
  omap (fun c => match c with
                 | HandleGroupUpdate (JoinStateChanged c st) => if bool_decide (c = client) then Some st else None
                 | _ => None
                 end) calls.
Definition end_updates (client : ClientId) (calls : list AppCall) : list CallEndReason.CallEndReason :=
  omap (fun c => match c with
                 | HandleGroupUpdate (Ended c reason) => if bool_decide (c = client) then Some reason else None
                 | _ => None
                 end) calls.

Lemma connection_updates_told client outputs :
  connection_updates client (app_calls client outputs) = GroupDiagram.connections (outputs ≫= GroupSystem.told).
Proof.
  induction outputs as [|o outputs IH]; [done|]. unfold connection_updates, app_calls, GroupDiagram.connections in *.
  change ((o :: outputs) ≫= GroupSystem.told) with (GroupSystem.told o ++ (outputs ≫= GroupSystem.told)).
  rewrite omap_app, <-IH. cbn. destruct o as [[]| | |]; cbn; rewrite ?bool_decide_true by done; done.
Qed.

Lemma join_updates_told client outputs :
  join_updates client (app_calls client outputs) = GroupDiagram.joins (outputs ≫= GroupSystem.told).
Proof.
  induction outputs as [|o outputs IH]; [done|]. unfold join_updates, app_calls, GroupDiagram.joins in *.
  change ((o :: outputs) ≫= GroupSystem.told) with (GroupSystem.told o ++ (outputs ≫= GroupSystem.told)).
  rewrite omap_app, <-IH. cbn. destruct o as [[]| | |]; cbn; rewrite ?bool_decide_true by done; done.
Qed.

Lemma end_updates_told client outputs :
  end_updates client (app_calls client outputs) = GroupDiagram.endings (outputs ≫= GroupSystem.told).
Proof.
  induction outputs as [|o outputs IH]; [done|]. unfold end_updates, app_calls, GroupDiagram.endings in *.
  change ((o :: outputs) ≫= GroupSystem.told) with (GroupSystem.told o ++ (outputs ≫= GroupSystem.told)).
  rewrite omap_app, <-IH. cbn. destruct o as [[]| | |]; cbn; rewrite ?bool_decide_true by done; done.
Qed.

(** What a desktop application is told of a group call, through the call manager and the
    native platform: the connection states and the join states are paths of the diagrams of
    group_call.rs; the end is told at most once, and then it is the last call of a handler
    for this client, for ever. *)
Theorem group_updates_follow_the_diagrams client y :
  GroupSystem.reachable y ->
  let calls := app_calls client (GroupCall.outputs (Actor.state (GroupSystem.client y))) in
  exists states c j,
    GroupDiagram.path GroupStates.conn_edge NotConnected states c /\
    GroupDiagram.path GroupStates.join_edge (NotJoined None) (join_updates client calls) j /\
    (connection_updates client calls = states /\ end_updates client calls = [] \/
     connection_updates client calls = states ++ [NotConnected] /\
     exists before reason, calls = before ++ [HandleGroupUpdate (Ended client reason)] /\ end_updates client before = [] /\
       forall y', rtc GroupSystem.act y y' -> app_calls client (GroupCall.outputs (Actor.state (GroupSystem.client y'))) = calls).
Proof.
  intros Hr. cbn zeta. rewrite connection_updates_told, join_updates_told, end_updates_told.
  apply GroupDiagram.reachable_sound in Hr as [_ _ Hh].
  destruct Hh as [(Hc & (j & Hj & Hf) & He)|(Hst & v & reason & k & (Hc & (j & Hj & Hf) & He) & Hv & Ho)].
  - eexists _, _, j. split_and!; [exact Hc|exact Hj|]. left. split; [done|exact He].
  - assert (Htold : (GroupCall.outputs (Actor.state (GroupSystem.client y)) ≫= GroupSystem.told) =
      GroupStates.v_told v ++ [GroupSystem.ToldConnection NotConnected; GroupSystem.ToldEnded reason]) by exact (f_equal GroupStates.v_told Hv).
    assert (Hk : (k ≫= GroupSystem.told) = GroupStates.v_told v ++ [GroupSystem.ToldConnection NotConnected]).
    { rewrite Ho, bind_app in Htold. cbn in Htold. change [GroupSystem.ToldConnection NotConnected; GroupSystem.ToldEnded reason] with
        ([GroupSystem.ToldConnection NotConnected] ++ [GroupSystem.ToldEnded reason]) in Htold. rewrite app_assoc in Htold.
      by apply app_inj_tail in Htold as [-> _]. }
    eexists (GroupDiagram.connections (GroupStates.v_told v)), _, j. split_and!; [exact Hc| |right; split].
    + rewrite Htold. unfold GroupDiagram.joins in *. rewrite omap_app. cbn. by rewrite app_nil_r.
    + rewrite Htold. unfold GroupDiagram.connections. by rewrite omap_app.
    + exists (app_calls client k), reason. split_and!.
      * rewrite Ho. unfold app_calls. by rewrite omap_app.
      * rewrite end_updates_told, Hk. unfold GroupDiagram.endings in *. rewrite omap_app. cbn. by rewrite app_nil_r.
      * intros y' Hy. by destruct (GroupDiagram.stopped_acts y y' Hy Hst) as (_ & -> & _).
Qed.

End Native.
End Native.
